(* ===== verification/_CoqProject ===== *)
-Q . S2P
Prelude.v
GoStrings.v
GoBase64.v
GoTime.v
GoFloat.v
GoSha256.v
Contract.v
Registry.v
Runner.v
Verdict.v
Group.v
Api.v
Plan.v
Soak.v
Pods.v
RunPlan.v
PlanStore.v
Attempt.v
History.v
Effects.v
World.v
Cordon.v
Admission.v
PodBuild.v
Rendezvous.v
Artifacts.v
Engine.v
Lifecycle.v
Scenario.v
Frames.v
Safety.v
Guard.v
Converge.v
Interlock.v
Schedule.v
Hourly.v
Ticks.v
Fired.v
SchedulePass.v
Envelope.v
Exporter.v
Sink.v
Identity.v
Fingerprint.v
Stats.v
Compare.v
LocalTranslate.v
Localrun.v
LocalCli.v
Merge.v
Seal.v
GoRegexp.v
GoNet.v
Detect.v
Sanitize.v
RunnerLib.v
XpuDiag.v
NetGuard.v
DiskIo.v
DcgmPlan.v
DcgmDiag.v
DcgmVerdict.v
DcgmFields.v
RunnerContract.v
