(* ===== verification/Prelude.v ===== *)
(** * A verification library for the glimmer burn-in operator

    glimmer-burnin runs acceptance tests on accelerator nodes and says whether a node may
    take work.  A controller (internal/controller) executes a profile's tests in pods; a
    command (cmd/burnin over pkg/localrun) executes the same tests in containers on bare
    metal.  Both judge what a runner prints with the same packages (pkg/runner, pkg/verdict,
    pkg/group, pkg/plan), and both write a document that senders deliver (internal/sink) and
    later tools compare, seal and sanitize (pkg/compare, cmd/burnin/seal.go, pkg/sanitize).
    The library follows that structure, one file per part, in dependency order.

    ** The files

    The language and its library:
    - [Prelude]: automation, machine integers, lists, options and maps.
    - [GoStrings], [GoBase64], [GoTime], [GoFloat], [GoSha256], [GoRegexp], [GoNet]: the part
      of package strings, sort, strconv, encoding/base64, time, crypto/sha256, crypto/hmac,
      regexp and net the program uses, as executable functions.

    What both dispatchers share:
    - [Contract], [Registry]: the acceptance vocabulary and the metric registry, entry by
      entry (pkg/contract vocabulary.go, verdictwords.go, metrics.go).
    - [Runner]: a runner's output becomes a result and artifacts (pkg/runner).
    - [Verdict]: thresholds against measurements, and the threshold linter (pkg/verdict).
    - [Group]: what N ranks jointly established (pkg/group).
    - [Api]: the objects of api/v1alpha1.
    - [Plan]: variants, axes and the refusals (pkg/plan).

    The controller (internal/controller):
    - [Soak], [Pods], [RunPlan], [PlanStore]: soak.go, the readers and names of pods.go,
      and plan.go: building the plan, and storing it in an annotation.
    - [Attempt], [History]: results, attempts, counters and phases, and the life of one
      execution over every sequence of steps.
    - [Effects], [World]: the handlers' monad and the cluster with its faults.
    - [Cordon], [Admission], [PodBuild], [Rendezvous], [Artifacts]: cordon.go and
      cordonreaper.go, admission.go, podForTest with pkg/runnerimages, the judgement of
      pair.go and group.go, artifacts.go.
    - [Engine], [Lifecycle]: one sweep over a plan, and a whole reconcile of a run.
    - [Scenario], [Frames], [Safety], [Guard], [Converge], [Interlock]: small clusters for
      the witnesses, and the theorems about a reconcile.
    - [Schedule], [Hourly], [Ticks], [Fired], [SchedulePass]: the schedule controller and
      the theorems about its ticks and its history.
    - [Identity], [Fingerprint]: the node fingerprint controller.

    Delivery (pkg/contract/envelope.go, internal/sink, internal/metrics):
    - [Envelope], [Exporter], [Sink].

    After a run, and bare metal:
    - [Stats], [Compare]: pkg/stats and pkg/compare.
    - [LocalTranslate], [Localrun], [LocalCli], [Merge]: pkg/localrun, and cmd/burnin's plan,
      roles, envelopes and merge of a collective.
    - [Seal], [Detect], [Sanitize]: sealed results, and the copy that can leave the site.

    The test programs that decide something (runners):
    - [RunnerLib]: what every Go runner prints, its environment (zz_runnerlib.go), and how it
      ends: with an exit code, or in a panic.
    - [XpuDiag], [NetGuard], [DiskIo]: the verdict of runners/xpu-diag, the management-path
      guard of runners/tcp-baseline, the guards, passes and decisions of runners/disk-io.
    - [DcgmPlan], [DcgmDiag], [DcgmVerdict], [DcgmFields]: what runners/dcgm-diag asks for, how
      it reads the document, what it decides, and the fields it samples.
    - [RunnerContract]: the class of runners, whose instances are these four, and how
      pkg/runner ([Runner]) reads what they print.

    ** How code corresponds to definitions

    A definition carries the name of the Go function or type it translates; a struct is a
    Record whose fields carry a short prefix (a TestResult's Phase is [tr_Phase]); an enum
    the source declares as an open string stays a string, because its unknown values have a
    behaviour too.  A pointer into a slice that the source writes through is an index into
    the list.  An error is its message, nil is [None].  A loop with an early return is a
    [Fixpoint] over the list or a [foldl] on an accumulator.  A handler of the controller is
    a computation of [Effects]' monad: its state is the in-memory object, the nodes the pass
    knows to be busy and the cluster, and the effects before an error stay done.

    Every call of a handler takes an entry of a fault script: it lands, is rejected without
    an effect, or takes effect and loses its answer.  Theorems about a reconcile quantify
    over every script, so they speak about conflicts, refusals and lost answers alike.

    Clients are proved against interfaces where the source has them: [PlanCodec] (JSON and
    gzip of a pinned plan), [CronLib] (cron schedules and time zones), [Wire] (HTTP and
    the JSON of an envelope), [JsonCodec] (decoded JSON documents), [Host] (files of a
    machine), [RangeOrder] (the order a range over a map takes).  Each theorem over one of
    them has a witness with a concrete instance.

    ** What the theorems show

    - A run is stored as Passed only when every execution of its plan is accepted
      ([Safety]); a pass never loads more nodes than its interlock allows ([Interlock]);
      what a run owes the cluster is guarded by its finalizer ([Guard]) and, once calls get
      through, paid off with its verdict sent ([Converge]); cordons give back what they
      found, and the reaper removes only what is provably orphaned ([Cordon]); which run
      yields to which is decided exactly ([Admission]); evidence stays within its budgets
      and its references name it, when no two artifacts of a pod share a name ([Artifacts]).
    - The sequences of attempts the controller can write are those of an abstract
      specification, for repeats and for soaks ([History], [Soak]), and the bare-metal loop
      refines the same rules and terminates ([Localrun]).
    - The verdict is the declarative reading of the thresholds ([Verdict]); a group's value
      of a metric is elected from all its ranks measured ([Group], [Rendezvous]); a merged collective has the
      verdict the controller's fold gives ([Merge]); a skip needs its marker ([Runner]).
    - The two dispatchers build the same plan, of a profile that names its tests, and the
      same container, but for what the theorems name ([LocalCli], [LocalTranslate]); which
      profiles a plan is made of ([RunPlan]); a plan within the reader's bound survives its
      annotation ([PlanStore]), and a pod is what the runner contract promises ([PodBuild]).
    - Schedules fire the latest due tick, and never one twice ([Ticks], [Fired]);
      fingerprints settle, and a pass writes only what moved ([Fingerprint]).
    - Delivery documents are deliverable, the exporter publishes what it remembers, a
      ConfigMap sink never takes over another's object ([Envelope], [Exporter], [Sink]).
    - A comparison fails only on an enforced regression ([Compare]); a sealed directory
      verifies, and one whose covered files changed does not ([Seal]); a sanitized copy was
      scanned again, is sealed and verifies, and keeps its measurements, but for what stands
      under the name of an environment ([Sanitize]).
    - pkg/runner reads from each modelled runner the verdict it meant, and a panic as an error
      ([RunnerContract]); what dcgm-diag makes of its document is characterised exit code by
      exit code, whatever order maps are ranged over in ([DcgmVerdict]); no end of a pair is
      loaded before both ends' guards passed ([NetGuard]); disk-io removes no file it was
      refused to create and keeps its reserve ([DiskIo]).

    Where the code does not do what its comments or documents say, a lemma beside the model
    exhibits the execution; the names of those lemmas say what goes wrong.

    ** Fuel and bounds

    - [attempts_fuel] (Localrun) is repeats + retries + 1: each turn of the loop completes a
      repeat or spends a retry; [runTest_terminates] proves it enough.
    - The regexp search takes the length of the text + 1: each match consumes a byte.
    - UTF-8 validity takes the length of the string, [hex_digits] the binary logarithm + 1,
      the digits of a number its length: each step consumes a byte or a digit.
    - [FormatFloat] tries up to 17 digits, which always suffice for binary64.
    - Counters are int32 and sizes int64, with their wrap-around written out where the
      source's arithmetic can reach it.  Floats are binary64 with each operation rounded
      once, no multiply fused with an add.

    ** What the models assume

    - The clock stands still during one pass of a controller, and the informer's cache with
      it; times of a status keep their nanoseconds.  Pods end gracefully: a deleted pod is
      live until the kubelet is done with it.
    - The run a reconcile reads is the stored one; a schedule or a fingerprint may be read
      stale, and a write of its status is checked against its version.
    - Case mapping and the case folding of regular expressions are ASCII.
    - The operations a file system, a socket or a tool carries out before a deadline are a
      list; amd64's conversion of a float64 that does not fit an int64.
    - A runner panics where make or NewTicker refuse their argument; running out of memory,
      and what a panic prints on standard error, are left out.
    - Functions of package math beyond arithmetic, the seeded generator of the bootstrap,
      quantities, and the validation of Kubernetes names are parameters, with what the code
      relies on as named hypotheses.
    - A bare-metal attempt is an [AttemptInput]: what the runtime returned and what the
      runner had printed.  The host's facts, decoded YAML, file information and random
      identities are arguments; directory trees are values.
    - Log lines, the times of conditions and the manager's own metrics are not modelled.

    ** Not modelled

    - cmd/main.go: the wiring of the manager, leader election and its flags.
    - The other runners, and in the modelled ones starting tools and talking to hardware: what
      that comes to is an argument; for the dispatchers, a runner is its output.
    - pkg/hostinfo: what it finds on a machine is the record [HostFacts].
    - pkg/report and cmd/burnin/report.go: HTML, Markdown, JUnit and NVVS renderings of a
      finished result.
    - Starting, watching and stopping a container process, detecting the runtime that is
      installed, and the checks of a host's files (pkg/localrun); flag parsing, YAML,
      terminal output and kube access (cmd/burnin).
    - Generated code (deep copies), aliases of the vocabulary, hack/, config/, deploy/,
      documentation and tests. *)

From stdpp Require Export base list gmap strings fin_maps sorting.
From Stdlib Require Export ZArith Lia.

(** ** Automation *)

(** Facts about floats, maps and phases that close side conditions. *)
Create HintDb burnin.
Create Rewrite HintDb burnin.

(** Split every [match]/[if] of the goal or of a hypothesis, discharging the
    branches that contradict the context. *)
Ltac case_all :=
  repeat (case_match; simplify_eq/=; try done).

Ltac case_in H :=
  repeat (match type of H with
          | context [match ?x with _ => _ end] => destruct x eqn:?
          end; simplify_eq/=; try done).

(** ** Machine integers *)

(** A Go int32 conversion or overflow: two's complement on 32 bits. *)
Definition i32 (z : Z) : Z := ((z + 2147483648) mod 4294967296 - 2147483648)%Z.
Definition int32_range (z : Z) : Prop := (-2147483648 <= z < 2147483648)%Z.

Lemma i32_small (z : Z) : int32_range z → i32 z = z.
Proof. unfold i32, int32_range. intros. rewrite Z.mod_small; lia. Qed.

Lemma i32_range (z : Z) : int32_range (i32 z).
Proof.
  unfold i32, int32_range. pose proof (Z.mod_pos_bound (z + 2147483648) 4294967296). lia.
Qed.
#[export] Hint Resolve i32_range : burnin.

(** int64 and uint64. *)
Definition i64 (z : Z) : Z := ((z + 2 ^ 63) mod 2 ^ 64 - 2 ^ 63)%Z.
Definition u64 (z : Z) : Z := (z mod 2 ^ 64)%Z.

Lemma i64_small z : (- 2 ^ 63 <= z < 2 ^ 63)%Z → i64 z = z.
Proof. intros H. unfold i64. rewrite Z.mod_small; lia. Qed.

Lemma u64_small z : (0 <= z < 2 ^ 64)%Z → u64 z = z.
Proof. intros H. unfold u64. apply Z.mod_small. lia. Qed.

(** ** Generic list lemmas *)
Section lists.
Context {A B : Type}.

(** Go's [for ... { if p(x) { return x } }]. *)
Definition list_first (p : A → bool) (l : list A) : option A :=
  List.find p l.

Lemma list_first_Some p l x :
  list_first p l = Some x → x ∈ l ∧ p x = true.
Proof.
  intros H. apply List.find_some in H as [H1 H2].
  by rewrite list_elem_of_In.
Qed.

Lemma list_first_None p l :
  list_first p l = None ↔ ∀ x, x ∈ l → p x = false.
Proof.
  split.
  - intros H x Hx. eapply List.find_none; [done|].
    by rewrite <-list_elem_of_In.
  - induction l as [|y l IH]; intros H; [done|]. simpl.
    rewrite H by (left). apply IH. intros x Hx. apply H. by right.
Qed.

Lemma existsb_elem (p : A → bool) l :
  existsb p l = true ↔ ∃ x, x ∈ l ∧ p x = true.
Proof.
  rewrite List.existsb_exists. setoid_rewrite list_elem_of_In. done.
Qed.

Lemma forallb_elem (p : A → bool) l :
  forallb p l = true ↔ ∀ x, x ∈ l → p x = true.
Proof.
  rewrite List.forallb_forall. setoid_rewrite list_elem_of_In. done.
Qed.

Lemma existsb_false_elem (p : A → bool) l :
  existsb p l = false ↔ ∀ x, x ∈ l → p x = false.
Proof.
  rewrite <-not_true_iff_false, existsb_elem. split.
  - intros H x Hx. apply not_true_iff_false. naive_solver.
  - intros H [x [Hx Hp]]. rewrite H in Hp; done.
Qed.

Lemma option_list_elem (o : option A) x : x ∈ option_list o ↔ o = Some x.
Proof.
  destruct o; simpl; [rewrite list_elem_of_singleton|rewrite elem_of_nil]; naive_solver.
Qed.
Lemma filter_all (f : A → bool) l : (∀ x, x ∈ l → f x = true) → List.filter f l = l.
Proof.
  induction l as [|x l IH]; intros H; [done|]. cbn. rewrite (H x) by (by left).
  f_equal. apply IH. intros y Hy. apply H. by right.
Qed.

Lemma filter_perm (f : A → bool) l k : l ≡ₚ k → List.filter f l ≡ₚ List.filter f k.
Proof.
  induction 1 as [|x l k _ IH|x y l|l k m _ IH1 _ IH2]; cbn; [done|by destruct (f x); rewrite ?IH| |by etrans].
  destruct (f x), (f y); try done. apply Permutation_swap.
Qed.

Lemma filter_perm_length (f : A → bool) l k :
  l ≡ₚ k → length (List.filter f l) = length (List.filter f k).
Proof. intros H. by rewrite (filter_perm f l k H). Qed.

Lemma list_filter_sublist (f : A → bool) l : List.filter f l `sublist_of` l.
Proof. induction l as [|x l IH]; cbn; [done|]. destruct (f x); by constructor. Qed.

(** A fold whose steps commute does not see the order of the list. *)
Lemma fold_left_perm (f : B → A → B) l k b :
  l ≡ₚ k → (∀ x y b, x ∈ l → y ∈ l → f (f b x) y = f (f b y) x) →
  fold_left f l b = fold_left f k b.
Proof.
  intros Hp. revert b. induction Hp as [|x l k Hp IH|x y l|l k m Hlk IH1 _ IH2]; intros b Hc; cbn.
  - done.
  - apply IH. intros y z b' Hy Hz. by apply Hc; right.
  - by rewrite (Hc y x b) by set_solver.
  - rewrite IH1 by done. apply IH2. intros x y b' Hx Hy. by apply Hc; rewrite Hlk.
Qed.

Lemma mjoin_nil (ls : list (list A)) : mjoin ls = [] ↔ ∀ l, l ∈ ls → l = [].
Proof.
  induction ls as [|l ls IH]; simpl; [split; [by intros _ ? ?%elem_of_nil|done]|].
  setoid_rewrite elem_of_cons. split.
  - intros [-> H]%app_nil l' [->|Hin]; [done|]. by apply IH in Hin.
  - intros H. rewrite (H l) by auto. simpl. apply IH. auto.
Qed.

Lemma omap_nil (f : A → option B) l : omap f l = [] ↔ ∀ x, x ∈ l → f x = None.
Proof.
  induction l as [|x l IH]; simpl; [split; [by intros _ ? ?%elem_of_nil|done]|].
  setoid_rewrite elem_of_cons. destruct (f x) eqn:E.
  - split; [done|]. intros H. rewrite H in E by auto. done.
  - rewrite IH. naive_solver.
Qed.

(** How many elements a loop with a counter counts. *)
Definition count_if (p : A → bool) (l : list A) : Z := Z.of_nat (length (List.filter p l)).

Lemma count_if_cons p x l : count_if p (x :: l) = ((if p x then 1 else 0) + count_if p l)%Z.
Proof. unfold count_if. simpl. destruct (p x); simpl; lia. Qed.

Lemma count_if_nonneg p l : (0 <= count_if p l)%Z.
Proof. unfold count_if. lia. Qed.

Lemma count_if_pos p l : (0 < count_if p l)%Z ↔ ∃ x, x ∈ l ∧ p x = true.
Proof.
  induction l as [|x l IH].
  - unfold count_if. simpl. split; [lia|]. intros (x & Hx & _). by apply elem_of_nil in Hx.
  - rewrite count_if_cons. pose proof (count_if_nonneg p l).
    destruct (p x) eqn:E; (split; [intros Hc|intros (y & [->|Hy]%elem_of_cons & Ep)]).
    + exists x. split; [left|done].
    + lia.
    + lia.
    + rewrite Z.add_0_l in Hc. apply IH in Hc as (y & Hy & Ep). exists y. split; [by right|done].
    + congruence.
    + rewrite Z.add_0_l. apply IH. eauto.
Qed.

Lemma count_if_zero p l : count_if p l = 0%Z ↔ ∀ x, x ∈ l → p x = false.
Proof.
  pose proof (count_if_nonneg p l). split.
  - intros E x Hx. apply not_true_is_false. intros Hp.
    enough (0 < count_if p l)%Z by lia. apply count_if_pos. eauto.
  - intros Hp. destruct (decide (0 < count_if p l)%Z) as [(x & Hx & E)%count_if_pos|]; [|lia].
    by rewrite Hp in E.
Qed.
End lists.

(** ** Ranges over maps *)

(** The order a [range] over a map keyed by strings takes: any.  A definition that ranges
    twice takes two. *)
Class RangeOrder := {
  range_of : ∀ {A}, gmap String.string A → list (String.string * A);
  range_perm : ∀ {A} (m : gmap String.string A), range_of m ≡ₚ map_to_list m;
}.

Definition keys_of `{RangeOrder} {A} (m : gmap String.string A) : list String.string := (range_of m).*1.

Lemma keys_of_elem `{RangeOrder} {A} (m : gmap String.string A) k : k ∈ keys_of m ↔ is_Some (m !! k).
Proof.
  unfold keys_of. rewrite range_perm, list_elem_of_fmap. split.
  - intros ([k' x] & -> & Hk). apply elem_of_map_to_list in Hk. by exists x.
  - intros [x Hx]. exists (k, x). by rewrite elem_of_map_to_list.
Qed.

(** Two orders a range may take. *)
Definition key_order : RangeOrder :=
  {| range_of A m := map_to_list m; range_perm A m := Permutation_refl (map_to_list m) |}.

Lemma reverse_range {A} (m : gmap String.string A) : reverse (map_to_list m) ≡ₚ map_to_list m.
Proof. apply reverse_Permutation. Qed.

Definition reverse_order : RangeOrder :=
  {| range_of A m := reverse (map_to_list m); range_perm A m := reverse_range m |}.
