(* ===== verification/GoStrings.v ===== *)
(** * Go strings

    The part of Go's [strings], [sort] and [strconv] packages the program uses,
    over byte strings ([String.string], one [ascii] per byte).  Case mapping and
    quoting act on ASCII; the bytes of a multi-byte rune pass through them
    unchanged.  White space is Go's [unicode.IsSpace], multi-byte runes
    included, because [strings.TrimSpace] decides what a metric line is. *)

From S2P Require Import Prelude.
From Stdlib Require Import Ascii DecimalString DecimalZ.
Open Scope stdpp_scope.

Abbreviation str := String.string.

(** ** Bytes *)
Definition byte_of (c : ascii) : Z := Z.of_N (N_of_ascii c).
Definition chr (n : Z) : ascii := ascii_of_N (Z.to_N n).

Definition in_range (lo hi : ascii) (c : ascii) : bool :=
  (byte_of lo <=? byte_of c)%Z && (byte_of c <=? byte_of hi)%Z.

Definition is_lower (c : ascii) : bool := in_range "a" "z" c.
Definition is_upper (c : ascii) : bool := in_range "A" "Z" c.
Definition is_digit (c : ascii) : bool := in_range "0" "9" c.

Definition lower_char (c : ascii) : ascii :=
  if is_upper c then chr (byte_of c + 32) else c.
Definition upper_char (c : ascii) : ascii :=
  if is_lower c then chr (byte_of c - 32) else c.

Fixpoint map_str (f : ascii → ascii) (s : str) : str :=
  match s with
  | EmptyString => EmptyString
  | String c s => String (f c) (map_str f s)
  end.

Definition ToLower : str → str := map_str lower_char.
Definition ToUpper : str → str := map_str upper_char.
Definition EqualFold (a b : str) : bool := String.eqb (ToLower a) (ToLower b).

Fixpoint all_chars (p : ascii → bool) (s : str) : bool :=
  match s with
  | EmptyString => true
  | String c s => p c && all_chars p s
  end.

Fixpoint any_char (p : ascii → bool) (s : str) : bool :=
  match s with
  | EmptyString => false
  | String c s => p c || any_char p s
  end.

(** [strings.ContainsAny(s, chars)] *)
Definition ContainsAny (s chars : str) : bool :=
  any_char (λ c, any_char (Ascii.eqb c) chars) s.

(** ** Prefixes, suffixes, slices *)
Definition HasPrefix (s p : str) : bool := String.prefix p s.

(** [s[n:]] and [s[:n]]; the callers stay in range. *)
Fixpoint drop (n : nat) (s : str) : str :=
  match n, s with
  | S n, String _ s => drop n s
  | _, _ => s
  end.
Fixpoint take (n : nat) (s : str) : str :=
  match n, s with
  | S n, String c s => String c (take n s)
  | _, _ => EmptyString
  end.

Definition HasSuffix (s p : str) : bool :=
  (String.length p <=? String.length s)%nat &&
  String.eqb (drop (String.length s - String.length p) s) p.

Definition TrimPrefix (s p : str) : str :=
  if HasPrefix s p then drop (String.length p) s else s.
Definition TrimSuffix (s p : str) : str :=
  if HasSuffix s p then take (String.length s - String.length p) s else s.

(** ** White space *)

(** Byte sequences of the runes for which [unicode.IsSpace] answers true. *)
Definition space_runes : list str :=
  let b := λ l : list Z, String.string_of_list_ascii (chr <$> l) in
  b <$> [[9]; [10]; [11]; [12]; [13]; [32]; [194; 133]; [194; 160];
         [225; 154; 128];
         [226; 128; 128]; [226; 128; 129]; [226; 128; 130]; [226; 128; 131];
         [226; 128; 132]; [226; 128; 133]; [226; 128; 134]; [226; 128; 135];
         [226; 128; 136]; [226; 128; 137]; [226; 128; 138];
         [226; 128; 168]; [226; 128; 169]; [226; 128; 175];
         [226; 129; 159]; [227; 128; 128]]%Z.

Definition space_prefix (s : str) : option nat :=
  String.length <$> list_first (HasPrefix s) space_runes.
Definition space_suffix (s : str) : option nat :=
  String.length <$> list_first (HasSuffix s) space_runes.

Fixpoint trim_left_go (fuel : nat) (s : str) : str :=
  match fuel, space_prefix s with
  | S fuel, Some n => trim_left_go fuel (drop n s)
  | _, _ => s
  end.
Fixpoint trim_right_go (fuel : nat) (s : str) : str :=
  match fuel, space_suffix s with
  | S fuel, Some n => trim_right_go fuel (take (String.length s - n) s)
  | _, _ => s
  end.

(** Every round removes at least one byte, so the length is enough fuel. *)
Definition TrimSpace (s : str) : str :=
  let l := trim_left_go (String.length s) s in
  trim_right_go (String.length l) l.

(** [strings.Fields] *)
Fixpoint fields_go (fuel : nat) (cur : str) (s : str) : list str :=
  let flush := if String.eqb cur "" then [] else [cur] in
  match fuel, s with
  | S fuel, String c s' =>
      match space_prefix s with
      | Some n => flush ++ fields_go fuel "" (drop n s)
      | None => fields_go fuel (cur +:+ String c "") s'
      end
  | _, _ => flush
  end.
Definition Fields (s : str) : list str := fields_go (String.length s) "" s.

(** [strings.TrimRight(s, cutset)] *)
Fixpoint TrimRight (s cutset : str) : str :=
  match s with
  | EmptyString => EmptyString
  | String c s' =>
      let r := TrimRight s' cutset in
      if String.eqb r "" && any_char (Ascii.eqb c) cutset then "" else String c r
  end.
Fixpoint TrimLeft (s cutset : str) : str :=
  match s with
  | String c s' => if any_char (Ascii.eqb c) cutset then TrimLeft s' cutset else s
  | EmptyString => EmptyString
  end.

(** ** Splitting and joining *)

(** [strings.Split(s, sep)] for a one-byte separator. *)
Fixpoint Split (s : str) (sep : ascii) : list str :=
  match s with
  | EmptyString => [""]
  | String c s' =>
      if Ascii.eqb c sep then "" :: Split s' sep
      else match Split s' sep with
           | w :: ws => String c w :: ws
           | [] => [String c ""]
           end
  end.

Fixpoint Join (l : list str) (sep : str) : str :=
  match l with
  | [] => ""
  | [s] => s
  | s :: l => s +:+ sep +:+ Join l sep
  end.

(** [strings.Index] of a one-byte needle; [None] is Go's -1. *)
Fixpoint IndexByte (s : str) (c : ascii) : option nat :=
  match s with
  | EmptyString => None
  | String d s' => if Ascii.eqb d c then Some 0%nat else S <$> IndexByte s' c
  end.

(** [strings.LastIndexByte] *)
Fixpoint LastIndexByte (s : str) (c : ascii) : option nat :=
  match s with
  | EmptyString => None
  | String d s' => match LastIndexByte s' c with
                   | Some i => Some (S i)
                   | None => if Ascii.eqb d c then Some 0%nat else None
                   end
  end.

(** [strings.Index] *)
Fixpoint IndexStr (s sub : str) : option nat :=
  if HasPrefix s sub then Some 0%nat
  else match s with
       | EmptyString => None
       | String _ s' => S <$> IndexStr s' sub
       end.

Fixpoint filter_str (p : ascii → bool) (s : str) : str :=
  match s with
  | EmptyString => ""
  | String c s' => if p c then String c (filter_str p s') else filter_str p s'
  end.

(** ** UTF-8 *)
Definition byte_in (lo hi : Z) (c : ascii) : bool := (lo <=? byte_of c)%Z && (byte_of c <=? hi)%Z.
Definition continuation (c : ascii) : bool := byte_in 128 191 c.

(** How many bytes the valid rune at the start of a string has. *)
Definition rune_len (s : str) : option nat :=
  match s with
  | String a rest =>
      if byte_in 0 127 a then Some 1%nat
      else if byte_in 194 223 a then
        match rest with
        | String b _ => if continuation b then Some 2%nat else None
        | _ => None
        end
      else if byte_in 224 239 a then
        match rest with
        | String b (String c _) =>
            if (if byte_in 224 224 a then byte_in 160 191 b
                else if byte_in 237 237 a then byte_in 128 159 b else continuation b) && continuation c
            then Some 3%nat else None
        | _ => None
        end
      else if byte_in 240 244 a then
        match rest with
        | String b (String c (String d _)) =>
            if (if byte_in 240 240 a then byte_in 144 191 b
                else if byte_in 244 244 a then byte_in 128 143 b else continuation b) &&
               continuation c && continuation d
            then Some 4%nat else None
        | _ => None
        end
      else None
  | EmptyString => None
  end.

Fixpoint valid_go (fuel : nat) (s : str) : bool :=
  match fuel, s with
  | _, EmptyString => true
  | O, _ => false
  | S fuel, _ => match rune_len s with Some n => valid_go fuel (drop n s) | None => false end
  end.

(** [utf8.ValidString]: every step consumes a byte, so the length is enough. *)
Definition ValidString (s : str) : bool := valid_go (String.length s) s.

Fixpoint replace_invalid_go (fuel : nat) (s : str) : str :=
  match fuel, s with
  | S fuel, String _ rest =>
      match rune_len s with
      | Some n => take n s +:+ replace_invalid_go fuel (drop n s)
      | None => String (chr 239) (String (chr 191) (String (chr 189) (replace_invalid_go fuel rest)))
      end
  | _, _ => ""
  end.

(** What ranging over the runes of a string makes of its invalid bytes: U+FFFD each. *)
Definition replace_invalid (s : str) : str := replace_invalid_go (String.length s) s.


(** [strings.FieldsFunc] *)
Fixpoint fields_func_go (p : ascii → bool) (cur s : str) : list str :=
  let flush := if String.eqb cur "" then [] else [cur] in
  match s with
  | EmptyString => flush
  | String c s' =>
      if p c then flush ++ fields_func_go p "" s'
      else fields_func_go p (cur +:+ String c "") s'
  end.
Definition FieldsFunc (s : str) (p : ascii → bool) : list str :=
  fields_func_go p "" s.

(** [strings.Contains] *)
Fixpoint Contains (s sub : str) : bool :=
  HasPrefix s sub ||
  match s with
  | EmptyString => false
  | String _ s' => Contains s' sub
  end.

(** ** Numbers and quoting *)
Definition Itoa (z : Z) : str := NilZero.string_of_int (Z.to_int z).

Definition hex_digit (n : Z) : ascii :=
  if (n <? 10)%Z then chr (48 + n) else chr (87 + n).
Definition hex_byte (n : Z) : str :=
  String (hex_digit (n / 16)) (String (hex_digit (n mod 16)) "").

Definition dq : ascii := chr 34.
Definition bs : ascii := chr 92.

Definition quote_char (c : ascii) : str :=
  let n := byte_of c in
  if Ascii.eqb c dq || Ascii.eqb c bs then String bs (String c "")
  else match n with
       | 7 => String bs "a" | 8 => String bs "b" | 9 => String bs "t"
       | 10 => String bs "n" | 11 => String bs "v" | 12 => String bs "f"
       | 13 => String bs "r"
       | _ => if (n <? 32)%Z || (n =? 127)%Z
              then String bs ("x" +:+ hex_byte n) else String c ""
       end%Z.

Fixpoint quote_go (s : str) : str :=
  match s with
  | EmptyString => String dq ""
  | String c s => quote_char c +:+ quote_go s
  end.
(** fmt's [%q] *)
Definition quote (s : str) : str := String dq (quote_go s).

(** fmt's [%v] of a string slice *)
Definition show_strings (l : list str) : str := "[" +:+ Join l " " +:+ "]".

(** [a < b] *)
Definition str_ltb (a b : str) : bool := String.leb a b && negb (String.eqb a b).

(** ** Sorting: [sort.Strings] orders byte-wise. *)
Definition sort_strings (l : list str) : list str := merge_sort String.le l.

(** Cut to at most [max] bytes without splitting a rune (both
    [truncateAtRune]s of the source). *)
Definition rune_start (c : ascii) : bool :=
  negb ((128 <=? byte_of c)%Z && (byte_of c <? 192)%Z).
Fixpoint rune_cut (s : str) (cut : nat) : nat :=
  match cut with
  | O => O
  | S n => match String.get cut s with
           | Some c => if rune_start c then cut else rune_cut s n
           | None => cut
           end
  end.
Definition truncateAtRune (s : str) (max : nat) (suffix : str) : str :=
  if (String.length s <=? max)%nat then s
  else take (rune_cut s max) s +:+ suffix.

(** ** Lemmas *)

#[local] Arguments String.append !_ _ / : simpl nomatch.

Lemma str_app_nil_r (s : str) : s +:+ "" = s.
Proof. induction s as [|c s IH]; [done|]. simpl. by rewrite IH. Qed.

Lemma str_app_assoc (a b c : str) : (a +:+ b) +:+ c = a +:+ b +:+ c.
Proof. induction a as [|x a IH]; [done|]. simpl. by rewrite IH. Qed.

Lemma str_app_length (a b : str) :
  String.length (a +:+ b) = (String.length a + String.length b)%nat.
Proof. induction a as [|x a IH]; simpl; [done|]. by rewrite IH. Qed.

Lemma drop_app (a b : str) : drop (String.length a) (a +:+ b) = b.
Proof. induction a as [|x a IH]; simpl; [by destruct b|]. done. Qed.

Lemma take_drop (n : nat) (s : str) : take n s +:+ drop n s = s.
Proof.
  revert s. induction n as [|n IH]; intros [|c s]; try done.
  simpl. by rewrite IH.
Qed.

Lemma take_app (a b : str) : take (String.length a) (a +:+ b) = a.
Proof. induction a as [|x a IH]; simpl; [by destruct b|]. by rewrite IH. Qed.

Lemma drop_length (n : nat) (s : str) :
  String.length (drop n s) = (String.length s - n)%nat.
Proof. revert s. induction n as [|n IH]; intros [|c s]; simpl; try done. Qed.

Lemma take_length (n : nat) (s : str) :
  String.length (take n s) = min n (String.length s).
Proof. revert s. induction n as [|n IH]; intros [|c s]; simpl; auto. Qed.

Lemma HasPrefix_spec s p : HasPrefix s p = true ↔ ∃ q, s = p +:+ q.
Proof.
  unfold HasPrefix. revert s.
  induction p as [|c p IH]; intros s; simpl.
  - split; [|by destruct s]. intros _. by exists s.
  - destruct s as [|d s]; simpl; [split; [done|by intros []]|].
    destruct (ascii_dec c d) as [Heq|Hne].
    + rewrite IH. subst d. split; intros [q Hq]; exists q; congruence.
    + split; [done|]. intros [q Hq]. congruence.
Qed.

Lemma HasSuffix_spec s p : HasSuffix s p = true ↔ ∃ q, s = q +:+ p.
Proof.
  unfold HasSuffix. rewrite andb_true_iff, Nat.leb_le, String.eqb_eq. split.
  - intros [Hle Hd]. exists (take (String.length s - String.length p) s).
    rewrite <-Hd at 2. by rewrite take_drop.
  - intros [q ->]. rewrite str_app_length. split; [lia|].
    replace (String.length q + String.length p - String.length p)%nat
      with (String.length q) by lia. apply drop_app.
Qed.

Lemma str_app_inj_suffix (q1 q2 p1 p2 : str) :
  q1 +:+ p1 = q2 +:+ p2 →
  HasSuffix p1 p2 = true ∨ HasSuffix p2 p1 = true.
Proof.
  revert q2. induction q1 as [|c q1 IH]; intros q2 H; simpl in H.
  - left. apply HasSuffix_spec. by exists q2.
  - destruct q2 as [|d q2]; simpl in H.
    + right. apply HasSuffix_spec. by exists (String c q1).
    + simplify_eq. eauto.
Qed.

Lemma TrimPrefix_app p s : TrimPrefix (p +:+ s) p = s.
Proof.
  unfold TrimPrefix.
  assert (HasPrefix (p +:+ s) p = true) as -> by (apply HasPrefix_spec; eauto).
  apply drop_app.
Qed.

Lemma TrimSuffix_app p s : TrimSuffix (s +:+ p) p = s.
Proof.
  unfold TrimSuffix.
  assert (HasSuffix (s +:+ p) p = true) as -> by (apply HasSuffix_spec; eauto).
  rewrite str_app_length.
  replace (String.length s + String.length p - String.length p)%nat
    with (String.length s) by lia. apply take_app.
Qed.

Lemma Split_nonempty s sep : Split s sep ≠ [].
Proof. induction s as [|c s IH]; simpl; [done|]. repeat case_match; done. Qed.

(** Joining what [Split] produced gives the string back. *)
Lemma Join_Split s sep : Join (Split s sep) (String sep "") = s.
Proof.
  induction s as [|c s IH]; [done|]. simpl.
  destruct (Ascii.eqb_spec c sep) as [->|Hne].
  - pose proof (Split_nonempty s sep). destruct (Split s sep) eqn:E; [done|].
    rewrite <-IH. done.
  - destruct (Split s sep) as [|w ws] eqn:E; [by apply Split_nonempty in E|].
    destruct ws; simpl in *; by rewrite IH.
Qed.

Definition no_char (sep : ascii) (s : str) : bool :=
  all_chars (λ c, negb (Ascii.eqb c sep)) s.

Lemma Split_no_char s sep : no_char sep s = true → Split s sep = [s].
Proof.
  induction s as [|c s IH]; [done|]. unfold no_char in *; simpl.
  rewrite andb_true_iff, negb_true_iff. intros [-> H]. by rewrite IH.
Qed.

(** Splitting a joined list of separator-free words gives the words back. *)
Lemma Split_app s t sep :
  no_char sep s = true →
  Split (s +:+ String sep t) sep = s :: Split t sep.
Proof.
  induction s as [|c s IH]; simpl.
  - intros _. by rewrite Ascii.eqb_refl.
  - unfold no_char in *; simpl.
    rewrite andb_true_iff, negb_true_iff. intros [-> H]. by rewrite IH.
Qed.

Lemma Split_sep_app a b sep : Split (a +:+ String sep b) sep = Split a sep ++ Split b sep.
Proof.
  induction a as [|c a IH]; simpl.
  - by rewrite Ascii.eqb_refl.
  - rewrite IH. destruct (Ascii.eqb c sep); [done|].
    pose proof (Split_nonempty a sep). by destruct (Split a sep).
Qed.

(** A prefix without the separator stays on the first piece. *)
Lemma Split_prefix m r sep :
  no_char sep m = true →
  ∃ h t, Split r sep = h :: t ∧ Split (m +:+ r) sep = (m +:+ h) :: t.
Proof.
  intros Hm. destruct (Split r sep) as [|h t] eqn:E; [by apply Split_nonempty in E|].
  exists h, t. split; [done|]. induction m as [|c m IH]; [done|].
  unfold no_char in Hm. simpl in Hm. apply andb_true_iff in Hm as [Hc Hm].
  simpl. apply negb_true_iff in Hc. rewrite Hc, IH by done. done.
Qed.

Lemma Split_Join l sep :
  l ≠ [] → Forall (λ s, no_char sep s = true) l →
  Split (Join l (String sep "")) sep = l.
Proof.
  intros Hne H. destruct H as [|s l Hs H]; [done|]. clear Hne.
  revert s Hs. induction H as [|t l Ht H IH]; intros s Hs; simpl.
  - by apply Split_no_char.
  - rewrite Split_app by done. f_equal. by apply IH.
Qed.

Lemma str_ltb_spec a b : str_ltb a b = true ↔ String.le a b ∧ a ≠ b.
Proof.
  unfold str_ltb, String.le. rewrite andb_true_iff, negb_true_iff, Is_true_true.
  destruct (String.eqb_spec a b); naive_solver.
Qed.

Lemma str_ltb_irrefl a : str_ltb a a = false.
Proof. unfold str_ltb. rewrite String.eqb_refl. apply andb_false_r. Qed.

Lemma str_ltb_trans a b c : str_ltb a b = true → str_ltb b c = true → str_ltb a c = true.
Proof.
  rewrite !str_ltb_spec. intros [H1 N1] [H2 N2]. split; [by etrans|].
  intros ->. apply N1. by apply (anti_symm String.le).
Qed.

Lemma str_ltb_total a b : a ≠ b → str_ltb a b = true ∨ str_ltb b a = true.
Proof.
  intros Hne. rewrite !str_ltb_spec. destruct (total String.le a b); [left|right]; done.
Qed.

Lemma sort_strings_perm l : sort_strings l ≡ₚ l.
Proof. apply merge_sort_Permutation. Qed.

Lemma sort_strings_elem l x : x ∈ sort_strings l ↔ x ∈ l.
Proof. by rewrite sort_strings_perm. Qed.

Lemma sort_strings_sorted l : Sorted String.le (sort_strings l).
Proof. apply Sorted_merge_sort. apply _. Qed.

(** Two permutations of one list sort to the same list, so a fold over a Go map
    that ends in [sort.Strings] does not depend on the iteration order. *)
Lemma sort_strings_unique l k : l ≡ₚ k → sort_strings l = sort_strings k.
Proof.
  intros H. apply (Sorted_unique String.le).
  - apply sort_strings_sorted.
  - apply sort_strings_sorted.
  - by rewrite !sort_strings_perm.
Qed.

Lemma String_eqb_refl s : String.eqb s s = true.
Proof. apply String.eqb_refl. Qed.
#[export] Hint Resolve String_eqb_refl : burnin.
#[export] Hint Rewrite String.eqb_refl Ascii.eqb_refl str_app_assoc
  str_app_nil_r : burnin.

(** *** White space and words *)

(** Printable ASCII other than the space. *)
Definition graphic (c : ascii) : bool := (33 <=? byte_of c)%Z && (byte_of c <=? 126)%Z.
Definition word (s : str) : bool := negb (String.eqb s "") && all_chars graphic s.

Definition last_char (s : str) : option ascii :=
  match rev (String.list_ascii_of_string s) with c :: _ => Some c | [] => None end.

(** No rune of white space starts or ends with a graphic byte. *)
Definition spaces_not_graphic : bool :=
  forallb (λ r, match r with String c _ => negb (graphic c) | EmptyString => false end &&
                match last_char r with Some c => negb (graphic c) | None => false end)
    space_runes.

Lemma spaces_not_graphic_true : spaces_not_graphic = true.
Proof. by vm_compute. Qed.

Lemma space_prefix_graphic c s : graphic c = true → space_prefix (String c s) = None.
Proof.
  intros Hc. unfold space_prefix.
  destruct (list_first _ _) as [r|] eqn:E; [|done].
  apply list_first_Some in E as [Hr [q Hq]%HasPrefix_spec].
  pose proof spaces_not_graphic_true as F. unfold spaces_not_graphic in F.
  rewrite forallb_elem in F. specialize (F r Hr).
  destruct r as [|c' r]; [done|]. rewrite andb_true_iff in F.
  destruct F as [F _]. simpl in Hq. simplify_eq. by rewrite Hc in F.
Qed.

Lemma list_ascii_app a b :
  String.list_ascii_of_string (a +:+ b) =
  String.list_ascii_of_string a ++ String.list_ascii_of_string b.
Proof. induction a as [|c a IH]; simpl; [done|]. by rewrite IH. Qed.

Lemma last_char_app a b :
  last_char (a +:+ b) = match last_char b with Some c => Some c | None => last_char a end.
Proof.
  unfold last_char. rewrite list_ascii_app, rev_app_distr.
  by destruct (rev (String.list_ascii_of_string b)).
Qed.

Lemma space_suffix_graphic s c :
  last_char s = Some c → graphic c = true → space_suffix s = None.
Proof.
  intros Hl Hc. unfold space_suffix.
  destruct (list_first _ _) as [r|] eqn:E; [|done].
  apply list_first_Some in E as [Hr [q ->]%HasSuffix_spec].
  pose proof spaces_not_graphic_true as F. unfold spaces_not_graphic in F.
  rewrite forallb_elem in F. specialize (F r Hr). rewrite andb_true_iff in F.
  destruct F as [_ F]. rewrite last_char_app in Hl.
  destruct (last_char r); simplify_eq. by rewrite Hc in F.
Qed.

Lemma trim_left_graphic n c s :
  graphic c = true → trim_left_go n (String c s) = String c s.
Proof. intros H. destruct n; [done|]. cbn [trim_left_go]. by rewrite space_prefix_graphic. Qed.

Lemma trim_right_graphic n s c :
  last_char s = Some c → graphic c = true → trim_right_go n s = s.
Proof.
  intros H Hc. destruct n; [done|]. cbn [trim_right_go].
  by rewrite (space_suffix_graphic s c).
Qed.

Lemma space_prefix_space s : space_prefix (String " " s) = Some 1%nat.
Proof. by destruct s; vm_compute. Qed.

Lemma TrimSpace_graphic c s d :
  graphic c = true → last_char (String c s) = Some d → graphic d = true →
  TrimSpace (String c s) = String c s.
Proof.
  intros. unfold TrimSpace. rewrite trim_left_graphic by done.
  by eapply trim_right_graphic.
Qed.

Lemma TrimSpace_leading c s d :
  graphic c = true → last_char (String c s) = Some d → graphic d = true →
  TrimSpace (String " " (String c s)) = String c s.
Proof.
  intros. unfold TrimSpace.
  assert (trim_left_go (String.length (String " " (String c s)))
            (String " " (String c s)) = String c s) as ->.
  { cbn [String.length trim_left_go]. rewrite space_prefix_space.
    cbn [drop]. by apply (trim_left_graphic (S (String.length s))). }
  by eapply trim_right_graphic.
Qed.

Lemma fields_go_word w n cur t :
  all_chars graphic w = true →
  fields_go (String.length w + n) cur (w +:+ t) = fields_go n (cur +:+ w) t.
Proof.
  revert cur. induction w as [|c w IH]; intros cur H; simpl in *.
  - by rewrite str_app_nil_r.
  - apply andb_true_iff in H as [Hc H].
    rewrite space_prefix_graphic by done. rewrite IH by done.
    by rewrite str_app_assoc.
Qed.

Lemma fields_go_space n cur t :
  cur ≠ "" → fields_go (S n) cur (String " " t) = cur :: fields_go n "" t.
Proof.
  intros H. cbn [fields_go]. rewrite space_prefix_space.
  by rewrite (proj2 (String.eqb_neq _ _) H).
Qed.

Lemma word_inv w :
  word w = true → ∃ c s d, w = String c s ∧ graphic c = true ∧
    all_chars graphic w = true ∧ last_char w = Some d ∧ graphic d = true.
Proof.
  unfold word. rewrite andb_true_iff. intros [Hne Hall].
  destruct w as [|c s]; [done|]. exists c, s.
  assert (∀ s, s ≠ "" → all_chars graphic s = true →
          ∃ d, last_char s = Some d ∧ graphic d = true) as L.
  { clear. induction s as [|c s IH]; [done|]. intros _ H.
    cbn [all_chars] in H. apply andb_true_iff in H as [Hc H].
    change (String c s) with (String c "" +:+ s). rewrite last_char_app.
    destruct (decide (s = "")) as [->|Hs]; [by exists c|].
    destruct (IH Hs H) as (d & -> & Hd). by exists d. }
  destruct (L (String c s)) as (d & Hd & Hg); [done..|].
  exists d. split_and!; try done. cbn [all_chars] in Hall.
  by apply andb_true_iff in Hall as [? _].
Qed.

(** Two words separated by one space are exactly the two fields. *)
Lemma Fields_two a b :
  word a = true → word b = true → Fields (a +:+ String " " b) = [a; b].
Proof.
  intros Ha Hb.
  destruct (word_inv a Ha) as (ca & sa & da & Ea & _ & Haall & _).
  destruct (word_inv b Hb) as (cb & sb & db & Eb & _ & Hball & _).
  unfold Fields. rewrite str_app_length.
  rewrite fields_go_word by done. cbn [String.length].
  change ("" +:+ a) with a. rewrite fields_go_space by (by subst a). f_equal.
  rewrite <-(Nat.add_0_r (String.length b)).
  rewrite <-(str_app_nil_r b) at 2. rewrite fields_go_word by done.
  change ("" +:+ b) with b. subst b. done.
Qed.

(** ** Decimal representations *)
Lemma all_chars_app p a b : all_chars p (a +:+ b) = all_chars p a && all_chars p b.
Proof. induction a as [|c a IH]; [done|]. simpl. by rewrite IH, andb_assoc. Qed.

Lemma all_chars_impl (p q : ascii → bool) s :
  (∀ c, p c = true → q c = true) → all_chars p s = true → all_chars q s = true.
Proof.
  intros Hpq. induction s as [|c s IH]; [done|]. simpl.
  rewrite !andb_true_iff. intros [? ?]. eauto.
Qed.

Lemma of_uint_acc_lower d acc :
  (Zpos acc * 10 ^ Z.of_nat (Decimal.nb_digits d) <= Zpos (Pos.of_uint_acc d acc))%Z.
Proof.
  revert acc. induction d as [|d IH|d IH|d IH|d IH|d IH|d IH|d IH|d IH|d IH|d IH]; intros acc;
    cbn [Pos.of_uint_acc Decimal.nb_digits]; [simpl; lia|..];
    rewrite Nat2Z.inj_succ, Z.pow_succ_r by lia;
    etrans; try apply IH; nia.
Qed.

Lemma to_uint_lower p :
  (10 ^ (Z.of_nat (Decimal.nb_digits (Pos.to_uint p)) - 1) <= Zpos p)%Z.
Proof.
  pose proof (DecimalPos.Unsigned.of_to p) as H.
  assert (∀ l, Pos.to_uint p ≠ Decimal.D0 l) as H0.
  { intros l Hl. rewrite Hl in H. change (Pos.of_uint l = N.pos p) in H.
    pose proof (DecimalN.Unsigned.to_of l) as Hto. unfold N.of_uint in Hto. rewrite H in Hto.
    simpl in Hto. rewrite Hl in Hto. assert (l = Decimal.Nil ∨ l ≠ Decimal.Nil) as [->|Hnil]
      by (destruct l; auto; by right).
    - by apply (DecimalPos.Unsigned.to_uint_nonzero p).
    - pose proof (DecimalFacts.nb_digits_unorm l Hnil) as Hn. rewrite <-Hto in Hn. simpl in Hn. lia. }
  destruct (Pos.to_uint p) as [|l|l|l|l|l|l|l|l|l|l] eqn:E;
    [simpl; lia|by destruct (H0 l)|..];
    cbn [Pos.of_uint Decimal.nb_digits] in *; injection H as <-;
    (etrans; [|apply of_uint_acc_lower]);
    replace (Z.of_nat (S (Decimal.nb_digits l)) - 1)%Z with (Z.of_nat (Decimal.nb_digits l)) by lia;
    pose proof (Z.pow_nonneg 10 (Z.of_nat (Decimal.nb_digits l))); lia.
Qed.

Lemma string_of_uint_length d : String.length (NilEmpty.string_of_uint d) = Decimal.nb_digits d.
Proof. induction d; simpl; congruence. Qed.

Lemma string_of_uint_digits d : all_chars is_digit (NilEmpty.string_of_uint d) = true.
Proof. induction d as [|d IH|d IH|d IH|d IH|d IH|d IH|d IH|d IH|d IH|d IH]; [done|simpl; exact IH..]. Qed.

Lemma Itoa_pos p : Itoa (Zpos p) = NilEmpty.string_of_uint (Pos.to_uint p).
Proof.
  unfold Itoa. simpl. pose proof (DecimalPos.Unsigned.to_uint_nonnil p).
  by destruct (Pos.to_uint p).
Qed.

Lemma Itoa_digits z : (0 <= z)%Z → all_chars is_digit (Itoa z) = true.
Proof.
  destruct z as [|p|p]; [done| |lia]. intros _. rewrite Itoa_pos. apply string_of_uint_digits.
Qed.

Lemma Itoa_length z k :
  (0 <= z < 10 ^ Z.of_nat k)%Z → (1 <= k)%nat → (String.length (Itoa z) <= k)%nat.
Proof.
  intros Hz Hk. destruct z as [|p|p]; [simpl; lia| |lia].
  rewrite Itoa_pos, string_of_uint_length.
  destruct (Nat.le_gt_cases (Decimal.nb_digits (Pos.to_uint p)) k) as [|Hgt]; [done|].
  pose proof (to_uint_lower p).
  assert (10 ^ Z.of_nat k <= 10 ^ (Z.of_nat (Decimal.nb_digits (Pos.to_uint p)) - 1))%Z
    by (apply Z.pow_le_mono_r; lia). lia.
Qed.

Lemma Itoa_inj a b : Itoa a = Itoa b → a = b.
Proof.
  intros H. unfold Itoa in H. apply DecimalZ.to_int_inj.
  assert (∀ z, NilZero.int_of_string (NilZero.string_of_int (Z.to_int z)) = Some (Z.to_int z)) as Hr.
  { intros z. apply NilZero.isi; destruct z as [|p|p]; simpl; try done; intros [= Hp];
      by apply (DecimalPos.Unsigned.to_uint_nonnil p). }
  pose proof (Hr a) as Ha. rewrite H, Hr in Ha. by injection Ha.
Qed.

Lemma all_chars_take p n s : all_chars p s = true → all_chars p (take n s) = true.
Proof.
  intros H. rewrite <-(take_drop n s) in H. rewrite all_chars_app, andb_true_iff in H.
  by destruct H.
Qed.

Lemma all_chars_drop p n s : all_chars p s = true → all_chars p (drop n s) = true.
Proof.
  revert s. induction n as [|n IH]; intros s H; [done|]. destruct s as [|c s]; [done|].
  simpl in *. apply andb_true_iff in H as [_ H]. by apply IH.
Qed.

(** The part before the first separator is determined by the whole. *)
Lemma no_char_split c a b a' b' :
  no_char c a = true → no_char c a' = true →
  a +:+ String c b = a' +:+ String c b' → a = a' ∧ b = b'.
Proof.
  unfold no_char. revert a'. induction a as [|x a IH]; intros [|y a']; simpl; intros H H' Heq.
  - by injection Heq.
  - injection Heq as -> ->. by rewrite Ascii.eqb_refl in H'.
  - injection Heq as -> _. by rewrite Ascii.eqb_refl in H.
  - apply andb_true_iff in H as [_ H], H' as [_ H']. injection Heq as -> Heq.
    destruct (IH a' H H' Heq) as [-> ->]. done.
Qed.

(** *** A word in front survives trimming *)
Lemma str_app_split a b c d :
  a +:+ b = c +:+ d →
  (∃ e, c = a +:+ e ∧ b = e +:+ d) ∨ (∃ e, e ≠ "" ∧ a = c +:+ e ∧ d = e +:+ b).
Proof.
  revert c. induction a as [|x a IH]; intros c H.
  - left. by exists c.
  - destruct c as [|y c]; simpl in H.
    + right. exists (String x a). split; [done|]. by subst.
    + injection H as -> H. destruct (IH c H) as [(e & -> & ->)|(e & ? & -> & ->)]; [left|right]; eauto.
Qed.

Lemma last_char_cons c s : last_char (String c s) = Some (default c (last_char s)).
Proof.
  change (String c s) with (String c "" +:+ s). rewrite last_char_app. by destruct (last_char s).
Qed.

Lemma all_chars_last p s c : all_chars p s = true → last_char s = Some c → p c = true.
Proof.
  revert c. induction s as [|x s IH]; intros c; [done|]. simpl.
  rewrite last_char_cons, andb_true_iff. intros [Hx Hs] [= <-].
  destruct (last_char s) as [d|] eqn:E; simpl; auto.
Qed.

Lemma last_char_nonempty s : s ≠ "" → ∃ c, last_char s = Some c.
Proof. destruct s as [|c s]; [done|]. rewrite last_char_cons. eauto. Qed.

Lemma space_runes_graphic : forallb (all_chars (λ c, negb (graphic c))) space_runes = true.
Proof. by vm_compute. Qed.

Lemma trim_right_prefix n p r c :
  last_char p = Some c → graphic c = true → ∃ r', trim_right_go n (p +:+ r) = p +:+ r'.
Proof.
  intros Hp Hc. revert r. induction n as [|n IH]; intros r; [by exists r|]. cbn [trim_right_go].
  unfold space_suffix. destruct (list_first _ _) as [q|] eqn:E; [|by exists r]. cbn [fmap option_fmap option_map].
  apply list_first_Some in E as [Hq [x Hx]%HasSuffix_spec].
  pose proof space_runes_graphic as F. rewrite forallb_elem in F. specialize (F q Hq).
  destruct (str_app_split p r x q Hx) as [(e & -> & ->)|(e & Hne & -> & ->)].
  - rewrite Hx, str_app_length.
    replace (String.length (p +:+ e) + String.length q - String.length q)%nat
      with (String.length (p +:+ e)) by lia.
    rewrite take_app. apply IH.
  - rewrite last_char_app in Hp. destruct (last_char_nonempty e Hne) as [d Hd].
    rewrite Hd in Hp. simplify_eq. rewrite all_chars_app, andb_true_iff in F. destruct F as [F _].
    pose proof (all_chars_last _ _ _ F Hd) as Hn. simpl in Hn. by rewrite Hc in Hn.
Qed.

Lemma TrimSpace_prefix a p r c :
  graphic a = true → last_char (String a p) = Some c → graphic c = true →
  ∃ r', TrimSpace (String a p +:+ r) = String a p +:+ r'.
Proof.
  intros Ha Hl Hc. unfold TrimSpace. simpl (String a p +:+ r).
  rewrite trim_left_graphic by done. by apply (trim_right_prefix _ (String a p) r c).
Qed.
