(* ===== verification/GoBase64.v ===== *)
(** * encoding/base64: the standard encoding

    [EncodeToString] and [DecodeString] of [base64.StdEncoding], as the pinned plan uses
    them: padded groups of four, line breaks skipped, and a decoding error that names the
    byte it stopped at.  A text that was encoded decodes to itself, is a word, and never
    begins a JSON object. *)

From S2P Require Import Prelude GoStrings.
From Stdlib Require Import Ascii.
Open Scope stdpp_scope.

(** ** The alphabet *)
Definition alphabet : str := "ABCDEFGHIJKLMNOPQRSTUVWXYZabcdefghijklmnopqrstuvwxyz0123456789+/".

Definition sextet_char (v : Z) : ascii := default "A"%char (String.get (Z.to_nat v) alphabet).

Definition sextet_of (c : ascii) : option Z :=
  if is_upper c then Some (byte_of c - 65)%Z
  else if is_lower c then Some (byte_of c - 71)%Z
  else if is_digit c then Some (byte_of c + 4)%Z
  else if Ascii.eqb c "+" then Some 62%Z
  else if Ascii.eqb c "/" then Some 63%Z
  else None.

(** ** Encoding *)
Definition first_sextet (a : ascii) : ascii := sextet_char (byte_of a / 4).
Definition second_sextet (a b : Z) : ascii := sextet_char (a mod 4 * 16 + b / 16).
Definition third_sextet (b c : Z) : ascii := sextet_char (b mod 16 * 4 + c / 64).

Fixpoint EncodeToString (s : str) : str :=
  match s with
  | EmptyString => ""
  | String a EmptyString => String (first_sextet a) (String (second_sextet (byte_of a) 0) "==")
  | String a (String b EmptyString) =>
      String (first_sextet a) (String (second_sextet (byte_of a) (byte_of b))
        (String (third_sextet (byte_of b) 0) "="))
  | String a (String b (String c s)) =>
      String (first_sextet a) (String (second_sextet (byte_of a) (byte_of b))
        (String (third_sextet (byte_of b) (byte_of c)) (String (sextet_char (byte_of c mod 64))
          (EncodeToString s))))
  end.

(** ** Decoding *)
Definition line_break (c : ascii) : bool := Ascii.eqb c (chr 10) || Ascii.eqb c (chr 13).

Fixpoint skip_breaks (pos : Z) (s : str) : Z * str :=
  match s with
  | String c s' => if line_break c then skip_breaks (pos + 1) s' else (pos, s)
  | EmptyString => (pos, s)
  end.

Definition first_byte (v w : Z) : ascii := chr (v * 4 + w / 16).
Definition second_byte (w x : Z) : ascii := chr (w mod 16 * 16 + x / 4).
Definition third_byte (x y : Z) : ascii := chr (x mod 4 * 64 + y).

(** The end of the text after its padding: nothing but line breaks. *)
Definition padded (out : str) (pos : Z) (s : str) : str + Z :=
  match skip_breaks pos s with (_, EmptyString) => inl out | (pos, _) => inr pos end.

(** The last group, whose padding starts before [pos]; [q] is what it holds so far. *)
Definition padding (q : list Z) (pos : Z) (s : str) : str + Z :=
  match q with
  | [v; w] =>
      match skip_breaks pos s with
      | (pos, EmptyString) => inr pos
      | (pos, String c s) =>
          if Ascii.eqb c "=" then padded (String (first_byte v w) "") (pos + 1) s else inr (pos - 1)%Z
      end
  | [v; w; x] => padded (String (first_byte v w) (String (second_byte w x) "")) pos s
  | _ => inr (pos - 1)%Z
  end.

(** The group so far and the rest of the text: what it decodes to, or the byte the decoder
    reports. *)
Fixpoint decode_go (q : list Z) (pos : Z) (s : str) : str + Z :=
  match s with
  | EmptyString => match q with [] => inl "" | _ => inr (pos - Z.of_nat (length q))%Z end
  | String c s =>
      match sextet_of c with
      | Some y =>
          match q with
          | [v; w; x] =>
              match decode_go [] (pos + 1) s with
              | inl out =>
                  inl (String (first_byte v w) (String (second_byte w x) (String (third_byte x y) out)))
              | inr at' => inr at'
              end
          | _ => decode_go (q ++ [y]) (pos + 1) s
          end
      | None =>
          if line_break c then decode_go q (pos + 1) s
          else if Ascii.eqb c "=" then padding q (pos + 1) s
          else inr pos
      end
  end.

(** [DecodeString]: the bytes, or the text of the [CorruptInputError]. *)
Definition DecodeString (s : str) : str + str :=
  match decode_go [] 0 s with
  | inl out => inl out
  | inr pos => inr ("illegal base64 data at input byte " +:+ Itoa pos)
  end.

(** ** What was encoded is what decodes *)

Lemma byte_range c : (0 <= byte_of c < 256)%Z.
Proof. unfold byte_of. pose proof (N_ascii_bounded c). lia. Qed.

Lemma chr_byte_of c n : n = byte_of c → chr n = c.
Proof. intros ->. unfold chr, byte_of. by rewrite N2Z.id, ascii_N_embedding. Qed.

(** Each of the 64 characters is read back, and is one a word can hold. *)
Definition sextets_ok : bool :=
  forallb (λ n, let v := Z.of_nat n in
    bool_decide (sextet_of (sextet_char v) = Some v) && graphic (sextet_char v) &&
    negb (Ascii.eqb (sextet_char v) "{")) (seq 0 64).

Lemma sextet_char_ok v :
  (0 <= v < 64)%Z →
  sextet_of (sextet_char v) = Some v ∧ graphic (sextet_char v) = true ∧ sextet_char v ≠ "{"%char.
Proof.
  intros Hv. assert (sextets_ok = true) as H by (vm_compute; reflexivity).
  unfold sextets_ok in H. rewrite forallb_elem in H. specialize (H (Z.to_nat v)).
  rewrite elem_of_seq, Z2Nat.id in H by lia. rewrite !andb_true_iff, bool_decide_eq_true in H.
  destruct H as [[H1 H2] H3]; [lia|]. split_and!; [done|done|].
  by apply negb_true_iff, Ascii.eqb_neq in H3.
Qed.

Lemma decode_sextet q pos v s :
  (0 <= v < 64)%Z → (length q <= 2)%nat →
  decode_go q pos (String (sextet_char v) s) = decode_go (q ++ [v]) (pos + 1) s.
Proof.
  intros Hv Hq. cbn [decode_go]. destruct (sextet_char_ok v Hv) as (-> & _).
  destruct q as [|? [|? [|? q]]]; [done..|]. cbn in Hq. lia.
Qed.

Lemma decode_group pos v w x y s :
  (0 <= v < 64)%Z → (0 <= w < 64)%Z → (0 <= x < 64)%Z → (0 <= y < 64)%Z →
  decode_go [] pos (String (sextet_char v) (String (sextet_char w) (String (sextet_char x)
    (String (sextet_char y) s)))) =
  match decode_go [] (pos + 1 + 1 + 1 + 1) s with
  | inl out => inl (String (first_byte v w) (String (second_byte w x) (String (third_byte x y) out)))
  | inr at' => inr at'
  end.
Proof.
  intros Hv Hw Hx Hy. rewrite !decode_sextet by (done || cbn; lia). cbn [app].
  cbn [decode_go]. by destruct (sextet_char_ok y Hy) as (-> & _).
Qed.

(** Strings in steps of three characters. *)
Lemma str_triples (P : str → Prop) :
  P "" → (∀ a, P (String a "")) → (∀ a b, P (String a (String b ""))) →
  (∀ a b c s, P s → P (String a (String b (String c s)))) → ∀ s, P s.
Proof.
  intros H0 H1 H2 H3. fix IH 1. intros [|a [|b [|c s]]]; [done|apply H1|apply H2|apply H3, IH].
Qed.

Ltac bytes :=
  repeat match goal with c : ascii |- _ => lazymatch goal with
    | _ : (0 <= byte_of c < 256)%Z |- _ => fail | _ => pose proof (byte_range c) end end;
  Z.to_euclidean_division_equations; lia.

Lemma decode_encoded pos s : decode_go [] pos (EncodeToString s) = inl s.
Proof.
  revert pos. induction s as [|a|a b|a b c s IH] using str_triples; intros pos;
    cbn [EncodeToString]; unfold first_sextet, second_sextet, third_sextet; [done|..].
  - rewrite !decode_sextet by first [bytes | cbn; lia]. cbn. unfold padded. cbn.
    f_equal. f_equal. apply chr_byte_of. bytes.
  - rewrite !decode_sextet by first [bytes | cbn; lia]. cbn. unfold padded. cbn.
    f_equal. f_equal; [apply chr_byte_of; bytes|]. f_equal. apply chr_byte_of. bytes.
  - rewrite decode_group, IH by bytes. unfold first_byte, second_byte, third_byte.
    f_equal. f_equal; [apply chr_byte_of; bytes|]. f_equal; [apply chr_byte_of; bytes|].
    f_equal. apply chr_byte_of. bytes.
Qed.

Theorem DecodeString_EncodeToString s : DecodeString (EncodeToString s) = inl s.
Proof. unfold DecodeString. by rewrite decode_encoded. Qed.

Lemma graphic_sextet v : (0 <= v < 64)%Z → graphic (sextet_char v) = true.
Proof. intros Hv. apply (sextet_char_ok v Hv). Qed.

(** An encoded text is printable throughout, and empty only for nothing. *)
Lemma encoded_graphic s : all_chars graphic (EncodeToString s) = true.
Proof.
  induction s as [|a|a b|a b c s IH] using str_triples; cbn [EncodeToString all_chars];
    unfold first_sextet, second_sextet, third_sextet; [done|..];
    rewrite !graphic_sextet by bytes; done.
Qed.

Lemma encoded_head s :
  s ≠ "" → ∃ c rest, EncodeToString s = String c rest ∧ graphic c = true ∧ c ≠ "{"%char.
Proof.
  destruct s as [|a s]; [done|]. intros _.
  destruct (sextet_char_ok (byte_of a / 4)) as (_ & Hg & Hne); [bytes|].
  destruct s as [|b [|c s]]; cbn [EncodeToString]; unfold first_sextet; eauto.
Qed.

(** Surrounding white space is all an encoded text can lose. *)
Lemma encoded_trimmed s : TrimSpace (EncodeToString s) = EncodeToString s.
Proof.
  destruct (decide (s = "")) as [->|Hs]; [done|].
  assert (word (EncodeToString s) = true) as Hw.
  { unfold word. rewrite encoded_graphic, andb_true_r.
    destruct (encoded_head s Hs) as (c & rest & -> & _). done. }
  destruct (word_inv _ Hw) as (c & r & d & Hc & Hg & _ & Hl & Hd). rewrite Hc in *.
  by eapply TrimSpace_graphic.
Qed.

Example encodes : EncodeToString "Many hands" = "TWFueSBoYW5kcw==".
Proof. reflexivity. Qed.

Example refuses : DecodeString "TWF*" = inr "illegal base64 data at input byte 3".
Proof. reflexivity. Qed.
