(* ===== verification/GoTime.v ===== *)
(** * The Go standard library's RFC 3339 times

    [time.Time.UTC().Format(time.RFC3339)] and [time.Parse(time.RFC3339, _)] over times
    in nanoseconds since the Unix epoch.  The parser is Go's: a one-digit hour, a
    fraction after a point or a comma, and an offset of up to 24 hours and 60 minutes
    are accepted; a day its month does not have is not. *)

From S2P Require Import Prelude GoStrings.
From Stdlib Require Import Ascii.
Open Scope stdpp_scope.

Definition second : Z := 1000000000.
Definition minute : Z := (60 * second)%Z.

(** ** The proleptic Gregorian calendar *)
Record date := MkDate { d_year : Z; d_month : Z; d_day : Z }.

Section calendar.
Local Open Scope Z_scope.

(** Day number from 1970-01-01, by years that start in March. *)
Definition days_of_date (dt : date) : Z :=
  let y := if d_month dt <=? 2 then d_year dt - 1 else d_year dt in
  let m := if d_month dt <=? 2 then d_month dt + 9 else d_month dt - 3 in
  let yoe := y mod 400 in
  y / 400 * 146097 + (yoe * 365 + yoe / 4 - yoe / 100 + ((153 * m + 2) / 5 + d_day dt - 1))
  - 719468.

Definition year_of_era (doe : Z) : Z := (doe - doe / 1460 + doe / 36524 - doe / 146096) / 365.

Definition date_of_days (days : Z) : date :=
  let z := days + 719468 in
  let doe := z mod 146097 in
  let yoe := year_of_era doe in
  let doy := doe - (365 * yoe + yoe / 4 - yoe / 100) in
  let mp := (5 * doy + 2) / 153 in
  let m := if mp <? 10 then mp + 3 else mp - 9 in
  let y := yoe + z / 146097 * 400 in
  MkDate (if m <=? 2 then y + 1 else y) m (doy - (153 * mp + 2) / 5 + 1).

Definition isLeap (year : Z) : bool :=
  (year mod 4 =? 0) && (negb (year mod 100 =? 0) || (year mod 400 =? 0)).

Definition daysIn (month year : Z) : Z :=
  if (month =? 2) then (if isLeap year then 29 else 28)
  else if (month =? 4) || (month =? 6) || (month =? 9) || (month =? 11) then 30 else 31.

Definition date_ok (dt : date) : Prop :=
  1 <= d_month dt <= 12 /\ 1 <= d_day dt <= daysIn (d_month dt) (d_year dt).

Lemma year_of_era_facts doe :
  0 <= doe < 146097 ->
  let yoe := year_of_era doe in
  let doy := doe - (365 * yoe + yoe / 4 - yoe / 100) in
  0 <= yoe < 400 /\ 0 <= doy <= 365 /\
  (doy = 365 -> (yoe + 1) mod 4 = 0 /\ ((yoe + 1) mod 100 = 0 -> yoe = 399)).
Proof.
  intros H yoe doy. unfold doy, yoe, year_of_era. Z.to_euclidean_division_equations. lia.
Qed.

Lemma month_of_year_day doy :
  0 <= doy <= 365 ->
  let mp := (5 * doy + 2) / 153 in
  let d := doy - (153 * mp + 2) / 5 + 1 in
  0 <= mp <= 11 /\ 1 <= d <= 31 /\
  (mp = 1 \/ mp = 3 \/ mp = 6 \/ mp = 8 -> d <= 30) /\
  (mp = 11 -> d <= 29 /\ (d = 29 -> doy = 365)).
Proof. intros H mp d. unfold d, mp. Z.to_euclidean_division_equations. lia. Qed.

Lemma leap_of_era yoe era :
  0 <= yoe < 400 -> (yoe + 1) mod 4 = 0 -> ((yoe + 1) mod 100 = 0 -> yoe = 399) ->
  isLeap (yoe + era * 400 + 1) = true.
Proof.
  intros Hy H4 H100. unfold isLeap.
  assert ((yoe + era * 400 + 1) mod 4 = 0) as -> by (Z.to_euclidean_division_equations; lia).
  destruct (Z.eq_dec ((yoe + era * 400 + 1) mod 100) 0) as [Hc|Hc].
  - assert (yoe = 399) as -> by (apply H100; Z.to_euclidean_division_equations; lia).
    assert ((399 + era * 400 + 1) mod 400 = 0) as -> by (Z.to_euclidean_division_equations; lia).
    by rewrite orb_true_r.
  - apply Z.eqb_neq in Hc. by rewrite Hc.
Qed.

Lemma daysIn_bounds m y :
  28 <= daysIn m y <= 31 /\
  (m <> 2 -> 30 <= daysIn m y) /\
  (m <> 2 -> m <> 4 -> m <> 6 -> m <> 9 -> m <> 11 -> daysIn m y = 31).
Proof.
  unfold daysIn. destruct (Z.eqb_spec m 2), (Z.eqb_spec m 4), (Z.eqb_spec m 6), (Z.eqb_spec m 9),
    (Z.eqb_spec m 11); simpl; try case_match; lia.
Qed.

Lemma date_of_days_ok days : date_ok (date_of_days days).
Proof.
  unfold date_ok, date_of_days. cbn [d_year d_month d_day].
  pose proof (Z.mod_pos_bound (days + 719468) 146097 ltac:(lia)) as Hdoe.
  generalize dependent ((days + 719468) mod 146097). intros doe Hdoe.
  pose proof (year_of_era_facts doe Hdoe) as (Hy & Hdoy & Hleap).
  generalize dependent (year_of_era doe). intros yoe Hy Hdoy Hleap.
  generalize dependent (doe - (365 * yoe + yoe / 4 - yoe / 100)). intros doy Hdoy Hleap.
  pose proof (month_of_year_day doy Hdoy) as (Hmp & Hd & H30 & H29).
  generalize dependent ((5 * doy + 2) / 153). intros mp Hmp Hd H30 H29.
  generalize dependent ((days + 719468) / 146097). intros era.
  generalize dependent (doy - (153 * mp + 2) / 5 + 1). intros d Hd H30 H29.
  pose proof (daysIn_bounds (if mp <? 10 then mp + 3 else mp - 9)
    (if (if mp <? 10 then mp + 3 else mp - 9) <=? 2 then yoe + era * 400 + 1 else yoe + era * 400))
    as (Hb2 & Hb30 & Hb31).
  destruct (Z.ltb_spec mp 10) as [Hm|Hm]; [lia|].
  split; [lia|]. destruct (Z.leb_spec (mp - 9) 2); [|lia].
  destruct (Z.eq_dec mp 10) as [->|]; [lia|]. assert (mp = 11) as -> by lia.
  destruct (Z.eq_dec d 29) as [->|]; [|lia].
  assert (doy = 365) as Heq by (apply H29; lia). destruct (Hleap Heq) as [L1 L2].
  change (11 - 9) with 2. unfold daysIn. rewrite leap_of_era by done. simpl. lia.
Qed.

(** A day's date names that day. *)
Lemma days_of_date_of_days days : days_of_date (date_of_days days) = days.
Proof.
  unfold days_of_date, date_of_days. cbn [d_year d_month d_day].
  pose proof (Z.div_mod (days + 719468) 146097 ltac:(lia)) as Hdm.
  pose proof (Z.mod_pos_bound (days + 719468) 146097 ltac:(lia)) as Hdoe.
  generalize dependent ((days + 719468) mod 146097).
  generalize dependent ((days + 719468) / 146097). intros era doe Hdm Hdoe.
  pose proof (year_of_era_facts doe Hdoe) as (Hy & Hdoy & _).
  generalize dependent (year_of_era doe). intros yoe Hy Hdoy.
  remember (doe - (365 * yoe + yoe / 4 - yoe / 100)) as doy eqn:Hdef.
  pose proof (month_of_year_day doy Hdoy) as (Hmp & _).
  set (mp := (5 * doy + 2) / 153) in *.
  assert (forall y, y = yoe + era * 400 -> y mod 400 = yoe /\ y / 400 = era) as Hera.
  { intros y ->. rewrite Z.mod_add, Z.div_add by lia. rewrite Z.mod_small, Z.div_small by lia. lia. }
  destruct (Z.ltb_spec mp 10) as [Hm|Hm].
  - destruct (Z.leb_spec (mp + 3) 2); [lia|]. destruct (Hera _ eq_refl) as [-> ->].
    replace (mp + 3 - 3) with mp by lia. lia.
  - destruct (Z.leb_spec (mp - 9) 2); [|lia].
    destruct (Hera (yoe + era * 400 + 1 - 1) ltac:(lia)) as [-> ->].
    replace (mp - 9 + 9) with mp by lia. lia.
Qed.
End calendar.

(** ** Formatting *)
Definition digit_chr (n : Z) : ascii := chr (48 + n).
Definition pad2 (n : Z) : str := String (digit_chr (n / 10)) (String (digit_chr (n mod 10)) "").
Definition pad4 (n : Z) : str := pad2 (n / 100) +:+ pad2 (n mod 100).

(** [t.UTC().Format(time.RFC3339)], for the years 0 to 9999 the layout is made for. *)
Definition FormatRFC3339 (t : Z) : str :=
  let s := (t / second)%Z in
  let dt := date_of_days (s / 86400) in
  let r := (s mod 86400)%Z in
  pad4 (d_year dt) +:+ "-" +:+ pad2 (d_month dt) +:+ "-" +:+ pad2 (d_day dt) +:+ "T" +:+
  pad2 (r / 3600) +:+ ":" +:+ pad2 (r / 60 mod 60) +:+ ":" +:+ pad2 (r mod 60) +:+ "Z".

(** ** Parsing *)
Definition digit_val (c : ascii) : option Z :=
  if is_digit c then Some (byte_of c - 48)%Z else None.

(** [getnum]: two digits, or one when [fixed] is false and no second follows. *)
Definition getnum (fixed : bool) (s : str) : option (Z * str) :=
  match s with
  | String c rest =>
      a ← digit_val c;
      match rest with
      | String c' rest' =>
          match digit_val c' with
          | Some b => Some ((10 * a + b)%Z, rest')
          | None => if fixed then None else Some (a, rest)
          end
      | "" => if fixed then None else Some (a, rest)
      end
  | "" => None
  end.

Definition getyear (s : str) : option (Z * str) :=
  '(hi, s) ← getnum true s; '(lo, s) ← getnum true s; Some ((100 * hi + lo)%Z, s).

Definition skip_char (c : ascii) (s : str) : option str :=
  match s with String c' rest => if Ascii.eqb c c' then Some rest else None | "" => None end.

Definition in_bounds (lo hi : Z) (p : option (Z * str)) : option (Z * str) :=
  '(v, s) ← p; if ((lo <=? v) && (v <=? hi))%Z then Some (v, s) else None.

(** The fraction after the seconds: nine digits count, further ones are dropped. *)
Fixpoint fraction (scale acc : Z) (s : str) : Z * str :=
  match s with
  | String c rest =>
      match digit_val c with
      | Some d => fraction (scale / 10) (acc + d * scale) rest
      | None => (acc, s)
      end
  | "" => (acc, s)
  end.

Definition getfraction (s : str) : Z * str :=
  match s with
  | String p (String c rest) =>
      if (Ascii.eqb p "." || Ascii.eqb p ",") && is_digit c
      then fraction 100000000 0 (String c rest) else (0%Z, s)
  | _ => (0%Z, s)
  end.

(** The zone: [Z], or a signed offset in seconds; nothing may follow it. *)
Definition getzone (s : str) : option Z :=
  match s with
  | "Z" => Some 0%Z
  | String sign rest =>
      '(hr, rest) ← in_bounds 0 24 (getnum true rest);
      rest ← skip_char ":" rest;
      '(mm, rest) ← in_bounds 0 60 (getnum true rest);
      if negb (String.eqb rest "") then None
      else if Ascii.eqb sign "+" then Some ((hr * 60 + mm) * 60)%Z
      else if Ascii.eqb sign "-" then Some (- ((hr * 60 + mm) * 60))%Z
      else None
  | "" => None
  end.

(** [time.Parse(time.RFC3339, s)]: [None] is the error. *)
Definition ParseRFC3339 (s : str) : option Z :=
  '(year, s) ← getyear s; s ← skip_char "-" s;
  '(month, s) ← in_bounds 1 12 (getnum true s); s ← skip_char "-" s;
  '(day, s) ← getnum true s; s ← skip_char "T" s;
  '(hour, s) ← in_bounds 0 23 (getnum false s); s ← skip_char ":" s;
  '(min, s) ← in_bounds 0 59 (getnum true s); s ← skip_char ":" s;
  '(sec, s) ← in_bounds 0 59 (getnum true s);
  let '(nsec, s) := getfraction s in
  offset ← getzone s;
  if ((day <? 1) || (daysIn month year <? day))%Z then None
  else Some ((days_of_date (MkDate year month day) * 86400 + hour * 3600 + min * 60 + sec
              - offset) * second + nsec)%Z.

Example parse_zoned :
  ParseRFC3339 "2026-02-28T23:59:59.5+01:30" = Some (1772317799 * second + 500000000)%Z.
Proof. vm_compute. reflexivity. Qed.

Example parse_no_such_day : ParseRFC3339 "2026-02-29T00:00:00Z" = None.
Proof. reflexivity. Qed.

(** ** Round trip *)
Lemma digit_val_chr n : (0 <= n < 10)%Z → digit_val (digit_chr n) = Some n.
Proof.
  intros H. assert (n = 0 ∨ n = 1 ∨ n = 2 ∨ n = 3 ∨ n = 4 ∨ n = 5 ∨ n = 6 ∨ n = 7 ∨ n = 8 ∨ n = 9)%Z
    as Hn by lia.
  repeat (destruct Hn as [->|Hn]; [reflexivity|]). by subst n.
Qed.

Lemma getnum_pad2 fixed n rest : (0 <= n < 100)%Z → getnum fixed (pad2 n +:+ rest) = Some (n, rest).
Proof.
  intros H.
  change (getnum fixed (String (digit_chr (n / 10)) (String (digit_chr (n mod 10)) rest)) = Some (n, rest)).
  cbn [getnum].
  rewrite !digit_val_chr by (Z.to_euclidean_division_equations; lia). simpl.
  do 2 f_equal. Z.to_euclidean_division_equations; lia.
Qed.

Lemma getyear_pad4 n rest : (0 <= n < 10000)%Z → getyear (pad4 n +:+ rest) = Some (n, rest).
Proof.
  intros H. unfold pad4, getyear. rewrite str_app_assoc.
  rewrite getnum_pad2 by (Z.to_euclidean_division_equations; lia). cbn [mbind option_bind].
  rewrite getnum_pad2 by (Z.to_euclidean_division_equations; lia). cbn [mbind option_bind].
  do 2 f_equal. Z.to_euclidean_division_equations; lia.
Qed.

Lemma clock_bounds r :
  (0 <= r < 86400 → 0 <= r / 3600 <= 23 ∧ 0 <= r / 60 mod 60 <= 59 ∧ 0 <= r mod 60 <= 59 ∧
   r = r / 3600 * 3600 + r / 60 mod 60 * 60 + r mod 60)%Z.
Proof. intros H. Z.to_euclidean_division_equations. lia. Qed.

Lemma skip_char_app c s : skip_char c (String c "" +:+ s) = Some s.
Proof. change (skip_char c (String c s) = Some s). cbn [skip_char]. by rewrite Ascii.eqb_refl. Qed.

Lemma in_bounds_Some lo hi v s : (lo <= v <= hi)%Z → in_bounds lo hi (Some (v, s)) = Some (v, s).
Proof.
  intros H. unfold in_bounds. simpl.
  destruct (Z.leb_spec lo v); [|lia]. by destruct (Z.leb_spec v hi); [|lia].
Qed.

(** The instants whose year has four digits: 0000-01-01 to 9999-12-31. *)
Definition four_digit_year (t : Z) : Prop := (0 <= d_year (date_of_days (t / second / 86400)) < 10000)%Z.

Lemma ParseRFC3339_Format t :
  four_digit_year t → ParseRFC3339 (FormatRFC3339 t) = Some (t / second * second)%Z.
Proof.
  unfold four_digit_year, FormatRFC3339, ParseRFC3339. intros Hyear.
  set (s := (t / second)%Z) in *. pose proof (date_of_days_ok (s / 86400)) as [Hm Hd].
  pose proof (days_of_date_of_days (s / 86400)) as Hdays.
  pose proof (Z.mod_pos_bound s 86400 ltac:(lia)) as Hr. pose proof (Z.div_mod s 86400 ltac:(lia)) as Hs.
  destruct (date_of_days (s / 86400)) as [y mo d]. cbn [d_year d_month d_day] in *.
  assert (daysIn mo y <= 31)%Z as H31 by (unfold daysIn; repeat case_match; lia).
  generalize dependent (s mod 86400)%Z. intros r Hr Hs.
  rewrite getyear_pad4 by lia. cbn [mbind option_bind]. rewrite skip_char_app. cbn [mbind option_bind].
  rewrite getnum_pad2, in_bounds_Some by lia. cbn [mbind option_bind].
  rewrite skip_char_app. cbn [mbind option_bind].
  rewrite getnum_pad2 by lia. cbn [mbind option_bind]. rewrite skip_char_app. cbn [mbind option_bind].
  destruct (clock_bounds r Hr) as (Hh & Hmi & Hse & Hclock).
  do 2 (rewrite getnum_pad2, in_bounds_Some by lia;
        cbn [mbind option_bind]; rewrite skip_char_app; cbn [mbind option_bind]).
  rewrite getnum_pad2, in_bounds_Some by lia.
  cbn [mbind option_bind getfraction getzone].
  rewrite Hdays. destruct (Z.ltb_spec d 1); [lia|]. destruct (Z.ltb_spec (daysIn mo y) d); [lia|].
  simpl. f_equal. lia.
Qed.
