(* ===== verification/GoFloat.v ===== *)
(** * Go numbers: float64 and strconv

    IEEE 754 binary64 as the Standard Library's [spec_float] (53-bit mantissa,
    exponents up to 1024), with [strconv.ParseFloat], [strconv.FormatFloat] and
    the comparisons the program uses.

    - [ParseFloat] follows [readFloat]: sign, decimal or hexadecimal mantissa,
      optional exponent, underscores under [underscoreOK], and the special words
      of [special].  The mantissa is kept exactly and rounded once to nearest,
      ties to even, which is what the two-stage algorithm of [strconv] computes.
    - [FormatFloat x] is the ['f', -1] format: the rendering with the fewest
      digits that parses back to [x], which is how the Go documentation defines
      precision -1.  17 digits always suffice for binary64. *)

From S2P Require Import Prelude GoStrings.
From Stdlib Require Import Ascii SpecFloat DecimalString DecimalPos.
Open Scope stdpp_scope.

Abbreviation float64 := spec_float.
Definition prec : Z := 53.
Definition emax : Z := 1024.

(** ** Comparison and classification *)
Definition IsNaN (x : float64) : bool :=
  match x with S754_nan => true | _ => false end.
Definition IsInf (x : float64) : bool :=
  match x with S754_infinity _ => true | _ => false end.
Definition is_finite (x : float64) : bool := negb (IsNaN x || IsInf x).

(** [x < y], [x <= y], [x == y]: false as soon as one side is NaN. *)
Definition flt (x y : float64) : bool := SFltb x y.
Definition fle (x y : float64) : bool := SFleb x y.
Definition feq (x y : float64) : bool := SFeqb x y.
Definition fadd (x y : float64) : float64 := SFadd prec emax x y.
Definition fsub (x y : float64) : float64 := SFsub prec emax x y.
Definition fmul (x y : float64) : float64 := SFmul prec emax x y.
Definition fdiv (x y : float64) : float64 := SFdiv prec emax x y.
Definition fzero : float64 := S754_zero false.
(** [-x], [math.Abs], [math.Sqrt]; [math.Max], whose NaN and infinity cases come first. *)
Definition fneg (x : float64) : float64 := SFopp x.
Definition fabs (x : float64) : float64 := SFabs x.
Definition fsqrt (x : float64) : float64 := SFsqrt prec emax x.
Definition fmax (x y : float64) : float64 :=
  match x, y with
  | S754_infinity false, _ | _, S754_infinity false => S754_infinity false
  | S754_nan, _ | _, S754_nan => S754_nan
  | S754_zero s, S754_zero _ => if s then y else x
  | _, _ => if flt y x then x else y
  end.

(** [x == math.Trunc(x)] *)
Definition is_whole (x : float64) : bool :=
  match x with
  | S754_finite _ m e =>
      (0 <=? e)%Z || (Z.pos m mod 2 ^ (- e) =? 0)%Z
  | S754_nan => false
  | _ => true
  end.

(** ** Parsing *)
Inductive num_error := ErrSyntax | ErrRange.

Global Instance num_error_eq_dec : EqDecision num_error.
Proof. solve_decision. Defined.

(** Scanner state of [readFloat]'s mantissa loop. *)
Record mant := Mant {
  m_digits : Z;       (* the digits read so far, as one integer *)
  m_scale : Z;        (* digits read after the point *)
  m_sawdot : bool;
  m_sawdigits : bool;
  m_under : bool;
}.

Definition hex_val (c : ascii) : option Z :=
  let l := lower_char c in
  if is_digit c then Some (byte_of c - 48)%Z
  else if in_range "a" "f" l then Some (byte_of l - 87)%Z else None.

Fixpoint read_mantissa (base : Z) (s : str) (st : mant) : mant * str :=
  match s with
  | EmptyString => (st, s)
  | String c s' =>
      if Ascii.eqb c "_" then
        read_mantissa base s'
          (Mant (m_digits st) (m_scale st) (m_sawdot st) (m_sawdigits st) true)
      else if Ascii.eqb c "." then
        if m_sawdot st then (st, s)
        else read_mantissa base s'
               (Mant (m_digits st) (m_scale st) true (m_sawdigits st) (m_under st))
      else
        match (if (base =? 16)%Z then hex_val c
               else if is_digit c then Some (byte_of c - 48)%Z else None) with
        | Some d =>
            read_mantissa base s'
              (Mant (m_digits st * base + d)
                    (if m_sawdot st then m_scale st + 1 else m_scale st)
                    (m_sawdot st) true (m_under st))
        | None => (st, s)
        end
  end%Z.

Fixpoint read_exp (s : str) (e : Z) (under : bool) : Z * bool * str :=
  match s with
  | String c s' =>
      if Ascii.eqb c "_" then read_exp s' e true
      else if is_digit c then
        read_exp s' (if (e <? 10000)%Z then (e * 10 + (byte_of c - 48))%Z else e) under
      else (e, under, s)
  | EmptyString => (e, under, s)
  end.

(** [underscoreOK]: underscores separate digits, plus one after a base prefix.
    [prev] is ["0"] after a digit, ["_"] after an underscore, ["^"] at the
    start and ["!"] otherwise. *)
Fixpoint underscore_go (hex : bool) (prev : ascii) (s : str) : bool :=
  match s with
  | EmptyString => negb (Ascii.eqb prev "_")
  | String c s' =>
      if is_digit c || (hex && in_range "a" "f" (lower_char c))
      then underscore_go hex "0" s'
      else if Ascii.eqb c "_" then
        if Ascii.eqb prev "0" then underscore_go hex "_" s' else false
      else if Ascii.eqb prev "_" then false
      else underscore_go hex "!" s'
  end.

Definition strip_sign (s : str) : bool * str :=
  match s with
  | String c s' =>
      if Ascii.eqb c "-" then (true, s')
      else if Ascii.eqb c "+" then (false, s') else (false, s)
  | EmptyString => (false, s)
  end.

Definition underscoreOK (s : str) : bool :=
  let s := (strip_sign s).2 in
  match s with
  | String "0" (String c s') =>
      let l := lower_char c in
      if Ascii.eqb l "b" || Ascii.eqb l "o" || Ascii.eqb l "x"
      then underscore_go (Ascii.eqb l "x") "0" s'
      else underscore_go false "^" s
  | _ => underscore_go false "^" s
  end.

(** Number of decimal digits of a non-negative integer. *)
Definition ndigits (n : Z) : Z := Z.of_nat (String.length (Itoa n)).

(** The float nearest to [(-1)^neg * num * 10^exp10]. *)
Definition round_decimal (neg : bool) (num exp10 : Z) : float64 :=
  match num with
  | Z.pos p =>
      let dp := (ndigits num + exp10)%Z in
      if (310 <? dp)%Z then S754_infinity neg
      else if (dp <? -330)%Z then S754_zero neg
      else if (0 <=? exp10)%Z then
        match (num * 10 ^ exp10)%Z with
        | Z.pos q => binary_round prec emax neg q 0
        | _ => S754_zero neg
        end
      else
        match (10 ^ (- exp10))%Z with
        | Z.pos q => SFdiv prec emax (S754_finite neg p 0) (S754_finite false q 0)
        | _ => S754_zero neg
        end
  | _ => S754_zero neg
  end.

(** The float nearest to [(-1)^neg * num * 2^exp2]. *)
Definition round_binary (neg : bool) (num exp2 : Z) : float64 :=
  match num with
  | Z.pos p =>
      let top := (Z.log2 num + exp2)%Z in
      if (1024 <? top)%Z then S754_infinity neg
      else if (top <? -1100)%Z then S754_zero neg
      else binary_round prec emax neg p exp2
  | _ => S754_zero neg
  end.

(** The optional exponent: [None] is a syntax error. *)
Definition read_exponent (hex : bool) (s : str) : option (Z * bool * str) :=
  match s with
  | String c s' =>
      if Ascii.eqb (lower_char c) (if hex then "p" else "e") then
        let '(neg, s'') :=
          match s' with
          | String "-" t => (true, t) | String "+" t => (false, t) | t => (false, t)
          end in
        match s'' with
        | String d _ =>
            if is_digit d then
              let '(e, u, rest) := read_exp s'' 0 false in
              Some ((if neg then - e else e)%Z, u, rest)
            else None
        | EmptyString => None
        end
      else if hex then None else Some (0%Z, false, s)
  | EmptyString => if hex then None else Some (0%Z, false, s)
  end.

(** [special]: the words ParseFloat accepts beside numbers. *)
Definition special (s : str) : option float64 :=
  let '(neg, r) := strip_sign s in
  let l := ToLower r in
  if String.eqb l "inf" || String.eqb l "infinity" then Some (S754_infinity neg)
  else if String.eqb (ToLower s) "nan" then Some S754_nan else None.

(** [strconv.ParseFloat(s, 64)]: the value and the error. *)
Definition ParseFloat (s : str) : float64 * option num_error :=
  match special s with
  | Some x => (x, None)
  | None =>
      let '(neg, r) := strip_sign s in
      let '(hex, r) :=
        match r with
        | String "0" (String c (String d t)) =>
            if Ascii.eqb (lower_char c) "x" then (true, String d t) else (false, r)
        | _ => (false, r)
        end in
      let '(st, rest) :=
        read_mantissa (if hex then 16 else 10) r (Mant 0 0 false false false) in
      if negb (m_sawdigits st) then (fzero, Some ErrSyntax)
      else match read_exponent hex rest with
           | Some (e, u, "") =>
               if (m_under st || u) && negb (underscoreOK s)
               then (fzero, Some ErrSyntax)
               else
                 let x := if hex
                          then round_binary neg (m_digits st) (e - 4 * m_scale st)
                          else round_decimal neg (m_digits st) (e - m_scale st) in
                 if IsInf x then (x, Some ErrRange) else (x, None)
           | _ => (fzero, Some ErrSyntax)
           end
  end.

(** ** Formatting *)

Fixpoint zeros (n : nat) : str :=
  match n with O => "" | S n => String "0" (zeros n) end.

(** [fmtF] of the digits [ds] (value [0.ds * 10^dp]) with just the decimals the
    digits need. *)
Definition fmtF (neg : bool) (ds : str) (dp : Z) : str :=
  let nd := Z.of_nat (String.length ds) in
  let int_part :=
    if (0 <? dp)%Z then take (Z.to_nat dp) ds +:+ zeros (Z.to_nat (dp - nd)) else "0" in
  let frac :=
    if (nd <=? dp)%Z then ""
    else "." +:+ zeros (Z.to_nat (- dp)) +:+ drop (Z.to_nat dp) ds in
  (if neg then "-" else "") +:+ int_part +:+ frac.

(** The digits of [q], trailing zeros dropped, with their decimal point
    position when [q] stands for [q * 10^k]. *)
Definition trim_digits (q k : Z) : str * Z :=
  let ds := Itoa q in
  (TrimRight ds "0", Z.of_nat (String.length ds) + k)%Z.

(** [|x| = num / den], both positive. *)
Definition ratio (m : positive) (e : Z) : Z * Z :=
  if (0 <=? e)%Z then (Z.pos m * 2 ^ e, 1)%Z else (Z.pos m, 2 ^ (- e))%Z.

(** [d] with [10^(d-1) <= num/den < 10^d]. *)
Definition decimal_exp (num den : Z) : Z :=
  let ge := λ d : Z, if (0 <=? d)%Z then (den * 10 ^ d <=? num)%Z
                     else (den <=? num * 10 ^ (- d))%Z in
  let guess := ((Z.log2 num - Z.log2 den - 1) * 30103 / 100000)%Z in
  if ge (guess + 2)%Z then (guess + 3)%Z
  else if ge (guess + 1)%Z then (guess + 2)%Z
  else if ge guess then (guess + 1)%Z else guess.

(** The n-digit renderings next to [num/den], nearest first. *)
Definition candidates (num den : Z) (n : Z) : list (str * Z) :=
  let k := (decimal_exp num den - n)%Z in
  let '(a, b) := if (0 <=? k)%Z then (num, den * 10 ^ k)%Z
                 else (num * 10 ^ (- k), den)%Z in
  let q := (a / b)%Z in
  let r := (a mod b)%Z in
  let lo := trim_digits q k in
  let hi := trim_digits (q + 1) k in
  if (r =? 0)%Z then [lo]
  else match (2 * r ?= b)%Z with
       | Lt => [lo; hi]
       | Gt => [hi; lo]
       | Eq => if Z.even q then [lo; hi] else [hi; lo]
       end.

Definition parses_to (x : float64) (s : str) : bool :=
  match ParseFloat s with
  | (y, None) => bool_decide (SFcompare x y = Some Eq) && Bool.eqb (IsNaN x) (IsNaN y)
  | _ => false
  end.

(** The shortest digit string that parses back to the value: first by length,
    then by distance. *)
Definition shortest (neg : bool) (m : positive) (e : Z) : option (str * Z) :=
  let '(num, den) := ratio m e in
  let x := S754_finite neg m e in
  list_first (λ '(ds, dp), parses_to x (fmtF neg ds dp))
    (mjoin ((λ n, candidates num den (Z.of_nat n)) <$> seq 1 17)).

Definition format_digits (neg : bool) (m : positive) (e : Z) : str * Z :=
  match shortest neg m e with
  | Some r => r
  | None => let '(num, den) := ratio m e in
            default ("0", 1%Z) (head (candidates num den 17))
  end.

(** [strconv.FormatFloat(x, 'f', -1, 64)] *)
Definition FormatFloat (x : float64) : str :=
  match x with
  | S754_nan => "NaN"
  | S754_infinity neg => if neg then "-Inf" else "+Inf"
  | S754_zero neg => if neg then "-0" else "0"
  | S754_finite neg m e => let '(ds, dp) := format_digits neg m e in fmtF neg ds dp
  end.

(** fmt's [%g]: the same digits, written with an exponent below 1e-4 and from
    1e6 on (the shortest format decides with a precision of 6). *)
Definition fmtE (neg : bool) (ds : str) (dp : Z) : str :=
  let x := (dp - 1)%Z in
  let a := Z.abs x in
  (if neg then "-" else "") +:+ take 1 ds +:+
  (if (1 <? String.length ds)%nat then "." +:+ drop 1 ds else "") +:+
  "e" +:+ (if (x <? 0)%Z then "-" else "+") +:+
  (if (a <? 10)%Z then "0" else "") +:+ Itoa a.

Definition show_g (x : float64) : str :=
  match x with
  | S754_finite neg m e =>
      let '(ds, dp) := format_digits neg m e in
      if (dp - 1 <? -4)%Z || (6 <=? dp - 1)%Z then fmtE neg ds dp else fmtF neg ds dp
  | _ => FormatFloat x
  end.

(** ** The order of the non-NaN floats

    [SFcompare] compares sign, exponent and mantissa in turn; [rank] maps a
    float to the triple of integers whose lexicographic order that is, so the
    order laws below are linear arithmetic. *)

Definition rank (x : float64) : Z * Z * Z :=
  match x with
  | S754_infinity true => (-2, 0, 0)
  | S754_finite true m e => (-1, - e, - Z.pos m)
  | S754_zero _ | S754_nan => (0, 0, 0)
  | S754_finite false m e => (1, e, Z.pos m)
  | S754_infinity false => (2, 0, 0)
  end%Z.

Definition rank_lt (a b : Z * Z * Z) : Prop :=
  let '(a1, a2, a3) := a in
  let '(b1, b2, b3) := b in
  (a1 < b1 ∨ a1 = b1 ∧ (a2 < b2 ∨ a2 = b2 ∧ a3 < b3))%Z.

Lemma SFcompare_rank x y :
  IsNaN x = false → IsNaN y = false →
  match SFcompare x y with
  | Some Lt => rank_lt (rank x) (rank y)
  | Some Gt => rank_lt (rank y) (rank x)
  | Some Eq => rank x = rank y
  | None => False
  end.
Proof.
  destruct x as [[]|[]| |[] m e], y as [[]|[]| |[] m' e']; try done;
    intros _ _; simpl; try lia.
  - destruct (Z.compare_spec e e'); subst; simpl; try lia.
    change (Pos.compare_cont Eq m m') with (Pos.compare m m').
    destruct (Pos.compare_spec m m'); subst; simpl; [done|lia|lia].
  - destruct (Z.compare_spec e e'); subst; simpl; try lia.
    change (Pos.compare_cont Eq m m') with (Pos.compare m m').
    destruct (Pos.compare_spec m m'); subst; simpl; [done|lia|lia].
Qed.

Lemma rank_lt_irrefl a : ¬ rank_lt a a.
Proof. destruct a as [[??]?]; simpl; lia. Qed.

Section order.
Context (x y : float64) (Hx : IsNaN x = false) (Hy : IsNaN y = false).

Lemma flt_rank : flt x y = true ↔ rank_lt (rank x) (rank y).
Proof using Hx Hy.
  pose proof (SFcompare_rank x y Hx Hy) as H. unfold flt, SFltb.
  destruct (SFcompare x y) as [[]|]; try done.
  - rewrite H. split; [done|]. intros []%rank_lt_irrefl.
  - split; [done|]. intros. exfalso.
    destruct (rank x) as [[??]?], (rank y) as [[??]?]; simpl in *; lia.
Qed.

Lemma fle_rank : fle x y = true ↔ ¬ rank_lt (rank y) (rank x).
Proof using Hx Hy.
  pose proof (SFcompare_rank x y Hx Hy) as H. unfold fle, SFleb.
  destruct (SFcompare x y) as [[]|]; try done.
  - rewrite H. split; [|done]. intros _. apply rank_lt_irrefl.
  - split; [|done]. intros _.
    destruct (rank x) as [[??]?], (rank y) as [[??]?]; simpl in *; lia.
Qed.

Lemma feq_rank : feq x y = true ↔ rank x = rank y.
Proof using Hx Hy.
  pose proof (SFcompare_rank x y Hx Hy) as H. unfold feq, SFeqb.
  destruct (SFcompare x y) as [[]|]; try done.
  - split; [done|]. intros E. rewrite E in H. by apply rank_lt_irrefl in H.
  - split; [done|]. intros E. rewrite E in H. by apply rank_lt_irrefl in H.
Qed.
End order.

Ltac rank_solve :=
  rewrite ?flt_rank, ?fle_rank, ?feq_rank in * by done;
  repeat match goal with
         | H : context [rank ?x] |- _ =>
             lazymatch type of x with _ => destruct (rank x) as [[??]?] end
         | |- context [rank ?x] => destruct (rank x) as [[??]?]
         end;
  simpl in *; simplify_eq; try lia.

Lemma fle_refl x : IsNaN x = false → fle x x = true.
Proof. intros. rank_solve. Qed.

Lemma fle_trans x y z :
  IsNaN x = false → IsNaN y = false → IsNaN z = false →
  fle x y = true → fle y z = true → fle x z = true.
Proof. intros. rank_solve. Qed.

Lemma fle_total x y :
  IsNaN x = false → IsNaN y = false → fle x y = true ∨ fle y x = true.
Proof. intros. rank_solve. Qed.

Lemma flt_fle x y :
  IsNaN x = false → IsNaN y = false → flt x y = negb (fle y x).
Proof.
  intros. destruct (fle y x) eqn:E; simpl.
  - apply not_true_iff_false. intros ?. rank_solve.
  - apply not_true_iff_false in E. rank_solve.
Qed.

Lemma feq_fle x y :
  IsNaN x = false → IsNaN y = false → feq x y = fle x y && fle y x.
Proof.
  intros. apply eq_true_iff_eq. rewrite andb_true_iff. split.
  - intros ?. split; rank_solve.
  - intros [??]. rewrite feq_rank, fle_rank in * by done.
    destruct (rank x) as [[??]?], (rank y) as [[??]?]. simpl in *.
    repeat f_equal; lia.
Qed.

Lemma is_finite_not_nan x : is_finite x = true → IsNaN x = false.
Proof. by destruct x. Qed.
#[export] Hint Resolve is_finite_not_nan : burnin.

(** ** Integers *)
(** [float64(n)] *)
Definition float_of_Z (n : Z) : float64 := round_decimal (n <? 0)%Z (Z.abs n) 0.
Definition fone : float64 := float_of_Z 1.

(** [int(math.Floor(x))] of a finite number. *)
Definition floor_Z (x : float64) : Z :=
  match x with
  | S754_finite s m e =>
      let n := if s then Z.neg m else Z.pos m in
      if (0 <=? e)%Z then (n * 2 ^ e)%Z else (n / 2 ^ (- e))%Z
  | _ => 0%Z
  end.

(** [strconv.FormatFloat(x, 'f', p, 64)] for a precision: the exact value, rounded to
    [p] decimals, ties to even. *)
Definition round_even (num den : Z) : Z :=
  let q := (num / den)%Z in
  let r := (2 * (num mod den))%Z in
  if (r <? den)%Z then q else if (den <? r)%Z then (q + 1)%Z else if Z.even q then q else (q + 1)%Z.

Fixpoint pad_zeros (n : nat) (s : str) : str :=
  match n with O => s | S n => String "0" (pad_zeros n s) end.

Definition FormatFixed (p : nat) (x : float64) : str :=
  let sign s := if s : bool then "-" else "" in
  let body (n : Z) :=
    let ds := Itoa n in
    let ds := pad_zeros (S p - String.length ds) ds in
    let k := (String.length ds - p)%nat in
    take k ds +:+ (if (p =? 0)%nat then "" else "." +:+ drop k ds) in
  match x with
  | S754_nan => "NaN"
  | S754_infinity s => (if s : bool then "-Inf" else "+Inf")
  | S754_zero s => sign s +:+ body 0%Z
  | S754_finite s m e => let '(num, den) := ratio m e in sign s +:+ body (round_even (num * 10 ^ Z.of_nat p) den)
  end.

(** [strconv.ParseInt(s, 10, bits)]: a sign, digits, and nothing that does not fit. *)
Definition ParseInt (bits : Z) (s : str) : option Z :=
  let '(neg, ds) := strip_sign s in
  d ← NilZero.uint_of_string ds;
  let n := if neg then (- Z.of_uint d)%Z else Z.of_uint d in
  if (- 2 ^ (bits - 1) <=? n)%Z && (n <? 2 ^ (bits - 1))%Z then Some n else None.

(** [strconv.Atoi] *)
Definition Atoi (s : str) : option Z := ParseInt 64 s.

Lemma digits_no_sign s : all_chars is_digit s = true → strip_sign s = (false, s).
Proof.
  destruct s as [|c s]; [done|]. simpl. rewrite andb_true_iff. intros [Hc _].
  by destruct c as [[] [] [] [] [] [] [] []].
Qed.

Lemma Atoi_Itoa n : (0 <= n < 2 ^ 63)%Z → Atoi (Itoa n) = Some n.
Proof.
  intros Hn. unfold Atoi, ParseInt. rewrite digits_no_sign by (apply Itoa_digits; lia).
  assert (∃ d, Itoa n = NilZero.string_of_uint d ∧ d ≠ Decimal.Nil ∧ Z.of_uint d = n) as (d & -> & Hd & Hv).
  { destruct n as [|p|p]; [by exists (Decimal.D0 Decimal.Nil)| |lia]. exists (Pos.to_uint p).
    split_and!; [done|apply DecimalPos.Unsigned.to_uint_nonnil|].
    unfold Z.of_uint. by rewrite DecimalPos.Unsigned.of_to. }
  rewrite NilZero.usu by done. cbn [mbind option_bind]. rewrite Hv.
  destruct (Z.leb_spec (- 2 ^ (64 - 1)) n), (Z.ltb_spec n (2 ^ (64 - 1))); try lia. done.
Qed.
