(* ===== verification/GoSha256.v ===== *)
(** * crypto/sha256

    SHA-256 over byte strings, words as integers below 2^32.  The program uses
    it to digest artifacts and to derive pod and service names. *)

From S2P Require Import Prelude GoStrings.
From Stdlib Require Import Ascii.
Open Scope Z_scope.

Definition w32 (x : Z) : Z := x mod 2 ^ 32.
Definition add32 (x y : Z) : Z := w32 (x + y).
Definition rotr (n x : Z) : Z :=
  Z.lor (Z.shiftr x n) (w32 (Z.shiftl x (32 - n))).
Definition xor3 (a b c : Z) : Z := Z.lxor a (Z.lxor b c).

(** The constants of FIPS 180-4: the first 32 fractional bits of the cube roots of
    the first 64 primes, and of the square roots of the first 8. *)
Definition divides (d n : nat) : bool := (n mod d =? 0)%nat.
Definition primes_below (n : nat) : list nat :=
  List.filter (λ p, negb (existsb (λ d, divides d p) (seq 2 (p - 2)))) (seq 2 (n - 2)).

(** The largest [x] below [2 ^ bits] with [x ^ k <= n], bit by bit. *)
Fixpoint root (k : Z) (n : Z) (bits : nat) (acc : Z) : Z :=
  match bits with
  | O => acc
  | S b =>
      let x := acc + 2 ^ Z.of_nat b in
      root k n b (if x ^ k <=? n then x else acc)
  end.

Definition root_fraction (k : Z) (p : nat) : Z :=
  w32 (root k (Z.of_nat p * 2 ^ (32 * k)) 40 0).

Definition round_constants : list Z :=
  Eval vm_compute in root_fraction 3 <$> primes_below 312.

Record hash := Hash { ha : Z; hb : Z; hc : Z; hd : Z; he : Z; hf : Z; hg : Z; hh : Z }.

Definition initial_hash : hash :=
  match root_fraction 2 <$> primes_below 20 with
  | [a; b; c; d; e; f; g; h] => Hash a b c d e f g h
  | _ => Hash 0 0 0 0 0 0 0 0
  end.

Definition small_sigma0 (x : Z) : Z := xor3 (rotr 7 x) (rotr 18 x) (Z.shiftr x 3).
Definition small_sigma1 (x : Z) : Z := xor3 (rotr 17 x) (rotr 19 x) (Z.shiftr x 10).
Definition big_sigma0 (x : Z) : Z := xor3 (rotr 2 x) (rotr 13 x) (rotr 22 x).
Definition big_sigma1 (x : Z) : Z := xor3 (rotr 6 x) (rotr 11 x) (rotr 25 x).

(** The message schedule, newest word first. *)
Fixpoint schedule (n : nat) (w : list Z) : list Z :=
  match n with
  | O => w
  | S n =>
      let at_ := λ i, nth i w 0 in
      let x := add32 (add32 (small_sigma1 (at_ 1%nat)) (at_ 6%nat))
                     (add32 (small_sigma0 (at_ 14%nat)) (at_ 15%nat)) in
      schedule n (x :: w)
  end.

Definition round (h : hash) (kw : Z * Z) : hash :=
  let '(k, w) := kw in
  let ch := Z.lxor (Z.land (he h) (hf h))
                   (Z.land (Z.lxor (he h) (2 ^ 32 - 1)) (hg h)) in
  let maj := xor3 (Z.land (ha h) (hb h)) (Z.land (ha h) (hc h)) (Z.land (hb h) (hc h)) in
  let t1 := w32 (hh h + big_sigma1 (he h) + ch + k + w) in
  let t2 := w32 (big_sigma0 (ha h) + maj) in
  Hash (add32 t1 t2) (ha h) (hb h) (hc h) (add32 (hd h) t1) (he h) (hf h) (hg h).

Definition compress (h : hash) (block : list Z) : hash :=
  let w := rev (schedule 48 (rev block)) in
  let r := fold_left round (combine round_constants w) h in
  Hash (add32 (ha h) (ha r)) (add32 (hb h) (hb r)) (add32 (hc h) (hc r))
       (add32 (hd h) (hd r)) (add32 (he h) (he r)) (add32 (hf h) (hf r))
       (add32 (hg h) (hg r)) (add32 (hh h) (hh r)).

Fixpoint words (l : list Z) : list Z :=
  match l with
  | a :: b :: c :: d :: l => (a * 2 ^ 24 + b * 2 ^ 16 + c * 2 ^ 8 + d) :: words l
  | _ => []
  end.

Definition be_bytes (n : nat) (x : Z) : list Z :=
  rev ((λ i, Z.shiftr x (8 * Z.of_nat i) mod 256) <$> seq 0 n).

Definition pad (msg : list Z) : list Z :=
  let len := Z.of_nat (length msg) in
  msg ++ [0x80] ++ replicate (Z.to_nat ((55 - len) mod 64)) 0 ++ be_bytes 8 (8 * len).

Fixpoint blocks (fuel : nat) (w : list Z) (h : hash) : hash :=
  match fuel, w with
  | S fuel, _ :: _ => blocks fuel (list.drop 16 w) (compress h (list.take 16 w))
  | _, _ => h
  end.

Definition str_bytes (s : str) : list Z := byte_of <$> String.list_ascii_of_string s.

(** [sha256.Sum256], as 32 bytes. *)
Definition Sum256 (s : str) : list Z :=
  let w := words (pad (str_bytes s)) in
  let h := blocks (length w) w initial_hash in
  mjoin (be_bytes 4 <$> [ha h; hb h; hc h; hd h; he h; hf h; hg h; hh h]).

(** [hex.EncodeToString] *)
Fixpoint hex_encode (l : list Z) : str :=
  match l with
  | [] => ""%stdpp
  | b :: l => (hex_byte b +:+ hex_encode l)%stdpp
  end.

(** The first test vector of FIPS 180-4. *)
Example Sum256_abc :
  hex_encode (Sum256 "abc"%stdpp) =
  "ba7816bf8f01cfea414140de5dae2223b00361a396177a9cb410ff61f20015ad"%stdpp.
Proof. by vm_compute. Qed.

(** ** crypto/hmac *)

(** The bytes of a list of byte values. *)
Definition bytes_string (l : list Z) : str := String.string_of_list_ascii (chr <$> l).

Definition hmac_pad (byte : Z) (key : list Z) : str :=
  bytes_string ((λ k, Z.lxor k byte) <$> (key ++ replicate (64 - length key) 0%Z)).

(** HMAC-SHA256. *)
Definition HMAC256 (key msg : str) : list Z :=
  let key := if (64 <? String.length key)%nat then Sum256 key else str_bytes key in
  Sum256 (hmac_pad 92 key +:+ bytes_string (Sum256 (hmac_pad 54 key +:+ msg)))%stdpp.

(** The second test vector of RFC 4231. *)
Example HMAC256_jefe :
  hex_encode (HMAC256 "Jefe"%stdpp "what do ya want for nothing?"%stdpp) =
  "5bdcc146bf60754e6a042426089575c75a003f089d2739839dec58b964ec3843"%stdpp.
Proof. by vm_compute. Qed.

Lemma Sum256_length s : length (Sum256 s) = 32%nat.
Proof. done. Qed.
