(* ===== verification/Contract.v ===== *)
(** * pkg/contract: the acceptance vocabulary

    The words a threshold, a violation and a test kind are written in
    ([vocabulary.go], [verdictwords.go]) and the types of the metric registry
    ([metrics.go]).  Types the Go source declares as open strings (a kind, a
    comparison, an applicability) stay strings, because the code's answer on an
    unrecognised value is part of its contract. *)

From S2P Require Import Prelude GoStrings GoFloat.
Open Scope stdpp_scope.

(** ** Violations *)
Inductive Cause := CauseMeasurement | CauseEvidence | CauseAuthoring.

Inductive ViolationKind :=
  | KindUnsatisfied
  | KindNotReported
  | KindNonNumeric
  | KindNonFinite
  | KindContradictory
  | KindUnmeasurableRequired
  | KindThresholdValueNonNumeric
  | KindThresholdValueNonFinite.

Global Instance Cause_eq_dec : EqDecision Cause.
Proof. solve_decision. Defined.
Global Instance ViolationKind_eq_dec : EqDecision ViolationKind.
Proof. solve_decision. Defined.

(** [ViolationKind.Cause] *)
Definition KindCause (k : ViolationKind) : Cause :=
  match k with
  | KindUnsatisfied => CauseMeasurement
  | KindThresholdValueNonNumeric | KindThresholdValueNonFinite => CauseAuthoring
  | _ => CauseEvidence
  end.

Definition ViolationKinds : list ViolationKind :=
  [KindUnsatisfied; KindNotReported; KindNonNumeric; KindNonFinite;
   KindContradictory; KindUnmeasurableRequired;
   KindThresholdValueNonNumeric; KindThresholdValueNonFinite].

Definition Cause_string (c : Cause) : str :=
  match c with
  | CauseMeasurement => "Measurement"
  | CauseEvidence => "Evidence"
  | CauseAuthoring => "Authoring"
  end.

Definition ViolationKind_string (k : ViolationKind) : str :=
  match k with
  | KindUnsatisfied => "Unsatisfied"
  | KindNotReported => "NotReported"
  | KindNonNumeric => "NonNumeric"
  | KindNonFinite => "NonFinite"
  | KindContradictory => "Contradictory"
  | KindUnmeasurableRequired => "UnmeasurableRequired"
  | KindThresholdValueNonNumeric => "ThresholdValueNonNumeric"
  | KindThresholdValueNonFinite => "ThresholdValueNonFinite"
  end.

(** ** Test kinds *)
Abbreviation TestKind := str.

Definition KindGPUBurn : TestKind := "gpu-burn".
Definition KindComputeSmoke : TestKind := "compute-smoke".
Definition KindDCGMDiag : TestKind := "dcgm-diag".
Definition KindXPUDiag : TestKind := "xpu-diag".
Definition KindThermalSoak : TestKind := "thermal-soak".
Definition KindNCCL : TestKind := "nccl".
Definition KindIBWriteBW : TestKind := "ib-write-bw".
Definition KindGPUDirect : TestKind := "gpudirect-rdma".
Definition KindTCPBaseline : TestKind := "tcp-baseline".
Definition KindMemoryBW : TestKind := "memory-bw".
Definition KindDiskIO : TestKind := "disk-io".
Definition KindFabricSoak : TestKind := "fabric-soak".
Definition KindFingerprintProbe : TestKind := "fingerprint-probe".
Definition KindHostHealth : TestKind := "host-health".
Definition KindClockProbe : TestKind := "clockprobe".
Definition KindMemoryStress : TestKind := "memory-stress".
Definition KindMemoryRetention : TestKind := "memory-retention".
Definition KindGemmSweep : TestKind := "gemm-sweep".
Definition KindPowerSwing : TestKind := "power-swing".
Definition KindCPUBench : TestKind := "cpu-bench".
Definition KindCustom : TestKind := "custom".

Definition BuiltInKinds : list TestKind :=
  [KindGPUBurn; KindComputeSmoke; KindGemmSweep; KindDCGMDiag; KindXPUDiag;
   KindThermalSoak; KindPowerSwing; KindNCCL; KindIBWriteBW; KindGPUDirect;
   KindTCPBaseline; KindMemoryBW; KindDiskIO; KindFabricSoak;
   KindFingerprintProbe; KindHostHealth; KindClockProbe; KindMemoryStress;
   KindMemoryRetention; KindCPUBench].

(** [TestKind.IsBuiltIn] *)
Definition IsBuiltIn (k : TestKind) : bool := bool_decide (k ∈ BuiltInKinds).

(** [TestKind.BurstOnly] *)
Definition BurstOnly (k : TestKind) : bool :=
  String.eqb k KindComputeSmoke || String.eqb k KindFingerprintProbe.

Definition sustainedLoadKinds : list TestKind :=
  [KindThermalSoak; KindGPUBurn; KindPowerSwing; KindClockProbe; KindFabricSoak;
   KindMemoryStress; KindCPUBench; KindDCGMDiag; KindXPUDiag].

(** [TestKind.DrivesSustainedLoad] *)
Definition DrivesSustainedLoad (k : TestKind) : bool :=
  bool_decide (k ∈ sustainedLoadKinds).

(** ** Thresholds *)
Definition GTE : str := "GreaterThanOrEqual".
Definition LTE : str := "LessThanOrEqual".
Definition EQ : str := "Equal".
Definition NEQ : str := "NotEqual".

Definition Required : str := "Required".
Definition RequiredIfMeasurable : str := "RequiredIfMeasurable".

Record Threshold := MkThreshold {
  t_Metric : str;
  t_Comparison : str;
  t_Value : str;
  t_Applicability : str;
}.

(** The environment variables the contract itself owns. *)
Definition ReservedEnv : list str :=
  ["BURNIN_DURATION_SECONDS"; "BURNIN_ATTEMPT"; "BURNIN_ROLE";
   "BURNIN_PEER_HOST"; "BURNIN_PEER_NODE"; "BURNIN_RANK"; "BURNIN_NRANKS";
   "BURNIN_ROOT_HOST"; "BURNIN_ROOT_NODE"; "BURNIN_RESOURCE_LIMITS"].

Definition AcceleratorVendors : list str :=
  ["amd"; "habana"; "intel"; "nvidia"; "tenstorrent"].

(** ** Metric registry types *)
Inductive Unit :=
  | UnitGigabitsPerSecond | UnitGigabytesPerSecond | UnitMegabytesPerSecond
  | UnitMicroseconds | UnitMilliseconds | UnitSeconds | UnitCelsius | UnitWatts
  | UnitPercent | UnitTeraflops | UnitGigaflops | UnitMegahertz | UnitGigabytes
  | UnitNone.

Global Instance Unit_eq_dec : EqDecision Unit.
Proof. solve_decision. Defined.

Definition unit_string (u : Unit) : str :=
  match u with
  | UnitGigabitsPerSecond => "Gbps"
  | UnitGigabytesPerSecond => "GBs"
  | UnitMegabytesPerSecond => "MBs"
  | UnitMicroseconds => "Us"
  | UnitMilliseconds => "Ms"
  | UnitSeconds => "S"
  | UnitCelsius => "C"
  | UnitWatts => "W"
  | UnitPercent => "Pct"
  | UnitTeraflops => "Tflops"
  | UnitGigaflops => "Gflops"
  | UnitMegahertz => "MHz"
  | UnitGigabytes => "GB"
  | UnitNone => ""
  end.

(** Longer suffixes first. *)
Definition UnitSuffixes : list Unit :=
  [UnitGigabitsPerSecond; UnitGigabytesPerSecond; UnitMegabytesPerSecond;
   UnitGigabytes; UnitTeraflops; UnitGigaflops; UnitMegahertz;
   UnitMicroseconds; UnitMilliseconds; UnitPercent; UnitCelsius; UnitWatts;
   UnitSeconds].

Inductive ThresholdUse :=
  ThresholdUseUnspecified | ThresholdUseAcceptance | ThresholdUseEvidence.
Inductive Aggregation := AggUnspecified | AggSum | AggMin | AggMax | AggLast.
Inductive Combination :=
  CombineUnclassified | CombineCollective | CombineSum | CombineMax | CombineMin.

Global Instance ThresholdUse_eq_dec : EqDecision ThresholdUse.
Proof. solve_decision. Defined.
Global Instance Aggregation_eq_dec : EqDecision Aggregation.
Proof. solve_decision. Defined.
Global Instance Combination_eq_dec : EqDecision Combination.
Proof. solve_decision. Defined.

Record Metric := MkMetric {
  m_Name : str;
  m_Unit : Unit;
  m_Description : str;
  m_ThresholdUse : ThresholdUse;
  m_Aggregation : Aggregation;
  m_Combination : Combination;
  m_MayBeUnmeasurable : bool;
}.

(** [Metric.SafeToThresholdOn] *)
Definition metric_SafeToThresholdOn (m : Metric) : bool :=
  bool_decide (m_ThresholdUse m = ThresholdUseAcceptance).

(** A double quote, for descriptions and messages that contain one. *)
Definition dquote : str := String dq "".

(** A kind this project does not ship gets neither answer. *)
Lemma custom_kind_unclaimed :
  IsBuiltIn KindCustom = false ∧ BurstOnly KindCustom = false ∧
  DrivesSustainedLoad KindCustom = false.
Proof. by vm_compute. Qed.
