(* ===== verification/Registry.v ===== *)
(** * pkg/contract: the metric registry

    The [registry] of metrics.go, entry by entry, in the sections the source
    groups it in, and the functions over it: [Lookup], [AggregationFor],
    [CombinationFor], [SafeToThresholdOn], [MayBeUnmeasurable], [UnitOf] and
    [ValidateMetricName]. *)

From S2P Require Import Prelude GoStrings GoFloat Contract.
From Stdlib Require Import Ascii.
Open Scope stdpp_scope.

(** Interconnect and collective bandwidth (metrics.go, lines 302-378). *)
Definition registry_interconnect : list (str * Metric) :=
  [("bandwidthGbps",
    MkMetric "bandwidthGbps" UnitGigabitsPerSecond
      "raw RDMA write throughput on a link, as reported by ib_write_bw"
      ThresholdUseAcceptance AggMin CombineMin false);
   ("tcpThroughputGbps",
    MkMetric "tcpThroughputGbps" UnitGigabitsPerSecond
      "TCP throughput between two nodes, as reported by iperf3. Deliberately NOT bandwidthGbps: that is an RDMA verbs measurement and this is a kernel-stack one over a different path, and a profile running both would otherwise have the second silently overwrite the first — which is exactly the comparison the test exists to enable"
      ThresholdUseAcceptance AggMin CombineMin false);
   ("minBandwidthGbps",
    MkMetric "minBandwidthGbps" UnitGigabitsPerSecond
      "the WORST window of a fabric soak. The figure a link is accepted on: a soak that averaged fine and spent ninety seconds at a third of line rate has found a marginal optic, and the mean hides it completely"
      ThresholdUseAcceptance AggMin CombineMin false);
   ("meanBandwidthGbps",
    MkMetric "meanBandwidthGbps" UnitGigabitsPerSecond
      "mean across a fabric soak's windows. Evidence: its distance from minBandwidthGbps is what says whether a link is steadily slow or intermittently bad, which are different repairs"
      ThresholdUseEvidence AggLast CombineUnclassified false);
   ("p1BandwidthGbps",
    MkMetric "p1BandwidthGbps" UnitGigabitsPerSecond
      "1st percentile across a fabric soak's windows, nearest-rank. On a long soak a better floor than the single minimum, which one scheduling hiccup can drag down"
      ThresholdUseAcceptance AggMin CombineUnclassified false);
   ("bandwidthStdDevGbps",
    MkMetric "bandwidthStdDevGbps" UnitGigabitsPerSecond
      "spread across a fabric soak's windows. A flapping link and a steadily slow one both have a low minimum; only the flapping one has a wide spread, and telling them apart decides whether an optic or a cable budget is at fault"
      ThresholdUseEvidence AggMax CombineUnclassified false);
   ("peakBandwidthGbps",
    MkMetric "peakBandwidthGbps" UnitGigabitsPerSecond
      "best single-iteration RDMA write throughput on a link; the average (bandwidthGbps) is the figure a link is accepted on, since one good iteration does not survive a marginal cable"
      ThresholdUseAcceptance AggMin CombineUnclassified false);
   ("busBandwidthGBs",
    MkMetric "busBandwidthGBs" UnitGigabytesPerSecond
      "NCCL bus bandwidth: algorithm bandwidth scaled by the collective's communication pattern. NAMED THE SAME AT EVERY SCOPE AND FOR EVERY COLLECTIVE (Pair's cross-node all-reduce, Group's, and Node's intra-node all-reduce/allgather/reducescatter/alltoall), a deliberate decision against the registry's own 'two differently-obtained figures under one name' rule: it is warranted here because the SAME nccl-tests formula computes it in every case (busBandwidth(algbw, nranks) is one function, reused, not reimplemented per scope), Scope on the TestResult already discriminates a link's number from a collective's, and a threshold is written per BurnInTest rather than globally on the metric name — so nothing ever compares a Node-scope reading against a Pair-scope gate by accident. Contrast throughputTflops vs sustainedThroughputTflops, which stayed separate because they are measured by different PROTOCOLS on the same part; this is one protocol run in more places"
      ThresholdUseAcceptance AggMin CombineCollective false);
   ("algBandwidthGBs",
    MkMetric "algBandwidthGBs" UnitGigabytesPerSecond
      "NCCL algorithm bandwidth: message size over collective time, with no scaling for the communication pattern; unlike busBandwidthGBs it is not comparable across collectives or rank counts on its own — busBandwidthGBs is. Shares its name across scopes and collectives for the same reason busBandwidthGBs does; see that entry"
      ThresholdUseAcceptance AggMin CombineCollective false);
   ("ranks",
    MkMetric "ranks" UnitNone
      "how many ranks joined this collective. At Node scope this is the device count ncclCommInitAll actually used, printed so a fleet reading busBandwidthGBs from an intra-node run can tell an 8-GPU result from a 2-GPU one without cross-referencing the node's inventory. Evidence, not a gate: whether the count is what a profile expects is a plan-time or topology question, not this metric's job"
      ThresholdUseEvidence AggLast CombineUnclassified false)].

(** Memory copy and stress bandwidth (metrics.go, lines 381-443). *)
Definition registry_memory_bw : list (str * Metric) :=
  [("hostToDeviceBandwidthGBs",
    MkMetric "hostToDeviceBandwidthGBs" UnitGigabytesPerSecond
      "measured copy bandwidth from host memory into device memory; bounded by the host link (PCIe, or C2C on a coherent part)"
      ThresholdUseAcceptance AggMin CombineUnclassified false);
   ("deviceToHostBandwidthGBs",
    MkMetric "deviceToHostBandwidthGBs" UnitGigabytesPerSecond
      "measured copy bandwidth from device memory back to host memory; asymmetry with hostToDeviceBandwidthGBs is normal and is why the two directions are separate metrics"
      ThresholdUseAcceptance AggMin CombineUnclassified false);
   ("peerReadBandwidthGBs",
    MkMetric "peerReadBandwidthGBs" UnitGigabytesPerSecond
      "worst cell of the all-pairs GPU-to-GPU READ bandwidth matrix, over NVLink, xGMI or a PCIe switch. The MINIMUM rather than the mean because a fabric is as good as its worst link, and a mean over the matrix hides the single degraded lane this measurement exists to find. Unmeasurable (n/a) on a node with one accelerator, or with no peer path between them"
      ThresholdUseAcceptance AggMin CombineUnclassified true);
   ("peerReadBandwidthMaxGBs",
    MkMetric "peerReadBandwidthMaxGBs" UnitGigabytesPerSecond
      "best cell of the same matrix. Evidence, not acceptance: its distance from peerReadBandwidthGBs is what makes ONE degraded link visible as a spread rather than as a slightly lower average"
      ThresholdUseEvidence AggMax CombineUnclassified false);
   ("peerWriteBandwidthGBs",
    MkMetric "peerWriteBandwidthGBs" UnitGigabytesPerSecond
      "worst cell of the all-pairs GPU-to-GPU WRITE bandwidth matrix. Reported separately from the read direction because a link can degrade asymmetrically and averaging the two would hide it"
      ThresholdUseAcceptance AggMin CombineUnclassified true);
   ("peerWriteBandwidthMaxGBs",
    MkMetric "peerWriteBandwidthMaxGBs" UnitGigabytesPerSecond
      "best cell of the write matrix. Evidence, for the same reason as the read direction"
      ThresholdUseEvidence AggMax CombineUnclassified false);
   ("deviceToDeviceBandwidthGBs",
    MkMetric "deviceToDeviceBandwidthGBs" UnitGigabytesPerSecond
      "on-device copy bandwidth, device memory to device memory; bounded by the memory subsystem rather than by the host link"
      ThresholdUseAcceptance AggMin CombineUnclassified false);
   ("memoryBandwidthGBs",
    MkMetric "memoryBandwidthGBs" UnitGigabytesPerSecond
      "sustained device memory bandwidth achieved over the whole measurement window, not a peak sample"
      ThresholdUseAcceptance AggMin CombineMin false);
   ("readBandwidthMBs",
    MkMetric "readBandwidthMBs" UnitMegabytesPerSecond
      "sustained read throughput reported by the host memory stress tool"
      ThresholdUseAcceptance AggMin CombineUnclassified false);
   ("writeBandwidthMBs",
    MkMetric "writeBandwidthMBs" UnitMegabytesPerSecond
      "sustained write throughput reported by the host memory stress tool"
      ThresholdUseAcceptance AggMin CombineUnclassified false)].

(** Latency and duration (metrics.go, lines 446-517). *)
Definition registry_latency : list (str * Metric) :=
  [("latencyUs",
    MkMetric "latencyUs" UnitMicroseconds
      "round-trip latency"
      ThresholdUseAcceptance AggMax CombineMax false);
   ("minLatencyUs",
    MkMetric "minLatencyUs" UnitMicroseconds
      "the fastest single round trip observed. It is the link's floor — what the fabric can do with nothing in the way — and it is EVIDENCE rather than acceptance, because a gate on the best sample any run happened to catch says nothing about what the fabric delivers under load"
      ThresholdUseEvidence AggMin CombineUnclassified false);
   ("maxLatencyUs",
    MkMetric "maxLatencyUs" UnitMicroseconds
      "the slowest single round trip observed. A single outlier is normal on a shared fabric — a scheduler tick, an interrupt — so this is evidence that qualifies p99LatencyUs rather than a gate of its own; a fleet gating on one worst sample fails healthy links on noise"
      ThresholdUseEvidence AggMax CombineMax false);
   ("p99LatencyUs",
    MkMetric "p99LatencyUs" UnitMicroseconds
      "99th-percentile round-trip latency: the number a collective actually runs at. A collective proceeds at the speed of its slowest participant on EVERY iteration, so a link with a healthy mean and a p99 an order of magnitude worse degrades every job on the fleet while passing a bandwidth gate outright. This is the acceptance-grade latency figure; latencyUs is the mean and is not"
      ThresholdUseAcceptance AggMax CombineMax false);
   ("tcpRttUs",
    MkMetric "tcpRttUs" UnitMicroseconds
      "mean smoothed round-trip time the sender's TCP stack observed during the test. A path property rather than a fabric one — it includes host stack and scheduling — so it is a useful ceiling gate and a poor floor"
      ThresholdUseAcceptance AggMax CombineMax false);
   ("messageRateMpps",
    MkMetric "messageRateMpps" UnitNone
      "millions of messages per second the link sustained — a SEPARATE finding from bandwidth rather than a restatement of it. A link can carry its rated bytes while delivering far fewer messages per second than its class, which bandwidth cannot see and a collective feels immediately, because a collective is many small messages rather than one large one"
      ThresholdUseAcceptance AggMin CombineUnclassified false);
   ("ioLatencyUs",
    MkMetric "ioLatencyUs" UnitMicroseconds
      "mean per-operation latency of the test's read/write loop; distinct from latencyUs, which is a network round trip"
      ThresholdUseAcceptance AggMax CombineMax false);
   ("elapsedS",
    MkMetric "elapsedS" UnitSeconds
      "wall-clock seconds the test body ran, excluding image pull and container start; a soak that exits early has not proven what its duration claims"
      ThresholdUseAcceptance AggSum CombineMax false);
   ("durationRequestedS",
    MkMetric "durationRequestedS" UnitSeconds
      "the duration the runner was ASKED for (BURNIN_DURATION_SECONDS), echoed back before any clamping; it is an input read back, not a measurement, and elapsedS is the one that says what actually happened"
      ThresholdUseEvidence AggLast CombineUnclassified false);
   ("warmupS",
    MkMetric "warmupS" UnitSeconds
      "seconds of load applied before sampling began, so an unwarmed part's legitimately idle clocks are not sampled; a probe's own schedule, not a property of the part"
      ThresholdUseEvidence AggLast CombineUnclassified false);
   ("sampleWindowS",
    MkMetric "sampleWindowS" UnitSeconds
      "seconds of the run during which measurements were taken (elapsedS minus warmupS); it bounds how much evidence the other metrics rest on rather than saying anything about the hardware"
      ThresholdUseEvidence AggLast CombineUnclassified false)].

(** Thermal, power and clocks (metrics.go, lines 520-654). *)
Definition registry_thermal : list (str * Metric) :=
  [("gpuTempC",
    MkMetric "gpuTempC" UnitCelsius
      "peak GPU temperature observed during the test"
      ThresholdUseAcceptance AggMax CombineMax false);
   ("meanTempUnderLoadC",
    MkMetric "meanTempUnderLoadC" UnitCelsius
      "GPU temperature averaged across the load window; distinct from gpuTempC, which is the peak — a part that runs hot throughout and one that spikes once are different findings and must not share a name"
      ThresholdUseAcceptance AggMax CombineMax false);
   ("tempAtMinClockC",
    MkMetric "tempAtMinClockC" UnitCelsius
      "the temperature recorded at the sample where the SM clock was lowest; it exists to attribute a clock shortfall to heat or to a power-delivery wedge, and its value depends on which single sample happened to be the minimum — so it explains a verdict rather than deciding one"
      ThresholdUseEvidence AggLast CombineUnclassified false);
   ("thermalTempThresholdC",
    MkMetric "thermalTempThresholdC" UnitCelsius
      "the temperature at or above which the runner will attribute a clock shortfall to heat; a configured input echoed back so a verdict can be audited against the threshold that produced it, not a reading"
      ThresholdUseEvidence AggLast CombineUnclassified false);
   ("powerDrawW",
    MkMetric "powerDrawW" UnitWatts
      "peak board power draw observed during the test"
      ThresholdUseAcceptance AggMax CombineMax false);
   ("meanPowerW",
    MkMetric "meanPowerW" UnitWatts
      "board power averaged across the load window; the floor form is the useful gate, because a part that draws far LESS than its budget under full load is the power-delivery wedge signature rather than a well-behaved one"
      ThresholdUseAcceptance AggMax CombineUnclassified false);
   ("enforcedPowerLimitW",
    MkMetric "enforcedPowerLimitW" UnitWatts
      "the power limit the driver is currently enforcing on the board — on GB10 this is the negotiated USB-C Power-Delivery contract made visible, and a degraded supply or cable shows up here well below the board's default; absolute and therefore SKU-specific, so a fleet-wide gate belongs on powerLimitRatioPct"
      ThresholdUseAcceptance AggMin CombineUnclassified false);
   ("defaultPowerLimitW",
    MkMetric "defaultPowerLimitW" UnitWatts
      "the board's nameplate default power limit, read back from the driver so powerLimitRatioPct can be audited against its denominator; a nameplate constant identifies the SKU rather than its health, so gating on it fails a heterogeneous fleet for no hardware reason"
      ThresholdUseEvidence AggLast CombineUnclassified false);
   ("powerLimitRatioPct",
    MkMetric "powerLimitRatioPct" UnitPercent
      "enforcedPowerLimitW as a percentage of defaultPowerLimitW: the SKU-portable form of 'is this board allowed its full power budget?', and well under 100 is the power-delivery wedge. NOTE it is omitted entirely on a part whose driver does not expose both limits (GB10 reports power.limit as [N/A], which the runner records in nvmlUnsupported), and an omitted metric fails its threshold closed — so a gate on this must be scoped to parts known to answer"
      ThresholdUseAcceptance AggMin CombineUnclassified false);
   ("sustainedClockPct",
    MkMetric "sustainedClockPct" UnitPercent
      "achieved SM clock as a percentage of the part's rated boost clock, averaged over the load window; the SKU-portable form of smClockMHz"
      ThresholdUseAcceptance AggMin CombineUnclassified false);
   ("smClockMHz",
    MkMetric "smClockMHz" UnitMegahertz
      "SM core clock sustained under load; absolute and therefore SKU-specific, which is why a fleet-wide gate belongs on sustainedClockPct"
      ThresholdUseAcceptance AggMin CombineUnclassified false);
   ("memClockMHz",
    MkMetric "memClockMHz" UnitMegahertz
      "device memory clock sustained under load"
      ThresholdUseAcceptance AggMin CombineUnclassified false);
   ("ratedBoostClockMHz",
    MkMetric "ratedBoostClockMHz" UnitMegahertz
      "the part's nameplate boost clock, read back from the driver so sustainedClockPct can be audited against its denominator; a nameplate constant identifies the SKU rather than its health, so gating on it fails a heterogeneous fleet for no hardware reason"
      ThresholdUseEvidence AggLast CombineUnclassified false);
   ("ratedMemClockMHz",
    MkMetric "ratedMemClockMHz" UnitMegahertz
      "the part's nameplate memory clock, read back from the driver (nvmlDeviceGetMaxClockInfo, NVML_CLOCK_MEM) so memClockPct can be audited against its denominator — the same role ratedBoostClockMHz plays for sustainedClockPct; a nameplate constant identifies the SKU rather than its health, so gating on it fails a heterogeneous fleet for no hardware reason. Omitted, never fabricated, on a device whose driver does not answer the call"
      ThresholdUseEvidence AggLast CombineUnclassified false);
   ("minSmClockPct",
    MkMetric "minSmClockPct" UnitPercent
      "the LOWEST single SM-clock sample of the load window, as a percentage of rated boost; a floor on it asserts the part never dropped out, which sustainedClockPct's average can hide. It is a single sample, so it moves on one transient dip — calibrate it against measured fleet behaviour rather than against a spec sheet"
      ThresholdUseAcceptance AggMin CombineUnclassified false);
   ("maxSmClockPct",
    MkMetric "maxSmClockPct" UnitPercent
      "the HIGHEST single SM-clock sample of the load window, as a percentage of rated boost, recorded so the spread around sustainedClockPct is visible; it is not an acceptance figure, because a wedged part that boosts for one sample and collapses satisfies a floor on it while failing the sustained behaviour this measurement exists to judge"
      ThresholdUseEvidence AggMax CombineUnclassified false);
   ("memClockPct",
    MkMetric "memClockPct" UnitPercent
      "device memory clock sustained under load, as a percentage of the part's rated memory clock — the memory-domain analog of sustainedClockPct, added to measure rather than assume the clockprobe README's claim that a power-delivery wedge caps only the compute clock and leaves the memory path alone (issue #301). Deliberately Evidence, not Acceptance: nobody has yet watched a wedged part's memory clock and confirmed whether it moves, so there is no floor to gate on. n/a when either the achieved or the rated memory clock could not be read from this device"
      ThresholdUseEvidence AggMin CombineUnclassified false);
   ("clockFloorPct",
    MkMetric "clockFloorPct" UnitPercent
      "the sustained-clock floor the runner was configured with, echoed back so a verdict can be read against the bar it was judged by; a configured input, not a measurement"
      ThresholdUseEvidence AggLast CombineUnclassified false);
   ("thermalClockFloorPct",
    MkMetric "thermalClockFloorPct" UnitPercent
      "the more lenient sustained-clock floor the runner applies when a shortfall is positively attributed to heat, echoed back as configured; a configured input, not a measurement"
      ThresholdUseEvidence AggLast CombineUnclassified false);
   ("clockFloorAppliedPct",
    MkMetric "clockFloorAppliedPct" UnitPercent
      "which of the two configured floors this run actually judged against (see clockFloorBasis); it records the runner's own decision so a pass or fail can be reproduced, and gating on it would gate on the runner's configuration rather than on the part"
      ThresholdUseEvidence AggMin CombineUnclassified false);
   ("gpuUtilizationPct",
    MkMetric "gpuUtilizationPct" UnitPercent
      "device utilization averaged over the load window. It is the headline SYMPTOM of a clock wedge — it reads perfectly healthy while the clock does not — so it is published beside the clock to make that fault legible, not to be gated on: the runner already refuses to judge a run whose utilization shows the load never landed, and a threshold here would turn that same measurement artifact into a hardware verdict"
      ThresholdUseEvidence AggMax CombineUnclassified false);
   ("memUtilizationPct",
    MkMetric "memUtilizationPct" UnitPercent
      "device memory-controller utilization averaged over the load window; for a deliberately register-resident load it is expected to be near zero, so its value describes the probe's own load shape rather than the part"
      ThresholdUseEvidence AggMax CombineUnclassified false)].

(** Compute throughput (metrics.go, lines 657-686). *)
Definition registry_compute : list (str * Metric) :=
  [("throughputTflops",
    MkMetric "throughputTflops" UnitTeraflops
      "achieved throughput; for compute-smoke this is a single unwarmed launch — a liveness signal, not a benchmark, and not safe to threshold on"
      ThresholdUseEvidence AggLast CombineUnclassified false);
   ("sustainedThroughputTflops",
    MkMetric "sustainedThroughputTflops" UnitTeraflops
      "throughput averaged across a sustained burn, after the part has reached its steady thermal and clock state; unlike throughputTflops this is a benchmark figure and may be thresholded"
      ThresholdUseAcceptance AggMin CombineUnclassified false);
   ("sustainedFmaThroughputTflops",
    MkMetric "sustainedFmaThroughputTflops" UnitTeraflops
      "throughput of a register-resident FP32 FMA chain sustained across the load window — no memory traffic, so it moves in lockstep with the achieved clock and is an independent cross-check on it. It is DELIBERATELY not sustainedThroughputTflops: that name belongs to a dense GEMM burn, the two differ by a large factor on the same healthy part, and sharing a name would silently condemn every node a gate calibrated on the other one touched"
      ThresholdUseAcceptance AggMin CombineUnclassified false);
   ("peakFmaThroughputTflops",
    MkMetric "peakFmaThroughputTflops" UnitTeraflops
      "the best single measurement window of the same FMA load, published so throughputConsistencyPct can be audited against its denominator; as the best window rather than the sustained one it is the figure a collapsing part still satisfies, which is why the consistency ratio and not this is the gate"
      ThresholdUseEvidence AggMax CombineUnclassified false);
   ("throughputConsistencyPct",
    MkMetric "throughputConsistencyPct" UnitPercent
      "sustainedFmaThroughputTflops as a percentage of peakFmaThroughputTflops: a part that starts fast and collapses mid-window scores low here even when its mean clock still clears every floor, which is the case an average is blind to"
      ThresholdUseAcceptance AggMin CombineUnclassified false)].

(** GEMM sweep (gemm-sweep) (metrics.go, lines 693-737). *)
Definition registry_gemm : list (str * Metric) :=
  [("achievedTflops",
    MkMetric "achievedTflops" UnitTeraflops
      "sustained GEMM throughput at the precision this execution ran, in TFLOP/s. Compare it only against a floor written for the SAME precision — tensor-core and CUDA-core paths differ by more than an order of magnitude and a single floor across them means nothing"
      ThresholdUseAcceptance AggMin CombineUnclassified false);
   ("maxRelativeError",
    MkMetric "maxRelativeError" UnitNone
      "the largest relative deviation between the device result and the host reference over the whole output. Dimensionless. What counts as acceptable is PRECISION-SPECIFIC — an FP4 tolerance applied to FP64 would accept a broken part, and an FP64 tolerance applied to FP4 would condemn a working one"
      ThresholdUseAcceptance AggMax CombineUnclassified false);
   ("gemmPrecision",
    MkMetric "gemmPrecision" UnitNone
      "which precision this execution actually ran (fp4, fp8, bf16, tf32, fp64). A LABEL: it is echoed so a stored result is self-describing, and it is what makes a sweep's cells distinguishable long after the profile that produced them was edited"
      ThresholdUseEvidence AggLast CombineUnclassified false);
   ("gemmShape",
    MkMetric "gemmShape" UnitNone
      ("the M x N x K the sweep ran, e.g. " +:+ dquote +:+ "8192x8192x8192" +:+ dquote +:+ ". A LABEL, and the thing that makes a throughput number comparable: two TFLOP/s figures from different shapes are not the same measurement")
      ThresholdUseEvidence AggLast CombineUnclassified false)].

(** Correctness counters (metrics.go, lines 740-778). *)
Definition registry_correctness : list (str * Metric) :=
  [("maxAbsError",
    MkMetric "maxAbsError" UnitNone
      "largest absolute difference between a GEMM cell and its reference. Evidence beside maxRelativeError, which is the gateable form: an absolute error means nothing without the magnitude it is relative to, and maxAbsRef carries that"
      ThresholdUseEvidence AggMax CombineUnclassified false);
   ("maxAbsRef",
    MkMetric "maxAbsRef" UnitNone
      "largest absolute value in the reference matrix, the denominator maxRelativeError is taken against. Recorded so a stored result can be re-derived rather than trusted"
      ThresholdUseEvidence AggMax CombineUnclassified false);
   ("totalKernelMs",
    MkMetric "totalKernelMs" UnitMilliseconds
      "summed device time across the measured GEMM launches. The denominator achievedTflops was computed from, kept so the throughput figure can be checked rather than believed"
      ThresholdUseEvidence AggSum CombineUnclassified false);
   ("nonfiniteCount",
    MkMetric "nonfiniteCount" UnitNone
      "count of NaN or Inf values in a kernel's output"
      ThresholdUseAcceptance AggSum CombineSum false);
   ("miscompares",
    MkMetric "miscompares" UnitNone
      "count of computed values that did not match the reference — a wrong answer from hardware that reported success"
      ThresholdUseAcceptance AggSum CombineSum false);
   ("sdcDetections",
    MkMetric "sdcDetections" UnitNone
      "count of distinct silent-data-corruption incidents; miscompares counts every mismatched value, so one corrupted region can produce many miscompares and a single detection"
      ThresholdUseAcceptance AggSum CombineSum false)].

(** Hardware fault counters (metrics.go, lines 781-801). *)
Definition registry_faults : list (str * Metric) :=
  [("eccErrors",
    MkMetric "eccErrors" UnitNone
      "count of ECC errors observed during the test"
      ThresholdUseAcceptance AggLast CombineSum false);
   ("memoryErrors",
    MkMetric "memoryErrors" UnitNone
      "count of hardware memory errors reported by the host memory stress tool (stressapptest hardware incidents); host memory, not device ECC"
      ThresholdUseAcceptance AggSum CombineSum false)].

(** memory-retention (metrics.go, lines 810-955). *)
Definition registry_retention1 : list (str * Metric) :=
  [("retentionBitFlips",
    MkMetric "retentionBitFlips" UnitNone
      "count of bits that read back wrong after being held untouched in host memory — a byte with two wrong bits counts as two, not one"
      ThresholdUseAcceptance AggSum CombineSum false);
   ("retentionBytesFlipped",
    MkMetric "retentionBytesFlipped" UnitNone
      "count of BYTES that contained at least one wrong bit — a coarser companion to retentionBitFlips, the way miscompares and sdcDetections answer different questions elsewhere in this project"
      ThresholdUseAcceptance AggSum CombineSum false);
   ("retentionPatternsCompleted",
    MkMetric "retentionPatternsCompleted" UnitNone
      "count of fill/hold/verify pattern cycles that finished before the run ended or was interrupted — context for a Fail (found on a complete run or a real one cut short) and for an Error (interrupted with nothing found yet, which is unjudged, not clean)"
      ThresholdUseEvidence AggLast CombineUnclassified false);
   ("retentionFirstFlipOffset",
    MkMetric "retentionFirstFlipOffset" UnitNone
      "byte offset of the first bit flip found, within the tested region — diagnostic only; omitted when retentionBitFlips is 0"
      ThresholdUseEvidence AggLast CombineUnclassified false);
   ("retentionFirstFlipPattern",
    MkMetric "retentionFirstFlipPattern" UnitNone
      ("the fill pattern (" +:+ dquote +:+ "0xFF" +:+ dquote +:+ " or " +:+ dquote +:+ "0x00" +:+ dquote +:+ ") being verified when the first bit flip was found — omitted when retentionBitFlips is 0")
      ThresholdUseEvidence AggLast CombineUnclassified false);
   ("retentionMemoryLocked",
    MkMetric "retentionMemoryLocked" UnitNone
      ("" +:+ dquote +:+ "true" +:+ dquote +:+ " if the tested region was successfully mlocked for the whole hold (pinned in physical RAM, immune to swap and reclaim), " +:+ dquote +:+ "false" +:+ dquote +:+ " if the best-effort lock failed — most clusters do not grant CAP_IPC_LOCK to a burn-in pod by default, and a false value does not invalidate the result, it only means the OS was free to swap the region during the hold")
      ThresholdUseEvidence AggLast CombineUnclassified false);
   ("xidEvents",
    MkMetric "xidEvents" UnitNone
      "count of driver-logged catastrophic GPU faults during the test window — NVIDIA Xid errors, or on AMD hardware the soak family's own amdgpu reset/uncorrectable-RAS pattern"
      ThresholdUseAcceptance AggSum CombineSum false);
   ("lastXidCode",
    MkMetric "lastXidCode" UnitNone
      "code of the most recent NVIDIA Xid error. dcgm-diag reads a lifetime-scoped device field and prints 0 when it reads 0; the soak family extracts the code from the kmsg line within that test's own load window and OMITS the key when no code was extracted — its 0 would be a value nobody measured. Which Xid, never how many — the count is xidEvents"
      ThresholdUseEvidence AggLast CombineUnclassified false);
   ("remappedRows",
    MkMetric "remappedRows" UnitNone
      "count of device memory rows the driver has remapped; a rising count is a degrading part even while every test still passes"
      ThresholdUseAcceptance AggLast CombineSum false);
   ("pcieReplayErrors",
    MkMetric "pcieReplayErrors" UnitNone
      "count of PCIe replay events on the device's link — a link-integrity signal that usually precedes a bandwidth shortfall"
      ThresholdUseAcceptance AggSum CombineSum false);
   ("tcpRetransmits",
    MkMetric "tcpRetransmits" UnitNone
      "count of TCP segment retransmissions during the test. The signal worth gating on: a link that reaches line rate while retransmitting heavily has a problem that throughput alone will not show, and it will surface later as tail latency in a collective"
      ThresholdUseAcceptance AggSum CombineSum false);
   ("acceleratorCount",
    MkMetric "acceleratorCount" UnitNone
      "how many accelerators the node's PCI bus reports. A legitimate acceptance gate, unlike the identity strings beside it: a node that should hold eight cards and reports seven has lost one, and that is a hardware fault rather than a fact about which vendor made it"
      ThresholdUseAcceptance AggLast CombineUnclassified false);
   ("ioErrors",
    MkMetric "ioErrors" UnitNone
      "count of I/O errors observed during a storage test. A zero here IS a measurement — the run reached the device and counted none — unlike a bandwidth figure, which is omitted when nothing moved rather than reported as zero"
      ThresholdUseAcceptance AggSum CombineSum false)].

(** memory-retention (metrics.go, lines 956-1053). *)
Definition registry_retention2 : list (str * Metric) :=
  [("nicLinkDownEvents",
    MkMetric "nicLinkDownEvents" UnitNone
      "count of link-down transitions on the node's fabric NICs during the test window"
      ThresholdUseAcceptance AggSum CombineSum false);
   ("soakIterations",
    MkMetric "soakIterations" UnitNone
      "windows a fabric soak attempted. Context for soakFailedIterations: two failures in ten is a different link from two in a thousand"
      ThresholdUseEvidence AggSum CombineUnclassified false);
   ("soakFailedIterations",
    MkMetric "soakFailedIterations" UnitNone
      "windows that failed or timed out during a fabric soak. A counter, so a healthy soak reports exactly zero and Equal 0 is safe from day one — unlike the bandwidth figures, which need a measured baseline first"
      ThresholdUseAcceptance AggSum CombineSum false);
   ("soakConnectFailures",
    MkMetric "soakConnectFailures" UnitNone
      "windows refused at the server's control port, before any traffic was attempted. Deliberately NOT part of soakFailedIterations: a refusal happens before the fabric is touched, so it is evidence about the runner's own restart timing and never about the link (#496). A counter, so Equal 0 is safe from day one"
      ThresholdUseAcceptance AggSum CombineSum false);
   ("soakConnectRetries",
    MkMetric "soakConnectRetries" UnitNone
      "control-connection attempts that were refused and succeeded on a later try within the same window. Evidence, not acceptance: a retried window measured the link and passed honestly, but a soak retrying most of its windows is describing a restart race worth knowing about rather than a healthy fabric"
      ThresholdUseEvidence AggSum CombineUnclassified false);
   ("soakServerRestarts",
    MkMetric "soakServerRestarts" UnitNone
      "how many times the server end restarted its listener during a soak. Evidence from the non-deciding end: perftest's server exits when its client disconnects, so this should track the client's iteration count and a large gap means windows never reached it"
      ThresholdUseEvidence AggSum CombineUnclassified false);
   ("linkErrorEvents",
    MkMetric "linkErrorEvents" UnitNone
      "sum of the port error counters that MOVED during the soak — symbol errors, link recoveries, link-downs, receive errors. A DELTA, never a lifetime total: a NIC up for two hundred days carries a large count that says nothing about the last four hours. Unmeasurable (n/a) when no sysfs counter could be read, or when a counter went backwards because the port was reset mid-soak"
      ThresholdUseAcceptance AggSum CombineSum false);
   ("throttleEvents",
    MkMetric "throttleEvents" UnitNone
      "count of clock-throttle events observed during the test"
      ThresholdUseAcceptance AggSum CombineSum false);
   ("throttledSamples",
    MkMetric "throttledSamples" UnitNone
      "count of individual samples in which the driver reported a CAPPING throttle reason; throttleEvents counts transitions into that state, so a part throttled once for the whole window scores 1 event and many samples, and the pair separates a brief excursion from a permanent cap"
      ThresholdUseAcceptance AggSum CombineUnclassified false);
   ("throttleReasonsMask",
    MkMetric "throttleReasonsMask" UnitNone
      "the union of the driver's raw throttle-reason bits over the run, kept so a stored result can be re-classified later against a vendor's own bit definitions. It is not a quantity: it is a bitfield in decimal, arithmetic on it is meaningless, and it includes the idle bit — which is not a throttle at all — so `throttleReasonsMask Equal 0` fails any part that was briefly idle mid-window. Gate on throttledSamples instead"
      ThresholdUseEvidence AggMax CombineUnclassified false);
   ("unsupportedReads",
    MkMetric "unsupportedReads" UnitNone
      "count of driver properties the runner asked for and was refused (the names are in nvmlUnsupported). It records how complete the probe's view was, and a non-zero count is NORMAL on a part that genuinely does not expose everything — GB10 refuses the power-limit reads — so gating on it condemns healthy hardware for its driver's silence, which is the same mistake as gating ECC counters on a part with no ECC"
      ThresholdUseEvidence AggMax CombineUnclassified false)].

(** Multi-device iteration (metrics.go, lines 1063-1142). *)
Definition registry_devices : list (str * Metric) :=
  [("deviceCount",
    MkMetric "deviceCount" UnitNone
      "how many accelerator devices the runner MEASURED — iterated over and folded into the gated figures. An acceptance gate: a fleet writes deviceCount Equal 8 so a pod handed one card of eight FAILS instead of certifying that card as the node. Under MIG it counts instances, not parts. Distinct from acceleratorCount, which is what the node's PCI bus HAS, and from devicesVisible, which is what the runtime showed the pod; supersedes the unregistered gpuCount, which is not aliased to it"
      ThresholdUseAcceptance AggLast CombineUnclassified false);
   ("devicesVisible",
    MkMetric "devicesVisible" UnitNone
      "how many accelerator devices the container runtime showed the pod. A multi-device runner prints it beside deviceCount, before applying its allocation budget from BURNIN_RESOURCE_LIMITS (a value above deviceCount is the leak: devices visible that were never allocated, which the runner reports as an Error rather than iterating past its budget). A runner that only SAW devices — a node-wide read-only probe such as host-health or dcgm-diag, or one that has not yet been converted to fold them — prints this and does not claim deviceCount at all. Evidence; what gpu_count became"
      ThresholdUseEvidence AggLast CombineUnclassified false);
   ("deviceWindowS",
    MkMetric "deviceWindowS" UnitSeconds
      "the load window ONE device actually got. Under sequential iteration it is durationRequestedS divided by deviceCount, so a 15-second clock window on an eight-GPU node is distinguishable from a 120-second one on a single-GPU part; under concurrent iteration it equals durationRequestedS. Evidence, not a gate: how long each device was loaded is context for the figures beside it"
      ThresholdUseEvidence AggLast CombineUnclassified false);
   ("worstDeviceIndex",
    MkMetric "worstDeviceIndex" UnitNone
      "the runtime index of the device behind the gated figure of THIS window — the one whose reading the fold kept. Under Last across a segmented soak, or across an error-retry that re-runs a window, it names the LAST window's worst device, not the device behind a multi-window aggregate; per-device.json is the only sound attribution across windows. No ArgMin aggregation exists to change that and none should be added. Evidence: an index has no ordering a threshold could use"
      ThresholdUseEvidence AggLast CombineUnclassified false);
   ("worstDevicePciBusId",
    MkMetric "worstDevicePciBusId" UnitNone
      "the PCI bus address of the device worstDeviceIndex names, so a consumer reading only metrics can dispatch an engineer to a slot. Same window caveat as worstDeviceIndex. pciBusId beside it keeps its existing meaning — the first device's — so its wire meaning on a single-device fleet does not move"
      ThresholdUseEvidence AggLast CombineUnclassified false);
   ("deviceHomogeneous",
    MkMetric "deviceHomogeneous" UnitNone
      ("" +:+ dquote +:+ "true" +:+ dquote +:+ " when every measured device reported the same product name and compute capability, " +:+ dquote +:+ "false" +:+ dquote +:+ " when the runner READ every identity and they differ. A positive establishment: an unreadable identity on one device is an omission and declares nothing. When false, every spread over an absolute figure is n/a, because a mixed board's spread reads as a fault on healthy hardware. A label")
      ThresholdUseEvidence AggLast CombineUnclassified false);
   ("deviceConcurrency",
    MkMetric "deviceConcurrency" UnitNone
      ("the iteration mode the runner resolved: " +:+ dquote +:+ "sequential" +:+ dquote +:+ " (one device at a time, each given deviceWindowS) or " +:+ dquote +:+ "all" +:+ dquote +:+ " (every device at once for the full duration). Declared per kind by the runner and overridden by BURNIN_DEVICE_CONCURRENCY. A label; the number a consumer wants is deviceWindowS")
      ThresholdUseEvidence AggLast CombineUnclassified false);
   ("sustainedClockSpreadPct",
    MkMetric "sustainedClockSpreadPct" UnitPercent
      "spread of sustainedClockPct across the node's devices in one window: (best − worst) / best × 100. One part holding 60% of rated clock beside seven holding 95% is a board with a fault that the worst-device floor may still clear. n/a on a single-device node, under MIG, and on a heterogeneous board — gate it RequiredIfMeasurable"
      ThresholdUseAcceptance AggMax CombineUnclassified true);
   ("gemmThroughputSpreadPct",
    MkMetric "gemmThroughputSpreadPct" UnitPercent
      "spread of achievedTflops across the node's devices in one window of the same GEMM at the same precision: (best − worst) / best × 100. n/a on a single-device node, under MIG, and on a heterogeneous board — gate it RequiredIfMeasurable"
      ThresholdUseAcceptance AggMax CombineUnclassified true);
   ("fmaThroughputSpreadPct",
    MkMetric "fmaThroughputSpreadPct" UnitPercent
      "spread of sustainedFmaThroughputTflops across the node's devices in one window of the same soak: (best − worst) / best × 100. Its own name rather than a shared throughput spread for the reason sustainedFmaThroughputTflops is not sustainedThroughputTflops. n/a on a single-device node, under MIG, and on a heterogeneous board — gate it RequiredIfMeasurable"
      ThresholdUseAcceptance AggMax CombineUnclassified true);
   ("hostToDeviceBandwidthSpreadPct",
    MkMetric "hostToDeviceBandwidthSpreadPct" UnitPercent
      "spread of hostToDeviceBandwidthGBs across the node's devices in one window: (best − worst) / best × 100. A device on a PCIe link that trained narrow reads low here while the worst-device floor may still clear. n/a on a single-device node, under MIG, and on a heterogeneous board — gate it RequiredIfMeasurable"
      ThresholdUseAcceptance AggMax CombineUnclassified true)].

(** Test-execution counters (metrics.go, lines 1145-1192). *)
Definition registry_execution : list (str * Metric) :=
  [("diagTestsFailed",
    MkMetric "diagTestsFailed" UnitNone
      "count of individual diagnostic subtests that returned a failure; zero alongside a non-zero runner exit means the suite could not run rather than that the hardware failed"
      ThresholdUseAcceptance AggSum CombineUnclassified false);
   ("testsWarned",
    MkMetric "testsWarned" UnitNone
      "count of diagnostic subtests that reported a warning rather than a failure; the runner does not promote these to a failure, so gate this to act on them. diag_warn_findings carries what they said"
      ThresholdUseAcceptance AggSum CombineUnclassified false);
   ("iterationsCompleted",
    MkMetric "iterationsCompleted" UnitNone
      "count of stress iterations the runner completed; a soak that completes far fewer than expected did less work than its duration suggests"
      ThresholdUseAcceptance AggSum CombineUnclassified false);
   ("samplesTaken",
    MkMetric "samplesTaken" UnitNone
      "count of measurement samples the probe collected during its window; it bounds how much evidence the derived statistics rest on, and its magnitude is set by the configured sample interval rather than by the part"
      ThresholdUseEvidence AggSum CombineUnclassified false);
   ("loadLaunches",
    MkMetric "loadLaunches" UnitNone
      "count of load-kernel launches issued during the measured window; the runner sizes each launch to a fixed wall time on the part in front of it, so this lands near the same figure on a healthy and a wedged part alike and says nothing about either — elapsedS is the metric that says the window ran"
      ThresholdUseEvidence AggSum CombineUnclassified false);
   ("loadThreads",
    MkMetric "loadThreads" UnitNone
      "total CUDA threads the load was launched with, derived from the part's SM count; it records how the probe sized itself to the device, which makes a throughput figure reproducible and is not a property of the device's health"
      ThresholdUseEvidence AggLast CombineUnclassified false);
   ("loadItersPerLaunch",
    MkMetric "loadItersPerLaunch" UnitNone
      "inner-loop iterations per load-kernel launch, chosen by calibrating against the live part so each launch takes a fixed wall time; it is an artefact of that calibration — a slower part gets a smaller number by design — so it explains the load rather than judging the part"
      ThresholdUseEvidence AggLast CombineUnclassified false)].

(** Identity, configuration and classification LABELS (metrics.go, lines 1209-1352). *)
Definition registry_labels : list (str * Metric) :=
  [("tcpTestInterface",
    MkMetric "tcpTestInterface" UnitNone
      "the interface the TCP baseline actually loaded. Recorded because the management-path guard's decision is only auditable if the answer is in the result: a number with no interface beside it cannot be checked against the node's topology later"
      ThresholdUseEvidence AggLast CombineUnclassified false);
   ("tcpMgmtInterface",
    MkMetric "tcpMgmtInterface" UnitNone
      "the interface carrying this node's default route, which the guard treats as the management path and refuses to load. Reported alongside tcpTestInterface so a reader can see the two were different"
      ThresholdUseEvidence AggLast CombineUnclassified false);
   ("pciAddresses",
    MkMetric "pciAddresses" UnitNone
      ("PCI slots of the node's accelerators, comma-joined in slot order (" +:+ dquote +:+ "0000:01:00.0,0000:02:00.0" +:+ dquote +:+ "). What an engineer walking to the rack needs")
      ThresholdUseEvidence AggLast CombineUnclassified false);
   ("pciVendorIds",
    MkMetric "pciVendorIds" UnitNone
      ("PCI vendor IDs as the devices report them (" +:+ dquote +:+ "0x10de" +:+ dquote +:+ "). Ground truth in a way a label is not: readable on a node with no device plugin, no NFD and no labels at all")
      ThresholdUseEvidence AggLast CombineUnclassified false);
   ("pciDeviceIds",
    MkMetric "pciDeviceIds" UnitNone
      "PCI device IDs as the devices report them, in the same order as pciAddresses"
      ThresholdUseEvidence AggLast CombineUnclassified false);
   ("acceleratorVendors",
    MkMetric "acceleratorVendors" UnitNone
      "distinct accelerator vendors on the node, resolved from PCI vendor IDs where this project has a name for one and left as the raw hex ID where it does not. A LABEL: gating on it fails a node for being the vendor it is, which is a targeting decision belonging in a node selector"
      ThresholdUseEvidence AggLast CombineUnclassified false);
   ("acceleratorDrivers",
    MkMetric "acceleratorDrivers" UnitNone
      "kernel modules bound to the node's accelerators. OMITTED entirely when nothing is bound, because a device the kernel sees and no driver claims is the shape of a node whose plugin never came up — and an empty value would read as absent information rather than an absent driver"
      ThresholdUseEvidence AggLast CombineUnclassified false);
   ("diskIoPath",
    MkMetric "diskIoPath" UnitNone
      "the directory a storage test measured. A label: recorded because a throughput figure with no path beside it cannot be checked against the node's topology later — measuring a container overlay and measuring an NVMe produce the same-shaped number"
      ThresholdUseEvidence AggLast CombineUnclassified false);
   ("gpuName",
    MkMetric "gpuName" UnitNone
      ("the accelerator's product name as the driver reports it (" +:+ dquote +:+ "NVIDIA GB10" +:+ dquote +:+ "). A label, not a measurement: no comparison against it is arithmetic, and identity is a fleet-inventory question rather than an acceptance one — target a heterogeneous fleet with node selectors, not with a threshold")
      ThresholdUseEvidence AggLast CombineUnclassified false);
   ("computeCap",
    MkMetric "computeCap" UnitNone
      ("the CUDA compute capability the device reports, as major.minor (" +:+ dquote +:+ "12.1" +:+ dquote +:+ "). It is a VERSION, not a quantity, and the resemblance is the trap: compared as a decimal, 12.1 and 12.10 are the same value and any ordering that looks right does so by coincidence of notation. A runner that cares about capability decides it in the runner, where the two components are compared separately")
      ThresholdUseEvidence AggLast CombineUnclassified false);
   ("pciBusId",
    MkMetric "pciBusId" UnitNone
      "the device's PCI bus address, recorded so a verdict can be tied to a physical slot when a node holds several parts; an address, with no ordering a threshold could use"
      ThresholdUseEvidence AggLast CombineUnclassified false);
   ("driverVersion",
    MkMetric "driverVersion" UnitNone
      ("the NVIDIA driver version string (" +:+ dquote +:+ "580.82.09" +:+ dquote +:+ "). A three-component version does not parse as a float at all, so a gate on it fails closed on every node; driver-version policy belongs in a fleet's node labels and admission rules, not in a hardware acceptance verdict")
      ThresholdUseEvidence AggLast CombineUnclassified false);
   ("builtCudaArch",
    MkMetric "builtCudaArch" UnitNone
      ("the nvcc arch target this runner IMAGE was compiled for (" +:+ dquote +:+ "sm_121a" +:+ dquote +:+ "), printed by the runner so a stored result names the image that produced it. A property of the image that was pinned rather than of the part it landed on, and the runner already reports a mismatch itself as an Error naming the fix")
      ThresholdUseEvidence AggLast CombineUnclassified false);
   ("migMode",
    MkMetric "migMode" UnitNone
      ("whether MIG partitioning is enabled on the device (" +:+ dquote +:+ "enabled" +:+ dquote +:+ "/" +:+ dquote +:+ "disabled" +:+ dquote +:+ "). A configuration state expressed as a word; a runner whose measurement is unattributable under MIG skips (exit 2) on its own, which is the reported form of that finding")
      ThresholdUseEvidence AggLast CombineUnclassified false);
   ("nvmlUnsupported",
    MkMetric "nvmlUnsupported" UnitNone
      "comma-separated names of the driver properties the runner asked for and was refused, recorded rather than substituted so an unsupported read can never be mistaken for a measured value. A list; unsupportedReads is its count, and neither is safe to gate on (see that entry)"
      ThresholdUseEvidence AggLast CombineUnclassified false);
   ("configWarnings",
    MkMetric "configWarnings" UnitNone
      "semicolon-separated notes about configuration the runner adjusted or could not honour, so a result carries the reason it did not run exactly as asked. Free-form prose, and a gate on it can only fail"
      ThresholdUseEvidence AggLast CombineUnclassified false);
   ("throttleReasons",
    MkMetric "throttleReasons" UnitNone
      ("comma-separated names of the throttle reasons the driver latched during the run (" +:+ dquote +:+ "none" +:+ dquote +:+ " when it latched nothing) — the human-readable form of throttleReasonsMask. A list of labels; gate on throttledSamples for " +:+ dquote +:+ "was it throttled at all" +:+ dquote +:+ "")
      ThresholdUseEvidence AggLast CombineUnclassified false);
   ("throttleClassification",
    MkMetric "throttleClassification" UnitNone
      "why the runner believes the clock fell short: one of none|thermal|powerCap|applicationClocks|unknown. This is an ATTRIBUTION, and a label — it exists to send an engineer to a cable or to a cooling path rather than to a die, and the runner has already failed the node itself when it is anything but none. Gate the clock (sustainedClockPct) and read this to find out why"
      ThresholdUseEvidence AggLast CombineUnclassified false);
   ("ncclTransport",
    MkMetric "ncclTransport" UnitNone
      "which transport NCCL actually selected for an intra-node (Node-scope) collective: one of nvlink|p2p|shm|net. BEST-EFFORT and self-omitting, not a probe result: it is read from NCCL_DEBUG=INFO's own log text rather than from anything this runner measured directly, so an NCCL upgrade that changes its wording makes this label simply absent from a future run rather than wrong — it can never become a hardware verdict, because it is Evidence and nothing in this project gates on it. It answers the question an intra-node run raises that a cross-node one never does: did the collective cross NVLink, or silently fall back to something slower within the same box"
      ThresholdUseEvidence AggLast CombineUnclassified false);
   ("pdWedgeSuspected",
    MkMetric "pdWedgeSuspected" UnitNone
      ("whether the run matched the power-delivery wedge signature — slow, cool, and not thermally throttled: one of true|false|unknown. Deliberately TRI-STATE and therefore a label, not a boolean: without a temperature a wedge cannot be told from a thermal throttle, and " +:+ dquote +:+ "we could not tell" +:+ dquote +:+ " must not collapse into " +:+ dquote +:+ "false" +:+ dquote +:+ " and read as an all-clear. The runner fails the node on this itself; a threshold cannot express the three states and fails closed on all of them")
      ThresholdUseEvidence AggLast CombineUnclassified false);
   ("idleClockLockSuspected",
    MkMetric "idleClockLockSuspected" UnitNone
      ("whether the run matched the amdgpu idle-clock-lock signature — slow, cool, and busy (ROCm issue #5750): one of true|false|unknown. Tri-state for the same reason pdWedgeSuspected is: without a temperature the lock cannot be told from a thermal throttle, and without a utilization reading " +:+ dquote +:+ "busy while slow" +:+ dquote +:+ " cannot be established — neither unknown may read as an all-clear. The runner fails the node on the clock floor itself; a threshold cannot express the three states")
      ThresholdUseEvidence AggLast CombineUnclassified false);
   ("gfxTarget",
    MkMetric "gfxTarget" UnitNone
      ("the AMD accelerator's compute target as HIP reports it (" +:+ dquote +:+ "gfx1151" +:+ dquote +:+ "). A label with the same standing as gpuName: identity is a fleet-inventory question, never a threshold")
      ThresholdUseEvidence AggLast CombineUnclassified false);
   ("clockFloorBasis",
    MkMetric "clockFloorBasis" UnitNone
      "which floor the run was judged against, general|thermal, naming the reason clockFloorAppliedPct is what it is; a label recording the runner's own decision"
      ThresholdUseEvidence AggLast CombineUnclassified false)].

(** Duty cycle (power-swing) (metrics.go, lines 1364-1502). *)
Definition registry_duty1 : list (str * Metric) :=
  [("swingTransitions",
    MkMetric "swingTransitions" UnitNone
      "count of OFF->ON duty-cycle transitions (ramps) completed during the test — context for the other swing_* figures: two throttle events in ten ramps is a different finding from two in a thousand. A WINDOWED count, like iterationsCompleted: a segmented soak's segments each contribute the transitions THEY saw, and the total is their sum — which is also why the device fold beneath it is Once rather than Sum, since every device on one node follows the identical wall-clock schedule and would otherwise be double-counted"
      ThresholdUseEvidence AggSum CombineUnclassified false);
   ("swingWorstPostRampClockPct",
    MkMetric "swingWorstPostRampClockPct" UnitPercent
      "the LOWEST instantaneous SM clock, as a percentage of rated boost, seen inside ANY post-ramp window across the whole run — the figure a VRM that cannot slew fast enough shows up in. Omitted when no ramp sample was taken or the rated clock could not be read"
      ThresholdUseEvidence AggMin CombineUnclassified false);
   ("swingPeakRampPowerW",
    MkMetric "swingPeakRampPowerW" UnitWatts
      "the HIGHEST instantaneous board power seen inside ANY post-ramp window across the whole run — the figure a PSU that sags rather than surges under a fast load step would instead show as a DIP; published alongside swingWorstPostRampClockPct so a reader can tell the two apart. Omitted when no ramp sample with a working power read was taken"
      ThresholdUseEvidence AggMax CombineUnclassified false);
   ("swingNewThrottleEvents",
    MkMetric "swingNewThrottleEvents" UnitNone
      "count of post-ramp windows during which a throttle-reason bit appeared that was NOT already latched during the steady OFF phase immediately before it — a reason that shows up specifically at the moment of the ramp, rather than one already present beforehand. Omitted on a device whose throttle reasons could never be read at all, exactly as throttleEvents is"
      ThresholdUseEvidence AggSum CombineUnclassified false);
   ("swingNewThrottleReasons",
    MkMetric "swingNewThrottleReasons" UnitNone
      ("comma-separated names of the throttle reasons that appeared during a ramp and were not already latched beforehand (" +:+ dquote +:+ "none" +:+ dquote +:+ " when none did) — the human-readable form of what swingNewThrottleEvents counts. A list of labels; gate on swingNewThrottleEvents for " +:+ dquote +:+ "did a new reason appear at all" +:+ dquote +:+ ", not that this project recommends gating on either — see the section header")
      ThresholdUseEvidence AggLast CombineUnclassified false);
   ("fabricCountersSaturated",
    MkMetric "fabricCountersSaturated" UnitNone
      "how many IB/RoCE error counters were observed PINNED at their maximum. The IB-spec PMA counters do not wrap — they saturate and stay there until reset — so a port erroring long enough to peg a 16-bit counter shows a delta of ZERO across any window and reads as a clean link. This is the only signal that sees it, and `Equal 0` is the gate"
      ThresholdUseAcceptance AggMax CombineUnclassified false);
   ("fabricSaturatedCounters",
    MkMetric "fabricSaturatedCounters" UnitNone
      "comma-separated names of the pegged counters, so a reader knows whether the link is throwing symbol errors or dropping subnet-management packets. A list of labels; gate on fabricCountersSaturated for the count"
      ThresholdUseEvidence AggLast CombineUnclassified false);
   ("fabricCounterStatus",
    MkMetric "fabricCounterStatus" UnitNone
      "whether any IB/RoCE port was visible to the probe at all: ok|absent. `absent` is legitimate — /sys/class/infiniband may be invisible inside the pod depending on the RDMA namespace mode — and it is why every fabric counter is OMITTED rather than zeroed there, so a gate on one fails closed instead of certifying a fabric nobody looked at"
      ThresholdUseEvidence AggLast CombineUnclassified false);
   ("eccMode",
    MkMetric "eccMode" UnitNone
      ("whether ECC is enabled on the device, as the driver reports it (" +:+ dquote +:+ "Enabled" +:+ dquote +:+ "/" +:+ dquote +:+ "Disabled" +:+ dquote +:+ "). A LABEL: a threshold is compared as a float64, so gating on it fails closed on every node forever and reads as a hardware verdict. It is what tells " +:+ dquote +:+ "this part has no ECC" +:+ dquote +:+ " from " +:+ dquote +:+ "ECC was switched off" +:+ dquote +:+ ", and only the first is declarable as unmeasurable")
      ThresholdUseEvidence AggLast CombineUnclassified false);
   ("eccSource",
    MkMetric "eccSource" UnitNone
      ("where the ECC counters came from (" +:+ dquote +:+ "amdgpu-sysfs" +:+ dquote +:+ "). A LABEL, recorded because eccErrors means the same thing across vendors only if a reader can see which subsystem produced it")
      ThresholdUseEvidence AggLast CombineUnclassified false);
   ("eccVendorConflict",
    MkMetric "eccVendorConflict" UnitNone
      ("present only on a node where two vendors' accelerators both have ECC counters to report (" +:+ dquote +:+ "nvidia+amd" +:+ dquote +:+ "). One pod gets one image, so this operator does not support such a node; the first reading stands and this records that a second was declined rather than silently overwriting it")
      ThresholdUseEvidence AggLast CombineUnclassified false);
   ("amdRasUnreadableFiles",
    MkMetric "amdRasUnreadableFiles" UnitNone
      "the amdgpu RAS counter files that could not be read, comma-joined. A LABEL, and the reason eccErrors is absent rather than zero: without it an omitted counter looks identical to one nobody implemented, and the fail-closed verdict has no reason attached"
      ThresholdUseEvidence AggLast CombineUnclassified false);
   ("xidSource",
    MkMetric "xidSource" UnitNone
      ("where the Xid scan read from: kmsg|kernlog|none. A label naming the PROVENANCE of xidEvents, and the value that matters most is the one a gate cannot express — " +:+ dquote +:+ "none" +:+ dquote +:+ " means the scan did not run, and the counters it would have produced are omitted rather than zeroed, so xidEvents already fails closed on its own")
      ThresholdUseEvidence AggLast CombineUnclassified false);
   ("xidSourceDetail",
    MkMetric "xidSourceDetail" UnitNone
      "why the Xid scan could not run: the path(s) tried and, where the cause is the three-part /dev/kmsg grant, the remedy. Free text for a human; never a number, never gateable"
      ThresholdUseEvidence AggLast CombineUnclassified false);
   ("xidLogDropped",
    MkMetric "xidLogDropped" UnitNone
      "1 when a kernel-log drain lost records (ring wrapped, scan failed, or a read bound was hit); absent otherwise. The counters it qualifies are omitted in the same case, so this is the trace of WHY they are missing — not a counter to gate"
      ThresholdUseEvidence AggLast CombineUnclassified false);
   ("xidWindowsWatched",
    MkMetric "xidWindowsWatched" UnitNone
      "how many of this test's execution windows the kernel-log Xid watch covered start to finish: 1 or 0 per window, summed across a segmented soak's segments. Pair a gate on xidEvents with a floor on this to certify only fully-watched soaks"
      ThresholdUseAcceptance AggSum CombineSum false)].

(** Duty cycle (power-swing) (metrics.go, lines 1508-1653). *)
Definition registry_duty2 : list (str * Metric) :=
  [("xidPreexisting",
    MkMetric "xidPreexisting" UnitNone
      "count of NVIDIA Xid errors already in the kernel log when the scan's window opened — the node's earlier history this boot, not the test's own window. The windowed count is xidEvents"
      ThresholdUseAcceptance AggLast CombineMax false);
   ("kernelFatalErrors",
    MkMetric "kernelFatalErrors" UnitNone
      "count of kernel log lines reporting an uncorrected or fatal hardware event during the test window: a GHES record with severity fatal or recoverable, an uncorrected error, an MCE hardware event, a critical Xid, or a kernel panic. Corrected events are never counted"
      ThresholdUseAcceptance AggSum CombineSum false);
   ("kernelFatalErrorsPreexisting",
    MkMetric "kernelFatalErrorsPreexisting" UnitNone
      "count of kernel log lines reporting an uncorrected or fatal hardware event that were already in the log when the scan's window opened — the node's earlier history this boot. The windowed count is kernelFatalErrors"
      ThresholdUseAcceptance AggLast CombineMax false);
   ("cpuCount",
    MkMetric "cpuCount" UnitNone
      "number of CPUs the host's sysfs lists as present"
      ThresholdUseAcceptance AggLast CombineUnclassified false);
   ("performanceCoreCount",
    MkMetric "performanceCoreCount" UnitNone
      "number of CPUs in the highest cpu_capacity class (within 90% of the maximum). n/a on a part whose kernel publishes no capacity classes, which means every core is the same"
      ThresholdUseAcceptance AggLast CombineUnclassified false);
   ("memoryTotalGB",
    MkMetric "memoryTotalGB" UnitGigabytes
      "total system memory the kernel manages, summed over NUMA nodes, in decimal gigabytes. Below the marketed size by the firmware and kernel reservations, so gate it with a floor measured on a healthy node"
      ThresholdUseAcceptance AggLast CombineUnclassified false);
   ("nvmeCount",
    MkMetric "nvmeCount" UnitNone
      "number of NVMe controllers in the host's sysfs"
      ThresholdUseAcceptance AggLast CombineUnclassified false);
   ("nvmeTotalCapacityGB",
    MkMetric "nvmeTotalCapacityGB" UnitGigabytes
      "total capacity of every NVMe namespace, in decimal gigabytes"
      ThresholdUseAcceptance AggLast CombineUnclassified false);
   ("nvmeModels",
    MkMetric "nvmeModels" UnitNone
      "comma-separated NVMe model strings in controller order. A label; gate on nvmeCount or nvmeTotalCapacityGB instead"
      ThresholdUseEvidence AggLast CombineUnclassified false);
   ("nvmePciAddresses",
    MkMetric "nvmePciAddresses" UnitNone
      "comma-separated PCI slot addresses of the NVMe controllers, e.g. 0004:01:00.0. A drive in the wrong slot is an assembly fault; compare the string in a report rather than gating on it"
      ThresholdUseEvidence AggLast CombineUnclassified false);
   ("smClockSteadyStateDeltaPct",
    MkMetric "smClockSteadyStateDeltaPct" UnitPercent
      "signed split-half drift of the SM clock over the post-warm-up samples: 100·(second-half mean − first-half mean)/max. Negative is a clock still sliding when the soak ended; near zero is steady state. Evidence, not a gate"
      ThresholdUseEvidence AggLast CombineUnclassified false);
   ("fmaSingleCoreGflops",
    MkMetric "fmaSingleCoreGflops" UnitGigaflops
      "double-precision FMA throughput of ONE core, the highest cpu_capacity core the pod may use: 8 independent chains, median of samples"
      ThresholdUseAcceptance AggMin CombineUnclassified false);
   ("fmaAllCoreGflops",
    MkMetric "fmaAllCoreGflops" UnitGigaflops
      "the same FMA kernel on every allowed core at once, one pinned thread each, median of samples. Noisier than the single-core figure on a part with heterogeneous clusters"
      ThresholdUseAcceptance AggMin CombineUnclassified false);
   ("hostStreamCopyGBs",
    MkMetric "hostStreamCopyGBs" UnitGigabytesPerSecond
      "STREAM copy (c = a) over host memory, one pinned thread per allowed core, arrays 4x the largest single L3, median"
      ThresholdUseAcceptance AggMin CombineUnclassified false);
   ("hostStreamScaleGBs",
    MkMetric "hostStreamScaleGBs" UnitGigabytesPerSecond
      "STREAM scale (b = s·c) over host memory, as hostStreamCopyGBs"
      ThresholdUseAcceptance AggMin CombineUnclassified false);
   ("hostStreamAddGBs",
    MkMetric "hostStreamAddGBs" UnitGigabytesPerSecond
      "STREAM add (c = a + b) over host memory, as hostStreamCopyGBs"
      ThresholdUseAcceptance AggMin CombineUnclassified false);
   ("hostStreamTriadGBs",
    MkMetric "hostStreamTriadGBs" UnitGigabytesPerSecond
      "STREAM triad (a = b + s·c) over host memory, as hostStreamCopyGBs; the figure usually quoted"
      ThresholdUseAcceptance AggMin CombineUnclassified false);
   ("cpuBenchThreads",
    MkMetric "cpuBenchThreads" UnitNone
      "how many CPUs the pod's affinity mask allowed, and so how many threads the all-core phases ran"
      ThresholdUseEvidence AggLast CombineUnclassified false);
   ("cpuBenchPerfCore",
    MkMetric "cpuBenchPerfCore" UnitNone
      "the CPU id the single-core FMA ran on: the highest cpu_capacity allowed core, ties to the lowest id. An identity, not a quantity"
      ThresholdUseEvidence AggLast CombineUnclassified false);
   ("streamArrayBytes",
    MkMetric "streamArrayBytes" UnitNone
      "bytes per STREAM array: 4x the largest single L3 instance, or 256 MiB where no L3 is published (then streamArrayBasis=fallback)"
      ThresholdUseEvidence AggLast CombineUnclassified false);
   ("streamArrayBasis",
    MkMetric "streamArrayBasis" UnitNone
      ("" +:+ dquote +:+ "fallback" +:+ dquote +:+ " when no L3 size was published and STREAM used a fixed 256 MiB array. A label")
      ThresholdUseEvidence AggLast CombineUnclassified false)].

(** Duty cycle (power-swing) (metrics.go, lines 1654-1738). *)
Definition registry_duty3 : list (str * Metric) :=
  [("streamStatus",
    MkMetric "streamStatus" UnitNone
      ("" +:+ dquote +:+ "insufficient_memory" +:+ dquote +:+ " when the RAM headroom guard refused STREAM (three arrays may use at most three quarters of available memory); the hostStream metrics are then absent. A label")
      ThresholdUseEvidence AggLast CombineUnclassified false);
   ("managedMemoryBandwidthGBs",
    MkMetric "managedMemoryBandwidthGBs" UnitGigabytesPerSecond
      "STREAM triad bandwidth over cudaMallocManaged memory, median of 20 iterations, worst device. Unmeasurable (n/a) where the device reports no managed-memory support"
      ThresholdUseAcceptance AggMin CombineUnclassified true);
   ("managedTriadStatus",
    MkMetric "managedTriadStatus" UnitNone
      ("" +:+ dquote +:+ "error" +:+ dquote +:+ " when the managed-memory triad could not measure; managedMemoryBandwidthGBs is then absent and the test's verdict is unchanged. A label; gate on managedMemoryBandwidthGBs instead")
      ThresholdUseEvidence AggLast CombineUnclassified false);
   ("randReadIops",
    MkMetric "randReadIops" UnitNone
      "4 KiB random reads per second at randReadQueueDepth in flight, direct I/O, counted after a short ramp"
      ThresholdUseAcceptance AggMin CombineUnclassified false);
   ("randReadP99LatencyUs",
    MkMetric "randReadP99LatencyUs" UnitMicroseconds
      "99th-percentile latency of the 4 KiB random reads, at 1 µs resolution; absent when the tail lies beyond 20 ms rather than clamped"
      ThresholdUseAcceptance AggMax CombineUnclassified false);
   ("randReadQueueDepth",
    MkMetric "randReadQueueDepth" UnitNone
      "how many random reads were kept in flight; a configuration, recorded so an IOPS figure says what it was measured at"
      ThresholdUseEvidence AggLast CombineUnclassified false);
   ("bandwidthSteadyStateDeltaPct",
    MkMetric "bandwidthSteadyStateDeltaPct" UnitPercent
      "signed split-half drift of the completed windows' bandwidth in time order. Negative is a link that slowed as it warmed; near zero is a steady link. Evidence, not a gate"
      ThresholdUseEvidence AggLast CombineUnclassified false);
   ("nvmeSerialDigests",
    MkMetric "nvmeSerialDigests" UnitNone
      "comma-separated first 16 hex of SHA-256 over each NVMe serial, controller order; the serial itself is never emitted. Two nodes sharing a digest are one drive seen twice. A label"
      ThresholdUseEvidence AggLast CombineUnclassified false);
   ("nodeReady",
    MkMetric "nodeReady" UnitNone
      "the runner's own verdict echoed as true|false, so a stored result carries it next to the evidence. It is a restatement of the exit code, not an independent measurement, and gating on it would ask a threshold to re-derive a decision the operator already has — as a word, which compares as a float64 and fails closed on both of its values"
      ThresholdUseEvidence AggLast CombineUnclassified false);
   ("hostHealthVersion",
    MkMetric "hostHealthVersion" UnitNone
      "the shape of the metric set this runner emitted, so a consumer charting these counters over months can tell when the set changed. A schema version of the OUTPUT, saying nothing whatever about the hardware; it parses as a number, which is precisely why it has to be registered"
      ThresholdUseEvidence AggLast CombineUnclassified false);
   ("hostHealthStage",
    MkMetric "hostHealthStage" UnitNone
      ("the furthest stage the runner reached, streamed as it goes so a process that is OOM-killed or brought down by a Go runtime fatal error still says where it died. On a run that completed it is always " +:+ dquote +:+ "done" +:+ dquote +:+ ", which is why it is worthless as a gate and valuable as evidence: it only carries information when everything else is missing")
      ThresholdUseEvidence AggLast CombineUnclassified false);
   ("hostHealthPanic",
    MkMetric "hostHealthPanic" UnitNone
      "the one-line summary of a panic the runner recovered from before exiting 3, present only on a run that crashed. It is recorded as a metric as well as in the message because a metric cannot be overwritten by a later stack frame, and the stored result outlives the pod whose log holds the trace"
      ThresholdUseEvidence AggLast CombineUnclassified false)].

Definition registry_entries : list (str * Metric) :=
  registry_interconnect ++
  registry_memory_bw ++
  registry_latency ++
  registry_thermal ++
  registry_compute ++
  registry_gemm ++
  registry_correctness ++
  registry_faults ++
  registry_retention1 ++
  registry_retention2 ++
  registry_devices ++
  registry_execution ++
  registry_labels ++
  registry_duty1 ++
  registry_duty2 ++
  registry_duty3.

(** ** Lookups *)
Definition registry : gmap str Metric := list_to_map registry_entries.

Definition Lookup (name : str) : option Metric := registry !! name.

Definition AggregationFor (name : str) : Aggregation :=
  match Lookup name with Some m => m_Aggregation m | None => AggLast end.

Definition CombinationFor (name : str) : Combination :=
  match Lookup name with Some m => m_Combination m | None => CombineUnclassified end.

Definition SafeToThresholdOn (name : str) : bool :=
  match Lookup name with Some m => metric_SafeToThresholdOn m | None => true end.

Definition MayBeUnmeasurable (name : str) : bool :=
  match Lookup name with Some m => m_MayBeUnmeasurable m | None => false end.

Definition SpreadMetrics : list str :=
  ["sustainedClockSpreadPct"; "gemmThroughputSpreadPct";
   "fmaThroughputSpreadPct"; "hostToDeviceBandwidthSpreadPct"].

Definition IsSpreadMetric (name : str) : bool := bool_decide (name ∈ SpreadMetrics).

Definition Registered : list str := sort_strings (map_to_list registry).*1.

(** [UnitOf] *)
Definition has_unit (name : str) (u : Unit) : bool :=
  HasSuffix name (unit_string u) &&
  (String.length (unit_string u) <? String.length name)%nat.

Definition UnitOf (name : str) : Unit :=
  default UnitNone (list_first (has_unit name) UnitSuffixes).

(** ** The grammar of metric names *)
Inductive NameError :=
  | NameEmpty
  | NameNotLower (name : str)
  | NameBadRune (name rune : str)
  | NameWrongUnit (name : str) (registered declared : Unit).

Definition is_alnum (c : ascii) : bool := is_lower c || is_upper c || is_digit c.

(** The bytes of the rune a string starts with. *)
Fixpoint continuation (s : str) : str :=
  match s with
  | String c s => if rune_start c then "" else String c (continuation s)
  | EmptyString => ""
  end.

Fixpoint first_bad (s : str) : option str :=
  match s with
  | EmptyString => None
  | String c s => if is_alnum c then first_bad s else Some (String c (continuation s))
  end.

Definition ValidateMetricName (name : str) : option NameError :=
  match name with
  | EmptyString => Some NameEmpty
  | String c _ =>
      if negb (is_lower c) then Some (NameNotLower name)
      else match first_bad name with
           | Some r => Some (NameBadRune name r)
           | None =>
               match Lookup name with
               | Some m =>
                   if bool_decide (UnitOf name = m_Unit m) then None
                   else Some (NameWrongUnit name (m_Unit m) (UnitOf name))
               | None => None
               end
           end
  end.

Definition NameError_string (e : NameError) : str :=
  match e with
  | NameEmpty => "metric name must not be empty"
  | NameNotLower name =>
      "metric name " +:+ quote name +:+
      " must be lowerCamelCase (start with a lowercase letter)"
  | NameBadRune name r =>
      "metric name " +:+ quote name +:+
      " must be alphanumeric lowerCamelCase; found '" +:+ r +:+ "'"
  | NameWrongUnit name reg got =>
      "metric " +:+ quote name +:+ " is registered with unit " +:+
      quote (unit_string reg) +:+ " but its name declares " +:+
      quote (unit_string got)
  end.

(** [ValidateMetrics]: every offending name, sorted. *)
Definition ValidateMetrics (metrics : gmap str str) : option str :=
  let bad := omap (λ '(name, _), NameError_string <$> ValidateMetricName name)
               (map_to_list metrics) in
  match bad with
  | [] => None
  | _ => Some (Join (sort_strings bad) "; ")
  end.

(** ** Properties *)

(** What [TestRegistryIsSelfConsistent] asks of one entry. *)
Definition entry_ok (name : str) (m : Metric) : Prop :=
  m_Name m = name ∧
  ValidateMetricName name = None ∧
  UnitOf name = m_Unit m ∧
  m_ThresholdUse m ≠ ThresholdUseUnspecified ∧
  m_Aggregation m ≠ AggUnspecified ∧
  m_Description m ≠ "".

Global Instance entry_ok_dec name m : Decision (entry_ok name m).
Proof. unfold entry_ok. apply _. Defined.

Definition entries_ok : bool :=
  forallb (λ '(name, m), bool_decide (entry_ok name m)) registry_entries.

Lemma entries_ok_true : entries_ok = true.
Proof. by vm_compute. Qed.

Lemma registry_keys_nodup : NoDup registry_entries.*1.
Proof. apply (bool_decide_unpack _). by vm_compute. Qed.

Lemma Lookup_entry name m : Lookup name = Some m ↔ (name, m) ∈ registry_entries.
Proof.
  unfold Lookup, registry. symmetry.
  apply elem_of_list_to_map, registry_keys_nodup.
Qed.

Lemma Lookup_ok name m : Lookup name = Some m → entry_ok name m.
Proof.
  intros H%Lookup_entry. pose proof entries_ok_true as E.
  unfold entries_ok in E. rewrite forallb_elem in E.
  specialize (E _ H). by apply bool_decide_eq_true in E.
Qed.

(** every name the project owns is consistent with its own grammar. *)
Theorem registry_self_consistent (name : str) (m : Metric) :
  Lookup name = Some m →
  m_Name m = name ∧ ValidateMetricName name = None ∧ UnitOf name = m_Unit m ∧
  m_ThresholdUse m ≠ ThresholdUseUnspecified ∧ m_Aggregation m ≠ AggUnspecified.
Proof. intros (?&?&?&?&?&?)%Lookup_ok. done. Qed.

Definition suffix_free : bool :=
  forallb (λ u, forallb (λ v, bool_decide (u = v) ||
    negb (HasSuffix (unit_string u) (unit_string v))) UnitSuffixes) UnitSuffixes.

Lemma suffix_free_true : suffix_free = true.
Proof. by vm_compute. Qed.

Lemma suffix_unique (u v : Unit) (name : str) :
  u ∈ UnitSuffixes → v ∈ UnitSuffixes →
  has_unit name u = true → has_unit name v = true → u = v.
Proof.
  unfold has_unit. rewrite !andb_true_iff, !HasSuffix_spec.
  intros Hu Hv [[q1 ->] _] [[q2 E] _].
  pose proof suffix_free_true as F. unfold suffix_free in F.
  rewrite forallb_elem in F. setoid_rewrite forallb_elem in F.
  destruct (str_app_inj_suffix _ _ _ _ E) as [S|S].
  - specialize (F u Hu v Hv). rewrite S in F. simpl in F.
    rewrite orb_false_r in F. by apply bool_decide_eq_true in F.
  - specialize (F v Hv u Hu). rewrite S in F. simpl in F.
    rewrite orb_false_r in F. by apply bool_decide_eq_true in F.
Qed.

(** the order in which the suffixes are tried does not matter: no suffix of the
    set ends in another, so every arrangement of [UnitSuffixes] reads the same
    unit off every name. *)
Theorem UnitOf_any_order (l : list Unit) (name : str) :
  l ≡ₚ UnitSuffixes →
  default UnitNone (list_first (has_unit name) l) = UnitOf name.
Proof.
  intros P. unfold UnitOf.
  destruct (list_first (has_unit name) l) as [u|] eqn:E1;
    destruct (list_first (has_unit name) UnitSuffixes) as [v|] eqn:E2; simpl;
    repeat match goal with
           | H : list_first _ _ = Some _ |- _ => apply list_first_Some in H as [??]
           | H : list_first _ _ = None |- _ => rewrite list_first_None in H
           end; try done.
  - eapply suffix_unique; eauto. by rewrite <-P.
  - rewrite P in *. rewrite E2 in *; done.
  - rewrite E1 in *; [done|]. by rewrite P.
Qed.

Lemma registry_self_consistent_witness : ∃ m,
  Lookup "busBandwidthGBs" = Some m ∧ m_Name m = "busBandwidthGBs" ∧
  UnitOf "busBandwidthGBs" = m_Unit m.
Proof.
  assert (is_Some (Lookup "busBandwidthGBs")) as [m E]
    by (apply (bool_decide_unpack _); by vm_compute).
  exists m. destruct (registry_self_consistent "busBandwidthGBs" m E) as (H1 & _ & H2 & _).
  exact (conj E (conj H1 H2)).
Defined.

Lemma UnitOf_any_order_witness :
  reverse UnitSuffixes ≡ₚ UnitSuffixes ∧
  default UnitNone (list_first (has_unit "busBandwidthGBs") (reverse UnitSuffixes))
  = UnitOf "busBandwidthGBs".
Proof.
  assert (reverse UnitSuffixes ≡ₚ UnitSuffixes) as P by apply reverse_Permutation.
  exact (conj P (UnitOf_any_order (reverse UnitSuffixes) "busBandwidthGBs" P)).
Defined.

Global Opaque registry.
