(* ===== verification/Runner.v ===== *)
(** * pkg/runner: parsing what a runner reports

    The runner contract is an exit code and [key=value] lines on stdout.
    [Parse] (parse.go) turns them into a [Result]; [extractArtifacts]
    (artifact.go) first lifts the fenced evidence out, so that no payload line
    is read as a metric. *)

From S2P Require Import Prelude GoStrings GoFloat GoSha256 Contract Registry.
From Stdlib Require Import Ascii.
Open Scope stdpp_scope.

(** ** Verdicts *)
Inductive Verdict := VerdictPass | VerdictFail | VerdictSkip | VerdictError.

Global Instance Verdict_eq_dec : EqDecision Verdict.
Proof. solve_decision. Defined.

Definition Verdict_string (v : Verdict) : str :=
  match v with
  | VerdictPass => "Pass" | VerdictFail => "Fail"
  | VerdictSkip => "Skip" | VerdictError => "Error"
  end.

Definition VerdictFor (exitCode : Z) : Verdict :=
  match exitCode with
  | 0 => VerdictPass | 1 => VerdictFail | 2 => VerdictSkip | _ => VerdictError
  end%Z.

Definition newline : ascii := chr 10.
Definition tab : ascii := chr 9.
Definition cr : ascii := chr 13.

(** The multi-line pattern [^[A-Z][A-Z0-9_]*_SKIP\b].  A match ends at a word
    boundary and every byte it covers is a word byte, so it is the maximal run
    of word bytes at the start of a line. *)
Definition is_word (c : ascii) : bool := is_alnum c || Ascii.eqb c "_".

Fixpoint word_run (s : str) : str :=
  match s with
  | String c s => if is_word c then String c (word_run s) else ""
  | EmptyString => ""
  end.

Definition line_skips (line : str) : bool :=
  let w := word_run line in
  HasSuffix w "_SKIP" &&
  all_chars (λ c, is_upper c || is_digit c || Ascii.eqb c "_") w &&
  match TrimSuffix w "_SKIP" with String c _ => is_upper c | EmptyString => false end.

Definition DeclaresSkip (stdout : str) : bool :=
  existsb line_skips (Split stdout newline).

Definition Unmeasurable : str := "n/a".

(** ** Artifacts *)
Record Artifact := MkArtifact {
  a_Name : str;
  a_MediaType : str;
  a_Payload : str;
  a_SizeBytes : Z;
  a_Digest : str;
  a_Dropped : str;
}.

Definition artifactBegin : str := "-----BEGIN BURNIN ARTIFACT".
Definition artifactEnd : str := "-----END BURNIN ARTIFACT-----".
Definition markerSuffix : str := "-----".
Definition MaxArtifactBytes : Z := 256 * 1024.

Inductive markerKind :=
  | notAMarker
  | validMarker (name mediaType : str)
  | malformedMarker (header : str).

Definition isSpace (c : ascii) : bool := Ascii.eqb c " " || Ascii.eqb c tab.

Definition classifyBegin (line : str) : markerKind :=
  if negb (HasPrefix line artifactBegin && HasSuffix line markerSuffix)
  then notAMarker
  else
    let rest := TrimSuffix (TrimPrefix line artifactBegin) markerSuffix in
    if match rest with String c _ => negb (isSpace c) | EmptyString => false end
    then notAMarker
    else
      let inner := TrimSpace rest in
      match Fields inner with
      | [name; media] => validMarker name media
      | _ => malformedMarker (truncateAtRune inner 120 "…")
      end.

Definition is_marker (line : str) : bool :=
  match classifyBegin line with notAMarker => false | _ => true end.

Definition strip_cr (line : str) : str := TrimRight line (String cr "").

(** The inner loop: the payload and how the block ended.  [Nested] and [Closed]
    carry the lines the outer loop goes on with; a nested marker is one of
    them, so it is read again as a fresh BEGIN. *)
Inductive ending := Closed (rest : list str) | Nested (rest : list str) | Unclosed.

Fixpoint read_payload (lines : list str) (acc : str) : str * ending :=
  match lines with
  | [] => (acc, Unclosed)
  | l :: ls =>
      let body := strip_cr l in
      if String.eqb body artifactEnd then (acc, Closed ls)
      else if is_marker body then (acc, Nested lines)
      else read_payload ls (acc +:+ body +:+ String newline "")
  end.

Definition rest_of (e : ending) : list str :=
  match e with Closed r | Nested r => r | Unclosed => [] end.

Definition artifact_of (k : markerKind) (payload : str) (e : ending) : Artifact :=
  let size := Z.of_nat (String.length payload) in
  match k with
  | malformedMarker h =>
      MkArtifact "" "" "" 0 ""
        ("the fence header " +:+ quote h +:+ " is not " +:+ dquote +:+
         "<name> <mediaType>" +:+ dquote +:+
         "; both are required and neither may contain a space")
  | validMarker name media =>
      match e with
      | Nested _ => MkArtifact name media "" 0 ""
          "a BEGIN marker appeared inside the payload; encode it or split the artifact"
      | Unclosed => MkArtifact name media "" 0 ""
          "the fence was never closed; a partial payload is not evidence"
      | Closed _ =>
          if (MaxArtifactBytes <? size)%Z
          then MkArtifact name media "" size ""
                 ("payload is " +:+ Itoa size +:+ " bytes, over the " +:+
                  Itoa MaxArtifactBytes +:+ "-byte cap")
          else MkArtifact name media payload size
                 ("sha256:" +:+ hex_encode (Sum256 payload)) ""
      end
  | notAMarker => MkArtifact "" "" "" 0 "" ""
  end.

(** The outer loop.  Every round consumes a line, so the number of lines is
    enough fuel. *)
Fixpoint extract_go (fuel : nat) (lines : list str) : list Artifact * list str :=
  match fuel, lines with
  | S fuel, l :: ls =>
      match classifyBegin (strip_cr l) with
      | notAMarker =>
          let '(arts, rest) := extract_go fuel ls in (arts, l :: rest)
      | k =>
          let '(payload, e) := read_payload ls "" in
          let '(arts, rest) := extract_go fuel (rest_of e) in
          (artifact_of k payload e :: arts, rest)
      end
  | _, _ => ([], [])
  end.

Definition extractArtifacts (stdout : str) : list Artifact * list str :=
  let lines := Split stdout newline in extract_go (length lines) lines.

(** ** Canonical names *)
Definition alias_table : list (str * list (str * str)) :=
  [("compute-smoke", [("tflops", "throughputTflops")]);
   ("gemm-sweep", [("window_seconds", "sampleWindowS");
      ("gemm_iterations", "iterationsCompleted");
      ("sm_clock_mhz", "smClockMHz")]);
   ("gpu-burn", [("errors", "miscompares");
      ("iterations", "iterationsCompleted");
      ("tflops", "sustainedThroughputTflops");
      ("xid_count", "xidEvents")]);
   ("dcgm-diag", [("tests_failed", "diagTestsFailed");
      ("pcie_replay_count", "pcieReplayErrors");
      ("rows_remapped", "remappedRows")]);
   ("memory-bw", [("h2d_bandwidth_gbs", "hostToDeviceBandwidthGBs");
      ("d2h_bandwidth_gbs", "deviceToHostBandwidthGBs");
      ("d2d_bandwidth_gbs", "deviceToDeviceBandwidthGBs");
      ("peer_read_bandwidth_gbs", "peerReadBandwidthGBs");
      ("peer_write_bandwidth_gbs", "peerWriteBandwidthGBs");
      ("memory_bandwidth_gbs", "memoryBandwidthGBs");
      ("managed_memory_bandwidth_gbs", "managedMemoryBandwidthGBs")]);
   ("host-health", [("ib_counters_saturated", "fabricCountersSaturated");
      ("ib_saturated_counters", "fabricSaturatedCounters");
      ("ib_counter_status", "fabricCounterStatus");
      ("nic_link_down", "nicLinkDownEvents");
      ("pcie_replay_count", "pcieReplayErrors");
      ("xid_count", "xidEvents");
      ("rows_remapped", "remappedRows")]);
   ("thermal-soak", [("peak_temp_c", "gpuTempC");
      ("peak_power_w", "powerDrawW");
      ("throttle_count", "throttleEvents");
      ("soak_seconds", "elapsedS");
      ("xid_count", "xidEvents")]);
   ("power-swing", [("peak_temp_c", "gpuTempC");
      ("peak_power_w", "powerDrawW");
      ("throttle_count", "throttleEvents");
      ("soak_seconds", "elapsedS");
      ("xid_count", "xidEvents")]);
   ("nccl", [("algbw", "algBandwidthGBs");
      ("busbw", "busBandwidthGBs");
      ("wrong_count", "miscompares")]);
   ("ib-write-bw", [("bw_average", "bandwidthGbps");
      ("bw_peak", "peakBandwidthGbps");
      ("latency_min_us", "minLatencyUs");
      ("latency_max_us", "maxLatencyUs");
      ("latency_p99_us", "p99LatencyUs");
      ("msg_rate_mpps", "messageRateMpps")]);
   ("gpudirect-rdma", [("bw_average", "bandwidthGbps");
      ("t_avg_usec", "latencyUs")]);
   ("clockprobe", [("sm_clock_mhz", "smClockMHz");
      ("mem_clock_mhz", "memClockMHz");
      ("rated_boost_clock_mhz", "ratedBoostClockMHz");
      ("rated_mem_clock_mhz", "ratedMemClockMHz")]);
   ("memory-stress", [("hardware_incidents", "memoryErrors");
      ("sdc_count", "sdcDetections");
      ("read_bandwidth_mbs", "readBandwidthMBs");
      ("write_bandwidth_mbs", "writeBandwidthMBs")])].

Definition aliases (kind : TestKind) : gmap str str :=
  list_to_map (default [] (snd <$> list_first (λ e, String.eqb e.1 kind) alias_table)).

(** [snakeToLowerCamel] *)
Definition is_sep (c : ascii) : bool := Ascii.eqb c "_" || Ascii.eqb c "-".

Definition capitalise (p : str) : str :=
  match ToLower p with String c s => String (upper_char c) s | EmptyString => "" end.

Definition snakeToLowerCamel (s : str) : str :=
  if negb (any_char is_sep s) then s
  else match FieldsFunc s is_sep with
       | [] => s
       | p :: ps => ToLower p +:+ Join (capitalise <$> ps) ""
       end.

Definition canonicalName (rawKey : str) (kindAliases : gmap str str) : str :=
  default (snakeToLowerCamel rawKey) (kindAliases !! rawKey).

Definition isUnmeasurable (value : str) : bool :=
  EqualFold (TrimSpace value) Unmeasurable.

(** ** Results *)
Record Result := MkResult {
  r_Verdict : Verdict;
  r_ExitCode : Z;
  r_Metrics : gmap str str;
  r_Unmeasurable : gmap str bool;
  r_Message : str;
  r_InvalidNames : list str;
  r_Artifacts : list Artifact;
  r_UndeclaredSkip : bool;
}.

(** A lookup in a [map[string]bool]: false when the key is absent. *)
Definition is_set (m : gmap str bool) (k : str) : bool := default false (m !! k).

Definition IsUnmeasurable (r : Result) (name : str) : bool :=
  is_set (r_Unmeasurable r) name.

Definition ReportedNothing (r : Result) : bool :=
  bool_decide (r_Metrics r = ∅) && bool_decide (r_Unmeasurable r = ∅) &&
  match r_InvalidNames r with [] => true | _ => false end.

(** What one line of stdout says. *)
Inductive reading :=
  | Blank
  | Prose (line : str)
  | BadName (name : str)
  | Reading (name value : str).

Definition read_line (kindAliases : gmap str str) (line : str) : reading :=
  let line := TrimSpace line in
  if String.eqb line "" then Blank
  else match IndexByte line "=" with
       | None | Some O => Prose line
       | Some eq =>
           let rawKey := TrimSpace (take eq line) in
           let value := TrimSpace (drop (S eq) line) in
           if String.eqb rawKey "" || ContainsAny rawKey (String " " (String tab ""))
           then Prose line
           else
             let name := canonicalName rawKey kindAliases in
             match ValidateMetricName name with
             | Some _ => BadName name
             | None => Reading name value
             end
       end.

(** The body of Parse's loop. *)
Definition scan_line (kindAliases : gmap str str) (res : Result) (line : str) : Result :=
  match read_line kindAliases line with
  | Blank => res
  | Prose m =>
      MkResult (r_Verdict res) (r_ExitCode res) (r_Metrics res) (r_Unmeasurable res)
        m (r_InvalidNames res) (r_Artifacts res) (r_UndeclaredSkip res)
  | BadName n =>
      MkResult (r_Verdict res) (r_ExitCode res) (r_Metrics res) (r_Unmeasurable res)
        (r_Message res) (r_InvalidNames res ++ [n]) (r_Artifacts res)
        (r_UndeclaredSkip res)
  | Reading name value =>
      if isUnmeasurable value
      then MkResult (r_Verdict res) (r_ExitCode res)
             (delete name (r_Metrics res)) (<[name := true]> (r_Unmeasurable res))
             (r_Message res) (r_InvalidNames res) (r_Artifacts res)
             (r_UndeclaredSkip res)
      else MkResult (r_Verdict res) (r_ExitCode res)
             (<[name := value]> (r_Metrics res)) (delete name (r_Unmeasurable res))
             (r_Message res) (r_InvalidNames res) (r_Artifacts res)
             (r_UndeclaredSkip res)
  end.

Definition Parse (kind : TestKind) (stdout : str) (exitCode : Z) : Result :=
  let undeclared := (exitCode =? 2)%Z && negb (DeclaresSkip stdout) in
  let '(artifacts, lines) := extractArtifacts stdout in
  let res := MkResult (if undeclared then VerdictError else VerdictFor exitCode)
               exitCode ∅ ∅ "" [] artifacts undeclared in
  fold_left (scan_line (aliases kind)) lines res.

(** [Result.Numeric] *)
Definition Numeric (r : Result) (name : str) : option float64 :=
  match r_Metrics r !! name with
  | None => None
  | Some raw => match ParseFloat raw with (f, None) => Some f | _ => None end
  end.

(** ** Properties *)

(** *** One parse *)

(** What a name ends up as: a value, a declaration, or nothing. *)
Inductive status := Measured (v : str) | Declared | Silent.

Definition status_of (r : Result) (name : str) : status :=
  match r_Metrics r !! name, r_Unmeasurable r !! name with
  | Some v, _ => Measured v
  | None, Some true => Declared
  | _, _ => Silent
  end.

Definition speaks (kindAliases : gmap str str) (name line : str) : option status :=
  match read_line kindAliases line with
  | Reading n v =>
      if String.eqb n name
      then Some (if isUnmeasurable v then Declared else Measured v) else None
  | _ => None
  end.

(** The maps of a result never both answer for a name, hold valid names only,
    and [Unmeasurable] holds only [true]. *)
Definition result_wf (r : Result) : Prop :=
  ∀ name,
    (is_Some (r_Metrics r !! name) → r_Unmeasurable r !! name = None) ∧
    (is_Some (r_Metrics r !! name) ∨ is_Some (r_Unmeasurable r !! name) →
     ValidateMetricName name = None) ∧
    (∀ b, r_Unmeasurable r !! name = Some b → b = true).

Lemma read_line_valid al line name v :
  read_line al line = Reading name v → ValidateMetricName name = None.
Proof. unfold read_line. intros H. repeat case_match; simplify_eq; done. Qed.

Lemma scan_line_wf al r line : result_wf r → result_wf (scan_line al r line).
Proof.
  intros Hwf. unfold scan_line. destruct (read_line al line) as [| | |n v] eqn:E;
    [exact Hwf..|]. apply read_line_valid in E.
  case_match; intros name; simpl;
    destruct (Hwf name) as (H1 & H2 & H3); destruct (decide (n = name)) as [<-|Hne];
    simplify_map_eq; naive_solver.
Qed.

Lemma fold_scan_wf al lines r :
  result_wf r → result_wf (fold_left (scan_line al) lines r).
Proof.
  revert r. induction lines as [|l ls IH]; intros r H; simpl; [done|].
  apply IH, scan_line_wf, H.
Qed.

(** No metric is both measured and declared unmeasurable. *)
Lemma Parse_wf (kind : TestKind) (stdout : str) (exitCode : Z) :
  result_wf (Parse kind stdout exitCode).
Proof.
  unfold Parse. destruct (extractArtifacts stdout) as [arts lines].
  apply fold_scan_wf. intros name; simpl. rewrite !lookup_empty.
  split_and!; [done| |done]. by intros [[]|[]].
Qed.

Lemma scan_line_status al r line name :
  result_wf r →
  status_of (scan_line al r line) name =
  default (status_of r name) (speaks al name line).
Proof.
  intros Hwf. unfold scan_line, speaks, status_of.
  destruct (read_line al line) as [| | |n v]; [done..|].
  destruct (String.eqb_spec n name) as [->|Hne].
  - destruct (isUnmeasurable v); simpl; by simplify_map_eq.
  - destruct (isUnmeasurable v); simpl; by simplify_map_eq.
Qed.

(** The last line that speaks about a name decides it. *)
Definition last_word (al : gmap str str) (lines : list str) (name : str) : status :=
  default Silent (last (omap (speaks al name) lines)).

Lemma fold_scan_status al lines r name :
  result_wf r →
  status_of (fold_left (scan_line al) lines r) name =
  default (status_of r name) (last (omap (speaks al name) lines)).
Proof.
  revert r. induction lines as [|l ls IH]; intros r Hwf; [done|].
  simpl. rewrite IH by by apply scan_line_wf. rewrite scan_line_status by done.
  destruct (speaks al name l) as [s|] eqn:E; simpl; [|done].
  rewrite last_cons.
  change (list_omap str status (speaks al name) ls) with (omap (speaks al name) ls).
  by destruct (last (omap (speaks al name) ls)).
Qed.

Lemma Parse_status (kind : TestKind) (stdout : str) (exitCode : Z) (name : str) :
  status_of (Parse kind stdout exitCode) name =
  last_word (aliases kind) (extractArtifacts stdout).2 name.
Proof.
  unfold Parse. destruct (extractArtifacts stdout) as [arts lines].
  rewrite fold_scan_status; [done|].
  intros n; simpl. rewrite !lookup_empty. split_and!; [done| |done].
  by intros [[]|[]].
Qed.

(** for every name, the last line of the unfenced output that speaks about it
    decides whether it is measured (and as what), declared unmeasurable, or
    unreported; the two maps never both answer, and only grammatical names
    enter either. *)
Theorem Parse_last_word (kind : TestKind) (stdout : str) (exitCode : Z) (name : str) :
  let r := Parse kind stdout exitCode in
  status_of r name = last_word (aliases kind) (extractArtifacts stdout).2 name ∧
  (is_Some (r_Metrics r !! name) → r_Unmeasurable r !! name = None) ∧
  (is_Some (r_Metrics r !! name) ∨ is_Some (r_Unmeasurable r !! name) →
   ValidateMetricName name = None).
Proof.
  split; [apply Parse_status|]. by destruct (Parse_wf kind stdout exitCode name) as (? & ? & _).
Qed.

Lemma fold_scan_verdict al lines r :
  r_Verdict (fold_left (scan_line al) lines r) = r_Verdict r ∧
  r_ExitCode (fold_left (scan_line al) lines r) = r_ExitCode r ∧
  r_UndeclaredSkip (fold_left (scan_line al) lines r) = r_UndeclaredSkip r.
Proof.
  revert r. induction lines as [|l ls IH]; intros r; [done|]. simpl.
  destruct (IH (scan_line al r l)) as (-> & -> & ->).
  unfold scan_line. repeat case_match; done.
Qed.

Lemma Parse_verdict kind stdout exitCode :
  r_Verdict (Parse kind stdout exitCode) =
    (if (exitCode =? 2)%Z && negb (DeclaresSkip stdout)
     then VerdictError else VerdictFor exitCode) ∧
  r_ExitCode (Parse kind stdout exitCode) = exitCode ∧
  r_UndeclaredSkip (Parse kind stdout exitCode) =
    (exitCode =? 2)%Z && negb (DeclaresSkip stdout).
Proof.
  unfold Parse. destruct (extractArtifacts stdout) as [arts lines].
  apply fold_scan_verdict.
Qed.

(** C32: a skip is declared, never merely exited. *)
Theorem Parse_skip_iff (kind : TestKind) (stdout : str) (exitCode : Z) :
  r_Verdict (Parse kind stdout exitCode) = VerdictSkip ↔
  exitCode = 2%Z ∧ DeclaresSkip stdout = true.
Proof.
  destruct (Parse_verdict kind stdout exitCode) as (-> & _ & _).
  destruct (Z.eqb_spec exitCode 2) as [->|Hne]; simpl.
  - destruct (DeclaresSkip stdout); simpl; naive_solver.
  - unfold VerdictFor. repeat case_match; naive_solver.
Qed.

(** *** Fences *)

(** Fuel past the number of lines changes nothing. *)
Lemma read_payload_length lines acc :
  (length (rest_of (read_payload lines acc).2) ≤ length lines)%nat.
Proof.
  revert acc. induction lines as [|l ls IH]; intros acc; simpl; [lia|].
  case_match; simpl; [lia|]. case_match; simpl; [lia|].
  etrans; [apply IH|lia].
Qed.

Lemma extract_go_fuel n m lines :
  (length lines ≤ n)%nat → (length lines ≤ m)%nat →
  extract_go n lines = extract_go m lines.
Proof.
  revert m lines. induction n as [|n IH]; intros m [|l ls]; simpl; try lia.
  { by destruct m. }
  { by destruct m. }
  intros Hn Hm. destruct m as [|m]; [lia|]. simpl.
  pose proof (read_payload_length ls "") as Hlen.
  destruct (classifyBegin (strip_cr l)).
  - rewrite (IH m ls); [done|lia|lia].
  - destruct (read_payload ls "") as [p e]. simpl in Hlen.
    rewrite (IH m (rest_of e)); [done|lia|lia].
  - destruct (read_payload ls "") as [p e]. simpl in Hlen.
    rewrite (IH m (rest_of e)); [done|lia|lia].
Qed.

Definition quiet (line : str) : Prop := is_marker (strip_cr line) = false.

Definition plain (line : str) : Prop := quiet line ∧ strip_cr line ≠ artifactEnd.

Definition opens (line : str) : Prop := is_marker (strip_cr line) = true.

Lemma read_payload_closed payload endl rest acc :
  Forall plain payload → strip_cr endl = artifactEnd →
  (read_payload (payload ++ endl :: rest) acc).2 = Closed rest.
Proof.
  intros H He. revert acc. induction H as [|l ls [Hm Hn] H IH]; intros acc; simpl.
  - by rewrite He.
  - destruct (String.eqb_spec (strip_cr l) artifactEnd) as [|_]; [done|].
    by rewrite Hm.
Qed.

Lemma extract_go_open n l ls :
  opens l →
  (extract_go (S n) (l :: ls)).2 =
  (extract_go n (rest_of (read_payload ls "").2)).2.
Proof.
  unfold opens, is_marker. intros H. simpl.
  destruct (classifyBegin (strip_cr l)); [done|..];
    destruct (read_payload ls "") as [p e]; simpl;
    by destruct (extract_go n (rest_of e)).
Qed.

Lemma extract_go_quiet n pre ls :
  Forall quiet pre →
  (extract_go (length pre + n) (pre ++ ls)).2 = pre ++ (extract_go n ls).2.
Proof.
  intros H. induction H as [|l pre Hm H IH]; [done|]. simpl.
  unfold quiet, is_marker in Hm. destruct (classifyBegin (strip_cr l)); [|done..].
  destruct (extract_go (length pre + n) (pre ++ ls)); simpl in *. by rewrite IH.
Qed.

(** A closed fence between two plain stretches of output leaves exactly the two
    stretches for the metric scanner. *)
Lemma extract_fence pre beginl payload endl post :
  Forall quiet pre → opens beginl → Forall plain payload →
  strip_cr endl = artifactEnd → Forall quiet post →
  let lines := pre ++ beginl :: payload ++ endl :: post in
  (extract_go (length lines) lines).2 = pre ++ post.
Proof.
  intros Hpre Hb Hpay He Hpost lines.
  rewrite (extract_go_fuel _ (length pre + S (length (payload ++ endl :: post))) lines).
  2: done.
  2: { unfold lines. rewrite length_app. simpl. lia. }
  unfold lines. rewrite extract_go_quiet by done. f_equal.
  rewrite extract_go_open, read_payload_closed by done. simpl.
  rewrite (extract_go_fuel _ (length post + 0) post).
  - rewrite <-(app_nil_r post) at 2. rewrite extract_go_quiet by done.
    simpl. by rewrite app_nil_r.
  - rewrite length_app. simpl. lia.
  - lia.
Qed.

Lemma extract_unclosed pre beginl payload :
  Forall quiet pre → opens beginl → Forall plain payload →
  let lines := pre ++ beginl :: payload in
  (extract_go (length lines) lines).2 = pre.
Proof.
  intros Hpre Hb Hpay lines.
  rewrite (extract_go_fuel _ (length pre + S (length payload)) lines).
  2: done.
  2: { unfold lines. rewrite length_app. simpl. lia. }
  unfold lines. rewrite extract_go_quiet by done.
  rewrite extract_go_open by done.
  assert (∀ acc, (read_payload payload acc).2 = Unclosed) as ->.
  { induction Hpay as [|l ls [Hm Hn] H IH]; intros acc; simpl; [done|].
    destruct (String.eqb_spec (strip_cr l) artifactEnd) as [|_]; [done|].
    by rewrite Hm. }
  simpl. destruct (length payload); simpl; by rewrite app_nil_r.
Qed.

Definition no_newline (l : str) : Prop := no_char newline l = true.

Lemma Split_lines lines :
  lines ≠ [] → Forall no_newline lines →
  Split (Join lines (String newline "")) newline = lines.
Proof. apply Split_Join. Qed.

Lemma last_word_silent al name : last_word al [""] name = Silent.
Proof. done. Qed.

Lemma status_lines kind lines exitCode name :
  Forall no_newline lines →
  status_of (Parse kind (Join lines (String newline "")) exitCode) name =
  last_word (aliases kind) (extract_go (length lines) lines).2 name.
Proof.
  intros H. rewrite Parse_status. unfold extractArtifacts.
  destruct (decide (lines = [])) as [->|Hne]; [done|].
  by rewrite Split_lines.
Qed.

Lemma extract_all_quiet lines :
  Forall quiet lines → (extract_go (length lines) lines).2 = lines.
Proof.
  intros H. rewrite (extract_go_fuel _ (length lines + 0)) by lia.
  rewrite <-(app_nil_r lines) at 2. rewrite extract_go_quiet by done.
  simpl. by rewrite app_nil_r.
Qed.

(** a closed fence changes no measurement. *)
Theorem Parse_fence_transparent (kind : TestKind) (exitCode : Z)
    (pre payload post : list str) (beginl endl name : str) :
  Forall no_newline (pre ++ beginl :: payload ++ endl :: post) →
  Forall quiet pre → opens beginl → Forall plain payload →
  strip_cr endl = artifactEnd → Forall quiet post →
  status_of (Parse kind
    (Join (pre ++ beginl :: payload ++ endl :: post) (String newline "")) exitCode) name =
  status_of (Parse kind (Join (pre ++ post) (String newline "")) exitCode) name.
Proof.
  intros Hnl Hpre Hb Hpay He Hpost.
  rewrite status_lines by done. rewrite extract_fence by done.
  rewrite status_lines.
  - rewrite extract_all_quiet; [done|by apply Forall_app].
  - rewrite !Forall_app, Forall_cons, Forall_app, Forall_cons in *. naive_solver.
Qed.

(** The BEGIN line of an artifact. *)
Definition begin_line (name media : str) : str :=
  artifactBegin +:+ " " +:+ name +:+ " " +:+ media +:+ markerSuffix.

Lemma classify_begin_line name media :
  word name = true → word media = true →
  classifyBegin (begin_line name media) = validMarker name media.
Proof.
  intros Hn Hm. unfold classifyBegin, begin_line.
  set (rest := " " +:+ name +:+ " " +:+ media).
  assert (artifactBegin +:+ " " +:+ name +:+ " " +:+ media +:+ markerSuffix =
          artifactBegin +:+ (rest +:+ markerSuffix)) as ->.
  { unfold rest. by rewrite !str_app_assoc. }
  assert (HasPrefix (artifactBegin +:+ (rest +:+ markerSuffix)) artifactBegin = true) as ->.
  { apply HasPrefix_spec. eauto. }
  assert (HasSuffix (artifactBegin +:+ (rest +:+ markerSuffix)) markerSuffix = true) as ->.
  { apply HasSuffix_spec. exists (artifactBegin +:+ rest). by rewrite str_app_assoc. }
  simpl negb. cbv iota. rewrite TrimPrefix_app, TrimSuffix_app.
  destruct (word_inv name Hn) as (c & s & d & En & Hc & _).
  destruct (word_inv media Hm) as (c2 & s2 & d2 & Em & Hc2 & _ & Hl2 & Hd2).
  change (rest) with (String " " (name +:+ String " " media)). cbv iota.
  simpl (isSpace " "). simpl negb. cbv iota.
  assert (TrimSpace (String " " (name +:+ String " " media)) =
          name +:+ String " " media) as ->.
  { rewrite En. change (String c s +:+ String " " media)
      with (String c (s +:+ String " " media)).
    eapply TrimSpace_leading; [done| |exact Hd2].
    change (String c (s +:+ String " " media))
      with (String c s +:+ (String " " "" +:+ media)).
    rewrite !last_char_app, Hl2. done. }
  by rewrite Fields_two.
Qed.

Definition payload_text (payload : list str) : str :=
  foldr (λ l acc, l +:+ String newline "" +:+ acc) "" payload.

(** A payload line that survives the line-oriented channel unchanged. *)
Definition clean (line : str) : Prop := plain line ∧ strip_cr line = line.

Lemma read_payload_text payload endl rest acc :
  Forall clean payload → strip_cr endl = artifactEnd →
  read_payload (payload ++ endl :: rest) acc =
  (acc +:+ payload_text payload, Closed rest).
Proof.
  intros H He. revert acc.
  induction H as [|l ls [[Hm Hn] Hs] H IH]; intros acc; simpl.
  - rewrite He, String.eqb_refl. by rewrite str_app_nil_r.
  - destruct (String.eqb_spec (strip_cr l) artifactEnd) as [|_]; [done|].
    rewrite Hm, IH, Hs. by rewrite !str_app_assoc.
Qed.

(** what a runner fences is what the operator stores. *)
Theorem extract_artifact_roundtrip (name media : str) (payload : list str) :
  word name = true → word media = true → Forall clean payload →
  Forall no_newline (begin_line name media :: payload) →
  strip_cr (begin_line name media) = begin_line name media →
  (Z.of_nat (String.length (payload_text payload)) ≤ MaxArtifactBytes)%Z →
  (extractArtifacts (Join (begin_line name media :: payload ++ [artifactEnd])
                       (String newline ""))).1 =
  [MkArtifact name media (payload_text payload)
     (Z.of_nat (String.length (payload_text payload)))
     ("sha256:" +:+ hex_encode (Sum256 (payload_text payload))) ""].
Proof.
  intros Hn Hm Hp Hnl Hcr Hsize. unfold extractArtifacts.
  rewrite Split_lines; [|done|].
  2: { rewrite Forall_cons in *. destruct Hnl as [? ?]. split; [done|].
       apply Forall_app; split; [done|]. by repeat constructor. }
  cbn [length extract_go]. rewrite Hcr, classify_begin_line by done.
  rewrite read_payload_text by done. cbn [rest_of].
  replace (extract_go (length (payload ++ [artifactEnd])) []) with
    (([] : list Artifact), ([] : list str))
    by (by destruct (length (payload ++ [artifactEnd]))).
  cbn. change ("" +:+ payload_text payload) with (payload_text payload).
  by rewrite (proj2 (Z.ltb_ge _ _)) by done.
Qed.

(** *** The alias table *)
Definition alias_row_ok (row : str * list (str * str)) : bool :=
  let '(_, ps) := row in
  forallb (λ p, bool_decide (is_Some (Lookup p.2)) &&
                negb (String.eqb (snakeToLowerCamel p.1) p.2)) ps &&
  bool_decide (NoDup ps.*1) && bool_decide (NoDup ps.*2).

Lemma alias_table_ok : forallb alias_row_ok alias_table = true.
Proof. by vm_compute. Qed.

(** aliases land on registered names, and no two keys of a kind collide. *)
Theorem aliases_sound (kind : TestKind) (key key' target : str) :
  aliases kind !! key = Some target →
  is_Some (Lookup target) ∧
  (aliases kind !! key' = Some target → key' = key).
Proof.
  unfold aliases. destruct (list_first _ alias_table) as [[k ps]|] eqn:E; simpl;
    [|by rewrite lookup_empty].
  apply list_first_Some in E as [Hin _].
  pose proof alias_table_ok as F. rewrite forallb_elem in F. specialize (F _ Hin).
  unfold alias_row_ok in F. rewrite !andb_true_iff, forallb_elem in F.
  destruct F as [[F1 F2] F3]. apply bool_decide_eq_true in F2, F3.
  intros H. apply elem_of_list_to_map in H; [|done]. split.
  - specialize (F1 _ H). simpl in F1. apply andb_true_iff in F1 as [F1 _].
    by apply bool_decide_eq_true in F1.
  - intros H'. apply elem_of_list_to_map in H'; [|done].
    apply list_elem_of_lookup in H as [i Hi], H' as [j Hj].
    assert (i = j) as ->.
    { eapply (NoDup_lookup ps.*2); [done|..]; rewrite list_lookup_fmap.
      - by rewrite Hi. - by rewrite Hj. }
    congruence.
Qed.

(** *** Witnesses *)
Definition example_fence : list str :=
  ["a=1"; begin_line "log" "text/plain"; "a=2"; artifactEnd; "b=3"].

Lemma Parse_fence_transparent_witness :
  Forall no_newline example_fence ∧
  status_of (Parse KindCustom (Join example_fence (String newline "")) 0) "a" = Measured "1".
Proof.
  assert (Forall no_newline example_fence) as Hn by (by repeat constructor).
  split; [exact Hn|].
  refine (eq_trans (Parse_fence_transparent KindCustom 0 ["a=1"] ["a=2"]
    ["b=3"] (begin_line "log" "text/plain") artifactEnd "a" Hn _ _ _ _ _) _).
  - by apply Forall_singleton; vm_compute.
  - by vm_compute.
  - apply Forall_singleton. split; [by vm_compute|]. by apply (bool_decide_unpack _).
  - by vm_compute.
  - by apply Forall_singleton; vm_compute.
  - by vm_compute.
Defined.

Lemma aliases_sound_witness :
  aliases "nccl" !! "busbw" = Some "busBandwidthGBs" ∧ is_Some (Lookup "busBandwidthGBs").
Proof.
  assert (aliases "nccl" !! "busbw" = Some "busBandwidthGBs") as H by (by vm_compute).
  split; [exact H|]. exact (proj1 (aliases_sound "nccl" "busbw" "busbw" _ H)).
Defined.

Lemma extract_artifact_roundtrip_witness :
  (extractArtifacts (Join [begin_line "log" "text/plain"; "hello"; artifactEnd]
     (String newline ""))).1 =
  [MkArtifact "log" "text/plain" (payload_text ["hello"])
     (Z.of_nat (String.length (payload_text ["hello"])))
     ("sha256:" +:+ hex_encode (Sum256 (payload_text ["hello"]))) ""].
Proof.
  apply (extract_artifact_roundtrip "log" "text/plain" ["hello"]);
    [done|done|by repeat constructor|by repeat constructor|done|done].
Defined.
