(* ===== verification/Verdict.v ===== *)
(** * pkg/verdict: thresholds against measurements

    [Evaluate] (verdict.go) applies a test's thresholds to one execution's
    results; [ValidateThresholdsForKind] (lint.go) reviews them at authoring
    time.  [Evaluate] is written as the source's loop over an accumulator; the
    theorems relate it to a declarative reading of each gate ([gate]) and to
    the evaluator that stops at the first violation, whose [Message] and
    [NotEvaluated] the source promises to keep. *)

From S2P Require Import Prelude GoStrings GoFloat Contract Registry Runner.
Open Scope stdpp_scope.

Definition ReasonUnmeasurable : str := "unmeasurable on this hardware".

Record NotEvaluated := MkNotEvaluated { ne_Metric : str; ne_Reason : str }.

Record Violation := MkViolation {
  v_Index : nat;
  v_Metric : str;
  v_Cause : Cause;
  v_Kind : ViolationKind;
  v_Reason : str;
}.

Record AppliedGate := MkAppliedGate {
  ag_Index : nat;
  ag_Metric : str;
  ag_Comparison : str;
  ag_Value : str;
}.

Record Outcome := MkOutcome {
  o_Passed : bool;
  o_Message : str;
  o_NotEvaluated : list NotEvaluated;
  o_Violations : list Violation;
  o_Applied : list AppliedGate;
}.

(** [applicabilityOf] *)
Definition applicabilityOf (th : Threshold) : str :=
  if String.eqb (t_Applicability th) RequiredIfMeasurable
  then RequiredIfMeasurable else Required.

(** [compare]: no tolerance; an unknown comparison fails closed. *)
Definition compare (got : float64) (op : str) (want : float64) : bool :=
  if String.eqb op GTE then fle want got
  else if String.eqb op LTE then fle got want
  else if String.eqb op EQ then feq got want
  else if String.eqb op NEQ then negb (feq got want)
  else false.

(** ** Evaluate *)

(** The loop's accumulator: [el_first] is notEvaluatedAtFirstViolation. *)
Record eval_loop := MkLoop {
  el_notEvaluated : list NotEvaluated;
  el_first : Z;
  el_violations : list Violation;
  el_applied : list AppliedGate;
}.

(** The [fail] closure. *)
Definition el_fail (st : eval_loop) (i : nat) (th : Threshold) (k : ViolationKind)
    (reason : str) : eval_loop :=
  MkLoop (el_notEvaluated st)
    (match el_violations st with
     | [] => Z.of_nat (length (el_notEvaluated st))
     | _ => el_first st
     end)
    (el_violations st ++ [MkViolation i (t_Metric th) (KindCause k) k reason])
    (el_applied st).



Definition eval_step (metrics : gmap str str) (unmeasurable : gmap str bool)
    (i : nat) (th : Threshold) (st : eval_loop) : eval_loop :=
  let q := quote (t_Metric th) in
  let raw := metrics !! t_Metric th in
  if is_set unmeasurable (t_Metric th) then
    match raw with
    | Some raw =>
        el_fail st i th KindContradictory
          ("metric " +:+ q +:+ " was reported as " +:+ quote raw +:+
           " AND declared unmeasurable; the runner's output is self-contradictory")
    | None =>
        if String.eqb (t_Applicability th) RequiredIfMeasurable
        then MkLoop (el_notEvaluated st ++ [MkNotEvaluated (t_Metric th) ReasonUnmeasurable])
               (el_first st) (el_violations st) (el_applied st)
        else el_fail st i th KindUnmeasurableRequired
               ("metric " +:+ q +:+ " is " +:+ ReasonUnmeasurable +:+
                " and this threshold is " +:+ applicabilityOf th +:+
                "; set applicability=RequiredIfMeasurable if the gate should be skipped where the hardware cannot measure it")
    end
  else
    match raw with
    | None =>
        el_fail st i th KindNotReported
          ("metric " +:+ q +:+ " was not reported by the runner")
    | Some raw =>
        let '(got, err) := ParseFloat raw in
        if bool_decide (is_Some err) then
          el_fail st i th KindNonNumeric
            ("metric " +:+ q +:+ "=" +:+ quote raw +:+ " is not numeric")
        else if IsNaN got || IsInf got then
          el_fail st i th KindNonFinite
            ("metric " +:+ q +:+ "=" +:+ quote raw +:+ " is not a finite measurement")
        else
          let '(want, err) := ParseFloat (t_Value th) in
          if bool_decide (is_Some err) then
            el_fail st i th KindThresholdValueNonNumeric
              ("threshold value " +:+ quote (t_Value th) +:+ " for " +:+ q +:+ " is not numeric")
          else if IsNaN want || IsInf want then
            el_fail st i th KindThresholdValueNonFinite
              ("threshold value " +:+ quote (t_Value th) +:+ " for " +:+ q +:+ " is not a finite number")
          else if negb (compare got (t_Comparison th) want) then
            el_fail st i th KindUnsatisfied
              (t_Metric th +:+ ": got " +:+ show_g got +:+ ", need " +:+
               t_Comparison th +:+ " " +:+ show_g want)
          else MkLoop (el_notEvaluated st) (el_first st) (el_violations st)
                 (el_applied st ++
                  [MkAppliedGate i (t_Metric th) (t_Comparison th) (t_Value th)])
    end.

Fixpoint eval_go (metrics : gmap str str) (unmeasurable : gmap str bool)
    (i : nat) (ths : list Threshold) (st : eval_loop) : eval_loop :=
  match ths with
  | [] => st
  | th :: ths =>
      eval_go metrics unmeasurable (S i) ths (eval_step metrics unmeasurable i th st)
  end.

Definition Evaluate (metrics : gmap str str) (unmeasurable : gmap str bool)
    (ths : list Threshold) : Outcome :=
  let st := eval_go metrics unmeasurable 0 ths (MkLoop [] (-1) [] []) in
  match el_violations st with
  | [] => MkOutcome true "" (el_notEvaluated st) [] (el_applied st)
  | v :: _ =>
      MkOutcome false (v_Reason v)
        (list.take (Z.to_nat (el_first st)) (el_notEvaluated st))
        (el_violations st) (el_applied st)
  end.

(** ** Rendering *)
Definition NotEvaluatedMessage (o : Outcome) : str :=
  match o_NotEvaluated o with
  | [] => ""
  | l => "not evaluated: " +:+
         Join ((λ ne, ne_Metric ne +:+ " is " +:+ ne_Reason ne) <$> l) "; "
  end.

Definition maxNamedViolations : nat := 4.

Definition causeWord (c : Cause) : str :=
  match c with
  | CauseMeasurement => "hardware"
  | CauseAuthoring => "profile error"
  | _ => "not measured"
  end.

Definition summary_of (violations : list Violation) : str :=
  match violations with
  | [] | [_] => ""
  | _ :: rest =>
      let named := list.take maxNamedViolations rest in
      let elided := (length rest - length named)%nat in
      let parts :=
        ((λ v, v_Metric v +:+ " (" +:+ causeWord (v_Cause v) +:+ ")") <$> named) ++
        (if (0 <? elided)%nat
         then ["and " +:+ Itoa (Z.of_nat elided) +:+ " more"] else []) in
      "and " +:+ Itoa (Z.of_nat (length rest)) +:+ " more " +:+
      (if (length rest =? 1)%nat then "gate" else "gates") +:+ " failed: " +:+
      Join parts ", "
  end.

Definition ViolationSummary (o : Outcome) : str := summary_of (o_Violations o).

(** ** Linting *)
Inductive Severity := SeverityMalformed | SeverityUnsound.

Global Instance Severity_eq_dec : EqDecision Severity.
Proof. solve_decision. Defined.

Definition Severity_string (s : Severity) : str :=
  match s with SeverityMalformed => "Malformed" | SeverityUnsound => "Unsound" end.

Record Problem := MkProblem {
  p_Index : nat;
  p_Metric : str;
  p_Severity : Severity;
  p_Reason : str;
}.

Definition Problem_Error (p : Problem) : str :=
  "threshold " +:+ Itoa (Z.of_nat (p_Index p)) +:+ " (" +:+ p_Metric p +:+ ", " +:+
  Severity_string (p_Severity p) +:+ "): " +:+ p_Reason p.

Definition lint_name (th : Threshold) : list (Severity * str) :=
  match ValidateMetricName (t_Metric th) with
  | Some e =>
      [(SeverityMalformed,
        NameError_string e +:+
        "; a metric whose name fails the contract grammar is dropped by the runner's parser, so this gate can never be satisfied")]
  | None => []
  end.

Definition lint_value (th : Threshold) : list (Severity * str) :=
  let '(want, err) := ParseFloat (t_Value th) in
  if bool_decide (is_Some err) then
    [(SeverityMalformed,
      "value " +:+ quote (t_Value th) +:+ " is not numeric; a threshold value is compared as float64")]
  else if IsNaN want || IsInf want then
    [(SeverityMalformed,
      "value " +:+ quote (t_Value th) +:+ " is not a finite number; it cannot express a bound")]
  else [].

Definition lint_comparison (th : Threshold) : list (Severity * str) :=
  let '(want, err) := ParseFloat (t_Value th) in
  let op := t_Comparison th in
  if String.eqb op GTE || String.eqb op LTE then []
  else if String.eqb op EQ || String.eqb op NEQ then
    let unit := UnitOf (t_Metric th) in
    if negb (bool_decide (unit = UnitNone)) then
      [(SeverityUnsound,
        EQ +:+ " and " +:+ NEQ +:+ " compare exactly, with no tolerance, and " +:+
        quote (t_Metric th) +:+ " carries the unit " +:+ quote (unit_string unit) +:+
        " — it is a continuous measurement, and no run reproduces a decimal exactly, so this gate fails on every healthy node and the failure reads as a hardware verdict. Use " +:+
        GTE +:+ " and/or " +:+ LTE +:+
        " (both, for a band); reserve exact comparison for dimensionless counters such as eccErrors")]
    else if negb (bool_decide (is_Some err)) && negb (is_whole want) then
      [(SeverityUnsound,
        EQ +:+ " and " +:+ NEQ +:+ " compare exactly, and the value " +:+
        quote (t_Value th) +:+
        " is not a whole number; exact comparison is for dimensionless counters, whose values are integers. Use " +:+
        GTE +:+ " and/or " +:+ LTE +:+ " to gate a fractional quantity")]
    else []
  else
    [(SeverityMalformed,
      "comparison " +:+ quote op +:+ " is not one of " +:+ GTE +:+ ", " +:+ LTE +:+
      ", " +:+ EQ +:+ ", " +:+ NEQ +:+
      "; an unrecognised comparison fails closed, so this gate fails on every node")].

Definition lint_registered (kind : TestKind) (th : Threshold) : list (Severity * str) :=
  if negb (bool_decide (is_Some (Lookup (t_Metric th)))) &&
     bool_decide (ValidateMetricName (t_Metric th) = None) && IsBuiltIn kind
  then
    [(SeverityUnsound,
      quote (t_Metric th) +:+ " is not in the metric registry, and " +:+ quote kind +:+
      " is a kind whose runner this project ships. Either it is a first-party measurement whose entry in pkg/contract was forgotten — register it, since gating on a name is what promotes it from evidence to acceptance — or no runner emits it, in which case this gate is never satisfied, fails every node forever, and reports it in the shape of a hardware verdict. The registry stays open for runners this project does not ship: on kind " +:+
      quote KindCustom +:+ " an unregistered name is expected and nothing is said about it")]
  else [].

Definition lint_unmeasurable (th : Threshold) : list (Severity * str) :=
  if MayBeUnmeasurable (t_Metric th) &&
     negb (String.eqb (applicabilityOf th) RequiredIfMeasurable)
  then
    [(SeverityUnsound,
      quote (t_Metric th) +:+
      " is n/a on every single-device node (a positive claim, not an omission); its applicability is " +:+
      applicabilityOf th +:+
      ", which fails closed on n/a, so this gate fails every healthy single-device node forever and the failure reads as a hardware verdict. Set applicability: " +:+
      RequiredIfMeasurable +:+ ", under which an n/a is reported as not evaluated")]
  else [].

Definition lint_evidence (th : Threshold) : list (Severity * str) :=
  if SafeToThresholdOn (t_Metric th) then []
  else
    let reason :=
      match Lookup (t_Metric th) with
      | Some m => if String.eqb (m_Description m) ""
                  then "the metric registry classifies it as evidence rather than acceptance"
                  else m_Description m
      | None => "the metric registry classifies it as evidence rather than acceptance"
      end in
    [(SeverityUnsound,
      quote (t_Metric th) +:+
      " is recorded as evidence and is not safe to decide acceptance on: " +:+ reason)].

Definition lint_threshold (kind : TestKind) (th : Threshold) : list (Severity * str) :=
  lint_name th ++ lint_value th ++ lint_comparison th ++ lint_registered kind th ++
  lint_unmeasurable th ++ lint_evidence th.

Definition ValidateThresholdsForKind (kind : TestKind) (ths : list Threshold) : list Problem :=
  mjoin (imap (λ i th,
    (λ '(sev, reason), MkProblem i (t_Metric th) sev reason) <$> lint_threshold kind th) ths).

Definition ValidateThresholds (ths : list Threshold) : list Problem :=
  ValidateThresholdsForKind KindCustom ths.

(** ** What one gate decides *)
Inductive gate_result :=
  | Satisfied
  | Excused
  | Violated (k : ViolationKind) (reason : str).

(** The declarative reading of a threshold. *)
Definition satisfied (metrics : gmap str str) (unmeasurable : gmap str bool)
    (th : Threshold) : Prop :=
  is_set unmeasurable (t_Metric th) = false ∧
  ∃ raw got want,
    metrics !! t_Metric th = Some raw ∧
    ParseFloat raw = (got, None) ∧ is_finite got = true ∧
    ParseFloat (t_Value th) = (want, None) ∧ is_finite want = true ∧
    compare got (t_Comparison th) want = true.

Definition excused (metrics : gmap str str) (unmeasurable : gmap str bool)
    (th : Threshold) : Prop :=
  metrics !! t_Metric th = None ∧ is_set unmeasurable (t_Metric th) = true ∧
  t_Applicability th = RequiredIfMeasurable.

Section evaluate.
Context (metrics : gmap str str) (unmeasurable : gmap str bool).

(** What a step did, read off an empty accumulator. *)
Definition gate (th : Threshold) : gate_result :=
  let st := eval_step metrics unmeasurable 0 th (MkLoop [] (-1) [] []) in
  match el_violations st, el_applied st with
  | v :: _, _ => Violated (v_Kind v) (v_Reason v)
  | [], _ :: _ => Satisfied
  | [], [] => Excused
  end.

Definition push (i : nat) (th : Threshold) (g : gate_result) (st : eval_loop) : eval_loop :=
  match g with
  | Satisfied =>
      MkLoop (el_notEvaluated st) (el_first st) (el_violations st)
        (el_applied st ++ [MkAppliedGate i (t_Metric th) (t_Comparison th) (t_Value th)])
  | Excused =>
      MkLoop (el_notEvaluated st ++ [MkNotEvaluated (t_Metric th) ReasonUnmeasurable])
        (el_first st) (el_violations st) (el_applied st)
  | Violated k r => el_fail st i th k r
  end.

Lemma eval_step_push i th st :
  eval_step metrics unmeasurable i th st = push i th (gate th) st.
Proof.
  unfold gate, eval_step.
  destruct (is_set unmeasurable (t_Metric th)), (metrics !! t_Metric th) as [raw|];
    try done; [by destruct (String.eqb _ RequiredIfMeasurable)|].
  destruct (ParseFloat raw) as [got e], (ParseFloat (t_Value th)) as [want e'].
  by destruct (bool_decide (is_Some e)), (IsNaN got || IsInf got),
    (bool_decide (is_Some e')), (IsNaN want || IsInf want),
    (compare got (t_Comparison th) want).
Qed.

Lemma gate_spec th :
  match gate th with
  | Satisfied => satisfied metrics unmeasurable th
  | Excused => excused metrics unmeasurable th
  | Violated _ _ =>
      ¬ satisfied metrics unmeasurable th ∧ ¬ excused metrics unmeasurable th
  end.
Proof.
  unfold gate, eval_step, satisfied, excused, is_finite.
  destruct (is_set unmeasurable (t_Metric th)) eqn:U,
    (metrics !! t_Metric th) as [raw|] eqn:R; simpl.
  - split; [by intros [? _]|by intros [? _]].
  - destruct (String.eqb_spec (t_Applicability th) RequiredIfMeasurable); simpl; [done|].
    split; [by intros [? _]|by intros (_ & _ & ?)].
  - assert (¬ (Some raw = None ∧ false = true ∧ t_Applicability th = RequiredIfMeasurable))
      as Hex by (by intros [? _]).
    destruct (ParseFloat raw) as [got [e|]] eqn:G; simpl.
    { split; [|done]. intros (_ & ? & ? & ? & ? & ? & _). congruence. }
    destruct (IsNaN got || IsInf got) eqn:G'; simpl.
    { split; [|done]. intros (_ & ? & x & ? & ? & ? & Hf & _).
      assert (x = got) as -> by congruence. by rewrite G' in Hf. }
    destruct (ParseFloat (t_Value th)) as [want [e|]] eqn:W; simpl.
    { split; [|done]. intros (_ & ? & ? & ? & ? & ? & _ & ? & _). congruence. }
    destruct (IsNaN want || IsInf want) eqn:W'; simpl.
    { split; [|done]. intros (_ & ? & ? & x & ? & ? & ? & ? & Hf & _).
      assert (x = want) as -> by congruence. by rewrite W' in Hf. }
    destruct (compare got (t_Comparison th) want) eqn:C; simpl.
    + split; [done|]. exists raw, got, want. by rewrite G', W'.
    + split; [|done]. intros (_ & ? & x & y & ? & ? & ? & ? & ? & Hf).
      assert (x = got) as -> by congruence. assert (y = want) as -> by congruence.
      congruence.
  - split; [by intros (_ & ? & ? & ? & ? & _)|by intros (_ & ? & _)].
Qed.

Lemma gate_satisfied th : gate th = Satisfied ↔ satisfied metrics unmeasurable th.
Proof.
  pose proof (gate_spec th) as H. destruct (gate th); [done| |].
  - split; [done|]. intros (Hf & _). destruct H as (_ & H & _). congruence.
  - split; [done|]. by intros ?; destruct H.
Qed.

Lemma gate_excused th : gate th = Excused ↔ excused metrics unmeasurable th.
Proof.
  pose proof (gate_spec th) as H. destruct (gate th); [|done|].
  - split; [done|]. intros (_ & Hf & _). destruct H as (H & _). congruence.
  - split; [done|]. by intros ?; destruct H.
Qed.

(** The three lists an evaluation fills, gate by gate. *)
Definition violation_at (i : nat) (th : Threshold) : option Violation :=
  match gate th with
  | Violated k r => Some (MkViolation i (t_Metric th) (KindCause k) k r)
  | _ => None
  end.
Definition applied_at (i : nat) (th : Threshold) : option AppliedGate :=
  match gate th with
  | Satisfied => Some (MkAppliedGate i (t_Metric th) (t_Comparison th) (t_Value th))
  | _ => None
  end.
Definition skipped_at (th : Threshold) : option NotEvaluated :=
  match gate th with
  | Excused => Some (MkNotEvaluated (t_Metric th) ReasonUnmeasurable)
  | _ => None
  end.

Fixpoint collect {A} (f : nat → Threshold → option A) (i : nat) (ths : list Threshold)
    : list A :=
  match ths with
  | [] => []
  | th :: ths => option_list (f i th) ++ collect f (S i) ths
  end.

(** The un-evaluated gates before the first violation. *)
Fixpoint prefix_skipped (ths : list Threshold) : list NotEvaluated :=
  match ths with
  | [] => []
  | th :: ths =>
      match gate th with
      | Violated _ _ => []
      | _ => option_list (skipped_at th) ++ prefix_skipped ths
      end
  end.

Lemma eval_go_lists i ths st :
  let r := eval_go metrics unmeasurable i ths st in
  el_violations r = el_violations st ++ collect violation_at i ths ∧
  el_applied r = el_applied st ++ collect applied_at i ths ∧
  el_notEvaluated r = el_notEvaluated st ++ omap skipped_at ths.
Proof.
  revert i st. induction ths as [|th ths IH]; intros i st; simpl.
  { by rewrite !app_nil_r. }
  destruct (IH (S i) (eval_step metrics unmeasurable i th st)) as (-> & -> & ->).
  rewrite eval_step_push.
  unfold violation_at, applied_at, skipped_at, push.
  destruct (gate th); simpl; by rewrite <-?(assoc_L (++)).
Qed.

(** Once a gate failed, the frozen count never moves. *)
Lemma eval_go_first_kept i ths st :
  el_violations st ≠ [] →
  el_first (eval_go metrics unmeasurable i ths st) = el_first st.
Proof.
  revert i st. induction ths as [|th ths IH]; intros i st H; [done|].
  simpl. rewrite eval_step_push, IH; unfold push, el_fail;
    destruct (gate th), (el_violations st); done.
Qed.

Lemma eval_go_first i ths st :
  el_violations st = [] →
  let r := eval_go metrics unmeasurable i ths st in
  collect violation_at i ths ≠ [] →
  list.take (Z.to_nat (el_first r)) (el_notEvaluated r) =
  el_notEvaluated st ++ prefix_skipped ths.
Proof.
  revert i st. induction ths as [|th ths IH]; intros i st Hst; simpl; [done|].
  rewrite eval_step_push. unfold violation_at at 1, skipped_at.
  destruct (gate th) as [| |k reason] eqn:G; simpl; intros Hne.
  - rewrite IH; done.
  - rewrite IH by done. simpl. by rewrite <-(assoc_L (++)).
  - destruct (eval_go_lists (S i) ths (el_fail st i th k reason)) as (_ & _ & ->).
    rewrite eval_go_first_kept by (simpl; by destruct (el_violations st)).
    simpl. rewrite Hst.
    by rewrite Nat2Z.id, take_app_length, app_nil_r.
Qed.
End evaluate.

(** ** Evaluate, as a whole *)

Lemma Evaluate_lists metrics unmeasurable ths :
  let o := Evaluate metrics unmeasurable ths in
  o_Violations o = collect (violation_at metrics unmeasurable) 0 ths ∧
  o_Applied o = collect (applied_at metrics unmeasurable) 0 ths.
Proof.
  unfold Evaluate.
  destruct (eval_go_lists metrics unmeasurable 0 ths (MkLoop [] (-1) [] [])) as (Hv & Ha & _).
  simpl in *. by destruct (el_violations _).
Qed.

Lemma collect_elem {A} (f : nat → Threshold → option A) i ths x :
  x ∈ collect f i ths ↔ ∃ j th, ths !! j = Some th ∧ f (i + j)%nat th = Some x.
Proof.
  revert i. induction ths as [|th ths IH]; intros i; simpl.
  { rewrite elem_of_nil. split; [done|]. by intros (? & ? & ? & ?). }
  rewrite elem_of_app, IH, option_list_elem. split.
  - intros [H|(j & t & H & Hf)].
    + exists 0%nat, th. by rewrite Nat.add_0_r.
    + exists (S j), t. by rewrite Nat.add_succ_r.
  - intros ([|j] & t & H & Hf); simplify_eq/=.
    + rewrite Nat.add_0_r in Hf. by left.
    + right. exists j, t. by rewrite Nat.add_succ_r in Hf.
Qed.

(** The gates of an evaluation, by the index the outcome records. *)
Definition violates (o : Outcome) (i : nat) : Prop := ∃ v, v ∈ o_Violations o ∧ v_Index v = i.
Definition applies (o : Outcome) (i : nat) : Prop := ∃ a, a ∈ o_Applied o ∧ ag_Index a = i.

Lemma violates_gate metrics unmeasurable ths i :
  violates (Evaluate metrics unmeasurable ths) i ↔
  ∃ th k r, ths !! i = Some th ∧ gate metrics unmeasurable th = Violated k r.
Proof.
  unfold violates. destruct (Evaluate_lists metrics unmeasurable ths) as [-> _].
  setoid_rewrite collect_elem. unfold violation_at. split.
  - intros (v & (j & th & Hj & Hv) & <-). case_match; simplify_eq/=. eauto.
  - intros (th & k & r & Hi & G).
    exists (MkViolation i (t_Metric th) (KindCause k) k r). split; [|done].
    exists i, th. by rewrite G.
Qed.

Lemma applies_gate metrics unmeasurable ths i :
  applies (Evaluate metrics unmeasurable ths) i ↔
  ∃ th, ths !! i = Some th ∧ satisfied metrics unmeasurable th.
Proof.
  unfold applies. destruct (Evaluate_lists metrics unmeasurable ths) as [_ ->].
  setoid_rewrite collect_elem. unfold applied_at. split.
  - intros (v & (j & th & Hj & Hv) & <-). case_match eqn:G; simplify_eq/=.
    apply gate_satisfied in G. eauto.
  - intros (th & Hi & G). apply gate_satisfied in G.
    exists (MkAppliedGate i (t_Metric th) (t_Comparison th) (t_Value th)). split; [|done].
    exists i, th. by rewrite G.
Qed.

Lemma collect_none {A} (f : nat → Threshold → option A) i ths :
  collect f i ths = [] ↔ ∀ j th, ths !! j = Some th → f (i + j)%nat th = None.
Proof.
  split.
  - intros H j th Hj. apply eq_None_not_Some. intros [x Hx].
    assert (x ∈ collect f i ths) as Hin by (apply collect_elem; eauto).
    rewrite H in Hin. by apply elem_of_nil in Hin.
  - intros H. destruct (collect f i ths) as [|x l] eqn:E; [done|].
    assert (x ∈ collect f i ths) as (j & th & Hj & Hx)%collect_elem by (rewrite E; left).
    by rewrite (H j th Hj) in Hx.
Qed.

Lemma Evaluate_passed_nil metrics unmeasurable ths :
  o_Passed (Evaluate metrics unmeasurable ths) = true ↔
  o_Violations (Evaluate metrics unmeasurable ths) = [].
Proof. unfold Evaluate. by destruct (el_violations _). Qed.

(** C10: passing means every gate is satisfied by a finite measurement, or excused. *)
Theorem Evaluate_passed_iff (metrics : gmap str str) (unmeasurable : gmap str bool)
    (ths : list Threshold) :
  o_Passed (Evaluate metrics unmeasurable ths) = true ↔
  ∀ th, th ∈ ths → satisfied metrics unmeasurable th ∨ excused metrics unmeasurable th.
Proof.
  rewrite Evaluate_passed_nil. destruct (Evaluate_lists metrics unmeasurable ths) as [-> _].
  rewrite collect_none. unfold violation_at.
  setoid_rewrite list_elem_of_lookup. split.
  - intros H th [i Hi]. specialize (H i th Hi). simpl in H.
    rewrite <-gate_satisfied, <-gate_excused. destruct (gate _ _ th); naive_solver.
  - intros H i th Hi. specialize (H th (ex_intro _ i Hi)).
    rewrite <-gate_satisfied, <-gate_excused in H. by destruct H as [-> | ->].
Qed.

(** every gate is applied, violated or excused, and exactly one of them. *)
Theorem Evaluate_partition (metrics : gmap str str) (unmeasurable : gmap str bool)
    (ths : list Threshold) (i : nat) (th : Threshold) :
  ths !! i = Some th →
  let o := Evaluate metrics unmeasurable ths in
  (applies o i ∧ satisfied metrics unmeasurable th ∧ ¬ violates o i ∧
     ¬ excused metrics unmeasurable th) ∨
  (violates o i ∧ ¬ applies o i ∧ ¬ excused metrics unmeasurable th) ∨
  (excused metrics unmeasurable th ∧ ¬ applies o i ∧ ¬ violates o i).
Proof.
  intros Hi o. unfold o. rewrite violates_gate, applies_gate.
  pose proof (gate_spec metrics unmeasurable th) as Hg.
  pose proof (gate_satisfied metrics unmeasurable th) as Hs.
  pose proof (gate_excused metrics unmeasurable th) as He.
  destruct (gate metrics unmeasurable th) eqn:G.
  - left. split_and!; [by eauto|done| |by rewrite <-He].
    intros (? & ? & ? & ? & ?). congruence.
  - right; right. split_and!; [done| |].
    + intros (? & ? & Hs'). simplify_eq. by apply Hs in Hs'.
    + intros (? & ? & ? & ? & ?). congruence.
  - destruct Hg as [Hns Hne]. right; left. split_and!; [by eauto 6| |done].
    intros (? & ? & ?). by simplify_eq.
Qed.

(** The evaluator that stops at the first violated gate. *)
Fixpoint first_violation_evaluator (metrics : gmap str str) (unmeasurable : gmap str bool)
    (skipped : list NotEvaluated) (ths : list Threshold) : bool * str * list NotEvaluated :=
  match ths with
  | [] => (true, "", skipped)
  | th :: ths =>
      match gate metrics unmeasurable th with
      | Satisfied => first_violation_evaluator metrics unmeasurable skipped ths
      | Excused =>
          first_violation_evaluator metrics unmeasurable
            (skipped ++ [MkNotEvaluated (t_Metric th) ReasonUnmeasurable]) ths
      | Violated _ reason => (false, reason, skipped)
      end
  end.

Lemma first_violation_evaluator_eq metrics unmeasurable i ths skipped :
  first_violation_evaluator metrics unmeasurable skipped ths =
  match collect (violation_at metrics unmeasurable) i ths with
  | [] => (true, "", skipped ++ omap (skipped_at metrics unmeasurable) ths)
  | v :: _ => (false, v_Reason v, skipped ++ prefix_skipped metrics unmeasurable ths)
  end.
Proof.
  revert i skipped. induction ths as [|th ths IH]; intros i sk; simpl.
  { by rewrite app_nil_r. }
  assert (skipped_at metrics unmeasurable th =
    match gate metrics unmeasurable th with
    | Excused => Some (MkNotEvaluated (t_Metric th) ReasonUnmeasurable) | _ => None end)
    as -> by done.
  unfold violation_at at 1. destruct (gate _ _ th) eqn:G; simpl.
  - by rewrite (IH (S i)).
  - rewrite (IH (S i)). case_match; by rewrite <-(assoc_L (++)).
  - by rewrite app_nil_r.
Qed.

(** the pre-existing surface of an outcome is the first-violation evaluator's. *)
Theorem Evaluate_frozen (metrics : gmap str str) (unmeasurable : gmap str bool)
    (ths : list Threshold) :
  let o := Evaluate metrics unmeasurable ths in
  (o_Passed o, o_Message o, o_NotEvaluated o) =
  first_violation_evaluator metrics unmeasurable [] ths.
Proof.
  rewrite (first_violation_evaluator_eq _ _ 0). unfold Evaluate.
  destruct (eval_go_lists metrics unmeasurable 0 ths (MkLoop [] (-1) [] [])) as (Hv & _ & Hn).
  pose proof (eval_go_first metrics unmeasurable 0 ths (MkLoop [] (-1) [] []) eq_refl) as Hf.
  simpl in *. rewrite Hv.
  destruct (collect _ 0 ths) as [|v vs]; simpl; [by rewrite Hn|].
  by rewrite Hf.
Qed.

(** what the four comparisons promise of each other on finite values. *)
Theorem compare_laws (got lo hi : float64) :
  is_finite got = true → is_finite lo = true → is_finite hi = true →
  compare got EQ lo = compare got GTE lo && compare got LTE lo ∧
  compare got NEQ lo = negb (compare got EQ lo) ∧
  (compare got GTE lo = true ∨ compare got LTE lo = true) ∧
  (fle lo hi = true → compare got GTE hi = true → compare got GTE lo = true) ∧
  (fle lo hi = true → compare got LTE lo = true → compare got LTE hi = true) ∧
  (compare got GTE lo = true → compare got LTE hi = true → fle lo hi = true).
Proof.
  intros Hg Hl Hh. apply is_finite_not_nan in Hg, Hl, Hh. unfold compare; simpl.
  split_and!.
  - rewrite (feq_fle got lo) by done. apply andb_comm.
  - done.
  - destruct (fle_total got lo); auto.
  - intros. by eapply (fle_trans lo hi got).
  - intros. by eapply (fle_trans got lo hi).
  - intros. by eapply (fle_trans lo got hi).
Qed.

(** The only violation that blames a measurement is a comparison that failed on two
    finite numbers. *)
Lemma gate_unsatisfied metrics unmeasurable th k r :
  gate metrics unmeasurable th = Violated k r → KindCause k = CauseMeasurement →
  is_set unmeasurable (t_Metric th) = false ∧
  ∃ raw got want, metrics !! t_Metric th = Some raw ∧
    ParseFloat raw = (got, None) ∧ is_finite got = true ∧
    ParseFloat (t_Value th) = (want, None) ∧ is_finite want = true ∧
    compare got (t_Comparison th) want = false.
Proof.
  unfold gate, eval_step, is_finite.
  destruct (is_set unmeasurable (t_Metric th)), (metrics !! t_Metric th) as [raw|]; simpl;
    [intros [= <- _]; by intros ?|..].
  { destruct (String.eqb _ RequiredIfMeasurable); simpl; [done|].
    intros [= <- _]. by intros ?. }
  2: { intros [= <- _]. by intros ?. }
  destruct (ParseFloat raw) as [got [e|]] eqn:G; simpl; [intros [= <- _]; by intros ?|].
  destruct (IsNaN got || IsInf got) eqn:G'; simpl; [intros [= <- _]; by intros ?|].
  destruct (ParseFloat (t_Value th)) as [want [e|]] eqn:W; simpl;
    [intros [= <- _]; by intros ?|].
  destruct (IsNaN want || IsInf want) eqn:W'; simpl; [intros [= <- _]; by intros ?|].
  destruct (compare got (t_Comparison th) want) eqn:C; simpl; [done|].
  intros _ _. split; [done|]. exists raw, got, want. by rewrite G', W'.
Qed.

Lemma violation_gate metrics unmeasurable ths v :
  v ∈ o_Violations (Evaluate metrics unmeasurable ths) →
  ∃ th, ths !! v_Index v = Some th ∧ v_Metric v = t_Metric th ∧
    v_Cause v = KindCause (v_Kind v) ∧
    gate metrics unmeasurable th = Violated (v_Kind v) (v_Reason v).
Proof.
  destruct (Evaluate_lists metrics unmeasurable ths) as [-> _].
  rewrite collect_elem. intros (j & th & Hj & Hv). unfold violation_at in Hv.
  destruct (gate metrics unmeasurable th) eqn:G; simplify_eq/=. by exists th.
Qed.

(** ** The linter against the evaluator *)

(** Metrics a parse can produce: the parser drops every name outside the grammar. *)
Definition reportable (metrics : gmap str str) : Prop :=
  ∀ name, is_Some (metrics !! name) → ValidateMetricName name = None.

Lemma lint_elem kind ths p :
  p ∈ ValidateThresholdsForKind kind ths ↔
  ∃ th, ths !! p_Index p = Some th ∧ p_Metric p = t_Metric th ∧
        (p_Severity p, p_Reason p) ∈ lint_threshold kind th.
Proof.
  unfold ValidateThresholdsForKind. rewrite list_elem_of_join. split.
  - intros (l & Hp & Hl). apply elem_of_lookup_imap in Hl as (i & th & -> & Hi).
    apply list_elem_of_fmap in Hp as ([sev reason] & -> & Hin). simpl. eauto.
  - intros (th & Hi & Hm & Hin).
    exists ((λ '(sev, reason), MkProblem (p_Index p) (t_Metric th) sev reason) <$>
            lint_threshold kind th). split.
    + apply list_elem_of_fmap. exists (p_Severity p, p_Reason p). split; [|done].
      destruct p. simpl in *. by subst.
    + apply elem_of_lookup_imap. eauto.
Qed.

(** The three ways a gate can be malformed. *)
Definition malformed (th : Threshold) : Prop :=
  ValidateMetricName (t_Metric th) ≠ None ∨
  (∀ want, ParseFloat (t_Value th) = (want, None) → is_finite want = false) ∨
  (t_Comparison th ≠ GTE ∧ t_Comparison th ≠ LTE ∧ t_Comparison th ≠ EQ ∧
   t_Comparison th ≠ NEQ).

Lemma lint_value_malformed th :
  (∃ r, (SeverityMalformed, r) ∈ lint_value th) ↔
  ∀ want, ParseFloat (t_Value th) = (want, None) → is_finite want = false.
Proof.
  unfold lint_value, is_finite. destruct (ParseFloat (t_Value th)) as [w [e|]]; simpl.
  - split; [by intros _ ?|]. intros _. eexists. by left.
  - destruct (IsNaN w || IsInf w) eqn:F; simpl; split.
    + intros _ ? ?. simplify_eq. by rewrite F.
    + intros _. eexists. by left.
    + intros [r []%elem_of_nil].
    + intros H. specialize (H w eq_refl). by rewrite F in H.
Qed.

Lemma lint_comparison_malformed th :
  (∃ r, (SeverityMalformed, r) ∈ lint_comparison th) ↔
  t_Comparison th ≠ GTE ∧ t_Comparison th ≠ LTE ∧ t_Comparison th ≠ EQ ∧
  t_Comparison th ≠ NEQ.
Proof.
  unfold lint_comparison. destruct (ParseFloat (t_Value th)) as [w e].
  destruct (String.eqb_spec (t_Comparison th) GTE) as [->|]; simpl.
  { split; [intros [r []%elem_of_nil]|by intros (? & _)]. }
  destruct (String.eqb_spec (t_Comparison th) LTE) as [->|]; simpl.
  { split; [intros [r []%elem_of_nil]|by intros (_ & ? & _)]. }
  destruct (String.eqb_spec (t_Comparison th) EQ) as [->|]; simpl;
    [|destruct (String.eqb_spec (t_Comparison th) NEQ) as [->|]; simpl].
  3: { split; [done|]. intros _. eexists. by left. }
  all: split; [|by intros (_ & _ & ? & ?)]; intros [r Hr]; case_match;
    [|case_match]; by repeat (apply elem_of_cons in Hr as [Hr|Hr] || apply elem_of_nil in Hr).
Qed.

Lemma lint_rest_unsound kind th :
  Forall (λ p, p.1 = SeverityUnsound)
    (lint_registered kind th ++ lint_unmeasurable th ++ lint_evidence th).
Proof.
  rewrite !Forall_app. unfold lint_registered, lint_unmeasurable, lint_evidence.
  split_and!; (case_match; [|]); by repeat constructor.
Qed.

Lemma lint_malformed kind th :
  (∃ r, (SeverityMalformed, r) ∈ lint_threshold kind th) ↔ malformed th.
Proof.
  unfold malformed. rewrite <-lint_value_malformed, <-lint_comparison_malformed.
  assert ((∃ r, (SeverityMalformed, r) ∈ lint_name th) ↔
          ValidateMetricName (t_Metric th) ≠ None) as <-.
  { unfold lint_name. destruct (ValidateMetricName _); split; [done|eexists; by left| |done].
    by intros [r []%elem_of_nil]. }
  pose proof (lint_rest_unsound kind th) as Hno. rewrite Forall_forall in Hno.
  assert (∀ x, x ∈ lint_threshold kind th ↔
    x ∈ lint_name th ∨ x ∈ lint_value th ∨ x ∈ lint_comparison th ∨
    x ∈ lint_registered kind th ++ lint_unmeasurable th ++ lint_evidence th) as E.
  { intros x. unfold lint_threshold. by rewrite elem_of_app, elem_of_app, elem_of_app. }
  setoid_rewrite E.
  split.
  - intros (r & [H|[H|[H|H]]]); [eauto..|]. by apply Hno in H.
  - intros [[r H]|[[r H]|[r H]]]; exists r; auto.
Qed.

Global Instance malformed_dec th : Decision (malformed th).
Proof.
  refine (cast_if (decide (Exists (λ p, p.1 = SeverityMalformed)
                             (lint_threshold KindCustom th))));
    rewrite <-(lint_malformed KindCustom), Exists_exists in *.
  - destruct e as ([sev r] & Hin & Hs). simpl in Hs. subst. eauto.
  - intros [r Hr]. apply n. eauto.
Defined.

Lemma malformed_not th :
  ¬ malformed th →
  ValidateMetricName (t_Metric th) = None ∧
  (∃ want, ParseFloat (t_Value th) = (want, None) ∧ is_finite want = true) ∧
  (t_Comparison th = GTE ∨ t_Comparison th = LTE ∨ t_Comparison th = EQ ∨
   t_Comparison th = NEQ).
Proof.
  unfold malformed. intros H. split_and!.
  - destruct (ValidateMetricName _) eqn:E; [|done]. exfalso. naive_solver.
  - destruct (ParseFloat (t_Value th)) as [w [e|]] eqn:E.
    + exfalso. apply H. right; left. by intros ? [=].
    + exists w. split; [done|]. apply not_false_iff_true. intros F.
      apply H. right; left. intros ? [= <-]. done.
  - destruct (decide (t_Comparison th = GTE)), (decide (t_Comparison th = LTE)),
      (decide (t_Comparison th = EQ)), (decide (t_Comparison th = NEQ)); auto.
    exfalso. apply H. by right; right.
Qed.

Lemma ParseFloat_small : ∃ zero one,
  ParseFloat "0" = (zero, None) ∧ ParseFloat "1" = (one, None) ∧
  is_finite zero = true ∧ is_finite one = true ∧ feq zero one = false.
Proof. eexists _, _. split_and!; by vm_compute. Qed.

Lemma feq_trans x y z :
  IsNaN x = false → IsNaN y = false → IsNaN z = false →
  feq x y = true → feq z y = true → feq x z = true.
Proof.
  intros ???. rewrite !feq_fle, !andb_true_iff by done.
  intros [??] [??]. split; by eapply (fle_trans _ y).
Qed.

Lemma compare_satisfiable v op want :
  ParseFloat v = (want, None) → is_finite want = true →
  op = GTE ∨ op = LTE ∨ op = EQ ∨ op = NEQ →
  ∃ raw got, ParseFloat raw = (got, None) ∧ is_finite got = true ∧
    compare got op want = true.
Proof.
  intros Hw Hf Hop. pose proof (is_finite_not_nan _ Hf) as Hn.
  destruct ParseFloat_small as (zero & one & H0 & H1 & F0 & F1 & Hne).
  destruct (decide (op = NEQ)) as [->|].
  - destruct (feq zero want) eqn:E; [exists "1", one|exists "0", zero]; split_and!;
      try done; unfold compare; simpl; apply negb_true_iff; [|done].
    apply not_true_iff_false. intros E'.
    enough (feq zero one = true) by congruence.
    apply (feq_trans _ want); auto using is_finite_not_nan.
  - exists v, want. split_and!; try done.
    unfold compare. destruct Hop as [->|[->|[->|]]]; simpl; [..|done].
    1, 2: by apply fle_refl. rewrite feq_fle by done. by rewrite fle_refl.
Qed.

(** Malformed means that no run can satisfy the gate. *)
Theorem lint_malformed_iff (kind : TestKind) (ths : list Threshold) (i : nat) (th : Threshold) :
  ths !! i = Some th →
  (∃ p, p ∈ ValidateThresholdsForKind kind ths ∧ p_Index p = i ∧
        p_Severity p = SeverityMalformed) ↔
  ∀ metrics unmeasurable, reportable metrics → ¬ satisfied metrics unmeasurable th.
Proof.
  intros Hi. transitivity (malformed th).
  { rewrite <-(lint_malformed kind). setoid_rewrite lint_elem. split.
    - intros (p & (t & Ht & _ & Hp) & <- & Hs). simplify_eq. rewrite Hs in Hp. eauto.
    - intros [r Hr]. exists (MkProblem i (t_Metric th) SeverityMalformed r).
      split; [|done]. by exists th. }
  split.
  - intros Hmal m u Hm (_ & raw & got & want & Hraw & Hg & Hgf & Hw & Hwf & Hc).
    destruct Hmal as [H|[H|(H1 & H2 & H3 & H4)]].
    + apply H, Hm. by eexists.
    + specialize (H _ Hw). congruence.
    + unfold compare in Hc. apply String.eqb_neq in H1, H2, H3, H4.
      by rewrite H1, H2, H3, H4 in Hc.
  - intros H. apply dec_stable. intros (Hn & (want & Hw & Hf) & Hc)%malformed_not.
    assert (∃ raw got, ParseFloat raw = (got, None) ∧ is_finite got = true ∧
              compare got (t_Comparison th) want = true)
      as (raw & got & Hg & Hgf & Hcmp) by by eapply compare_satisfiable.
    apply (H {[t_Metric th := raw]} ∅).
    + intros name [v Hv]. by apply lookup_singleton_Some in Hv as [<- _].
    + split; [done|]. exists raw, got, want. by rewrite lookup_singleton_eq.
Qed.

(** ** Witnesses *)
Definition example_metrics : gmap str str := {["gpuTempC" := "71.5"]}.
Definition example_gates : list Threshold :=
  [MkThreshold "gpuTempC" LTE "85" Required; MkThreshold "miscompares" EQ "0" Required].

Lemma Evaluate_partition_witness :
  applies (Evaluate example_metrics ∅ example_gates) 0 ∧
  violates (Evaluate example_metrics ∅ example_gates) 1.
Proof.
  split.
  - destruct (Evaluate_partition example_metrics ∅ example_gates 0 _ eq_refl)
      as [(H & _)|[(H & _)|(H & _)]]; [exact H| |].
    + destruct H as (v & Hv & Hi). exfalso. revert Hv Hi. vm_compute. set_solver.
    + destruct H as (H & _). by vm_compute in H.
  - destruct (Evaluate_partition example_metrics ∅ example_gates 1 _ eq_refl)
      as [(H & _)|[(H & _)|(H & _)]]; [ |exact H|].
    + destruct H as (v & Hv & Hi). exfalso. revert Hv Hi. vm_compute. set_solver.
    + destruct H as (_ & H & _). by vm_compute in H.
Defined.

Lemma compare_laws_witness :
  let f := λ s, (ParseFloat s).1 in
  compare (f "71.5") GTE (f "70") = true ∧ compare (f "71.5") LTE (f "85") = true ∧
  fle (f "70") (f "85") = true.
Proof.
  intros f. assert (compare (f "71.5") GTE (f "70") = true) as H1 by (by vm_compute).
  assert (compare (f "71.5") LTE (f "85") = true) as H2 by (by vm_compute).
  split; [exact H1|split; [exact H2|]].
  refine (proj2 (proj2 (proj2 (proj2 (proj2 (compare_laws (f "71.5") (f "70") (f "85") _ _ _)))))
    H1 H2); by vm_compute.
Defined.

Lemma lint_malformed_iff_witness :
  reportable example_metrics ∧
  ¬ satisfied example_metrics ∅ (MkThreshold "gpuTempC" LTE "NaN" Required).
Proof.
  assert (reportable example_metrics) as Hr.
  { unfold example_metrics. intros name [v Hv]. by apply lookup_singleton_Some in Hv as [<- _]. }
  split; [exact Hr|].
  apply (proj1 (lint_malformed_iff KindCustom
    [MkThreshold "gpuTempC" LTE "NaN" Required] 0 _ eq_refl)); [|exact Hr].
  set (l := ValidateThresholdsForKind _ _).
  destruct l as [|p ps] eqn:E; [by vm_compute in E|].
  exists p. vm_compute in E. injection E as <- <-. split; [by left|done].
Defined.
