(* ===== verification/Group.v ===== *)
(** * pkg/group: what N ranks jointly established

    [Combine] folds every rank's parsed report into one; [group_Verdict] is the
    precedence rule and [Elect] decides one metric's value across the ranks.
    A rank's [Result] is [None] when that rank never produced one.  A Go [range]
    over a map is a [map_fold]: every loop body here touches its own key only. *)

From S2P Require Import Prelude GoStrings GoFloat Contract Registry Runner.
Open Scope stdpp_scope.

Definition RootRank : Z := 0.

Record Rank := MkRank {
  rk_Rank : Z;
  rk_Node : str;
  rk_Result : option Result;
}.

Record RankReading := MkRankReading { rr_Rank : Z; rr_Value : str }.

Record Combined := MkCombined {
  c_Metrics : gmap str str;
  c_Unmeasurable : gmap str bool;
  c_InvalidNames : list str;
  c_Verdict : Verdict;
  c_ExitCode : Z;
  c_Readings : gmap str (list RankReading);
}.

(** ** The election *)

(** One step of [combineNumeric]'s loop: Go's [>] and [<] on float64. *)
Definition combine_step (c : Combination) (acc f : float64) : float64 :=
  match c with
  | CombineSum => fadd acc f
  | CombineMax => if flt acc f then f else acc
  | CombineMin => if flt f acc then f else acc
  | _ => acc
  end.

Fixpoint combine_go (c : Combination) (acc : float64) (vals : list RankReading)
    : option float64 :=
  match vals with
  | [] => Some acc
  | rv :: vals =>
      match ParseFloat (rr_Value rv) with
      | (f, None) => combine_go c (combine_step c acc f) vals
      | (_, Some _) => None
      end
  end.

Definition combineNumeric (c : Combination) (vals : list RankReading) : option str :=
  match vals with
  | [] => None
  | v :: vals =>
      match ParseFloat (rr_Value v) with
      | (acc, None) => FormatFloat <$> combine_go c acc vals
      | (_, Some _) => None
      end
  end.

(** The loop that finds the lowest rank and checks unanimity. *)
Definition scan_lowest (first : RankReading) (st : RankReading * bool) (rv : RankReading)
    : RankReading * bool :=
  (if (rr_Rank rv <? rr_Rank st.1)%Z then rv else st.1,
   st.2 && String.eqb (rr_Value rv) (rr_Value first)).

(** [Elect]; [None] is Go's [("", false)]. *)
Definition Elect (key : str) (vals : list RankReading) : option str :=
  match vals with
  | [] => None
  | first :: rest =>
      if existsb (λ rv, String.eqb (rr_Value rv) Unmeasurable) vals then None
      else
        let '(lowest, unanimous) := fold_left (scan_lowest first) rest (first, true) in
        match CombinationFor key with
        | CombineCollective => Some (rr_Value lowest)
        | (CombineSum | CombineMax | CombineMin) as c => combineNumeric c vals
        | CombineUnclassified => if unanimous then Some (rr_Value lowest) else None
        end
  end.

(** ** The verdict *)
Definition exitCodeOf (ranks : list Rank) (want : Z) : Z :=
  match list_first (λ m, (rk_Rank m =? want)%Z && bool_decide (is_Some (rk_Result m))) ranks with
  | Some m => from_option r_ExitCode (-1)%Z (rk_Result m)
  | None => (-1)%Z
  end.

Definition has_verdict (want : Verdict) (m : Rank) : bool :=
  match rk_Result m with
  | Some r => bool_decide (r_Verdict r = want)
  | None => false
  end.

Definition reported (m : Rank) : bool := bool_decide (is_Some (rk_Result m)).

(** The exit code of the first rank with the wanted verdict, where there is one. *)
Definition exit_with (ranks : list Rank) (want : Verdict) : option Z :=
  list_first (has_verdict want) ranks ≫= λ m, r_ExitCode <$> rk_Result m.

(** [Verdict] *)
Definition group_Verdict (ranks : list Rank) : Verdict * Z :=
  let n := length (List.filter reported ranks) in
  if (n =? 0)%nat || (length ranks =? 0)%nat then (VerdictError, (-1)%Z)
  else
    match exit_with ranks VerdictError with
    | Some code => (VerdictError, code)
    | None =>
        match exit_with ranks VerdictFail with
        | Some code => (VerdictFail, code)
        | None =>
            if negb (n =? length ranks)%nat
            then (VerdictError, exitCodeOf ranks RootRank)
            else
              match exit_with ranks VerdictSkip with
              | Some code => (VerdictSkip, code)
              | None => (VerdictPass, exitCodeOf ranks RootRank)
              end
        end
    end.

(** [Missing]: the silent ranks, in rank order. *)
Definition Missing (ranks : list Rank) : list Z :=
  merge_sort Z.le (rk_Rank <$> List.filter (λ m, negb (reported m)) ranks).

(** [dedupe]: the set of names, sorted. *)
Fixpoint dedupe_go (seen : gset str) (l : list str) : list str :=
  match l with
  | [] => []
  | s :: l =>
      if bool_decide (s ∈ seen) then dedupe_go seen l
      else s :: dedupe_go ({[s]} ∪ seen) l
  end.

Definition dedupe (l : list str) : list str := sort_strings (dedupe_go ∅ l).

(** ** Combine *)

(** The state Combine's loops fill: Metrics, Unmeasurable, Readings, invalid. *)
Record combining := MkCombining {
  cg_Metrics : gmap str str;
  cg_Unmeasurable : gmap str bool;
  cg_Readings : gmap str (list RankReading);
  cg_invalid : list str;
}.

Definition add_reading (k : str) (rv : RankReading)
    (readings : gmap str (list RankReading)) : gmap str (list RankReading) :=
  <[k := default [] (readings !! k) ++ [rv]]> readings.

(** First pass, one rank: collect its metrics. *)
Definition collect_metrics (m : Rank) (st : combining) : combining :=
  match rk_Result m with
  | None => st
  | Some r =>
      let st :=
        map_fold (λ k v st,
          MkCombining (<[k := v]> (cg_Metrics st)) (cg_Unmeasurable st)
            (add_reading k (MkRankReading (rk_Rank m) v) (cg_Readings st))
            (cg_invalid st)) st (r_Metrics r) in
      MkCombining (cg_Metrics st) (cg_Unmeasurable st) (cg_Readings st)
        (cg_invalid st ++ r_InvalidNames r)
  end.

(** Second pass, one rank: collect its declarations. *)
Definition collect_unmeasurable (m : Rank) (st : combining) : combining :=
  match rk_Result m with
  | None => st
  | Some r =>
      map_fold (λ k _ st,
        match cg_Metrics st !! k with
        | None =>
            MkCombining (cg_Metrics st) (<[k := true]> (cg_Unmeasurable st))
              (cg_Readings st) (cg_invalid st)
        | Some _ =>
            MkCombining (cg_Metrics st) (cg_Unmeasurable st)
              (add_reading k (MkRankReading (rk_Rank m) Unmeasurable) (cg_Readings st))
              (cg_invalid st)
        end) st (r_Unmeasurable r)
  end.

(** Third pass: elect every key that was read. *)
Definition elect_key (k : str) (vals : list RankReading) (st : combining) : combining :=
  match Elect k vals with
  | None =>
      MkCombining (delete k (cg_Metrics st)) (<[k := true]> (cg_Unmeasurable st))
        (cg_Readings st) (cg_invalid st)
  | Some merged =>
      MkCombining (<[k := merged]> (cg_Metrics st)) (cg_Unmeasurable st)
        (cg_Readings st) (cg_invalid st)
  end.

Definition Combine (ranks : list Rank) : Combined :=
  let st := fold_left (λ st m, collect_metrics m st) (rev ranks) (MkCombining ∅ ∅ ∅ []) in
  let st := fold_left (λ st m, collect_unmeasurable m st) ranks st in
  let st := map_fold elect_key st (cg_Readings st) in
  let '(v, code) := group_Verdict ranks in
  MkCombined (cg_Metrics st) (cg_Unmeasurable st) (dedupe (cg_invalid st)) v code
    (cg_Readings st).

(** ** Combine, one key at a time *)

(** What one rank says of a key. *)
Definition rank_measured (k : str) (m : Rank) : option RankReading :=
  r ← rk_Result m; v ← r_Metrics r !! k; Some (MkRankReading (rk_Rank m) v).

Definition rank_declared (k : str) (m : Rank) : option RankReading :=
  r ← rk_Result m; _ ← r_Unmeasurable r !! k; Some (MkRankReading (rk_Rank m) Unmeasurable).

(** Every answer for a key, in the order Combine records them. *)
Definition readings_of (k : str) (ranks : list Rank) : list RankReading :=
  match omap (rank_measured k) (rev ranks) with
  | [] => []
  | l => l ++ omap (rank_declared k) ranks
  end.

Definition append_reading (o : option RankReading) (l : option (list RankReading))
    : option (list RankReading) :=
  match o with
  | Some rv => Some (default [] l ++ [rv])
  | None => l
  end.

Lemma collect_metrics_key m st k :
  let st' := collect_metrics m st in
  cg_Metrics st' !! k =
    match rank_measured k m with Some rv => Some (rr_Value rv) | None => cg_Metrics st !! k end ∧
  cg_Readings st' !! k = append_reading (rank_measured k m) (cg_Readings st !! k) ∧
  cg_Unmeasurable st' !! k = cg_Unmeasurable st !! k.
Proof.
  unfold collect_metrics, rank_measured. destruct (rk_Result m) as [r|]; simpl; [|done].
  revert k.
  apply (map_fold_weak_ind (λ st' ms, ∀ k : str,
    cg_Metrics st' !! k =
      match ms !! k ≫= λ v, Some (MkRankReading (rk_Rank m) v)
      with Some rv => Some (rr_Value rv) | None => cg_Metrics st !! k end ∧
    cg_Readings st' !! k =
      append_reading (ms !! k ≫= λ v, Some (MkRankReading (rk_Rank m) v))
        (cg_Readings st !! k) ∧
    cg_Unmeasurable st' !! k = cg_Unmeasurable st !! k)).
  - intros k. by rewrite lookup_empty.
  - intros i v ms st' Hi IH k. destruct (IH k) as (IH1 & IH2 & IH3). simpl.
    unfold add_reading. destruct (decide (i = k)) as [->|Hne].
    + rewrite !lookup_insert_eq. rewrite Hi in IH2. simpl in *. by rewrite IH2.
    + rewrite !lookup_insert_ne by done. done.
Qed.

Lemma collect_unmeasurable_key m st k :
  let st' := collect_unmeasurable m st in
  cg_Metrics st' = cg_Metrics st ∧
  cg_Readings st' !! k =
    (if bool_decide (is_Some (cg_Metrics st !! k))
     then append_reading (rank_declared k m) (cg_Readings st !! k)
     else cg_Readings st !! k) ∧
  cg_Unmeasurable st' !! k =
    match rank_declared k m, cg_Metrics st !! k with
    | Some _, None => Some true
    | _, _ => cg_Unmeasurable st !! k
    end.
Proof.
  unfold collect_unmeasurable, rank_declared.
  destruct (rk_Result m) as [r|]; simpl; [|by case_match].
  revert k. set (f := λ (k : str) (_ : bool) st, _).
  cut (∀ ms : gmap str bool,
    cg_Metrics (map_fold f st ms) = cg_Metrics st ∧ ∀ k,
    cg_Readings (map_fold f st ms) !! k =
      (if bool_decide (is_Some (cg_Metrics st !! k))
       then append_reading (ms !! k ≫= λ _, Some (MkRankReading (rk_Rank m) Unmeasurable))
              (cg_Readings st !! k)
       else cg_Readings st !! k) ∧
    cg_Unmeasurable (map_fold f st ms) !! k =
      match ms !! k ≫= λ _, Some (MkRankReading (rk_Rank m) Unmeasurable), cg_Metrics st !! k with
      | Some _, None => Some true
      | _, _ => cg_Unmeasurable st !! k
      end).
  { intros H k. destruct (H (r_Unmeasurable r)) as [H1 H2]. split; [done|]. apply H2. }
  apply (map_fold_weak_ind (λ st' (ms : gmap str bool),
    cg_Metrics st' = cg_Metrics st ∧ ∀ k : str,
    cg_Readings st' !! k =
      (if bool_decide (is_Some (cg_Metrics st !! k))
       then append_reading (ms !! k ≫= λ _, Some (MkRankReading (rk_Rank m) Unmeasurable))
              (cg_Readings st !! k)
       else cg_Readings st !! k) ∧
    cg_Unmeasurable st' !! k =
      match ms !! k ≫= λ _, Some (MkRankReading (rk_Rank m) Unmeasurable), cg_Metrics st !! k with
      | Some _, None => Some true
      | _, _ => cg_Unmeasurable st !! k
      end)); unfold f; clear f.
  - split; [done|]. intros k. rewrite lookup_empty. simpl. by repeat case_match.
  - intros i v ms st' Hi [IH0 IH]. split; [by case_match|]. intros k.
    destruct (IH k) as (IH1 & IH2). unfold add_reading. rewrite IH0.
    destruct (decide (i = k)) as [->|Hne].
    + rewrite lookup_insert_eq. rewrite Hi in IH1, IH2. simpl in *.
      destruct (cg_Metrics st !! k) as [w|]; simpl in *; rewrite lookup_insert_eq;
        by rewrite ?IH1.
    + rewrite lookup_insert_ne by done.
      destruct (cg_Metrics st !! i); simpl; rewrite ?lookup_insert_ne by done; done.
Qed.

Lemma elect_pass_key (readings : gmap str (list RankReading)) st :
  let st' := map_fold elect_key st readings in
  cg_Readings st' = cg_Readings st ∧ cg_invalid st' = cg_invalid st ∧
  ∀ k,
  cg_Metrics st' !! k =
    match readings !! k with Some vals => Elect k vals | None => cg_Metrics st !! k end ∧
  cg_Unmeasurable st' !! k =
    match readings !! k ≫= λ vals, Some (Elect k vals) with
    | Some None => Some true | _ => cg_Unmeasurable st !! k end.
Proof.
  simpl. apply (map_fold_weak_ind (λ st' (rs : gmap str (list RankReading)),
    cg_Readings st' = cg_Readings st ∧ cg_invalid st' = cg_invalid st ∧ ∀ k : str,
    cg_Metrics st' !! k =
      match rs !! k with Some vals => Elect k vals | None => cg_Metrics st !! k end ∧
    cg_Unmeasurable st' !! k =
      match rs !! k ≫= λ vals, Some (Elect k vals) with
      | Some None => Some true | _ => cg_Unmeasurable st !! k end)).
  - split_and!; [done..|]. intros k. by rewrite lookup_empty.
  - intros i vals rs st' Hi (IH0 & IH0' & IH). unfold elect_key.
    split; [by case_match|]. split; [by case_match|]. intros k.
    destruct (IH k) as (IH1 & IH2). destruct (decide (i = k)) as [->|Hne].
    + rewrite lookup_insert_eq. rewrite Hi in IH1, IH2. simpl in *.
      destruct (Elect k vals); simpl;
        rewrite ?lookup_insert_eq, ?lookup_delete_eq; by rewrite ?IH2.
    + rewrite lookup_insert_ne by done. destruct (Elect i vals); simpl;
        rewrite ?lookup_insert_ne, ?lookup_delete_ne by done; done.
Qed.

(** The first two passes over every rank. *)
Lemma first_pass_key k ranks st :
  let st' := fold_left (λ st m, collect_metrics m st) ranks st in
  cg_Readings st' !! k =
    match omap (rank_measured k) ranks with
    | [] => cg_Readings st !! k
    | l => Some (default [] (cg_Readings st !! k) ++ l)
    end ∧
  (is_Some (cg_Metrics st' !! k) ↔
     is_Some (cg_Metrics st !! k) ∨ omap (rank_measured k) ranks ≠ []) ∧
  cg_Unmeasurable st' !! k = cg_Unmeasurable st !! k.
Proof.
  revert st. induction ranks as [|m ranks IH]; intros st; simpl.
  { split_and!; [done| |done]. naive_solver. }
  destruct (IH (collect_metrics m st)) as (-> & IH2 & ->).
  destruct (collect_metrics_key m st k) as (H1 & -> & ->).
  split; [|split; [|done]].
  - destruct (rank_measured k m) as [rv|]; simpl; [|done].
    change (list_omap Rank RankReading (rank_measured k) ranks)
      with (omap (rank_measured k) ranks).
    destruct (omap (rank_measured k) ranks); [done|]. by rewrite <-(assoc_L (++)).
  - rewrite IH2, H1. destruct (rank_measured k m) as [rv|]; [|done].
    split; [by right|by left].
Qed.

Lemma second_pass_key k ranks st :
  let st' := fold_left (λ st m, collect_unmeasurable m st) ranks st in
  cg_Metrics st' = cg_Metrics st ∧
  cg_Readings st' !! k =
    (if bool_decide (is_Some (cg_Metrics st !! k)) then
       match omap (rank_declared k) ranks with
       | [] => cg_Readings st !! k
       | l => Some (default [] (cg_Readings st !! k) ++ l)
       end
     else cg_Readings st !! k) ∧
  cg_Unmeasurable st' !! k =
    match omap (rank_declared k) ranks, cg_Metrics st !! k with
    | _ :: _, None => Some true
    | _, _ => cg_Unmeasurable st !! k
    end.
Proof.
  revert st. induction ranks as [|m ranks IH]; intros st; simpl.
  { split_and!; [done|by case_match|done]. }
  destruct (IH (collect_unmeasurable m st)) as (-> & -> & ->).
  destruct (collect_unmeasurable_key m st k) as (-> & -> & ->).
  change (list_omap Rank RankReading (rank_declared k) ranks)
    with (omap (rank_declared k) ranks).
  split_and!; [done|..].
  - case_bool_decide; [|done]. destruct (rank_declared k m) as [rv|]; simpl; [|done].
    destruct (omap (rank_declared k) ranks); [done|]. by rewrite <-(assoc_L (++)).
  - destruct (rank_declared k m), (cg_Metrics st !! k), (omap (rank_declared k) ranks); done.
Qed.

(** What Combine answers for one key. *)
Lemma Combine_key ranks k :
  c_Readings (Combine ranks) !! k =
    match readings_of k ranks with [] => None | l => Some l end ∧
  c_Metrics (Combine ranks) !! k = Elect k (readings_of k ranks) ∧
  c_Unmeasurable (Combine ranks) !! k =
    match readings_of k ranks with
    | [] => match omap (rank_declared k) ranks with [] => None | _ => Some true end
    | l => match Elect k l with None => Some true | Some _ => None end
    end.
Proof.
  unfold Combine. destruct (group_Verdict ranks) as [v code].
  set (st0 := MkCombining ∅ ∅ ∅ []).
  destruct (first_pass_key k (rev ranks) st0) as (F1 & F2 & F3).
  set (st1 := fold_left _ (rev ranks) st0) in *.
  destruct (second_pass_key k ranks st1) as (S1 & S2 & S3).
  set (st2 := fold_left _ ranks st1) in *.
  destruct (elect_pass_key (cg_Readings st2) st2) as (E0 & _ & E).
  destruct (E k) as (E1 & E2). simpl. rewrite E0, E1, E2, S2, S3, S1, F1, F3. simpl.
  rewrite !lookup_empty. unfold readings_of. simpl in F2. rewrite lookup_empty in F2.
  destruct (omap (rank_measured k) (rev ranks)) as [|rv l] eqn:Em; simpl.
  - assert (cg_Metrics st1 !! k = None) as ->.
    { apply eq_None_not_Some. intros [[]|]%F2; done. }
    simpl. by destruct (omap (rank_declared k) ranks).
  - assert (is_Some (cg_Metrics st1 !! k)) as [w Hw] by by apply F2; right.
    rewrite Hw. simpl. destruct (omap (rank_declared k) ranks) as [|rv' l'];
      simpl; rewrite ?app_nil_r; split_and!; try done; by case_match.
Qed.

(** ** Properties *)

Lemma exit_with_None ranks want :
  exit_with ranks want = None ↔ ∀ m, m ∈ ranks → has_verdict want m = false.
Proof.
  unfold exit_with. rewrite <-list_first_None.
  destruct (list_first (has_verdict want) ranks) as [m|] eqn:E; simpl; [|done].
  apply list_first_Some in E as [_ Hm]. unfold has_verdict in Hm.
  destruct (rk_Result m); naive_solver.
Qed.

Lemma exit_with_Some ranks want code :
  exit_with ranks want = Some code →
  ∃ m r, m ∈ ranks ∧ rk_Result m = Some r ∧ r_Verdict r = want ∧ r_ExitCode r = code.
Proof.
  unfold exit_with. destruct (list_first (has_verdict want) ranks) as [m|] eqn:E; [|done].
  apply list_first_Some in E as [Hin Hm]. unfold has_verdict in Hm. simpl.
  destruct (rk_Result m) as [r|] eqn:Er; simpl; [|done].
  apply bool_decide_eq_true in Hm. intros [= <-]. by exists m, r.
Qed.

Lemma reported_all ranks :
  length (List.filter reported ranks) = length ranks ↔ ∀ m, m ∈ ranks → reported m = true.
Proof.
  induction ranks as [|m ranks IH]; simpl; [split; [by intros _ ? ?%elem_of_nil|done]|].
  pose proof (List.filter_length_le reported ranks) as Hle.
  destruct (reported m) eqn:E; simpl.
  - rewrite Nat.succ_inj_wd, IH. setoid_rewrite elem_of_cons. naive_solver.
  - split; [lia|]. intros H. rewrite H in E; [done|by left].
Qed.

Lemma reported_none ranks :
  length (List.filter reported ranks) = 0%nat ↔ ∀ m, m ∈ ranks → rk_Result m = None.
Proof.
  induction ranks as [|m ranks IH]; simpl; [split; [by intros _ ? ?%elem_of_nil|done]|].
  unfold reported at 1. setoid_rewrite elem_of_cons. case_bool_decide as E; simpl.
  - split; [done|]. intros H. destruct E as [r E]. rewrite H in E by auto. done.
  - rewrite IH. apply eq_None_not_Some in E. naive_solver.
Qed.

(** What a rank positively reported. *)
Definition reports (m : Rank) (v : Verdict) : Prop :=
  ∃ r, rk_Result m = Some r ∧ r_Verdict r = v.

Lemma has_verdict_reports want m : has_verdict want m = true ↔ reports m want.
Proof.
  unfold has_verdict, reports. destruct (rk_Result m); [|naive_solver].
  rewrite bool_decide_eq_true. naive_solver.
Qed.

Lemma exit_with_none_reports ranks want :
  exit_with ranks want = None ↔ ∀ m, m ∈ ranks → ¬ reports m want.
Proof.
  rewrite exit_with_None. setoid_rewrite <-has_verdict_reports.
  by setoid_rewrite not_true_iff_false.
Qed.

Lemma exit_with_some_reports ranks want :
  is_Some (exit_with ranks want) ↔ ∃ m, m ∈ ranks ∧ reports m want.
Proof.
  split.
  - intros [code H]. apply exit_with_Some in H as (m & r & ? & ? & ? & _).
    exists m. split; [done|]. by exists r.
  - intros (m & Hin & Hr). apply not_eq_None_Some. rewrite exit_with_none_reports.
    intros H. by apply (H m).
Qed.

Lemma reports_cases (ranks : list Rank) m :
  m ∈ ranks → is_Some (rk_Result m) →
  (∀ v, v ≠ VerdictPass → ¬ reports m v) → reports m VerdictPass.
Proof.
  intros _ [r Hr] H. exists r. split; [done|].
  destruct (r_Verdict r) eqn:E; [done|exfalso; eapply H; [|by exists r]; done..].
Qed.

Lemma reports_fun m v w : reports m v → reports m w → v = w.
Proof. intros (r & Hr & <-) (r' & Hr' & <-). congruence. Qed.

(** The verdict, read as the precedence it implements. *)
Lemma group_Verdict_cases (ranks : list Rank) :
  let full := ∀ m, m ∈ ranks → is_Some (rk_Result m) in
  let some v := ∃ m, m ∈ ranks ∧ reports m v in
  let none v := ∀ m, m ∈ ranks → ¬ reports m v in
  match (group_Verdict ranks).1 with
  | VerdictPass =>
      ranks ≠ [] ∧ full ∧ none VerdictError ∧ none VerdictFail ∧ none VerdictSkip
  | VerdictFail => some VerdictFail ∧ none VerdictError
  | VerdictSkip => full ∧ none VerdictError ∧ none VerdictFail ∧ some VerdictSkip
  | VerdictError =>
      some VerdictError ∨ ¬ full ∧ none VerdictFail ∨ ranks = []
  end.
Proof.
  simpl. unfold group_Verdict.
  destruct (Nat.eqb_spec (length (List.filter reported ranks)) 0) as [H0|H0]; simpl.
  { rewrite reported_none in H0. destruct ranks as [|m ranks]; [by right; right|].
    right; left. split.
    - intros H. destruct (H m) as [r Hr]; [left|]. rewrite H0 in Hr by left. done.
    - intros m' Hm' (r & Hr & _). by rewrite H0 in Hr. }
  assert (ranks ≠ []) as Hne by by intros ->.
  rewrite (proj2 (Nat.eqb_neq (length ranks) 0)) by by destruct ranks.
  destruct (exit_with ranks VerdictError) as [c|] eqn:E; simpl.
  { left. apply exit_with_some_reports. by rewrite E. }
  rewrite exit_with_none_reports in E.
  destruct (exit_with ranks VerdictFail) as [c|] eqn:F; simpl.
  { split; [|done]. apply exit_with_some_reports. by rewrite F. }
  rewrite exit_with_none_reports in F.
  assert (length (List.filter reported ranks) = length ranks ↔
          ∀ m, m ∈ ranks → is_Some (rk_Result m)) as Hfull.
  { rewrite reported_all. unfold reported. by setoid_rewrite bool_decide_eq_true. }
  destruct (Nat.eqb_spec (length (List.filter reported ranks)) (length ranks)) as [Hn|Hn];
    simpl; rewrite Hfull in Hn; [|by right; left].
  destruct (exit_with ranks VerdictSkip) as [c|] eqn:K; simpl.
  - split_and!; try done. apply exit_with_some_reports. by rewrite K.
  - rewrite exit_with_none_reports in K. done.
Qed.

Lemma Combine_verdict ranks : c_Verdict (Combine ranks) = (group_Verdict ranks).1.
Proof. unfold Combine. by destruct (group_Verdict ranks). Qed.

Lemma group_Verdict_exact (ranks : list Rank) :
  let full := ∀ m, m ∈ ranks → is_Some (rk_Result m) in
  let some v := ∃ m, m ∈ ranks ∧ reports m v in
  ((group_Verdict ranks).1 = VerdictPass ↔
     ranks ≠ [] ∧ ∀ m, m ∈ ranks → reports m VerdictPass) ∧
  ((group_Verdict ranks).1 = VerdictFail ↔ some VerdictFail ∧ ¬ some VerdictError) ∧
  ((group_Verdict ranks).1 = VerdictSkip ↔
     full ∧ ¬ some VerdictError ∧ ¬ some VerdictFail ∧ some VerdictSkip).
Proof.
  pose proof (group_Verdict_cases ranks) as H. simpl in *.
  assert (∀ m v, reports m v → is_Some (rk_Result m)) as Hrep
    by (intros m v (r & Hr & _); by exists r).
  destruct (group_Verdict ranks).1.
  - destruct H as (Hne & Hf & HE & HF & HS). split_and!; (split; try done).
    + intros _. split; [done|]. intros m Hm. apply (reports_cases ranks); [done|by apply Hf|].
      intros v Hv. destruct v; [done|by apply HF|by apply HS|by apply HE].
    + intros ((m & Hm & Hr) & _). by eapply HF in Hr.
    + intros (_ & _ & _ & m & Hm & Hr). by eapply HS in Hr.
  - destruct H as ((m & Hm & Hr) & HE). split_and!; (split; try done).
    + intros [_ Hp]. specialize (Hp m Hm). by pose proof (reports_fun _ _ _ Hp Hr).
    + intros _. split; [by exists m|]. intros (m' & ? & ?). by eapply HE.
    + intros (_ & _ & Hn & _). destruct Hn. by exists m.
  - destruct H as (Hf & HE & HF & m & Hm & Hr). split_and!; (split; try done).
    + intros [_ Hp]. specialize (Hp m Hm). by pose proof (reports_fun _ _ _ Hp Hr).
    + intros ((m' & Hm' & Hr') & _). by eapply HF in Hr'.
    + intros _. split_and!; [done| | |by exists m].
      * intros (m' & ? & ?). by eapply HE.
      * intros (m' & ? & ?). by eapply HF.
  - split_and!; (split; try done).
    + intros [Hne Hp]. destruct H as [(m & Hm & Hr)|[[Hnf _]|?]]; [| |done].
      * specialize (Hp m Hm). by pose proof (reports_fun _ _ _ Hp Hr).
      * destruct Hnf. eauto.
    + intros [(m & Hm & Hr) HnE]. destruct H as [?|[[_ Hn]| ->]]; [done| |].
      * by eapply Hn in Hr.
      * by apply elem_of_nil in Hm.
    + intros (Hf & HnE & HnF & m & Hm & Hr). destruct H as [?|[[? _]| ->]]; [done..|].
      by apply elem_of_nil in Hm.
Qed.

(** the group's verdict. It passes only on a full turnout of passes, skips only
    on a full turnout that holds a skip and neither an error nor a failure, and
    fails exactly when somebody failed and nobody erred; everything else is an
    error. *)
Theorem group_Verdict_spec (ranks : list Rank) :
  let full := ∀ m, m ∈ ranks → is_Some (rk_Result m) in
  let some v := ∃ m, m ∈ ranks ∧ reports m v in
  ((group_Verdict ranks).1 = VerdictPass ↔
     ranks ≠ [] ∧ ∀ m, m ∈ ranks → reports m VerdictPass) ∧
  ((group_Verdict ranks).1 = VerdictFail ↔ some VerdictFail ∧ ¬ some VerdictError) ∧
  ((group_Verdict ranks).1 = VerdictSkip ↔
     full ∧ ¬ some VerdictError ∧ ¬ some VerdictFail ∧ some VerdictSkip).
Proof. apply group_Verdict_exact. Qed.

Lemma Elect_unmeasurable key vals rv :
  rv ∈ vals → rr_Value rv = Unmeasurable → Elect key vals = None.
Proof.
  intros Hin Hv. destruct vals as [|first rest]; [done|]. unfold Elect.
  rewrite (proj2 (existsb_elem _ (first :: rest))); [done|].
  exists rv. split; [done|]. by rewrite Hv.
Qed.

(** a declaration of unmeasurability by any one rank keeps the key out of the
    group's metrics and in its unmeasurable set, whatever the others measured. *)
Theorem Combine_declared (ranks : list Rank) (m : Rank) (r : Result) (k : str) (b : bool) :
  m ∈ ranks → rk_Result m = Some r → r_Unmeasurable r !! k = Some b →
  c_Metrics (Combine ranks) !! k = None ∧ c_Unmeasurable (Combine ranks) !! k = Some true.
Proof.
  intros Hm Hr Hk. destruct (Combine_key ranks k) as (_ & -> & ->).
  assert (MkRankReading (rk_Rank m) Unmeasurable ∈ omap (rank_declared k) ranks) as Hin.
  { apply list_elem_of_omap. exists m. split; [done|]. unfold rank_declared.
    rewrite Hr. simpl. by rewrite Hk. }
  unfold readings_of. destruct (omap (rank_measured k) (rev ranks)) as [|rv l].
  { split; [done|]. by destruct (omap (rank_declared k) ranks); [apply elem_of_nil in Hin|]. }
  assert (Elect k ((rv :: l) ++ omap (rank_declared k) ranks) = None) as Hel.
  { eapply Elect_unmeasurable; [apply elem_of_app; right; exact Hin|done]. }
  destruct ((rv :: l) ++ omap (rank_declared k) ranks) eqn:EL; [done|]. by rewrite Hel.
Qed.

(** *** What an elected value means *)
Definition parsed (vals : list RankReading) (fs : list float64) : Prop :=
  Forall2 (λ rv f, ParseFloat (rr_Value rv) = (f, None)) vals fs.

Definition numbers (fs : list float64) : Prop := ∀ f, f ∈ fs → IsNaN f = false.

Definition elected (key : str) (vals : list RankReading) (v : str) : Prop :=
  match CombinationFor key with
  | CombineCollective =>
      ∃ rv, rv ∈ vals ∧ rr_Value rv = v ∧ ∀ rv', rv' ∈ vals → (rr_Rank rv <= rr_Rank rv')%Z
  | CombineUnclassified => ∀ rv, rv ∈ vals → rr_Value rv = v
  | CombineSum =>
      ∃ f fs, parsed vals (f :: fs) ∧ v = FormatFloat (fold_left fadd fs f)
  | CombineMax =>
      ∃ fs m, parsed vals fs ∧ m ∈ fs ∧ v = FormatFloat m ∧
              (numbers fs → ∀ f, f ∈ fs → fle f m = true)
  | CombineMin =>
      ∃ fs m, parsed vals fs ∧ m ∈ fs ∧ v = FormatFloat m ∧
              (numbers fs → ∀ f, f ∈ fs → fle m f = true)
  end.

Lemma scan_lowest_spec first rest low u :
  let '(low', u') := fold_left (scan_lowest first) rest (low, u) in
  low' ∈ low :: rest ∧
  (∀ rv, rv ∈ low :: rest → (rr_Rank low' <= rr_Rank rv)%Z) ∧
  (u' = true ↔ u = true ∧ ∀ rv, rv ∈ rest → rr_Value rv = rr_Value first).
Proof.
  revert low u. induction rest as [|rv rest IH]; intros low u; simpl.
  { split_and!; [by left| |].
    - intros rv Hrv. apply list_elem_of_singleton in Hrv as ->. lia.
    - setoid_rewrite elem_of_nil. naive_solver. }
  specialize (IH (if (rr_Rank rv <? rr_Rank low)%Z then rv else low)
                 (u && String.eqb (rr_Value rv) (rr_Value first))).
  unfold scan_lowest at 2. simpl.
  destruct (fold_left (scan_lowest first) rest _) as [low' u'].
  destruct IH as (IH1 & IH2 & IH3). split_and!.
  - destruct (rr_Rank rv <? rr_Rank low)%Z; set_solver.
  - intros rv' Hrv'.
    assert (rr_Rank low' <= rr_Rank (if (rr_Rank rv <? rr_Rank low)%Z then rv else low))%Z
      as Hle by (apply IH2; left).
    apply elem_of_cons in Hrv' as [->|[->|Hin]%elem_of_cons].
    + destruct (Z.ltb_spec (rr_Rank rv) (rr_Rank low)); lia.
    + destruct (Z.ltb_spec (rr_Rank rv) (rr_Rank low)); lia.
    + apply IH2. by right.
  - rewrite IH3, andb_true_iff, String.eqb_eq. setoid_rewrite elem_of_cons. naive_solver.
Qed.

Lemma combine_go_parsed c acc vals fs :
  parsed vals fs → combine_go c acc vals = Some (fold_left (combine_step c) fs acc).
Proof.
  intros H. revert acc. induction H as [|rv f vals fs H1 H IH]; intros acc; simpl; [done|].
  by rewrite H1.
Qed.

Lemma combine_go_Some c acc vals x :
  combine_go c acc vals = Some x → ∃ fs, parsed vals fs ∧ x = fold_left (combine_step c) fs acc.
Proof.
  revert acc. induction vals as [|rv vals IH]; intros acc; simpl.
  { intros [= <-]. exists []. split; [constructor|done]. }
  destruct (ParseFloat (rr_Value rv)) as [f [e|]] eqn:E; [done|]. intros H.
  destruct (IH _ H) as (fs & Hp & ->). exists (f :: fs). split; [by constructor|done].
Qed.

Lemma combineNumeric_Some c vals v :
  combineNumeric c vals = Some v ↔
  ∃ f fs, parsed vals (f :: fs) ∧ v = FormatFloat (fold_left (combine_step c) fs f).
Proof.
  unfold combineNumeric. destruct vals as [|rv vals].
  { split; [done|]. intros (f & fs & H & _). by inversion H. }
  split.
  - destruct (ParseFloat (rr_Value rv)) as [f [e|]] eqn:E; [done|].
    intros H. apply fmap_Some in H as (x & H & ->).
    apply combine_go_Some in H as (fs & Hp & ->).
    exists f, fs. split; [by constructor|done].
  - intros (f & fs & H & ->). inversion H as [|? ? ? ? Hf Hp]; subst.
    rewrite Hf. by rewrite (combine_go_parsed _ _ _ _ Hp).
Qed.

(** A loop that keeps the better of two values keeps the best of all of them. *)
Section fold_best.
Context (better le : float64 → float64 → bool) (step : float64 → float64 → float64).
Context (Hstep : ∀ acc x, step acc x = if better x acc then x else acc).
Context (Hrefl : ∀ x, IsNaN x = false → le x x = true).
Context (Htrans : ∀ x y z, IsNaN x = false → IsNaN y = false → IsNaN z = false →
  le x y = true → le y z = true → le x z = true).
Context (Hbetter : ∀ x y, IsNaN x = false → IsNaN y = false →
  if better x y then le y x = true else le x y = true).

Lemma fold_best_spec fs acc :
  let m := fold_left step fs acc in
  m ∈ acc :: fs ∧ (numbers (acc :: fs) → ∀ f, f ∈ acc :: fs → le f m = true).
Proof.
  revert acc. induction fs as [|x fs IH]; intros acc; simpl.
  { split; [by left|]. intros Hn f Hf. apply list_elem_of_singleton in Hf as ->.
    apply Hrefl, Hn. by left. }
  rewrite Hstep. destruct (IH (if better x acc then x else acc)) as [H1 H2]. split.
  - destruct (better x acc); set_solver.
  - intros Hn f Hf.
    assert (IsNaN acc = false) as Ha by (apply Hn; left).
    assert (IsNaN x = false) as Hx by (apply Hn; right; left).
    pose proof (Hbetter x acc Hx Ha) as Hb.
    set (m := fold_left _ fs _) in *.
    assert (numbers ((if better x acc then x else acc) :: fs)) as Hn'.
    { intros y Hy. apply Hn. destruct (better x acc); set_solver. }
    assert (IsNaN m = false) as Hm by (by apply Hn').
    specialize (H2 Hn').
    apply elem_of_cons in Hf as [->|[->|Hin]%elem_of_cons]; [| |apply H2; by right];
      destruct (better x acc); try (apply H2; left).
    + apply (Htrans _ x); [done..|apply H2; left].
    + apply (Htrans _ acc); [done..|apply H2; left].
Qed.
End fold_best.

Lemma fold_max_spec fs acc :
  let m := fold_left (combine_step CombineMax) fs acc in
  m ∈ acc :: fs ∧ (numbers (acc :: fs) → ∀ f, f ∈ acc :: fs → fle f m = true).
Proof.
  apply (fold_best_spec (λ x acc, flt acc x) fle);
    [done|apply fle_refl|apply fle_trans|].
  intros x y Hx Hy. rewrite flt_fle by done.
  destruct (fle x y) eqn:E; simpl; [done|]. destruct (fle_total x y); congruence.
Qed.

Lemma fold_min_spec fs acc :
  let m := fold_left (combine_step CombineMin) fs acc in
  m ∈ acc :: fs ∧ (numbers (acc :: fs) → ∀ f, f ∈ acc :: fs → fle m f = true).
Proof.
  apply (fold_best_spec flt (λ f m, fle m f)); [done|apply fle_refl| |].
  { intros x y z ??? H1 H2. by apply (fle_trans z y x). }
  intros x y Hx Hy. rewrite flt_fle by done.
  destruct (fle y x) eqn:E; simpl; [done|]. destruct (fle_total x y); congruence.
Qed.

(** [Elect] answers exactly when every reading is a measurement and the metric's
    combination has an answer, and then with such an answer. *)
Lemma Elect_spec key vals :
  (∀ v, Elect key vals = Some v → elected key vals v) ∧
  (is_Some (Elect key vals) ↔
     vals ≠ [] ∧ (∀ rv, rv ∈ vals → rr_Value rv ≠ Unmeasurable) ∧ ∃ v, elected key vals v).
Proof.
  unfold Elect, elected. generalize (CombinationFor key). clear key. intros c.
  destruct vals as [|first rest].
  { split; [done|]. split; [by intros []|by intros [? _]]. }
  destruct (existsb _ (first :: rest)) eqn:Eu.
  { split; [done|]. split; [by intros []|]. intros (_ & Hu & _).
    apply existsb_elem in Eu as (rv & Hin & Hv). apply String.eqb_eq in Hv.
    by destruct (Hu rv Hin). }
  rewrite existsb_false_elem in Eu. setoid_rewrite String.eqb_neq in Eu.
  pose proof (scan_lowest_spec first rest first true) as Hs.
  destruct (fold_left (scan_lowest first) rest (first, true)) as [low u].
  destruct Hs as (Hs1 & Hs2 & Hs3).
  destruct c.
  - assert (u = true ↔ ∃ v, ∀ rv, rv ∈ first :: rest → rr_Value rv = v) as Hu.
    { rewrite Hs3. split.
      - intros [_ H]. exists (rr_Value first). intros rv [->|?]%elem_of_cons; auto.
      - intros [v H]. split; [done|]. intros rv Hrv.
        rewrite (H rv), (H first); [done|left|by right]. }
    destruct u; split; try done.
    + intros v [= <-] rv Hrv. destruct (proj1 Hu eq_refl) as [w Hw].
      by rewrite (Hw rv), (Hw low).
    + split; [|eauto]. intros _. split_and!; [done|done|by apply Hu].
    + split; [by intros []|]. intros (_ & _ & H). by apply Hu in H.
  - split.
    + intros v [= <-]. exact (ex_intro _ low (conj Hs1 (conj eq_refl Hs2))).
    + split; [|eauto]. intros _. split_and!; [done|done|].
      exact (ex_intro _ _ (ex_intro _ low (conj Hs1 (conj eq_refl Hs2)))).
  - split.
    + intros v. rewrite combineNumeric_Some. done.
    + split.
      * intros [v H]. split_and!; [done|done|]. exists v.
        exact (proj1 (combineNumeric_Some CombineSum _ _) H).
      * intros (_ & _ & v & H). exists v.
        exact (proj2 (combineNumeric_Some CombineSum _ _) H).
  - split.
    + intros v (f & fs & Hp & ->)%combineNumeric_Some.
      destruct (fold_max_spec fs f) as [H1 H2]. by exists (f :: fs), (fold_left (combine_step CombineMax) fs f).
    + split.
      * intros [v (f & fs & Hp & ->)%combineNumeric_Some]. split_and!; [done|done|].
        destruct (fold_max_spec fs f) as [H1 H2]. eexists.
        by exists (f :: fs), (fold_left (combine_step CombineMax) fs f).
      * intros (_ & _ & v & fs & m & Hp & _ & _). inversion Hp; subst.
        eexists. apply combineNumeric_Some. eexists _, _. split; [by constructor|done].
  - split.
    + intros v (f & fs & Hp & ->)%combineNumeric_Some.
      destruct (fold_min_spec fs f) as [H1 H2]. by exists (f :: fs), (fold_left (combine_step CombineMin) fs f).
    + split.
      * intros [v (f & fs & Hp & ->)%combineNumeric_Some]. split_and!; [done|done|].
        destruct (fold_min_spec fs f) as [H1 H2]. eexists.
        by exists (f :: fs), (fold_left (combine_step CombineMin) fs f).
      * intros (_ & _ & v & fs & m & Hp & _ & _). inversion Hp; subst.
        eexists. apply combineNumeric_Some. eexists _, _. split; [by constructor|done].
Qed.

Lemma rank_measured_Some k m rv :
  rank_measured k m = Some rv ↔
  ∃ r, rk_Result m = Some r ∧ r_Metrics r !! k = Some (rr_Value rv) ∧ rr_Rank rv = rk_Rank m.
Proof.
  unfold rank_measured. destruct (rk_Result m) as [r|]; simpl; [|naive_solver].
  destruct (r_Metrics r !! k) as [v|] eqn:E; simpl; [|naive_solver].
  split; [intros [= <-]; eauto|]. intros (r' & [= <-] & E' & Hr). destruct rv; simpl in *.
  by simplify_eq.
Qed.

(** an elected metric is what its combination makes of the ranks that measured
    it, all of them and nobody else: the lowest rank's value, the common value,
    the sum, the largest or the smallest. *)
Theorem Combine_elects (ranks : list Rank) (k v : str) :
  c_Metrics (Combine ranks) !! k = Some v →
  ∃ vals,
    c_Readings (Combine ranks) !! k = Some vals ∧ elected k vals v ∧
    (∀ rv, rv ∈ vals ↔ ∃ m r, m ∈ ranks ∧ rk_Result m = Some r ∧
       r_Metrics r !! k = Some (rr_Value rv) ∧ rr_Rank rv = rk_Rank m) ∧
    (∀ m r, m ∈ ranks → rk_Result m = Some r → r_Unmeasurable r !! k = None).
Proof.
  destruct (Combine_key ranks k) as (HR & -> & _). intros H.
  destruct (Elect_spec k (readings_of k ranks)) as [He Hs].
  destruct (proj1 Hs (ex_intro _ _ H)) as (Hne & Hu & _).
  exists (readings_of k ranks). split; [|split; [by apply He|]].
  { rewrite HR. destruct (readings_of k ranks); [by destruct Hne|reflexivity]. }
  clear H He Hs HR. unfold readings_of in *.
  destruct (omap (rank_measured k) (rev ranks)) as [|rv0 l] eqn:Em; [by destruct Hne|].
  assert (∀ m, m ∈ ranks → rank_declared k m = None) as Hnd.
  { intros m Hm. apply eq_None_not_Some. intros [rv Hrv]. apply (Hu rv).
    - apply elem_of_app. right. apply list_elem_of_omap. eauto.
    - unfold rank_declared in Hrv. destruct (rk_Result m); simpl in Hrv; [|done].
      destruct (r_Unmeasurable r !! k); simpl in Hrv; [|discriminate].
      injection Hrv as <-. reflexivity. }
  split.
  - intros rv. rewrite elem_of_app, <-Em, !list_elem_of_omap.
    setoid_rewrite rank_measured_Some. split.
    + intros [(m & Hm & r & ?)|(m & Hm & Hd)].
      * exists m, r. split; [|done]. by rewrite list_elem_of_In, in_rev, <-list_elem_of_In.
      * by rewrite Hnd in Hd.
    + intros (m & r & Hm & ?). left. exists m. split; [|eauto].
      by rewrite list_elem_of_In, <-in_rev, <-list_elem_of_In.
  - intros m r Hm Hr. specialize (Hnd m Hm). unfold rank_declared in Hnd.
    rewrite Hr in Hnd. simpl in Hnd. by destruct (r_Unmeasurable r !! k).
Qed.

(** ** Witnesses *)
Definition example_rank (n : Z) (stdout : str) : Rank :=
  MkRank n "node" (Some (Parse KindNCCL stdout 0)).

Lemma Combine_declared_witness :
  c_Metrics (Combine [example_rank 0 "eccErrors=0"; example_rank 1 "eccErrors=n/a"])
    !! "eccErrors" = None.
Proof.
  refine (proj1 (Combine_declared _ (example_rank 1 "eccErrors=n/a") _ "eccErrors" true
    _ eq_refl _)); [right; left|by vm_compute].
Defined.

Lemma Combine_elects_witness :
  c_Metrics (Combine [example_rank 0 "elapsedS=3"; example_rank 1 "elapsedS=5"])
    !! "elapsedS" = Some "5" ∧
  ∃ vals, c_Readings (Combine [example_rank 0 "elapsedS=3"; example_rank 1 "elapsedS=5"])
    !! "elapsedS" = Some vals ∧ elected "elapsedS" vals "5".
Proof.
  assert (c_Metrics (Combine [example_rank 0 "elapsedS=3"; example_rank 1 "elapsedS=5"])
    !! "elapsedS" = Some "5") as H by (by vm_compute).
  split; [exact H|]. destruct (Combine_elects _ _ _ H) as (vals & H1 & H2 & _).
  exists vals. exact (conj H1 H2).
Defined.
