(* ===== verification/Api.v ===== *)
(** * api/v1alpha1: the objects the operator reads and writes

    The specs a run is planned from ([burnintest_types.go],
    [burninprofile_types.go]) and the run object itself ([burninrun_types.go]).
    Only [TestVariant]'s overlay fields tell a nil slice from an empty one, so only
    they are options of lists.  Kubernetes types the source only passes through
    (tolerations, probes, quantities) are carried as text; times are nanoseconds. *)

From S2P Require Import Prelude GoStrings GoFloat Contract.
Open Scope stdpp_scope.

(** ** Phases *)
Inductive RunPhase :=
  | RunUnset | RunPending | RunRunning | RunPassed | RunFailed | RunError
  | RunSkipped | RunCancelled.

Global Instance RunPhase_eq_dec : EqDecision RunPhase.
Proof. solve_decision. Defined.

(** [RunPhase.IsTerminal] *)
Definition IsTerminal (p : RunPhase) : bool :=
  match p with
  | RunPassed | RunFailed | RunError | RunSkipped | RunCancelled => true
  | RunUnset | RunPending | RunRunning => false
  end.

(** ** Test specs *)
Abbreviation TestScope := str.
Definition ScopeNode : TestScope := "Node".
Definition ScopePair : TestScope := "Pair".
Definition ScopeGroup : TestScope := "Group".

(** corev1.EnvVarSource, by the fields the source reads: a path of the pod, a key of a
    Secret or a ConfigMap, a resource. *)
Record KeySelector := MkKeySelector { ks_Name : str; ks_Key : str }.

Record EnvVarSource := MkEnvSource {
  es_FieldRef : option str;
  es_SecretKeyRef : option KeySelector;
  es_ConfigMapKeyRef : option KeySelector;
  es_ResourceFieldRef : option str;
}.

(** corev1.EnvVar; [MkEnvVar] is a variable with a literal value. *)
Record EnvVar := MkEnv {
  ev_Name : str;
  ev_Value : str;
  ev_ValueFrom : option EnvVarSource;
}.

Abbreviation MkEnvVar name value := (MkEnv name value None).

Record SoakSpec := MkSoak {
  so_SegmentSeconds : Z;
  so_AbortEarly : option bool;
}.

Record VendorImage := MkVendorImage { vi_Vendor : str; vi_Image : str }.

Record HostPathMount := MkHostPath {
  hp_Path : str;
  hp_MountPath : str;
  hp_ReadOnly : option bool;
  hp_Type : option str;
}.

Record PrepareStep := MkPrepare {
  ps_Image : str;
  ps_CopyFrom : str;
  ps_MountPath : str;
}.

Record RunnerSpec := MkRunner {
  rs_Image : str;
  rs_ImagesByVendor : list VendorImage;
  rs_Command : list str;
  rs_Args : list str;
  rs_Env : list EnvVar;
  rs_Privileged : bool;
  rs_RunAsUser : option Z;
  rs_Capabilities : list str;
  rs_SupplementalGroups : list Z;
  rs_PriorityClassName : str;
  rs_HostPaths : list HostPathMount;
  rs_Prepare : list PrepareStep;
  rs_ReadinessProbe : option str;
}.

(** [&RunnerSpec{}] *)
Definition emptyRunner : RunnerSpec :=
  MkRunner "" [] [] [] [] false None [] [] "" [] [] None.

Record ResourceRequirements := MkResources {
  rq_Limits : gmap str str;
  rq_Requests : gmap str str;
}.

Record BurnInTestSpec := MkTestSpec {
  ts_Kind : TestKind;
  ts_Scope : TestScope;
  ts_DurationSeconds : Z;
  ts_RepeatCount : option Z;
  ts_CheckpointIntervalSeconds : option Z;
  ts_Soak : option SoakSpec;
  ts_Runner : option RunnerSpec;
  ts_Thresholds : list Threshold;
  ts_Resources : ResourceRequirements;
  ts_HostNetwork : bool;
}.

Record TestVariant := MkVariant {
  tv_Name : str;
  tv_Axes : gmap str str;
  tv_DurationSeconds : option Z;
  tv_Args : option (list str);
  tv_Env : option (list EnvVar);
  tv_Thresholds : option (list Threshold);
  tv_RepeatCount : option Z;
}.

(** ** Profiles *)
Record ProfileTest := MkProfileTest {
  pt_TestRef : str;
  pt_Inline : option BurnInTestSpec;
  pt_Required : option bool;
  pt_Variants : list TestVariant;
}.

Record BurnInProfileSpec := MkProfile {
  pr_Tests : list ProfileTest;
  pr_FailFast : bool;
  pr_Sinks : list str;
}.

(** ** Runs *)
Inductive CancelPolicy := CancelUnset | CancelGraceful | CancelImmediate.

Global Instance CancelPolicy_eq_dec : EqDecision CancelPolicy.
Proof. solve_decision. Defined.

(** corev1.Toleration. *)
Record Toleration := MkToleration {
  to_Key : str;
  to_Operator : str;
  to_Value : str;
  to_Effect : str;
  to_Seconds : option Z;
}.

Record BurnInRunSpec := MkRunSpec {
  sp_ProfileRef : str;
  sp_TargetNodeNames : list str;
  sp_TargetNodeSelector : gmap str str;
  sp_TargetTolerations : list Toleration;
  sp_MaxConcurrentNodes : option Z;
  sp_Force : option bool;
  sp_RetryOnErrorLimit : option Z;
  sp_DeadlineSeconds : option Z;
  sp_Suspend : option bool;
  sp_Baseline : option bool;
  sp_Cancel : option bool;
  sp_CancelPolicy : CancelPolicy;
  sp_CancelReason : str;
  sp_TTLSecondsAfterFinished : option Z;
}.

Inductive AttemptTrigger :=
  AttemptInitial | AttemptRepeat | AttemptSegment | AttemptErrorRetry.

Global Instance AttemptTrigger_eq_dec : EqDecision AttemptTrigger.
Proof. solve_decision. Defined.

Record TestAttempt := MkAttempt {
  at_Attempt : Z;
  at_Trigger : AttemptTrigger;
  at_Node : str;
  at_PodName : str;
  at_Phase : RunPhase;
  at_ExitCode : option Z;
  at_StartedAt : option Z;
  at_FinishedAt : option Z;
  at_LastCheckpointAt : option Z;
  at_Metrics : gmap str str;
  at_Message : str;
}.

Record ArtifactRef := MkArtifactRef {
  ar_Name : str;
  ar_MediaType : str;
  ar_SizeBytes : Z;
  ar_Digest : str;
  ar_ConfigMap : str;
  ar_Key : str;
  ar_Dropped : str;
}.

(** [NotEvaluated], [Violation] and [AppliedGate] as the API stores them. *)
Record NotEvaluatedRef := MkNotEvaluatedRef { nr_Metric : str; nr_Reason : str }.

Record ViolationRef := MkViolationRef {
  vr_Index : Z;
  vr_Metric : str;
  vr_Cause : str;
  vr_Kind : str;
  vr_Reason : str;
}.

Record AppliedGateRef := MkAppliedRef {
  gr_Index : Z;
  gr_Metric : str;
  gr_Comparison : str;
  gr_Value : str;
}.

Record TestResult := MkResultFor {
  tr_Name : str;
  tr_Kind : TestKind;
  tr_Scope : TestScope;
  tr_Phase : RunPhase;
  tr_Nodes : list str;
  tr_StartedAt : option Z;
  tr_FinishedAt : option Z;
  tr_LastCheckpointAt : option Z;
  tr_Metrics : gmap str str;
  tr_Message : str;
  tr_Violations : list ViolationRef;
  tr_NotEvaluated : list NotEvaluatedRef;
  tr_Applied : list AppliedGateRef;
  tr_Unmeasurable : list str;
  tr_Artifacts : list ArtifactRef;
  tr_VariantAxes : gmap str str;
  tr_RepeatsRequired : Z;
  tr_RepeatsCompleted : Z;
  tr_ErrorRetries : Z;
  tr_SegmentsRequired : Z;
  tr_SegmentsCompleted : Z;
  tr_SegmentSeconds : Z;
  tr_AggregatedMetrics : gmap str str;
  tr_TruncatedAttempts : Z;
  tr_Attempts : list TestAttempt;
}.

(** [TestResult.IsSynthetic] *)
Definition IsSynthetic (r : TestResult) : bool := String.eqb (tr_Kind r) "".

Definition SyntheticResultResolve : str := "resolve".
Definition SyntheticResultAdmission : str := "admission".

(** metav1.Condition, without its times and generation. *)
Record Condition := MkCondition {
  cd_Status : bool;
  cd_Reason : str;
  cd_Message : str;
}.

Record BurnInRunStatus := MkStatus {
  st_Phase : RunPhase;
  st_Fingerprint : gmap str str;
  st_StartedAt : option Z;
  st_FinishedAt : option Z;
  st_Results : list TestResult;
  st_Passed : Z;
  st_Failed : Z;
  st_Errored : Z;
  st_Skipped : Z;
  st_CordonedNodes : list str;
  st_PriorUnschedulable : option (gmap str bool);
  st_Conditions : gmap str Condition;
}.

Record BurnInRun := MkRun {
  run_Namespace : str;
  run_Name : str;
  run_UID : str;
  run_CreatedAt : Z;
  run_DeletionTimestamp : option Z;
  run_Annotations : gmap str str;
  run_Finalizers : list str;
  run_Spec : BurnInRunSpec;
  run_Status : BurnInRunStatus;
}.

(** ** Field updates *)

(** The assignments the controller makes, one per field it writes. *)
Definition set_at_Phase (v : RunPhase) (a : TestAttempt) : TestAttempt :=
  MkAttempt (at_Attempt a) (at_Trigger a) (at_Node a) (at_PodName a) v (at_ExitCode a)
    (at_StartedAt a) (at_FinishedAt a) (at_LastCheckpointAt a) (at_Metrics a) (at_Message a).
Definition set_at_ExitCode (v : option Z) (a : TestAttempt) : TestAttempt :=
  MkAttempt (at_Attempt a) (at_Trigger a) (at_Node a) (at_PodName a) (at_Phase a) v
    (at_StartedAt a) (at_FinishedAt a) (at_LastCheckpointAt a) (at_Metrics a) (at_Message a).
Definition set_at_StartedAt (v : option Z) (a : TestAttempt) : TestAttempt :=
  MkAttempt (at_Attempt a) (at_Trigger a) (at_Node a) (at_PodName a) (at_Phase a)
    (at_ExitCode a) v (at_FinishedAt a) (at_LastCheckpointAt a) (at_Metrics a) (at_Message a).
Definition set_at_FinishedAt (v : option Z) (a : TestAttempt) : TestAttempt :=
  MkAttempt (at_Attempt a) (at_Trigger a) (at_Node a) (at_PodName a) (at_Phase a)
    (at_ExitCode a) (at_StartedAt a) v (at_LastCheckpointAt a) (at_Metrics a) (at_Message a).
Definition set_at_LastCheckpointAt (v : option Z) (a : TestAttempt) : TestAttempt :=
  MkAttempt (at_Attempt a) (at_Trigger a) (at_Node a) (at_PodName a) (at_Phase a)
    (at_ExitCode a) (at_StartedAt a) (at_FinishedAt a) v (at_Metrics a) (at_Message a).
Definition set_at_Metrics (v : gmap str str) (a : TestAttempt) : TestAttempt :=
  MkAttempt (at_Attempt a) (at_Trigger a) (at_Node a) (at_PodName a) (at_Phase a)
    (at_ExitCode a) (at_StartedAt a) (at_FinishedAt a) (at_LastCheckpointAt a) v (at_Message a).
Definition set_at_Message (v : str) (a : TestAttempt) : TestAttempt :=
  MkAttempt (at_Attempt a) (at_Trigger a) (at_Node a) (at_PodName a) (at_Phase a)
    (at_ExitCode a) (at_StartedAt a) (at_FinishedAt a) (at_LastCheckpointAt a) (at_Metrics a) v.
Definition set_at_PodName (v : str) (a : TestAttempt) : TestAttempt :=
  MkAttempt (at_Attempt a) (at_Trigger a) (at_Node a) v (at_Phase a) (at_ExitCode a)
    (at_StartedAt a) (at_FinishedAt a) (at_LastCheckpointAt a) (at_Metrics a) (at_Message a).
Definition set_tr_Phase (v : RunPhase) (r : TestResult) : TestResult :=
  MkResultFor (tr_Name r) (tr_Kind r) (tr_Scope r) v (tr_Nodes r) (tr_StartedAt r)
    (tr_FinishedAt r) (tr_LastCheckpointAt r) (tr_Metrics r) (tr_Message r) (tr_Violations r)
    (tr_NotEvaluated r) (tr_Applied r) (tr_Unmeasurable r) (tr_Artifacts r) (tr_VariantAxes r)
    (tr_RepeatsRequired r) (tr_RepeatsCompleted r) (tr_ErrorRetries r) (tr_SegmentsRequired r)
    (tr_SegmentsCompleted r) (tr_SegmentSeconds r) (tr_AggregatedMetrics r)
    (tr_TruncatedAttempts r) (tr_Attempts r).
Definition set_tr_StartedAt (v : option Z) (r : TestResult) : TestResult :=
  MkResultFor (tr_Name r) (tr_Kind r) (tr_Scope r) (tr_Phase r) (tr_Nodes r) v (tr_FinishedAt r)
    (tr_LastCheckpointAt r) (tr_Metrics r) (tr_Message r) (tr_Violations r) (tr_NotEvaluated r)
    (tr_Applied r) (tr_Unmeasurable r) (tr_Artifacts r) (tr_VariantAxes r)
    (tr_RepeatsRequired r) (tr_RepeatsCompleted r) (tr_ErrorRetries r) (tr_SegmentsRequired r)
    (tr_SegmentsCompleted r) (tr_SegmentSeconds r) (tr_AggregatedMetrics r)
    (tr_TruncatedAttempts r) (tr_Attempts r).
Definition set_tr_FinishedAt (v : option Z) (r : TestResult) : TestResult :=
  MkResultFor (tr_Name r) (tr_Kind r) (tr_Scope r) (tr_Phase r) (tr_Nodes r) (tr_StartedAt r) v
    (tr_LastCheckpointAt r) (tr_Metrics r) (tr_Message r) (tr_Violations r) (tr_NotEvaluated r)
    (tr_Applied r) (tr_Unmeasurable r) (tr_Artifacts r) (tr_VariantAxes r)
    (tr_RepeatsRequired r) (tr_RepeatsCompleted r) (tr_ErrorRetries r) (tr_SegmentsRequired r)
    (tr_SegmentsCompleted r) (tr_SegmentSeconds r) (tr_AggregatedMetrics r)
    (tr_TruncatedAttempts r) (tr_Attempts r).
Definition set_tr_LastCheckpointAt (v : option Z) (r : TestResult) : TestResult :=
  MkResultFor (tr_Name r) (tr_Kind r) (tr_Scope r) (tr_Phase r) (tr_Nodes r) (tr_StartedAt r)
    (tr_FinishedAt r) v (tr_Metrics r) (tr_Message r) (tr_Violations r) (tr_NotEvaluated r)
    (tr_Applied r) (tr_Unmeasurable r) (tr_Artifacts r) (tr_VariantAxes r)
    (tr_RepeatsRequired r) (tr_RepeatsCompleted r) (tr_ErrorRetries r) (tr_SegmentsRequired r)
    (tr_SegmentsCompleted r) (tr_SegmentSeconds r) (tr_AggregatedMetrics r)
    (tr_TruncatedAttempts r) (tr_Attempts r).
Definition set_tr_Metrics (v : gmap str str) (r : TestResult) : TestResult :=
  MkResultFor (tr_Name r) (tr_Kind r) (tr_Scope r) (tr_Phase r) (tr_Nodes r) (tr_StartedAt r)
    (tr_FinishedAt r) (tr_LastCheckpointAt r) v (tr_Message r) (tr_Violations r)
    (tr_NotEvaluated r) (tr_Applied r) (tr_Unmeasurable r) (tr_Artifacts r) (tr_VariantAxes r)
    (tr_RepeatsRequired r) (tr_RepeatsCompleted r) (tr_ErrorRetries r) (tr_SegmentsRequired r)
    (tr_SegmentsCompleted r) (tr_SegmentSeconds r) (tr_AggregatedMetrics r)
    (tr_TruncatedAttempts r) (tr_Attempts r).
Definition set_tr_Message (v : str) (r : TestResult) : TestResult :=
  MkResultFor (tr_Name r) (tr_Kind r) (tr_Scope r) (tr_Phase r) (tr_Nodes r) (tr_StartedAt r)
    (tr_FinishedAt r) (tr_LastCheckpointAt r) (tr_Metrics r) v (tr_Violations r)
    (tr_NotEvaluated r) (tr_Applied r) (tr_Unmeasurable r) (tr_Artifacts r) (tr_VariantAxes r)
    (tr_RepeatsRequired r) (tr_RepeatsCompleted r) (tr_ErrorRetries r) (tr_SegmentsRequired r)
    (tr_SegmentsCompleted r) (tr_SegmentSeconds r) (tr_AggregatedMetrics r)
    (tr_TruncatedAttempts r) (tr_Attempts r).
Definition set_tr_Violations (v : list ViolationRef) (r : TestResult) : TestResult :=
  MkResultFor (tr_Name r) (tr_Kind r) (tr_Scope r) (tr_Phase r) (tr_Nodes r) (tr_StartedAt r)
    (tr_FinishedAt r) (tr_LastCheckpointAt r) (tr_Metrics r) (tr_Message r) v
    (tr_NotEvaluated r) (tr_Applied r) (tr_Unmeasurable r) (tr_Artifacts r) (tr_VariantAxes r)
    (tr_RepeatsRequired r) (tr_RepeatsCompleted r) (tr_ErrorRetries r) (tr_SegmentsRequired r)
    (tr_SegmentsCompleted r) (tr_SegmentSeconds r) (tr_AggregatedMetrics r)
    (tr_TruncatedAttempts r) (tr_Attempts r).
Definition set_tr_NotEvaluated (v : list NotEvaluatedRef) (r : TestResult) : TestResult :=
  MkResultFor (tr_Name r) (tr_Kind r) (tr_Scope r) (tr_Phase r) (tr_Nodes r) (tr_StartedAt r)
    (tr_FinishedAt r) (tr_LastCheckpointAt r) (tr_Metrics r) (tr_Message r) (tr_Violations r) v
    (tr_Applied r) (tr_Unmeasurable r) (tr_Artifacts r) (tr_VariantAxes r)
    (tr_RepeatsRequired r) (tr_RepeatsCompleted r) (tr_ErrorRetries r) (tr_SegmentsRequired r)
    (tr_SegmentsCompleted r) (tr_SegmentSeconds r) (tr_AggregatedMetrics r)
    (tr_TruncatedAttempts r) (tr_Attempts r).
Definition set_tr_Applied (v : list AppliedGateRef) (r : TestResult) : TestResult :=
  MkResultFor (tr_Name r) (tr_Kind r) (tr_Scope r) (tr_Phase r) (tr_Nodes r) (tr_StartedAt r)
    (tr_FinishedAt r) (tr_LastCheckpointAt r) (tr_Metrics r) (tr_Message r) (tr_Violations r)
    (tr_NotEvaluated r) v (tr_Unmeasurable r) (tr_Artifacts r) (tr_VariantAxes r)
    (tr_RepeatsRequired r) (tr_RepeatsCompleted r) (tr_ErrorRetries r) (tr_SegmentsRequired r)
    (tr_SegmentsCompleted r) (tr_SegmentSeconds r) (tr_AggregatedMetrics r)
    (tr_TruncatedAttempts r) (tr_Attempts r).
Definition set_tr_Unmeasurable (v : list str) (r : TestResult) : TestResult :=
  MkResultFor (tr_Name r) (tr_Kind r) (tr_Scope r) (tr_Phase r) (tr_Nodes r) (tr_StartedAt r)
    (tr_FinishedAt r) (tr_LastCheckpointAt r) (tr_Metrics r) (tr_Message r) (tr_Violations r)
    (tr_NotEvaluated r) (tr_Applied r) v (tr_Artifacts r) (tr_VariantAxes r)
    (tr_RepeatsRequired r) (tr_RepeatsCompleted r) (tr_ErrorRetries r) (tr_SegmentsRequired r)
    (tr_SegmentsCompleted r) (tr_SegmentSeconds r) (tr_AggregatedMetrics r)
    (tr_TruncatedAttempts r) (tr_Attempts r).
Definition set_tr_TruncatedAttempts (v : Z) (r : TestResult) : TestResult :=
  MkResultFor (tr_Name r) (tr_Kind r) (tr_Scope r) (tr_Phase r) (tr_Nodes r) (tr_StartedAt r)
    (tr_FinishedAt r) (tr_LastCheckpointAt r) (tr_Metrics r) (tr_Message r) (tr_Violations r)
    (tr_NotEvaluated r) (tr_Applied r) (tr_Unmeasurable r) (tr_Artifacts r) (tr_VariantAxes r)
    (tr_RepeatsRequired r) (tr_RepeatsCompleted r) (tr_ErrorRetries r) (tr_SegmentsRequired r)
    (tr_SegmentsCompleted r) (tr_SegmentSeconds r) (tr_AggregatedMetrics r) v (tr_Attempts r).
Definition set_tr_RepeatsCompleted (v : Z) (r : TestResult) : TestResult :=
  MkResultFor (tr_Name r) (tr_Kind r) (tr_Scope r) (tr_Phase r) (tr_Nodes r) (tr_StartedAt r)
    (tr_FinishedAt r) (tr_LastCheckpointAt r) (tr_Metrics r) (tr_Message r) (tr_Violations r)
    (tr_NotEvaluated r) (tr_Applied r) (tr_Unmeasurable r) (tr_Artifacts r) (tr_VariantAxes r)
    (tr_RepeatsRequired r) v (tr_ErrorRetries r) (tr_SegmentsRequired r)
    (tr_SegmentsCompleted r) (tr_SegmentSeconds r) (tr_AggregatedMetrics r)
    (tr_TruncatedAttempts r) (tr_Attempts r).
Definition set_tr_ErrorRetries (v : Z) (r : TestResult) : TestResult :=
  MkResultFor (tr_Name r) (tr_Kind r) (tr_Scope r) (tr_Phase r) (tr_Nodes r) (tr_StartedAt r)
    (tr_FinishedAt r) (tr_LastCheckpointAt r) (tr_Metrics r) (tr_Message r) (tr_Violations r)
    (tr_NotEvaluated r) (tr_Applied r) (tr_Unmeasurable r) (tr_Artifacts r) (tr_VariantAxes r)
    (tr_RepeatsRequired r) (tr_RepeatsCompleted r) v (tr_SegmentsRequired r)
    (tr_SegmentsCompleted r) (tr_SegmentSeconds r) (tr_AggregatedMetrics r)
    (tr_TruncatedAttempts r) (tr_Attempts r).
Definition set_tr_SegmentsCompleted (v : Z) (r : TestResult) : TestResult :=
  MkResultFor (tr_Name r) (tr_Kind r) (tr_Scope r) (tr_Phase r) (tr_Nodes r) (tr_StartedAt r)
    (tr_FinishedAt r) (tr_LastCheckpointAt r) (tr_Metrics r) (tr_Message r) (tr_Violations r)
    (tr_NotEvaluated r) (tr_Applied r) (tr_Unmeasurable r) (tr_Artifacts r) (tr_VariantAxes r)
    (tr_RepeatsRequired r) (tr_RepeatsCompleted r) (tr_ErrorRetries r) (tr_SegmentsRequired r) v
    (tr_SegmentSeconds r) (tr_AggregatedMetrics r) (tr_TruncatedAttempts r) (tr_Attempts r).
Definition set_tr_AggregatedMetrics (v : gmap str str) (r : TestResult) : TestResult :=
  MkResultFor (tr_Name r) (tr_Kind r) (tr_Scope r) (tr_Phase r) (tr_Nodes r) (tr_StartedAt r)
    (tr_FinishedAt r) (tr_LastCheckpointAt r) (tr_Metrics r) (tr_Message r) (tr_Violations r)
    (tr_NotEvaluated r) (tr_Applied r) (tr_Unmeasurable r) (tr_Artifacts r) (tr_VariantAxes r)
    (tr_RepeatsRequired r) (tr_RepeatsCompleted r) (tr_ErrorRetries r) (tr_SegmentsRequired r)
    (tr_SegmentsCompleted r) (tr_SegmentSeconds r) v (tr_TruncatedAttempts r) (tr_Attempts r).
Definition set_tr_Attempts (v : list TestAttempt) (r : TestResult) : TestResult :=
  MkResultFor (tr_Name r) (tr_Kind r) (tr_Scope r) (tr_Phase r) (tr_Nodes r) (tr_StartedAt r)
    (tr_FinishedAt r) (tr_LastCheckpointAt r) (tr_Metrics r) (tr_Message r) (tr_Violations r)
    (tr_NotEvaluated r) (tr_Applied r) (tr_Unmeasurable r) (tr_Artifacts r) (tr_VariantAxes r)
    (tr_RepeatsRequired r) (tr_RepeatsCompleted r) (tr_ErrorRetries r) (tr_SegmentsRequired r)
    (tr_SegmentsCompleted r) (tr_SegmentSeconds r) (tr_AggregatedMetrics r)
    (tr_TruncatedAttempts r) v.
Definition set_tr_Artifacts (v : list ArtifactRef) (r : TestResult) : TestResult :=
  MkResultFor (tr_Name r) (tr_Kind r) (tr_Scope r) (tr_Phase r) (tr_Nodes r) (tr_StartedAt r)
    (tr_FinishedAt r) (tr_LastCheckpointAt r) (tr_Metrics r) (tr_Message r) (tr_Violations r)
    (tr_NotEvaluated r) (tr_Applied r) (tr_Unmeasurable r) v (tr_VariantAxes r)
    (tr_RepeatsRequired r) (tr_RepeatsCompleted r) (tr_ErrorRetries r) (tr_SegmentsRequired r)
    (tr_SegmentsCompleted r) (tr_SegmentSeconds r) (tr_AggregatedMetrics r)
    (tr_TruncatedAttempts r) (tr_Attempts r).
Definition set_st_Phase (v : RunPhase) (s : BurnInRunStatus) : BurnInRunStatus :=
  MkStatus v (st_Fingerprint s) (st_StartedAt s) (st_FinishedAt s) (st_Results s) (st_Passed s)
    (st_Failed s) (st_Errored s) (st_Skipped s) (st_CordonedNodes s) (st_PriorUnschedulable s)
    (st_Conditions s).
Definition set_st_StartedAt (v : option Z) (s : BurnInRunStatus) : BurnInRunStatus :=
  MkStatus (st_Phase s) (st_Fingerprint s) v (st_FinishedAt s) (st_Results s) (st_Passed s)
    (st_Failed s) (st_Errored s) (st_Skipped s) (st_CordonedNodes s) (st_PriorUnschedulable s)
    (st_Conditions s).
Definition set_st_FinishedAt (v : option Z) (s : BurnInRunStatus) : BurnInRunStatus :=
  MkStatus (st_Phase s) (st_Fingerprint s) (st_StartedAt s) v (st_Results s) (st_Passed s)
    (st_Failed s) (st_Errored s) (st_Skipped s) (st_CordonedNodes s) (st_PriorUnschedulable s)
    (st_Conditions s).
Definition set_st_Results (v : list TestResult) (s : BurnInRunStatus) : BurnInRunStatus :=
  MkStatus (st_Phase s) (st_Fingerprint s) (st_StartedAt s) (st_FinishedAt s) v (st_Passed s)
    (st_Failed s) (st_Errored s) (st_Skipped s) (st_CordonedNodes s) (st_PriorUnschedulable s)
    (st_Conditions s).
Definition set_st_CordonedNodes (v : list str) (s : BurnInRunStatus) : BurnInRunStatus :=
  MkStatus (st_Phase s) (st_Fingerprint s) (st_StartedAt s) (st_FinishedAt s) (st_Results s)
    (st_Passed s) (st_Failed s) (st_Errored s) (st_Skipped s) v (st_PriorUnschedulable s)
    (st_Conditions s).
Definition set_st_PriorUnschedulable (v : option (gmap str bool)) (s : BurnInRunStatus) : BurnInRunStatus :=
  MkStatus (st_Phase s) (st_Fingerprint s) (st_StartedAt s) (st_FinishedAt s) (st_Results s)
    (st_Passed s) (st_Failed s) (st_Errored s) (st_Skipped s) (st_CordonedNodes s) v
    (st_Conditions s).
Definition set_st_Fingerprint (v : gmap str str) (s : BurnInRunStatus) : BurnInRunStatus :=
  MkStatus (st_Phase s) v (st_StartedAt s) (st_FinishedAt s) (st_Results s) (st_Passed s)
    (st_Failed s) (st_Errored s) (st_Skipped s) (st_CordonedNodes s) (st_PriorUnschedulable s)
    (st_Conditions s).
Definition set_st_Conditions (v : gmap str Condition) (s : BurnInRunStatus) : BurnInRunStatus :=
  MkStatus (st_Phase s) (st_Fingerprint s) (st_StartedAt s) (st_FinishedAt s) (st_Results s)
    (st_Passed s) (st_Failed s) (st_Errored s) (st_Skipped s) (st_CordonedNodes s)
    (st_PriorUnschedulable s) v.
Definition set_run_DeletionTimestamp (v : option Z) (run : BurnInRun) : BurnInRun :=
  MkRun (run_Namespace run) (run_Name run) (run_UID run) (run_CreatedAt run) v
    (run_Annotations run) (run_Finalizers run) (run_Spec run) (run_Status run).
Definition set_run_Annotations (v : gmap str str) (run : BurnInRun) : BurnInRun :=
  MkRun (run_Namespace run) (run_Name run) (run_UID run) (run_CreatedAt run)
    (run_DeletionTimestamp run) v (run_Finalizers run) (run_Spec run) (run_Status run).
Definition set_run_Finalizers (v : list str) (run : BurnInRun) : BurnInRun :=
  MkRun (run_Namespace run) (run_Name run) (run_UID run) (run_CreatedAt run)
    (run_DeletionTimestamp run) (run_Annotations run) v (run_Spec run) (run_Status run).
Definition set_run_Status (v : BurnInRunStatus) (run : BurnInRun) : BurnInRun :=
  MkRun (run_Namespace run) (run_Name run) (run_UID run) (run_CreatedAt run)
    (run_DeletionTimestamp run) (run_Annotations run) (run_Finalizers run) (run_Spec run) v.
