(* ===== verification/Plan.v ===== *)
(** * pkg/plan: variants, axes and the refusals both dispatchers share

    A profile entry becomes one [Test] per variant ([ExpandVariants]); a cell's
    axes become environment variables ([VariantEnv]).  An error is the message
    itself: [None] is Go's nil error. *)

From S2P Require Import Prelude GoStrings GoFloat Contract Api.
From Stdlib Require Import Ascii.
Open Scope stdpp_scope.

Record Test := MkTest {
  te_Name : str;
  te_Required : bool;
  te_Spec : BurnInTestSpec;
  te_Axes : gmap str str;
  te_Parent : str;
}.

(** [CopyAxes]: values are immutable, so the copy is the map; nil and empty are
    the same to every reader. *)
Definition CopyAxes (axes : gmap str str) : gmap str str := axes.

(** ** Expansion *)

(** The defaulted scope, before any overlay. *)
Definition default_scope (spec : BurnInTestSpec) : BurnInTestSpec :=
  if String.eqb (ts_Scope spec) "" then
    MkTestSpec (ts_Kind spec) ScopeNode (ts_DurationSeconds spec) (ts_RepeatCount spec)
      (ts_CheckpointIntervalSeconds spec) (ts_Soak spec) (ts_Runner spec)
      (ts_Thresholds spec) (ts_Resources spec) (ts_HostNetwork spec)
  else spec.

(** The runner block a variant's cell ends up with. *)
Definition overlay_runner (v : TestVariant) (r : option RunnerSpec) : option RunnerSpec :=
  match tv_Args v, tv_Env v with
  | None, None => r
  | args, env =>
      let r := default emptyRunner r in
      Some (MkRunner (rs_Image r) (rs_ImagesByVendor r) (rs_Command r)
              (default (rs_Args r) args) (default (rs_Env r) env) (rs_Privileged r)
              (rs_RunAsUser r) (rs_Capabilities r) (rs_SupplementalGroups r)
              (rs_PriorityClassName r) (rs_HostPaths r) (rs_Prepare r)
              (rs_ReadinessProbe r))
  end.

Definition overlay (spec : BurnInTestSpec) (v : TestVariant) : BurnInTestSpec :=
  MkTestSpec (ts_Kind spec) (ts_Scope spec)
    (default (ts_DurationSeconds spec) (tv_DurationSeconds v))
    (match tv_RepeatCount v with Some n => Some n | None => ts_RepeatCount spec end)
    (ts_CheckpointIntervalSeconds spec) (ts_Soak spec)
    (overlay_runner v (ts_Runner spec))
    (default (ts_Thresholds spec) (tv_Thresholds v))
    (ts_Resources spec) (ts_HostNetwork spec).

Definition ExpandVariants (name : str) (spec : BurnInTestSpec) (required : bool)
    (variants : list TestVariant) : list Test :=
  let spec := default_scope spec in
  match variants with
  | [] => [MkTest name required spec ∅ ""]
  | _ =>
      (λ v, MkTest (name +:+ "-" +:+ tv_Name v) required (overlay spec v)
              (CopyAxes (tv_Axes v)) name) <$> variants
  end.

(** ** Axes *)
Definition VariantEnvName (axis : str) : str := "BURNIN_VARIANT_" +:+ ToUpper axis.

Definition axis_start (c : ascii) : bool := is_lower c || is_upper c || Ascii.eqb c "_".

Definition EnvSafeAxis (name : str) : bool :=
  match name with
  | EmptyString => false
  | String c s => axis_start c && all_chars (λ c, axis_start c || is_digit c) s
  end.

(** Sorted keys: a Go map has no order of its own. *)
Definition SortedAxisKeys (axes : gmap str str) : list str :=
  sort_strings (map_to_list axes).*1.

Definition VariantEnv (axes : gmap str str) : list EnvVar :=
  omap (λ k, (λ v, MkEnvVar (VariantEnvName k) v) <$> axes !! k)
    (sort_strings (List.filter EnvSafeAxis (map_to_list axes).*1)).

(** ** Refusals *)
Definition unreachable_axis (t : Test) : option str :=
  list_first (λ k, negb (EnvSafeAxis k)) (SortedAxisKeys (te_Axes t)).

Definition unreachable_message (t : Test) (k : str) : str :=
  "test " +:+ quote (te_Name t) +:+ " declares variant axis " +:+ quote k +:+
  ", which cannot become an environment variable, so the runner would never receive it: the cell would run the default configuration while the run reported it under this axis label, and any threshold on the cell would gate a measurement nobody asked for. An axis name must be letters, digits and underscores, and must not start with a digit (it becomes " +:+
  VariantEnvName "<name>" +:+ ")".

Definition RefuseUnreachableAxes (tests : list Test) : option str :=
  match list_first (λ t, bool_decide (is_Some (unreachable_axis t))) tests with
  | Some t => unreachable_message t <$> unreachable_axis t
  | None => None
  end.

Definition powerless_capabilities (t : Test) : bool :=
  match ts_Runner (te_Spec t) with
  | None => false
  | Some r =>
      match rs_Capabilities r with
      | [] => false
      | _ => negb (bool_decide (rs_RunAsUser r = Some 0%Z))
      end
  end.

Definition RefuseCapabilitiesWithoutRunAsUserZero (tests : list Test) : option str :=
  let bad := (λ t, "test " +:+ quote (te_Name t)) <$> List.filter powerless_capabilities tests in
  match bad with
  | [] => None
  | _ =>
      Some (Itoa (Z.of_nat (length bad)) +:+
        " test(s) set spec.runner.capabilities without spec.runner.runAsUser: 0, so the run is refused before any node is touched — a capability added to the bounding set does nothing for a non-root uid without ambient capabilities, and this would produce a probe that silently reads nothing rather than an error naming why: " +:+
        Join bad "; ")
  end.

(** ** Properties *)

(** *** Expansion *)

(** every cell inherits what its variant leaves unset and takes what it sets;
    nothing leaks from one cell to the next, and the scope is never empty. *)
Theorem ExpandVariants_cell (name : str) (spec : BurnInTestSpec) (required : bool)
    (variants : list TestVariant) (i : nat) (t : Test) :
  ExpandVariants name spec required variants !! i = Some t →
  te_Required t = required ∧
  ts_Scope (te_Spec t) = (if String.eqb (ts_Scope spec) "" then ScopeNode else ts_Scope spec) ∧
  ts_Kind (te_Spec t) = ts_Kind spec ∧ ts_Soak (te_Spec t) = ts_Soak spec ∧
  (variants = [] → i = 0%nat ∧ te_Name t = name ∧ te_Parent t = "" ∧
     te_Spec t = default_scope spec) ∧
  (∀ v, variants !! i = Some v →
     te_Name t = name +:+ "-" +:+ tv_Name v ∧ te_Parent t = name ∧ te_Axes t = tv_Axes v ∧
     ts_Thresholds (te_Spec t) = default (ts_Thresholds spec) (tv_Thresholds v) ∧
     ts_DurationSeconds (te_Spec t) = default (ts_DurationSeconds spec) (tv_DurationSeconds v) ∧
     (tv_Args v = None → tv_Env v = None → ts_Runner (te_Spec t) = ts_Runner spec) ∧
     (∀ a, tv_Args v = Some a → rs_Args <$> ts_Runner (te_Spec t) = Some a) ∧
     (∀ e, tv_Env v = Some e → rs_Env <$> ts_Runner (te_Spec t) = Some e)).
Proof.
  assert (∀ s, ts_Scope (default_scope s) =
    (if String.eqb (ts_Scope s) "" then ScopeNode else ts_Scope s)) as Hs.
  { intros s. unfold default_scope. by destruct (String.eqb (ts_Scope s) "") eqn:E. }
  assert (∀ (A : Type) (f : BurnInTestSpec → A),
    (∀ k sc d r c so ru th re h sc', f (MkTestSpec k sc d r c so ru th re h) =
       f (MkTestSpec k sc' d r c so ru th re h)) → ∀ s, f (default_scope s) = f s) as Hf.
  { intros A f H s. unfold default_scope. destruct (String.eqb (ts_Scope s) ""); [|done].
    destruct s. apply H. }
  unfold ExpandVariants. destruct variants as [|v0 vs].
  - intros H. destruct i as [|i]; [|done]. simplify_eq/=.
    rewrite Hs, !(Hf _ ts_Kind), !(Hf _ ts_Soak) by done.
    split_and!; try done.
  - rewrite list_lookup_fmap. intros H. apply fmap_Some in H as (v & Hv & ->). simpl.
    rewrite Hs, !(Hf _ ts_Kind), !(Hf _ ts_Soak), !(Hf _ ts_Runner), !(Hf _ ts_Thresholds),
      !(Hf _ ts_DurationSeconds) by done.
    split_and!; try done. intros v' Hv'.
    assert (v' = v) as -> by congruence. unfold overlay_runner.
    split_and!; try done.
    + by intros -> ->.
    + intros a ->. by destruct (tv_Env v).
    + intros e ->. by destruct (tv_Args v).
Qed.

(** *** Axes and the environment *)

Lemma keys_elem (axes : gmap str str) k : k ∈ (map_to_list axes).*1 ↔ is_Some (axes !! k).
Proof.
  rewrite list_elem_of_fmap. split.
  - intros ([k' v] & -> & H). apply elem_of_map_to_list in H. by exists v.
  - intros [v Hv]. exists (k, v). split; [done|]. by apply elem_of_map_to_list.
Qed.

Lemma unreachable_axis_None t :
  unreachable_axis t = None ↔ ∀ k, is_Some (te_Axes t !! k) → EnvSafeAxis k = true.
Proof.
  unfold unreachable_axis, SortedAxisKeys. rewrite list_first_None.
  setoid_rewrite sort_strings_elem. setoid_rewrite keys_elem.
  by setoid_rewrite negb_false_iff.
Qed.

Lemma RefuseUnreachableAxes_None tests :
  RefuseUnreachableAxes tests = None ↔
  ∀ t k, t ∈ tests → is_Some (te_Axes t !! k) → EnvSafeAxis k = true.
Proof.
  unfold RefuseUnreachableAxes.
  destruct (list_first _ tests) as [t|] eqn:E.
  - apply list_first_Some in E as [Hin Ht]. apply bool_decide_eq_true in Ht.
    destruct Ht as [k Hk]. rewrite Hk. simpl. split; [done|]. intros H.
    assert (unreachable_axis t = None) as Hn by (apply unreachable_axis_None; eauto).
    congruence.
  - rewrite list_first_None in E. split; [|done]. intros _ t k Ht.
    specialize (E t Ht). apply bool_decide_eq_false, eq_None_not_Some in E.
    revert k. by apply unreachable_axis_None.
Qed.

Lemma VariantEnv_elem axes e :
  e ∈ VariantEnv axes ↔
  ∃ k v, axes !! k = Some v ∧ EnvSafeAxis k = true ∧ e = MkEnvVar (VariantEnvName k) v.
Proof.
  unfold VariantEnv. rewrite list_elem_of_omap. setoid_rewrite sort_strings_elem. split.
  - intros (k & Hk & He). apply fmap_Some in He as (v & Hv & ->).
    apply list_elem_of_In, filter_In in Hk as [_ Hs]. eauto.
  - intros (k & v & Hv & Hs & ->). exists k. split; [|by rewrite Hv].
    apply list_elem_of_In, filter_In. split; [|done].
    apply list_elem_of_In, keys_elem. by eexists.
Qed.

Lemma VariantEnvName_ToUpper k1 k2 :
  VariantEnvName k1 = VariantEnvName k2 ↔ ToUpper k1 = ToUpper k2.
Proof. unfold VariantEnvName. split; [|by intros ->]. intros H. by simplify_eq/=. Qed.

Lemma NoDup_omap_inj {A B} (f : A → option B) (l : list A) :
  (∀ x y z, x ∈ l → y ∈ l → f x = Some z → f y = Some z → x = y) →
  NoDup l → NoDup (omap f l).
Proof.
  intros Hinj. induction 1 as [|x l Hx Hl IH]; [constructor|]. simpl.
  assert (NoDup (omap f l)) as Hrec by (apply IH; intros; eapply Hinj; try done; by right).
  destruct (f x) as [z|] eqn:E; [|done]. constructor; [|done].
  intros (y & Hy & Hf)%list_elem_of_omap. destruct Hx.
  by rewrite (Hinj x y z) by (done || (by left) || by right).
Qed.

(** once the plan is accepted, every axis of every cell reaches its runner, under
    one variable that no other axis shares unless the two differ only in case. *)
Theorem VariantEnv_faithful (tests : list Test) (t : Test) :
  RefuseUnreachableAxes tests = None → t ∈ tests →
  (∀ k v, te_Axes t !! k = Some v → MkEnvVar (VariantEnvName k) v ∈ VariantEnv (te_Axes t)) ∧
  (∀ e, e ∈ VariantEnv (te_Axes t) →
     ∃ k, te_Axes t !! k = Some (ev_Value e) ∧ ev_Name e = VariantEnvName k) ∧
  ((∀ k1 k2, is_Some (te_Axes t !! k1) → is_Some (te_Axes t !! k2) →
      ToUpper k1 = ToUpper k2 → k1 = k2) →
   NoDup (ev_Name <$> VariantEnv (te_Axes t))).
Proof.
  rewrite RefuseUnreachableAxes_None. intros Hr Ht. split_and!.
  - intros k v Hk. apply VariantEnv_elem. exists k, v. eauto.
  - intros e (k & v & Hk & _ & ->)%VariantEnv_elem. by exists k.
  - intros Hinj. unfold VariantEnv. rewrite list_fmap_omap.
    assert (∀ k, k ∈ sort_strings (List.filter EnvSafeAxis (map_to_list (te_Axes t)).*1) →
              is_Some (te_Axes t !! k)) as Hkeys.
    { intros k. rewrite sort_strings_elem, list_elem_of_In, filter_In, <-list_elem_of_In.
      rewrite keys_elem. by intros [? _]. }
    apply NoDup_omap_inj.
    + intros x y z Hx%Hkeys Hy%Hkeys Hfx Hfy.
      apply Hinj; [done..|]. apply VariantEnvName_ToUpper.
      apply fmap_Some in Hfx as (ex & Hfx & ->), Hfy as (ey & Hfy & Hz).
      apply fmap_Some in Hfx as (vx & _ & ->), Hfy as (vy & _ & ->). exact Hz.
    + rewrite sort_strings_perm. apply NoDup_ListNoDup, List.NoDup_filter, NoDup_ListNoDup.
      apply NoDup_fst_map_to_list.
Qed.

(** upper-casing is a mangling too: a plan nothing refuses can hand a runner the
    same variable twice, with the values of two different axes. *)
Theorem VariantEnv_collision :
  ∃ tests t, t ∈ tests ∧ RefuseUnreachableAxes tests = None ∧
    VariantEnv (te_Axes t) =
      [MkEnvVar "BURNIN_VARIANT_PRECISION" "fp8"; MkEnvVar "BURNIN_VARIANT_PRECISION" "fp4"].
Proof.
  set (spec := MkTestSpec KindGemmSweep ScopeNode 60 None None None None []
                 (MkResources ∅ ∅) false).
  set (t := MkTest "sweep-a" true spec {["precision" := "fp4"; "Precision" := "fp8"]} "sweep").
  exists [t], t. split_and!; [left|by vm_compute..].
Qed.

(** *** Refused capabilities *)

(** capabilities are refused unless the runner's uid is pinned to zero. *)
Lemma capabilities_need_root (tests : list Test) :
  RefuseCapabilitiesWithoutRunAsUserZero tests = None ↔
  ∀ t r, t ∈ tests → ts_Runner (te_Spec t) = Some r → rs_Capabilities r ≠ [] →
    rs_RunAsUser r = Some 0%Z.
Proof.
  assert (RefuseCapabilitiesWithoutRunAsUserZero tests = None ↔
          List.filter powerless_capabilities tests = []) as ->.
  { unfold RefuseCapabilitiesWithoutRunAsUserZero.
    by destruct (List.filter powerless_capabilities tests). }
  transitivity (∀ t, t ∈ tests → powerless_capabilities t = false).
  - induction tests as [|t ts IH]; simpl; [split; [by intros _ ? ?%elem_of_nil|done]|].
    setoid_rewrite elem_of_cons. destruct (powerless_capabilities t) eqn:E.
    + split; [done|]. intros H. rewrite H in E by auto. done.
    + rewrite IH. naive_solver.
  - unfold powerless_capabilities. split; intros H t.
    + intros r Ht Hr Hc. specialize (H t Ht). rewrite Hr in H.
      destruct (rs_Capabilities r); [done|].
      apply negb_false_iff, bool_decide_eq_true in H. done.
    + intros Ht. destruct (ts_Runner (te_Spec t)) as [r|] eqn:Hr; [|done].
      destruct (rs_Capabilities r) eqn:Hc; [done|].
      apply negb_false_iff, bool_decide_eq_true. apply (H t); [done..|]. by rewrite Hc.
Qed.

(** ** Witnesses *)
Definition example_spec : BurnInTestSpec :=
  MkTestSpec KindGemmSweep "" 60 None None None None
    [MkThreshold "gemmTflops" GTE "10" Required] (MkResources ∅ ∅) false.
Definition example_variants : list TestVariant :=
  [MkVariant "fp8" {["precision" := "fp8"]} None None
     (Some [MkEnvVar "PRECISION" "fp8"]) None None;
   MkVariant "fp4" {["precision" := "fp4"]} (Some 30%Z) None None (Some []) None].

Lemma ExpandVariants_cell_witness :
  ∃ t, ExpandVariants "gemm" example_spec true example_variants !! 1%nat = Some t ∧
    te_Name t = "gemm-fp4" ∧ ts_Thresholds (te_Spec t) = [] ∧ ts_Scope (te_Spec t) = ScopeNode.
Proof.
  destruct (ExpandVariants "gemm" example_spec true example_variants !! 1%nat) as [t|] eqn:E;
    [|discriminate E].
  exists t. destruct (ExpandVariants_cell _ _ _ _ _ _ E) as (_ & H1 & _ & _ & _ & H2).
  destruct (H2 _ eq_refl) as (H3 & _ & _ & H4 & _).
  split; [reflexivity|]. split; [exact H3|]. split; [exact H4|exact H1].
Defined.

Definition example_test : Test :=
  MkTest "gemm-fp8" true example_spec {["precision" := "fp8"]} "gemm".

Lemma VariantEnv_faithful_witness :
  RefuseUnreachableAxes [example_test] = None ∧
  MkEnvVar "BURNIN_VARIANT_PRECISION" "fp8" ∈ VariantEnv (te_Axes example_test).
Proof.
  assert (RefuseUnreachableAxes [example_test] = None) as H by (by vm_compute).
  split; [exact H|].
  exact (proj1 (VariantEnv_faithful _ example_test H (list_elem_of_here _ _)) "precision" "fp8"
           eq_refl).
Defined.
