(* ===== verification/Soak.v ===== *)
(** * internal/controller/soak.go: segmented soaks

    A soak is cut into windows ([segmentsRequired]); each clean window is folded
    into an aggregate ([foldMetrics], [foldUnmeasurable]); a violation of the
    aggregate may end the soak early only when no later window can retract it
    ([provableViolations]); the attempt history is bounded ([truncateAttempts]). *)

From S2P Require Import Prelude GoStrings GoFloat Contract Registry Runner Verdict Api Plan.
Open Scope stdpp_scope.

Definition defaultDurationSeconds : Z := 600.
Definition minSegmentSeconds : Z := 300.
Definition keptPassingSegments : nat := 16.

(** [repeatsRequired] (plan.go) *)
Definition repeatsRequired (spec : BurnInTestSpec) : Z :=
  match ts_RepeatCount spec with
  | Some n => if (n <? 1)%Z then 1 else n
  | None => 1
  end.

(** ** Windows *)
Definition segmentSeconds (spec : BurnInTestSpec) : Z :=
  match ts_Soak spec with
  | None => 0
  | Some s => if (so_SegmentSeconds s <=? 0)%Z then 0 else so_SegmentSeconds s
  end.

Definition segmentsRequired (spec : BurnInTestSpec) : Z :=
  let seg := segmentSeconds spec in
  if (seg <=? 0)%Z then 0
  else
    let duration :=
      if (ts_DurationSeconds spec <=? 0)%Z then defaultDurationSeconds
      else ts_DurationSeconds spec in
    let n := Z.quot duration seg in
    let n := if (Z.rem duration seg =? 0)%Z then n else i32 (n + 1) in
    if (n <? 1)%Z then 1 else n.

Definition abortEarly (spec : BurnInTestSpec) : bool :=
  match ts_Soak spec with
  | Some s => default false (so_AbortEarly s)
  | None => false
  end.

Definition executionDurationSeconds (spec : BurnInTestSpec) : Z :=
  let seg := segmentSeconds spec in
  if (0 <? seg)%Z then seg
  else if (0 <? ts_DurationSeconds spec)%Z then ts_DurationSeconds spec
  else defaultDurationSeconds.

(** ** Folding *)
Definition finiteValue (raw : str) : option float64 :=
  match ParseFloat raw with
  | (v, None) => if IsNaN v || IsInf v then None else Some v
  | (_, Some _) => None
  end.

Definition combineMetric (rule : Aggregation) (prior next : str) : str :=
  match rule with
  | AggSum | AggMin | AggMax =>
      match finiteValue prior with
      | None => prior
      | Some a =>
          match finiteValue next with
          | None => next
          | Some b =>
              match rule with
              | AggSum => FormatFloat (fadd a b)
              | AggMin => if flt b a then next else prior
              | AggMax => if flt a b then next else prior
              | _ => next
              end
          end
      end
  | AggUnspecified | AggLast => next
  end.

(** One iteration of foldMetrics's second loop. *)
Definition fold_one (name raw : str) (out : gmap str str) : gmap str str :=
  match out !! name with
  | None => <[name := raw]> out
  | Some prior => <[name := combineMetric (AggregationFor name) prior raw]> out
  end.

Definition foldMetrics (agg next : gmap str str) : gmap str str :=
  if bool_decide (next = ∅) then agg else map_fold fold_one agg next.

Definition foldUnmeasurable (prior : list str) (declared : gmap str bool)
    (agg : gmap str str) : list str :=
  let set := map_fold (λ name _ set, {[name]} ∪ set) (list_to_set prior) declared : gset str in
  sort_strings (List.filter (λ name, negb (bool_decide (is_Some (agg !! name)))) (elements set)).

Definition unmeasurableSet (names : list str) : gmap str bool :=
  fold_left (λ out name, <[name := true]> out) names ∅.

(** ** Aborting early *)
Definition monotoneBreach (agg : gmap str str) (th : Threshold) : bool :=
  match AggregationFor (t_Metric th) with
  | AggSum =>
      if String.eqb (t_Comparison th) LTE then true
      else if String.eqb (t_Comparison th) EQ then
        match finiteValue (default "" (agg !! t_Metric th)), finiteValue (t_Value th) with
        | Some got, Some want => flt want got
        | _, _ => false
        end
      else false
  | AggMin => String.eqb (t_Comparison th) GTE
  | AggMax => String.eqb (t_Comparison th) LTE
  | AggUnspecified | AggLast => false
  end.

Definition provable (agg : gmap str str) (thresholds : list Threshold) (v : Violation) : bool :=
  bool_decide (v_Cause v = CauseMeasurement) &&
  match thresholds !! v_Index v with
  | Some th => monotoneBreach agg th
  | None => false
  end.

Definition provableViolations (agg : gmap str str) (out : Outcome)
    (thresholds : list Threshold) : list Violation :=
  List.filter (provable agg thresholds) (o_Violations out).

(** ** Attempt history *)

Definition passed (a : TestAttempt) : bool := bool_decide (at_Phase a = RunPassed).

(** First loop: the passing attempts past the first, by index. *)
Fixpoint passing_from (i : nat) (attempts : list TestAttempt) : list nat :=
  match attempts with
  | [] => []
  | a :: attempts =>
      (if negb (i =? 0)%nat && passed a then [i] else []) ++ passing_from (S i) attempts
  end.

(** Second loop: the attempts whose index is not dropped. *)
Fixpoint keep_from (i : nat) (dropped : list nat) (attempts : list TestAttempt)
    : list TestAttempt :=
  match attempts with
  | [] => []
  | a :: attempts =>
      if bool_decide (i ∈ dropped) then keep_from (S i) dropped attempts
      else a :: keep_from (S i) dropped attempts
  end.

(** The attempts [truncateAttempts] keeps, and how many it drops. *)
Definition kept_attempts (attempts : list TestAttempt) : list TestAttempt * nat :=
  let passing := passing_from 0 attempts in
  let drop := (length passing - keptPassingSegments)%nat in
  (keep_from 0 (list.take drop passing) attempts, drop).

Definition truncateAttempts (res : TestResult) : TestResult :=
  if (tr_SegmentsRequired res <=? 0)%Z ||
     (length (tr_Attempts res) <=? keptPassingSegments + 1)%nat then res
  else
    let '(kept, drop) := kept_attempts (tr_Attempts res) in
    if (drop =? 0)%nat then res
    else
      set_tr_Attempts kept
        (set_tr_TruncatedAttempts (i32 (tr_TruncatedAttempts res + Z.of_nat drop)) res).

(** ** Plan-time refusals *)
Definition validateSoak (t : Test) : option str :=
  let q := quote (te_Name t) in
  let spec := te_Spec t in
  match ts_Soak spec with
  | None => None
  | Some s =>
      if BurstOnly (ts_Kind spec) then
        Some ("test " +:+ q +:+ " sets spec.soak but kind " +:+ quote (ts_Kind spec) +:+
          " is burst-only: its runner does one bounded burst of work and ignores BURNIN_DURATION_SECONDS entirely, so segmenting it would run the same millisecond-long measurement over and over and report it as a soak. Pair it with a duration-bearing kind in the profile instead — a burst is a correctness gate and a soak is a different test")
      else if (so_SegmentSeconds s <? minSegmentSeconds)%Z then
        Some ("test " +:+ q +:+ " sets spec.soak.segmentSeconds to " +:+
          Itoa (so_SegmentSeconds s) +:+ ", below the " +:+ Itoa minSegmentSeconds +:+
          "-second floor — a segment boundary costs a pod teardown, a pod creation and a scheduling round-trip, and below that the run spends more time changing pods than measuring hardware")
      else if (ts_DurationSeconds spec <=? 0)%Z then
        Some ("test " +:+ q +:+
          " sets spec.soak but no spec.durationSeconds — a soak that does not say how long it soaks cannot be divided into segments, and defaulting it would decide the length of somebody's burn-in for them")
      else if (ts_DurationSeconds spec <? so_SegmentSeconds s)%Z then
        Some ("test " +:+ q +:+ " asks for " +:+ Itoa (so_SegmentSeconds s) +:+
          "-second segments of a " +:+ Itoa (ts_DurationSeconds spec) +:+
          "-second soak — a segment longer than the soak is a soak that burns the fleet longer than it was asked to; lower spec.soak.segmentSeconds, or raise spec.durationSeconds to what you actually want burned in")
      else if (1 <? repeatsRequired spec)%Z then
        Some ("test " +:+ q +:+ " sets both spec.soak and spec.repeatCount " +:+
          Itoa (repeatsRequired spec) +:+
          ", and this operator will not guess which one the verdict is about — a repeat re-runs a whole test and ANDs the verdicts, while a segment is one window of a single verdict rendered over the aggregate. Express the length you want as spec.durationSeconds and leave repeatCount at 1")
      else None
  end.

(** ** Properties *)

(** *** Windows *)

(** an accepted soak is cut into windows of one length that together last at least
    as long as was asked and overrun by less than one window. *)
Theorem validateSoak_windows (t : Test) (s : SoakSpec) :
  validateSoak t = None → ts_Soak (te_Spec t) = Some s →
  int32_range (ts_DurationSeconds (te_Spec t)) →
  let n := segmentsRequired (te_Spec t) in
  executionDurationSeconds (te_Spec t) = so_SegmentSeconds s ∧
  (minSegmentSeconds <= so_SegmentSeconds s)%Z ∧ (1 <= n)%Z ∧
  (ts_DurationSeconds (te_Spec t) <= n * so_SegmentSeconds s)%Z ∧
  (n * so_SegmentSeconds s < ts_DurationSeconds (te_Spec t) + so_SegmentSeconds s)%Z ∧
  repeatsRequired (te_Spec t) = 1%Z ∧ BurstOnly (ts_Kind (te_Spec t)) = false.
Proof.
  unfold validateSoak. intros Hv Hs Hr. rewrite Hs in Hv.
  destruct (BurstOnly (ts_Kind (te_Spec t))) eqn:Hb; [done|].
  destruct (Z.ltb_spec (so_SegmentSeconds s) minSegmentSeconds) as [|Hmin]; [done|].
  destruct (Z.leb_spec (ts_DurationSeconds (te_Spec t)) 0) as [|Hd]; [done|].
  destruct (Z.ltb_spec (ts_DurationSeconds (te_Spec t)) (so_SegmentSeconds s)) as [|Hle]; [done|].
  destruct (Z.ltb_spec 1 (repeatsRequired (te_Spec t))) as [|Hrep]; [done|].
  unfold segmentsRequired, executionDurationSeconds, segmentSeconds. rewrite Hs.
  unfold minSegmentSeconds, int32_range in *.
  rewrite (proj2 (Z.leb_gt (so_SegmentSeconds s) 0)) by lia.
  rewrite (proj2 (Z.leb_gt (so_SegmentSeconds s) 0)) by lia.
  rewrite (proj2 (Z.leb_gt (ts_DurationSeconds (te_Spec t)) 0)) by lia.
  rewrite (proj2 (Z.ltb_lt 0 (so_SegmentSeconds s))) by lia.
  set (d := ts_DurationSeconds (te_Spec t)) in *. set (seg := so_SegmentSeconds s) in *.
  assert (1 <= repeatsRequired (te_Spec t))%Z.
  { unfold repeatsRequired. destruct (ts_RepeatCount _) as [n|]; [|lia].
    destruct (Z.ltb_spec n 1); lia. }
  rewrite Z.quot_div_nonneg, Z.rem_mod_nonneg by lia.
  pose proof (Z.div_mod d seg ltac:(lia)) as Hdm.
  pose proof (Z.mod_pos_bound d seg ltac:(lia)) as Hmod.
  assert (1 <= d / seg)%Z by (apply Z.div_le_lower_bound; lia).
  assert (d / seg < d)%Z by (apply Z.div_lt; lia).
  destruct (Z.eqb_spec (d mod seg) 0).
  - rewrite (proj2 (Z.ltb_ge (d / seg) 1)) by lia. nia.
  - rewrite i32_small by (unfold int32_range; lia).
    rewrite (proj2 (Z.ltb_ge (d / seg + 1) 1)) by lia. nia.
Qed.

(** *** Folding *)
Lemma finiteValue_Some raw x :
  finiteValue raw = Some x ↔ ParseFloat raw = (x, None) ∧ is_finite x = true.
Proof.
  unfold finiteValue, is_finite. destruct (ParseFloat raw) as [y [e|]]; [naive_solver|].
  destruct (IsNaN y || IsInf y) eqn:E; split.
  - done.
  - intros [H1 H2]. assert (x = y) as -> by congruence. by rewrite E in H2.
  - intros H. assert (x = y) as -> by congruence. by rewrite E.
  - intros [H _]. congruence.
Qed.

Lemma foldMetrics_lookup agg next name :
  foldMetrics agg next !! name =
  match next !! name, agg !! name with
  | None, a => a
  | Some raw, None => Some raw
  | Some raw, Some prior => Some (combineMetric (AggregationFor name) prior raw)
  end.
Proof.
  unfold foldMetrics. case_bool_decide as E; [by rewrite E, lookup_empty|]. clear E.
  revert name. apply (map_fold_weak_ind (λ out (next : gmap str str), ∀ name : str,
    out !! name =
    match next !! name, agg !! name with
    | None, a => a
    | Some raw, None => Some raw
    | Some raw, Some prior => Some (combineMetric (AggregationFor name) prior raw)
    end)).
  - intros name. by rewrite lookup_empty.
  - intros k raw m out Hk IH name. specialize (IH name). unfold fold_one.
    destruct (decide (k = name)) as [->|Hne].
    + rewrite Hk in IH. rewrite IH, lookup_insert_eq.
      destruct (agg !! name); by rewrite lookup_insert_eq.
    + rewrite (lookup_insert_ne m) by done. destruct (out !! k);
        by rewrite lookup_insert_ne by done.
Qed.

Lemma combineMetric_Min prior next :
  combineMetric AggMin prior next =
  match finiteValue prior, finiteValue next with
  | None, _ => prior
  | _, None => next
  | Some a, Some b => if flt b a then next else prior
  end.
Proof. unfold combineMetric. by destruct (finiteValue prior), (finiteValue next). Qed.

Lemma combineMetric_Max prior next :
  combineMetric AggMax prior next =
  match finiteValue prior, finiteValue next with
  | None, _ => prior
  | _, None => next
  | Some a, Some b => if flt a b then next else prior
  end.
Proof. unfold combineMetric. by destruct (finiteValue prior), (finiteValue next). Qed.

(** A poisoned aggregate stays poisoned, whatever the later windows report. *)
Lemma combineMetric_poison rule prior next :
  rule = AggSum ∨ rule = AggMin ∨ rule = AggMax →
  finiteValue prior = None → combineMetric rule prior next = prior.
Proof. intros [->|[->| ->]] H; unfold combineMetric; by rewrite H. Qed.

(** at the end of a soak a declaration survives only where no window measured, so
    the evaluator never meets a contradiction the folding made up. *)
Theorem foldUnmeasurable_disjoint (prior : list str) (declared : gmap str bool)
    (agg : gmap str str) (ths : list Threshold) :
  let names := foldUnmeasurable prior declared agg in
  (∀ name, name ∈ names ↔
     (name ∈ prior ∨ is_Some (declared !! name)) ∧ agg !! name = None) ∧
  Sorted String.le names ∧
  ∀ v, v ∈ o_Violations (Evaluate agg (unmeasurableSet names) ths) →
    v_Kind v ≠ KindContradictory.
Proof.
  assert (∀ (m : gmap str bool) (s : gset str) name,
    name ∈ map_fold (λ name _ set, {[name]} ∪ set) s m ↔ name ∈ s ∨ is_Some (m !! name)) as Hset.
  { intros m s. apply (map_fold_weak_ind (λ (set : gset str) (m : gmap str bool), ∀ name : str,
      name ∈ set ↔ name ∈ s ∨ is_Some (m !! name))).
    - intros name. rewrite lookup_empty. split; [by left|]. by intros [?|[]].
    - intros k b m' set Hk IH name. rewrite elem_of_union, elem_of_singleton, IH.
      destruct (decide (k = name)) as [->|Hne].
      + rewrite lookup_insert_eq. split; [right; by eexists|by left].
      + rewrite lookup_insert_ne by done. naive_solver. }
  intros names.
  assert (∀ name, name ∈ names ↔
    (name ∈ prior ∨ is_Some (declared !! name)) ∧ agg !! name = None) as Hn.
  { intros name. unfold names, foldUnmeasurable.
    rewrite sort_strings_elem, list_elem_of_In, filter_In, <-list_elem_of_In,
      elem_of_elements, Hset, elem_of_list_to_set, negb_true_iff, bool_decide_eq_false,
      eq_None_not_Some. done. }
  split; [done|]. split; [apply sort_strings_sorted|].
  intros v (th & Hth & _ & _ & G)%violation_gate Hk. rewrite Hk in G.
  assert (∀ l (m : gmap str bool) x,
    is_set (fold_left (λ out name, <[name := true]> out) l m) x = true →
    x ∈ l ∨ is_set m x = true) as Hu.
  { induction l as [|y l IH]; intros m x; simpl; [by right|].
    intros [?|Hx]%IH; [left; by right|]. unfold is_set in Hx.
    destruct (decide (y = x)) as [->|Hne]; [left; left|].
    rewrite lookup_insert_ne in Hx by done. by right. }
  revert G. unfold gate, eval_step.
  destruct (is_set (unmeasurableSet names) (t_Metric th)) eqn:U.
  - apply Hu in U as [U|U]; [|by unfold is_set in U; rewrite lookup_empty in U].
    apply Hn in U as [_ U]. rewrite U. by destruct (String.eqb _ _).
  - destruct (agg !! t_Metric th) as [raw|]; [|done].
    destruct (ParseFloat raw) as [? [?|]]; simpl; [done|].
    destruct (IsNaN _ || IsInf _); [done|].
    destruct (ParseFloat (t_Value th)) as [? [?|]]; simpl; [done|].
    destruct (IsNaN _ || IsInf _); [done|].
    by destruct (compare _ _ _).
Qed.

(** *** Aborting early *)

(** A count only grows: what the registry's Sum metrics are, and what the Sum cases of
    [monotoneBreach] rely on. *)
Fixpoint grows (name : str) (agg : gmap str str) (segments : list (gmap str str)) : Prop :=
  match segments with
  | [] => True
  | next :: segments =>
      let agg' := foldMetrics agg next in
      (∀ a b raw raw', agg !! name = Some raw → agg' !! name = Some raw' →
         finiteValue raw = Some a → finiteValue raw' = Some b → fle a b = true) ∧
      grows name agg' segments
  end.

(** What a breach is, per comparison. *)
Definition breaches (op : str) (got want : float64) : Prop :=
  (op = LTE ∧ flt want got = true) ∨ (op = EQ ∧ flt want got = true) ∨
  (op = GTE ∧ flt got want = true).

Definition breached (agg : gmap str str) (th : Threshold) : Prop :=
  ∃ raw, agg !! t_Metric th = Some raw ∧
    (finiteValue raw = None ∨
     ∃ got want, finiteValue raw = Some got ∧ finiteValue (t_Value th) = Some want ∧
       breaches (t_Comparison th) got want).

Lemma finiteValue_not_nan raw x : finiteValue raw = Some x → IsNaN x = false.
Proof. intros [_ H]%finiteValue_Some. by apply is_finite_not_nan. Qed.

Lemma flt_fle_trans x y z :
  IsNaN x = false → IsNaN y = false → IsNaN z = false →
  flt x y = true → fle y z = true → flt x z = true.
Proof.
  intros Hx Hy Hz. rewrite !flt_fle by done. intros H1%negb_true_iff H2.
  apply negb_true_iff, not_true_iff_false. intros H3.
  assert (fle y x = true) by (by apply (fle_trans y z x)). congruence.
Qed.

Lemma fle_flt_trans x y z :
  IsNaN x = false → IsNaN y = false → IsNaN z = false →
  fle x y = true → flt y z = true → flt x z = true.
Proof.
  intros Hx Hy Hz. rewrite !flt_fle by done. intros H1 H2%negb_true_iff.
  apply negb_true_iff, not_true_iff_false. intros H3.
  assert (fle z y = true) by (by apply (fle_trans z x y)). congruence.
Qed.

Lemma breached_not_satisfied agg th unmeasurable :
  breached agg th →
  ¬ satisfied agg unmeasurable th ∧ ¬ excused agg unmeasurable th.
Proof.
  intros (raw & Hraw & Hb). split; [|by intros (H & _); rewrite Hraw in H].
  intros (_ & raw' & got' & want' & Hraw' & Hg & Hgf & Hw & Hwf & Hc).
  assert (raw' = raw) as -> by congruence.
  assert (finiteValue raw = Some got') as Hfv by (by apply finiteValue_Some).
  assert (finiteValue (t_Value th) = Some want') as Hwv by (by apply finiteValue_Some).
  destruct Hb as [Hn|(got & want & Hgot & Hwant & Hbr)]; [congruence|].
  assert (got' = got) as -> by congruence. assert (want' = want) as -> by congruence.
  pose proof (finiteValue_not_nan _ _ Hgot) as Ng.
  pose proof (finiteValue_not_nan _ _ Hwant) as Nw.
  destruct Hbr as [[Ho Hlt]|[[Ho Hlt]|[Ho Hlt]]]; rewrite Ho in Hc;
    unfold compare in Hc; simpl in Hc;
    rewrite flt_fle in Hlt by done; apply negb_true_iff in Hlt; [congruence| |congruence].
  rewrite feq_fle in Hc by done. apply andb_true_iff in Hc as [Hc _]. congruence.
Qed.

(** The gates whose violations can be provable: the aggregation moves only one way,
    and the comparison bounds it on that side. *)
Definition monotone_gate (th : Threshold) : bool :=
  match AggregationFor (t_Metric th) with
  | AggSum => String.eqb (t_Comparison th) LTE || String.eqb (t_Comparison th) EQ
  | AggMin => String.eqb (t_Comparison th) GTE
  | AggMax => String.eqb (t_Comparison th) LTE
  | AggUnspecified | AggLast => false
  end.

Lemma monotoneBreach_gate agg th : monotoneBreach agg th = true → monotone_gate th = true.
Proof.
  unfold monotoneBreach, monotone_gate. destruct (AggregationFor (t_Metric th)); try (intros H; exact H).
  destruct (String.eqb (t_Comparison th) LTE); [intros H; exact H|].
  destruct (String.eqb (t_Comparison th) EQ); [reflexivity|intros H; exact H].
Qed.

(** One more window cannot mend a provable breach. *)
Lemma breached_fold agg next th :
  monotone_gate th = true → breached agg th →
  (AggregationFor (t_Metric th) = AggSum → grows (t_Metric th) agg [next]) →
  breached (foldMetrics agg next) th.
Proof.
  intros Hm (raw & Hraw & Hb) Hgrow. unfold breached. rewrite foldMetrics_lookup, Hraw.
  destruct (next !! t_Metric th) as [raw'|] eqn:Hn;
    [|exact (ex_intro _ raw (conj eq_refl Hb))].
  eexists. split; [done|]. unfold monotone_gate in Hm.
  destruct (AggregationFor (t_Metric th)) eqn:Ha;
    [discriminate Hm| | | |discriminate Hm].
  - (* Sum *)
    specialize (Hgrow eq_refl). destruct Hgrow as [Hgrow _].
    rewrite foldMetrics_lookup, Hraw, Hn, Ha in Hgrow.
    destruct Hb as [Hb|(got & want & Hgot & Hwant & Hbr)].
    { left. by rewrite combineMetric_poison by auto. }
    destruct (finiteValue (combineMetric AggSum raw raw')) as [s|] eqn:Hs; [|by left].
    right. exists s, want. split_and!; [done..|].
    specialize (Hgrow got s raw _ eq_refl eq_refl Hgot Hs).
    pose proof (finiteValue_not_nan _ _ Hgot). pose proof (finiteValue_not_nan _ _ Hwant).
    pose proof (finiteValue_not_nan _ _ Hs).
    destruct Hbr as [[Ho Hlt]|[[Ho Hlt]|[Ho Hlt]]].
    + left. split; [done|]. by apply (flt_fle_trans _ got).
    + right; left. split; [done|]. by apply (flt_fle_trans _ got).
    + rewrite Ho in Hm. done.
  - (* Min under a floor *)
    apply String.eqb_eq in Hm. rewrite combineMetric_Min.
    destruct Hb as [Hb|(got & want & Hgot & Hwant & Hbr)]; [rewrite Hb; by left|].
    rewrite Hgot. destruct (finiteValue raw') as [b|] eqn:Hb; [|by left].
    assert (flt got want = true) as Hlt.
    { destruct Hbr as [[Ho _]|[[Ho _]|[_ ?]]]; [| |done]; rewrite Hm in Ho; done. }
    right. destruct (flt b got) eqn:Hlow.
    + exists b, want. split_and!; [done..|]. right; right. split; [done|].
      apply (flt_fle_trans _ got); eauto using finiteValue_not_nan.
      rewrite flt_fle in Hlt by eauto using finiteValue_not_nan.
      apply negb_true_iff in Hlt.
      destruct (fle_total got want); eauto using finiteValue_not_nan; congruence.
    + exists got, want. split; [exact Hgot|]. split; [exact Hwant|].
      right; right. exact (conj Hm Hlt).
  - (* Max under a ceiling *)
    apply String.eqb_eq in Hm. rewrite combineMetric_Max.
    destruct Hb as [Hb|(got & want & Hgot & Hwant & Hbr)]; [rewrite Hb; by left|].
    rewrite Hgot. destruct (finiteValue raw') as [b|] eqn:Hb; [|by left].
    assert (flt want got = true) as Hlt.
    { destruct Hbr as [[_ ?]|[[Ho _]|[Ho _]]]; [done| |]; rewrite Hm in Ho; done. }
    right. destruct (flt got b) eqn:Hhigh.
    + exists b, want. split_and!; [done..|]. left. split; [done|].
      apply (flt_fle_trans _ got); eauto using finiteValue_not_nan.
      rewrite flt_fle in Hhigh by eauto using finiteValue_not_nan.
      apply negb_true_iff in Hhigh.
      destruct (fle_total got b); eauto using finiteValue_not_nan; congruence.
    + exists got, want. split; [exact Hgot|]. split; [exact Hwant|].
      left. exact (conj Hm Hlt).
Qed.

Lemma breached_folds agg segments th :
  monotone_gate th = true → breached agg th →
  (AggregationFor (t_Metric th) = AggSum → grows (t_Metric th) agg segments) →
  breached (fold_left foldMetrics segments agg) th.
Proof.
  intros Hm. revert agg. induction segments as [|next segments IH]; intros agg Hb Hg; [exact Hb|].
  simpl. apply IH; [|intros Ha; exact (proj2 (Hg Ha))].
  apply breached_fold; [exact Hm|exact Hb|]. intros Ha. destruct (Hg Ha) as [H _].
  exact (conj H I).
Qed.

Lemma measurement_breached agg unmeasurable th k r :
  gate agg unmeasurable th = Violated k r → KindCause k = CauseMeasurement →
  monotoneBreach agg th = true → breached agg th.
Proof.
  intros G Hk Hm.
  destruct (gate_unsatisfied _ _ _ _ _ G Hk) as
    (_ & raw & got & want & Hraw & Hg & Hgf & Hw & Hwf & Hc).
  assert (finiteValue raw = Some got) as Hfg by (apply finiteValue_Some; exact (conj Hg Hgf)).
  assert (finiteValue (t_Value th) = Some want) as Hfw
    by (apply finiteValue_Some; exact (conj Hw Hwf)).
  pose proof (finiteValue_not_nan _ _ Hfg) as Ng. pose proof (finiteValue_not_nan _ _ Hfw) as Nw.
  exists raw. split; [exact Hraw|]. right. exists got, want. split; [exact Hfg|].
  split; [exact Hfw|]. unfold breaches.
  assert (t_Comparison th = LTE → flt want got = true) as HLTE.
  { intros Ho. rewrite Ho in Hc. unfold compare in Hc. simpl in Hc.
    rewrite flt_fle by assumption. by rewrite Hc. }
  assert (t_Comparison th = GTE → flt got want = true) as HGTE.
  { intros Ho. rewrite Ho in Hc. unfold compare in Hc. simpl in Hc.
    rewrite flt_fle by assumption. by rewrite Hc. }
  unfold monotoneBreach in Hm.
  destruct (AggregationFor (t_Metric th)); try discriminate Hm.
  - destruct (String.eqb_spec (t_Comparison th) LTE) as [Ho|]; [left; auto|].
    destruct (String.eqb_spec (t_Comparison th) EQ) as [Ho|]; [|discriminate Hm].
    rewrite Hraw in Hm. simpl in Hm. rewrite Hfg, Hfw in Hm. right; left. auto.
  - apply String.eqb_eq in Hm. right; right. auto.
  - apply String.eqb_eq in Hm. left. auto.
Qed.

(** a violation an early abort is based on is never retracted: whatever the
    windows that were not burned had reported, the aggregate would still have
    failed that gate (given that counts only grow, for the Sum metrics). *)
Theorem provable_final (agg : gmap str str) (declared : gmap str bool)
    (ths : list Threshold) (v : Violation) :
  v ∈ provableViolations agg (Evaluate agg declared ths) ths →
  ∃ th, ths !! v_Index v = Some th ∧ t_Metric th = v_Metric v ∧
  ∀ segments declared',
    (AggregationFor (t_Metric th) = AggSum → grows (t_Metric th) agg segments) →
    let final := Evaluate (fold_left foldMetrics segments agg) declared' ths in
    violates final (v_Index v) ∧ o_Passed final = false.
Proof.
  intros Hv. apply list_elem_of_In, filter_In in Hv as [Hv Hp]. apply list_elem_of_In in Hv.
  destruct (violation_gate _ _ _ _ Hv) as (th & Hth & Hm & Hc & G).
  unfold provable in Hp. rewrite Hth in Hp. apply andb_true_iff in Hp as [Hcause Hmono].
  apply bool_decide_eq_true in Hcause. rewrite Hc in Hcause.
  exists th. split; [exact Hth|]. split; [symmetry; exact Hm|].
  intros segments declared' Hg final.
  assert (breached (fold_left foldMetrics segments agg) th) as Hb.
  { apply breached_folds; [exact (monotoneBreach_gate _ _ Hmono)| |exact Hg].
    exact (measurement_breached _ _ _ _ _ G Hcause Hmono). }
  destruct (breached_not_satisfied _ _ declared' Hb) as [Hns Hne].
  assert (violates final (v_Index v)) as Hviol.
  { apply violates_gate. rewrite <-gate_satisfied in Hns. rewrite <-gate_excused in Hne.
    destruct (gate (fold_left foldMetrics segments agg) declared' th) as [| |k r] eqn:Gf;
      [by destruct Hns|by destruct Hne|]. exists th, k, r. exact (conj Hth Gf). }
  split; [exact Hviol|]. apply not_true_iff_false. intros Hpass%Evaluate_passed_nil.
  destruct Hviol as (w & Hw & _). unfold final in Hw. rewrite Hpass in Hw.
  by apply elem_of_nil in Hw.
Qed.

(** *** Attempt history *)

Fixpoint drop_passing (n : nat) (l : list TestAttempt) : list TestAttempt :=
  match l, n with
  | _, O => l
  | [], _ => []
  | a :: l, S n' => if passed a then drop_passing n' l else a :: drop_passing n l
  end.

Lemma passing_from_bound i l j : j ∈ passing_from i l → (i <= j)%nat.
Proof.
  revert i. induction l as [|a l IH]; intros i; simpl; [by intros ?%elem_of_nil|].
  intros [H|H]%elem_of_app.
  - destruct (negb (i =? 0)%nat && passed a); [|by apply elem_of_nil in H].
    apply list_elem_of_singleton in H. lia.
  - apply IH in H. lia.
Qed.

Lemma passing_from_length i l :
  (1 <= i)%nat → length (passing_from i l) = length (List.filter passed l).
Proof.
  revert i. induction l as [|a l IH]; intros i Hi; simpl; [done|].
  rewrite length_app, IH by lia. rewrite (proj2 (Nat.eqb_neq i 0)) by lia. simpl.
  by destruct (passed a).
Qed.

Lemma keep_from_below i j dropped l :
  (j < i)%nat → keep_from i (j :: dropped) l = keep_from i dropped l.
Proof.
  revert i. induction l as [|a l IH]; intros i Hj; simpl; [done|].
  rewrite !IH by lia. erewrite bool_decide_ext; [done|].
  rewrite elem_of_cons. split; [intros [->|?]; [lia|done]|by right].
Qed.

Lemma keep_from_nil i l : keep_from i [] l = l.
Proof.
  revert i. induction l as [|a l IH]; intros i; simpl; [done|].
  by rewrite IH.
Qed.

Lemma keep_from_take i d l :
  (1 <= i)%nat → keep_from i (list.take d (passing_from i l)) l = drop_passing d l.
Proof.
  revert i d. induction l as [|a l IH]; intros i d Hi; [by destruct d|].
  destruct d as [|d]; [by rewrite keep_from_nil|]. cbn [passing_from drop_passing].
  rewrite (proj2 (Nat.eqb_neq i 0)) by lia. destruct (passed a); simpl.
  - rewrite bool_decide_eq_true_2 by left. rewrite keep_from_below by lia. apply IH. lia.
  - rewrite bool_decide_eq_false_2.
    + f_equal. apply IH. lia.
    + intros H%elem_of_take. destruct H as (k & H & _).
      apply list_elem_of_lookup_2, passing_from_bound in H. lia.
Qed.

Lemma kept_attempts_cons a l :
  let d := (length (List.filter passed l) - keptPassingSegments)%nat in
  kept_attempts (a :: l) = (a :: drop_passing d l, d).
Proof.
  unfold kept_attempts. simpl.
  rewrite passing_from_length by lia.
  set (d := (length (List.filter passed l) - keptPassingSegments)%nat).
  rewrite bool_decide_eq_false_2.
  - by rewrite keep_from_take by lia.
  - intros H%elem_of_take. destruct H as (k & H & _).
    apply list_elem_of_lookup_2, passing_from_bound in H. lia.
Qed.

Lemma drop_passing_facts d l :
  (d <= length (List.filter passed l))%nat →
  drop_passing d l `sublist_of` l ∧
  (length (drop_passing d l) + d = length l)%nat ∧
  (length (List.filter passed (drop_passing d l)) + d = length (List.filter passed l))%nat ∧
  List.filter (λ a, negb (passed a)) (drop_passing d l) = List.filter (λ a, negb (passed a)) l ∧
  ((d < length (List.filter passed l))%nat → last (drop_passing d l) = last l).
Proof.
  revert d. induction l as [|a l IH]; intros d Hd; simpl in *.
  { assert (d = 0%nat) as -> by lia. by split_and!. }
  destruct d as [|d]; [split_and!; simpl; try done; lia|].
  destruct (passed a) eqn:P; simpl in *.
  - destruct (IH d ltac:(lia)) as (H1 & H2 & H3 & H4 & H5). split_and!.
    + by apply sublist_cons.
    + lia.
    + lia.
    + done.
    + intros H. rewrite H5 by lia. rewrite last_cons. destruct (last l) eqn:E; [done|].
      apply last_None in E as ->. simpl in *. lia.
  - destruct (IH (S d) Hd) as (H1 & H2 & H3 & H4 & H5). rewrite P. simpl. split_and!.
    + by apply sublist_skip.
    + lia.
    + lia.
    + by rewrite H4.
    + intros H. rewrite !last_cons. by rewrite H5.
Qed.

(** Truncation touches nothing but the history and its counter. *)
Lemma truncateAttempts_attempts res a l :
  tr_Attempts res = a :: l → (0 < tr_SegmentsRequired res)%Z →
  let d := (length (List.filter passed l) - keptPassingSegments)%nat in
  tr_Attempts (truncateAttempts res) = a :: drop_passing d l ∧
  ((0 < d)%nat → tr_TruncatedAttempts (truncateAttempts res) =
    i32 (tr_TruncatedAttempts res + Z.of_nat d)) ∧
  (d = 0%nat → truncateAttempts res = res).
Proof.
  intros Ha Hs d. unfold truncateAttempts. rewrite (proj2 (Z.leb_gt _ _)) by lia. cbn [orb].
  assert (d <= length l)%nat as Hd.
  { unfold d. pose proof (List.filter_length_le passed l). lia. }
  destruct (Nat.leb_spec (length (tr_Attempts res)) (keptPassingSegments + 1)) as [Hlen|Hlen].
  { assert (d = 0%nat) as Hd0.
    { rewrite Ha in Hlen. simpl in Hlen. unfold d, keptPassingSegments.
      pose proof (List.filter_length_le passed l). lia. }
    rewrite Hd0. split_and!; [|lia|done]. rewrite Ha. by destruct l. }
  rewrite Ha, kept_attempts_cons. fold d.
  destruct (Nat.eqb_spec d 0) as [Hd0|Hd0].
  - rewrite Hd0. split_and!; [|lia|done]. rewrite Ha. by destruct l.
  - split_and!; [done..|lia].
Qed.

(** truncation drops only old passing windows of a soak: what is left is in order,
    begins and ends as before, holds every attempt that did not pass and at most
    sixteen that did after the first, and the counter accounts for the rest. *)
Theorem truncateAttempts_safe (res : TestResult) :
  (0 <= tr_TruncatedAttempts res)%Z →
  int32_range (tr_TruncatedAttempts res + Z.of_nat (length (tr_Attempts res))) →
  (0 < tr_SegmentsRequired res)%Z →
  let res' := truncateAttempts res in
  tr_Attempts res' `sublist_of` tr_Attempts res ∧
  head (tr_Attempts res') = head (tr_Attempts res) ∧
  last (tr_Attempts res') = last (tr_Attempts res) ∧
  List.filter (λ a, negb (passed a)) (tr_Attempts res') =
    List.filter (λ a, negb (passed a)) (tr_Attempts res) ∧
  (length (List.filter passed (tail (tr_Attempts res'))) <= keptPassingSegments)%nat ∧
  (tr_TruncatedAttempts res' + Z.of_nat (length (tr_Attempts res')) =
     tr_TruncatedAttempts res + Z.of_nat (length (tr_Attempts res)))%Z.
Proof.
  intros Ht Hr Hs. simpl. destruct (tr_Attempts res) as [|a l] eqn:Ha.
  { assert (truncateAttempts res = res) as ->.
    { unfold truncateAttempts. rewrite Ha. simpl. by rewrite orb_true_r. }
    rewrite Ha. split_and!; try done. simpl. lia. }
  destruct (truncateAttempts_attempts res a l Ha Hs) as (H1 & H2 & H3). rewrite H1.
  set (d := (length (List.filter passed l) - keptPassingSegments)%nat) in *.
  assert (d <= length (List.filter passed l))%nat as Hd by (unfold d; lia).
  destruct (drop_passing_facts d l Hd) as (F1 & F2 & F3 & F4 & F5).
  split_and!.
  - by apply sublist_skip.
  - done.
  - rewrite !last_cons. destruct (decide (d = 0%nat)) as [->|Hd0]; [by destruct l|].
    rewrite F5; [done|]. unfold d, keptPassingSegments in *. lia.
  - simpl. by rewrite F4.
  - simpl. unfold d, keptPassingSegments in *. lia.
  - destruct (decide (d = 0%nat)) as [Hd0|Hd0].
    + rewrite (H3 Hd0), Hd0. by destruct l.
    + rewrite H2 by lia. simpl in *. rewrite i32_small by (unfold int32_range in *; lia). lia.
Qed.

(** ** Witnesses *)
Definition soak_spec : BurnInTestSpec :=
  MkTestSpec KindThermalSoak ScopeNode 1000 None None (Some (MkSoak 300 (Some true))) None
    [MkThreshold "throttleEvents" LTE "0" Required] (MkResources ∅ ∅) false.
Definition soak_test : Test := MkTest "soak" true soak_spec ∅ "".

Lemma validateSoak_windows_witness :
  validateSoak soak_test = None ∧ segmentsRequired soak_spec = 4%Z ∧
  (1000 <= segmentsRequired soak_spec * 300)%Z.
Proof.
  assert (validateSoak soak_test = None) as H by (by vm_compute).
  split; [exact H|]. split; [by vm_compute|].
  exact (proj1 (proj2 (proj2 (proj2 (validateSoak_windows soak_test (MkSoak 300 (Some true))
    H eq_refl ltac:(by split)))))).
Defined.

Lemma provable_final_witness :
  ∃ v, v ∈ provableViolations {["throttleEvents" := "2"]}
             (Evaluate {["throttleEvents" := "2"]} ∅ (ts_Thresholds soak_spec))
             (ts_Thresholds soak_spec) ∧
    ∃ th, ts_Thresholds soak_spec !! v_Index v = Some th ∧ t_Metric th = v_Metric v.
Proof.
  destruct (provableViolations {["throttleEvents" := "2"]}
             (Evaluate {["throttleEvents" := "2"]} ∅ (ts_Thresholds soak_spec))
             (ts_Thresholds soak_spec)) as [|v l] eqn:E; [vm_compute in E; discriminate E|].
  assert (v ∈ provableViolations {["throttleEvents" := "2"]}
             (Evaluate {["throttleEvents" := "2"]} ∅ (ts_Thresholds soak_spec))
             (ts_Thresholds soak_spec)) as Hv by (rewrite E; left).
  exists v. split; [left|].
  destruct (provable_final _ _ _ _ Hv) as (th & H1 & H2 & _). exists th. exact (conj H1 H2).
Defined.

Definition soak_attempt (n : nat) : TestAttempt :=
  MkAttempt (Z.of_nat n) AttemptSegment "node-a" "" (if (n =? 3)%nat then RunError else RunPassed)
    (Some 0%Z) None None None ∅ "".
Definition soak_result : TestResult :=
  MkResultFor "soak" KindThermalSoak ScopeNode RunRunning ["node-a"] None None None ∅ "" [] [] []
    [] [] ∅ 1 0 0 100 20 300 ∅ 0 (soak_attempt <$> seq 1 20).

Lemma truncateAttempts_safe_witness :
  length (tr_Attempts (truncateAttempts soak_result)) = 18%nat ∧
  last (tr_Attempts (truncateAttempts soak_result)) = Some (soak_attempt 20).
Proof.
  split; [by vm_compute|].
  exact (proj1 (proj2 (proj2 (truncateAttempts_safe soak_result ltac:(by vm_compute)
    ltac:(by split) ltac:(by vm_compute))))).
Defined.
