(* ===== verification/Pods.v ===== *)
(** * internal/controller/pods.go: what the operator reads off a pod

    The fields of corev1.Pod the controller looks at, the functions that read an
    outcome, a start and a liveness from them, and the names it gives to the pods
    it creates.  Times are nanoseconds. *)

From S2P Require Import Prelude GoStrings GoFloat GoTime GoSha256 Contract Api Plan Soak.
From Stdlib Require Import Ascii.
Open Scope stdpp_scope.

(** ** The pod *)
Inductive PodPhase := PodPending | PodRunning | PodSucceeded | PodFailed | PodUnknown.

Global Instance PodPhase_eq_dec : EqDecision PodPhase.
Proof. solve_decision. Defined.

Record Terminated := MkTerminated {
  tm_ExitCode : Z; tm_Reason : str; tm_Message : str }.
Record Waiting := MkWaiting { wt_Reason : str; wt_Message : str }.

Record ContainerStatus := MkContainer {
  cs_Name : str;
  cs_Terminated : option Terminated;
  cs_Waiting : option Waiting;
}.

Record PodCondition := MkPodCondition {
  pc_Type : str; pc_Status : str; pc_Reason : str; pc_Message : str }.

Record Pod := MkPod {
  pod_Name : str;
  pod_Labels : gmap str str;
  pod_OwnerUIDs : list str;
  pod_CreationTimestamp : Z;
  pod_NodeName : str;
  pod_Phase : PodPhase;
  pod_Reason : str;
  pod_Message : str;
  pod_StartTime : option Z;
  pod_Conditions : list PodCondition;
  pod_Containers : list ContainerStatus;
}.



Definition set_pod_Creation (v : Z) (p : Pod) : Pod :=
  MkPod (pod_Name p) (pod_Labels p) (pod_OwnerUIDs p) v (pod_NodeName p) (pod_Phase p)
    (pod_Reason p) (pod_Message p) (pod_StartTime p) (pod_Conditions p) (pod_Containers p).

Definition deadlineGraceSeconds : Z := 120.
Definition schedulingGracePeriod : Z := (5 * 60 * second)%Z.

(** ** Observers *)
Definition podReady (pod : Pod) : bool :=
  bool_decide (pod_Phase pod = PodRunning) &&
  match list_first (λ c, String.eqb (pc_Type c) "Ready") (pod_Conditions pod) with
  | Some c => String.eqb (pc_Status c) "True"
  | None => false
  end.

Definition podLive (pod : Pod) : bool :=
  match pod_Phase pod with PodSucceeded | PodFailed => false | _ => true end.

Definition podStarted (pod : Pod) : bool :=
  match pod_StartTime pod with
  | Some _ => true
  | None =>
      match pod_Phase pod with
      | PodRunning | PodSucceeded | PodFailed => true
      | _ => false
      end
  end.

Definition attemptStart (pod : option Pod) (fallback : Z) : Z :=
  default fallback (pod ≫= pod_StartTime).

Definition ownedBy (pod : Pod) (uid : str) : bool :=
  existsb (String.eqb uid) (pod_OwnerUIDs pod).

Definition waiting_with_reason (cs : ContainerStatus) : option Waiting :=
  match cs_Waiting cs with
  | Some w => if String.eqb (wt_Reason w) "" then None else Some w
  | None => None
  end.

Definition firstPodFailure (pod : Pod) : str * str :=
  match head (omap waiting_with_reason (pod_Containers pod)) with
  | Some w =>
      (if String.eqb (pod_Reason pod) "" then wt_Reason w else pod_Reason pod, wt_Message w)
  | None =>
      (if String.eqb (pod_Reason pod) ""
       then "pod failed before the runner container terminated" else pod_Reason pod,
       pod_Message pod)
  end.

(** A pod's outcome: [None] while it has none. *)
Record pod_outcome := MkPodOutcome {
  po_exitCode : Z; po_reason : str; po_detail : str }.

Definition runner_terminated (cs : ContainerStatus) : option Terminated :=
  if String.eqb (cs_Name cs) "runner" then cs_Terminated cs else None.

Definition podOutcome (pod : Pod) : option pod_outcome :=
  match pod_Phase pod with
  | PodSucceeded | PodFailed =>
      let failed := bool_decide (pod_Phase pod = PodFailed) in
      let podReason := if failed then pod_Reason pod else "" in
      match head (omap runner_terminated (pod_Containers pod)) with
      | Some term =>
          Some (MkPodOutcome (tm_ExitCode term)
                  (if String.eqb podReason "" then tm_Reason term else podReason)
                  (tm_Message term))
      | None =>
          if failed then
            let '(reason, detail) := firstPodFailure pod in
            Some (MkPodOutcome (-1) reason detail)
          else None
      end
  | _ => None
  end.

Definition maxPodDetail : nat := 512.

Definition clampPodDetail (s : str) : str :=
  truncateAtRune (Join (Fields s) " ") maxPodDetail "… (truncated)".

Definition scheduler_detail (c : PodCondition) : option str :=
  if String.eqb (pc_Type c) "PodScheduled" && String.eqb (pc_Status c) "False" then
    let d := TrimSpace (pc_Message c) in
    let d := if String.eqb d "" then pc_Reason c else d in
    if String.eqb d "" then None else Some (" (scheduler: " +:+ clampPodDetail d +:+ ")")
  else None.

Definition kubelet_detail (cs : ContainerStatus) : option str :=
  match waiting_with_reason cs with
  | Some w =>
      let m := TrimSpace (wt_Message w) in
      let d := if String.eqb m "" then wt_Reason w else wt_Reason w +:+ ": " +:+ m in
      Some (" (kubelet: " +:+ clampPodDetail d +:+ ")")
  | None => None
  end.

Definition pendingDetail (pod : option Pod) : str :=
  match pod with
  | None => ""
  | Some pod =>
      match head (omap scheduler_detail (pod_Conditions pod)) with
      | Some d => d
      | None => default "" (head (omap kubelet_detail (pod_Containers pod)))
      end
  end.

(** [podWindow]: the int32 sum of seconds, then the scheduling grace. *)
Definition podWindow (spec : BurnInTestSpec) : Z :=
  (i32 (executionDurationSeconds spec + deadlineGraceSeconds) * second +
   schedulingGracePeriod)%Z.

(** [podOverdue]; a creation time of zero is an unstamped object. *)
Definition podOverdue (now : Z) (pod : Pod) (spec : BurnInTestSpec) : bool :=
  if (pod_CreationTimestamp pod =? 0)%Z then false
  else (podWindow spec <? now - pod_CreationTimestamp pod)%Z.

(** ** Names *)
Definition nul : str := String (chr 0) "".

Definition truncate (s : str) (n : nat) : str :=
  if (String.length s <=? n)%nat then s else take n s.

Definition pod_seed (run : BurnInRun) (testIndex : Z) (node : str) (attempt : Z) (role : str)
    : str :=
  run_UID run +:+ nul +:+ run_Name run +:+ nul +:+ Itoa testIndex +:+ nul +:+ node +:+ nul +:+
  Itoa attempt +:+ (if String.eqb role "" then "" else nul +:+ role).

Definition podNameForRole (run : BurnInRun) (testIndex : Z) (node : str) (attempt : Z)
    (role : str) : str :=
  truncate (run_Name run) 36 +:+ "-t" +:+ Itoa testIndex +:+ "-a" +:+ Itoa attempt +:+
  (if String.eqb role "" then "" else "-" +:+ role) +:+ "-" +:+
  hex_encode (list.take 4 (Sum256 (pod_seed run testIndex node attempt role))).

Definition podName (run : BurnInRun) (testIndex : Z) (node : str) (attempt : Z) : str :=
  podNameForRole run testIndex node attempt "".

Definition rendezvousServiceName (run : BurnInRun) (testIndex : Z) (attempt : Z) : str :=
  "bp-" +:+ truncate (run_Name run) 26 +:+ "-t" +:+ Itoa testIndex +:+ "-a" +:+ Itoa attempt +:+
  "-" +:+
  hex_encode (list.take 4 (Sum256 (run_UID run +:+ nul +:+ run_Name run +:+ nul +:+
    Itoa testIndex +:+ nul +:+ Itoa attempt +:+ nul +:+ "pair"))).

Definition peerHost (service namespace role : str) : str :=
  role +:+ "." +:+ service +:+ "." +:+ namespace +:+ ".svc".

(** ** The rendezvous *)
Record rendezvous := MkRendezvous {
  rv_scope : TestScope;
  rv_role : str;
  rv_service : str;
  rv_peerRole : str;
  rv_peerNode : str;
  rv_rank : Z;
  rv_nranks : Z;
  rv_rootNode : str;
}.

Definition groupRole (rank : Z) : str := "rank-" +:+ Itoa rank.

Definition rendezvousGraceSeconds (rv : option rendezvous) : Z :=
  match rv with
  | Some rv => if String.eqb (rv_scope rv) ScopeGroup
               then i32 (Z.quot schedulingGracePeriod second) else 0
  | None => 0
  end.

Definition rendezvous_env (rv : rendezvous) (namespace : str) : list EnvVar :=
  if String.eqb (rv_scope rv) ScopeGroup then
    [MkEnvVar "BURNIN_RANK" (Itoa (rv_rank rv));
     MkEnvVar "BURNIN_NRANKS" (Itoa (rv_nranks rv));
     MkEnvVar "BURNIN_ROOT_HOST" (peerHost (rv_service rv) namespace (groupRole 0));
     MkEnvVar "BURNIN_ROOT_NODE" (rv_rootNode rv)]
  else
    [MkEnvVar "BURNIN_ROLE" (rv_role rv);
     MkEnvVar "BURNIN_PEER_HOST" (peerHost (rv_service rv) namespace (rv_peerRole rv));
     MkEnvVar "BURNIN_PEER_NODE" (rv_peerNode rv)].

(** [resourceLimitsEnv]: name=quantity pairs in key order. *)
Definition resourceLimitsEnv (res : ResourceRequirements) : str :=
  Join (omap (λ n, (λ q, n +:+ "=" +:+ q) <$> rq_Limits res !! n)
          (sort_strings (map_to_list (rq_Limits res)).*1)) ",".

Definition hostPathReadOnly (m : HostPathMount) : bool := default true (hp_ReadOnly m).

Definition priorityClassOf (spec : option BurnInTestSpec) : str :=
  default "" (spec ≫= λ s, rs_PriorityClassName <$> ts_Runner s).

(** ** Properties *)

(** *** Distinct executions have distinct seeds *)
Definition nul_free (s : str) : Prop := no_char (chr 0) s = true.

Lemma digits_nul_free s : all_chars is_digit s = true → nul_free s.
Proof. apply all_chars_impl. intros c. by destruct c as [[] [] [] [] [] [] [] []]. Qed.

Lemma Itoa_nul_free z : (0 <= z)%Z → nul_free (Itoa z).
Proof. intros. by apply digits_nul_free, Itoa_digits. Qed.

Lemma nul_split a b a' b' :
  nul_free a → nul_free a' → a +:+ nul +:+ b = a' +:+ nul +:+ b' → a = a' ∧ b = b'.
Proof. apply no_char_split. Qed.

Lemma nul_tail a r a' r' :
  nul_free a → nul_free a' →
  a +:+ (if String.eqb r "" then "" else nul +:+ r) =
    a' +:+ (if String.eqb r' "" then "" else nul +:+ r') →
  a = a' ∧ r = r'.
Proof.
  intros Ha Ha'. unfold nul_free in *.
  assert (∀ x y, no_char (chr 0) (x +:+ nul +:+ y) = false) as Hno.
  { intros x y. unfold no_char. rewrite all_chars_app. apply andb_false_r. }
  destruct (String.eqb_spec r "") as [->|Hr], (String.eqb_spec r' "") as [->|Hr'];
    rewrite ?str_app_nil_r; intros Heq; [done| | |].
  - rewrite Heq in Ha. by rewrite (Hno a' r') in Ha.
  - rewrite <-Heq in Ha'. by rewrite (Hno a r) in Ha'.
  - by apply nul_split.
Qed.

(** The seed hashed into a pod's name identifies the execution: two executions with
    the same seed are of the same run (by uid), test index, node, attempt and role,
    so only a collision of the hash's first four bytes can make one adopt the
    other's pod. *)
Theorem pod_seed_identifies (run run' : BurnInRun) (i i' a a' : Z) (n n' r r' : str) :
  nul_free (run_UID run) → nul_free (run_UID run') →
  nul_free (run_Name run) → nul_free (run_Name run') → nul_free n → nul_free n' →
  (0 <= i)%Z → (0 <= i')%Z → (0 <= a)%Z → (0 <= a')%Z →
  pod_seed run i n a r = pod_seed run' i' n' a' r' →
  run_UID run = run_UID run' ∧ run_Name run = run_Name run' ∧ i = i' ∧ n = n' ∧ a = a' ∧ r = r'.
Proof.
  intros Hu Hu' Hm Hm' Hn Hn' Hi Hi' Ha Ha' H. unfold pod_seed in H.
  apply nul_split in H as [-> H]; [|done..].
  apply nul_split in H as [-> H]; [|done..].
  apply nul_split in H as [Hi0 H]; [|by apply Itoa_nul_free..].
  apply nul_split in H as [-> H]; [|done..].
  apply nul_tail in H as [Ha0 ->]; [|by apply Itoa_nul_free..].
  apply Itoa_inj in Hi0 as ->. by apply Itoa_inj in Ha0 as ->.
Qed.

(** *** The rendezvous service's name *)

(** RFC 1035 labels, which the name of a Service must be; and the characters of an
    RFC 1123 subdomain, which the name of a run may use. *)
Definition label_char (c : ascii) : bool := is_lower c || is_digit c || Ascii.eqb c "-".
Definition alnum_char (c : ascii) : bool := is_lower c || is_digit c.
Definition subdomain_char (c : ascii) : bool := label_char c || Ascii.eqb c ".".

Definition IsDNS1035Label (s : str) : bool :=
  (1 <=? String.length s)%nat && (String.length s <=? 63)%nat && all_chars label_char s &&
  match s with String c _ => is_lower c | EmptyString => false end &&
  match last_char s with Some c => alnum_char c | None => false end.

Lemma hex_byte_alnum b : (0 <= b < 256)%Z → all_chars alnum_char (hex_byte b) = true.
Proof.
  assert (forallb (λ b, all_chars alnum_char (hex_byte b)) (Z.of_nat <$> seq 0 256) = true) as H
    by (vm_compute; reflexivity).
  intros Hb. eapply forallb_forall in H; [exact H|]. apply list_elem_of_In, list_elem_of_fmap.
  exists (Z.to_nat b). split; [lia|]. apply elem_of_seq. lia.
Qed.

Lemma hex_encode_alnum l :
  (∀ b, b ∈ l → (0 <= b < 256)%Z) → all_chars alnum_char (hex_encode l) = true.
Proof.
  induction l as [|b l IH]; intros H; [done|]. cbn [hex_encode].
  rewrite all_chars_app, hex_byte_alnum by (apply H; left). apply IH. intros x Hx. apply H. by right.
Qed.

Lemma hex_encode_length l : String.length (hex_encode l) = (2 * length l)%nat.
Proof. induction l as [|b l IH]; [done|]. cbn [hex_encode]. rewrite str_app_length, IH. simpl. lia. Qed.

Lemma be_bytes_range n x b : b ∈ be_bytes n x → (0 <= b < 256)%Z.
Proof.
  unfold be_bytes. rewrite list_elem_of_In, <-List.in_rev, <-list_elem_of_In, list_elem_of_fmap.
  intros (i & -> & _). apply Z.mod_pos_bound. lia.
Qed.

Lemma hex_byte_inj a b :
  (0 <= a < 256)%Z → (0 <= b < 256)%Z → hex_byte a = hex_byte b → a = b.
Proof.
  assert (∀ n, (0 <= n < 16)%Z → byte_of (hex_digit n) = if (n <? 10)%Z then 48 + n else 87 + n)%Z as Hd.
  { intros n Hn. unfold hex_digit. destruct (Z.ltb_spec n 10);
      unfold byte_of, chr; rewrite N_ascii_embedding; lia. }
  intros Ha Hb [= H1 H2].
  pose proof (Z.div_mod a 16). pose proof (Z.div_mod b 16).
  pose proof (Z.mod_pos_bound a 16). pose proof (Z.mod_pos_bound b 16).
  apply (f_equal byte_of) in H1, H2. rewrite !Hd in H1, H2 by (Z.to_euclidean_division_equations; lia).
  repeat case_match; Z.to_euclidean_division_equations; lia.
Qed.

Lemma hex_encode_inj l l' :
  (∀ b, b ∈ l → (0 <= b < 256)%Z) → (∀ b, b ∈ l' → (0 <= b < 256)%Z) →
  hex_encode l = hex_encode l' → l = l'.
Proof.
  revert l'. induction l as [|a l IH]; intros [|b l'] Ha Hb; [done..|].
  cbn [hex_encode]. unfold hex_byte at 1 2. cbn [String.append]. intros [= H1 H2 H3].
  f_equal; [apply hex_byte_inj|apply IH].
  - apply Ha. left.
  - apply Hb. left.
  - unfold hex_byte. congruence.
  - intros x Hx. apply Ha. by right.
  - intros x Hx. apply Hb. by right.
  - exact H3.
Qed.

Lemma Sum256_bytes s b : b ∈ Sum256 s → (0 <= b < 256)%Z.
Proof.
  unfold Sum256. intros (l & Hb & Hl)%list_elem_of_join.
  apply list_elem_of_fmap in Hl as (x & -> & _). by eapply be_bytes_range.
Qed.

Lemma Sum256_head s : ∃ x, list.take 4 (Sum256 s) = be_bytes 4 x.
Proof.
  assert (∀ x l, list.take 4 (mjoin (be_bytes 4 <$> x :: l)) = be_bytes 4 x) as H by reflexivity.
  unfold Sum256. eexists. apply H.
Qed.

(** The eight hexadecimal characters every generated name ends with. *)
Lemma name_hash_facts s :
  let h := hex_encode (list.take 4 (Sum256 s)) in
  all_chars alnum_char h = true ∧ String.length h = 8%nat.
Proof.
  destruct (Sum256_head s) as [x ->]. split.
  - apply hex_encode_alnum. apply be_bytes_range.
  - rewrite hex_encode_length. reflexivity.
Qed.

Lemma last_char_all p s :
  all_chars p s = true → s ≠ "" → ∃ c, last_char s = Some c ∧ p c = true.
Proof.
  induction s as [|c s IH]; [done|]. cbn [all_chars]. rewrite andb_true_iff. intros [Hc Hs] _.
  change (String c s) with (String c "" +:+ s). rewrite last_char_app.
  destruct s as [|d s]; [by exists c|]. destruct (IH Hs) as (e & -> & He); [done|]. by exists e.
Qed.

Lemma alnum_label c : alnum_char c = true → label_char c = true.
Proof. unfold label_char, alnum_char. intros ->. done. Qed.

Lemma digit_label c : is_digit c = true → label_char c = true.
Proof. unfold label_char. intros ->. by rewrite orb_true_r. Qed.

Lemma subdomain_label s :
  all_chars subdomain_char s = true → all_chars label_char s = no_char "." s.
Proof.
  unfold no_char. induction s as [|c s IH]; [done|]. cbn [all_chars].
  rewrite andb_true_iff. intros [Hc Hs]. rewrite (IH Hs). f_equal.
  unfold subdomain_char in Hc. destruct (Ascii.eqb_spec c ".") as [->|]; [done|].
  by rewrite orb_false_r in Hc.
Qed.

Lemma truncate_length s n : (String.length (truncate s n) <= n)%nat.
Proof.
  unfold truncate. destruct (Nat.leb_spec (String.length s) n); [done|]. rewrite take_length. lia.
Qed.

Lemma truncate_chars p s n : all_chars p s = true → all_chars p (truncate s n) = true.
Proof. intros H. unfold truncate. destruct (_ <=? _)%nat; [done|]. by apply all_chars_take. Qed.

(** For a run whose name is a legal object name, the generated Service name is a legal
    DNS label exactly when the part of the run's name it keeps has no dot: the prefix
    takes care of a leading digit and of the length, nothing takes care of a dot. *)
Theorem rendezvousServiceName_label (run : BurnInRun) (i a : Z) :
  all_chars subdomain_char (run_Name run) = true →
  (0 <= i < 10 ^ 10)%Z → (0 <= a)%Z → int32_range a →
  IsDNS1035Label (rendezvousServiceName run i a) = no_char "." (truncate (run_Name run) 26).
Proof.
  intros Hn Hi Ha Ha'. unfold rendezvousServiceName.
  match goal with |- context [hex_encode (list.take 4 (Sum256 ?x))] =>
    destruct (name_hash_facts x) as [Hh Hl]; set (h := hex_encode (list.take 4 (Sum256 x))) in * end.
  clearbody h.
  assert (String.length (Itoa i) <= 10)%nat as Hil by (apply Itoa_length; lia).
  assert (String.length (Itoa a) <= 10)%nat as Hal.
  { apply Itoa_length; [|lia]. unfold int32_range in Ha'. lia. }
  pose proof (truncate_length (run_Name run) 26) as Htl.
  assert (all_chars subdomain_char (truncate (run_Name run) 26) = true) as Ht
    by by apply truncate_chars.
  set (t := truncate (run_Name run) 26) in *. clearbody t.
  unfold IsDNS1035Label.
  assert (∀ x y : str, String.length ("bp-" +:+ x +:+ y) =
    (3 + String.length x + String.length y)%nat) as H3.
  { intros. by rewrite !str_app_length. }
  assert (all_chars label_char ("bp-" +:+ t +:+ "-t" +:+ Itoa i +:+ "-a" +:+ Itoa a +:+ "-" +:+ h) =
    no_char "." t) as ->.
  { rewrite !all_chars_app, (subdomain_label t) by done.
    rewrite (all_chars_impl _ label_char h alnum_label) by done.
    rewrite (all_chars_impl _ label_char (Itoa i) digit_label) by (apply Itoa_digits; lia).
    rewrite (all_chars_impl _ label_char (Itoa a) digit_label) by (apply Itoa_digits; lia).
    destruct (no_char "." t); reflexivity. }
  destruct (last_char_all _ h Hh) as (c & Hc & Hpc); [by intros ->|].
  assert (last_char ("bp-" +:+ t +:+ "-t" +:+ Itoa i +:+ "-a" +:+ Itoa a +:+ "-" +:+ h) =
    Some c) as -> by by rewrite !last_char_app, Hc.
  rewrite H3, !str_app_length, Hl. simpl String.length.
  destruct (Nat.leb_spec 1 (3 + String.length t + (2 + (String.length (Itoa i) +
    (2 + (String.length (Itoa a) + (1 + 8))))))); [|lia].
  destruct (Nat.leb_spec (3 + String.length t + (2 + (String.length (Itoa i) +
    (2 + (String.length (Itoa a) + (1 + 8)))))) 63); [|lia].
  rewrite Hpc. simpl. by rewrite !andb_true_r.
Qed.

(** A run of the given name, with nothing else set. *)
Definition named_run (name : str) : BurnInRun :=
  MkRun "ns" name "uid-1" 0 None ∅ []
    (MkRunSpec "p" [] ∅ [] None None None None None None None CancelUnset "" None)
    (MkStatus RunUnset ∅ None None [] 0 0 0 0 [] None ∅).

Lemma pod_seed_identifies_witness :
  pod_seed (named_run "run") 0 "node-a" 1 "" = pod_seed (named_run "run") 0 "node-a" 1 "" ∧
  (0 = 0)%Z.
Proof.
  split; [reflexivity|].
  assert (pod_seed (named_run "run") 0 "node-a" 1 "" = pod_seed (named_run "run") 0 "node-a" 1 "")
    as H by reflexivity.
  apply pod_seed_identifies in H as (_ & _ & H & _); [exact H|reflexivity..|lia|lia|lia|lia].
Defined.

Lemma rendezvousServiceName_label_witness :
  IsDNS1035Label (rendezvousServiceName (named_run "4node-run") 2 1) = true ∧
  IsDNS1035Label (rendezvousServiceName (named_run "site-a.4node") 2 1) = false.
Proof.
  split; (rewrite rendezvousServiceName_label; [reflexivity|reflexivity|lia|lia|]);
    unfold int32_range; lia.
Defined.
