(* ===== verification/RunPlan.v ===== *)
(** * internal/controller/plan.go: the pinned plan

    [buildPlan] turns a profile's tests and the resolved targets into the plan a
    run executes, or refuses with the message of the first rule that fails.  The
    knobs read from a run's spec ([maxConcurrentNodes] and the rest) re-apply the
    defaults the API promises. *)

From S2P Require Import Prelude GoStrings GoFloat GoTime Contract Registry Runner Verdict Api Plan.
From S2P Require Import Soak Pods.
Open Scope stdpp_scope.

Record plan := MkPlan {
  pl_Version : Z;
  pl_Targets : list str;
  pl_Sinks : list str;
  pl_FailFast : bool;
  pl_Baseline : bool;
  pl_ProfileEntries : Z;
  pl_Tests : list Test;
}.

Definition planAnnotation : str := "burnin.glimmer.ai/plan".
Definition pendingDeliveryAnnotation : str := "burnin.glimmer.ai/pending-terminal-delivery".
Definition cancellingAnnotation : str := "burnin.glimmer.ai/cancelling".

(** ** Knobs read from the run's spec *)
Definition checkpointInterval (spec : BurnInTestSpec) : Z :=
  match ts_CheckpointIntervalSeconds spec with
  | Some n => if (n <=? 0)%Z then 0 else (n * second)%Z
  | None => 0
  end.

(** [plan.checkpointInterval]: the shortest positive interval of any test. *)
Definition plan_checkpointInterval (p : plan) : Z :=
  fold_left (λ out t,
    let d := checkpointInterval (te_Spec t) in
    if (0 <? d)%Z && ((out =? 0)%Z || (d <? out)%Z) then d else out) (pl_Tests p) 0%Z.

Definition maxConcurrentNodes (run : BurnInRun) : Z :=
  match sp_MaxConcurrentNodes (run_Spec run) with
  | Some n => if (n <? 1)%Z then 1 else n
  | None => 1
  end.

Definition retryOnErrorLimit (run : BurnInRun) : Z :=
  match sp_RetryOnErrorLimit (run_Spec run) with
  | Some n => if (n <? 0)%Z then 0 else n
  | None => 0
  end.

Definition runDeadline (run : BurnInRun) : Z :=
  match sp_DeadlineSeconds (run_Spec run) with
  | Some n => if (n <=? 0)%Z then 0 else (n * second)%Z
  | None => 0
  end.

Definition isBaseline (run : BurnInRun) : bool := default false (sp_Baseline (run_Spec run)).
Definition suspended (run : BurnInRun) : bool := default false (sp_Suspend (run_Spec run)).
Definition cancelRequested (run : BurnInRun) : bool := default false (sp_Cancel (run_Spec run)).

(** ** Topology *)
Fixpoint first_duplicate_go (seen : gset str) (targets : list str) : str :=
  match targets with
  | [] => ""
  | n :: targets =>
      if bool_decide (n ∈ seen) then n else first_duplicate_go ({[n]} ∪ seen) targets
  end.

Definition firstDuplicate (targets : list str) : str := first_duplicate_go ∅ targets.

Definition groupCapableKinds : list TestKind := [KindNCCL].

Definition count_of {A} (l : list A) : Z := Z.of_nat (length l).

Definition validatePairTopology (t : Test) (targets : list str) (nodeCap : Z) : option str :=
  let q := quote (te_Name t) in
  let n := Itoa (count_of targets) in
  if negb (String.eqb (ts_Scope (te_Spec t)) ScopePair) then None
  else
    match targets with
    | [a; b] =>
        if String.eqb a b then
          Some ("test " +:+ q +:+ " is Pair scope but both target nodes are " +:+ quote a +:+
            " — a link test needs two DISTINCT endpoints; a node paired with itself would measure a loopback, not the fabric")
        else if (nodeCap <? 2)%Z then
          Some ("test " +:+ q +:+ " is Pair scope but spec.maxConcurrentNodes is " +:+
            Itoa nodeCap +:+
            " — a pair is one indivisible unit of load that holds BOTH of its nodes for the whole test, so it needs two of the cap's slots and can never start at " +:+
            Itoa nodeCap +:+
            "; set spec.maxConcurrentNodes to at least 2, having checked that two nodes at full load is within the room's power and cooling headroom")
        else None
    | _ =>
        Some ("test " +:+ q +:+
          " is Pair scope and needs exactly two target nodes, but this run's target resolved to " +:+
          n +:+ " (" +:+ show_strings targets +:+
          ") — a point-to-point fabric test measures the link between two endpoints and has no meaning with " +:+
          n +:+
          "; name exactly two nodes in spec.target.nodeNames, or use a nodeSelector that matches exactly two")
    end.

Definition names_no_image (t : Test) : bool :=
  match ts_Runner (te_Spec t) with
  | None => true
  | Some r => String.eqb (rs_Image r) ""
  end.

Definition validateGroupTopology (t : Test) (targets : list str) (nodeCap : Z) : option str :=
  let q := quote (te_Name t) in
  let n := Itoa (count_of targets) in
  let kind := ts_Kind (te_Spec t) in
  if (count_of targets <? 2)%Z then
    Some ("test " +:+ q +:+
      " is Group scope and needs at least two target nodes, but this run's target resolved to " +:+
      n +:+ " (" +:+ show_strings targets +:+
      ") — a collective has no meaning with fewer; name more nodes in spec.target.nodeNames, or use a nodeSelector that matches them")
  else if negb (String.eqb (firstDuplicate targets) "") then
    Some ("test " +:+ q +:+ " is Group scope but node " +:+ quote (firstDuplicate targets) +:+
      " appears in the target list more than once — every rank must be a DISTINCT node, or two ranks would contend for the same hardware and the collective would measure that contention instead of the fabric")
  else if names_no_image t && negb (bool_decide (kind ∈ groupCapableKinds)) then
    Some ("test " +:+ q +:+
      " is Group scope and names no spec.runner.image, so it would fall back to the default image for kind " +:+
      quote kind +:+
      " — and that image does not speak the Group rendezvous contract (issue #118). It branches on BURNIN_ROLE, which is deliberately unset at Group scope, and reads its absence as a Node-scope run: it would exit 2 with a skip marker, this run would record " +:+
      dquote +:+ "acceptance does not apply to this hardware" +:+ dquote +:+
      ", and it would settle Passed around a collective that never executed. Set spec.runner.image to a runner that reads BURNIN_RANK, BURNIN_NRANKS and BURNIN_ROOT_HOST — or use kind " +:+
      quote KindNCCL +:+ ", whose shipped runner does")
  else if (nodeCap <? count_of targets)%Z then
    Some ("test " +:+ q +:+ " is Group scope across " +:+ n +:+
      " nodes but spec.maxConcurrentNodes is " +:+ Itoa nodeCap +:+
      " — a group is one indivisible unit of load that holds EVERY one of its nodes for the whole test, so it needs " +:+
      n +:+ " of the cap's slots and can never start at " +:+ Itoa nodeCap +:+
      "; set spec.maxConcurrentNodes to at least " +:+ n +:+ ", having checked that " +:+ n +:+
      " nodes at full load is within the room's power and cooling headroom")
  else None.

Definition validateTopology (t : Test) (targets : list str) (nodeCap : Z) : option str :=
  if String.eqb (ts_Scope (te_Spec t)) ScopePair then validatePairTopology t targets nodeCap
  else if String.eqb (ts_Scope (te_Spec t)) ScopeGroup then validateGroupTopology t targets nodeCap
  else None.

(** ** Refusals *)
Definition maxAdvisedThresholds : nat := 5.

(** At most [maxAdvisedThresholds] items, the rest counted. *)
Definition bounded_list (bad : list str) : list str :=
  if (maxAdvisedThresholds <? length bad)%nat
  then list.take maxAdvisedThresholds bad ++
       ["and " +:+ Itoa (count_of bad - Z.of_nat maxAdvisedThresholds) +:+ " more"]
  else bad.

Definition reserved_overrides (t : Test) : list str :=
  match ts_Runner (te_Spec t) with
  | None => []
  | Some r =>
      omap (λ e, if bool_decide (ev_Name e ∈ ReservedEnv)
                 then Some ("test " +:+ quote (te_Name t) +:+ " sets " +:+ ev_Name e)
                 else None) (rs_Env r)
  end.

Definition refuseReservedEnvOverride (tests : list Test) : option str :=
  match mjoin (reserved_overrides <$> tests) with
  | [] => None
  | bad =>
      Some ("this profile's spec.runner.env sets " +:+ Itoa (count_of bad) +:+
        " variable(s) this operator itself injects, so the run is refused before any node is touched — a profile that could override one of these could make a Pair server speak the client's half of the rendezvous, or tell a multi-device runner it owns a board it was never handed: " +:+
        Join (bounded_list bad) "; ")
  end.

Fixpoint host_paths_go (q : str) (seen : gset str) (l : list HostPathMount) : option str :=
  match l with
  | [] => None
  | m :: l =>
      if String.eqb (hp_Path m) "" || String.eqb (hp_MountPath m) "" then
        Some ("test " +:+ q +:+ " declares a host mount with an empty path (host " +:+
          quote (hp_Path m) +:+ " -> container " +:+ quote (hp_MountPath m) +:+
          ") — both ends of a host mount have to be written down before this operator will grant it")
      else if negb (HasPrefix (hp_Path m) "/") || negb (HasPrefix (hp_MountPath m) "/") then
        Some ("test " +:+ q +:+ " declares a host mount with a relative path (host " +:+
          quote (hp_Path m) +:+ " -> container " +:+ quote (hp_MountPath m) +:+
          ") — both must be absolute; a relative host path names nothing in particular on a node")
      else if bool_decide (hp_MountPath m ∈ seen) then
        Some ("test " +:+ q +:+ " declares two host mounts at container path " +:+
          quote (hp_MountPath m) +:+
          " — a duplicate mount point is an invalid pod spec, so every attempt would be refused by the apiserver while the run held the node")
      else host_paths_go q ({[hp_MountPath m]} ∪ seen) l
  end.

Definition validateHostPaths (t : Test) : option str :=
  match ts_Runner (te_Spec t) with
  | None => None
  | Some r => host_paths_go (quote (te_Name t)) ∅ (rs_HostPaths r)
  end.

Definition problems_of (sev : Severity) (t : Test) : list Problem :=
  List.filter (λ p, bool_decide (p_Severity p = sev))
    (ValidateThresholdsForKind (ts_Kind (te_Spec t)) (ts_Thresholds (te_Spec t))).

Definition problem_line (t : Test) (p : Problem) : str :=
  "test " +:+ quote (te_Name t) +:+ " " +:+ Problem_Error p.

Definition refuseUnsatisfiableThresholds (tests : list Test) : option str :=
  match mjoin ((λ t, problem_line t <$> problems_of SeverityMalformed t) <$> tests) with
  | [] => None
  | bad =>
      Some ("this profile carries " +:+ Itoa (count_of bad) +:+
        " threshold(s) that can never be satisfied, so the run is refused before any node is touched — every one of them would otherwise fail on every node, forever, and be reported in the same shape as a hardware verdict: " +:+
        Join (bounded_list bad) "; ")
  end.

Definition refuseGatedBaseline (tests : list Test) (baseline : bool) : option str :=
  if negb baseline then None
  else
    let gated :=
      omap (λ t, match ts_Thresholds (te_Spec t) with
                 | [] => None
                 | ths => Some (quote (te_Name t) +:+ " (" +:+ Itoa (count_of ths) +:+
                                " threshold(s))")
                 end) tests in
    match gated with
    | [] => None
    | _ =>
        Some ("this run is marked spec.baseline but its profile carries thresholds on " +:+
          Itoa (count_of gated) +:+ " test(s): " +:+ Join (bounded_list gated) "; " +:+
          ". A baseline MEASURES and an acceptance run CERTIFIES, and the flag does not suppress gates — that would be a way to turn a failing run into a passing one by editing a boolean. Either clear spec.baseline and let the gates decide, or point this run at a thresholdless profile")
    end.

(** ** buildPlan *)
Fixpoint build_tests (seen : gset str) (targets : list str) (nodeCap : Z) (tests : list Test)
    : list Test + str :=
  match tests with
  | [] => inl []
  | t :: tests =>
      if bool_decide (te_Name t ∈ seen) then
        inr ("profile lists test " +:+ quote (te_Name t) +:+
             " twice — test names are result identity and must be unique")
      else
        match validateTopology t targets nodeCap with
        | Some e => inr e
        | None =>
            match validateHostPaths t with
            | Some e => inr e
            | None =>
                match validateSoak t with
                | Some e => inr e
                | None =>
                    match build_tests ({[te_Name t]} ∪ seen) targets nodeCap tests with
                    | inl ts =>
                        inl (MkTest (te_Name t) (te_Required t) (te_Spec t)
                               (CopyAxes (te_Axes t)) (te_Parent t) :: ts)
                    | inr e => inr e
                    end
                end
            end
        end
  end.

(** The whole-plan refusals, in order. *)
Definition refusals (tests : list Test) (baseline : bool) : option str :=
  match refuseReservedEnvOverride tests with
  | Some e => Some e
  | None =>
      match RefuseCapabilitiesWithoutRunAsUserZero tests with
      | Some e => Some e
      | None =>
          match refuseUnsatisfiableThresholds tests with
          | Some e => Some e
          | None =>
              match refuseGatedBaseline tests baseline with
              | Some e => Some e
              | None => RefuseUnreachableAxes tests
              end
          end
      end
  end.

Definition buildPlan (profile : BurnInProfileSpec) (tests : list Test) (targets : list str)
    (nodeCap : Z) (baseline : bool) : plan + str :=
  match refusals tests baseline with
  | Some e => inr e
  | None =>
      match build_tests ∅ targets nodeCap tests with
      | inr e => inr e
      | inl ts =>
          inl (MkPlan 1 targets (pr_Sinks profile) (pr_FailFast profile) baseline
                 (count_of (pr_Tests profile)) ts)
      end
  end.

(** [requiredByName]: a later test of the same name would win. *)
Definition requiredByName (p : plan) : gmap str bool :=
  fold_left (λ m t, <[te_Name t := te_Required t]> m) (pl_Tests p) ∅.

(** [executionUnits] (burninrun_controller.go) *)
Definition executionUnits (p : plan) (t : Test) : list (list str) :=
  if String.eqb (ts_Scope (te_Spec t)) ScopePair || String.eqb (ts_Scope (te_Spec t)) ScopeGroup
  then [pl_Targets p]
  else (λ node, [node]) <$> pl_Targets p.

(** ** Advisories *)
Record thresholdAdvice := MkAdvice { ad_test : str; ad_problem : Problem }.

Definition unsoundThresholds (p : plan) : list thresholdAdvice :=
  mjoin ((λ t, MkAdvice (te_Name t) <$> problems_of SeverityUnsound t) <$> pl_Tests p).

Definition summariseThresholdAdvice (advice : list thresholdAdvice) : str :=
  let shown := list.take maxAdvisedThresholds advice in
  let elided := (length advice - length shown)%nat in
  let parts :=
    ((λ a, "test " +:+ quote (ad_test a) +:+ " " +:+ Problem_Error (ad_problem a)) <$> shown) ++
    (if (0 <? elided)%nat then ["and " +:+ Itoa (Z.of_nat elided) +:+ " more"] else []) in
  Itoa (count_of advice) +:+ " " +:+
  (if (length advice =? 1)%nat then "gate" else "gates") +:+
  " evaluate but may not mean what they say; the run proceeds and these do not affect its verdict: " +:+
  Join parts "; ".

Record variantSummary := MkVariantSummary {
  vs_Entries : Z; vs_Executions : Z; vs_Expanded : list str }.

(** First parents in plan order, and how many cells each has. *)
Definition parents_in_order (tests : list Test) : list str :=
  fold_left (λ order t,
    if String.eqb (te_Parent t) "" || bool_decide (te_Parent t ∈ order)
    then order else order ++ [te_Parent t]) tests [].

Definition plan_variantSummary (p : plan) : variantSummary :=
  MkVariantSummary (pl_ProfileEntries p) (count_of (pl_Tests p))
    ((λ name, name +:+ " (" +:+
       Itoa (count_of (List.filter (λ t, String.eqb (te_Parent t) name) (pl_Tests p))) +:+
       " cells)") <$> parents_in_order (pl_Tests p)).

(** ** Properties *)

Lemma first_duplicate_go_spec seen targets :
  (∀ n, n ∈ targets → n ≠ "") →
  first_duplicate_go seen targets = "" ↔
  NoDup targets ∧ ∀ n, n ∈ targets → n ∉ seen.
Proof.
  revert seen. induction targets as [|n targets IH]; intros seen Hne; simpl.
  { split; [|done]. intros _. split; [constructor|by intros ? ?%elem_of_nil]. }
  case_bool_decide as Hs.
  - split; [intros ->; by destruct (Hne "" (list_elem_of_here _ _))|].
    intros [_ H]. by destruct (H n (list_elem_of_here _ _)).
  - rewrite IH by (intros m Hm; apply Hne; by right). rewrite NoDup_cons.
    assert (∀ m, m ∈ {[n]} ∪ seen ↔ m = n ∨ m ∈ seen) as Hu by set_solver.
    setoid_rewrite elem_of_cons. setoid_rewrite Hu. split.
    + intros [Hnd H]. split; [split; [|done]|].
      * intros Hin. apply (H n Hin). by left.
      * intros m [->|Hm]; [done|]. intros Hs'. apply (H m Hm). by right.
    + intros [[Hn Hnd] H]. split; [done|]. intros m Hm [->|Hs']; [done|].
      by apply (H m (or_intror Hm)).
Qed.

Lemma firstDuplicate_spec targets :
  (∀ n, n ∈ targets → n ≠ "") → firstDuplicate targets = "" ↔ NoDup targets.
Proof.
  intros Hne. unfold firstDuplicate. rewrite first_duplicate_go_spec by done.
  split; [by intros []|]. intros H. split; [done|]. set_solver.
Qed.

(** One test's own rules. *)
Definition test_ok (targets : list str) (nodeCap : Z) (t : Test) : Prop :=
  validateTopology t targets nodeCap = None ∧ validateHostPaths t = None ∧
  validateSoak t = None.

Lemma build_tests_inl seen targets nodeCap tests ts :
  build_tests seen targets nodeCap tests = inl ts ↔
  ts = tests ∧ NoDup (te_Name <$> tests) ∧ (∀ t, t ∈ tests → te_Name t ∉ seen) ∧
  (∀ t, t ∈ tests → test_ok targets nodeCap t).
Proof.
  revert seen ts. induction tests as [|t tests IH]; intros seen ts; simpl.
  { split.
    - intros [= <-]. split_and!; [done|constructor|by intros ? ?%elem_of_nil..].
    - by intros (-> & _). }
  assert (MkTest (te_Name t) (te_Required t) (te_Spec t) (CopyAxes (te_Axes t)) (te_Parent t) = t)
    as -> by by destruct t.
  setoid_rewrite elem_of_cons. rewrite NoDup_cons, list_elem_of_fmap.
  unfold test_ok at 1. case_bool_decide as Hs.
  { split; [done|]. intros (_ & _ & H & _). by destruct (H t (or_introl eq_refl)). }
  destruct (validateTopology t targets nodeCap) eqn:E1.
  { split; [done|]. intros (_ & _ & _ & H). destruct (H t (or_introl eq_refl)) as [H1 _].
    congruence. }
  destruct (validateHostPaths t) eqn:E2.
  { split; [done|]. intros (_ & _ & _ & H). destruct (H t (or_introl eq_refl)) as (_ & H1 & _).
    congruence. }
  destruct (validateSoak t) eqn:E3.
  { split; [done|]. intros (_ & _ & _ & H). destruct (H t (or_introl eq_refl)) as (_ & _ & H1).
    congruence. }
  specialize (IH ({[te_Name t]} ∪ seen)).
  destruct (build_tests ({[te_Name t]} ∪ seen) targets nodeCap tests) as [ts'|e].
  - destruct (proj1 (IH ts') eq_refl) as (-> & Hnd & Hseen & Hok). split.
    + intros [= <-]. split_and!; [done| |done| |].
      * intros (t' & Heq & Hin). specialize (Hseen t' Hin). rewrite <-Heq in Hseen. set_solver.
      * intros t' [->|Hin]; [done|]. specialize (Hseen t' Hin). set_solver.
      * intros t' [->|Hin]; [by split_and!|by apply Hok].
    + by intros (-> & _).
  - split; [done|]. intros (-> & [Hn Hnd] & Hseen & Hok).
    enough (inr e = inl tests) by done. apply IH.
    split_and!; [done|done| |by intros t' Hin; apply Hok; right].
    intros t' Hin. rewrite elem_of_union, elem_of_singleton. intros [Heq|Hin'].
    + apply Hn. by exists t'.
    + by apply (Hseen t' (or_intror Hin)).
Qed.

Lemma buildPlan_inl profile tests targets nodeCap baseline p :
  buildPlan profile tests targets nodeCap baseline = inl p ↔
  p = MkPlan 1 targets (pr_Sinks profile) (pr_FailFast profile) baseline
        (count_of (pr_Tests profile)) tests ∧
  refusals tests baseline = None ∧ NoDup (te_Name <$> tests) ∧
  ∀ t, t ∈ tests → test_ok targets nodeCap t.
Proof.
  unfold buildPlan. destruct (refusals tests baseline) as [e|]; [by split; [|intros (_ & ? & _)]|].
  pose proof (build_tests_inl ∅ targets nodeCap tests) as H.
  destruct (build_tests ∅ targets nodeCap tests) as [ts|e].
  - destruct (proj1 (H ts) eq_refl) as (-> & ? & _ & ?). split; [by intros [= <-]|].
    by intros (-> & _).
  - split; [done|]. intros (-> & _ & Hnd & Hok).
    enough (inr e = inl tests) by done. apply H. split_and!; [done..|set_solver|done].
Qed.

(** *** What the refusals mean *)
Lemma refusals_None tests baseline :
  refusals tests baseline = None ↔
  refuseReservedEnvOverride tests = None ∧
  RefuseCapabilitiesWithoutRunAsUserZero tests = None ∧
  refuseUnsatisfiableThresholds tests = None ∧ refuseGatedBaseline tests baseline = None ∧
  RefuseUnreachableAxes tests = None.
Proof.
  unfold refusals.
  destruct (refuseReservedEnvOverride tests), (RefuseCapabilitiesWithoutRunAsUserZero tests),
    (refuseUnsatisfiableThresholds tests), (refuseGatedBaseline tests baseline);
    intuition congruence.
Qed.

Lemma refuseReservedEnvOverride_None tests :
  refuseReservedEnvOverride tests = None ↔
  ∀ t r e, t ∈ tests → ts_Runner (te_Spec t) = Some r → e ∈ rs_Env r → ev_Name e ∉ ReservedEnv.
Proof.
  transitivity (mjoin (reserved_overrides <$> tests) = []).
  { unfold refuseReservedEnvOverride. by destruct (mjoin _). }
  rewrite mjoin_nil. setoid_rewrite list_elem_of_fmap. unfold reserved_overrides. split.
  - intros H t r e Ht Hr He Hres. specialize (H _ (ex_intro _ t (conj eq_refl Ht))).
    rewrite Hr, omap_nil in H. specialize (H e He). by rewrite bool_decide_eq_true_2 in H.
  - intros H l (t & -> & Ht). destruct (ts_Runner (te_Spec t)) as [r|] eqn:Hr; [|done].
    apply omap_nil. intros e He. by rewrite bool_decide_eq_false_2 by by apply (H t r e).
Qed.

Lemma filter_nil_bool {A} (f : A → bool) l :
  List.filter f l = [] ↔ ∀ x, x ∈ l → f x = false.
Proof.
  induction l as [|x l IH]; simpl; [split; [by intros _ ? ?%elem_of_nil|done]|].
  setoid_rewrite elem_of_cons. destruct (f x) eqn:E.
  - split; [done|]. intros H. rewrite H in E by auto. done.
  - rewrite IH. naive_solver.
Qed.

Lemma refuseUnsatisfiableThresholds_None tests :
  refuseUnsatisfiableThresholds tests = None ↔
  ∀ t th, t ∈ tests → th ∈ ts_Thresholds (te_Spec t) → ¬ malformed th.
Proof.
  transitivity (∀ t, t ∈ tests → problems_of SeverityMalformed t = []).
  { transitivity (mjoin ((λ t, problem_line t <$> problems_of SeverityMalformed t) <$> tests) = []).
    { unfold refuseUnsatisfiableThresholds. by destruct (mjoin _). }
    rewrite mjoin_nil. setoid_rewrite list_elem_of_fmap. split.
    - intros H t Ht. specialize (H _ (ex_intro _ t (conj eq_refl Ht))).
      by apply fmap_nil_inv in H.
    - intros H l (t & -> & Ht). by rewrite H. }
  unfold problems_of. setoid_rewrite filter_nil_bool. setoid_rewrite bool_decide_eq_false.
  setoid_rewrite lint_elem. split.
  - intros H t th Ht Hth Hm. apply list_elem_of_lookup in Hth as [i Hi].
    apply (lint_malformed (ts_Kind (te_Spec t))) in Hm as [r Hr].
    apply (H t Ht (MkProblem i (t_Metric th) SeverityMalformed r)); [|done]. by exists th.
  - intros H t Ht p (th & Hth & _ & Hin) Hs. apply (H t th Ht).
    + by eapply list_elem_of_lookup_2.
    + apply (lint_malformed (ts_Kind (te_Spec t))). rewrite Hs in Hin. eauto.
Qed.

Lemma refuseGatedBaseline_None tests baseline :
  refuseGatedBaseline tests baseline = None ↔
  (baseline = true → ∀ t, t ∈ tests → ts_Thresholds (te_Spec t) = []).
Proof.
  unfold refuseGatedBaseline. destruct baseline; simpl; [|by split].
  set (gated := omap _ tests).
  assert (gated = [] ↔ ∀ t, t ∈ tests → ts_Thresholds (te_Spec t) = []) as Hg.
  { unfold gated. rewrite omap_nil. split; intros H t Ht; specialize (H t Ht).
    - by destruct (ts_Thresholds (te_Spec t)).
    - by rewrite H. }
  split.
  - intros H _. apply Hg. by destruct gated.
  - intros H. by rewrite (proj2 Hg (H eq_refl)).
Qed.

(** What a topology demands of the targets and of the cap. *)
Definition topology_ok (t : Test) (targets : list str) (nodeCap : Z) : Prop :=
  if String.eqb (ts_Scope (te_Spec t)) ScopePair
  then length targets = 2%nat ∧ NoDup targets ∧ (2 <= nodeCap)%Z
  else if String.eqb (ts_Scope (te_Spec t)) ScopeGroup
  then (2 <= length targets)%nat ∧ NoDup targets ∧ (count_of targets <= nodeCap)%Z ∧
       (names_no_image t = true → ts_Kind (te_Spec t) ∈ groupCapableKinds)
  else True.

Lemma validatePairTopology_None t targets nodeCap :
  ts_Scope (te_Spec t) = ScopePair →
  validatePairTopology t targets nodeCap = None ↔
  length targets = 2%nat ∧ NoDup targets ∧ (2 <= nodeCap)%Z.
Proof.
  intros Hs. unfold validatePairTopology. rewrite Hs. simpl negb. cbv iota.
  destruct targets as [|a [|b [|c targets]]]; try (split; [discriminate|intros (H & _); discriminate]).
  rewrite !NoDup_cons, list_elem_of_singleton.
  destruct (String.eqb_spec a b) as [->|Hab].
  { split; [discriminate|]. intros (_ & (H & _) & _). by destruct H. }
  destruct (Z.ltb_spec nodeCap 2); (split; [|done || lia]); [discriminate|].
  intros _. split_and!; [done|done|apply not_elem_of_nil|constructor|lia].
Qed.

Lemma validateGroupTopology_None t targets nodeCap :
  (∀ n, n ∈ targets → n ≠ "") →
  validateGroupTopology t targets nodeCap = None ↔
  (2 <= length targets)%nat ∧ NoDup targets ∧ (count_of targets <= nodeCap)%Z ∧
  (names_no_image t = true → ts_Kind (te_Spec t) ∈ groupCapableKinds).
Proof.
  intros Hne. unfold validateGroupTopology. rewrite <-firstDuplicate_spec by done.
  destruct (Z.ltb_spec (count_of targets) 2) as [Hlt|Hge]; unfold count_of in *.
  { split; [discriminate|lia]. }
  destruct (String.eqb_spec (firstDuplicate targets) "") as [->|Hd]; simpl negb; cbv iota.
  2: { split; [discriminate|]. by intros (_ & ? & _). }
  destruct (names_no_image t) eqn:Hi; [case_bool_decide as Hk|]; simpl.
  2: { split; [discriminate|]. intros (_ & _ & _ & H). by destruct Hk; apply H. }
  all: destruct (Z.ltb_spec nodeCap (Z.of_nat (length targets)));
    (split; [intros H'|]); [discriminate|lia|split_and!; [lia|done|lia|done]|done].
Qed.

Lemma validateTopology_None t targets nodeCap :
  (∀ n, n ∈ targets → n ≠ "") →
  validateTopology t targets nodeCap = None ↔ topology_ok t targets nodeCap.
Proof.
  intros Hne. unfold validateTopology, topology_ok.
  destruct (String.eqb_spec (ts_Scope (te_Spec t)) ScopePair) as [Hp|_].
  { by apply validatePairTopology_None. }
  destruct (String.eqb (ts_Scope (te_Spec t)) ScopeGroup); [|done].
  by apply validateGroupTopology_None.
Qed.

Definition mount_ok (m : HostPathMount) : Prop :=
  HasPrefix (hp_Path m) "/" = true ∧ HasPrefix (hp_MountPath m) "/" = true.

Lemma host_paths_go_None q seen l :
  host_paths_go q seen l = None ↔
  NoDup (hp_MountPath <$> l) ∧ (∀ m, m ∈ l → mount_ok m ∧ hp_MountPath m ∉ seen).
Proof.
  revert seen. induction l as [|m l IH]; intros seen; simpl.
  { split; [|done]. intros _. split; [constructor|by intros ? ?%elem_of_nil]. }
  rewrite NoDup_cons, list_elem_of_fmap. setoid_rewrite elem_of_cons.
  assert (mount_ok m → (String.eqb (hp_Path m) "" || String.eqb (hp_MountPath m) "") = false ∧
    (negb (HasPrefix (hp_Path m) "/") || negb (HasPrefix (hp_MountPath m) "/")) = false) as Hok.
  { intros [H1 H2]. rewrite H1, H2. split; [|done].
    destruct (hp_Path m), (hp_MountPath m); by try discriminate. }
  destruct (String.eqb (hp_Path m) "" || _) eqn:E1.
  { split; [discriminate|]. intros [_ H]. by destruct (Hok (proj1 (H m (or_introl eq_refl)))). }
  destruct (negb (HasPrefix (hp_Path m) "/") || _) eqn:E2.
  { split; [discriminate|]. intros [_ H]. by destruct (Hok (proj1 (H m (or_introl eq_refl)))). }
  apply orb_false_iff in E2 as [E2 E3]. apply negb_false_iff in E2, E3.
  case_bool_decide as Hs.
  { split; [discriminate|]. intros [_ H]. by destruct (H m (or_introl eq_refl)). }
  assert (∀ x, x ∈ {[hp_MountPath m]} ∪ seen ↔ x = hp_MountPath m ∨ x ∈ seen) as Hu by set_solver.
  rewrite IH. setoid_rewrite Hu. split.
  - intros [Hnd H]. split; [split; [|done]|].
    + intros (m' & Heq & Hin). by destruct (H m' Hin) as [_ []]; left.
    + intros m' [->|Hin]; [done|]. destruct (H m' Hin) as [? H2]. split; [done|].
      intros ?. apply H2. by right.
  - intros [[Hn Hnd] H]. split; [done|]. intros m' Hin.
    destruct (H m' (or_intror Hin)) as [? H2]. split; [done|]. intros [Heq|?]; [|done].
    apply Hn. by exists m'.
Qed.

Lemma validateHostPaths_None t :
  validateHostPaths t = None ↔
  ∀ r, ts_Runner (te_Spec t) = Some r →
    NoDup (hp_MountPath <$> rs_HostPaths r) ∧ ∀ m, m ∈ rs_HostPaths r → mount_ok m.
Proof.
  unfold validateHostPaths. destruct (ts_Runner (te_Spec t)) as [r|]; [|by split].
  rewrite host_paths_go_None. split.
  - intros [Hnd H] r' [= <-]. split; [done|]. intros m Hm. by apply (H m Hm).
  - intros H. destruct (H r eq_refl) as [? Hm]. split; [done|]. intros m Hin. split; [auto|].
    set_solver.
Qed.

(** A segmented soak of a kind whose runner can fill it: segments no shorter than the floor
    and no longer than the soak, and no repeats. *)
Definition soak_ok (spec : BurnInTestSpec) : Prop :=
  ∀ s, ts_Soak spec = Some s →
    BurstOnly (ts_Kind spec) = false ∧
    (minSegmentSeconds <= so_SegmentSeconds s <= ts_DurationSeconds spec)%Z ∧
    ∀ n, ts_RepeatCount spec = Some n → (n <= 1)%Z.

Lemma validateSoak_None t : validateSoak t = None ↔ soak_ok (te_Spec t).
Proof.
  unfold validateSoak, soak_ok. destruct (ts_Soak (te_Spec t)) as [s|]; [|by split].
  assert ((repeatsRequired (te_Spec t) <= 1)%Z ↔ ∀ n, ts_RepeatCount (te_Spec t) = Some n → (n <= 1)%Z)
    as Hrep.
  { unfold repeatsRequired. destruct (ts_RepeatCount (te_Spec t)) as [n|]; [|split; [done|lia]].
    destruct (Z.ltb_spec n 1); split; [intros _ ? [= <-]; lia|lia|intros ? ? [= <-]; lia|auto]. }
  unfold minSegmentSeconds.
  destruct (BurstOnly (ts_Kind (te_Spec t))).
  { split; [discriminate|]. intros H. by destruct (H s eq_refl). }
  destruct (Z.ltb_spec (so_SegmentSeconds s) 300).
  { split; [discriminate|]. intros H'. destruct (H' s eq_refl) as (_ & ? & _). lia. }
  destruct (Z.leb_spec (ts_DurationSeconds (te_Spec t)) 0).
  { split; [discriminate|]. intros H'. destruct (H' s eq_refl) as (_ & ? & _). lia. }
  destruct (Z.ltb_spec (ts_DurationSeconds (te_Spec t)) (so_SegmentSeconds s)).
  { split; [discriminate|]. intros H'. destruct (H' s eq_refl) as (_ & ? & _). lia. }
  destruct (Z.ltb_spec 1 (repeatsRequired (te_Spec t))).
  { split; [discriminate|]. intros H'. destruct (H' s eq_refl) as (_ & _ & Hn%Hrep). lia. }
  split; [|done]. intros _ s' [= <-]. split_and!; [done|lia|lia|by apply Hrep].
Qed.

(** What [buildPlan] demands of one test. *)
Definition test_accepted (targets : list str) (nodeCap : Z) (t : Test) : Prop :=
  topology_ok t targets nodeCap ∧ soak_ok (te_Spec t) ∧
  (∀ th, th ∈ ts_Thresholds (te_Spec t) → ¬ malformed th) ∧
  (∀ k, is_Some (te_Axes t !! k) → EnvSafeAxis k = true) ∧
  ∀ r, ts_Runner (te_Spec t) = Some r →
    (∀ e, e ∈ rs_Env r → ev_Name e ∉ ReservedEnv) ∧
    (rs_Capabilities r ≠ [] → rs_RunAsUser r = Some 0%Z) ∧
    NoDup (hp_MountPath <$> rs_HostPaths r) ∧ ∀ m, m ∈ rs_HostPaths r → mount_ok m.

Lemma buildPlan_exact (profile : BurnInProfileSpec) (tests : list Test)
    (targets : list str) (nodeCap : Z) (baseline : bool) (p : plan) :
  (∀ n, n ∈ targets → n ≠ "") →
  buildPlan profile tests targets nodeCap baseline = inl p ↔
  p = MkPlan 1 targets (pr_Sinks profile) (pr_FailFast profile) baseline
        (count_of (pr_Tests profile)) tests ∧
  NoDup (te_Name <$> tests) ∧
  (baseline = true → ∀ t, t ∈ tests → ts_Thresholds (te_Spec t) = []) ∧
  ∀ t, t ∈ tests → test_accepted targets nodeCap t.
Proof.
  intros Hne. rewrite buildPlan_inl, refusals_None, refuseReservedEnvOverride_None,
    capabilities_need_root, refuseUnsatisfiableThresholds_None, refuseGatedBaseline_None,
    RefuseUnreachableAxes_None.
  unfold test_ok. setoid_rewrite validateTopology_None; [|done].
  setoid_rewrite validateHostPaths_None. setoid_rewrite validateSoak_None. unfold test_accepted. split.
  - intros (Hp & (Henv & Hcap & Hth & Hb & Hax) & Hnd & Hok). split_and!; [done..|].
    intros t Ht. destruct (Hok t Ht) as (Htop & Hm & Hs).
    split_and!; [done|done|intros th; by apply Hth|intros k; by apply Hax|].
    intros r Hr. destruct (Hm r Hr).
    split_and!; [intros e; by eapply Henv|by apply (Hcap t)|done|done].
  - intros (Hp & Hnd & Hb & H). split_and!; [done| | | |done| |done|].
    + intros t r e Ht Hr. destruct (H t Ht) as (_ & _ & _ & _ & Hr'). by apply (Hr' r Hr).
    + intros t r Ht Hr. destruct (H t Ht) as (_ & _ & _ & _ & Hr'). by apply (Hr' r Hr).
    + intros t th Ht Hth. destruct (H t Ht) as (_ & _ & Hth' & _). by apply Hth'.
    + intros t k Ht. by apply (H t Ht).
    + intros t Ht. destruct (H t Ht) as (Htop & Hs & _ & _ & Hr').
      split_and!; [done| |done]. intros r Hr. by destruct (Hr' r Hr) as (_ & _ & ?).
Qed.

(** Every execution unit of a test with an accepted topology fits the cap and names no node
    twice, and together the units are the targets in order. *)
Lemma executionUnits_fit p t nodeCap :
  (1 <= nodeCap)%Z → topology_ok t (pl_Targets p) nodeCap →
  mjoin (executionUnits p t) = pl_Targets p ∧
  ∀ u, u ∈ executionUnits p t → NoDup u ∧ (count_of u <= nodeCap)%Z.
Proof.
  intros Hcap Htop. unfold topology_ok in Htop. unfold executionUnits, count_of in *.
  set (targets := pl_Targets p) in *.
  assert (∀ u, u ∈ [targets] → NoDup targets →
    (Z.of_nat (length targets) <= nodeCap)%Z → NoDup u ∧ (Z.of_nat (length u) <= nodeCap)%Z) as Hone.
  { by intros u ->%list_elem_of_singleton. }
  destruct (String.eqb (ts_Scope (te_Spec t)) ScopePair); simpl orb; cbv iota.
  { destruct Htop as (Hlen & Hnd & H2). split; [apply app_nil_r|].
    intros u Hu. apply Hone; [done..|]. rewrite Hlen. lia. }
  destruct (String.eqb (ts_Scope (te_Spec t)) ScopeGroup).
  { destruct Htop as (_ & Hnd & H2 & _). split; [apply app_nil_r|].
    intros u Hu. by apply Hone. }
  split.
  - clear. induction targets as [|n l IH]; [done|]. simpl. by f_equal.
  - intros u (n & -> & _)%list_elem_of_fmap. split; [apply NoDup_singleton|simpl; lia].
Qed.

(** C19: What [buildPlan] accepts, for targets that have names: exactly the profiles whose
    tests have distinct names, carry no gate when a baseline is recorded, and each have a
    topology the targets and the cap can run, a soak that divides into segments, no
    malformed gate, no axis the environment cannot name, no variable the operator injects,
    capabilities only with root, and absolute, distinct mounts.  What it then pins is the
    tests as given, every target, and the profile's sinks and fail-fast; and the nodes of
    each execution of the plan fit the cap, none of them twice, the executions of a test
    together being the targets in order. *)
Theorem buildPlan_accepts (profile : BurnInProfileSpec) (tests : list Test)
    (targets : list str) (nodeCap : Z) (baseline : bool) (p : plan) :
  (∀ n, n ∈ targets → n ≠ "") → (1 <= nodeCap)%Z →
  (buildPlan profile tests targets nodeCap baseline = inl p ↔
   p = MkPlan 1 targets (pr_Sinks profile) (pr_FailFast profile) baseline
         (count_of (pr_Tests profile)) tests ∧
   NoDup (te_Name <$> tests) ∧
   (baseline = true → ∀ t, t ∈ tests → ts_Thresholds (te_Spec t) = []) ∧
   ∀ t, t ∈ tests → test_accepted targets nodeCap t) ∧
  (buildPlan profile tests targets nodeCap baseline = inl p →
   ∀ t, t ∈ pl_Tests p →
     mjoin (executionUnits p t) = targets ∧
     ∀ u, u ∈ executionUnits p t → NoDup u ∧ (count_of u <= nodeCap)%Z).
Proof.
  intros Hne Hcap. split; [by apply buildPlan_exact|]. intros H.
  apply buildPlan_exact in H as (-> & _ & _ & Hok); [|done]. intros t Ht.
  destruct (Hok t Ht) as [Htop _].
  exact (executionUnits_fit (MkPlan 1 targets _ _ baseline _ tests) t nodeCap Hcap Htop).
Qed.

Definition example_group : Test :=
  MkTest "nccl" true
    (MkTestSpec KindNCCL ScopeGroup 60 None None None None [] (MkResources ∅ ∅) false) ∅ "".
Definition example_profile : BurnInProfileSpec := MkProfile [] true ["sink"].

Lemma buildPlan_accepts_witness :
  buildPlan example_profile [example_group] ["a"; "b"; "c"] 3 false =
    inl (MkPlan 1 ["a"; "b"; "c"] ["sink"] true false 0 [example_group]) ∧
  NoDup (te_Name <$> [example_group]) ∧
  mjoin (executionUnits (MkPlan 1 ["a"; "b"; "c"] ["sink"] true false 0 [example_group]) example_group) =
    ["a"; "b"; "c"].
Proof.
  assert (buildPlan example_profile [example_group] ["a"; "b"; "c"] 3 false =
    inl (MkPlan 1 ["a"; "b"; "c"] ["sink"] true false 0 [example_group])) as H
    by (vm_compute; reflexivity).
  split; [exact H|].
  assert (∀ n, n ∈ ["a"; "b"; "c"] → n ≠ "") as Hne.
  { intros n Hn ->. revert Hn. apply (bool_decide_unpack _). vm_compute. exact I. }
  assert ((1 <= 3)%Z) as Hcap by (vm_compute; discriminate).
  destruct (buildPlan_accepts example_profile [example_group] ["a"; "b"; "c"] 3 false
    (MkPlan 1 ["a"; "b"; "c"] ["sink"] true false 0 [example_group]) Hne Hcap) as [Hiff Hfit].
  split; [exact (proj1 (proj2 (proj1 Hiff H)))|].
  exact (proj1 (Hfit H example_group (list_elem_of_here _ _))).
Defined.
