(* ===== verification/PlanStore.v ===== *)
(** * internal/controller/plan.go: the plan in the run's annotation

    A small plan is stored as JSON, a larger one gzipped and in base64; the reader tells
    the two apart by the first character.  base64 is [GoBase64]; JSON and gzip are an
    interface, [PlanCodec], with what the source relies on as the laws of [codec_ok]. *)

From S2P Require Import Prelude GoStrings GoBase64 GoFloat GoTime Contract Registry Runner Verdict Api Plan.
From S2P Require Import Soak Pods RunPlan.
Open Scope stdpp_scope.

(** encoding/json on a plan, and compress/gzip: [Gunzip n] is what reading at most [n] bytes
    of the decompressed stream gives.  A failed decoding gives the error's text. *)
Class PlanCodec := {
  Marshal : plan → str;
  Unmarshal : str → plan + str;
  Gzip : str → str;
  Gunzip : nat → str → str + str;
}.

Definition maxPlanBytes : Z := (128 * 1024)%Z.
Definition maxDecompressedPlanBytes : Z := (4 * 1024 * 1024)%Z.

Definition bytes_of (s : str) : Z := Z.of_nat (String.length s).

Definition json_space : str := String (chr 32) (String (chr 9) (String (chr 13) (String (chr 10) ""))).

Definition isRawJSONPlan (s : str) : bool := HasPrefix (TrimLeft s json_space) "{".

Section store.
Context `{PlanCodec}.

Definition set_plan_annotation (stored : str) (run : BurnInRun) : BurnInRun :=
  set_run_Annotations (<[planAnnotation := stored]> (run_Annotations run)) run.

Definition compressPlan (raw : str) : str := EncodeToString (Gzip raw).

(** [pinPlan]: the run with the plan, or the error's text. *)
Definition pinPlan (run : BurnInRun) (p : plan) : BurnInRun + str :=
  let raw := Marshal p in
  if (maxPlanBytes <? bytes_of raw)%Z then
    let packed := compressPlan raw in
    if (maxPlanBytes <? bytes_of packed)%Z then
      inr ("resolved plan is " +:+ Itoa (bytes_of raw) +:+ " bytes and " +:+
           Itoa (bytes_of packed) +:+ " compressed, over the " +:+ Itoa maxPlanBytes +:+
           " limit — split the profile, or reduce the number of variants")
    else inl (set_plan_annotation packed run)
  else inl (set_plan_annotation raw run).

Definition decompressPlan (s : str) : str + str :=
  match DecodeString (TrimSpace s) with
  | inr e => inr ("not raw JSON and not base64: " +:+ e)
  | inl packed =>
      match Gunzip (Z.to_nat (maxDecompressedPlanBytes + 1)) packed with
      | inr e => inr e
      | inl out =>
          if (maxDecompressedPlanBytes <? bytes_of out)%Z then
            inr ("decompresses to more than " +:+ Itoa maxDecompressedPlanBytes +:+
                 " bytes; refusing to expand it further")
          else inl out
      end
  end.

(** [loadPlan]: [None] when nothing is pinned. *)
Definition loadPlan (run : BurnInRun) : option (plan + str) :=
  raw ← run_Annotations run !! planAnnotation;
  Some (match (if isRawJSONPlan raw then inl raw else decompressPlan raw) with
        | inr e => inr ("pinned plan does not decode: " +:+ e)
        | inl data =>
            match Unmarshal data with
            | inr e => inr ("pinned plan does not decode: " +:+ e)
            | inl p =>
                if (pl_Version p =? 1)%Z then inl p
                else inr ("pinned plan has unknown version " +:+ Itoa (pl_Version p))
            end
        end).

(** ** Round trip *)

(** What the encodings promise about a plan: JSON reads back and is an object; a gzip stream
    is never empty, and reading a number of bytes from it gives that many of the original. *)
Definition codec_ok (p : plan) : Prop :=
  Unmarshal (Marshal p) = inl p ∧ HasPrefix (Marshal p) "{" = true ∧
  Gzip (Marshal p) ≠ "" ∧ ∀ n, Gunzip n (Gzip (Marshal p)) = inl (take n (Marshal p)).

(** A compressed plan is told from a raw one, and expands as far as the bound lets it. *)
Lemma packed_plan_sniffed raw : Gzip raw ≠ "" → isRawJSONPlan (compressPlan raw) = false.
Proof.
  intros Hne. unfold isRawJSONPlan, compressPlan.
  destruct (encoded_head _ Hne) as (c & rest & -> & Hg & Hc).
  assert (any_char (Ascii.eqb c) json_space = false) as Hs.
  { revert Hg. destruct c as [[] [] [] [] [] [] [] []]; vm_compute; congruence. }
  cbn [TrimLeft]. rewrite Hs. apply not_true_iff_false. by intros [q [= -> _]]%HasPrefix_spec.
Qed.

Lemma bytes_of_take n s : bytes_of (take n s) = Z.min (Z.of_nat n) (bytes_of s).
Proof.
  unfold bytes_of. revert n. induction s as [|c s IH]; intros [|n]; cbn [take String.length]; try lia.
  specialize (IH n). lia.
Qed.

Lemma take_all n s : (bytes_of s <= Z.of_nat n)%Z → take n s = s.
Proof.
  unfold bytes_of. revert n. induction s as [|c s IH]; intros [|n]; cbn [take String.length]; intros Hle;
    [done..|lia|]. by rewrite IH by lia.
Qed.

Lemma decompress_compressed p :
  codec_ok p →
  decompressPlan (compressPlan (Marshal p)) =
    if (maxDecompressedPlanBytes <? bytes_of (Marshal p))%Z
    then inr ("decompresses to more than " +:+ Itoa maxDecompressedPlanBytes +:+
              " bytes; refusing to expand it further")
    else inl (Marshal p).
Proof.
  intros (_ & _ & _ & Hgz). unfold decompressPlan, compressPlan.
  rewrite encoded_trimmed, DecodeString_EncodeToString, Hgz, bytes_of_take, Z2Nat.id by done.
  destruct (Z.ltb_spec maxDecompressedPlanBytes (bytes_of (Marshal p))) as [Hbig|Hsmall].
  - destruct (Z.ltb_spec maxDecompressedPlanBytes (Z.min (maxDecompressedPlanBytes + 1) (bytes_of (Marshal p))));
      [done|lia].
  - destruct (Z.ltb_spec maxDecompressedPlanBytes (Z.min (maxDecompressedPlanBytes + 1) (bytes_of (Marshal p))));
      [lia|]. rewrite take_all; [done|]. rewrite Z2Nat.id by done. lia.
Qed.

Lemma raw_plan_sniffed p : HasPrefix (Marshal p) "{" = true → isRawJSONPlan (Marshal p) = true.
Proof.
  intros [q Hq]%HasPrefix_spec. unfold isRawJSONPlan. rewrite Hq.
  apply HasPrefix_spec. by exists q.
Qed.

Lemma set_plan_annotation_lookup stored run :
  run_Annotations (set_plan_annotation stored run) !! planAnnotation = Some stored.
Proof. cbn. apply lookup_insert_eq. Qed.

(** C21: A plan that was pinned is read back exactly, whichever of the two forms it was
    stored in, if its JSON is within the four mebibytes the reader is willing to expand;
    pinning writes nothing but the plan's annotation. *)
Theorem pinned_plan_roundtrip run p run' :
  codec_ok p → pl_Version p = 1%Z → (bytes_of (Marshal p) <= maxDecompressedPlanBytes)%Z →
  pinPlan run p = inl run' →
  loadPlan run' = Some (inl p) ∧
  (∀ k, k ≠ planAnnotation → run_Annotations run' !! k = run_Annotations run !! k) ∧
  set_run_Annotations (run_Annotations run) run' = run.
Proof.
  intros Hok Hv Hsize. pose proof Hok as (Hjson & Hobj & Hne & _). unfold pinPlan, loadPlan.
  assert (∀ stored, (∀ k, k ≠ planAnnotation →
      run_Annotations (set_plan_annotation stored run) !! k = run_Annotations run !! k) ∧
    set_run_Annotations (run_Annotations run) (set_plan_annotation stored run) = run) as Hrest.
  { intros stored. split; [|by destruct run]. intros k Hk. cbn. by rewrite lookup_insert_ne. }
  destruct (Z.ltb_spec maxPlanBytes (bytes_of (Marshal p))).
  - destruct (Z.ltb_spec maxPlanBytes (bytes_of (compressPlan (Marshal p)))); [done|].
    intros [= <-]. split; [|apply Hrest]. rewrite set_plan_annotation_lookup.
    cbn [mbind option_bind]. rewrite packed_plan_sniffed, decompress_compressed by done.
    destruct (Z.ltb_spec maxDecompressedPlanBytes (bytes_of (Marshal p))); [lia|].
    by rewrite Hjson, Hv.
  - intros [= <-]. split; [|apply Hrest]. rewrite set_plan_annotation_lookup.
    cbn [mbind option_bind]. by rewrite raw_plan_sniffed, Hjson, Hv.
Qed.

(** The bound is not checked when the plan is pinned: a plan of repetitive tests that is
    over it compresses below the stored limit, is pinned, and is refused when it is read
    back. *)
Lemma pinned_plan_over_bound run p :
  codec_ok p → (maxDecompressedPlanBytes < bytes_of (Marshal p))%Z →
  (bytes_of (compressPlan (Marshal p)) <= maxPlanBytes)%Z →
  ∃ run' e, pinPlan run p = inl run' ∧ loadPlan run' = Some (inr e).
Proof.
  intros Hok Hbig Hsmall. pose proof Hok as (_ & _ & Hne & _). unfold pinPlan, loadPlan.
  destruct (Z.ltb_spec maxPlanBytes (bytes_of (Marshal p)));
    [|unfold maxPlanBytes, maxDecompressedPlanBytes in *; lia].
  destruct (Z.ltb_spec maxPlanBytes (bytes_of (compressPlan (Marshal p)))); [lia|].
  eexists _, _. split; [done|]. rewrite set_plan_annotation_lookup. cbn [mbind option_bind].
  rewrite packed_plan_sniffed, decompress_compressed by done.
  destruct (Z.ltb_spec maxDecompressedPlanBytes (bytes_of (Marshal p))); [done|lia].
Qed.
End store.

(** A plan that needs packing: its JSON is over the limit, its compressed form is not. *)
Definition example_pinned : plan := MkPlan 1 ["a"] ["sink"] true false 0 [soak_test].

Fixpoint doubled (n : nat) (s : str) : str :=
  match n with O => s | S n => doubled n s +:+ doubled n s end.

Definition long_json : str := doubled 17 "{}".

Lemma bytes_doubled n s : bytes_of (doubled n s) = (2 ^ Z.of_nat n * bytes_of s)%Z.
Proof.
  unfold bytes_of. induction n as [|n IH]; cbn [doubled]; [lia|].
  rewrite str_app_length, Nat2Z.inj_add, !IH, Nat2Z.inj_succ, Z.pow_succ_r; lia.
Qed.

Lemma long_json_bytes : bytes_of long_json = 262144%Z.
Proof. unfold long_json. rewrite bytes_doubled. reflexivity. Qed.

Lemma doubled_object n : HasPrefix (doubled n "{}") "{" = true.
Proof.
  induction n as [|n IH]; [done|]. cbn [doubled]. apply HasPrefix_spec in IH as [q ->].
  apply HasPrefix_spec. eexists. by rewrite str_app_assoc.
Qed.

(** A codec that knows one plan, and one long text. *)
Definition example_codec : PlanCodec :=
  Build_PlanCodec (λ _, long_json)
    (λ s, if (bytes_of s =? 262144)%Z then inl example_pinned else inr "bad")
    (λ _, "packed") (λ n s, if String.eqb s "packed" then inl (take n long_json) else inr "bad").

Lemma example_codec_ok : @codec_ok example_codec example_pinned.
Proof.
  unfold codec_ok, Unmarshal, Marshal, Gzip, Gunzip, example_codec. rewrite long_json_bytes.
  split; [reflexivity|]. split; [exact (doubled_object 17)|]. split; [discriminate|]. intros n. reflexivity.
Qed.

Lemma pinned_plan_roundtrip_witness :
  @codec_ok example_codec example_pinned ∧
  @pinPlan example_codec (named_run "r") example_pinned =
    inl (set_plan_annotation "cGFja2Vk" (named_run "r")) ∧
  @loadPlan example_codec (set_plan_annotation "cGFja2Vk" (named_run "r")) = Some (inl example_pinned).
Proof.
  pose proof example_codec_ok as Hok.
  assert (@pinPlan example_codec (named_run "r") example_pinned =
    inl (set_plan_annotation "cGFja2Vk" (named_run "r"))) as Hpin.
  { unfold pinPlan, compressPlan, Marshal, Gzip, example_codec. rewrite long_json_bytes. reflexivity. }
  split; [exact Hok|]. split; [exact Hpin|].
  apply (@pinned_plan_roundtrip example_codec (named_run "r") example_pinned _ Hok eq_refl).
  - unfold Marshal, example_codec. rewrite long_json_bytes. unfold maxDecompressedPlanBytes. lia.
  - exact Hpin.
Defined.
