(* ===== verification/Attempt.v ===== *)
(** * internal/controller/burninrun_controller.go: results and attempts

    The bookkeeping of one run: how an execution opens a result and an attempt, how
    a runner's result becomes a phase, what an attempt's phase means for its test,
    and how the results become counters and a terminal phase.  A [*TestResult]
    into [run.Status.Results] is an index into that list, and an assignment
    through it an update at the index.  Counters are int32.  The clock is an
    argument. *)

From S2P Require Import Prelude GoStrings GoFloat GoTime Contract Registry Runner Verdict Api Plan.
From S2P Require Import Soak Pods RunPlan.
Open Scope stdpp_scope.

(** ** The evidence of an outcome *)
Record attemptEvidence := MkEvidence {
  ae_violations : list ViolationRef;
  ae_notEvaluated : list NotEvaluatedRef;
  ae_applied : list AppliedGateRef;
  ae_unmeasurable : list str;
}.

Definition noEvidence : attemptEvidence := MkEvidence [] [] [] [].

Definition violationsFor (vs : list Violation) : list ViolationRef :=
  (λ v, MkViolationRef (i32 (Z.of_nat (v_Index v))) (v_Metric v) (Cause_string (v_Cause v))
          (ViolationKind_string (v_Kind v)) (v_Reason v)) <$> vs.

Definition appliedFor (out : Outcome) : list AppliedGateRef :=
  (λ a, MkAppliedRef (i32 (Z.of_nat (ag_Index a))) (ag_Metric a) (ag_Comparison a)
          (ag_Value a)) <$> o_Applied out.

(** [message + " [" + s + "]"], trimmed. *)
Definition bracketed (message s : str) : str := TrimSpace (message +:+ " [" +:+ s +:+ "]").

Definition gateOutcome (metrics : gmap str str) (unmeasurable : gmap str bool)
    (thresholds : list Threshold) (runnerSaid : str) : RunPhase * str * attemptEvidence :=
  let out := Evaluate metrics unmeasurable thresholds in
  let '(phase, message, violations) :=
    if o_Passed out then (RunPassed, runnerSaid, [])
    else
      let prior := TrimSpace runnerSaid in
      let message := if String.eqb prior "" then o_Message out
                     else bracketed (o_Message out) prior in
      let more := ViolationSummary out in
      let message := if String.eqb more "" then message else bracketed message more in
      (RunFailed, message, violationsFor (o_Violations out)) in
  let why := NotEvaluatedMessage out in
  let message := if String.eqb why "" then message else bracketed message why in
  (phase, message,
   MkEvidence violations
     ((λ n, MkNotEvaluatedRef (ne_Metric n) (ne_Reason n)) <$> o_NotEvaluated out)
     (appliedFor out) []).

(** ** attemptOutcome *)
Definition undeclaredSkipMessage : str :=
  "runner exited 2 (the skip code) without declaring a skip — it never reported that this test does not apply to this hardware. An unrecovered Go panic exits 2, as does every Go runtime fatal error (out of memory, concurrent map writes, stack exhaustion), so the likeliest cause is a crashed runner: the hardware is UNJUDGED, not out of scope".

Definition explainUndeclaredSkip (runnerSaid : str) : str :=
  let s := TrimSpace runnerSaid in
  if String.eqb s "" then undeclaredSkipMessage
  else undeclaredSkipMessage +:+ " [runner said: " +:+ s +:+ "]".

Definition emptyHarvestMessage (n : Z) : str :=
  "runner exited 0 but reported no metrics at all — it measured nothing, so the test's " +:+
  Itoa n +:+
  " threshold(s) could not be evaluated; no verdict (a runner killed or evicted before it printed looks like this)".

Definition maxNamedInvalidMetrics : nat := 8.

Definition sorted_keys {A} (m : gmap str A) : list str := sort_strings (map_to_list m).*1.

Definition invalid_names_note (names : list str) : str :=
  let shown := list.take maxNamedInvalidMetrics names in
  let suffix := if (maxNamedInvalidMetrics <? length names)%nat
                then ", and " +:+ Itoa (count_of names - Z.of_nat maxNamedInvalidMetrics) +:+ " more"
                else "" in
  " [runner emitted " +:+ Itoa (count_of names) +:+ " metric name(s) the contract rejects: " +:+
  Join shown ", " +:+ suffix +:+ "]".

Definition is_nil {A} (l : list A) : bool := match l with [] => true | _ => false end.

(** The switch over the runner's verdict. *)
Definition verdict_outcome (t : Test) (parsed : Result) : RunPhase * str * attemptEvidence :=
  let thresholds := ts_Thresholds (te_Spec t) in
  let said := r_Message parsed in
  match r_Verdict parsed with
  | VerdictPass =>
      if negb (is_nil thresholds) && ReportedNothing parsed then
        let message := emptyHarvestMessage (count_of thresholds) in
        (RunError,
         if String.eqb said "" then message
         else TrimSpace (message +:+ " [runner said: " +:+ said +:+ "]"),
         noEvidence)
      else
        gateOutcome (r_Metrics parsed) (r_Unmeasurable parsed)
          (if (0 <? segmentSeconds (te_Spec t))%Z then [] else thresholds) said
  | VerdictFail => (RunFailed, said, noEvidence)
  | VerdictSkip => (RunSkipped, said, noEvidence)
  | VerdictError =>
      (RunError, if r_UndeclaredSkip parsed then explainUndeclaredSkip said else said, noEvidence)
  end.

Definition attemptOutcome (t : Test) (parsed : Result) : RunPhase * str * attemptEvidence :=
  let '(phase, message, ev) := verdict_outcome t parsed in
  (phase,
   (if is_nil (r_InvalidNames parsed) then message
    else TrimSpace (message +:+ invalid_names_note (r_InvalidNames parsed))),
   MkEvidence (ae_violations ev) (ae_notEvaluated ev) (ae_applied ev)
     (sorted_keys (r_Unmeasurable parsed))).

(** ** Harvesting a terminated pod *)
Definition runnerChoseExitCode (exitCode : Z) : bool := (0 <=? exitCode)%Z && (exitCode <=? 3)%Z.

Definition set_verdict (v : Verdict) (message : str) (r : Result) : Result :=
  MkResult v (r_ExitCode r) (r_Metrics r) (r_Unmeasurable r) message (r_InvalidNames r)
    (r_Artifacts r) (r_UndeclaredSkip r).

(** What [fetchLogs] returns: the runner's stdout or an error. *)
Abbreviation logs := (str + str)%type.

Definition harvestPod (t : Test) (pod : Pod) (out : logs) : Result * option str :=
  let '(exitCode, reason, detail) :=
    match podOutcome pod with
    | Some o => (po_exitCode o, po_reason o, po_detail o)
    | None => (0%Z, "", "")
    end in
  let stdout := match out with inl s => s | inr _ => "" end in
  let parsed := Parse (ts_Kind (te_Spec t)) stdout exitCode in
  let parsed :=
    if bool_decide (r_Verdict parsed = VerdictError) then
      let account :=
        let d := TrimSpace detail in
        "runner terminated abnormally (exit " +:+ Itoa exitCode +:+ ", reason " +:+
        quote reason +:+ ")" +:+
        (if String.eqb d "" then "" else ": " +:+ clampPodDetail d) in
      if String.eqb (r_Message parsed) "" then set_verdict (r_Verdict parsed) account parsed
      else if negb (runnerChoseExitCode exitCode)
      then set_verdict (r_Verdict parsed) (r_Message parsed +:+ " [" +:+ account +:+ "]") parsed
      else parsed
    else parsed in
  let parsed :=
    if String.eqb reason "DeadlineExceeded"
    then set_verdict VerdictError "test exceeded its deadline and was killed — no verdict" parsed
    else parsed in
  (parsed, match out with inl _ => None | inr e => Some e end).

(** [missingThresholdMetric] (pair.go) *)
Definition missingThresholdMetric (res : Result) (thresholds : list Threshold) : bool :=
  existsb (λ th, negb (bool_decide (is_Some (r_Metrics res !! t_Metric th))) &&
                 negb (IsUnmeasurable res (t_Metric th))) thresholds.

(** ** The results of a run *)
Definition results (run : BurnInRun) : list TestResult := st_Results (run_Status run).

Definition set_results (l : list TestResult) (run : BurnInRun) : BurnInRun :=
  set_run_Status (set_st_Results l (run_Status run)) run.

(** An assignment through a pointer into the results. *)
Definition set_result (i : nat) (res : TestResult) (run : BurnInRun) : BurnInRun :=
  set_results (<[i := res]> (results run)) run.

Fixpoint index_of {A} (p : A → bool) (l : list A) : option nat :=
  match l with
  | [] => None
  | x :: l => if p x then Some 0%nat else S <$> index_of p l
  end.

(** [resultFor]: an empty node matches any result of the test. *)
Definition result_is (testName node : str) (res : TestResult) : bool :=
  String.eqb (tr_Name res) testName &&
  (String.eqb node "" || existsb (String.eqb node) (tr_Nodes res)).

Definition resultIndex (run : BurnInRun) (testName node : str) : option nat :=
  index_of (result_is testName node) (results run).

Definition resultFor (run : BurnInRun) (testName node : str) : option TestResult :=
  i ← resultIndex run testName node; results run !! i.

Definition newResult (t : Test) (nodes : list str) : TestResult :=
  MkResultFor (te_Name t) (ts_Kind (te_Spec t)) (ts_Scope (te_Spec t)) RunRunning nodes
    None None None ∅ "" [] [] [] [] [] (CopyAxes (te_Axes t))
    (repeatsRequired (te_Spec t)) 0 0 (segmentsRequired (te_Spec t)) 0
    (segmentSeconds (te_Spec t)) ∅ 0 [].

(** [nodes[0]]; an execution unit is never empty. *)
Definition first_node (nodes : list str) : str := hd "" nodes.

Definition ensureResult (run : BurnInRun) (t : Test) (nodes : list str) : BurnInRun * nat :=
  match resultIndex run (te_Name t) (first_node nodes) with
  | Some i => (run, i)
  | None => (set_results (results run ++ [newResult t nodes]) run, length (results run))
  end.

Definition count_phase (p : RunPhase) (l : list TestResult) : Z :=
  i32 (count_of (List.filter (λ r, bool_decide (tr_Phase r = p)) l)).

Definition recount (run : BurnInRun) : BurnInRun :=
  let st := run_Status run in
  let n := λ p, count_phase p (results run) in
  set_run_Status
    (MkStatus (st_Phase st) (st_Fingerprint st) (st_StartedAt st) (st_FinishedAt st)
       (st_Results st) (n RunPassed) (n RunFailed) (n RunError) (n RunSkipped)
       (st_CordonedNodes st) (st_PriorUnschedulable st) (st_Conditions st)) run.

Definition hasRequiredFailure (run : BurnInRun) (p : plan) : bool :=
  existsb (λ res, bool_decide (tr_Phase res = RunFailed) &&
                  is_set (requiredByName p) (tr_Name res)) (results run).

Definition hasRequiredError (run : BurnInRun) (p : plan) : bool :=
  existsb (λ res, bool_decide (tr_Phase res = RunError) &&
                  ((IsSynthetic res && String.eqb (tr_Name res) SyntheticResultResolve) ||
                   is_set (requiredByName p) (tr_Name res))) (results run).

(** [isTerminal], of a run's phase. *)
Definition isTerminal (p : RunPhase) : bool :=
  match p with RunPassed | RunFailed | RunError | RunCancelled => true | _ => false end.

(** The phase [finalize] derives. *)
Definition final_phase (run : BurnInRun) (p : plan) : RunPhase :=
  if hasRequiredFailure run p then RunFailed
  else if hasRequiredError run p then RunError else RunPassed.

Definition holdingNodes (run : BurnInRun) : gset str :=
  list_to_set (List.filter (λ n, negb (String.eqb n ""))
    (mjoin (tr_Nodes <$> List.filter (λ res, negb (IsTerminal (tr_Phase res))) (results run)))).

(** ** Attempts *)
Definition triggerFor (res : TestResult) : AttemptTrigger :=
  match last (tr_Attempts res) with
  | None => AttemptInitial
  | Some a =>
      if bool_decide (at_Phase a = RunError) then AttemptErrorRetry
      else if (0 <? tr_SegmentsRequired res)%Z then AttemptSegment
      else AttemptRepeat
  end.

Definition nextAttempt (res : option TestResult) : Z * bool :=
  match last (default [] (tr_Attempts <$> res)) with
  | None => (1%Z, false)
  | Some a =>
      if IsTerminal (at_Phase a) then (i32 (at_Attempt a + 1), false) else (at_Attempt a, true)
  end.

Definition podNameOf (pod : option Pod) : str := default "" (pod_Name <$> pod).

(** An update of the last attempt. *)
Definition alter_last (f : TestAttempt → TestAttempt) (l : list TestAttempt) : list TestAttempt :=
  alter f (length l - 1)%nat l.

Definition is_unset {A} (o : option A) : bool := match o with None => true | Some _ => false end.

(** [beginAttempt] on the result itself. *)
Definition begin_on (now : Z) (res : TestResult) (nodes : list str) (attempt : Z)
    (pod : option Pod) : TestResult * bool :=
  let started :=
    match pod with
    | Some p => if podStarted p then Some (attemptStart pod now) else None
    | None => None
    end in
  let opens := negb (is_unset started) && is_unset (tr_StartedAt res) in
  let res := if opens then set_tr_StartedAt started res else res in
  let '(n, inProgress) := nextAttempt (Some res) in
  if inProgress && (n =? attempt)%Z then
    match last (tr_Attempts res) with
    | Some a =>
        if is_unset (at_StartedAt a) && negb (is_unset started)
        then (set_tr_Attempts (alter_last (set_at_StartedAt started) (tr_Attempts res)) res, true)
        else (res, opens)
    | None => (res, opens)
    end
  else
    (set_tr_Attempts (tr_Attempts res ++
       [MkAttempt attempt (triggerFor res) (first_node nodes) (podNameOf pod) RunRunning None
          started None None ∅ ""]) res, true).

Definition beginAttempt (now : Z) (run : BurnInRun) (t : Test) (nodes : list str)
    (attempt : Z) (pod : option Pod) : BurnInRun * nat * bool :=
  let '(run1, i) := ensureResult run t nodes in
  let changed := negb (length (results run1) =? length (results run))%nat in
  match results run1 !! i with
  | Some res =>
      let '(res, began) := begin_on now res nodes attempt pod in
      (set_result i res run1, i, changed || began)
  | None => (run1, i, changed)
  end.

(** ** Segments *)
Definition foldSegment (res : TestResult) (parsed : Result) : TestResult :=
  let res := set_tr_SegmentsCompleted (i32 (tr_SegmentsCompleted res + 1)) res in
  let res := set_tr_AggregatedMetrics
               (foldMetrics (tr_AggregatedMetrics res) (r_Metrics parsed)) res in
  let res := set_tr_Unmeasurable
               (foldUnmeasurable (tr_Unmeasurable res) (r_Unmeasurable parsed)
                  (tr_AggregatedMetrics res)) res in
  if bool_decide (tr_AggregatedMetrics res = ∅) then res
  else set_tr_Metrics (tr_AggregatedMetrics res) res.

(** [segmentVerdict]: [None] keeps the test open. *)
Definition segmentVerdict (t : Test) (res : TestResult) (parsed : Result)
    : option (RunPhase * str * attemptEvidence) :=
  let declared := unmeasurableSet (tr_Unmeasurable res) in
  let thresholds := ts_Thresholds (te_Spec t) in
  let agg := tr_AggregatedMetrics res in
  if (tr_SegmentsRequired res <=? tr_SegmentsCompleted res)%Z then
    let '(phase, message, ev) := gateOutcome agg declared thresholds (r_Message parsed) in
    let prefix := Itoa (tr_SegmentsCompleted res) +:+ " segment(s) of " +:+
                  Itoa (segmentSeconds (te_Spec t)) +:+ "s completed" in
    let rest := TrimSpace message in
    Some (phase, (if String.eqb rest "" then prefix else prefix +:+ "; " +:+ rest),
          MkEvidence (ae_violations ev) (ae_notEvaluated ev) (ae_applied ev)
            (tr_Unmeasurable res))
  else if negb (abortEarly (te_Spec t)) then None
  else
    match provableViolations agg (Evaluate agg declared thresholds) thresholds with
    | [] => None
    | v :: vs =>
        let message :=
          "soak aborted after segment " +:+ Itoa (tr_SegmentsCompleted res) +:+ " of " +:+
          Itoa (tr_SegmentsRequired res) +:+ ": " +:+ v_Reason v +:+
          ". The aggregate already violates a gate no later segment could retract, so the remaining " +:+
          Itoa (i32 (tr_SegmentsRequired res - tr_SegmentsCompleted res)) +:+
          " segment(s) were not burned" in
        let more := summary_of (v :: vs) in
        Some (RunFailed, (if String.eqb more "" then message else bracketed message more),
              MkEvidence (violationsFor (v :: vs)) [] [] (tr_Unmeasurable res))
    end.

(** ** completeAttempt *)

(** The [settle] closure, on the result. *)
Definition settle (now : Z) (final : RunPhase) (msg : str) (metrics : gmap str str)
    (ev : attemptEvidence) (res : TestResult) : TestResult :=
  set_tr_Unmeasurable (ae_unmeasurable ev)
    (set_tr_Applied (ae_applied ev)
      (set_tr_NotEvaluated (ae_notEvaluated ev)
        (set_tr_Violations (ae_violations ev)
          (set_tr_Metrics metrics
            (set_tr_Message msg
              (set_tr_FinishedAt (Some now) (set_tr_Phase final res))))))).

(** What is recorded of the attempt, before its phase is looked at. *)
Definition record_attempt (now : Z) (podName : str) (parsed : Result) (phase : RunPhase)
    (message : str) (res : TestResult) : TestResult :=
  let res := set_tr_Attempts (alter_last (λ a,
               let a := set_at_Message message
                 (set_at_Metrics (r_Metrics parsed)
                   (set_at_FinishedAt (Some now)
                     (set_at_ExitCode (Some (i32 (r_ExitCode parsed)))
                       (set_at_Phase phase a)))) in
               if String.eqb podName "" then a else set_at_PodName podName a)
               (tr_Attempts res)) res in
  let res := truncateAttempts res in
  if bool_decide (r_Metrics parsed = ∅) then res else set_tr_Metrics (r_Metrics parsed) res.

(** What an attempt's phase means for its test.  The switch over the phase: the result,
    and whether the test settled, stays open, or will be retried. *)
Inductive decision := DecideSettled | DecideOpen | DecideRetry.

Definition decide_attempt (now limit : Z) (t : Test) (attempt : Z) (parsed : Result)
    (phase : RunPhase) (message : str) (ev : attemptEvidence) (res : TestResult)
    : TestResult * decision :=
  match phase with
  | RunPassed =>
      if (0 <? tr_SegmentsRequired res)%Z then
        let res := foldSegment res parsed in
        match segmentVerdict t res parsed with
        | Some (final, msg, aggEv) =>
            let res := if bool_decide (final = RunPassed)
                       then set_tr_RepeatsCompleted (tr_RepeatsRequired res) res else res in
            (settle now final msg (tr_AggregatedMetrics res) aggEv res, DecideSettled)
        | None =>
            (set_tr_Message ("segment " +:+ Itoa (tr_SegmentsCompleted res) +:+ "/" +:+
               Itoa (tr_SegmentsRequired res) +:+ " complete") res, DecideOpen)
        end
      else
        let res := set_tr_RepeatsCompleted (i32 (tr_RepeatsCompleted res + 1)) res in
        if (tr_RepeatsRequired res <=? tr_RepeatsCompleted res)%Z
        then (settle now RunPassed message (r_Metrics parsed) ev res, DecideSettled)
        else
          (set_tr_Message ("attempt " +:+ Itoa (tr_RepeatsCompleted res) +:+ "/" +:+
             Itoa (tr_RepeatsRequired res) +:+ " passed") res, DecideOpen)
  | RunFailed => (settle now RunFailed message (r_Metrics parsed) ev res, DecideSettled)
  | RunSkipped => (settle now RunSkipped message (r_Metrics parsed) ev res, DecideSettled)
  | _ =>
      if (tr_ErrorRetries res <? limit)%Z then
        let res := set_tr_ErrorRetries (i32 (tr_ErrorRetries res + 1)) res in
        (set_tr_Message ("attempt " +:+ Itoa attempt +:+ " errored (" +:+ message +:+
           "); retrying") res, DecideRetry)
      else if (0 <? tr_SegmentsRequired res)%Z &&
              negb (bool_decide (tr_AggregatedMetrics res = ∅)) then
        (settle now RunError message (tr_AggregatedMetrics res)
           (MkEvidence [] [] [] (tr_Unmeasurable res)) res, DecideSettled)
      else (settle now RunError message (r_Metrics parsed) ev res, DecideSettled)
  end.

Definition completion_key (name : str) (nodes : list str) : str :=
  name +:+ "/" +:+ Join nodes "+".

(** [completeAttempt] on the result itself, after [beginAttempt]. *)
Definition finish_on (now limit : Z) (t : Test) (attempt : Z) (podName : str) (parsed : Result)
    (res : TestResult) : TestResult * decision :=
  let '(phase, message, ev) := attemptOutcome t parsed in
  decide_attempt now limit t attempt parsed phase message ev
    (record_attempt now podName parsed phase message res).

(** [completeAttempt]: the run, and the key of the completion it delivers. *)
Definition completeAttempt (now : Z) (run : BurnInRun) (t : Test) (nodes : list str)
    (attempt : Z) (podName : str) (pod : option Pod) (parsed : Result)
    : BurnInRun * option str :=
  let '(run, i, _) := beginAttempt now run t nodes attempt pod in
  match results run !! i with
  | None => (run, None)
  | Some res =>
      let '(res, d) := finish_on now (retryOnErrorLimit run) t attempt podName parsed res in
      let run := set_result i res run in
      match d with
      | DecideSettled => (recount run, Some (completion_key (tr_Name res) nodes))
      | DecideOpen => (recount run, None)
      | DecideRetry => (run, None)
      end
  end.

(** ** Results that are settled without an execution *)

(** [settleWithoutPod]: [None] for a scope this operator executes. *)
Definition knownScope (s : TestScope) : bool :=
  String.eqb s "" || String.eqb s ScopeNode || String.eqb s ScopePair || String.eqb s ScopeGroup.

(** A result complete the moment it is created, of no node. *)
Definition bareResult (now : Z) (name : str) (kind : TestKind) (scope : TestScope)
    (phase : RunPhase) (message : str) : TestResult :=
  MkResultFor name kind scope phase [] None (Some now) None ∅ message [] [] [] [] [] ∅
    0 0 0 0 0 0 ∅ 0 [].

(** [appendSettled], with the key it delivers. *)
Definition appendSettled (run : BurnInRun) (res : TestResult) : BurnInRun * str :=
  (recount (set_results (results run ++ [res]) run),
   match tr_Nodes res with
   | [] => tr_Name res
   | nodes => completion_key (tr_Name res) nodes
   end).

Definition settleWithoutPod (now : Z) (run : BurnInRun) (t : Test)
    : option (BurnInRun * option str) :=
  let scope := ts_Scope (te_Spec t) in
  if knownScope scope then None
  else
    match resultFor run (te_Name t) "" with
    | Some _ => Some (run, None)
    | None =>
        let '(run, key) := appendSettled run
          (bareResult now (te_Name t) (ts_Kind (te_Spec t)) scope RunError
             ("scope " +:+ quote scope +:+
              " is not a scope this operator version recognises (it runs Node, Pair and Group scope) — the test was NOT run; treat this hardware as unjudged for it")) in
        Some (run, Some key)
    end.

(** One execution unit of [settleRemaining]. *)
Definition settle_unit (now : Z) (phase : RunPhase) (message : str) (t : Test)
    (run : BurnInRun) (nodes : list str) : BurnInRun :=
  let '(run, i) := ensureResult run t nodes in
  match results run !! i with
  | None => run
  | Some res =>
      if IsTerminal (tr_Phase res) then run
      else
        let res := set_tr_Message message
                     (set_tr_FinishedAt (Some now) (set_tr_Phase phase res)) in
        let res :=
          match last (tr_Attempts res) with
          | Some a =>
              if IsTerminal (at_Phase a) then res
              else set_tr_Attempts (alter_last (λ a, set_at_Message message
                     (set_at_FinishedAt (Some now) (set_at_Phase phase a))) (tr_Attempts res)) res
          | None => res
          end in
        set_result i res run
  end.

Definition settle_test (now : Z) (p : plan) (phase : RunPhase) (message : str)
    (run : BurnInRun) (t : Test) : BurnInRun :=
  match resultFor run (te_Name t) "" with
  | Some existing =>
      if is_nil (tr_Nodes existing) then run
      else fold_left (settle_unit now phase message t) (executionUnits p t) run
  | None => fold_left (settle_unit now phase message t) (executionUnits p t) run
  end.

Definition settleRemaining (now : Z) (run : BurnInRun) (p : plan) (phase : RunPhase)
    (message : str) : BurnInRun :=
  recount (fold_left (settle_test now p phase message) (pl_Tests p) run).

(** What [terminate] writes to the status before its first update. *)
Definition close_open (now : Z) (res : TestResult) : TestResult :=
  if IsTerminal (tr_Phase res) then res
  else set_tr_Message "the run reached a terminal phase before this execution completed — no verdict"
         (set_tr_FinishedAt (Some now) (set_tr_Phase RunError res)).

Definition terminal_status (now : Z) (phase : RunPhase) (run : BurnInRun) : BurnInRun :=
  let run := set_run_Status (set_st_FinishedAt (Some now)
               (set_st_Phase phase (run_Status run))) run in
  recount (set_results (close_open now <$> results run) run).

(** ** Checkpoints *)
Definition checkpoint_on (now : Z) (t : Test) (out : logs) (res : TestResult)
    : TestResult * bool :=
  let interval := checkpointInterval (te_Spec t) in
  let since := match tr_LastCheckpointAt res with
               | Some s => Some s
               | None => tr_StartedAt res
               end in
  if IsTerminal (tr_Phase res) then (res, false)
  else if match since with Some s => (now - s <? interval)%Z | None => false end
  then (res, false)
  else
    match out with
    | inr _ => (res, false)
    | inl stdout =>
        let parsed := Parse (ts_Kind (te_Spec t)) stdout 0 in
        if bool_decide (r_Metrics parsed = ∅) then (res, false)
        else
          let published :=
            if (0 <? tr_SegmentsRequired res)%Z &&
               negb (bool_decide (tr_AggregatedMetrics res = ∅))
            then foldMetrics (tr_AggregatedMetrics res) (r_Metrics parsed)
            else r_Metrics parsed in
          let res := set_tr_LastCheckpointAt (Some now) (set_tr_Metrics published res) in
          match last (tr_Attempts res) with
          | Some a =>
              if IsTerminal (at_Phase a) then (res, true)
              else (set_tr_Attempts (alter_last (λ a, set_at_LastCheckpointAt (Some now)
                      (set_at_Metrics (r_Metrics parsed) a)) (tr_Attempts res)) res, true)
          | None => (res, true)
          end
    end.

Definition checkpoint (now : Z) (run : BurnInRun) (t : Test) (node : str) (out : logs)
    : BurnInRun * bool :=
  if (checkpointInterval (te_Spec t) <=? 0)%Z then (run, false)
  else
    match resultIndex run (te_Name t) node with
    | None => (run, false)
    | Some i =>
        match results run !! i with
        | None => (run, false)
        | Some res =>
            let '(res, wrote) := checkpoint_on now t out res in
            (set_result i res run, wrote)
        end
    end.

(** The number of whole intervals since the run started. *)
Definition checkpointSequence (now : Z) (run : BurnInRun) (p : plan) : Z :=
  let interval := plan_checkpointInterval p in
  match st_StartedAt (run_Status run) with
  | Some s =>
      if (interval <=? 0)%Z then 0
      else if (now - s <=? 0)%Z then 0
      else Z.quot (now - s) interval
  | None => 0
  end.

(** [deadlineExceeded] *)
Definition deadlineExceeded (now : Z) (run : BurnInRun) : bool :=
  let d := runDeadline run in
  match st_StartedAt (run_Status run) with
  | Some s => (0 <? d)%Z && (d <? now - s)%Z
  | None => false
  end.

(** ** Properties *)

Lemma is_nil_true {A} (l : list A) : is_nil l = true ↔ l = [].
Proof. by destruct l. Qed.

(** *** From an execution to a phase *)

(** A test that has gates and whose runner reported nothing at all. *)
Definition empty_harvest (t : Test) (parsed : Result) : bool :=
  negb (is_nil (ts_Thresholds (te_Spec t))) && ReportedNothing parsed.

(** The gates of an unsegmented test are met by what the runner reported. *)
Definition gates_met (t : Test) (parsed : Result) : bool :=
  (0 <? segmentSeconds (te_Spec t))%Z ||
  o_Passed (Evaluate (r_Metrics parsed) (r_Unmeasurable parsed) (ts_Thresholds (te_Spec t))).

Definition phase_of (t : Test) (parsed : Result) : RunPhase := (attemptOutcome t parsed).1.1.

Lemma gateOutcome_phase metrics unmeasurable ths said :
  (gateOutcome metrics unmeasurable ths said).1.1 =
  if o_Passed (Evaluate metrics unmeasurable ths) then RunPassed else RunFailed.
Proof. unfold gateOutcome. by destruct (o_Passed _). Qed.

Lemma phase_of_eq t parsed :
  phase_of t parsed =
  match r_Verdict parsed with
  | VerdictPass =>
      if empty_harvest t parsed then RunError
      else if gates_met t parsed then RunPassed else RunFailed
  | VerdictFail => RunFailed
  | VerdictSkip => RunSkipped
  | VerdictError => RunError
  end.
Proof.
  unfold phase_of, attemptOutcome.
  destruct (verdict_outcome t parsed) as [[phase message] ev] eqn:E. simpl.
  apply (f_equal (λ x, x.1.1)) in E. simpl in E. rewrite <-E. unfold verdict_outcome.
  destruct (r_Verdict parsed); [|reflexivity..].
  fold (empty_harvest t parsed). destruct (empty_harvest t parsed); [reflexivity|].
  rewrite gateOutcome_phase. unfold gates_met. by destruct (0 <? segmentSeconds (te_Spec t))%Z.
Qed.

Lemma set_verdict_metrics v m r :
  r_Metrics (set_verdict v m r) = r_Metrics r ∧
  r_Unmeasurable (set_verdict v m r) = r_Unmeasurable r ∧
  ReportedNothing (set_verdict v m r) = ReportedNothing r.
Proof. done. Qed.

(** What [harvestPod] makes of the parsed output: only the message changes, unless the
    pod was killed at its deadline. *)
Lemma harvestPod_result t pod o stdout :
  podOutcome pod = Some o →
  let raw := Parse (ts_Kind (te_Spec t)) stdout (po_exitCode o) in
  let parsed := (harvestPod t pod (inl stdout)).1 in
  r_Verdict parsed =
    (if String.eqb (po_reason o) "DeadlineExceeded" then VerdictError else r_Verdict raw) ∧
  r_Metrics parsed = r_Metrics raw ∧ r_Unmeasurable parsed = r_Unmeasurable raw ∧
  ReportedNothing parsed = ReportedNothing raw.
Proof.
  intros Ho. unfold harvestPod. rewrite Ho. destruct o as [exitCode reason detail].
  cbn [po_exitCode po_reason po_detail].
  generalize (Parse (ts_Kind (te_Spec t)) stdout exitCode) as raw. intros raw.
  set (account := _ +:+ _). clearbody account. simpl fst.
  destruct (String.eqb reason "DeadlineExceeded").
  - split_and!; [reflexivity|..];
      (destruct (bool_decide _); [|reflexivity]);
      (destruct (String.eqb (r_Message raw) ""); [reflexivity|]);
      destruct (negb _); reflexivity.
  - destruct (bool_decide _); [|by split_and!].
    destruct (String.eqb (r_Message raw) ""); [by split_and!|].
    destruct (negb _); by split_and!.
Qed.

Lemma VerdictFor_pass n : VerdictFor n = VerdictPass ↔ n = 0%Z.
Proof. unfold VerdictFor. split; [|by intros ->]. repeat case_match; congruence. Qed.

Lemma VerdictFor_fail n : VerdictFor n = VerdictFail ↔ n = 1%Z.
Proof. unfold VerdictFor. split; [|by intros ->]. repeat case_match; congruence. Qed.

Lemma Parse_verdicts kind stdout n :
  (r_Verdict (Parse kind stdout n) = VerdictPass ↔ n = 0%Z) ∧
  (r_Verdict (Parse kind stdout n) = VerdictFail ↔ n = 1%Z) ∧
  (r_Verdict (Parse kind stdout n) = VerdictSkip ↔ n = 2%Z ∧ DeclaresSkip stdout = true).
Proof.
  destruct (Parse_verdict kind stdout n) as (-> & _ & _).
  destruct (Z.eqb_spec n 2) as [->|Hne]; simpl.
  - destruct (DeclaresSkip stdout); simpl; intuition (discriminate || lia).
  - rewrite VerdictFor_pass, VerdictFor_fail. split_and!; [done|done|].
    unfold VerdictFor. split; [repeat case_match; congruence|]. by intros [? _].
Qed.

(** What a terminated pod's exit code, its kubelet reason and its log make of an attempt.
    It passes only on exit 0, not killed at its deadline, having reported something
    if there are gates, with every gate of an unsegmented test met; it fails on exit
    1, or on a reported exit 0 that misses a gate; it skips only on exit 2 with a
    printed declaration; everything else — a signal, a start failure, a deadline, an
    empty harvest — is an Error, which judges no hardware. *)
Theorem harvested_phase (t : Test) (pod : Pod) (o : pod_outcome) (stdout : str) :
  podOutcome pod = Some o →
  let raw := Parse (ts_Kind (te_Spec t)) stdout (po_exitCode o) in
  let phase := phase_of t (harvestPod t pod (inl stdout)).1 in
  let killed := String.eqb (po_reason o) "DeadlineExceeded" in
  (phase = RunPassed ↔ killed = false ∧ po_exitCode o = 0%Z ∧ empty_harvest t raw = false ∧
                       gates_met t raw = true) ∧
  (phase = RunFailed ↔ killed = false ∧
     (po_exitCode o = 1%Z ∨
      po_exitCode o = 0%Z ∧ empty_harvest t raw = false ∧ gates_met t raw = false)) ∧
  (phase = RunSkipped ↔ killed = false ∧ po_exitCode o = 2%Z ∧ DeclaresSkip stdout = true) ∧
  (phase = RunPassed ∨ phase = RunFailed ∨ phase = RunSkipped ∨ phase = RunError).
Proof.
  intros Ho. cbv zeta.
  destruct (harvestPod_result t pod o stdout Ho)
    as (Hv & Hm & Hu & Hn).
  rewrite phase_of_eq. unfold empty_harvest, gates_met. rewrite Hv, Hm, Hu, Hn.
  destruct (Parse_verdicts (ts_Kind (te_Spec t)) stdout (po_exitCode o)) as (Hp & Hf & Hs).
  revert Hp Hf Hs.
  generalize (Parse (ts_Kind (te_Spec t)) stdout (po_exitCode o)) as raw. intros raw Hp Hf Hs.
  clear Hv Hm Hu Hn. rewrite <-Hp, <-Hf, <-Hs. clear Hp Hf Hs.
  generalize (negb (is_nil (ts_Thresholds (te_Spec t))) && ReportedNothing raw) as e.
  generalize ((0 <? segmentSeconds (te_Spec t))%Z ||
    o_Passed (Evaluate (r_Metrics raw) (r_Unmeasurable raw) (ts_Thresholds (te_Spec t)))) as g.
  intros g e. destruct (String.eqb (po_reason o) "DeadlineExceeded"), (r_Verdict raw), e, g;
    intuition congruence.
Qed.

(** *** What an operation leaves alone *)
(** The part of a result the verdict depends on. *)
Definition core (res : TestResult) :=
  (tr_Phase res, (tr_RepeatsRequired res, tr_RepeatsCompleted res, tr_ErrorRetries res),
   (tr_SegmentsRequired res, tr_SegmentsCompleted res, tr_AggregatedMetrics res,
    tr_Unmeasurable res)).

Lemma begin_on_core now res nodes attempt pod : core (begin_on now res nodes attempt pod).1 = core res.
Proof.
  unfold begin_on. destruct (nextAttempt _) as [n inProgress].
  destruct (inProgress && _); repeat case_match; reflexivity.
Qed.

Lemma checkpoint_on_core now t out res : core (checkpoint_on now t out res).1 = core res.
Proof.
  unfold checkpoint_on. destruct (IsTerminal _); [reflexivity|].
  destruct (match _ with Some s => _ | None => _ end); [reflexivity|].
  destruct out as [stdout|]; [|reflexivity].
  generalize (Parse (ts_Kind (te_Spec t)) stdout 0) as parsed. intros parsed.
  destruct (bool_decide _); [reflexivity|].
  destruct (last _) as [a|]; [|reflexivity]. by destruct (IsTerminal (at_Phase a)).
Qed.

Lemma truncateAttempts_core res : core (truncateAttempts res) = core res.
Proof.
  unfold truncateAttempts. destruct (_ || _); [reflexivity|].
  destruct (kept_attempts _) as [kept drop]. by destruct (drop =? 0)%nat.
Qed.

Lemma record_attempt_core now podName parsed phase message res :
  core (record_attempt now podName parsed phase message res) = core res.
Proof.
  unfold record_attempt. set (res' := set_tr_Attempts _ res).
  transitivity (core (truncateAttempts res')).
  - destruct (bool_decide _); reflexivity.
  - rewrite truncateAttempts_core. reflexivity.
Qed.

Definition count_p (p : RunPhase) (l : list RunPhase) : Z :=
  count_of (List.filter (λ q, bool_decide (q = p)) l).

Lemma count_p_snoc p l q :
  count_p p (l ++ [q]) = (count_p p l + if bool_decide (q = p) then 1 else 0)%Z.
Proof.
  unfold count_p, count_of. rewrite List.filter_app, length_app. simpl.
  destruct (bool_decide (q = p)); simpl; lia.
Qed.

Lemma count_p_nonneg p l : (0 <= count_p p l)%Z.
Proof. unfold count_p, count_of. lia. Qed.

Lemma core_facts res res' :
  core res' = core res →
  tr_Phase res' = tr_Phase res ∧ tr_RepeatsRequired res' = tr_RepeatsRequired res ∧
  tr_RepeatsCompleted res' = tr_RepeatsCompleted res ∧
  tr_ErrorRetries res' = tr_ErrorRetries res ∧
  tr_SegmentsRequired res' = tr_SegmentsRequired res ∧
  tr_SegmentsCompleted res' = tr_SegmentsCompleted res ∧
  tr_AggregatedMetrics res' = tr_AggregatedMetrics res ∧
  tr_Unmeasurable res' = tr_Unmeasurable res.
Proof. intros H. unfold core in H. by simplify_eq. Qed.

(** The three ways a clean window can leave a soak. *)
Lemma segmentVerdict_phase t res parsed :
  let out := Evaluate (tr_AggregatedMetrics res) (unmeasurableSet (tr_Unmeasurable res))
               (ts_Thresholds (te_Spec t)) in
  let provable := provableViolations (tr_AggregatedMetrics res) out
                    (ts_Thresholds (te_Spec t)) in
  (λ v, v.1.1) <$> segmentVerdict t res parsed =
  if (tr_SegmentsRequired res <=? tr_SegmentsCompleted res)%Z
  then Some (if o_Passed out then RunPassed else RunFailed)
  else if abortEarly (te_Spec t) && negb (is_nil provable) then Some RunFailed else None.
Proof.
  cbv zeta. unfold segmentVerdict. destruct (_ <=? _)%Z.
  - rewrite <-(gateOutcome_phase _ _ _ (r_Message parsed)).
    by destruct (gateOutcome _ _ _ _) as [[phase message] ev].
  - destruct (abortEarly (te_Spec t)); [|done]. simpl.
    by destruct (provableViolations _ _ _).
Qed.

(** *** What a run keeps *)

(** [run'] continues [run]: its results start with those of [run], each of the same test and
    nodes, and a settled one is the same result. *)
Definition same_unit (r r' : TestResult) : Prop :=
  tr_Name r' = tr_Name r ∧ tr_Nodes r' = tr_Nodes r ∧ (IsTerminal (tr_Phase r) = true → r' = r).

Definition continues (run run' : BurnInRun) : Prop :=
  ∀ i r, results run !! i = Some r → ∃ r', results run' !! i = Some r' ∧ same_unit r r'.

Global Instance same_unit_preorder : PreOrder same_unit.
Proof.
  split; [done|]. intros r1 r2 r3 (H1 & H2 & H3) (H4 & H5 & H6). split_and!; [congruence..|].
  intros Ht. rewrite H6; [by apply H3|]. by rewrite H3.
Qed.

Global Instance continues_preorder : PreOrder continues.
Proof.
  split.
  - intros run i r Hr. by exists r.
  - intros r1 r2 r3 H1 H2 i r Hr. destruct (H1 i r Hr) as (r' & Hr' & Hs).
    destruct (H2 i r' Hr') as (r'' & Hr'' & Hs'). exists r''. split; [done|by etrans].
Qed.

Lemma continues_results run run' : results run' = results run → continues run run'.
Proof. intros H i r Hr. exists r. by rewrite H. Qed.

Lemma continues_set_result run i res res' :
  results run !! i = Some res → same_unit res res' → continues run (set_result i res' run).
Proof.
  intros Hi Hs j r Hr. unfold set_result, results at 1. simpl.
  destruct (decide (i = j)) as [->|Hne].
  - exists res'. rewrite list_lookup_insert_eq by by eapply lookup_lt_Some. by simplify_eq.
  - exists r. by rewrite list_lookup_insert_ne.
Qed.

Lemma continues_append run l : continues run (set_results (results run ++ l) run).
Proof. intros i r Hr. exists r. split; [|done]. by apply lookup_app_l_Some. Qed.

Lemma index_of_Some {A} (p : A → bool) l i :
  index_of p l = Some i ↔
  ∃ x, l !! i = Some x ∧ p x = true ∧ ∀ j y, (j < i)%nat → l !! j = Some y → p y = false.
Proof.
  revert i. induction l as [|x l IH]; intros i; simpl; [split; [done|by intros (? & ? & _)]|].
  destruct (p x) eqn:E.
  - split; [intros [= <-]; exists x; split_and!; [done..|lia]|].
    intros (y & Hy & Hp & Hmin). destruct i as [|i]; [done|].
    rewrite (Hmin 0%nat x) in E; [done|lia|done].
  - destruct i as [|i].
    + split; [by destruct (index_of p l)|]. intros (y & [= ->] & Hp & _). congruence.
    + rewrite fmap_Some. setoid_rewrite IH. split.
      * intros (j & (y & Hy & Hp & Hmin) & [= ->]). exists y. split_and!; [done..|].
        intros [|k] z Hk Hz; [by simplify_eq/=|]. apply (Hmin k z); [lia|done].
      * intros (y & Hy & Hp & Hmin). exists i. split; [|done]. exists y. split_and!; [done..|].
        intros k z Hk Hz. apply (Hmin (S k) z); [lia|done].
Qed.

Lemma index_of_None {A} (p : A → bool) l : index_of p l = None ↔ ∀ x, x ∈ l → p x = false.
Proof.
  induction l as [|x l IH]; simpl; [split; [by intros _ ? ?%elem_of_nil|done]|].
  setoid_rewrite elem_of_cons. destruct (p x) eqn:E.
  - split; [done|]. intros H. rewrite H in E by auto. done.
  - rewrite fmap_None, IH. naive_solver.
Qed.

Lemma same_unit_is name node r r' :
  same_unit r r' → result_is name node r' = result_is name node r.
Proof. intros (Hn & Hm & _). unfold result_is. by rewrite Hn, Hm. Qed.

Lemma continues_index run run' name node i :
  continues run run' → resultIndex run name node = Some i → resultIndex run' name node = Some i.
Proof.
  intros Hc. unfold resultIndex. rewrite !index_of_Some. intros (r & Hr & Hp & Hmin).
  destruct (Hc i r Hr) as (r' & Hr' & Hs). exists r'. split_and!; [done| |].
  - by rewrite (same_unit_is _ _ r r').
  - intros j y Hj Hy. assert (j < length (results run))%nat as Hlen.
    { apply lookup_lt_Some in Hr. lia. }
    apply lookup_lt_is_Some in Hlen as [z Hz]. destruct (Hc j z Hz) as (y' & Hy' & Hs').
    rewrite Hy in Hy'. injection Hy' as <-. rewrite (same_unit_is _ _ z y); eauto.
Qed.

(** *** The operations *)
Lemma ensureResult_facts run t nodes run' i :
  ensureResult run t nodes = (run', i) →
  continues run run' ∧ (∃ res, results run' !! i = Some res ∧ tr_Name res = te_Name t ∧
    (results run !! i = Some res ∨
     results run !! i = None ∧ res = newResult t nodes)) ∧
  (first_node nodes ∈ nodes → resultIndex run' (te_Name t) (first_node nodes) = Some i).
Proof.
  unfold ensureResult. destruct (resultIndex run (te_Name t) (first_node nodes)) as [k|] eqn:E.
  - intros [= <- <-]. pose proof E as E'. unfold resultIndex in E'.
    apply index_of_Some in E' as (res & Hres & Hp & _). split_and!; [done| |done].
    exists res. split_and!; [done| |by left]. unfold result_is in Hp.
    apply andb_true_iff in Hp as [Hp _]. by apply String.eqb_eq.
  - intros [= <- <-]. split_and!; [apply continues_append| |].
    + exists (newResult t nodes). change (results (set_results ?l run)) with l.
      split_and!; [by rewrite lookup_app_r, Nat.sub_diag|done|].
      right. split; [|done]. by apply lookup_ge_None_2.
    + intros Hin. unfold resultIndex in *. change (results (set_results ?l run)) with l.
      apply index_of_Some. exists (newResult t nodes). split_and!.
      * by rewrite lookup_app_r, Nat.sub_diag.
      * unfold result_is. simpl. rewrite String.eqb_refl. simpl. apply orb_true_iff. right.
        apply existsb_elem. exists (first_node nodes). split; [done|apply String.eqb_refl].
      * intros j y Hj Hy. rewrite lookup_app_l in Hy by done.
        rewrite index_of_None in E. apply E. by eapply list_elem_of_lookup_2.
Qed.

Definition unit_of (r : TestResult) : str * list str := (tr_Name r, tr_Nodes r).

Lemma open_same_unit r r' :
  unit_of r' = unit_of r → IsTerminal (tr_Phase r) = false → same_unit r r'.
Proof. unfold unit_of. intros [= ? ?] Ht. split_and!; [done..|congruence]. Qed.

Lemma begin_on_unit now res nodes attempt pod :
  unit_of (begin_on now res nodes attempt pod).1 = unit_of res.
Proof.
  unfold begin_on. destruct (nextAttempt _) as [n inProgress].
  destruct (inProgress && _); repeat case_match; reflexivity.
Qed.

Lemma truncateAttempts_unit res : unit_of (truncateAttempts res) = unit_of res.
Proof.
  unfold truncateAttempts. destruct (_ || _); [reflexivity|].
  destruct (kept_attempts _) as [kept drop]. by destruct (drop =? 0)%nat.
Qed.

Lemma record_attempt_unit now podName parsed phase message res :
  unit_of (record_attempt now podName parsed phase message res) = unit_of res.
Proof.
  unfold record_attempt. set (res' := set_tr_Attempts _ res).
  transitivity (unit_of (truncateAttempts res')).
  - destruct (bool_decide (r_Metrics parsed = ∅)); reflexivity.
  - rewrite truncateAttempts_unit. reflexivity.
Qed.

Lemma segmentVerdict_final t res parsed final msg ev :
  segmentVerdict t res parsed = Some (final, msg, ev) → final = RunPassed ∨ final = RunFailed.
Proof.
  intros H. pose proof (segmentVerdict_phase t res parsed) as Hp. rewrite H in Hp. simpl in Hp.
  destruct (_ <=? _)%Z.
  - injection Hp as ->. destruct (o_Passed _); auto.
  - destruct (_ && _); [injection Hp as ->; auto|done].
Qed.

(** Whether the test settled is what [decide_attempt] says. *)
Lemma decide_attempt_decision now limit t attempt parsed phase message ev res res' d :
  decide_attempt now limit t attempt parsed phase message ev res = (res', d) →
  unit_of res' = unit_of res ∧
  match d with
  | DecideSettled => IsTerminal (tr_Phase res') = true
  | _ => tr_Phase res' = tr_Phase res
  end.
Proof.
  unfold decide_attempt. intros H.
  assert (unit_of (foldSegment res parsed) = unit_of res ∧
          tr_Phase (foldSegment res parsed) = tr_Phase res) as [Hu Hp].
  { unfold foldSegment.
    match goal with |- context [if ?b then _ else _] => destruct b end; by split. }
  destruct phase;
    try (destruct (tr_ErrorRetries res <? limit)%Z; [by injection H as <- <-|];
         destruct ((0 <? tr_SegmentsRequired res)%Z && _); by injection H as <- <-);
    try by injection H as <- <-.
  destruct (0 <? tr_SegmentsRequired res)%Z.
  - destruct (segmentVerdict _ _ _) as [[[final msg] aggEv]|] eqn:E.
    + apply segmentVerdict_final in E as [-> | ->]; by injection H as <- <-.
    + by injection H as <- <-.
  - destruct (_ <=? _)%Z; by injection H as <- <-.
Qed.

Lemma finish_on_decision now limit t attempt podName parsed res res' d :
  finish_on now limit t attempt podName parsed res = (res', d) →
  unit_of res' = unit_of res ∧
  match d with
  | DecideSettled => IsTerminal (tr_Phase res') = true
  | _ => tr_Phase res' = tr_Phase res
  end.
Proof.
  unfold finish_on. destruct (attemptOutcome t parsed) as [[phase message] ev].
  intros [Hu Hd]%decide_attempt_decision. rewrite record_attempt_unit in Hu. split; [done|].
  pose proof (record_attempt_core now podName parsed phase message res) as Hc.
  apply core_facts in Hc as (Hp & _). rewrite <-Hp. done.
Qed.

(** The execution of a test on a unit that has not settled. *)
Definition unit_open (run : BurnInRun) (t : Test) (nodes : list str) : Prop :=
  ∀ res, resultFor run (te_Name t) (first_node nodes) = Some res →
         IsTerminal (tr_Phase res) = false.

(** The result a unit is on, opened if need be. *)
Definition unit_at (run : BurnInRun) (t : Test) (nodes : list str) (i : nat) (r : TestResult)
    : Prop :=
  resultIndex run (te_Name t) (first_node nodes) = Some i ∧ results run !! i = Some r ∨
  resultIndex run (te_Name t) (first_node nodes) = None ∧ i = length (results run) ∧
  r = newResult t nodes.

Lemma unit_at_open run t nodes i r :
  unit_open run t nodes → unit_at run t nodes i r → IsTerminal (tr_Phase r) = false.
Proof.
  intros Ho [[Hi Hr]|(_ & _ & ->)]; [|done]. apply Ho. unfold resultFor. by rewrite Hi.
Qed.

Lemma ensureResult_at run t nodes :
  ∃ r, unit_at run t nodes (ensureResult run t nodes).2 r ∧
       results (ensureResult run t nodes).1 !! (ensureResult run t nodes).2 = Some r ∧
       ∀ j, j ≠ (ensureResult run t nodes).2 →
            results (ensureResult run t nodes).1 !! j = results run !! j.
Proof.
  unfold ensureResult, unit_at.
  destruct (resultIndex run (te_Name t) (first_node nodes)) as [i|] eqn:E; simpl.
  - pose proof E as E'. apply index_of_Some in E' as (r & Hr & _). exists r. eauto.
  - exists (newResult t nodes). change (results (set_results ?l run)) with l.
    split_and!; [auto|by rewrite lookup_app_r, Nat.sub_diag|]. intros j Hj.
    destruct (decide (j < length (results run))%nat) as [Hlt|Hge]; [by rewrite lookup_app_l|].
    rewrite !lookup_ge_None_2; [done|lia|rewrite length_app; simpl; lia].
Qed.

Lemma set_result_lookup run i r j :
  results (set_result i r run) !! j =
  if decide (j = i) then (λ _, r) <$> results run !! i else results run !! j.
Proof.
  unfold set_result. change (results (set_results ?l run)) with l.
  destruct (decide (j = i)) as [->|Hne]; [|by rewrite list_lookup_insert_ne].
  destruct (results run !! i) eqn:E.
  - by rewrite list_lookup_insert_eq by by eapply lookup_lt_Some.
  - rewrite list_insert_ge; [by rewrite E|]. by apply lookup_ge_None_1.
Qed.

Lemma beginAttempt_at now run t nodes attempt pod :
  ∃ r, unit_at run t nodes (beginAttempt now run t nodes attempt pod).1.2 r ∧
       results (beginAttempt now run t nodes attempt pod).1.1 !!
         (beginAttempt now run t nodes attempt pod).1.2 =
           Some (begin_on now r nodes attempt pod).1 ∧
       ∀ j, j ≠ (beginAttempt now run t nodes attempt pod).1.2 →
         results (beginAttempt now run t nodes attempt pod).1.1 !! j = results run !! j.
Proof.
  destruct (ensureResult_at run t nodes) as (r & Hat & Hr & Hj). unfold beginAttempt.
  destruct (ensureResult run t nodes) as [run1 i]. simpl in *. rewrite Hr.
  destruct (begin_on now r nodes attempt pod) as [res began] eqn:E. simpl.
  exists r. rewrite E. split_and!; [done| |].
  - rewrite set_result_lookup, decide_True by done. by rewrite Hr.
  - intros j Hne. rewrite set_result_lookup, decide_False by done. auto.
Qed.

(** The counters of the status agree with the results. *)
Definition counts_exact (run : BurnInRun) : Prop :=
  let n := λ p, count_phase p (results run) in
  st_Passed (run_Status run) = n RunPassed ∧ st_Failed (run_Status run) = n RunFailed ∧
  st_Errored (run_Status run) = n RunError ∧ st_Skipped (run_Status run) = n RunSkipped.

Lemma recount_exact run : counts_exact (recount run).
Proof. done. Qed.

Lemma count_phase_phases p l : count_phase p l = i32 (count_p p (tr_Phase <$> l)).
Proof.
  unfold count_phase, count_p, count_of. f_equal. f_equal.
  induction l as [|r l IH]; [done|]. simpl. destruct (bool_decide _); simpl; auto.
Qed.

Definition same_counters (s s' : BurnInRunStatus) : Prop :=
  st_Passed s' = st_Passed s ∧ st_Failed s' = st_Failed s ∧ st_Errored s' = st_Errored s ∧
  st_Skipped s' = st_Skipped s.

(** Opening a result, or rewriting one without moving its phase, moves no counter. *)
Lemma counts_exact_open run run' :
  counts_exact run →
  same_counters (run_Status run) (run_Status run') →
  (tr_Phase <$> results run' = tr_Phase <$> results run ∨
   tr_Phase <$> results run' = (tr_Phase <$> results run) ++ [RunRunning]) →
  counts_exact run'.
Proof.
  unfold counts_exact, same_counters.
  intros (H1 & H2 & H3 & H4) (-> & -> & -> & ->) Hph. rewrite H1, H2, H3, H4, !count_phase_phases.
  destruct Hph as [-> | ->]; [done|]. rewrite !count_p_snoc. simpl. by rewrite !Z.add_0_r.
Qed.

Lemma beginAttempt_status now run t nodes attempt pod :
  same_counters (run_Status run) (run_Status (beginAttempt now run t nodes attempt pod).1.1).
Proof.
  unfold beginAttempt, ensureResult.
  destruct (resultIndex run (te_Name t) (first_node nodes));
    (destruct (_ !! _) as [r|]; [destruct (begin_on now r nodes attempt pod)|]); by split_and!.
Qed.

(** The phases of the results after one unit's result moved to [r]. *)
Lemma unit_at_phases run run' t nodes i r r' :
  unit_at run t nodes i r → results run' !! i = Some r' →
  (∀ j, j ≠ i → results run' !! j = results run !! j) → tr_Phase r' = tr_Phase r →
  tr_Phase <$> results run' = tr_Phase <$> results run ∨
  tr_Phase <$> results run' = (tr_Phase <$> results run) ++ [RunRunning].
Proof.
  intros [[_ Hr]|(_ & -> & ->)] Hr' Hj Hp.
  - left. apply list_eq. intros j. rewrite !list_lookup_fmap.
    destruct (decide (j = i)) as [->|Hne]; [|by rewrite Hj].
    rewrite Hr, Hr'. simpl. by rewrite Hp.
  - right. apply list_eq. intros j. rewrite list_lookup_fmap.
    destruct (decide (j < length (results run))%nat) as [Hlt|Hge].
    { rewrite Hj by lia. rewrite lookup_app_l by by rewrite length_fmap.
      by rewrite list_lookup_fmap. }
    rewrite lookup_app_r by (rewrite length_fmap; lia). rewrite length_fmap.
    destruct (decide (j = length (results run))) as [->|Hne].
    { rewrite Hr', Nat.sub_diag. simpl. by rewrite Hp. }
    rewrite Hj, lookup_ge_None_2 by lia. by rewrite lookup_ge_None_2 by (simpl; lia).
Qed.

(** Completing an attempt of a unit that has not settled touches that unit's result and
    no other, keeps the counters of the status exact, and delivers a completion, keyed
    by the test and every node of the unit, exactly when the unit settles. *)
Theorem completeAttempt_run (now : Z) (run run' : BurnInRun) (t : Test) (nodes : list str)
    (attempt : Z) (podName : str) (pod : option Pod) (parsed : Result) (key : option str) :
  unit_open run t nodes →
  completeAttempt now run t nodes attempt podName pod parsed = (run', key) →
  ∃ i r r', unit_at run t nodes i r ∧ results run' !! i = Some r' ∧ same_unit r r' ∧
    r' = (finish_on now (retryOnErrorLimit run) t attempt podName parsed
            (begin_on now r nodes attempt pod).1).1 ∧
    (∀ j, j ≠ i → results run' !! j = results run !! j) ∧
    key = (if IsTerminal (tr_Phase r') then Some (completion_key (tr_Name r) nodes) else None) ∧
    (counts_exact run → counts_exact run').
Proof.
  intros Hopen H. destruct (beginAttempt_at now run t nodes attempt pod) as (r & Hat & Hr & Hj).
  assert (run_Spec (beginAttempt now run t nodes attempt pod).1.1 = run_Spec run) as Hspec.
  { unfold beginAttempt. destruct (ensureResult run t nodes) as [run1 i] eqn:E.
    assert (run_Spec run1 = run_Spec run) as <-.
    { revert E. unfold ensureResult. by case_match; intros [= <- <-]. }
    destruct (results run1 !! i) as [r0|]; [|done].
    by destruct (begin_on now r0 nodes attempt pod). }
  pose proof (beginAttempt_status now run t nodes attempt pod) as Hst.
  unfold completeAttempt in H.
  destruct (beginAttempt now run t nodes attempt pod) as [[run1 i] ch]. simpl in *.
  rewrite Hr in H. unfold retryOnErrorLimit in H. rewrite Hspec in H.
  fold (retryOnErrorLimit run) in H.
  destruct (finish_on now (retryOnErrorLimit run) t attempt podName parsed
    (begin_on now r nodes attempt pod).1) as [r' d] eqn:E.
  pose proof (finish_on_decision _ _ _ _ _ _ _ _ _ E) as [Hu Hd].
  pose proof (begin_on_core now r nodes attempt pod) as (Hp & _)%core_facts.
  rewrite begin_on_unit in Hu. rewrite Hp in Hd.
  pose proof (unit_at_open _ _ _ _ _ Hopen Hat) as Hr0.
  assert (∀ j, results (set_result i r' run1) !! j =
    if decide (j = i) then Some r' else results run !! j) as Hlook.
  { intros j. rewrite set_result_lookup. destruct (decide (j = i)) as [->|]; [by rewrite Hr|auto]. }
  assert (results run' = results (set_result i r' run1) ∧
    key = (if IsTerminal (tr_Phase r') then Some (completion_key (tr_Name r) nodes) else None) ∧
    (counts_exact run → counts_exact run')) as (Hres & Hkey & Hcount).
  { assert (tr_Name r' = tr_Name r) as <- by by injection Hu.
    destruct d; injection H as <- <-; rewrite ?Hd, ?Hr0; (split_and!; [done|done|]);
      intros Hc; [apply recount_exact..|].
    eapply counts_exact_open; [done|exact Hst|].
    eapply (unit_at_phases run _ t nodes i r r'); [done| | |done].
    - by rewrite Hlook, decide_True.
    - intros j Hne. by rewrite Hlook, decide_False. }
  exists i, r, r'. rewrite Hres. split; [exact Hat|]. split; [by rewrite Hlook, decide_True|].
  split; [by apply open_same_unit|]. split; [by rewrite E|].
  split; [|by split]. intros j Hne. by rewrite Hlook, decide_False.
Qed.

(** *** Ending a run early *)
Definition unit_settled (run : BurnInRun) (name node : str) : Prop :=
  ∃ r, resultFor run name node = Some r ∧ IsTerminal (tr_Phase r) = true.

Lemma resultFor_continues run run' name node r :
  continues run run' → resultFor run name node = Some r →
  ∃ r', resultFor run' name node = Some r' ∧ same_unit r r'.
Proof.
  unfold resultFor. intros Hc (i & Hi & Hr)%bind_Some. destruct (Hc i r Hr) as (r' & Hr' & Hs).
  exists r'. split; [|done]. by rewrite (continues_index _ _ _ _ _ Hc Hi).
Qed.

Lemma unit_settled_continues run run' name node :
  continues run run' → unit_settled run name node → unit_settled run' name node.
Proof.
  intros Hc (r & Hr & Ht). destruct (resultFor_continues _ _ _ _ _ Hc Hr) as (r' & Hr' & Hs).
  exists r'. split; [done|]. destruct Hs as (_ & _ & Hs). by rewrite Hs.
Qed.

Lemma settle_unit_facts now phase message t run nodes :
  IsTerminal phase = true → first_node nodes ∈ nodes →
  continues run (settle_unit now phase message t run nodes) ∧
  unit_settled (settle_unit now phase message t run nodes) (te_Name t) (first_node nodes).
Proof.
  intros Hphase Hin. unfold settle_unit. destruct (ensureResult run t nodes) as [run1 i] eqn:E.
  apply ensureResult_facts in E as (Hc & (res & Hres & _) & Hidx). specialize (Hidx Hin).
  rewrite Hres. destruct (IsTerminal (tr_Phase res)) eqn:Ht.
  { split; [done|]. exists res. split; [|done]. unfold resultFor. by rewrite Hidx. }
  match goal with |- continues run (set_result i ?r run1) ∧ _ => set (res' := r) end.
  assert (tr_Phase res' = phase ∧ unit_of res' = unit_of res) as [Hp Hu].
  { unfold res'. destruct (last _) as [a|]; [|done]. by destruct (IsTerminal (at_Phase a)). }
  clearbody res'. assert (continues run1 (set_result i res' run1)) as Hc'.
  { eapply continues_set_result; [done|]. by apply open_same_unit. }
  split; [by etrans|]. exists res'. split; [|by rewrite Hp].
  unfold resultFor. rewrite (continues_index _ _ _ _ _ Hc' Hidx). simpl.
  rewrite set_result_lookup, decide_True by done. by rewrite Hres.
Qed.

Lemma settle_units_facts now phase message t run units :
  IsTerminal phase = true → (∀ u, u ∈ units → first_node u ∈ u) →
  let run' := fold_left (settle_unit now phase message t) units run in
  continues run run' ∧ ∀ u, u ∈ units → unit_settled run' (te_Name t) (first_node u).
Proof.
  intros Hphase. revert run. induction units as [|u units IH]; intros run Hne; simpl.
  { split; [done|]. by intros u ?%elem_of_nil. }
  destruct (settle_unit_facts now phase message t run u Hphase) as [Hc Hs]; [apply Hne; left|].
  destruct (IH (settle_unit now phase message t run u)) as [Hc' Hs'].
  { intros u' Hu'. apply Hne. by right. }
  split; [by etrans|]. intros u' [-> |Hu']%elem_of_cons; [|auto].
  by eapply unit_settled_continues.
Qed.

(** A test that owes no execution anything: its node-less result says why, or each of its
    units has a settled result. *)
Definition accounted (run : BurnInRun) (p : plan) (t : Test) : Prop :=
  (∃ r, resultFor run (te_Name t) "" = Some r ∧ tr_Nodes r = []) ∨
  ∀ u, u ∈ executionUnits p t → unit_settled run (te_Name t) (first_node u).

Lemma accounted_continues run run' p t :
  continues run run' → accounted run p t → accounted run' p t.
Proof.
  intros Hc [(r & Hr & Hn)|Hs].
  - left. destruct (resultFor_continues _ _ _ _ _ Hc Hr) as (r' & Hr' & _ & Hn' & _).
    exists r'. split; [done|congruence].
  - right. intros u Hu. by eapply unit_settled_continues, Hs.
Qed.

Lemma executionUnits_first p t u :
  pl_Targets p ≠ [] → u ∈ executionUnits p t → first_node u ∈ u.
Proof.
  intros Hne. unfold executionUnits. destruct (_ || _).
  - intros ->%list_elem_of_singleton. destruct (pl_Targets p); [done|left].
  - intros (n & -> & _)%list_elem_of_fmap. left.
Qed.

Lemma settle_test_facts now p phase message run t :
  IsTerminal phase = true → pl_Targets p ≠ [] →
  continues run (settle_test now p phase message run t) ∧
  accounted (settle_test now p phase message run t) p t.
Proof.
  intros Hphase Hne. unfold settle_test.
  destruct (settle_units_facts now phase message t run (executionUnits p t) Hphase) as [Hc Hs].
  { intros u. by apply executionUnits_first. }
  destruct (resultFor run (te_Name t) "") as [r|] eqn:E; [|by split; [|right]].
  destruct (is_nil (tr_Nodes r)) eqn:Hn; [|by split; [|right]].
  split; [done|]. left. exists r. split; [done|]. by apply is_nil_true.
Qed.

Lemma settle_tests_facts now p phase message run tests :
  IsTerminal phase = true → pl_Targets p ≠ [] →
  let run' := fold_left (settle_test now p phase message) tests run in
  continues run run' ∧ ∀ t, t ∈ tests → accounted run' p t.
Proof.
  intros Hphase Hne. revert run. induction tests as [|t tests IH]; intros run; simpl.
  { split; [done|]. by intros t ?%elem_of_nil. }
  destruct (settle_test_facts now p phase message run t Hphase Hne) as [Hc Ha].
  destruct (IH (settle_test now p phase message run t)) as [Hc' Ha'].
  split; [by etrans|]. intros t' [-> |Ht']%elem_of_cons; [|auto].
  by eapply accounted_continues.
Qed.

Lemma terminal_status_facts now phase run :
  continues run (terminal_status now phase run) ∧
  counts_exact (terminal_status now phase run) ∧
  st_Phase (run_Status (terminal_status now phase run)) = phase ∧
  ∀ r, r ∈ results (terminal_status now phase run) → IsTerminal (tr_Phase r) = true.
Proof.
  unfold terminal_status. set (run1 := set_run_Status _ run).
  change (results run1) with (results run). split_and!; [|apply recount_exact|done|].
  - intros i r Hr. exists (close_open now r).
    change (results (recount (set_results ?l run1))) with l.
    rewrite list_lookup_fmap, Hr. split; [done|].
    unfold close_open, same_unit. destruct (IsTerminal (tr_Phase r)) eqn:E; [done|].
    by split_and!.
  - intros r. change (results (recount (set_results ?l run1))) with l.
    intros (r0 & -> & _)%list_elem_of_fmap. unfold close_open.
    by destruct (IsTerminal (tr_Phase r0)) eqn:E.
Qed.

(** Ending a run early, by cancelling it or on its deadline, leaves no execution of the plan
    unaccounted for and no result open, and retracts nothing: every result that had
    settled is in the final status as it was.  The counters are exact. *)
Theorem early_end_accounts (now : Z) (run : BurnInRun) (p : plan) (phase : RunPhase)
    (message : str) :
  IsTerminal phase = true → pl_Targets p ≠ [] →
  let run' := terminal_status now phase (settleRemaining now run p phase message) in
  continues run run' ∧ counts_exact run' ∧ st_Phase (run_Status run') = phase ∧
  (∀ r, r ∈ results run' → IsTerminal (tr_Phase r) = true) ∧
  ∀ t, t ∈ pl_Tests p → accounted run' p t.
Proof.
  intros Hphase Hne. cbv zeta.
  destruct (settle_tests_facts now p phase message run (pl_Tests p) Hphase Hne) as [Hc Ha].
  assert (continues run (settleRemaining now run p phase message)) as Hc1.
  { etrans; [exact Hc|]. by apply continues_results. }
  destruct (terminal_status_facts now phase (settleRemaining now run p phase message))
    as (Hc2 & Hcnt & Hp & Ht).
  split_and!; [by etrans|done|done|done|]. intros t Htest.
  eapply accounted_continues; [|by apply Ha]. etrans; [|exact Hc2].
  by apply continues_results.
Qed.

(** ** Witnesses *)
Definition example_test : Test :=
  MkTest "gemm" true
    (MkTestSpec KindGemmSweep ScopeNode 60 None None None None
       [MkThreshold "gemmTflops" GTE "10" Required] (MkResources ∅ ∅) false) ∅ "".

(** A pod the kubelet killed at its deadline, whose runner trapped the signal and exited 0. *)
Definition deadline_pod : Pod :=
  MkPod "run-t0-a1-00000000" ∅ ["uid-1"] 0 "node-a" PodFailed "DeadlineExceeded" "" (Some 5%Z) []
    [MkContainer "runner" (Some (MkTerminated 0 "Completed" "")) None].

Definition example_stdout : str := "gemm_tflops=12" +:+ String newline "".

Lemma harvested_phase_witness :
  po_exitCode (MkPodOutcome 0 "DeadlineExceeded" "") = 0%Z ∧
  phase_of example_test (harvestPod example_test deadline_pod (inl example_stdout)).1 ≠ RunPassed.
Proof.
  split; [reflexivity|].
  destruct (harvested_phase example_test deadline_pod (MkPodOutcome 0 "DeadlineExceeded" "")
    example_stdout eq_refl) as (Hp & _).
  intros H. apply Hp in H as [H _]. vm_compute in H. discriminate.
Defined.

Definition passing_result : Result :=
  MkResult VerdictPass 0 {["gemmTflops" := "12"]} ∅ "" [] [] false.

Lemma completeAttempt_run_witness :
  (completeAttempt 7 (named_run "run") example_test ["node-a"] 1 "pod" None passing_result).2 =
    Some "gemm/node-a" ∧
  counts_exact
    (completeAttempt 7 (named_run "run") example_test ["node-a"] 1 "pod" None passing_result).1.
Proof.
  split; [vm_compute; reflexivity|].
  destruct (completeAttempt 7 (named_run "run") example_test ["node-a"] 1 "pod" None
    passing_result) as [run' key] eqn:E.
  apply completeAttempt_run in E as (i & r & r' & _ & _ & _ & _ & _ & _ & H).
  - apply H. vm_compute. by split_and!.
  - intros res H. vm_compute in H. discriminate.
Defined.

Definition example_plan : plan :=
  MkPlan 1 ["node-a"; "node-b"] [] false false 1 [example_test].

Lemma early_end_accounts_witness :
  accounted (terminal_status 9 RunCancelled
    (settleRemaining 9 (named_run "run") example_plan RunCancelled "run cancelled"))
    example_plan example_test ∧
  executionUnits example_plan example_test = [["node-a"]; ["node-b"]].
Proof.
  split; [|reflexivity].
  destruct (early_end_accounts 9 (named_run "run") example_plan RunCancelled "run cancelled")
    as (_ & _ & _ & _ & H); [reflexivity|discriminate|].
  apply H. left.
Defined.
