(* ===== verification/History.v ===== *)
(** * The life of one execution unit

    What becomes of a test on one unit of nodes, over every sequence of observations,
    checkpoints and completed attempts the controller can apply to its result
    (Attempt.v): [repeats_history] for a test whose executions are repeats,
    [soak_history] for a segmented soak. *)

From S2P Require Import Prelude GoStrings GoFloat GoTime Contract Registry Runner Verdict Api Plan.
From S2P Require Import Soak Pods RunPlan Attempt.
Open Scope stdpp_scope.

(** ** Executions *)
Section history.
Context (t : Test) (nodes : list str) (limit : Z).

(** What the controller does to a result it opened: it observes a pod, refreshes the
    evidence, and completes attempts; never after the result has settled.  The
    list is the runner's result of each completed attempt, in order. *)
Inductive executed : list Result → TestResult → Prop :=
| executed_new : executed [] (newResult t nodes)
| executed_observe h res now pod :
    executed h res → IsTerminal (tr_Phase res) = false →
    executed h (begin_on now res nodes (nextAttempt (Some res)).1 pod).1
| executed_checkpoint h res now out :
    executed h res → executed h (checkpoint_on now t out res).1
| executed_finish h res now podName pod parsed :
    executed h res → IsTerminal (tr_Phase res) = false →
    let attempt := (nextAttempt (Some res)).1 in
    executed (h ++ [parsed])
      (finish_on now limit t attempt podName parsed
         (begin_on now res nodes attempt pod).1).1.

(** Attempts that leave a test open: clean executions and errors. *)
Definition open_phases (l : list RunPhase) : Prop := ∀ q, q ∈ l → q = RunPassed ∨ q = RunError.

Lemma open_phases_snoc l q :
  open_phases l → q = RunPassed ∨ q = RunError → open_phases (l ++ [q]).
Proof. intros Hl Hq p [Hp| ->%list_elem_of_singleton]%elem_of_app; auto. Qed.

(** How a history of phases leaves a test that owes [required] clean executions. *)
Definition history_verdict (required : Z) (l : list RunPhase) (final : RunPhase) : Prop :=
  let owes := λ l, open_phases l ∧ (count_p RunPassed l < required)%Z in
  match final with
  | RunRunning => owes l ∧ (count_p RunError l <= limit)%Z
  | RunPassed => ∃ l', l = l' ++ [RunPassed] ∧ owes l' ∧ count_p RunPassed l = required ∧
                       (count_p RunError l <= limit)%Z
  | RunFailed | RunSkipped => ∃ l', l = l' ++ [final] ∧ owes l' ∧ (count_p RunError l' <= limit)%Z
  | RunError => ∃ l', l = l' ++ [RunError] ∧ owes l' ∧ count_p RunError l' = limit
  | _ => False
  end.

Lemma alter_last_snoc f l a : alter_last f (l ++ [a]) = l ++ [f a].
Proof.
  unfold alter_last. rewrite length_app, Nat.add_sub. simpl.
  rewrite alter_app_r_alt by lia. by rewrite Nat.sub_diag.
Qed.

(** *** A test of one pod per execution *)

(** Why each attempt after the first was started. *)
Definition triggers_of (l : list RunPhase) : list AttemptTrigger :=
  match l with
  | [] => []
  | _ => AttemptInitial ::
         ((λ p, if bool_decide (p = RunError) then AttemptErrorRetry else AttemptRepeat)
            <$> removelast l)
  end.

Lemma triggers_of_snoc l p :
  triggers_of (l ++ [p]) =
  match l with
  | [] => [AttemptInitial]
  | _ => AttemptInitial ::
         ((λ p, if bool_decide (p = RunError) then AttemptErrorRetry else AttemptRepeat) <$> l)
  end.
Proof. unfold triggers_of. rewrite removelast_last. destruct l; done. Qed.

(** The attempts recorded after the executions whose phases are [done]; [running] when one
    more is open. *)
Definition recorded (done : list RunPhase) (running : bool) (l : list TestAttempt) : Prop :=
  at_Phase <$> l = done ++ (if running then [RunRunning] else []) ∧
  at_Attempt <$> l = seqZ 1 (count_of l) ∧
  at_Trigger <$> l = triggers_of (at_Phase <$> l).

Lemma recorded_snoc_inv done q l :
  at_Phase <$> l = done ++ [q] → ∃ l0 a, l = l0 ++ [a] ∧ at_Phase <$> l0 = done ∧ at_Phase a = q.
Proof.
  destruct l as [|a l0 _] using rev_ind; [by destruct done|]. rewrite fmap_app. simpl.
  intros [? ?]%app_inj_tail. eauto 6.
Qed.

Lemma recorded_alter_last f done running p l :
  (∀ a, at_Attempt (f a) = at_Attempt a ∧ at_Trigger (f a) = at_Trigger a) →
  (∀ a, at_Phase a = RunRunning → at_Phase (f a) = p) →
  recorded done true l →
  (running = true → p = RunRunning) →
  recorded (if running then done else done ++ [p]) running (alter_last f l).
Proof.
  intros Hf Hp (Hph & Hn & Ht) Hrun.
  apply recorded_snoc_inv in Hph as (l0 & a & -> & <- & Ha). rewrite alter_last_snoc.
  assert (at_Phase <$> l0 ++ [f a] = (at_Phase <$> l0) ++ [p]) as Hph.
  { by rewrite fmap_app, <-(Hp a). }
  destruct (Hf a) as [Hfa Hft]. unfold recorded. rewrite Hph. split_and!.
  - destruct running; [by rewrite Hrun|by rewrite app_nil_r].
  - unfold count_of in *; rewrite !fmap_app in *; simpl in *;
      rewrite length_app in *; simpl in *; by rewrite Hfa.
  - rewrite !fmap_app in *. simpl in *. rewrite Hft, Ht, !triggers_of_snoc. done.
Qed.

Lemma nextAttempt_open res done :
  recorded done true (tr_Attempts res) →
  nextAttempt (Some res) = (count_of (tr_Attempts res), true).
Proof.
  intros (Hph & Hn & _). apply recorded_snoc_inv in Hph as (l0 & a & E & _ & Ha).
  unfold nextAttempt. simpl default. rewrite E, last_snoc, Ha. simpl. f_equal.
  rewrite E in Hn. apply (f_equal last) in Hn. revert Hn. unfold count_of.
  rewrite fmap_app, length_app. simpl. rewrite last_snoc, Nat.add_1_r, seqZ_S, last_snoc.
  intros [= ->]. lia.
Qed.

Lemma nextAttempt_closed res done :
  recorded done false (tr_Attempts res) → (∀ p, p ∈ done → IsTerminal p = true) →
  (count_of done + 1 < 2147483648)%Z →
  nextAttempt (Some res) = ((count_of (tr_Attempts res) + 1)%Z, false).
Proof.
  intros (Hph & Hn & _) Hterm Hlt. rewrite app_nil_r in Hph.
  assert (count_of (tr_Attempts res) = count_of done) as Hc.
  { unfold count_of. by rewrite <-Hph, length_fmap. }
  unfold nextAttempt. simpl default.
  destruct (tr_Attempts res) as [|a l _] using rev_ind; [done|].
  rewrite last_snoc. rewrite Hterm; [|rewrite <-Hph, fmap_app; set_solver].
  f_equal. apply (f_equal last) in Hn. revert Hn Hc. unfold count_of in *.
  rewrite fmap_app, length_app. simpl. rewrite last_snoc, Nat.add_1_r, seqZ_S, last_snoc.
  intros [= ->] Hc.
  rewrite i32_small; [lia|]. unfold int32_range. lia.
Qed.

Lemma begin_on_open now res pod done :
  recorded done true (tr_Attempts res) →
  recorded done true (tr_Attempts (begin_on now res nodes (nextAttempt (Some res)).1 pod).1).
Proof.
  intros Hrec. rewrite (nextAttempt_open _ _ Hrec). simpl fst. unfold begin_on.
  match goal with |- context [negb (is_unset ?x) && _] =>
    set (started := x); clearbody started end.
  match goal with |- context [if ?c then set_tr_StartedAt ?s ?r else ?r] =>
    set (res' := if c then set_tr_StartedAt s r else r) end.
  assert (tr_Attempts res' = tr_Attempts res) as Hres by (by unfold res'; destruct (_ && _)).
  rewrite <-Hres in Hrec |- *. rewrite (nextAttempt_open res' done Hrec), Z.eqb_refl. simpl.
  destruct (last (tr_Attempts res')) as [a|]; [|exact Hrec].
  destruct (is_unset (at_StartedAt a) && _); [|exact Hrec].
  by apply (recorded_alter_last (set_at_StartedAt started) done true RunRunning).
Qed.

Lemma begin_on_closed now res pod done :
  tr_SegmentsRequired res = 0%Z →
  recorded done false (tr_Attempts res) → (∀ p, p ∈ done → IsTerminal p = true) →
  (count_of done + 1 < 2147483648)%Z →
  recorded done true (tr_Attempts (begin_on now res nodes (nextAttempt (Some res)).1 pod).1).
Proof.
  intros Hseg Hrec Hterm Hlt. rewrite (nextAttempt_closed _ done) by done. simpl fst.
  unfold begin_on.
  match goal with |- context [negb (is_unset ?x) && _] =>
    set (started := x); clearbody started end.
  match goal with |- context [if ?c then set_tr_StartedAt ?s ?r else ?r] =>
    set (res' := if c then set_tr_StartedAt s r else r) end.
  assert (tr_Attempts res' = tr_Attempts res ∧ tr_SegmentsRequired res' = 0%Z) as [Hres Hseg']
    by (by unfold res'; destruct (_ && _)).
  rewrite <-Hres in Hrec |- *. rewrite (nextAttempt_closed res' done) by done. simpl.
  destruct Hrec as (Hph & Hn & Ht). rewrite app_nil_r in Hph.
  unfold recorded. rewrite !fmap_app. simpl. rewrite Hph, Hn, Ht. split_and!; [done| |].
  - unfold count_of. rewrite length_app. simpl. rewrite Nat.add_1_r, seqZ_S.
    f_equal. f_equal. lia.
  - rewrite triggers_of_snoc. unfold triggerFor. rewrite Hseg'.
    destruct (tr_Attempts res') as [|a l _] using rev_ind.
    { by rewrite <-Hph. }
    rewrite last_snoc, <-Hph, fmap_app. simpl. rewrite triggers_of_snoc.
    destruct l; simpl; [by destruct (bool_decide _)|]. rewrite fmap_app. simpl.
    by destruct (bool_decide _).
Qed.

Lemma begin_on_recorded now res pod done running :
  tr_SegmentsRequired res = 0%Z →
  recorded done running (tr_Attempts res) → (∀ p, p ∈ done → IsTerminal p = true) →
  (count_of done + 1 < 2147483648)%Z →
  recorded done true (tr_Attempts (begin_on now res nodes (nextAttempt (Some res)).1 pod).1).
Proof.
  intros. destruct running; [by apply begin_on_open|by apply begin_on_closed].
Qed.

Lemma record_attempt_recorded now podName parsed phase message res done :
  tr_SegmentsRequired res = 0%Z → recorded done true (tr_Attempts res) →
  recorded (done ++ [phase]) false
    (tr_Attempts (record_attempt now podName parsed phase message res)).
Proof.
  intros Hseg Hrec. unfold record_attempt. set (f := λ a : TestAttempt, _).
  set (res' := set_tr_Attempts _ res).
  assert (truncateAttempts res' = res') as ->.
  { unfold truncateAttempts. change (tr_SegmentsRequired res') with (tr_SegmentsRequired res).
    by rewrite Hseg. }
  assert (recorded (done ++ [phase]) false (tr_Attempts res')) as H.
  { apply (recorded_alter_last f done false phase); [| |done|done].
    - intros a. unfold f. by destruct (String.eqb podName "").
    - intros a _. unfold f. by destruct (String.eqb podName ""). }
  destruct (bool_decide (r_Metrics parsed = ∅)); exact H.
Qed.

Lemma decide_attempt_attempts now attempt parsed phase message ev res :
  tr_Attempts (decide_attempt now limit t attempt parsed phase message ev res).1 =
  tr_Attempts res.
Proof.
  assert (tr_Attempts (foldSegment res parsed) = tr_Attempts res) as Hfold.
  { unfold foldSegment. by destruct (bool_decide _). }
  unfold decide_attempt. destruct phase; try reflexivity;
    try (destruct (tr_ErrorRetries res <? limit)%Z; [reflexivity|];
         destruct ((0 <? tr_SegmentsRequired res)%Z && _); reflexivity).
  destruct (0 <? tr_SegmentsRequired res)%Z.
  - destruct (segmentVerdict _ _ _) as [[[final msg] aggEv]|]; [|exact Hfold].
    destruct (bool_decide _); exact Hfold.
  - simpl. by destruct (_ <=? _)%Z.
Qed.

Lemma finish_on_recorded now attempt podName parsed res done :
  tr_SegmentsRequired res = 0%Z → recorded done true (tr_Attempts res) →
  recorded (done ++ [phase_of t parsed]) false
    (tr_Attempts (finish_on now limit t attempt podName parsed res).1).
Proof.
  intros Hseg Hrec. unfold finish_on, phase_of.
  destruct (attemptOutcome t parsed) as [[phase message] ev]. simpl.
  rewrite decide_attempt_attempts. by apply record_attempt_recorded.
Qed.

Lemma checkpoint_on_recorded now out res done running :
  recorded done running (tr_Attempts res) → (∀ p, p ∈ done → IsTerminal p = true) →
  recorded done running (tr_Attempts (checkpoint_on now t out res).1).
Proof.
  intros Hrec Hterm. unfold checkpoint_on. destruct (IsTerminal (tr_Phase res)); [done|].
  destruct (match (match tr_LastCheckpointAt res with _ => _ end) with Some s => _ | None => _ end);
    [done|].
  destruct out as [stdout|]; [|done].
  generalize (Parse (ts_Kind (te_Spec t)) stdout 0) as parsed. intros parsed.
  destruct (bool_decide _); [done|]. set (res' := set_tr_LastCheckpointAt _ _).
  change (tr_Attempts res) with (tr_Attempts res') in Hrec.
  destruct (last (tr_Attempts res')) as [a|] eqn:Hlast; [|done].
  destruct (IsTerminal (at_Phase a)) eqn:Ha; [done|].
  destruct running.
  - by apply (recorded_alter_last _ done true RunRunning).
  - destruct Hrec as (Hph & _). rewrite app_nil_r in Hph.
    rewrite Hterm in Ha; [done|]. rewrite <-Hph. apply list_elem_of_fmap.
    exists a. split; [done|]. by apply last_Some_elem_of.
Qed.

Lemma count_open l : open_phases l → count_of l = (count_p RunPassed l + count_p RunError l)%Z.
Proof.
  induction l as [|p l IH] using rev_ind; intros Hl; [done|].
  rewrite !count_p_snoc. unfold count_of in *. rewrite length_app, Nat2Z.inj_add, IH.
  - destruct (Hl p) as [-> | ->]; [set_solver|simpl; lia..].
  - intros q Hq. apply Hl. set_solver.
Qed.

Lemma phase_of_cases parsed :
  phase_of t parsed = RunPassed ∨ phase_of t parsed = RunFailed ∨
  phase_of t parsed = RunSkipped ∨ phase_of t parsed = RunError.
Proof.
  rewrite phase_of_eq. destruct (r_Verdict parsed); auto.
  destruct (empty_harvest t parsed), (gates_met t parsed); auto.
Qed.

Lemma phases_terminal (h : list Result) p : p ∈ phase_of t <$> h → IsTerminal p = true.
Proof.
  intros (parsed & -> & _)%list_elem_of_fmap.
  by destruct (phase_of_cases parsed) as [-> | [-> | [-> | ->]]].
Qed.

(** The counters of an open test after a history of phases. *)
Definition counters (required : Z) (l : list RunPhase) (res : TestResult) : Prop :=
  tr_RepeatsRequired res = required ∧ tr_RepeatsCompleted res = count_p RunPassed l ∧
  (tr_Phase res = RunRunning → tr_ErrorRetries res = count_p RunError l).

Lemma decide_unsegmented now attempt parsed message ev res required l phase :
  (0 <= limit)%Z → (required + limit < 2147483648)%Z →
  tr_SegmentsRequired res = 0%Z → tr_Phase res = RunRunning →
  history_verdict required l RunRunning → counters required l res →
  phase = RunPassed ∨ phase = RunFailed ∨ phase = RunSkipped ∨ phase = RunError →
  let res' := (decide_attempt now limit t attempt parsed phase message ev res).1 in
  tr_SegmentsRequired res' = 0%Z ∧ history_verdict required (l ++ [phase]) (tr_Phase res') ∧
  counters required (l ++ [phase]) res'.
Proof.
  intros Hlim Hover Hseg Hrun [[Hopen Howe] Herr] (Hreq & Hrep & Hret) Hphase.
  specialize (Hret Hrun). pose proof (count_p_nonneg RunPassed l).
  pose proof (count_p_nonneg RunError l).
  unfold counters, history_verdict. rewrite !count_p_snoc. simpl.
  destruct Hphase as [-> | [-> | [-> | ->]]]; unfold decide_attempt.
  - rewrite Hseg. simpl. rewrite Hreq, Hrep, i32_small by (unfold int32_range; lia).
    destruct (Z.leb_spec required (count_p RunPassed l + 1)); simpl.
    + split_and!; [done| |done|lia|done]. exists l. split_and!; [done..|lia|lia].
    + rewrite Hrun. split_and!; [done|by apply open_phases_snoc; [|left]|lia|lia|done|lia|lia].
  - simpl. split_and!; [done| |done|lia|done]. by exists l.
  - simpl. split_and!; [done| |done|lia|done]. by exists l.
  - rewrite Hret, Hseg. simpl. destruct (Z.ltb_spec (count_p RunError l) limit); simpl.
    + rewrite Hrun. split_and!; [done|by apply open_phases_snoc; [|right]|lia|lia|done|lia|].
      intros _. rewrite i32_small; [done|]. unfold int32_range. lia.
    + split_and!; [done| |done|lia|done]. exists l. split_and!; [done..|lia].
Qed.

Lemma counters_core required l res res' :
  core res' = core res → counters required l res → counters required l res'.
Proof.
  intros (Hp & Hr & Hc & He & _)%core_facts (H1 & H2 & H3). unfold counters.
  rewrite Hp, Hr, Hc, He. done.
Qed.

(** A history that has not settled the test. *)
Lemma history_open required l p :
  history_verdict required l p → IsTerminal p = false → p = RunRunning.
Proof. by destruct p. Qed.

Lemma begin_core_open now res pod :
  tr_Phase (begin_on now res nodes (nextAttempt (Some res)).1 pod).1 = tr_Phase res.
Proof. by destruct (core_facts _ _ (begin_on_core now res nodes (nextAttempt (Some res)).1 pod)). Qed.

Lemma executed_inv h res :
  segmentsRequired (te_Spec t) = 0%Z → (0 <= limit)%Z →
  (repeatsRequired (te_Spec t) + limit < 2147483648)%Z → executed h res →
  let l := phase_of t <$> h in
  tr_SegmentsRequired res = 0%Z ∧
  history_verdict (repeatsRequired (te_Spec t)) l (tr_Phase res) ∧
  counters (repeatsRequired (te_Spec t)) l res ∧
  ∃ running, recorded l running (tr_Attempts res) ∧
             (IsTerminal (tr_Phase res) = true → running = false).
Proof.
  intros Hseg Hlim Hover H.
  assert (1 <= repeatsRequired (te_Spec t))%Z as Hone.
  { unfold repeatsRequired. destruct (ts_RepeatCount (te_Spec t)) as [n|]; [|lia].
    destruct (Z.ltb_spec n 1); lia. }
  assert (∀ l, history_verdict (repeatsRequired (te_Spec t)) l RunRunning →
    count_of l + 1 < 2147483648)%Z as Hcount.
  { intros l [[Hopen Howe] He]. rewrite count_open by done. lia. }
  induction H as [|h res now pod H (Hs & Hv & Hc & running & Hrec & Hr) Ht
                 |h res now out H (Hs & Hv & Hc & running & Hrec & Hr)
                 |h res now podName pod parsed H (Hs & Hv & Hc & running & Hrec & Hr) Ht attempt];
    simpl.
  - split_and!; [done|by intros ? ?%elem_of_nil|unfold count_p, count_of; simpl; lia|done..|].
    exists false. by split.
  - pose proof (begin_on_core now res nodes (nextAttempt (Some res)).1 pod) as Hcore.
    pose proof (core_facts _ _ Hcore) as (Hp & _ & _ & _ & Hs' & _).
    rewrite Hp, Hs'. split_and!; [done|done|by eapply counters_core|].
    rewrite (history_open _ _ _ Hv Ht) in Hv |- *.
    exists true. split; [|done]. eapply begin_on_recorded; eauto using phases_terminal.
  - pose proof (checkpoint_on_core now t out res) as Hcore.
    pose proof (core_facts _ _ Hcore) as (Hp & _ & _ & _ & Hs' & _).
    rewrite Hp, Hs'. split_and!; [done|done|by eapply counters_core|].
    exists running. split; [|done].
    apply checkpoint_on_recorded; eauto using phases_terminal.
  - pose proof (history_open _ _ _ Hv Ht) as Hrun. rewrite Hrun in Hv.
    assert (recorded (phase_of t <$> h) true
      (tr_Attempts (begin_on now res nodes attempt pod).1)) as Hrec'
      by (eapply begin_on_recorded; eauto using phases_terminal).
    pose proof (begin_on_core now res nodes attempt pod) as Hcore.
    set (res1 := (begin_on now res nodes attempt pod).1) in *. clearbody res1.
    pose proof (core_facts _ _ Hcore) as (Hp & _ & _ & _ & Hs' & _).
    assert (tr_SegmentsRequired res1 = 0%Z) as Hs1 by congruence.
    pose proof (finish_on_recorded now attempt podName parsed res1 _ Hs1 Hrec') as Hrec''.
    pose proof (phase_of_cases parsed) as Hph. rewrite fmap_app. simpl.
    revert Hrec'' Hph. unfold finish_on, phase_of.
    destruct (attemptOutcome t parsed) as [[phase message] ev]. simpl. intros Hrec'' Hph.
    pose proof (record_attempt_core now podName parsed phase message res1) as Hcore'.
    set (res2 := record_attempt now podName parsed phase message res1) in *. clearbody res2.
    pose proof (core_facts _ _ Hcore') as (Hp2 & _ & _ & _ & Hs2 & _).
    destruct (decide_unsegmented now attempt parsed message ev res2
      (repeatsRequired (te_Spec t)) ((λ p, (attemptOutcome t p).1.1) <$> h) phase)
      as (Hs3 & Hv3 & Hc3); try done; try congruence.
    { eapply counters_core; [exact Hcore'|]. by eapply counters_core. }
    split_and!; [done..|]. exists false. by split.
Qed.

(** C4: The life of a test of one pod per execution.  Whatever pods and logs the controller
    sees, in whatever order: the test passes with its last clean execution, when it
    has had as many as the repeats it requires; one failed execution fails it, and
    one declared skip skips it, at once and for good; an Error settles it only when
    the retry budget is spent; nothing but a clean execution or an Error is ever
    followed by another attempt.  The recorded attempts are those executions,
    numbered from one, each with the reason it was started. *)
Theorem repeats_history (h : list Result) (res : TestResult) :
  segmentsRequired (te_Spec t) = 0%Z → (0 <= limit)%Z →
  (repeatsRequired (te_Spec t) + limit < 2147483648)%Z →
  executed h res →
  let l := phase_of t <$> h in
  history_verdict (repeatsRequired (te_Spec t)) l (tr_Phase res) ∧
  tr_RepeatsCompleted res = count_p RunPassed l ∧
  ∃ running, recorded l running (tr_Attempts res) ∧
             (IsTerminal (tr_Phase res) = true → running = false).
Proof.
  intros Hseg Hlim Hover H.
  destruct (executed_inv h res Hseg Hlim Hover H) as (_ & Hv & (_ & Hrep & _) & Hrec).
  by split_and!.
Qed.

(** *** A segmented soak *)
Definition is_clean (parsed : Result) : bool := bool_decide (phase_of t parsed = RunPassed).

(** What the clean windows of a history measured and declared, folded. *)
Definition fold_window (acc : gmap str str * list str) (parsed : Result)
    : gmap str str * list str :=
  let agg := foldMetrics acc.1 (r_Metrics parsed) in
  (agg, foldUnmeasurable acc.2 (r_Unmeasurable parsed) agg).

Definition soak_state (h : list Result) : gmap str str * list str :=
  fold_left fold_window (List.filter is_clean h) (∅, []).

Definition soak_gates (h : list Result) : Outcome :=
  Evaluate (soak_state h).1 (unmeasurableSet (soak_state h).2) (ts_Thresholds (te_Spec t)).

Definition soak_verdict (required : Z) (h : list Result) (final : RunPhase) : Prop :=
  let ph := λ h, phase_of t <$> h in
  let owes := λ h, open_phases (ph h) ∧ (count_p RunPassed (ph h) < required)%Z ∧
                   (count_p RunError (ph h) <= limit)%Z in
  match final with
  | RunRunning => owes h
  | RunPassed => ∃ h' w, h = h' ++ [w] ∧ owes h' ∧ phase_of t w = RunPassed ∧
      count_p RunPassed (ph h) = required ∧ o_Passed (soak_gates h) = true
  | RunFailed => ∃ h' w, h = h' ++ [w] ∧ owes h' ∧
      (phase_of t w = RunFailed ∨
       phase_of t w = RunPassed ∧
         (count_p RunPassed (ph h) = required ∧ o_Passed (soak_gates h) = false ∨
          (count_p RunPassed (ph h) < required)%Z ∧ abortEarly (te_Spec t) = true ∧
          provableViolations (soak_state h).1 (soak_gates h) (ts_Thresholds (te_Spec t)) ≠ []))
  | RunSkipped => ∃ h' w, h = h' ++ [w] ∧ owes h' ∧ phase_of t w = RunSkipped
  | RunError => ∃ h' w, h = h' ++ [w] ∧ owes h' ∧ phase_of t w = RunError ∧
      count_p RunError (ph h') = limit
  | _ => False
  end.

Lemma soak_state_snoc h w :
  soak_state (h ++ [w]) = if is_clean w then fold_window (soak_state h) w else soak_state h.
Proof.
  unfold soak_state. rewrite List.filter_app. simpl. destruct (is_clean w); simpl.
  - by rewrite fold_left_app.
  - by rewrite app_nil_r.
Qed.

Definition soak_counters (required : Z) (h : list Result) (res : TestResult) : Prop :=
  tr_SegmentsRequired res = required ∧ tr_AggregatedMetrics res = (soak_state h).1 ∧
  tr_SegmentsCompleted res = count_p RunPassed (phase_of t <$> h) ∧
  (tr_Phase res = RunRunning →
   tr_Unmeasurable res = (soak_state h).2 ∧
   tr_ErrorRetries res = count_p RunError (phase_of t <$> h)).

Lemma foldSegment_facts res parsed :
  let res' := foldSegment res parsed in
  let acc := fold_window (tr_AggregatedMetrics res, tr_Unmeasurable res) parsed in
  tr_Phase res' = tr_Phase res ∧ tr_SegmentsRequired res' = tr_SegmentsRequired res ∧
  tr_SegmentsCompleted res' = i32 (tr_SegmentsCompleted res + 1) ∧
  tr_AggregatedMetrics res' = acc.1 ∧ tr_Unmeasurable res' = acc.2 ∧
  tr_ErrorRetries res' = tr_ErrorRetries res.
Proof. unfold foldSegment. destruct (bool_decide _); by split_and!. Qed.


Lemma clean_window_counts (h : list Result) parsed :
  phase_of t parsed = RunPassed →
  is_clean parsed = true ∧ soak_state (h ++ [parsed]) = fold_window (soak_state h) parsed ∧
  count_p RunPassed (phase_of t <$> h ++ [parsed]) =
    (count_p RunPassed (phase_of t <$> h) + 1)%Z ∧
  count_p RunError (phase_of t <$> h ++ [parsed]) = count_p RunError (phase_of t <$> h).
Proof.
  intros Hph. assert (is_clean parsed = true) as Hclean by (by apply bool_decide_eq_true_2).
  rewrite soak_state_snoc, Hclean, fmap_app. simpl. rewrite !count_p_snoc, Hph. simpl.
  split_and!; (done || lia).
Qed.

(** A result whose counters agree with a history, once it has settled. *)
Lemma settled_counters required h r :
  tr_SegmentsRequired r = required → tr_AggregatedMetrics r = (soak_state h).1 →
  tr_SegmentsCompleted r = count_p RunPassed (phase_of t <$> h) →
  tr_Phase r ≠ RunRunning → soak_counters required h r.
Proof. intros. by split_and!. Qed.

Lemma decide_clean_window now attempt parsed message ev res required h :
  (0 < required < 2147483648)%Z → (0 <= limit < 2147483648)%Z →
  phase_of t parsed = RunPassed → tr_Phase res = RunRunning →
  soak_verdict required h RunRunning → soak_counters required h res →
  let res' := (decide_attempt now limit t attempt parsed RunPassed message ev res).1 in
  soak_verdict required (h ++ [parsed]) (tr_Phase res') ∧
  soak_counters required (h ++ [parsed]) res'.
Proof.
  intros Hreq Hlim Hph Hrun (Hopen & Howe & Herr) (Hsr & Hagg & Hsc & Hun).
  destruct (Hun Hrun) as [Hun' Hret]. pose proof (count_p_nonneg RunPassed (phase_of t <$> h)).
  destruct (clean_window_counts h parsed Hph) as (Hclean & Hsnoc & Hcp & Hce).
  unfold decide_attempt. rewrite Hsr. destruct (Z.ltb_spec 0 required); [|lia].
  pose proof (foldSegment_facts res parsed) as (Hp1 & Hsr1 & Hsc1 & Hagg1 & Hun1 & Her1).
  rewrite Hagg, Hun', <-surjective_pairing, <-Hsnoc in Hagg1, Hun1.
  set (res1 := foldSegment res parsed) in *. clearbody res1. simpl in Hp1, Hsr1.
  rewrite Hsc, i32_small, <-Hcp in Hsc1 by (unfold int32_range; lia).
  pose proof (segmentVerdict_phase t res1 parsed) as Hseg. cbv zeta in Hseg.
  rewrite Hagg1, Hun1, Hsc1, Hsr1, Hsr, Z.leb_antisym in Hseg.
  fold (soak_gates (h ++ [parsed])) in Hseg.
  destruct (segmentVerdict t res1 parsed) as [[[final msg] aggEv]|]; simpl in Hseg.
  - set (r := if bool_decide (final = RunPassed) then _ else res1).
    assert (tr_SegmentsRequired r = required ∧
      tr_AggregatedMetrics r = (soak_state (h ++ [parsed])).1 ∧
      tr_SegmentsCompleted r = count_p RunPassed (phase_of t <$> h ++ [parsed])) as (H1 & H2 & H3).
    { unfold r. destruct (bool_decide _); simpl; split_and!; congruence. }
    clearbody r. simpl.
    destruct (Z.ltb_spec (count_p RunPassed (phase_of t <$> h ++ [parsed])) required);
      simpl in Hseg.
    + destruct (abortEarly _) eqn:Hae; [|done]. simpl in Hseg.
      destruct (is_nil (provableViolations _ _ _)) eqn:Hnil; [done|]. injection Hseg as ->.
      split; [|by apply settled_counters]. exists h, parsed. split_and!; [done..|].
      right. split; [done|]. right. split_and!; [lia|done|]. intros Hn. by rewrite Hn in Hnil.
    + injection Hseg as ->. destruct (o_Passed (soak_gates (h ++ [parsed]))) eqn:Ho;
        (split; [|by apply settled_counters]); exists h, parsed; split_and!; try (done || lia).
      right. split; [done|]. left. split; [lia|done].
  - destruct (Z.ltb_spec (count_p RunPassed (phase_of t <$> h ++ [parsed])) required); [|done].
    simpl. rewrite Hp1, Hrun. split.
    + split_and!; [|lia|lia]. rewrite fmap_app. simpl. rewrite Hph.
      apply open_phases_snoc; [done|by left].
    + split_and!; simpl; [congruence..|]. intros _. split; congruence.
Qed.

Lemma decide_other_window now attempt parsed message ev res required h phase :
  (0 < required < 2147483648)%Z → (0 <= limit < 2147483648)%Z →
  phase_of t parsed = phase → tr_Phase res = RunRunning →
  phase = RunFailed ∨ phase = RunSkipped ∨ phase = RunError →
  soak_verdict required h RunRunning → soak_counters required h res →
  let res' := (decide_attempt now limit t attempt parsed phase message ev res).1 in
  soak_verdict required (h ++ [parsed]) (tr_Phase res') ∧
  soak_counters required (h ++ [parsed]) res'.
Proof.
  intros Hreq Hlim Hph Hrun Hcases (Hopen & Howe & Herr) (Hsr & Hagg & Hsc & Hun).
  destruct (Hun Hrun) as [Hun' Hret]. pose proof (count_p_nonneg RunError (phase_of t <$> h)).
  assert (is_clean parsed = false) as Hclean.
  { apply bool_decide_eq_false_2. rewrite Hph. by destruct Hcases as [-> | [-> | ->]]. }
  pose proof (soak_state_snoc h parsed) as Hsnoc. rewrite Hclean in Hsnoc.
  assert (count_p RunPassed (phase_of t <$> h ++ [parsed]) =
    count_p RunPassed (phase_of t <$> h)) as Hcp.
  { rewrite fmap_app. simpl. rewrite count_p_snoc, Hph.
    destruct Hcases as [-> | [-> | ->]]; simpl; lia. }
  assert (∀ r, tr_SegmentsRequired r = tr_SegmentsRequired res → tr_AggregatedMetrics r =
    tr_AggregatedMetrics res → tr_SegmentsCompleted r = tr_SegmentsCompleted res →
    (tr_Phase r ≠ RunRunning) → soak_counters required (h ++ [parsed]) r) as Hcount.
  { intros r ? ? ? ?. rewrite <-Hcp in Hsc. split_and!; [congruence| |congruence|done].
    rewrite Hsnoc. congruence. }
  unfold decide_attempt. destruct Hcases as [-> | [-> | ->]].
  - split; [|by apply Hcount]. exists h, parsed. split_and!; [done..|]. by left.
  - split; [|by apply Hcount]. by exists h, parsed.
  - rewrite Hret. destruct (Z.ltb_spec (count_p RunError (phase_of t <$> h)) limit).
    + simpl. rewrite Hrun. split.
      * split_and!; [|by rewrite Hcp|].
        -- rewrite fmap_app. simpl. rewrite Hph. apply open_phases_snoc; [done|by right].
        -- rewrite fmap_app. simpl. rewrite count_p_snoc, Hph. simpl. lia.
      * split_and!; simpl; [done|by rewrite Hsnoc|by rewrite Hcp|]. intros _.
        rewrite Hsnoc. split; [done|]. rewrite fmap_app. simpl. rewrite count_p_snoc, Hph.
        rewrite i32_small; [done|]. unfold int32_range. lia.
    + destruct ((0 <? tr_SegmentsRequired res)%Z && _); simpl;
        (split; [|by apply Hcount]); exists h, parsed; split_and!; (done || lia).
Qed.

Lemma soak_inv required h res :
  segmentsRequired (te_Spec t) = required → (0 < required < 2147483648)%Z →
  (0 <= limit < 2147483648)%Z → executed h res →
  soak_verdict required h (tr_Phase res) ∧ soak_counters required h res.
Proof.
  intros Hreq Hr Hlim H.
  assert (∀ h r r', core r' = core r → soak_verdict required h (tr_Phase r) ∧
    soak_counters required h r → soak_verdict required h (tr_Phase r') ∧
    soak_counters required h r') as Hcore.
  { intros h' r r' (Hp & _ & _ & He & Hs & Hc & Ha & Hu)%core_facts [Hv (H1 & H2 & H3 & H4)].
    unfold soak_counters. rewrite Hp, He, Hs, Hc, Ha, Hu. by split. }
  assert (∀ h p, soak_verdict required h p → IsTerminal p = false → p = RunRunning) as Hopen
    by by intros h' [].
  induction H as [|h res now pod H IH Ht|h res now out H IH
                 |h res now podName pod parsed H IH Ht attempt].
  - split.
    + split_and!; [by intros ? ?%elem_of_nil|unfold count_p, count_of; simpl; lia..].
    + by split_and!.
  - eapply Hcore; [apply begin_on_core|done].
  - eapply Hcore; [apply checkpoint_on_core|done].
  - pose proof (begin_on_core now res nodes attempt pod) as Hc1.
    set (res1 := (begin_on now res nodes attempt pod).1) in *. clearbody res1.
    unfold finish_on. pose proof (phase_of_cases parsed) as Hcases.
    destruct (attemptOutcome t parsed) as [[phase message] ev] eqn:E.
    assert (phase_of t parsed = phase) as Hph by (unfold phase_of; by rewrite E).
    pose proof (record_attempt_core now podName parsed phase message res1) as Hc2.
    rewrite Hc1 in Hc2. destruct (Hcore h res _ Hc2 IH) as [Hv Hk].
    assert (tr_Phase (record_attempt now podName parsed phase message res1) = RunRunning) as Hrun.
    { eapply Hopen; [exact Hv|]. by rewrite (proj1 (core_facts _ _ Hc2)). }
    rewrite Hrun in Hv. rewrite Hph in Hcases. destruct Hcases as [-> |Hcases].
    + by apply decide_clean_window.
    + apply decide_other_window; done || by destruct Hcases as [? | [? | ?]]; auto.
Qed.

(** C5: The life of a segmented soak.  Windows are folded as they finish cleanly; one failed
    window fails the soak, an Error settles it only when the retry budget is spent and
    contributes nothing; the gates are applied once, to the fold of every window the
    soak owes, and decide between Passed and Failed, unless the test aborts early on a
    violation of the fold so far that is provable. *)
Theorem soak_history (h : list Result) (res : TestResult) :
  (0 < segmentsRequired (te_Spec t) < 2147483648)%Z → (0 <= limit < 2147483648)%Z →
  executed h res →
  soak_verdict (segmentsRequired (te_Spec t)) h (tr_Phase res) ∧
  tr_SegmentsCompleted res = count_p RunPassed (phase_of t <$> h) ∧
  tr_AggregatedMetrics res = (soak_state h).1.
Proof.
  intros Hreq Hlim H. destruct (soak_inv _ h res eq_refl Hreq Hlim H) as [Hv (_ & Ha & Hc & _)].
  by split_and!.
Qed.
End history.

(** ** Witnesses *)
Definition first_pass : TestResult :=
  (finish_on 7 0 example_test 1 "pod" passing_result
     (begin_on 7 (newResult example_test ["node-a"]) ["node-a"] 1 (Some deadline_pod)).1).1.

Lemma repeats_history_witness :
  tr_Phase first_pass = RunPassed ∧
  history_verdict 0 1 (phase_of example_test <$> [passing_result]) (tr_Phase first_pass).
Proof.
  split; [vm_compute; reflexivity|].
  destruct (repeats_history example_test ["node-a"] 0 [passing_result] first_pass) as [H _];
    [vm_compute; reflexivity|lia|vm_compute; reflexivity| |exact H].
  apply (executed_finish example_test ["node-a"] 0 [] (newResult example_test ["node-a"]) 7 "pod"
    (Some deadline_pod) passing_result); [constructor|reflexivity].
Defined.

Definition window_result : Result :=
  MkResult VerdictPass 0 {["throttleEvents" := "3"]} ∅ "" [] [] false.

(** The first window of a soak whose ceiling it already exceeds. *)
Definition aborted_soak : TestResult :=
  (finish_on 7 0 soak_test 1 "pod" window_result
     (begin_on 7 (newResult soak_test ["node-a"]) ["node-a"] 1 None).1).1.

Lemma soak_history_witness :
  tr_Phase aborted_soak = RunFailed ∧
  soak_verdict soak_test 0 4 [window_result] (tr_Phase aborted_soak).
Proof.
  split; [vm_compute; reflexivity|].
  destruct (soak_history soak_test ["node-a"] 0 [window_result] aborted_soak) as [H _];
    [vm_compute; split; reflexivity|lia| |exact H].
  apply (executed_finish soak_test ["node-a"] 0 [] (newResult soak_test ["node-a"]) 7 "pod"
    None window_result); [constructor|reflexivity].
Defined.
