(* ===== verification/Effects.v ===== *)
(** * Handlers: state, errors and their effects

    The monad every controller handler is written in, over a state of its own: a handler
    returns a value or an error, and what it did before an error stays done.  With it, the
    errors the Kubernetes client tells apart, the fates of a call, and the rules for
    reasoning about handlers. *)

From S2P Require Import Prelude GoStrings.
Open Scope stdpp_scope.

(** ** Errors *)
Inductive error_class := NotFound | AlreadyExists | ApiStatus | Unstructured.

Global Instance error_class_eq_dec : EqDecision error_class.
Proof. solve_decision. Defined.

(** An [error]: what the API helpers tell apart, and its text. *)
Record error := MkError { er_class : error_class; er_text : str }.

Definition IsNotFound (e : error) : bool := bool_decide (er_class e = NotFound).
Definition IsAlreadyExists (e : error) : bool := bool_decide (er_class e = AlreadyExists).

(** An error the source builds itself. *)
Definition Errorf (text : str) : error := MkError Unstructured text.

(** What a call does: it lands, it is rejected with an error of the given structure, or it
    takes effect and the answer is lost. *)
Inductive fault := Land | Reject (structured : bool) | Lost (structured : bool).

Definition failure (structured : bool) : error_class := if structured then ApiStatus else Unstructured.

Lemma IsNotFound_failure b t : IsNotFound (MkError (failure b) t) = false.
Proof. by destruct b. Qed.

Lemma IsNotFound_NotFound t : IsNotFound (MkError NotFound t) = true.
Proof. done. Qed.

(** [ctrl.Result]: nothing further, again at once, or again after a while. *)
Inductive requeue := Stop | Again | After (d : Z).

(** [fmt.Errorf("...: %w", err)] *)
Definition wrap (prefix : str) (e : error) : error :=
  MkError (er_class e) (prefix +:+ er_text e).

(** ** The monad *)
(** A handler over the state [St]. *)
Definition eff (St A : Type) : Type := St → (A + error) * St.

Global Instance M_ret {St} : MRet (eff St) := λ A a s, (inl a, s).
Global Instance M_bind {St} : MBind (eff St) := λ A B f m s,
  match m s with (inl a, s') => f a s' | (inr e, s') => (inr e, s') end.

Definition throw {St A} (e : error) : eff St A := λ s, (inr e, s).

(** The error as a value, for [if err := m(); ...] that looks at it. *)
Definition try {St A} (m : eff St A) : eff St (A + error) := λ s, let '(r, s') := m s in (inl r, s').

Definition of_option {St A} (e : error) (o : option A) : eff St A :=
  match o with Some a => mret a | None => throw e end.

Definition when {St} (b : bool) (m : eff St ()) : eff St () := if b then m else mret tt.

Fixpoint iter {St A} (f : A → eff St ()) (l : list A) : eff St () :=
  match l with [] => mret tt | a :: l => f a ;; iter f l end.

(** A loop that accumulates. *)
Fixpoint fold {St A B} (f : B → A → eff St B) (acc : B) (l : list A) : eff St B :=
  match l with [] => mret acc | a :: l => b ← f acc a; fold f b l end.

(** [if err != nil { return fmt.Errorf("...: %w", err) }] *)
Definition rethrow {St A} (prefix : str) (m : eff St A) : eff St A :=
  r ← try m; match r with inl a => mret a | inr e => throw (wrap prefix e) end.

(** ** Reasoning about handlers *)

(** From a state of [P], a value leads to [Q] and an error to [E]. *)
Definition triple {St A} (P : St → Prop) (m : eff St A) (Q : A → St → Prop) (E : error → St → Prop)
    : Prop :=
  ∀ s, P s → match m s with (inl a, s') => Q a s' | (inr e, s') => E e s' end.

(** What a handler keeps true whatever the calls do. *)
Definition keeps {St A} (I : St → Prop) (m : eff St A) : Prop := triple I m (λ _, I) (λ _, I).

Section rules.
Context {St A B : Type}.
Implicit Types P : St → Prop.

Lemma triple_ret (a : A) (Q : A → St → Prop) E : triple (Q a) (mret a) Q E.
Proof. intros s H. exact H. Qed.

Lemma triple_throw e (Q : A → St → Prop) E : triple (E e) (throw e) Q E.
Proof. intros s H. exact H. Qed.

Lemma triple_bind P (m : eff St A) (f : A → eff St B) R Q E :
  triple P m R E → (∀ a, triple (R a) (f a) Q E) → triple P (m ≫= f) Q E.
Proof.
  intros Hm Hf s HP. unfold mbind, M_bind. specialize (Hm s HP).
  destruct (m s) as [[a|e] s']; [|done]. by apply Hf.
Qed.

Lemma triple_conseq P P' (m : eff St A) (Q Q' : A → St → Prop) (E E' : error → St → Prop) :
  triple P m Q E → (∀ s, P' s → P s) → (∀ a s, Q a s → Q' a s) → (∀ e s, E e s → E' e s) →
  triple P' m Q' E'.
Proof.
  intros Hm HP HQ HE s H. specialize (Hm s (HP s H)).
  destruct (m s) as [[a|e] s']; [by apply HQ|by apply HE].
Qed.

Lemma triple_and P P' (m : eff St A) (Q Q' : A → St → Prop) (E E' : error → St → Prop) :
  triple P m Q E → triple P' m Q' E' →
  triple (λ s, P s ∧ P' s) m (λ a s, Q a s ∧ Q' a s) (λ e s, E e s ∧ E' e s).
Proof.
  intros H H' s [HP HP']. specialize (H s HP). specialize (H' s HP').
  by destruct (m s) as [[a|e] s'].
Qed.

Lemma triple_try P (m : eff St A) (Q : A + error → St → Prop) E :
  triple P m (λ a, Q (inl a)) (λ e, Q (inr e)) → triple P (try m) Q E.
Proof.
  intros H s HP. specialize (H s HP). unfold try. by destruct (m s) as [[a|e] s'].
Qed.

Lemma triple_pre P (m : eff St A) Q E : (∀ s, P s → triple (λ s', s' = s) m Q E) → triple P m Q E.
Proof. intros H s HP. exact (H s HP s eq_refl). Qed.

Lemma keeps_bind P (m : eff St A) (f : A → eff St B) :
  keeps P m → (∀ a, keeps P (f a)) → keeps P (m ≫= f).
Proof. intros. by eapply triple_bind. Qed.

Lemma keeps_ret P (a : A) : keeps P (mret a).
Proof. by intros s H. Qed.

Lemma keeps_throw P e : keeps P (throw e : eff St A).
Proof. by intros s H. Qed.

Lemma keeps_try P (m : eff St A) : keeps P m → keeps P (try m).
Proof. intros H. by apply triple_try. Qed.

Lemma keeps_of_option P e (o : option A) : keeps P (of_option e o).
Proof. destruct o; [apply keeps_ret|apply keeps_throw]. Qed.

Lemma keeps_world_fun P (f : St → A) : keeps P (λ s, (inl (f s), s)).
Proof. by intros s H. Qed.

End rules.

Section loops.
Context {St A B : Type}.
Implicit Types P : St → Prop.

Lemma triple_iter P (f : A → eff St ()) l :
  (∀ a, a ∈ l → keeps P (f a)) → keeps P (iter f l).
Proof.
  induction l as [|a l IH]; intros H; [apply keeps_ret|]. simpl.
  apply keeps_bind; [apply H; left|]. intros _. apply IH. intros b Hb. apply H. by right.
Qed.

(** A loop invariant indexed by the accumulator. *)
Lemma triple_fold (J : B → St → Prop) (f : B → A → eff St B) E l acc :
  (∀ b a, a ∈ l → triple (J b) (f b a) J E) → triple (J acc) (fold f acc l) J E.
Proof.
  revert acc. induction l as [|a l IH]; intros acc H; [apply triple_ret|]. simpl.
  eapply triple_bind; [apply H; left|]. intros b. apply IH. intros b' a' Ha'. apply H. by right.
Qed.
End loops.

Lemma keeps_when {St} (P : St → Prop) b (m : eff St ()) : keeps P m → keeps P (when b m).
Proof. intros. destruct b; [done|apply keeps_ret]. Qed.

(** A fact the precondition implies may be assumed outright. *)
Lemma triple_fact {St A} (P : St → Prop) (φ : Prop) (m : eff St A) Q E :
  (∀ s, P s → φ) → (φ → triple P m Q E) → triple P m Q E.
Proof. intros H Hm s HP. exact (Hm (H s HP) s HP). Qed.
