(* ===== verification/World.v ===== *)
(** * The cluster a reconcile pass runs against

    The objects behind the Kubernetes client and the calls the controller makes on them, in
    the monad of Effects.  A handler's state is the in-memory run, the pass's busy-node map
    and the cluster; its result is a value or an error, and the effects of a call stay when a
    later one fails.

    Every call consumes one entry of a fault script: it lands, it is rejected without an
    effect (a conflict, a refusal, an unreachable apiserver), or it takes effect and its
    answer is lost.  Pods are read through an informer, a second map that only the
    environment brings up to date; deleting a pod marks it terminating, and it stays live
    until the kubelet is done with it.  Time stands still during a pass. *)

From S2P Require Import Prelude GoStrings GoFloat GoTime Contract Registry Runner Verdict Api Plan.
From S2P Require Import Soak Pods RunPlan Attempt Effects.

Open Scope stdpp_scope.

(** ** The cluster *)
Record Node := MkNode {
  nd_Labels : gmap str str;
  nd_Annotations : gmap str str;
  nd_Unschedulable : bool;
  nd_Kernel : str;
  nd_OS : str;
  nd_Arch : str;
}.

Definition set_nd_Annotations (v : gmap str str) (n : Node) : Node :=
  MkNode (nd_Labels n) v (nd_Unschedulable n) (nd_Kernel n) (nd_OS n) (nd_Arch n).
Definition set_nd_Unschedulable (v : bool) (n : Node) : Node :=
  MkNode (nd_Labels n) (nd_Annotations n) v (nd_Kernel n) (nd_OS n) (nd_Arch n).

(** corev1.ConfigMap's two maps. *)
Record ConfigMap := MkConfigMap { cm_Data : gmap str str; cm_BinaryData : gmap str str }.

Record SinkStatus := MkSinkStatus { ss_LastDelivery : option Z; ss_LastError : str }.

(** What reached the outside, newest first. *)
Inductive event :=
  | EvStatus (run : BurnInRun)
  | EvMeta (run : BurnInRun)
  | EvRunDeleted
  | EvPodCreated (name node : str)
  | EvPodDeleted (name : str)
  | EvService (name : str)
  | EvNode (name : str) (node : Node)
  | EvSent (sink : str) (reason key : str).

Record world := MkWorld {
  w_now : Z;  (* the clock of the pass *)
  w_run : option BurnInRun;  (* the stored run *)
  w_others : list BurnInRun;  (* every other stored run, of all namespaces *)
  w_profiles : gmap str BurnInProfileSpec;  (* the profiles and tests of the run's namespace *)
  w_tests : gmap str BurnInTestSpec;
  w_nodes : gmap str Node;
  w_pods : gmap str Pod;  (* the pods of the run's namespace *)
  w_terminating : gset str;  (* pods whose deletion was accepted *)
  w_informer : gmap str Pod;  (* the pods as the cache has them *)
  w_services : gset str;
  w_configmaps : gmap str ConfigMap;
  w_sinks : gmap str SinkStatus;
  w_vendors : gmap str str;  (* the accelerator vendor each fingerprint records *)
  w_logs : gmap str logs;  (* what reading a pod's log gives *)
  w_faults : list fault;
  w_sends : list (option str);  (* outcomes of the next deliveries: an error's text *)
  w_text : error_class → str → str;  (* the text of an API error about an object *)
  w_trace : list event;
}.

Definition set_w_now (v : Z) (w : world) : world :=
  MkWorld v (w_run w) (w_others w) (w_profiles w) (w_tests w) (w_nodes w) (w_pods w)
    (w_terminating w) (w_informer w) (w_services w) (w_configmaps w) (w_sinks w) (w_vendors w)
    (w_logs w) (w_faults w) (w_sends w) (w_text w) (w_trace w).
Definition set_w_run (v : option BurnInRun) (w : world) : world :=
  MkWorld (w_now w) v (w_others w) (w_profiles w) (w_tests w) (w_nodes w) (w_pods w)
    (w_terminating w) (w_informer w) (w_services w) (w_configmaps w) (w_sinks w) (w_vendors w)
    (w_logs w) (w_faults w) (w_sends w) (w_text w) (w_trace w).
Definition set_w_nodes (v : gmap str Node) (w : world) : world :=
  MkWorld (w_now w) (w_run w) (w_others w) (w_profiles w) (w_tests w) v (w_pods w)
    (w_terminating w) (w_informer w) (w_services w) (w_configmaps w) (w_sinks w) (w_vendors w)
    (w_logs w) (w_faults w) (w_sends w) (w_text w) (w_trace w).
Definition set_w_pods (v : gmap str Pod) (w : world) : world :=
  MkWorld (w_now w) (w_run w) (w_others w) (w_profiles w) (w_tests w) (w_nodes w) v
    (w_terminating w) (w_informer w) (w_services w) (w_configmaps w) (w_sinks w) (w_vendors w)
    (w_logs w) (w_faults w) (w_sends w) (w_text w) (w_trace w).
Definition set_w_terminating (v : gset str) (w : world) : world :=
  MkWorld (w_now w) (w_run w) (w_others w) (w_profiles w) (w_tests w) (w_nodes w) (w_pods w) v
    (w_informer w) (w_services w) (w_configmaps w) (w_sinks w) (w_vendors w) (w_logs w)
    (w_faults w) (w_sends w) (w_text w) (w_trace w).
Definition set_w_informer (v : gmap str Pod) (w : world) : world :=
  MkWorld (w_now w) (w_run w) (w_others w) (w_profiles w) (w_tests w) (w_nodes w) (w_pods w)
    (w_terminating w) v (w_services w) (w_configmaps w) (w_sinks w) (w_vendors w) (w_logs w)
    (w_faults w) (w_sends w) (w_text w) (w_trace w).
Definition set_w_services (v : gset str) (w : world) : world :=
  MkWorld (w_now w) (w_run w) (w_others w) (w_profiles w) (w_tests w) (w_nodes w) (w_pods w)
    (w_terminating w) (w_informer w) v (w_configmaps w) (w_sinks w) (w_vendors w) (w_logs w)
    (w_faults w) (w_sends w) (w_text w) (w_trace w).
Definition set_w_configmaps (v : gmap str ConfigMap) (w : world) : world :=
  MkWorld (w_now w) (w_run w) (w_others w) (w_profiles w) (w_tests w) (w_nodes w) (w_pods w)
    (w_terminating w) (w_informer w) (w_services w) v (w_sinks w) (w_vendors w) (w_logs w)
    (w_faults w) (w_sends w) (w_text w) (w_trace w).
Definition set_w_sinks (v : gmap str SinkStatus) (w : world) : world :=
  MkWorld (w_now w) (w_run w) (w_others w) (w_profiles w) (w_tests w) (w_nodes w) (w_pods w)
    (w_terminating w) (w_informer w) (w_services w) (w_configmaps w) v (w_vendors w) (w_logs w)
    (w_faults w) (w_sends w) (w_text w) (w_trace w).
Definition set_w_faults (v : list fault) (w : world) : world :=
  MkWorld (w_now w) (w_run w) (w_others w) (w_profiles w) (w_tests w) (w_nodes w) (w_pods w)
    (w_terminating w) (w_informer w) (w_services w) (w_configmaps w) (w_sinks w) (w_vendors w)
    (w_logs w) v (w_sends w) (w_text w) (w_trace w).
Definition set_w_sends (v : list (option str)) (w : world) : world :=
  MkWorld (w_now w) (w_run w) (w_others w) (w_profiles w) (w_tests w) (w_nodes w) (w_pods w)
    (w_terminating w) (w_informer w) (w_services w) (w_configmaps w) (w_sinks w) (w_vendors w)
    (w_logs w) (w_faults w) v (w_text w) (w_trace w).
Definition set_w_trace (v : list event) (w : world) : world :=
  MkWorld (w_now w) (w_run w) (w_others w) (w_profiles w) (w_tests w) (w_nodes w) (w_pods w)
    (w_terminating w) (w_informer w) (w_services w) (w_configmaps w) (w_sinks w) (w_vendors w)
    (w_logs w) (w_faults w) (w_sends w) (w_text w) v.

Definition emit (e : event) (w : world) : world := set_w_trace (e :: w_trace w) w.

(** ** The monad of a handler *)
Record st := MkSt { s_run : BurnInRun; s_busy : gset str; s_world : world }.

Definition set_s_run (v : BurnInRun) (s : st) : st := MkSt v (s_busy s) (s_world s).
Definition set_s_busy (v : gset str) (s : st) : st := MkSt (s_run s) v (s_world s).
Definition set_s_world (v : world) (s : st) : st := MkSt (s_run s) (s_busy s) v.

(** The handlers of a run. *)
Notation M := (eff st).

Definition getRun : M BurnInRun := λ s, (inl (s_run s), s).
Definition modifyRun (f : BurnInRun → BurnInRun) : M () := λ s, (inl tt, set_s_run (f (s_run s)) s).
Definition getBusy : M (gset str) := λ s, (inl (s_busy s), s).
Definition putBusy (b : gset str) : M () := λ s, (inl tt, set_s_busy b s).
Definition addBusy (n : str) : M () := λ s, (inl tt, set_s_busy ({[n]} ∪ s_busy s) s).
Definition world_of : M world := λ s, (inl (s_world s), s).
Definition now : M Z := λ s, (inl (w_now (s_world s)), s).

(** ** API calls *)
(** One call about the object [name]; [f] is its effect when it is let through. *)
Definition call {A} (name : str) (f : world → (A + error_class) * world) : M A := λ s,
  let w := set_w_faults (tail (w_faults (s_world s))) (s_world s) in
  let report c := inr (MkError c (w_text w c name)) in
  match head (w_faults (s_world s)) with
  | Some (Reject structured) => (report (failure structured), set_s_world w s)
  | Some (Lost structured) => (report (failure structured), set_s_world (f w).2 s)
  | Some Land | None =>
      let '(r, w') := f w in
      (match r with inl a => inl a | inr c => report c end, set_s_world w' s)
  end.

(** A read of one object, or of anything that is always there. *)
Definition read {A} (name : str) (f : world → option A) : M A :=
  call name (λ w, (match f w with Some a => inl a | None => inr NotFound end, w)).

(** *** The run *)
Definition stored_update (f : BurnInRun → BurnInRun) (run : BurnInRun) (ev : BurnInRun → event)
    : M () :=
  new ← call (run_Name run) (λ w,
    match w_run w with
    | None => (inr NotFound, w)
    | Some stored =>
        let new := f stored in
        let gone := bool_decide (run_DeletionTimestamp new ≠ None) && is_nil (run_Finalizers new) in
        (inl new, emit (ev new) (set_w_run (if gone then None else Some new) w))
    end);
  modifyRun (λ _, new).

(** [r.Status().Update(ctx, run)]: the stored status becomes the run's, and the run is
    refreshed from the answer. *)
Definition statusUpdate : M () :=
  run ← getRun; stored_update (set_run_Status (run_Status run)) run EvStatus.

(** [r.Update(ctx, run)]: everything but the status. *)
Definition update : M () :=
  run ← getRun;
  stored_update (λ stored, set_run_Annotations (run_Annotations run)
                             (set_run_Finalizers (run_Finalizers run) stored)) run EvMeta.

(** [r.Delete(ctx, run)]: immediate unless a finalizer holds the object. *)
Definition deleteRun : M () :=
  run ← getRun;
  call (run_Name run) (λ w,
    match w_run w with
    | None => (inr NotFound, w)
    | Some stored =>
        (inl tt, emit EvRunDeleted
           (set_w_run (if is_nil (run_Finalizers stored) then None
                       else Some (set_run_DeletionTimestamp (Some (w_now w)) stored)) w))
    end).

(** *** Pods, services and nodes *)
Definition getPod (name : str) : M Pod := read name (λ w, w_informer w !! name).

(** The pods the informer has with the run's label. *)
Definition labelRun : str := "burnin.glimmer.ai/run".
Definition labelNode : str := "burnin.glimmer.ai/node".

Definition has_label (k v : str) (p : Pod) : bool := bool_decide (pod_Labels p !! k = Some v).

Definition listPods : M (list Pod) :=
  run ← getRun;
  read (run_Name run) (λ w,
    Some (List.filter (has_label labelRun (run_Name run)) (map_to_list (w_informer w)).*2)).

(** [r.Create(ctx, pod)]; the server stamps the creation. *)
Definition createPod (p : Pod) : M () :=
  call (pod_Name p) (λ w,
    match w_pods w !! pod_Name p with
    | Some _ => (inr AlreadyExists, w)
    | None =>
        (inl tt, emit (EvPodCreated (pod_Name p) (default "" (pod_Labels p !! labelNode)))
                   (set_w_pods (<[pod_Name p := set_pod_Creation (w_now w) p]> (w_pods w)) w))
    end).

(** [r.Delete(ctx, pod)]: accepted, and graceful. *)
Definition deletePod (name : str) : M () :=
  call name (λ w,
    match w_pods w !! name with
    | None => (inr NotFound, w)
    | Some _ => (inl tt, emit (EvPodDeleted name) (set_w_terminating ({[name]} ∪ w_terminating w) w))
    end).

Definition createService (name : str) : M () :=
  call name (λ w,
    if bool_decide (name ∈ w_services w) then (inr AlreadyExists, w)
    else (inl tt, emit (EvService name) (set_w_services ({[name]} ∪ w_services w) w))).

Definition getNode (name : str) : M Node := read name (λ w, w_nodes w !! name).

Definition listNodes : M (list (str * Node)) := read "nodes" (λ w, Some (map_to_list (w_nodes w))).

Definition updateNode (name : str) (n : Node) : M () :=
  call name (λ w,
    match w_nodes w !! name with
    | None => (inr NotFound, w)
    | Some _ => (inl tt, emit (EvNode name n) (set_w_nodes (<[name := n]> (w_nodes w)) w))
    end).

(** [updateKeepingStatus] *)
Definition updateKeepingStatus : M () :=
  run ← getRun; update ;; modifyRun (set_run_Status (run_Status run)).

(** ** Reasoning about handlers *)

(** A call keeps [I] when running out a fault does and its effect does. *)
Lemma keeps_call {A} (P : st → Prop) name (f : world → (A + error_class) * world) :
  (∀ s, P s → P (set_s_world (set_w_faults (tail (w_faults (s_world s))) (s_world s)) s)) →
  (∀ s, P s → P (set_s_world (f (s_world s)).2 s)) → keeps P (call name f).
Proof.
  intros Hp Hf s H. unfold call. pose proof (Hp s H) as H0.
  pose proof (Hf _ H0) as H1. simpl in H1.
  destruct (head (w_faults (s_world s))) as [[| |]|]; try done;
    destruct (f _) as [[a|c] w']; done.
Qed.

(** Reading the run, the clock or the busy map changes nothing. *)
Lemma triple_getRun (P : st → Prop) E : triple P getRun (λ run s, P s ∧ run = s_run s) E.
Proof. by intros s H. Qed.

Lemma triple_read {A} (P : st → Prop) name (f : world → option A) :
  (∀ s, P s → P (set_s_world (set_w_faults (tail (w_faults (s_world s))) (s_world s)) s)) →
  (∀ w fs, f (set_w_faults fs w) = f w) →
  triple P (read name f) (λ a s, P s ∧ f (s_world s) = Some a) (λ _, P).
Proof.
  intros Hp Hf s H. unfold read, call. pose proof (Hp s H) as H0.
  destruct (head (w_faults (s_world s))) as [[| |]|]; try done; rewrite Hf;
    destruct (f (s_world s)) eqn:E; simpl; try done; split; try done; by rewrite Hf.
Qed.

(** Binding a reader: what it returned is a fact about the state it read. *)
Lemma keeps_getRun {A} (P : st → Prop) (φ : BurnInRun → Prop) (f : BurnInRun → M A) :
  (∀ s, P s → φ (s_run s)) → (∀ run, φ run → keeps P (f run)) → keeps P (getRun ≫= f).
Proof.
  intros Hφ Hf. eapply triple_bind; [apply triple_getRun|]. intros run. simpl.
  apply (triple_fact _ (φ run)); [intros s [H ->]; by apply Hφ|]. intros Hr.
  eapply triple_conseq; [exact (Hf run Hr)| |done..]. by intros s [H _].
Qed.

Lemma keeps_read {A B} (P : st → Prop) (φ : A → Prop) name (g : world → option A) (f : A + error → M B) :
  (∀ s, P s → P (set_s_world (set_w_faults (tail (w_faults (s_world s))) (s_world s)) s)) →
  (∀ w fs, g (set_w_faults fs w) = g w) →
  (∀ s a, P s → g (s_world s) = Some a → φ a) →
  (∀ a, φ a → keeps P (f (inl a))) → (∀ e, keeps P (f (inr e))) →
  keeps P (try (read name g) ≫= f).
Proof.
  intros Hp Hg Hφ Hf He.
  apply (triple_bind _ _ _ (λ r s, P s ∧ match r with inl a => φ a | inr _ => True end)).
  - apply triple_try. eapply triple_conseq; [by apply triple_read|done|naive_solver..].
  - intros [a|e]; (eapply triple_fact; [intros s [_ H]; exact H|]); intros Ha.
    + eapply triple_conseq; [exact (Hf a Ha)| |done..]. by intros s [H _].
    + eapply triple_conseq; [exact (He e)| |done..]. by intros s [H _].
Qed.

Lemma keeps_now {A} (P : st → Prop) (f : Z → M A) : (∀ t, keeps P (f t)) → keeps P (now ≫= f).
Proof. intros H. apply keeps_bind; [apply keeps_world_fun|done]. Qed.

Lemma keeps_modifyRun (P : st → Prop) f :
  (∀ s, P s → P (set_s_run (f (s_run s)) s)) → keeps P (modifyRun f).
Proof. intros H s HP. by apply H. Qed.

Lemma keeps_updateNode (P : st → Prop) name n :
  (∀ s, P s → P (set_s_world (set_w_faults (tail (w_faults (s_world s))) (s_world s)) s)) →
  (∀ s n0, P s → w_nodes (s_world s) !! name = Some n0 →
     P (set_s_world (emit (EvNode name n) (set_w_nodes (<[name := n]> (w_nodes (s_world s))) (s_world s))) s)) →
  keeps P (updateNode name n).
Proof.
  intros Hp Hu. apply keeps_call; [done|]. intros s HP.
  destruct (w_nodes (s_world s) !! name) eqn:E; simpl; [by eapply Hu|by destruct s].
Qed.

(** The state a call hands on when it had no effect. *)
Definition spent (s : st) : st :=
  set_s_world (set_w_faults (tail (w_faults (s_world s))) (s_world s)) s.

Lemma try_read_bind {A B} name (f : world → option A) (g : A + error → M B) s :
  (try (read name f) ≫= g) s =
  match head (w_faults (s_world s)) with
  | Some (Reject b) | Some (Lost b) =>
      g (inr (MkError (failure b) (w_text (s_world s) (failure b) name))) (spent s)
  | _ =>
      match f (s_world (spent s)) with
      | Some a => g (inl a) (spent s)
      | None => g (inr (MkError NotFound (w_text (s_world s) NotFound name))) (spent s)
      end
  end.
Proof.
  unfold read, call, try, mbind, M_bind, spent.
  destruct (head (w_faults (s_world s))) as [[| |]|]; cbn; try done; by destruct (f _).
Qed.

Lemma spent_nil s : w_faults (s_world s) = [] → spent s = s.
Proof. intros Hf. unfold spent, set_s_world. destruct s as [r b []]. cbn in *. by rewrite Hf. Qed.
