(* ===== verification/Cordon.v ===== *)
(** * internal/controller/cordon.go: holding a node out of the scheduler

    The ownership stamp, the prior-state record and the heat declaration a run writes on a
    node, the handlers that cordon and release nodes, and the reaper of
    [cordonreaper.go].  Logging is not modelled. *)

From S2P Require Import Prelude GoStrings GoFloat GoTime Contract Registry Runner Verdict Api Plan.
From S2P Require Import Soak Pods RunPlan Attempt Effects World.
From Stdlib Require Import Ascii.
Open Scope stdpp_scope.

(** ** Annotation values *)
Definition AnnotationCordonOwner : str := "burnin.glimmer.ai/cordon-owner".
Definition AnnotationPriorUnschedulable : str := "burnin.glimmer.ai/prior-unschedulable".
Definition AnnotationHeatExpected : str := "burnin.glimmer.ai/heat-expected".
Definition PriorUnschedulableTrue : str := "true".
Definition FinalizerCordonCleanup : str := "burnin.glimmer.ai/cordon-cleanup".

(** [node.Annotations[k]]: the empty string when it is absent. *)
Definition annotation (k : str) (node : Node) : str := default "" (nd_Annotations node !! k).

Definition cordonOwnerID (run : BurnInRun) : str :=
  run_Namespace run +:+ "/" +:+ run_Name run +:+ "/" +:+ run_UID run.

Record cordonOwner := MkOwner { co_namespace : str; co_name : str; co_uid : str }.

Definition is_empty (s : str) : bool := String.eqb s "".

Definition parseCordonOwner (value : str) : option cordonOwner :=
  match Split value "/"%char with
  | [ns; name; uid] =>
      if is_empty ns || is_empty name || is_empty uid then None else Some (MkOwner ns name uid)
  | _ => None
  end.

(** ** The heat declaration *)
Definition settledPollInterval : Z := (5 * minute)%Z.
Definition heatReleaseMargin : Z := settledPollInterval.

Definition heatExpiry (now : Z) (spec : BurnInTestSpec) : Z :=
  (now + (podWindow spec + heatReleaseMargin))%Z.

Definition heatExpectedID (run : BurnInRun) (expiry : Z) : str :=
  cordonOwnerID run +:+ "/" +:+ FormatRFC3339 expiry.

Record heatMarker := MkHeat { hm_owner : cordonOwner; hm_expiry : Z }.

Definition parseHeatExpected (value : str) : option heatMarker :=
  match Split value "/"%char with
  | [a; b; c; t] =>
      owner ← parseCordonOwner (Join [a; b; c] "/");
      expiry ← ParseRFC3339 t;
      Some (MkHeat owner expiry)
  | _ => None
  end.

(** The node after, and whether it changed. *)
Definition stampHeatExpected (node : Node) (run : BurnInRun) (expiry : Z) : Node * bool :=
  let put :=
    (set_nd_Annotations
       (<[AnnotationHeatExpected := heatExpectedID run expiry]> (nd_Annotations node)) node, true) in
  let raw := annotation AnnotationHeatExpected node in
  if is_empty raw then put
  else
    match parseHeatExpected raw with
    | None => (node, false)
    | Some existing =>
        if negb (String.eqb (co_uid (hm_owner existing)) (run_UID run)) then (node, false)
        else if (expiry <=? hm_expiry existing)%Z then (node, false)
        else put
    end.

Definition dropHeatExpected (node : Node) (uid : str) : Node * bool :=
  match nd_Annotations node !! AnnotationHeatExpected with
  | None => (node, false)
  | Some raw =>
      match parseHeatExpected raw with
      | None => (node, false)
      | Some marker =>
          if negb (String.eqb (co_uid (hm_owner marker)) uid) then (node, false)
          else (set_nd_Annotations (delete AnnotationHeatExpected (nd_Annotations node)) node, true)
      end
  end.

(** ** Prior state *)
Definition preBurnInSchedulability (node : Node) : bool :=
  match nd_Annotations node !! AnnotationCordonOwner with
  | Some _ => String.eqb (annotation AnnotationPriorUnschedulable node) PriorUnschedulableTrue
  | None => nd_Unschedulable node
  end.

Definition capture_one (prior : gmap str bool) (name : str) : M (gmap str bool) :=
  r ← try (getNode name);
  match r with
  | inr _ => mret prior
  | inl node => mret (<[name := preBurnInSchedulability node]> prior)
  end.

Definition capturePriorSchedulability (targets : list str) : M (option (gmap str bool)) :=
  prior ← fold capture_one ∅ targets;
  mret (if bool_decide (prior = ∅) then None else Some prior).

Definition priorUnschedulable (run : BurnInRun) (name : str) (observed : bool) : bool :=
  default observed (default ∅ (st_PriorUnschedulable (run_Status run)) !! name).

Definition restoredUnschedulable (run : BurnInRun) (name : str) (node : Node) : bool :=
  priorUnschedulable run name
    (String.eqb (annotation AnnotationPriorUnschedulable node) PriorUnschedulableTrue).

(** ** Cordoning *)
Definition sortedNames (set : gset str) : list str := sort_strings (elements set).

Definition equalNames (a b : list str) : bool := bool_decide (a = b).

Definition FormatBool (b : bool) : str := if b then "true" else "false".

Definition cordoned (run : BurnInRun) : list str := st_CordonedNodes (run_Status run).

Definition set_cordoned (names : list str) : M () :=
  modifyRun (λ run, set_run_Status (set_st_CordonedNodes names (run_Status run)) run).

(** The node this run already stamped, brought up to what the next pod needs. *)
Definition reasserted (run : BurnInRun) (declareHeat : bool) (expiry : Z) (node : Node)
    : Node * bool :=
  let '(node, changed) :=
    if declareHeat then stampHeatExpected node run expiry
    else dropHeatExpected node (run_UID run) in
  if nd_Unschedulable node then (node, changed) else (set_nd_Unschedulable true node, true).

(** The node as it is stamped, before it is made unschedulable. *)
Definition stamped (run : BurnInRun) (name : str) (declareHeat : bool) (expiry : Z) (node : Node)
    : Node :=
  let node := set_nd_Annotations
    (<[AnnotationPriorUnschedulable :=
         FormatBool (priorUnschedulable run name (nd_Unschedulable node))]>
     (<[AnnotationCordonOwner := cordonOwnerID run]> (nd_Annotations node))) node in
  if declareHeat then (stampHeatExpected node run expiry).1
  else (dropHeatExpected node (run_UID run)).1.

(** The three arms of [cordonNode]'s switch: does the run hold the node now? *)
Definition take_node (run : BurnInRun) (name : str) (declareHeat : bool) (expiry : Z)
    (node : Node) : M bool :=
  let existing := annotation AnnotationCordonOwner node in
  if String.eqb existing (cordonOwnerID run) then
    let '(node, changed) := reasserted run declareHeat expiry node in
    when changed (updateNode name node) ;; mret true
  else if negb (is_empty existing) then mret false
  else
    let node := stamped run name declareHeat expiry node in
    updateNode name node ;;
    when (negb (nd_Unschedulable node)) (updateNode name (set_nd_Unschedulable true node)) ;;
    mret true.

Definition cordonNode (name : str) (spec : BurnInTestSpec) : M bool :=
  run ← getRun; t ← now;
  let declareHeat := DrivesSustainedLoad (ts_Kind spec) in
  r ← try (getNode name);
  match r with
  | inr e => if IsNotFound e then mret false else throw e
  | inl node =>
      taken ← take_node run name declareHeat (heatExpiry t spec) node;
      let held : gset str := list_to_set (cordoned run) in
      let updated := sortedNames (if taken : bool then {[name]} ∪ held else held) in
      if equalNames (cordoned run) updated then mret false
      else set_cordoned updated ;; mret true
  end.

Definition cordonWave (nodes : list str) (spec : BurnInTestSpec) : M bool :=
  fold (λ changed n, c ← cordonNode n spec; mret (changed || c)) false nodes.

(** ** Releasing *)
Definition released (run : BurnInRun) (name : str) (node : Node) : Node :=
  let prior := restoredUnschedulable run name node in
  let node := set_nd_Annotations
    (delete AnnotationPriorUnschedulable (delete AnnotationCordonOwner (nd_Annotations node)))
    (set_nd_Unschedulable prior node) in
  (dropHeatExpected node (run_UID run)).1.

Definition update_unless_gone (name : str) (node : Node) : M () :=
  r ← try (updateNode name node);
  match r with
  | inr e => if IsNotFound e then mret tt else throw e
  | inl _ => mret tt
  end.

Definition releaseNode (name : str) : M bool :=
  run ← getRun;
  r ← try (getNode name);
  match r with
  | inr e => if IsNotFound e then mret tt else throw e
  | inl node =>
      if String.eqb (annotation AnnotationCordonOwner node) (cordonOwnerID run)
      then update_unless_gone name (released run name node) else mret tt
  end ;;
  let kept := List.filter (λ n, negb (String.eqb n name)) (cordoned run) in
  if (length kept =? length (cordoned run))%nat then mret false
  else set_cordoned kept ;; mret true.

Definition releaseHeldNodes (held : gset str) : M bool :=
  run ← getRun;
  fold (λ changed name,
    if bool_decide (name ∈ held) then mret changed
    else c ← releaseNode name; mret (changed || c)) false (cordoned run).

Definition release_listed (changed : bool) (entry : str * Node) : M bool :=
  run ← getRun;
  let '(name, node) := entry in
  if String.eqb (annotation AnnotationCordonOwner node) (cordonOwnerID run)
  then update_unless_gone name (released run name node) ;; mret true
  else mret changed.

Definition releaseCordons : M bool :=
  run ← getRun;
  nodes ← listNodes;
  changed ← fold release_listed false nodes;
  match cordoned run with
  | [] => mret changed
  | _ => set_cordoned [] ;; mret true
  end.

(** ** The reaper *)
Definition find_run (ns name : str) (w : world) : option BurnInRun :=
  list_first (λ r, String.eqb (run_Namespace r) ns && String.eqb (run_Name r) name)
    (option_list (w_run w) ++ w_others w).

Definition reaped (uid : str) (node : Node) : Node :=
  let prior := String.eqb (annotation AnnotationPriorUnschedulable node) PriorUnschedulableTrue in
  let node := set_nd_Annotations
    (delete AnnotationPriorUnschedulable (delete AnnotationCordonOwner (nd_Annotations node)))
    (set_nd_Unschedulable prior node) in
  (dropHeatExpected node uid).1.

(** Whether a live stamp remains, so that the caller looks again. *)
Definition reapOrphanedCordon (name : str) (node : Node) : M bool :=
  match nd_Annotations node !! AnnotationCordonOwner with
  | None => mret false
  | Some stamp =>
      match parseCordonOwner stamp with
      | None => mret false
      | Some owner =>
          r ← try (read (co_name owner) (find_run (co_namespace owner) (co_name owner)));
          let reap := update_unless_gone name (reaped (co_uid owner) node) ;; mret false in
          match r with
          | inl run => if String.eqb (run_UID run) (co_uid owner) then mret true else reap
          | inr e => if IsNotFound e then reap else throw e
          end
      end
  end.

(** ** Lemmas *)

(** A run whose coordinates a stamp can carry: Kubernetes names hold no slash. *)
Definition segment (s : str) : Prop := no_char "/"%char s = true ∧ s ≠ "".
Definition run_named (run : BurnInRun) : Prop :=
  segment (run_Namespace run) ∧ segment (run_Name run) ∧ segment (run_UID run).

Lemma is_empty_false s : s ≠ "" → is_empty s = false.
Proof. unfold is_empty. by destruct (String.eqb_spec s ""). Qed.

Lemma parse_cordonOwnerID run :
  run_named run →
  parseCordonOwner (cordonOwnerID run) =
    Some (MkOwner (run_Namespace run) (run_Name run) (run_UID run)).
Proof.
  intros ([Hn Hn'] & [Hm Hm'] & [Hu Hu']). unfold parseCordonOwner.
  change (cordonOwnerID run)
    with (Join [run_Namespace run; run_Name run; run_UID run] (String "/"%char "")).
  rewrite Split_Join; [|done|by repeat constructor]. by rewrite !is_empty_false.
Qed.

Lemma no_slash_pad2 n : (0 <= n < 100)%Z → no_char "/"%char (pad2 n) = true.
Proof.
  intros H. unfold pad2.
  assert (∀ d, (0 <= d < 10)%Z → negb (Ascii.eqb (digit_chr d) "/"%char) = true) as Hd.
  { intros d Hd. assert (d = 0 ∨ d = 1 ∨ d = 2 ∨ d = 3 ∨ d = 4 ∨ d = 5 ∨ d = 6 ∨ d = 7 ∨ d = 8 ∨ d = 9)%Z
      as Hn by lia. repeat (destruct Hn as [->|Hn]; [reflexivity|]). by subst d. }
  unfold no_char. cbn [all_chars].
  rewrite !Hd by (Z.to_euclidean_division_equations; lia). done.
Qed.

Lemma no_slash_RFC3339 t : four_digit_year t → no_char "/"%char (FormatRFC3339 t) = true.
Proof.
  unfold four_digit_year, FormatRFC3339. intros Hy.
  pose proof (date_of_days_ok (t / second / 86400)) as [Hm Hd].
  pose proof (daysIn_bounds (d_month (date_of_days (t / second / 86400)))
    (d_year (date_of_days (t / second / 86400)))) as [Hdays _].
  pose proof (Z.mod_pos_bound (t / second) 86400 ltac:(lia)) as Hr.
  destruct (clock_bounds _ Hr) as (Hh & Hmi & Hse & _).
  unfold pad4, no_char. rewrite !all_chars_app. fold (no_char "/"%char (pad2 (d_month (date_of_days (t / second / 86400))))).
  pose proof no_slash_pad2 as Hp. unfold no_char in Hp |- *.
  rewrite !Hp by (Z.to_euclidean_division_equations; lia). done.
Qed.

Lemma parse_heatExpectedID run t :
  run_named run → four_digit_year t →
  parseHeatExpected (heatExpectedID run t) =
    Some (MkHeat (MkOwner (run_Namespace run) (run_Name run) (run_UID run)) (t / second * second)).
Proof.
  intros Hrun Ht. pose proof Hrun as ([Hn Hn'] & [Hm Hm'] & [Hu Hu']). unfold parseHeatExpected.
  assert (heatExpectedID run t =
    Join [run_Namespace run; run_Name run; run_UID run; FormatRFC3339 t] (String "/"%char "")) as ->.
  { unfold heatExpectedID, cordonOwnerID. simpl. by rewrite !str_app_assoc. }
  rewrite Split_Join; [|done|repeat constructor; try done; by apply no_slash_RFC3339].
  change (Join [run_Namespace run; run_Name run; run_UID run] "/") with (cordonOwnerID run).
  rewrite parse_cordonOwnerID by done. cbn [mbind option_bind].
  by rewrite ParseRFC3339_Format.
Qed.

Lemma annotation_insert k v m node : annotation k (set_nd_Annotations (<[k:=v]> m) node) = v.
Proof. unfold annotation. simpl. by rewrite lookup_insert_eq. Qed.

Lemma annotation_delete k m node : annotation k (set_nd_Annotations (delete k m) node) = "".
Proof. unfold annotation. simpl. by rewrite lookup_delete_eq. Qed.

Lemma annotation_Some k v node : nd_Annotations node !! k = Some v → annotation k node = v.
Proof. unfold annotation. by intros ->. Qed.

(** What touches only the heat declaration. *)
Definition same_but_heat (node node' : Node) : Prop :=
  nd_Unschedulable node' = nd_Unschedulable node ∧ nd_Labels node' = nd_Labels node ∧
  ∀ k, k ≠ AnnotationHeatExpected → nd_Annotations node' !! k = nd_Annotations node !! k.

Lemma same_but_heat_refl node : same_but_heat node node.
Proof. done. Qed.

Lemma stamp_same_but_heat node run t : same_but_heat node (stampHeatExpected node run t).1.
Proof.
  unfold stampHeatExpected. repeat case_match; try done; simpl;
    (split_and!; try done; intros k Hk; cbn; by rewrite lookup_insert_ne).
Qed.

Lemma drop_same_but_heat node uid : same_but_heat node (dropHeatExpected node uid).1.
Proof.
  unfold dropHeatExpected. repeat case_match; try done; simpl.
  split_and!; try done. intros k Hk. cbn. by rewrite lookup_delete_ne.
Qed.

Lemma same_but_heat_annotation node node' k :
  same_but_heat node node' → k ≠ AnnotationHeatExpected → annotation k node' = annotation k node.
Proof. intros (_ & _ & H) Hk. unfold annotation. by rewrite H. Qed.

(** A declaration this operator made for [uid]; one it may neither extend nor remove. *)
Definition declares (uid : str) (node : Node) (expiry : Z) : Prop :=
  ∃ m, parseHeatExpected (annotation AnnotationHeatExpected node) = Some m ∧
       co_uid (hm_owner m) = uid ∧ hm_expiry m = expiry.

Definition foreign_heat (uid : str) (node : Node) : Prop :=
  annotation AnnotationHeatExpected node ≠ "" ∧ ∀ e, ¬ declares uid node e.

Lemma declares_inj uid node e e' : declares uid node e → declares uid node e' → e = e'.
Proof. intros (m & Hm & _ & <-) (m' & Hm' & _ & <-). congruence. Qed.

Lemma heat_cases uid node :
  annotation AnnotationHeatExpected node = "" ∨ (∃ e, declares uid node e) ∨ foreign_heat uid node.
Proof.
  destruct (String.eqb_spec (annotation AnnotationHeatExpected node) "") as [|Hne]; [by left|right].
  destruct (parseHeatExpected (annotation AnnotationHeatExpected node)) as [m|] eqn:Hm.
  - destruct (decide (co_uid (hm_owner m) = uid)) as [Hu|Hu].
    + left. by exists (hm_expiry m), m.
    + right. split; [done|]. intros e (m' & Hm' & Hu' & _). congruence.
  - right. split; [done|]. intros e (m' & Hm' & _). congruence.
Qed.

Lemma stamp_foreign node run t :
  foreign_heat (run_UID run) node → stampHeatExpected node run t = (node, false).
Proof.
  intros [Hne Hno]. unfold stampHeatExpected. rewrite is_empty_false by done.
  destruct (parseHeatExpected _) as [m|] eqn:Hm; [|done].
  destruct (String.eqb_spec (co_uid (hm_owner m)) (run_UID run)) as [Hu|]; [|done].
  exfalso. apply (Hno (hm_expiry m)). by exists m.
Qed.

Lemma drop_foreign node uid : foreign_heat uid node → dropHeatExpected node uid = (node, false).
Proof.
  intros [Hne Hno]. unfold dropHeatExpected.
  destruct (nd_Annotations node !! AnnotationHeatExpected) as [raw|] eqn:Hraw; [|done].
  apply annotation_Some in Hraw. rewrite <-Hraw.
  destruct (parseHeatExpected _) as [m|] eqn:Hm; [|done].
  destruct (String.eqb_spec (co_uid (hm_owner m)) uid) as [Hu|]; [|done].
  exfalso. apply (Hno (hm_expiry m)). by exists m.
Qed.

Lemma stamp_declares node run t :
  run_named run → four_digit_year t → ¬ foreign_heat (run_UID run) node →
  ∃ e, declares (run_UID run) (stampHeatExpected node run t).1 e ∧ (t / second * second <= e)%Z ∧
       ∀ e', declares (run_UID run) node e' → (e' / second * second <= e)%Z.
Proof.
  intros Hrun Ht Hmine. unfold stampHeatExpected.
  assert (declares (run_UID run) (set_nd_Annotations
    (<[AnnotationHeatExpected:=heatExpectedID run t]> (nd_Annotations node)) node)
    (t / second * second)) as Hput.
  { eexists. rewrite annotation_insert, parse_heatExpectedID by done. done. }
  assert (∀ x y, (x <= y)%Z → (x / second * second <= y / second * second)%Z) as Hmono.
  { intros x y H. pose proof (Z.div_le_mono x y second ltac:(done) H). unfold second in *. lia. }
  destruct (heat_cases (run_UID run) node) as [Hemp|[[e He]|?]]; [|..|done].
  - rewrite Hemp. eexists. split; [exact Hput|]. split; [lia|]. intros e' (m & Hm & _).
    by rewrite Hemp in Hm.
  - pose proof He as (m & Hm & Hu & <-). rewrite Hm, Hu, String_eqb_refl.
    destruct (is_empty _) eqn:Hemp.
    { apply String.eqb_eq in Hemp. by rewrite Hemp in Hm. }
    cbn [negb]. destruct (Z.leb_spec t (hm_expiry m)) as [Hle|Hlt]; eexists.
    + split; [exact He|]. pose proof (Z.mul_div_le t second ltac:(done)).
      split; [lia|]. intros e' He'. rewrite (declares_inj _ _ _ _ He' He).
      pose proof (Z.mul_div_le (hm_expiry m) second ltac:(done)). lia.
    + split; [exact Hput|]. split; [lia|]. intros e' He'. rewrite (declares_inj _ _ _ _ He' He).
      apply Hmono. lia.
Qed.

Lemma drop_clears node uid :
  ¬ foreign_heat uid node → annotation AnnotationHeatExpected (dropHeatExpected node uid).1 = "".
Proof.
  intros Hmine. destruct (heat_cases uid node) as [Hemp|[[e (m & Hm & Hu & _)]|?]]; [|..|done];
    unfold dropHeatExpected;
    destruct (nd_Annotations node !! AnnotationHeatExpected) as [raw|] eqn:Hraw.
  - apply annotation_Some in Hraw. rewrite Hemp in Hraw. by subst raw.
  - exact Hemp.
  - apply annotation_Some in Hraw. rewrite Hraw in Hm. rewrite Hm, Hu, String_eqb_refl.
    apply annotation_delete.
  - change (annotation AnnotationHeatExpected node = ""). unfold annotation. by rewrite Hraw.
Qed.

(** A heat declaration is this run's own or nobody's business: stamping and dropping
    leave a foreign or unreadable declaration as it was; otherwise a stamped node
    declares this run's heat at least until the requested second, and at least as long
    as it already did, and a node it is dropped from declares none.  Neither touches
    anything else of the node. *)
Theorem heat_declaration run node t :
  run_named run → four_digit_year t →
  let stamp := stampHeatExpected node run t in
  let drop := dropHeatExpected node (run_UID run) in
  (foreign_heat (run_UID run) node → stamp = (node, false) ∧ drop = (node, false)) ∧
  (¬ foreign_heat (run_UID run) node →
   (∃ e, declares (run_UID run) stamp.1 e ∧ (t / second * second <= e)%Z ∧
         ∀ e', declares (run_UID run) node e' → (e' / second * second <= e)%Z) ∧
   annotation AnnotationHeatExpected drop.1 = "") ∧
  same_but_heat node stamp.1 ∧ same_but_heat node drop.1.
Proof.
  intros Hrun Ht stamp drop. split_and!.
  - intros H. split; [by apply stamp_foreign|by apply drop_foreign].
  - intros H. split; [by apply stamp_declares|by apply drop_clears].
  - apply stamp_same_but_heat.
  - apply drop_same_but_heat.
Qed.

(** ** Nodes are given back as they were found *)
Section as_found.
Context (run0 : BurnInRun) (F : str → bool).

(** [F n]: was node [n] out of the scheduler when the run found it? *)
Definition record_ok : Prop :=
  ∀ n b, default ∅ (st_PriorUnschedulable (run_Status run0)) !! n = Some b → b = F n.

Definition node_ok (n : str) (node : Node) : Prop :=
  (annotation AnnotationCordonOwner node = "" → nd_Unschedulable node = F n) ∧
  (annotation AnnotationCordonOwner node = cordonOwnerID run0 →
   String.eqb (annotation AnnotationPriorUnschedulable node) PriorUnschedulableTrue = F n ∧
   (F n = true → nd_Unschedulable node = true)).

(** What of the run a cordon depends on. *)
Definition same_hold (run : BurnInRun) : Prop :=
  run_Namespace run = run_Namespace run0 ∧ run_Name run = run_Name run0 ∧
  run_UID run = run_UID run0 ∧
  st_PriorUnschedulable (run_Status run) = st_PriorUnschedulable (run_Status run0).

(** Every node the run holds is recorded as it was found, and every node nobody holds is
    as it was found. *)
Definition as_found (s : st) : Prop :=
  same_hold (s_run s) ∧ ∀ n node, w_nodes (s_world s) !! n = Some node → node_ok n node.

Hypothesis Hrecord : record_ok.

Lemma same_hold_owner run : same_hold run → cordonOwnerID run = cordonOwnerID run0.
Proof. intros (H1 & H2 & H3 & _). unfold cordonOwnerID. by rewrite H1, H2, H3. Qed.

Lemma same_hold_prior run n b : same_hold run → priorUnschedulable run n b = priorUnschedulable run0 n b.
Proof. intros (_ & _ & _ & H). unfold priorUnschedulable. by rewrite H. Qed.

Lemma prior_found n b : b = F n → priorUnschedulable run0 n b = F n.
Proof.
  intros ->. unfold priorUnschedulable.
  destruct (_ !! n) as [b|] eqn:E; [|done]. by apply Hrecord in E as ->.
Qed.

Lemma node_ok_heat n node node' : same_but_heat node node' → node_ok n node → node_ok n node'.
Proof.
  intros H [H1 H2]. unfold node_ok. destruct H as (Hu & Hl & Ha).
  rewrite !(same_but_heat_annotation node node') by done. by rewrite Hu.
Qed.

Lemma owner_nonempty run : cordonOwnerID run ≠ "".
Proof. unfold cordonOwnerID. destruct (run_Namespace run); discriminate. Qed.

Lemma annotation_insert_ne k k' v m node :
  k ≠ k' → annotation k (set_nd_Annotations (<[k':=v]> m) node) = default "" (m !! k).
Proof. intros H. unfold annotation. cbn. by rewrite lookup_insert_ne. Qed.

Lemma node_ok_reasserted n run heat t node :
  annotation AnnotationCordonOwner node = cordonOwnerID run0 →
  node_ok n node → node_ok n (reasserted run heat t node).1.
Proof.
  intros Hown Hok. unfold reasserted.
  assert (∃ p, (if heat then stampHeatExpected node run t else dropHeatExpected node (run_UID run)) = p
               ∧ same_but_heat node p.1) as (p & -> & Hp)
    by (destruct heat; eexists; (split; [done|]);
        [apply stamp_same_but_heat|apply drop_same_but_heat]).
  destruct p as [node' changed]. simpl in Hp.
  pose proof (same_but_heat_annotation _ _ AnnotationCordonOwner Hp ltac:(done)) as Hown'.
  apply (node_ok_heat _ _ _ Hp) in Hok.
  destruct (nd_Unschedulable node') eqn:Hu; [done|]. destruct Hok as [_ Hok].
  split; simpl.
  - unfold annotation in *. simpl. intros H. exfalso.
    apply (owner_nonempty run0). rewrite <-Hown, <-Hown'. exact H.
  - intros H. destruct (Hok H) as [Hp' _]. done.
Qed.

Lemma node_ok_stamped n run heat t node b :
  same_hold run → annotation AnnotationCordonOwner node = "" → node_ok n node →
  (F n = true → b = true) ∨ b = nd_Unschedulable node →
  node_ok n (set_nd_Unschedulable b (stamped run n heat t node)).
Proof.
  intros Hrun Hno [Hfree _] Hb. unfold stamped.
  set (node1 := set_nd_Annotations _ node).
  assert (node_ok n (set_nd_Unschedulable b node1)) as Hok.
  { unfold node1, node_ok, annotation. cbn. rewrite !(same_hold_owner _ Hrun).
    rewrite lookup_insert_ne, !lookup_insert_eq by done. cbn.
    rewrite (same_hold_prior _ _ _ Hrun), prior_found by auto. split.
    - intros H. by apply owner_nonempty in H.
    - intros _. split; [by destruct (F n)|]. specialize (Hfree Hno). destruct Hb as [Hb| ->]; [done|congruence]. }
  destruct heat.
  - pose proof (stamp_same_but_heat node1 run t) as H. refine (node_ok_heat _ _ _ _ Hok).
    destruct H as (? & ? & ?). done.
  - pose proof (drop_same_but_heat node1 (run_UID run)) as H. refine (node_ok_heat _ _ _ _ Hok).
    destruct H as (? & ? & ?). done.
Qed.

Lemma node_ok_released n run node :
  same_hold run → annotation AnnotationCordonOwner node = cordonOwnerID run0 → node_ok n node →
  node_ok n (released run n node) ∧ annotation AnnotationCordonOwner (released run n node) = "" .
Proof.
  intros Hrun Hown [_ Hok]. unfold released. destruct (Hok Hown) as [Hp _].
  set (node1 := set_nd_Annotations _ _).
  assert (annotation AnnotationCordonOwner node1 = "") as Hempty.
  { unfold node1, annotation. cbn. rewrite lookup_delete_ne, lookup_delete_eq by done. done. }
  pose proof (drop_same_but_heat node1 (run_UID run)) as H.
  rewrite (same_but_heat_annotation _ _ _ H) by done. split; [|done].
  refine (node_ok_heat _ _ _ H _). unfold node_ok. rewrite Hempty. split.
  - intros _. unfold node1, restoredUnschedulable. cbn.
    rewrite (same_hold_prior _ _ _ Hrun). by apply prior_found.
  - intros Heq. exfalso. by apply (owner_nonempty run0).
Qed.

Lemma as_found_pop s :
  as_found s → as_found (set_s_world (set_w_faults (tail (w_faults (s_world s))) (s_world s)) s).
Proof. done. Qed.

Lemma as_found_updateNode n node : node_ok n node → keeps as_found (updateNode n node).
Proof.
  intros Hok. apply keeps_updateNode; [done|]. intros s n0 [Hrun Hn] Hn0. split; [done|].
  intros m node'. cbn. intros [[-> <-]|[Hne H]]%lookup_insert_Some; [done|by apply Hn].
Qed.

Lemma as_found_cordoned names : keeps as_found (set_cordoned names).
Proof. apply keeps_modifyRun. by intros s [Hrun Hn]. Qed.

Lemma keeps_getNode {A} n (f : Node + error → M A) :
  (∀ node, node_ok n node → keeps as_found (f (inl node))) →
  (∀ e, keeps as_found (f (inr e))) → keeps as_found (try (getNode n) ≫= f).
Proof. apply keeps_read; [done|done|]. intros s node [_ H] Hn. by apply H. Qed.

Lemma keeps_hold {A} (f : BurnInRun → M A) :
  (∀ run, same_hold run → keeps as_found (f run)) → keeps as_found (getRun ≫= f).
Proof. apply keeps_getRun. by intros s [H _]. Qed.

Lemma as_found_take_node run n heat t node :
  same_hold run → node_ok n node → keeps as_found (take_node run n heat t node).
Proof.
  intros Hrun Hok. unfold take_node.
  destruct (String.eqb_spec (annotation AnnotationCordonOwner node) (cordonOwnerID run)) as [Hown|Hown].
  - rewrite (same_hold_owner _ Hrun) in Hown.
    pose proof (node_ok_reasserted n run heat t node Hown Hok) as Hre.
    destruct (reasserted run heat t node) as [node' changed].
    apply keeps_bind; [by apply keeps_when, as_found_updateNode|intros; apply keeps_ret].
  - destruct (is_empty _) eqn:Hemp; [|apply keeps_ret]. apply String.eqb_eq in Hemp.
    pose proof (λ b, node_ok_stamped n run heat t node b Hrun Hemp Hok) as Hst.
    apply keeps_bind; [apply as_found_updateNode|intros _; apply keeps_bind; [|intros; apply keeps_ret]].
    + pose proof (Hst (nd_Unschedulable (stamped run n heat t node))) as H.
      assert (nd_Unschedulable (stamped run n heat t node) = nd_Unschedulable node) as Hu.
      { unfold stamped. destruct heat;
        [exact (proj1 (stamp_same_but_heat _ _ _))|exact (proj1 (drop_same_but_heat _ _))]. }
      specialize (H (or_intror Hu)). by destruct (stamped run n heat t node).
    + apply keeps_when, as_found_updateNode, Hst. by left.
Qed.

Lemma as_found_cordonNode n spec : keeps as_found (cordonNode n spec).
Proof.
  apply keeps_hold. intros run Hrun. apply keeps_now. intros t. apply keeps_getNode.
  - intros node Hok. apply keeps_bind; [by apply as_found_take_node|]. intros taken.
    cbv zeta. destruct (equalNames _ _); [apply keeps_ret|].
    apply keeps_bind; [apply as_found_cordoned|intros; apply keeps_ret].
  - intros e. case_match; [apply keeps_ret|apply keeps_throw].
Qed.

Lemma as_found_update_unless_gone n node : node_ok n node → keeps as_found (update_unless_gone n node).
Proof.
  intros Hok. apply keeps_bind; [by apply keeps_try, as_found_updateNode|].
  intros [a|e]; [apply keeps_ret|]. case_match; [apply keeps_ret|apply keeps_throw].
Qed.

Lemma as_found_releaseNode n : keeps as_found (releaseNode n).
Proof.
  apply keeps_hold. intros run Hrun. apply keeps_getNode.
  - intros node Hok. apply keeps_bind.
    + destruct (String.eqb_spec (annotation AnnotationCordonOwner node) (cordonOwnerID run)) as [Hown|];
        [|apply keeps_ret].
      rewrite (same_hold_owner _ Hrun) in Hown.
      apply as_found_update_unless_gone. by apply node_ok_released.
    + intros _. cbv zeta. case_match; [apply keeps_ret|].
      apply keeps_bind; [apply as_found_cordoned|intros; apply keeps_ret].
  - intros e. apply keeps_bind; [case_match; [apply keeps_ret|apply keeps_throw]|].
    intros _. cbv zeta. case_match; [apply keeps_ret|].
    apply keeps_bind; [apply as_found_cordoned|intros; apply keeps_ret].
Qed.

Lemma as_found_releaseHeldNodes held : keeps as_found (releaseHeldNodes held).
Proof.
  apply keeps_hold. intros run Hrun. apply (triple_fold (λ _, as_found)). intros b n _.
  case_match; [apply keeps_ret|].
  apply keeps_bind; [apply as_found_releaseNode|intros; apply keeps_ret].
Qed.

(** No node carries the run's stamp. *)
Definition unstamped (nodes : gmap str Node) : Prop :=
  ∀ n node, nodes !! n = Some node → annotation AnnotationCordonOwner node ≠ cordonOwnerID run0.

Definition stamped_within (l : list (str * Node)) (s : st) : Prop :=
  ∀ n node, w_nodes (s_world s) !! n = Some node →
    annotation AnnotationCordonOwner node = cordonOwnerID run0 → (n, node) ∈ l.

Lemma update_unless_gone_spec nodes run n node :
  triple (λ s, w_nodes (s_world s) = nodes ∧ s_run s = run) (update_unless_gone n node)
    (λ _ s, s_run s = run ∧ (∀ m, m ≠ n → w_nodes (s_world s) !! m = nodes !! m) ∧
            ∀ node', w_nodes (s_world s) !! n = Some node' → node' = node) (λ _ _, True).
Proof.
  intros s [Hn Hr]. unfold update_unless_gone, updateNode, call, mbind, M_bind, try.
  destruct (head (w_faults (s_world s))) as [[| |]|]; cbn;
    rewrite ?IsNotFound_failure; try done;
    rewrite Hn; destruct (nodes !! n) eqn:E; cbn;
    rewrite ?IsNotFound_NotFound; cbn; rewrite ?Hn.
  1, 3: split_and!; [done|intros m Hm; by rewrite lookup_insert_ne|
    intros m; rewrite lookup_insert_eq; by intros [= ->]].
  all: split_and!; [done|done|by rewrite E].
Qed.

Lemma released_owner run n node : nd_Annotations (released run n node) !! AnnotationCordonOwner = None.
Proof.
  unfold released. set (node1 := set_nd_Annotations _ _).
  destruct (drop_same_but_heat node1 (run_UID run)) as (_ & _ & H). rewrite H by done.
  unfold node1. cbn. rewrite lookup_delete_ne by done. apply lookup_delete_eq.
Qed.

(** Whoever's record it follows, a release that reports no error takes every stamp off. *)
Lemma release_listed_fold l changed :
  triple (λ s, cordonOwnerID (s_run s) = cordonOwnerID run0 ∧ stamped_within l s)
    (fold release_listed changed l)
    (λ _ s, unstamped (w_nodes (s_world s))) (λ _ _, True).
Proof.
  revert changed. induction l as [|[n node] l IH]; intros changed.
  { intros s [_ Hw] n node Hn Hown. specialize (Hw n node Hn Hown). by apply elem_of_nil in Hw. }
  cbn [fold]. apply (triple_bind _ _ _ (λ _ s, cordonOwnerID (s_run s) = cordonOwnerID run0 ∧ stamped_within l s));
    [|intros b; apply IH].
  unfold release_listed. eapply triple_bind; [apply triple_getRun|]. intros run.
  apply (triple_fact _ (cordonOwnerID run = cordonOwnerID run0)); [by intros s [[H _] ->]|]. intros Hrun.
  rewrite Hrun.
  destruct (String.eqb_spec (annotation AnnotationCordonOwner node) (cordonOwnerID run0)) as [Hown|Hown].
  - apply triple_pre. intros s [[Hs Hw] _].
    eapply (triple_bind _ _ _ (λ _ s, cordonOwnerID (s_run s) = cordonOwnerID run0 ∧ stamped_within l s));
      [|intros b s' H'; exact H'].
    eapply triple_conseq; [apply (update_unless_gone_spec (w_nodes (s_world s)) (s_run s))|by intros s' ->| |done].
    intros _ s' (Hr' & Hne & Heq). split; [by rewrite Hr'|]. intros m nd Hm Hmo.
    destruct (decide (m = n)) as [->|Hmn].
    + apply Heq in Hm as ->. unfold annotation in Hmo. rewrite released_owner in Hmo.
      by apply eq_sym, owner_nonempty in Hmo.
    + rewrite Hne in Hm by done. specialize (Hw m nd Hm Hmo).
      apply elem_of_cons in Hw as [[= -> ->]|]; done.
  - intros s [[Hs Hw] _]. split; [done|]. intros m nd Hm Hmo. specialize (Hw m nd Hm Hmo).
    apply elem_of_cons in Hw as [[= -> ->]|]; done.
Qed.

Lemma as_found_release_listed l changed :
  (∀ n node, (n, node) ∈ l → node_ok n node) → keeps as_found (fold release_listed changed l).
Proof.
  intros Hl. apply (triple_fold (λ _, as_found)). intros b [n node] Hin.
  apply keeps_hold. intros run Hrun. rewrite (same_hold_owner _ Hrun).
  destruct (String.eqb_spec (annotation AnnotationCordonOwner node) (cordonOwnerID run0)) as [Hown|Hown];
    [|apply keeps_ret].
  apply keeps_bind; [|intros; apply keeps_ret]. apply as_found_update_unless_gone.
  by apply (node_ok_released n run node Hrun Hown (Hl _ _ Hin)).
Qed.

(** A release that reports no error leaves no node stamped, whoever looks. *)
Lemma releaseCordons_unstamps :
  triple (λ s, cordonOwnerID (s_run s) = cordonOwnerID run0) releaseCordons
    (λ _ s, unstamped (w_nodes (s_world s))) (λ _ _, True).
Proof.
  unfold releaseCordons. eapply triple_bind; [apply triple_getRun|]. intros run.
  apply (triple_bind _ _ _ (λ nodes s, (cordonOwnerID (s_run s) = cordonOwnerID run0 ∧ run = s_run s) ∧
    Some (map_to_list (w_nodes (s_world s))) = Some nodes)).
  { eapply triple_conseq; [apply (triple_read (λ s, cordonOwnerID (s_run s) = cordonOwnerID run0 ∧ run = s_run s)); done|done..]. }
  intros nodes. apply (triple_bind _ _ _ (λ _ s, unstamped (w_nodes (s_world s)))).
  - eapply triple_conseq; [apply release_listed_fold| |done|done].
    intros s [[Hs _] [= Hnodes]]. split; [exact Hs|].
    intros n node Hn _. rewrite <-Hnodes. by apply elem_of_map_to_list.
  - intros changed. destruct (cordoned run); by intros s0 H.
Qed.

Lemma as_found_releaseCordons : keeps as_found releaseCordons.
Proof.
  apply keeps_hold. intros run Hrun.
  apply (triple_bind _ _ _ (λ nodes s, as_found s ∧ Some (map_to_list (w_nodes (s_world s))) = Some nodes)).
  { apply (triple_read as_found); done. }
  intros nodes. apply (triple_fact _ (∀ n node, (n, node) ∈ nodes → node_ok n node)).
  { intros s [[_ Hs] [= <-]] n node Hin. by apply Hs, elem_of_map_to_list. }
  intros Hin. apply (triple_bind _ _ _ (λ _, as_found)).
  - eapply triple_conseq; [by apply as_found_release_listed|by intros s [H _]|done|done].
  - intros changed. destruct (cordoned run); [apply keeps_ret|].
    apply keeps_bind; [apply as_found_cordoned|intros; apply keeps_ret].
Qed.

Lemma release_listed_run run changed entry : keeps (λ s, s_run s = run) (release_listed changed entry).
Proof.
  destruct entry as [n node]. apply (keeps_getRun _ (λ _, True)); [done|]. intros run' _.
  case_match; [|apply keeps_ret]. apply keeps_bind; [|intros; apply keeps_ret].
  apply keeps_bind; [apply keeps_try, keeps_updateNode; done|].
  intros [|e]; [apply keeps_ret|]. case_match; [apply keeps_ret|apply keeps_throw].
Qed.

Lemma releaseCordons_clears :
  triple (λ _, True) releaseCordons (λ _ s, cordoned (s_run s) = []) (λ _ _, True).
Proof.
  unfold releaseCordons. eapply triple_bind; [apply triple_getRun|]. intros run.
  apply (triple_bind _ _ _ (λ _ s, s_run s = run)).
  { eapply triple_conseq; [apply (triple_read (λ s, s_run s = run)); done| | |done].
    - by intros s [_ ->].
    - by intros nodes s [H _]. }
  intros nodes. apply (triple_bind _ _ _ (λ _ s, s_run s = run)).
  { eapply triple_conseq; [apply (triple_fold (λ _ s, s_run s = run)); intros; apply release_listed_run|done..]. }
  intros changed. destruct (cordoned run) as [|c cs] eqn:E; intros s H; [by rewrite <-H in E|done].
Qed.
End as_found.

(** ** Cordons are temporary *)

(** What the capture records of the nodes it could read. *)
Definition found (nodes : gmap str Node) (n : str) : bool :=
  match nodes !! n with Some node => preBurnInSchedulability node | None => false end.

Lemma capturePriorSchedulability_found nodes targets :
  triple (λ s, w_nodes (s_world s) = nodes) (capturePriorSchedulability targets)
    (λ r s, w_nodes (s_world s) = nodes ∧
            ∀ n b, default ∅ r !! n = Some b → n ∈ targets ∧ b = found nodes n) (λ _ _, False).
Proof.
  unfold capturePriorSchedulability.
  apply (triple_bind _ _ _ (λ (prior : gmap str bool) s, w_nodes (s_world s) = nodes ∧
    ∀ n b, prior !! n = Some b → n ∈ targets ∧ b = found nodes n)).
  - eapply triple_conseq; [apply (triple_fold (λ (prior : gmap str bool) s, w_nodes (s_world s) = nodes ∧
      ∀ n b, prior !! n = Some b → n ∈ targets ∧ b = found nodes n) _ (λ _ _, False))| |done|done].
    2: { intros s H. split; [done|]. intros n b. by rewrite lookup_empty. }
    intros prior name Hname. unfold capture_one. apply triple_pre. intros s [Hw Hp] s' ->.
    unfold getNode, read, call, mbind, M_bind, try.
    destruct (head (w_faults (s_world s))) as [[| |]|]; cbn; rewrite ?Hw; try done;
      destruct (nodes !! name) as [node|] eqn:E; cbn; (split; [done|]); try done;
      intros n b [[<- <-]|[_ H]]%lookup_insert_Some; [|by apply Hp| |by apply Hp];
      (split; [done|]); unfold found; by rewrite E.
  - intros prior s [Hw Hp]. cbn. case_bool_decide; cbn; [|done].
    split; [done|]. intros n b. by rewrite lookup_empty.
Qed.

(** C7: Cordons are temporary, whatever fails: with the schedulability of the run's targets
    recorded as it was found, cordoning, releasing what is no longer loaded and
    releasing everything keep every node that nobody holds as it was found, and a
    drained node drained throughout; and a release of everything that reports no error
    leaves no stamp of the run behind. *)
Theorem cordons_keep_found (run0 : BurnInRun) (F : str → bool) :
  record_ok run0 F →
  (∀ n spec, keeps (as_found run0 F) (cordonNode n spec)) ∧
  (∀ n, keeps (as_found run0 F) (releaseNode n)) ∧
  (∀ held, keeps (as_found run0 F) (releaseHeldNodes held)) ∧
  triple (as_found run0 F) releaseCordons
    (λ _ s, as_found run0 F s ∧ unstamped run0 (w_nodes (s_world s)) ∧ cordoned (s_run s) = [])
    (λ _, as_found run0 F).
Proof.
  intros H. split_and!.
  - intros. by apply as_found_cordonNode.
  - intros. by apply as_found_releaseNode.
  - intros. by apply as_found_releaseHeldNodes.
  - pose proof (triple_and _ _ _ _ _ _ _ (as_found_releaseCordons run0 F H)
      (triple_and _ _ _ _ _ _ _ (releaseCordons_unstamps run0) releaseCordons_clears)) as Hall.
    eapply triple_conseq; [exact Hall| |naive_solver|by intros e s [Hs _]].
    intros s Hs. split; [exact Hs|]. split; [|done]. apply same_hold_owner, Hs.
Qed.

Definition example_run : BurnInRun :=
  set_run_Status
    (set_st_PriorUnschedulable (Some {[ "node-a" := false; "node-b" := true ]})
       (run_Status (named_run "r"))) (named_run "r").

Lemma cordons_keep_found_witness :
  record_ok example_run (String.eqb "node-b") ∧
  keeps (as_found example_run (String.eqb "node-b")) (releaseHeldNodes ∅).
Proof.
  assert (record_ok example_run (String.eqb "node-b")) as H.
  { intros n b. cbn. rewrite lookup_insert_Some, lookup_singleton_Some.
    intros [[<- <-]|[_ [<- <-]]]; reflexivity. }
  split; [exact H|]. apply (cordons_keep_found example_run (String.eqb "node-b") H).
Defined.

Lemma heat_declaration_witness :
  run_named example_run ∧ four_digit_year (1772317799 * second) ∧
  annotation AnnotationHeatExpected
    (dropHeatExpected (MkNode ∅ ∅ false "" "" "") (run_UID example_run)).1 = "".
Proof.
  assert (run_named example_run) as H by (repeat split; discriminate).
  assert (four_digit_year (1772317799 * second)) as Hy by (split; vm_compute; congruence).
  split; [exact H|]. split; [exact Hy|].
  apply (heat_declaration example_run (MkNode ∅ ∅ false "" "" "") _ H Hy).
  intros [He _]. apply He. reflexivity.
Defined.

Lemma reaped_owner uid node : nd_Annotations (reaped uid node) !! AnnotationCordonOwner = None.
Proof.
  unfold reaped. set (node1 := set_nd_Annotations _ _).
  destruct (drop_same_but_heat node1 uid) as (_ & _ & H). rewrite H by done.
  unfold node1. cbn. by rewrite lookup_delete_ne, lookup_delete_eq.
Qed.

(** What an update that tolerates a missing node leaves of the cluster. *)
Lemma update_unless_gone_world name node s :
  let s' := (update_unless_gone name node s).2 in
  w_run (s_world s') = w_run (s_world s) ∧ w_pods (s_world s') = w_pods (s_world s) ∧
  (w_nodes (s_world s') = w_nodes (s_world s) ∨
   w_nodes (s_world s') = <[name := node]> (w_nodes (s_world s))) ∧
  (w_faults (s_world s) = [] → ∀ n0, w_nodes (s_world s) !! name = Some n0 →
   (update_unless_gone name node s).1 = inl () ∧
   w_nodes (s_world s') = <[name := node]> (w_nodes (s_world s))).
Proof.
  unfold update_unless_gone, updateNode, call, mbind, M_bind, try.
  destruct (w_faults (s_world s)) as [|[| |] fs] eqn:Hf; cbn; rewrite ?IsNotFound_failure;
    destruct (w_nodes (s_world s) !! name) eqn:E; cbn;
    rewrite ?IsNotFound_NotFound, ?IsNotFound_failure; cbn; repeat split; auto; try done.
Qed.

(** C23: The reaper takes a stamp off a node only when an answered read shows its run to be
    gone or recreated under another uid; it then returns the node to what the stamp
    recorded.  A stamp it cannot read stays, and a pass without a failed call ends with
    the stamp off or its owner alive. *)
Theorem reaper_proves_absence name node s :
  w_nodes (s_world s) !! name = Some node →
  let s' := (reapOrphanedCordon name node s).2 in
  let owner_of n owner := ∃ stamp, nd_Annotations n !! AnnotationCordonOwner = Some stamp ∧
                                   parseCordonOwner stamp = Some owner in
  let alive owner := ∃ run, find_run (co_namespace owner) (co_name owner) (s_world s) = Some run ∧
                            run_UID run = co_uid owner in
  w_run (s_world s') = w_run (s_world s) ∧ w_pods (s_world s') = w_pods (s_world s) ∧
  (w_nodes (s_world s') = w_nodes (s_world s) ∨
   ∃ owner, owner_of node owner ∧ ¬ alive owner ∧
     w_nodes (s_world s') = <[name := reaped (co_uid owner) node]> (w_nodes (s_world s))) ∧
  (w_faults (s_world s) = [] →
   ∀ node' owner, w_nodes (s_world s') !! name = Some node' → owner_of node' owner →
     alive owner ∧ (reapOrphanedCordon name node s).1 = inl true).
Proof.
  intros Hnode s' owner_of alive. unfold s', reapOrphanedCordon.
  destruct (nd_Annotations node !! AnnotationCordonOwner) as [stamp|] eqn:Hst.
  2: { split_and!; [done|done|by left|]. intros _ node' owner Hn (st' & Hs & _). cbn in Hn. congruence. }
  destruct (parseCordonOwner stamp) as [owner|] eqn:Hp.
  2: { split_and!; [done|done|by left|]. intros _ node' owner Hn (st' & Hs & ?). cbn in Hn. congruence. }
  assert (owner_of node owner) as Hown by (exists stamp; done).
  assert (∀ (reap : M bool), reap = (update_unless_gone name (reaped (co_uid owner) node) ;; mret false) →
    ¬ alive owner →
    let s' := (reap (spent s)).2 in
    w_run (s_world s') = w_run (s_world s) ∧ w_pods (s_world s') = w_pods (s_world s) ∧
    (w_nodes (s_world s') = w_nodes (s_world s) ∨
     ∃ owner, owner_of node owner ∧ ¬ alive owner ∧
       w_nodes (s_world s') = <[name := reaped (co_uid owner) node]> (w_nodes (s_world s))) ∧
    (w_faults (s_world s) = [] → ∀ node', w_nodes (s_world s') !! name = Some node' →
      nd_Annotations node' !! AnnotationCordonOwner = None)) as Hreap.
  { intros reap -> Hdead. unfold mbind, M_bind.
    destruct (update_unless_gone_world name (reaped (co_uid owner) node) (spent s))
      as (H1 & H2 & H3 & H4).
    destruct (update_unless_gone _ _ _) as [[[]|e] s1]; cbn in *; (split_and!; [done|done| |]).
    all: try (destruct H3 as [H3|H3]; [by left|right; exists owner; done]).
    all: intros Hf node' Hn'; rewrite Hf in H4; destruct (H4 eq_refl node Hnode) as [Hr Hn].
    - rewrite Hn, lookup_insert_eq in Hn'. injection Hn' as <-. apply reaped_owner.
    - done. }
  rewrite try_read_bind. change (find_run (co_namespace owner) (co_name owner) (s_world (spent s)))
    with (find_run (co_namespace owner) (co_name owner) (s_world s)).
  destruct (w_faults (s_world s)) as [|[| |] fs] eqn:Hf; cbn [head].
  3-4: rewrite IsNotFound_failure; (split; [done|]; split; [done|]; split; [by left|]; congruence).
  all: rewrite ?IsNotFound_NotFound; destruct (find_run _ _ (s_world s)) as [run|] eqn:Hrun.
  1, 3: destruct (String.eqb_spec (run_UID run) (co_uid owner)) as [Hu|Hu].
  1, 3: split_and!; [done|done|by left|]; intros Hnil node' owner' Hn (st' & Hs & Hp');
    cbn in Hn; assert (owner' = owner) as -> by congruence; split; [by exists run|done].
  all: destruct (Hreap _ eq_refl) as (H1 & H2 & H3 & H4); [intros (run' & Hr & Hu'); congruence|];
    (split; [exact H1|]; split; [exact H2|]; split; [exact H3|]); intros Hnil node' owner' Hn (st' & Hs & _);
    specialize (H4 Hnil node' Hn); congruence.
Qed.

Lemma reaper_proves_absence_witness :
  let node := MkNode ∅ {[ AnnotationCordonOwner := "ns/gone/uid-9";
                          AnnotationPriorUnschedulable := "false" ]} true "" "" "" in
  let w := MkWorld 0 None [] ∅ ∅ {[ "node-a" := node ]} ∅ ∅ ∅ ∅ ∅ ∅ ∅ ∅ [] [] (λ _ _, "") [] in
  let s := MkSt example_run ∅ w in
  w_nodes w !! "node-a" = Some node ∧
  w_run (s_world (reapOrphanedCordon "node-a" node s).2) = None ∧
  (nd_Unschedulable <$> w_nodes (s_world (reapOrphanedCordon "node-a" node s).2) !! "node-a") =
    Some false.
Proof.
  intros node w s. assert (w_nodes w !! "node-a" = Some node) as H by reflexivity.
  split; [exact H|]. split; [|reflexivity].
  exact (proj1 (reaper_proves_absence "node-a" node s H)).
Defined.
