(* ===== verification/Admission.v ===== *)
(** * internal/controller/admission.go: one burn-in per node across runs

    The order that decides between two runs contending for a node, which runs count as
    holding their targets, the scan for a conflicting run, and the resolution of a run's
    targets it shares with the start of a run.  The gate itself is in [Lifecycle]. *)

From S2P Require Import Prelude GoStrings GoFloat GoTime Contract Registry Runner Verdict Api Plan.
From S2P Require Import Soak Pods RunPlan PlanStore Attempt Effects World Cordon.
Open Scope stdpp_scope.

(** ** Who wins *)
Definition started (run : BurnInRun) : bool := negb (is_unset (st_StartedAt (run_Status run))).

Definition admissionOrder (a b : BurnInRun) : bool :=
  if xorb (started a) (started b) then started a
  else if negb (run_CreatedAt a =? run_CreatedAt b)%Z then (run_CreatedAt a <? run_CreatedAt b)%Z
  else str_ltb (run_UID a) (run_UID b).

(** [controllerutil.ContainsFinalizer] *)
Definition has_finalizer (run : BurnInRun) : bool :=
  bool_decide (FinalizerCordonCleanup ∈ run_Finalizers run).

Definition runHolds (run : BurnInRun) : bool :=
  has_finalizer run || negb (isTerminal (st_Phase (run_Status run))).

Definition forced (run : BurnInRun) : bool := default false (sp_Force (run_Spec run)).

(** ** Targets *)

(** A map under [%v]. *)
Definition show_map (m : gmap str str) : str :=
  "map[" +:+ Join ((λ k, k +:+ ":" +:+ default "" (m !! k)) <$> sorted_keys m) " " +:+ "]".

Definition matches_labels (sel : gmap str str) (node : Node) : bool :=
  forallb (λ kv, bool_decide (nd_Labels node !! kv.1 = Some kv.2)) (map_to_list sel).

Definition resolveTargets (sp : BurnInRunSpec) : M (list str) :=
  match sp_TargetNodeNames sp with
  | _ :: _ => mret (sp_TargetNodeNames sp)
  | [] =>
      if bool_decide (sp_TargetNodeSelector sp = ∅) then
        throw (Errorf "target selects no nodes: set nodeNames or nodeSelector")
      else
        nodes ← rethrow "list nodes: " listNodes;
        match List.filter (λ kv, matches_labels (sp_TargetNodeSelector sp) kv.2) nodes with
        | [] => throw (Errorf ("nodeSelector " +:+ show_map (sp_TargetNodeSelector sp) +:+
                               " matches no nodes"))
        | selected => mret selected.*1
        end
  end.

(** ** The scan *)
Record conflict := MkConflict { cf_run : BurnInRun; cf_nodes : list str }.

(** [conflict.String] *)
Definition show_conflict (c : conflict) : str :=
  run_Namespace (cf_run c) +:+ "/" +:+ run_Name (cf_run c) +:+ " (holding " +:+
  Join (cf_nodes c) ", " +:+ ")".

Fixpoint overlap_go (wanted seen : gset str) (targets : list str) : list str :=
  match targets with
  | [] => []
  | n :: rest =>
      if bool_decide (n ∈ wanted) && negb (bool_decide (n ∈ seen))
      then n :: overlap_go wanted ({[n]} ∪ seen) rest else overlap_go wanted seen rest
  end.

Section admission.
Context `{PlanCodec}.

Definition overlappingTargets (other : BurnInRun) (wanted : gset str) : M (list str) :=
  targets ← match loadPlan other with
            | Some (inl p) => mret (pl_Targets p)
            | _ =>
                r ← try (resolveTargets (run_Spec other));
                match r with inl t => mret t | inr _ => mret [] end
            end;
  mret (sort_strings (overlap_go wanted ∅ targets)).

Definition better (found : option conflict) (other : BurnInRun) (nodes : list str) : option conflict :=
  match found with
  | None => Some (MkConflict other nodes)
  | Some c => if admissionOrder other (cf_run c) then Some (MkConflict other nodes) else found
  end.

Definition consider (run : BurnInRun) (wanted : gset str) (found : option conflict)
    (other : BurnInRun) : M (option conflict) :=
  if String.eqb (run_UID other) (run_UID run) then mret found
  else if negb (runHolds other) || negb (admissionOrder other run) then mret found
  else
    overlap ← overlappingTargets other wanted;
    match overlap with [] => mret found | _ => mret (better found other overlap) end.

Definition all_runs (w : world) : list BurnInRun := option_list (w_run w) ++ w_others w.

Definition findConflict (run : BurnInRun) (targets : list str) : M (option conflict) :=
  runs ← rethrow "list runs for admission: " (read "runs" (λ w, Some (all_runs w)));
  fold (consider run (list_to_set targets)) None runs.

End admission.

(** ** The order is a strict total order *)
Lemma admissionOrder_irrefl a : admissionOrder a a = false.
Proof. unfold admissionOrder. by rewrite xorb_nilpotent, Z.eqb_refl, str_ltb_irrefl. Qed.

Lemma admissionOrder_trans a b c :
  admissionOrder a b = true → admissionOrder b c = true → admissionOrder a c = true.
Proof.
  unfold admissionOrder.
  destruct (started a), (started b), (started c); cbn; try done;
    destruct (Z.eqb_spec (run_CreatedAt a) (run_CreatedAt b)),
      (Z.eqb_spec (run_CreatedAt b) (run_CreatedAt c)),
      (Z.eqb_spec (run_CreatedAt a) (run_CreatedAt c)); cbn; rewrite ?Z.ltb_lt; try lia;
    apply str_ltb_trans.
Qed.

Lemma admissionOrder_total a b :
  run_UID a ≠ run_UID b → admissionOrder a b = true ∨ admissionOrder b a = true.
Proof.
  intros Hne. unfold admissionOrder.
  destruct (started a), (started b); cbn; auto;
    rewrite (Z.eqb_sym (run_CreatedAt b));
    destruct (Z.eqb_spec (run_CreatedAt a) (run_CreatedAt b)); cbn; rewrite ?Z.ltb_lt;
    try lia; by apply str_ltb_total.
Qed.

Lemma admissionOrder_asymm a b : admissionOrder a b = true → admissionOrder b a = false.
Proof.
  intros H. apply not_true_iff_false. intros H'.
  pose proof (admissionOrder_trans _ _ _ H H') as E. by rewrite admissionOrder_irrefl in E.
Qed.

(** ** The scan, when every read is answered *)
Section scan.
Context `{PlanCodec}.

(** The targets admission believes a run to have. *)
Definition targets_of (w : world) (other : BurnInRun) : list str :=
  match loadPlan other with
  | Some (inl p) => pl_Targets p
  | _ =>
      match (resolveTargets (run_Spec other) (MkSt other ∅ (set_w_faults [] w))).1 with
      | inl targets => targets
      | inr _ => []
      end
  end.

Definition overlap (w : world) (wanted : gset str) (other : BurnInRun) : list str :=
  sort_strings (overlap_go wanted ∅ (targets_of w other)).

(** [other] keeps [run] off some node of [wanted]. *)
Definition blocks (w : world) (wanted : gset str) (run other : BurnInRun) : bool :=
  negb (String.eqb (run_UID other) (run_UID run)) && runHolds other && admissionOrder other run &&
  negb (is_nil (overlap w wanted other)).

Definition scan_step (w : world) (wanted : gset str) (run : BurnInRun) (found : option conflict)
    (other : BurnInRun) : option conflict :=
  if blocks w wanted run other then better found other (overlap w wanted other) else found.

Lemma read_nil {A} name (f : world → option A) s a :
  w_faults (s_world s) = [] → f (s_world s) = Some a → read name f s = (inl a, s).
Proof.
  intros Hf Ha. pose proof (spent_nil s Hf) as Hs. unfold spent in Hs. unfold read, call.
  rewrite Hf in *. cbn in *. 
  replace (set_w_faults [] (s_world s)) with (s_world s) by (destruct s as [r b []]; cbn in *; by subst).
  rewrite Ha. by destruct s.
Qed.

Lemma resolveTargets_nil sp s s' :
  w_faults (s_world s) = [] → w_nodes (s_world s') = w_nodes (s_world s) →
  w_faults (s_world s') = [] →
  resolveTargets sp s = ((resolveTargets sp s').1, s).
Proof.
  intros Hf Hn Hf'. unfold resolveTargets. destruct (sp_TargetNodeNames sp); [|done].
  case_bool_decide; [done|]. unfold rethrow, listNodes, try, mbind, M_bind.
  rewrite !(read_nil _ _ _ (map_to_list (w_nodes (s_world s)))) by (done || by rewrite Hn).
  cbn. by destruct (List.filter _ _).
Qed.

Lemma overlappingTargets_nil other wanted s :
  w_faults (s_world s) = [] →
  overlappingTargets other wanted s = (inl (overlap (s_world s) wanted other), s).
Proof.
  intros Hf. unfold overlappingTargets, overlap, targets_of, try, mbind, M_bind.
  destruct (loadPlan other) as [[p|e]|]; [done|..];
    rewrite (resolveTargets_nil _ s (MkSt other ∅ (set_w_faults [] (s_world s)))) by done;
    by destruct (resolveTargets _ _).1.
Qed.

Lemma consider_nil run wanted found other s :
  w_faults (s_world s) = [] →
  consider run wanted found other s = (inl (scan_step (s_world s) wanted run found other), s).
Proof.
  intros Hf. unfold consider, scan_step, blocks.
  destruct (String.eqb _ _); [done|]. destruct (runHolds other); [|done].
  destruct (admissionOrder other run); [|done]. cbn.
  unfold mbind, M_bind. rewrite overlappingTargets_nil by done.
  by destruct (overlap (s_world s) wanted other).
Qed.

Lemma findConflict_nil run targets s :
  w_faults (s_world s) = [] →
  findConflict run targets s =
    (inl (fold_left (scan_step (s_world s) (list_to_set targets) run) (all_runs (s_world s)) None), s).
Proof.
  intros Hf. unfold findConflict, rethrow, mbind, M_bind, try.
  rewrite (read_nil _ _ _ (all_runs (s_world s))) by done. cbn.
  generalize (None : option conflict). induction (all_runs (s_world s)) as [|o l IH]; intros found; [done|].
  cbn [fold fold_left]. unfold mbind, M_bind. rewrite consider_nil by done. apply IH.
Qed.

(** What the scan keeps of the blockers it has passed: the first in admission order. *)
Definition scan_inv (w : world) (wanted : gset str) (run : BurnInRun) (passed : list BurnInRun)
    (found : option conflict) : Prop :=
  match found with
  | None => ∀ o, o ∈ passed → blocks w wanted run o = false
  | Some c => cf_run c ∈ passed ∧ blocks w wanted run (cf_run c) = true ∧
              cf_nodes c = overlap w wanted (cf_run c) ∧
              ∀ o, o ∈ passed → blocks w wanted run o = true →
                   o = cf_run c ∨ admissionOrder (cf_run c) o = true
  end.

Lemma scan_step_inv w wanted run passed found o :
  (∀ p, p ∈ passed → run_UID o = run_UID p → o = p) →
  scan_inv w wanted run passed found →
  scan_inv w wanted run (passed ++ [o]) (scan_step w wanted run found o).
Proof.
  intros Huniq.
  assert (∀ x, x ∈ passed ++ [o] ↔ x ∈ passed ∨ x = o) as Hsnoc
    by (intros x; by rewrite elem_of_app, list_elem_of_singleton).
  unfold scan_step, scan_inv. destruct (blocks w wanted run o) eqn:Hb, found as [c|].
  - intros (Hin & Hc & Hn & Hmin). cbn [better].
    destruct (admissionOrder o (cf_run c)) eqn:Ho; cbn [cf_run cf_nodes]; rewrite Hsnoc;
      (split_and!; [auto|done|done|]); (intros o' [Ho'| ->]%Hsnoc Hb'; [|auto]).
    + right. destruct (Hmin o' Ho' Hb') as [->|H']; [done|]. by eapply admissionOrder_trans.
    + auto.
    + destruct (decide (run_UID o = run_UID (cf_run c))) as [Hu|Hu]; [left; auto|].
      right. destruct (admissionOrder_total (cf_run c) o); congruence.
  - intros Hno. cbn. rewrite Hsnoc. split_and!; [auto|done|done|].
    intros o' [Ho'| ->]%Hsnoc Hb'; [by rewrite Hno in Hb'|auto].
  - intros (Hin & Hc & Hn & Hmin). rewrite Hsnoc. split_and!; [auto|done|done|].
    intros o' [Ho'| ->]%Hsnoc Hb'; [auto|congruence].
  - intros Hno o' [Ho'| ->]%Hsnoc; auto.
Qed.

Lemma scan_inv_all w wanted run :
  (∀ a b, a ∈ all_runs w → b ∈ all_runs w → run_UID a = run_UID b → a = b) →
  scan_inv w wanted run (all_runs w) (fold_left (scan_step w wanted run) (all_runs w) None).
Proof.
  intros Huniq. pose proof (eq_refl : all_runs w = [] ++ all_runs w) as Hsplit.
  assert (scan_inv w wanted run [] None) as Hinv by (intros o Ho; by apply elem_of_nil in Ho).
  revert Hsplit Hinv. generalize (None : option conflict). generalize ([] : list BurnInRun).
  generalize (all_runs w) at 2 4 as rest. intros rest. induction rest as [|o rest IH]; intros passed found Hsplit Hinv.
  - rewrite app_nil_r in Hsplit. by rewrite Hsplit.
  - cbn. apply (IH (passed ++ [o])); [by rewrite <-app_assoc|]. apply scan_step_inv; [|done].
    intros p Hp. apply Huniq; rewrite Hsplit; set_solver.
Qed.

Lemma overlap_go_spec wanted seen targets n :
  n ∈ overlap_go wanted seen targets ↔ n ∈ wanted ∧ n ∉ seen ∧ n ∈ targets.
Proof.
  revert seen. induction targets as [|m l IH]; intros seen; cbn; [set_solver|].
  case_bool_decide; case_bool_decide; cbn; rewrite ?elem_of_cons, IH; [set_solver|..].
  - destruct (decide (n = m)); set_solver.
  - set_solver.
  - set_solver.
Qed.

Lemma overlap_spec w wanted o n : n ∈ overlap w wanted o ↔ n ∈ wanted ∧ n ∈ targets_of w o.
Proof. unfold overlap. rewrite sort_strings_elem, overlap_go_spec. set_solver. Qed.

(** C18: Admission is decided by a strict total order: when its reads are answered, a run
    finds no conflict exactly when it precedes every other run that holds and wants one
    of its nodes, and otherwise finds the first of those in the order; so of two runs
    that hold a node between them and see each other, at most one is admitted
    unforced. *)
Theorem admission_decides run targets s :
  w_faults (s_world s) = [] →
  (∀ a b, a ∈ all_runs (s_world s) → b ∈ all_runs (s_world s) → run_UID a = run_UID b → a = b) →
  let w := s_world s in
  let rival o := o ∈ all_runs w ∧ run_UID o ≠ run_UID run ∧ runHolds o = true ∧
                 ∃ n, n ∈ targets ∧ n ∈ targets_of w o in
  ∃ found,
    findConflict run targets s = (inl found, s) ∧
    match found with
    | None => ∀ o, rival o → admissionOrder run o = true ∧ admissionOrder o run = false
    | Some c => rival (cf_run c) ∧ admissionOrder (cf_run c) run = true ∧
                (∀ n, n ∈ cf_nodes c ↔ n ∈ targets ∧ n ∈ targets_of w (cf_run c)) ∧
                ∀ o, rival o → admissionOrder o run = true →
                     o = cf_run c ∨ admissionOrder (cf_run c) o = true
    end.
Proof.
  intros Hf Huniq w rival. eexists. rewrite findConflict_nil by done. split; [reflexivity|].
  pose proof (scan_inv_all w (list_to_set targets) run Huniq) as Hinv.
  assert (∀ o, o ∈ all_runs w → blocks w (list_to_set targets) run o = true ↔
                rival o ∧ admissionOrder o run = true) as Hblocks.
  { intros o Ho. unfold blocks, rival. rewrite !andb_true_iff, !negb_true_iff.
    assert (is_nil (overlap w (list_to_set targets) o) = false ↔
            ∃ n, n ∈ targets ∧ n ∈ targets_of w o) as ->.
    { destruct (overlap w (list_to_set targets) o) as [|n l] eqn:E; cbn; split; try done.
      - intros (n & Hn & Hn'). assert (n ∈ overlap w (list_to_set targets) o) as H0
          by (apply overlap_spec; set_solver). rewrite E in H0. by apply elem_of_nil in H0.
      - intros _. exists n. assert (n ∈ overlap w (list_to_set targets) o) as H0 by (rewrite E; left).
        apply overlap_spec in H0. set_solver. }
    rewrite String.eqb_neq. tauto. }
  fold w. destruct (fold_left _ _ _) as [c|]; cbn in Hinv.
  - destruct Hinv as (Hin & Hb & Hn & Hmin). apply Hblocks in Hb as [Hr Ho]; [|done].
    split_and!; [exact Hr|exact Ho| |].
    + intros n. rewrite Hn, overlap_spec. set_solver.
    + intros o Hro Hord. apply Hmin; [apply Hro|]. apply Hblocks; [apply Hro|done].
  - intros o Hro. assert (admissionOrder o run = false) as Hno.
    { apply not_true_iff_false. intros H0. assert (o ∈ all_runs w) as Ho by apply Hro.
      specialize (Hinv o Ho). apply not_true_iff_false in Hinv. apply Hinv, Hblocks; done. }
    split; [|done]. destruct (admissionOrder_total run o); [|done|congruence].
    destruct Hro as (_ & Hne & _). congruence.
Qed.
End scan.

(** ** Examples *)
Definition contender (uid : str) (finalizers : list str) (sel : gmap str str) (nodes : list str)
    : BurnInRun :=
  MkRun "ns" ("run-" +:+ uid) uid 100 None ∅ finalizers
    (MkRunSpec "p" nodes sel [] None None None None None None None CancelUnset "" None)
    (MkStatus RunPending ∅ None None [] 0 0 0 0 [] None ∅).

Definition example_world (others : list BurnInRun) (faults : list fault) : world :=
  MkWorld 0 None others ∅ ∅ {[ "n1" := MkNode {[ "pool" := "x" ]} ∅ false "" "" "" ]} ∅ ∅ ∅ ∅ ∅ ∅ ∅ ∅
    faults [] (λ _ _, "") [].

Definition scan_finds (run : BurnInRun) (others : list BurnInRun) (faults : list fault)
    : option (option str) :=
  match (@findConflict example_codec run ["n1"] (MkSt run ∅ (example_world others faults))).1 with
  | inl found => Some ((λ c, run_UID (cf_run c)) <$> found)
  | inr _ => None
  end.

(** Two runs created in the same second: the later one, whose uid sorts first, was not
    there when the earlier one was admitted and pinned.  Until the earlier run's start
    time is written the order still puts the later one first, and both are admitted. *)
Lemma same_second_both_admitted :
  let early := contender "uid-b" [] ∅ ["n1"] in
  let pinned := contender "uid-b" [FinalizerCordonCleanup] ∅ ["n1"] in
  let late := contender "uid-a" [] ∅ ["n1"] in
  scan_finds early [early] [] = Some None ∧ scan_finds late [pinned; late] [] = Some None.
Proof. vm_compute. done. Qed.

(** An earlier run whose selector cannot be resolved because listing nodes failed counts
    as having no targets, and the scan reports no conflict. *)
Lemma failed_scan_admits :
  let first := contender "uid-a" [] {[ "pool" := "x" ]} [] in
  let second := contender "uid-b" [] ∅ ["n1"] in
  scan_finds second [first; second] [] = Some (Some "uid-a") ∧
  scan_finds second [first; second] [Land; Reject true] = Some None.
Proof. vm_compute. done. Qed.

Lemma admission_decides_witness :
  let first := contender "uid-a" [] ∅ ["n1"] in
  let second := contender "uid-b" [] ∅ ["n1"] in
  let s := MkSt second ∅ (example_world [first; second] []) in
  (∀ a b, a ∈ all_runs (s_world s) → b ∈ all_runs (s_world s) → run_UID a = run_UID b → a = b) ∧
  ∃ found, @findConflict example_codec second ["n1"] s = (inl found, s).
Proof.
  intros first second s.
  assert (∀ a b, a ∈ all_runs (s_world s) → b ∈ all_runs (s_world s) → run_UID a = run_UID b → a = b) as H.
  { intros a b Ha Hb. cbn in Ha, Hb.
    repeat (apply elem_of_cons in Ha as [->|Ha]); repeat (apply elem_of_cons in Hb as [->|Hb]);
      try (by apply elem_of_nil in Ha); try (by apply elem_of_nil in Hb); intros [=]; reflexivity. }
  split; [exact H|].
  destruct (@admission_decides example_codec second ["n1"] s eq_refl H) as (found & Hf & _).
  exists found. exact Hf.
Defined.
