(* ===== verification/PodBuild.v ===== *)
(** * Building a runner pod (pkg/runnerimages, internal/controller/pods.go)

    The image a test runs on a node of a given accelerator vendor, and [podForTest]: the
    whole pod the controller creates for one execution.  Kubernetes values the source
    only copies (probes, quantities) are text; restart policy and volume sources are the
    only ones the code ever sets. *)

From S2P Require Import Prelude GoStrings GoFloat GoTime GoSha256 Contract Registry Runner Verdict Api.
From S2P Require Import Plan Soak Pods RunPlan Attempt Effects World.
From Stdlib Require Import Ascii.
Open Scope stdpp_scope.

(** ** Images *)
Definition VendorNVIDIA : str := "nvidia".
Definition VendorAny : str := "*".

Record image := MkImage { im_Ref : str; im_Vendor : str }.

Definition defaults : list (TestKind * image) :=
  [(KindComputeSmoke, MkImage "ghcr.io/baldwinspc/glimmer-burnin-compute-smoke:v0.7.0" VendorNVIDIA);
   (KindClockProbe, MkImage "ghcr.io/baldwinspc/glimmer-burnin-clockprobe:v0.7.1" VendorNVIDIA);
   (KindDCGMDiag, MkImage "ghcr.io/baldwinspc/glimmer-burnin-dcgm-diag:v0.7.3" VendorNVIDIA);
   (KindHostHealth, MkImage "ghcr.io/baldwinspc/glimmer-burnin-host-health:v0.7.2" VendorNVIDIA);
   (KindMemoryBW, MkImage "ghcr.io/baldwinspc/glimmer-burnin-memory-bw:v0.8.0" VendorNVIDIA);
   (KindMemoryStress, MkImage "ghcr.io/baldwinspc/glimmer-burnin-memory-stress:v0.6.2" VendorAny);
   (KindThermalSoak, MkImage "ghcr.io/baldwinspc/glimmer-burnin-thermal-soak:v0.7.2" VendorNVIDIA);
   (KindGPUBurn, MkImage "ghcr.io/baldwinspc/glimmer-burnin-gpu-burn:v0.7.2" VendorNVIDIA);
   (KindIBWriteBW, MkImage "ghcr.io/baldwinspc/glimmer-burnin-ib-write-bw:v0.6.5" VendorAny);
   (KindNCCL, MkImage "ghcr.io/baldwinspc/glimmer-burnin-nccl:v0.9.1" VendorNVIDIA);
   (KindGPUDirect, MkImage "ghcr.io/baldwinspc/glimmer-burnin-gpudirect-rdma:v0.6.4" VendorNVIDIA);
   (KindTCPBaseline, MkImage "ghcr.io/baldwinspc/glimmer-burnin-tcp-baseline:v0.1.2" VendorAny);
   (KindDiskIO, MkImage "ghcr.io/baldwinspc/glimmer-burnin-disk-io:v0.1.2" VendorAny);
   (KindGemmSweep, MkImage "ghcr.io/baldwinspc/glimmer-burnin-gemm-sweep:v0.7.0" VendorNVIDIA)].

Definition default_image (kind : TestKind) : option image :=
  snd <$> list_first (λ e, String.eqb e.1 kind) defaults.

Definition Default (kind : TestKind) : option str := im_Ref <$> default_image kind.
Definition VendorOf (kind : TestKind) : option str := im_Vendor <$> default_image kind.

Definition WithoutDefault : list TestKind :=
  [KindCustom; KindFingerprintProbe; KindFabricSoak; KindPowerSwing; KindMemoryRetention;
   KindXPUDiag; KindCPUBench].

Definition vendorOrUnknown (vendor : str) : str :=
  if String.eqb vendor "" then
    quote "unknown" +:+ " (nothing established an accelerator vendor for this node — " +:+
    "no fingerprint in-cluster, no PCI vendor match on bare metal)"
  else String dq vendor +:+ String dq "".

Definition listVendors (l : list VendorImage) : str := Join (sort_strings (vi_Vendor <$> l)) ", ".

Definition defaultClause (e : option image) : str :=
  match e with
  | None => "this kind has no built-in default to fall back to"
  | Some e => "the built-in default measures " +:+ quote (im_Vendor e) +:+ " hardware"
  end.

Definition pinned_image (runner : option RunnerSpec) : option str :=
  r ← runner; if String.eqb (rs_Image r) "" then None else Some (rs_Image r).

Definition vendor_images (runner : option RunnerSpec) : list VendorImage :=
  default [] (rs_ImagesByVendor <$> runner).

Definition vendor_image (runner : option RunnerSpec) (vendor : str) : option str :=
  vi_Image <$> list_first (λ vi, String.eqb (vi_Vendor vi) vendor && negb (String.eqb (vi_Image vi) ""))
                 (vendor_images runner).

Definition default_for (kind : TestKind) (vendor : str) : option str :=
  e ← default_image kind;
  if String.eqb (im_Vendor e) VendorAny || String.eqb vendor "" || String.eqb (im_Vendor e) vendor
  then Some (im_Ref e) else None.

Definition no_image (kind : TestKind) (runner : option RunnerSpec) (vendor : str) : str :=
  match vendor_images runner, default_image kind with
  | (_ :: _) as l, e =>
      "no image for vendor " +:+ vendorOrUnknown vendor +:+ " on kind " +:+ quote kind +:+
      ": spec.runner.imagesByVendor lists " +:+ listVendors l +:+ ", and " +:+ defaultClause e +:+
      ". Add a " +:+ vendorOrUnknown vendor +:+
      " entry, or set spec.runner.image to pin one image for every node"
  | [], None => "no default runner image for kind " +:+ quote kind +:+ " — set spec.runner.image"
  | [], e =>
      "no image for vendor " +:+ vendorOrUnknown vendor +:+ " on kind " +:+ quote kind +:+ ": " +:+
      defaultClause e +:+ ", and spec.runner.imagesByVendor is not set. Add a " +:+
      vendorOrUnknown vendor +:+
      " entry to it, or set spec.runner.image to pin one image for every node"
  end.

Definition Resolve (kind : TestKind) (runner : option RunnerSpec) (vendor : str) : str + str :=
  match pinned_image runner with
  | Some i => inl i
  | None =>
      match vendor_image runner vendor with
      | Some i => inl i
      | None =>
          match default_for kind vendor with
          | Some i => inl i
          | None => inr (no_image kind runner vendor)
          end
      end
  end.

Definition runnerImage (spec : BurnInTestSpec) (vendor : str) : str + str :=
  Resolve (ts_Kind spec) (ts_Runner spec) vendor.

(** ** The pod *)
Inductive VolumeSource := HostPathSource (path : str) (type : option str) | EmptyDirSource.
Record Volume := MkVolume { vo_Name : str; vo_Source : VolumeSource }.
Record VolumeMount := MkMount { vm_Name : str; vm_MountPath : str; vm_ReadOnly : bool }.

Record SecurityContext := MkSecurity {
  sc_Privileged : option bool;
  sc_RunAsUser : option Z;
  sc_RunAsNonRoot : option bool;
  sc_AddCapabilities : list str;
}.

Record InitContainer := MkInit {
  ic_Name : str;
  ic_Image : str;
  ic_Command : list str;
  ic_Args : list str;
  ic_Mounts : list VolumeMount;
}.

Record PodTemplate := MkTemplate {
  pp_Name : str;
  pp_Namespace : str;
  pp_Labels : gmap str str;
  pp_Annotations : gmap str str;
  pp_Image : str;
  pp_Command : list str;
  pp_Args : list str;
  pp_Env : list EnvVar;
  pp_Resources : ResourceRequirements;
  pp_ReadinessProbe : option str;
  pp_Security : option SecurityContext;
  pp_Mounts : list VolumeMount;
  pp_Volumes : list Volume;
  pp_Init : list InitContainer;
  pp_NodeSelector : gmap str str;
  pp_Tolerations : list Toleration;
  pp_HostNetwork : bool;
  pp_PriorityClass : str;
  pp_ActiveDeadline : Z;
  pp_SupplementalGroups : list Z;
  pp_Hostname : str;
  pp_Subdomain : str;
  pp_ClusterFirstWithHostNet : bool;
}.

Definition labelTest : str := "burnin.glimmer.ai/test".
Definition labelAttempt : str := "burnin.glimmer.ai/attempt".
Definition labelPairRole : str := "burnin.glimmer.ai/pair-role".
Definition labelRank : str := "burnin.glimmer.ai/rank".
Definition labelHostname : str := "kubernetes.io/hostname".
Definition annotationSafeToEvict : str := "cluster-autoscaler.kubernetes.io/safe-to-evict".

Definition unschedulable_toleration : Toleration :=
  MkToleration "node.kubernetes.io/unschedulable" "Exists" "" "NoSchedule" None.

Definition runnerTolerations (fromTarget : list Toleration) : list Toleration :=
  fromTarget ++ [unschedulable_toleration].

(** One rune of a mount path, for a path that is valid UTF-8. *)
Fixpoint sanitize_path (s : str) : str :=
  match s with
  | "" => ""
  | String c rest =>
      if is_lower c || is_digit c then String c (sanitize_path rest)
      else if is_upper c then String (lower_char c) (sanitize_path rest)
      else if rune_start c then String "-" (sanitize_path rest)
      else sanitize_path rest
  end.

Definition hostPathVolumeName (index : Z) (mountPath : str) : str :=
  let name := truncate ("host-" +:+ Itoa index +:+ "-" +:+ sanitize_path mountPath) 63 in
  TrimLeft (TrimRight name "-") "-".

Definition hostPathVolumes (mounts : list HostPathMount) : list (Volume * VolumeMount) :=
  imap (λ i m,
    let name := hostPathVolumeName (Z.of_nat i) (hp_MountPath m) in
    (MkVolume name (HostPathSource (hp_Path m) (hp_Type m)),
     MkMount name (hp_MountPath m) (hostPathReadOnly m))) mounts.

Definition prepareStagingPath : str := "/burnin-prepare-out".

Definition prepareVolumesAndContainers (steps : list PrepareStep)
    : list (Volume * InitContainer * VolumeMount) :=
  imap (λ i s,
    let name := "prepare-" +:+ Itoa (Z.of_nat i) in
    (MkVolume name EmptyDirSource,
     MkInit name (ps_Image s)
       ["sh"; "-c"; "cp -a " +:+ quote "$1" +:+ "/. " +:+ quote "$2" +:+ "/"; "prepare"]
       [ps_CopyFrom s; prepareStagingPath] [MkMount name prepareStagingPath false],
     MkMount name (ps_MountPath s) true)) steps.

Definition securityContext (r : RunnerSpec) : option SecurityContext :=
  if rs_Privileged r || negb (is_unset (rs_RunAsUser r)) || negb (is_nil (rs_Capabilities r)) then
    Some (MkSecurity (if rs_Privileged r then Some true else None) (rs_RunAsUser r)
            ((λ uid, negb (uid =? 0)%Z) <$> rs_RunAsUser r) (rs_Capabilities r))
  else None.

Definition variantEnv (axes : gmap str str) : list EnvVar := VariantEnv axes.

Definition injected_env (run : BurnInRun) (attempt : Z) (spec : BurnInTestSpec)
    (axes : gmap str str) (rv : option rendezvous) : list EnvVar :=
  [MkEnvVar "BURNIN_DURATION_SECONDS" (Itoa (executionDurationSeconds spec));
   MkEnvVar "BURNIN_ATTEMPT" (Itoa attempt)] ++
  (let limits := resourceLimitsEnv (ts_Resources spec) in
   if String.eqb limits "" then [] else [MkEnvVar "BURNIN_RESOURCE_LIMITS" limits]) ++
  variantEnv axes ++
  match rv with Some rv => rendezvous_env rv (run_Namespace run) | None => [] end.

Definition podLabels (run : BurnInRun) (testName node : str) (attempt : Z) (rv : option rendezvous)
    : gmap str str :=
  let base : gmap str str :=
    <[labelRun := run_Name run]> (<[labelTest := testName]>
      (<[labelNode := node]> {[ labelAttempt := Itoa attempt ]})) in
  match rv with
  | None => base
  | Some rv =>
      if String.eqb (rv_scope rv) ScopeGroup then <[labelRank := Itoa (rv_rank rv)]> base
      else <[labelPairRole := rv_role rv]> base
  end.

Definition podForTest (run : BurnInRun) (testIndex attempt : Z) (testName : str)
    (spec : BurnInTestSpec) (axes : gmap str str) (node vendor : str)
    (targetTolerations : list Toleration) (rv : option rendezvous) : PodTemplate + str :=
  match runnerImage spec vendor with
  | inr e => inr e
  | inl image =>
      let r := default emptyRunner (ts_Runner spec) in
      let hosts := hostPathVolumes (rs_HostPaths r) in
      let preps := prepareVolumesAndContainers (rs_Prepare r) in
      let role := default "" (rv_role <$> rv) in
      inl (MkTemplate
        (podNameForRole run testIndex node attempt role)
        (run_Namespace run)
        (podLabels run testName node attempt rv)
        {[ annotationSafeToEvict := "false" ]}
        image
        (rs_Command r) (rs_Args r)
        (injected_env run attempt spec axes rv ++ rs_Env r)
        (ts_Resources spec)
        (rs_ReadinessProbe r)
        (securityContext r)
        (hosts.*2 ++ preps.*2)
        (hosts.*1 ++ preps.*1.*1)
        (preps.*1.*2)
        {[ labelHostname := node ]}
        (runnerTolerations targetTolerations)
        (ts_HostNetwork spec)
        (priorityClassOf (Some spec))
        (i32 (i32 (executionDurationSeconds spec + deadlineGraceSeconds) + rendezvousGraceSeconds rv))
        (rs_SupplementalGroups r)
        role
        (default "" (rv_service <$> rv))
        (match rv with Some _ => ts_HostNetwork spec | None => false end))
  end.

(** The Service of a rendezvous: headless, its labels also its selector. *)
Record Service := MkService { sv_Name : str; sv_Labels : gmap str str; sv_Selector : gmap str str }.

Definition headlessServiceForRendezvous (run : BurnInRun) (testIndex attempt : Z) (testName : str)
    : Service :=
  let labels : gmap str str :=
    <[labelRun := run_Name run]> (<[labelTest := testName]> {[ labelAttempt := Itoa attempt ]}) in
  MkService (rendezvousServiceName run testIndex attempt) labels labels.

(** The pod object the server stores for a template owned by a run; it has not started. *)
Definition pod_of_template (run : BurnInRun) (t : PodTemplate) : Pod :=
  MkPod (pp_Name t) (pp_Labels t) [run_UID run] 0 "" PodPending "" "" None [] [].

(** ** Properties *)
Lemma list_first_by {A} (p : A → bool) l :
  match list_first p l with
  | Some x => x ∈ l ∧ p x = true
  | None => ∀ x, x ∈ l → p x = false
  end.
Proof. destruct (list_first p l) eqn:E; [by apply list_first_Some|by apply list_first_None]. Qed.

(** An image the spec pins for every node, declares for this vendor, or, where it declares
    none for this vendor, the kind's default when that is made for this vendor, for any,
    or the node's vendor is unknown. *)
Definition declared_for (runner : option RunnerSpec) (vendor i : str) : Prop :=
  i ≠ "" ∧ MkVendorImage vendor i ∈ vendor_images runner.

Definition default_fits (kind : TestKind) (vendor i : str) : Prop :=
  ∃ e, default_image kind = Some e ∧ im_Ref e = i ∧
       (im_Vendor e = VendorAny ∨ vendor = "" ∨ im_Vendor e = vendor).

Definition image_allowed (kind : TestKind) (runner : option RunnerSpec) (vendor i : str) : Prop :=
  pinned_image runner = Some i ∨
  (pinned_image runner = None ∧
   (declared_for runner vendor i ∨
    (∀ i', ¬ declared_for runner vendor i') ∧ default_fits kind vendor i)).

Lemma vendor_image_spec runner vendor :
  match vendor_image runner vendor with
  | Some i => declared_for runner vendor i
  | None => ∀ i, ¬ declared_for runner vendor i
  end.
Proof.
  unfold vendor_image, declared_for.
  pose proof (list_first_by (λ vi, String.eqb (vi_Vendor vi) vendor && negb (String.eqb (vi_Image vi) ""))
    (vendor_images runner)) as H.
  destruct (list_first _ _) as [[v i]|]; cbn in *.
  - destruct H as [Hin [->%String.eqb_eq Hne]%andb_true_iff].
    apply negb_true_iff, String.eqb_neq in Hne. done.
  - intros i [Hne Hin]. specialize (H _ Hin). cbn in H.
    rewrite String_eqb_refl in H. by apply negb_false_iff, String.eqb_eq in H.
Qed.

Lemma default_for_spec kind vendor :
  match default_for kind vendor with
  | Some i => default_fits kind vendor i
  | None => ∀ i, ¬ default_fits kind vendor i
  end.
Proof.
  unfold default_for, default_fits. destruct (default_image kind) as [e|]; cbn; [|naive_solver].
  destruct (String.eqb_spec (im_Vendor e) VendorAny), (String.eqb_spec vendor ""),
    (String.eqb_spec (im_Vendor e) vendor); cbn; naive_solver.
Qed.

Lemma Resolve_allowed kind runner vendor :
  match Resolve kind runner vendor with
  | inl i => image_allowed kind runner vendor i
  | inr _ => ∀ i, ¬ image_allowed kind runner vendor i
  end.
Proof.
  unfold Resolve, image_allowed.
  pose proof (vendor_image_spec runner vendor) as Hv. pose proof (default_for_spec kind vendor) as Hd.
  destruct (pinned_image runner) as [p|]; [by left|].
  destruct (vendor_image runner vendor) as [v|]; [by right; split; [|left]|].
  destruct (default_for kind vendor) as [d|]; [right; split; [done|by right]|].
  intros i [?|[_ [H|[_ H]]]]; [done|by apply Hv in H|by apply Hd in H].
Qed.

(** The entry that gives a container its value: of two of one name the kubelet keeps the
    last. *)
Definition env_entry (name : str) (env : list EnvVar) : option EnvVar :=
  last (List.filter (λ e, String.eqb (ev_Name e) name) env).

Lemma env_entry_app name env env' :
  env_entry name (env ++ env') =
    match env_entry name env' with Some v => Some v | None => env_entry name env end.
Proof.
  unfold env_entry. rewrite List.filter_app.
  destruct (last (List.filter (λ e, String.eqb (ev_Name e) name) env')) as [e|] eqn:E.
  - by rewrite (last_app_Some _ _ _ (or_introl E)) || (rewrite last_app, E).
  - apply last_None in E. by rewrite E, app_nil_r.
Qed.

Definition podWindow_gap (rv : option rendezvous) : Z :=
  match rv with
  | Some rv => if String.eqb (rv_scope rv) ScopeGroup then 0%Z else schedulingGracePeriod
  | None => schedulingGracePeriod
  end.

(** C22: What every pod of a run is: an image its node's vendor allows, on the node it is
    labelled with, findable by the run's label and past the cordon; killed by the
    kubelet after its whole execution time and no later than the controller gives up
    on it, by exactly the scheduling grace except for a rank of a group; with the
    privileges the spec asks for and no others; and with the spec's own variables over
    the injected ones.  It is refused exactly when no image is allowed. *)
Theorem runner_pod_contract run i a name spec axes node vendor tols rv :
  (0 <= executionDurationSeconds spec < 2147483648 - 420)%Z →
  let r := default emptyRunner (ts_Runner spec) in
  match podForTest run i a name spec axes node vendor tols rv with
  | inr _ => ∀ img, ¬ image_allowed (ts_Kind spec) (ts_Runner spec) vendor img
  | inl pod =>
      image_allowed (ts_Kind spec) (ts_Runner spec) vendor (pp_Image pod) ∧
      (pp_NodeSelector pod !! labelHostname = Some node ∧ pp_Labels pod !! labelNode = Some node ∧
       pp_Labels pod !! labelRun = Some (run_Name run) ∧
       unschedulable_toleration ∈ pp_Tolerations pod) ∧
      ((executionDurationSeconds spec < pp_ActiveDeadline pod)%Z ∧
       (pp_ActiveDeadline pod * second + podWindow_gap rv = podWindow spec)%Z) ∧
      match pp_Security pod with
      | None => rs_Privileged r = false ∧ rs_RunAsUser r = None ∧ rs_Capabilities r = []
      | Some sc => (sc_Privileged sc = Some true ↔ rs_Privileged r = true) ∧
                   sc_RunAsUser sc = rs_RunAsUser r ∧ sc_AddCapabilities sc = rs_Capabilities r
      end ∧
      ∀ n, env_entry n (pp_Env pod) =
           match env_entry n (rs_Env r) with
           | Some v => Some v
           | None => env_entry n (injected_env run a spec axes rv)
           end
  end.
Proof.
  intros Hd r. unfold podForTest, runnerImage. pose proof (Resolve_allowed (ts_Kind spec) (ts_Runner spec) vendor) as Himg.
  destruct (Resolve _ _ _) as [img|e]; [|done].
  split; [exact Himg|]. cbn [pp_NodeSelector pp_Labels pp_Tolerations pp_ActiveDeadline pp_Security pp_Env].
  split; [|split; [|split]].
  - split; [by rewrite lookup_singleton_eq|]. unfold podLabels.
    destruct rv as [rv|]; [destruct (String.eqb _ _)|];
      rewrite ?(lookup_insert_ne _ labelRank), ?(lookup_insert_ne _ labelPairRole) by done;
      (split; [by rewrite !lookup_insert_ne, lookup_insert_eq by done|]);
      (split; [by rewrite lookup_insert_eq|]); unfold runnerTolerations; set_solver.
  - unfold podWindow, podWindow_gap, rendezvousGraceSeconds, deadlineGraceSeconds.
    assert (i32 (Z.quot schedulingGracePeriod second) = 300)%Z as -> by reflexivity.
    rewrite !(i32_small (_ + 120)) by (unfold int32_range; lia).
    destruct rv as [rv|]; [destruct (String.eqb _ _)|]; rewrite i32_small by (unfold int32_range; lia);
      unfold schedulingGracePeriod, second; lia.
  - unfold securityContext. fold r.
    destruct (rs_Privileged r), (rs_RunAsUser r), (rs_Capabilities r); cbn; done.
  - intros n. fold r. apply env_entry_app.
Qed.

Lemma runner_pod_contract_witness :
  (0 <= executionDurationSeconds soak_spec < 2147483648 - 420)%Z ∧
  match podForTest (named_run "r") 0 1 "soak" soak_spec ∅ "node-a" "nvidia" [] None with
  | inr _ => False
  | inl pod =>
      image_allowed (ts_Kind soak_spec) (ts_Runner soak_spec) "nvidia" (pp_Image pod) ∧
      pp_NodeSelector pod !! labelHostname = Some "node-a" ∧
      (executionDurationSeconds soak_spec < pp_ActiveDeadline pod)%Z
  end ∧
  match podForTest (named_run "r") 0 1 "soak" soak_spec ∅ "node-a" "amd" [] None with
  | inr _ => ∀ img, ¬ image_allowed (ts_Kind soak_spec) (ts_Runner soak_spec) "amd" img
  | inl _ => False
  end.
Proof.
  assert (0 <= executionDurationSeconds soak_spec < 2147483648 - 420)%Z as H by (vm_compute; intuition congruence).
  split; [exact H|]. split.
  - pose proof (runner_pod_contract (named_run "r") 0 1 "soak" soak_spec ∅ "node-a" "nvidia" [] None H) as C.
    destruct (podForTest _ _ _ _ _ _ _ _ _ _) as [pod|e] eqn:E; [|vm_compute in E; discriminate E].
    destruct C as (Himg & (Hnode & _) & (Hdl & _) & _).
    split; [exact Himg|]. split; [exact Hnode|exact Hdl].
  - pose proof (runner_pod_contract (named_run "r") 0 1 "soak" soak_spec ∅ "node-a" "amd" [] None H) as C.
    destruct (podForTest _ _ _ _ _ _ _ _ _ _) as [pod|e] eqn:E; [vm_compute in E; discriminate E|exact C].
Defined.
