(* ===== verification/Rendezvous.v ===== *)
(** * Judging an execution of several pods (internal/controller/pair.go, group.go)

    How the reports of a pair's two endpoints, or of a group's ranks, become the one
    result the execution is judged on, and the messages that say who reported what. *)

From S2P Require Import Prelude GoStrings GoFloat GoTime Contract Registry Runner Verdict Group Api.
From S2P Require Import Plan Soak Pods RunPlan Attempt.
From Stdlib Require Import Ascii.
Open Scope stdpp_scope.

(** ** Pairs *)
Definition pairRoleServer : str := "server".
Definition pairRoleClient : str := "client".
Definition rendezvousPollInterval : Z := (5 * second)%Z.

Record pairSide := MkSide {
  sd_role : str;
  sd_node : str;
  sd_pod : str;
  sd_result : option Result;
  sd_condemnedLog : str;
}.

Definition undeclaredSkipBrief : str :=
  "exited 2 without declaring a skip — likely a crashed runner, hardware unjudged".

Definition maxCondemnedLog : nat := 2000.
Definition condemnedLogHeadLines : nat := 10.
Definition condemnedLogTailLines : nat := 10.

Definition newline_str : str := String (chr 10) "".

Definition elide_lines (lines : list str) : list str :=
  if (condemnedLogHeadLines + condemnedLogTailLines <? length lines)%nat then
    list.take condemnedLogHeadLines lines ++
    ["… (" +:+ Itoa (count_of lines - Z.of_nat condemnedLogHeadLines
                     - Z.of_nat condemnedLogTailLines) +:+ " lines omitted) …"] ++
    list.drop (length lines - condemnedLogTailLines) lines
  else lines.

Definition clampCondemnedLog (s : str) : str :=
  truncateAtRune
    (Join (Fields (Join (elide_lines (Split (TrimRight s newline_str) (chr 10))) newline_str)) " ")
    maxCondemnedLog "… (truncated)".

(** [pairSide.summary] *)
Definition side_summary (s : pairSide) : str :=
  match sd_result s with
  | None =>
      let log := TrimSpace (sd_condemnedLog s) in
      if negb (String.eqb log "") then
        sd_role s +:+ " " +:+ sd_node s +:+ " did not report (log before it was condemned: " +:+
        clampCondemnedLog log +:+ ")"
      else sd_role s +:+ " " +:+ sd_node s +:+ " did not report"
  | Some r =>
      let out := sd_role s +:+ " " +:+ sd_node s +:+ " " +:+
                 ToLower (Verdict_string (r_Verdict r)) +:+ " (exit " +:+ Itoa (r_ExitCode r) +:+ ")" in
      let m := TrimSpace (r_Message r) in
      if r_UndeclaredSkip r then
        out +:+ ": " +:+ undeclaredSkipBrief +:+
        (if String.eqb m "" then "" else " [runner said: " +:+ m +:+ "]")
      else out +:+ (if String.eqb m "" then "" else ": " +:+ m)
  end.

Definition pairMessage (server client : pairSide) : str :=
  "pair " +:+ sd_node server +:+ " <-> " +:+ sd_node client +:+
  " (this verdict is about the LINK, not about either endpoint): " +:+
  side_summary server +:+ "; " +:+ side_summary client.

Definition pairVerdict (server client : pairSide) : Verdict * Z :=
  match sd_result server, sd_result client with
  | None, None => (VerdictError, (-1)%Z)
  | Some s, None =>
      match r_Verdict s with
      | VerdictPass => (VerdictError, r_ExitCode s)
      | v => (v, r_ExitCode s)
      end
  | None, Some c => (r_Verdict c, r_ExitCode c)
  | Some s, Some c =>
      match list_first (λ v, bool_decide (r_Verdict c = v) || bool_decide (r_Verdict s = v))
              [VerdictError; VerdictFail; VerdictSkip] with
      | Some v => (v, if bool_decide (r_Verdict c = v) then r_ExitCode c else r_ExitCode s)
      | None => (VerdictPass, r_ExitCode c)
      end
  end.

(** [dedupeStrings] (group.go): first occurrences, in order. *)
Definition dedupeStrings (l : list str) : list str := dedupe_go ∅ l.

Definition side_metrics (s : pairSide) : gmap str str := default ∅ (r_Metrics <$> sd_result s).
Definition side_unmeasurable (s : pairSide) : gmap str bool := default ∅ (r_Unmeasurable <$> sd_result s).
Definition side_invalid (s : pairSide) : list str := default [] (r_InvalidNames <$> sd_result s).

(** The rule for a log that could not be read, applied to the combined result. *)
Definition log_rule (logErr : option str) (spec : BurnInTestSpec) (out : Result) : Result :=
  match logErr with
  | None => out
  | Some e =>
      if bool_decide (r_Verdict out = VerdictPass) && negb (is_nil (ts_Thresholds spec)) &&
         missingThresholdMetric out (ts_Thresholds spec)
      then set_verdict VerdictError
             ("runner logs unavailable (" +:+ e +:+ ") — thresholds cannot be evaluated; no verdict [" +:+
              r_Message out +:+ "]") out
      else out
  end.

Definition combinePair (server client : pairSide) (logErr : option str) (spec : BurnInTestSpec)
    : Result :=
  let metrics := side_metrics client ∪ side_metrics server in
  let unmeasurable :=
    filter (λ kv, metrics !! kv.1 = None)
      ((λ _, true) <$> (side_unmeasurable server ∪ side_unmeasurable client)) in
  let '(verdict, code) := pairVerdict server client in
  log_rule logErr spec
    (MkResult verdict code metrics unmeasurable (pairMessage server client)
       (dedupeStrings (side_invalid server ++ side_invalid client)) [] false).

(** ** Groups *)
Definition groupRootRank : nat := 0.
Definition maxRankLine : nat := 300.
Definition groupMaxNamedRanks : nat := 4.
Definition maxGroupMessage : nat := 4096.

Definition clampRunnerLine (s : str) : str := truncateAtRune (Join (Fields s) " ") maxRankLine "…".

Record groupMember := MkMember {
  gm_rank : Z;
  gm_node : str;
  gm_pod : str;
  gm_result : option Result;
}.

(** [groupMember.summary] *)
Definition member_summary (m : groupMember) : str :=
  match gm_result m with
  | None => "rank " +:+ Itoa (gm_rank m) +:+ " (" +:+ gm_node m +:+ ") did not report"
  | Some r =>
      let out := "rank " +:+ Itoa (gm_rank m) +:+ " (" +:+ gm_node m +:+ ") " +:+
                 ToLower (Verdict_string (r_Verdict r)) +:+ " (exit " +:+ Itoa (r_ExitCode r) +:+ ")" in
      let s := TrimSpace (r_Message r) in
      if r_UndeclaredSkip r then
        out +:+ ": " +:+ undeclaredSkipBrief +:+
        (if String.eqb s "" then "" else " [runner said: " +:+ clampRunnerLine s +:+ "]")
      else out +:+ (if String.eqb s "" then "" else ": " +:+ clampRunnerLine s)
  end.

Definition verdict_key (m : groupMember) : str :=
  match gm_result m with
  | None => "did not report"
  | Some r => ToLower (Verdict_string (r_Verdict r))
  end.

(** At most [groupMaxNamedRanks] entries, and how many more there are. *)
Definition name_some (l : list str) : list str :=
  if (groupMaxNamedRanks <? length l)%nat
  then list.take groupMaxNamedRanks l ++
       ["and " +:+ Itoa (count_of l - Z.of_nat groupMaxNamedRanks) +:+ " more"]
  else l.

Definition message_part (members : list groupMember) (key : str) : str :=
  let lines := member_summary <$> List.filter (λ m, String.eqb (verdict_key m) key) members in
  if (length lines =? length members)%nat && (groupMaxNamedRanks <? length members)%nat then
    "all " +:+ Itoa (count_of members) +:+ " ranks " +:+ key +:+ ", e.g. " +:+ hd "" lines
  else if (groupMaxNamedRanks <? length lines)%nat then
    Itoa (count_of lines) +:+ " ranks " +:+ key +:+ " (" +:+
    Join (list.take groupMaxNamedRanks lines) "; " +:+ ", and " +:+
    Itoa (count_of lines - Z.of_nat groupMaxNamedRanks) +:+ " more)"
  else Join lines "; ".

Definition groupMessage (members : list groupMember) : str :=
  "group of " +:+ Itoa (count_of members) +:+
  " (this verdict is about the COLLECTIVE, not about any one rank)" +:+ ": " +:+
  Join (message_part members <$> sort_strings (dedupe_go ∅ (verdict_key <$> members))) "; ".

Definition reading_entry (rv : RankReading) : str :=
  "rank " +:+ Itoa (rr_Rank rv) +:+ "=" +:+ rr_Value rv.

(** Entries whose value [lead] selects, sorted, before the others, sorted. *)
Definition lead_entries (lead : RankReading → bool) (vals : list RankReading) : str :=
  Join (name_some
    (sort_strings (reading_entry <$> List.filter lead vals) ++
     sort_strings (reading_entry <$> List.filter (λ rv, negb (lead rv)) vals))) ", ".

Definition Combination_string (c : Combination) : str :=
  match c with
  | CombineUnclassified => ""
  | CombineCollective => "Collective"
  | CombineSum => "Sum"
  | CombineMax => "Max"
  | CombineMin => "Min"
  end.

Definition lowest_holder (v : str) (vals : list RankReading) : Z :=
  fold_left (λ kept rv,
    if String.eqb (rr_Value rv) v && ((kept <? 0)%Z || (rr_Rank rv <? kept)%Z)
    then rr_Rank rv else kept) vals (-1)%Z.

Definition disagreement_part (kept : gmap str str) (k : str) (vals : list RankReading) : str :=
  let differs rv := negb (String.eqb (rr_Value rv) (default "" (kept !! k))) in
  match kept !! k with
  | Some v =>
      match CombinationFor k with
      | CombineSum | CombineMax | CombineMin =>
          k +:+ " combined to " +:+ v +:+ " by " +:+ Combination_string (CombinationFor k) +:+
          " across " +:+ lead_entries (λ rv, String.eqb (rr_Value rv) v) vals
      | _ =>
          k +:+ " recorded as " +:+ v +:+ " (rank " +:+ Itoa (lowest_holder v vals) +:+ ") but " +:+
          Join (name_some (sort_strings (reading_entry <$> List.filter differs vals))) ", "
      end
  | None =>
      let unmeasured rv := String.eqb (rr_Value rv) Unmeasurable in
      k +:+ " DROPPED as unmeasurable (" +:+
      (if existsb unmeasured vals then "a rank could not measure it" else "no across-rank rule") +:+
      "; ranks reported " +:+ lead_entries unmeasured vals +:+ ")"
  end.

Definition disagrees (kept : gmap str str) (k : str) (vals : list RankReading) : bool :=
  existsb (λ rv, negb (String.eqb (rr_Value rv) (default "" (kept !! k)))) vals.

Definition disagreementNote (reported : gmap str (list RankReading)) (kept : gmap str str) : str :=
  let keys := sort_strings
    (map_to_list (filter (λ kv, disagrees kept kv.1 kv.2 = true) reported)).*1 in
  let shown := list.take groupMaxNamedRanks keys in
  let parts := (λ k, disagreement_part kept k (default [] (reported !! k))) <$> shown in
  let more := if (groupMaxNamedRanks <? length keys)%nat
    then ["and " +:+ Itoa (count_of keys - Z.of_nat groupMaxNamedRanks) +:+ " more metric(s)"] else [] in
  match keys with
  | [] => ""
  | _ =>
      "ranks DISAGREED about " +:+ Itoa (count_of keys) +:+
      " metric(s), combined by each metric's registered rule: " +:+ Join (parts ++ more) "; " +:+
      ". A per-node reading cannot be attributed to a group — see issue #121"
  end.

Definition clampRankSummaries (s : str) : str :=
  truncateAtRune s maxGroupMessage
    "… (rank detail truncated; see the pods' logs while the run's TTL holds them)".

Definition rankReports (members : list groupMember) : list Rank :=
  (λ m, MkRank (gm_rank m) (gm_node m) (gm_result m)) <$> members.

Definition combineGroup (members : list groupMember) (logErr : option str) (spec : BurnInTestSpec)
    : Result :=
  let c := Combine (rankReports members) in
  let message := clampRankSummaries (groupMessage members) in
  let note := disagreementNote (c_Readings c) (c_Metrics c) in
  log_rule logErr spec
    (MkResult (c_Verdict c) (c_ExitCode c) (c_Metrics c) (c_Unmeasurable c)
       (if String.eqb note "" then message else TrimSpace (message +:+ " [" +:+ note +:+ "]"))
       (c_InvalidNames c) [] false).

(** [groupRendezvous] *)
Definition groupRendezvous (rank : nat) (nodes : list str) (service : str) : rendezvous :=
  MkRendezvous ScopeGroup (groupRole (Z.of_nat rank)) service "" "" (Z.of_nat rank) (count_of nodes)
    (nth groupRootRank nodes "").

Definition pairRendezvous (role service peerRole peerNode : str) : rendezvous :=
  MkRendezvous ScopePair role service peerRole peerNode 0 0 "".

(** ** Properties *)
Definition side_reports (s : pairSide) (v : Verdict) : Prop :=
  ∃ r, sd_result s = Some r ∧ r_Verdict r = v.

Lemma pairVerdict_spec server client :
  let v := (pairVerdict server client).1 in
  let some v := side_reports server v ∨ side_reports client v in
  (v = VerdictPass ↔ side_reports client VerdictPass ∧
     ∀ s, sd_result server = Some s → r_Verdict s = VerdictPass) ∧
  (v = VerdictFail ↔ some VerdictFail ∧ ¬ some VerdictError) ∧
  (v = VerdictSkip ↔ some VerdictSkip ∧ ¬ some VerdictError ∧ ¬ some VerdictFail).
Proof.
  unfold pairVerdict, side_reports.
  destruct (sd_result server) as [s|], (sd_result client) as [c|]; cbn -[decide];
    try (destruct (r_Verdict s) eqn:Es); try (destruct (r_Verdict c) eqn:Ec);
    cbn; naive_solver congruence.
Qed.

Lemma log_rule_facts logErr spec out :
  let out' := log_rule logErr spec out in
  r_Metrics out' = r_Metrics out ∧ r_Unmeasurable out' = r_Unmeasurable out ∧
  (r_Verdict out' = r_Verdict out ∨ r_Verdict out = VerdictPass ∧ r_Verdict out' = VerdictError) ∧
  (r_Verdict out' = VerdictPass ↔ r_Verdict out = VerdictPass ∧
     (logErr = None ∨ missingThresholdMetric out (ts_Thresholds spec) = false)).
Proof.
  unfold log_rule. destruct logErr as [e|]; [|naive_solver].
  case_bool_decide as Hv; cbn; [|naive_solver].
  destruct (ts_Thresholds spec) as [|t l]; cbn [is_nil negb andb]; [naive_solver|].
  destruct (missingThresholdMetric out (t :: l)); cbn; naive_solver.
Qed.

Lemma missingThresholdMetric_false out ths :
  missingThresholdMetric out ths = false ↔
  ∀ th, th ∈ ths → is_Some (r_Metrics out !! t_Metric th) ∨ IsUnmeasurable out (t_Metric th) = true.
Proof.
  unfold missingThresholdMetric. rewrite existsb_false_elem.
  split; intros H th Hth; specialize (H th Hth); revert H; case_bool_decide;
    destruct (IsUnmeasurable out (t_Metric th)); cbn; naive_solver.
Qed.

Lemma pair_unmeasurable_lookup (m m' : gmap str bool) (metrics : gmap str str) k :
  is_set (filter (λ kv, metrics !! kv.1 = None) ((λ _, true) <$> (m ∪ m'))) k = true ↔
  metrics !! k = None ∧ (is_Some (m !! k) ∨ is_Some (m' !! k)).
Proof.
  unfold is_set. destruct (filter _ _ !! k) as [b|] eqn:E; cbn.
  - apply map_lookup_filter_Some in E as [E Hk]. cbn in Hk.
    rewrite lookup_fmap, fmap_Some in E. destruct E as (b' & E & ->).
    apply lookup_union_Some_raw in E. naive_solver.
  - split; [done|]. intros [Hk Hm]. apply map_lookup_filter_None in E. exfalso.
    assert (is_Some ((m ∪ m') !! k)) as [b Hb] by (rewrite lookup_union_is_Some; done).
    destruct E as [E|E].
    + by rewrite lookup_fmap, Hb in E.
    + apply (E true); [by rewrite lookup_fmap, Hb|done].
Qed.

(** C12: What a pair is judged on: the link passes exactly when the client passed, the
    server did not report anything else, and no threshold's number was lost with an
    unreadable log; it fails exactly when an end failed and none erred.  The client's
    measurement wins over the server's, and a name is unmeasurable exactly when an end
    declared it and neither measured it. *)
Theorem combinePair_link server client logErr spec :
  let out := combinePair server client logErr spec in
  let some v := side_reports server v ∨ side_reports client v in
  let measured k := side_metrics client !! k ∪ side_metrics server !! k in
  let declared k := is_Some (side_unmeasurable server !! k) ∨ is_Some (side_unmeasurable client !! k) in
  (r_Verdict out = VerdictPass ↔
     side_reports client VerdictPass ∧
     (∀ s, sd_result server = Some s → r_Verdict s = VerdictPass) ∧
     (logErr = None ∨ ∀ th, th ∈ ts_Thresholds spec →
        is_Some (measured (t_Metric th)) ∨ declared (t_Metric th))) ∧
  (r_Verdict out = VerdictFail ↔ some VerdictFail ∧ ¬ some VerdictError) ∧
  (∀ k, r_Metrics out !! k = measured k) ∧
  (∀ k, IsUnmeasurable out k = true ↔ measured k = None ∧ declared k).
Proof.
  intros out some measured declared. unfold out, combinePair.
  pose proof (pairVerdict_spec server client) as (Hp & Hf & _).
  destruct (pairVerdict server client) as [v code]. cbn [fst] in Hp, Hf.
  set (raw := MkResult _ _ _ _ _ _ _ _).
  destruct (log_rule_facts logErr spec raw) as (Hm & Hu & Hv & Hpass).
  assert (∀ k, r_Metrics raw !! k = measured k) as Hmet by (intros k; apply lookup_union).
  assert (∀ k, IsUnmeasurable raw k = true ↔ measured k = None ∧ declared k) as Hun.
  { intros k. unfold IsUnmeasurable, raw. cbn. rewrite pair_unmeasurable_lookup.
    by rewrite lookup_union. }
  split_and!.
  - rewrite Hpass. cbn [r_Verdict raw] in *. rewrite Hp, missingThresholdMetric_false.
    setoid_rewrite Hmet. setoid_rewrite Hun. split.
    + intros [[Hc Hs] Hl]. split_and!; [done|done|]. destruct Hl as [->|Hl]; [by left|right].
      intros th Hth. destruct (Hl th Hth) as [?|[_ ?]]; auto.
    + intros (Hc & Hs & Hl). split; [done|]. destruct Hl as [->|Hl]; [by left|right].
      intros th Hth. destruct (measured (t_Metric th)) as [x|] eqn:Em; [by left|].
      destruct (Hl th Hth) as [[y Hy]|?]; [congruence|by right].
  - etransitivity; [|exact Hf]. cbn [r_Verdict raw] in Hv. destruct Hv as [->|[-> ->]]; done.
  - intros k. by rewrite Hm.
  - intros k. unfold IsUnmeasurable. rewrite Hu. apply Hun.
Qed.

Lemma group_verdict_members members :
  let v := c_Verdict (Combine (rankReports members)) in
  let some v := ∃ m r, m ∈ members ∧ gm_result m = Some r ∧ r_Verdict r = v in
  (v = VerdictPass ↔
     members ≠ [] ∧ ∀ m, m ∈ members → ∃ r, gm_result m = Some r ∧ r_Verdict r = VerdictPass) ∧
  (v = VerdictFail ↔ some VerdictFail ∧ ¬ some VerdictError).
Proof.
  cbv zeta. rewrite Combine_verdict.
  destruct (group_Verdict_exact (rankReports members)) as (Hp & Hf & _).
  assert (∀ v, (∃ m, m ∈ rankReports members ∧ reports m v) ↔
    ∃ m r, m ∈ members ∧ gm_result m = Some r ∧ r_Verdict r = v) as Hsome.
  { intros v. unfold rankReports, reports. setoid_rewrite list_elem_of_fmap. split.
    - intros (? & (m & -> & Hm) & r & Hr & Hv). by exists m, r.
    - intros (m & r & Hm & Hr & Hv). eexists. split; [by exists m|by exists r]. }
  split.
  - rewrite Hp. unfold rankReports, reports. setoid_rewrite list_elem_of_fmap.
    split; intros [Hne H]; (split; [by destruct members|]).
    + intros m Hm. apply (H (MkRank (gm_rank m) (gm_node m) (gm_result m))). by exists m.
    + intros ? (m & -> & Hm). by apply H.
  - by rewrite Hf, !Hsome.
Qed.

(** What the ranks of [members] say of the metric [k]. *)
Definition rank_measures (members : list groupMember) (k : str) (rank : Z) (v : str) : Prop :=
  ∃ m r, m ∈ members ∧ gm_result m = Some r ∧ r_Metrics r !! k = Some v ∧ rank = gm_rank m.

Definition rank_declares (members : list groupMember) (k : str) : Prop :=
  ∃ m r, m ∈ members ∧ gm_result m = Some r ∧ is_Some (r_Unmeasurable r !! k).

Lemma rankReports_elem members x :
  x ∈ rankReports members ↔ ∃ m, m ∈ members ∧ x = MkRank (gm_rank m) (gm_node m) (gm_result m).
Proof. unfold rankReports. rewrite list_elem_of_fmap. naive_solver. Qed.

(** A metric of the group is elected from what the ranks measured, all of it. *)
Lemma group_metric members k v :
  c_Metrics (Combine (rankReports members)) !! k = Some v →
  ¬ rank_declares members k ∧
  ∃ vals, elected k vals v ∧ ∀ rv, rv ∈ vals ↔ rank_measures members k (rr_Rank rv) (rr_Value rv).
Proof.
  intros H. destruct (Combine_elects _ _ _ H) as (vals & _ & He & Hvals & Hnone). clear H. split.
  - intros (m & r & Hm & Hr & [b Hb]).
    assert (MkRank (gm_rank m) (gm_node m) (gm_result m) ∈ rankReports members) as Hin
      by (apply rankReports_elem; exists m; exact (conj Hm eq_refl)).
    rewrite (Hnone _ r Hin Hr) in Hb. discriminate Hb.
  - exists vals. split; [exact He|]. intros rv. rewrite Hvals. unfold rank_measures.
    setoid_rewrite rankReports_elem. split.
    + intros (? & r & (m & Hm & ->) & Hr & Hv & Hk). exists m, r. exact (conj Hm (conj Hr (conj Hv Hk))).
    + intros (m & r & Hm & Hr & Hv & Hk). exists (MkRank (gm_rank m) (gm_node m) (gm_result m)), r.
      split; [exists m; exact (conj Hm eq_refl)|]. exact (conj Hr (conj Hv Hk)).
Qed.

Lemma omap_elem {A B} (f : A → option B) l : omap f l ≠ [] ↔ ∃ x, x ∈ l ∧ is_Some (f x).
Proof.
  split.
  - intros Hne. destruct (omap f l) as [|b l'] eqn:E; [done|].
    assert (b ∈ omap f l) as Hb by (rewrite E; apply list_elem_of_here).
    apply list_elem_of_omap in Hb as (x & Hx & Hb). by exists x.
  - intros (x & Hx & [b Hb]) Hnil. by rewrite (proj1 (omap_nil f l) Hnil x Hx) in Hb.
Qed.

Lemma ranks_measured members k :
  omap (rank_measured k) (rev (rankReports members)) ≠ [] ↔ ∃ rank v, rank_measures members k rank v.
Proof.
  rewrite omap_elem. unfold rank_measures. split.
  - intros (x & Hx & [rv Hrv]). apply list_elem_of_In, in_rev, list_elem_of_In, rankReports_elem in Hx.
    destruct Hx as (m & Hm & ->). apply rank_measured_Some in Hrv as (r & Hr & Hv & Hk).
    exists (gm_rank m), (rr_Value rv), m, r. exact (conj Hm (conj Hr (conj Hv eq_refl))).
  - intros (rank & v & m & r & Hm & Hr & Hv & ->). exists (MkRank (gm_rank m) (gm_node m) (gm_result m)).
    split.
    + apply list_elem_of_In. rewrite <-in_rev. apply list_elem_of_In, rankReports_elem. exists m. exact (conj Hm eq_refl).
    + exists (MkRankReading (gm_rank m) v). apply rank_measured_Some. exists r. exact (conj Hr (conj Hv eq_refl)).
Qed.

Lemma ranks_declared members k :
  omap (rank_declared k) (rankReports members) ≠ [] ↔ rank_declares members k.
Proof.
  rewrite omap_elem. unfold rank_declares, rank_declared. split.
  - intros (x & Hx & [rv Hrv]). apply rankReports_elem in Hx as (m & Hm & ->). cbn in Hrv.
    destruct (gm_result m) as [r|] eqn:Hr; [|discriminate Hrv]. cbn in Hrv.
    destruct (r_Unmeasurable r !! k) as [b|] eqn:Ek; [|discriminate Hrv].
    exists m, r. split; [exact Hm|]. split; [exact Hr|]. rewrite Ek. by exists b.
  - intros (m & r & Hm & Hr & [b Hb]). exists (MkRank (gm_rank m) (gm_node m) (gm_result m)).
    split; [apply rankReports_elem; exists m; exact (conj Hm eq_refl)|]. cbn. rewrite Hr. cbn. rewrite Hb. by eexists.
Qed.

(** No answer of a rank is lost: what it measured or declared is one or the other. *)
Lemma group_answers members k :
  let c := Combine (rankReports members) in
  (is_Some (c_Metrics c !! k) ∨ is_set (c_Unmeasurable c) k = true ↔
     rank_declares members k ∨ ∃ rank v, rank_measures members k rank v) ∧
  ¬ (is_Some (c_Metrics c !! k) ∧ is_set (c_Unmeasurable c) k = true).
Proof.
  cbv zeta. destruct (Combine_key (rankReports members) k) as (_ & Hm & Hu).
  unfold is_set. rewrite Hm, Hu, <-(ranks_measured members k), <-(ranks_declared members k).
  clear Hm Hu. unfold readings_of.
  destruct (omap (rank_measured k) _) as [|rv l]; cbn [app].
  - cbn [Elect]. split; [|by intros [[] _]]. destruct (omap (rank_declared k) _); cbn.
    + split; [by intros [[]|]|by intros [[]|[]]].
    + split; [by left|by right].
  - destruct (Elect k _) as [v|].
    + split; [|by intros [_ ?]]. split; [by right|left; by exists v].
    + split; [|by intros [[] _]]. split; by right.
Qed.

(** C11: What a group is judged on: it passes exactly when there are ranks, every one of
    them passed, and no threshold's number was lost with an unreadable log; it fails
    exactly when a rank failed and none erred.  Each of its metrics is elected, by the
    rule its name registers, from every value the ranks measured and nothing else, and
    no rank declared it; and each name a rank measured or declared, and no other, is
    either among its metrics or declared unmeasurable, never both. *)
Theorem combineGroup_collective members logErr spec :
  let out := combineGroup members logErr spec in
  let some v := ∃ m r, m ∈ members ∧ gm_result m = Some r ∧ r_Verdict r = v in
  (r_Verdict out = VerdictPass ↔
     members ≠ [] ∧ (∀ m, m ∈ members → ∃ r, gm_result m = Some r ∧ r_Verdict r = VerdictPass) ∧
     (logErr = None ∨ ∀ th, th ∈ ts_Thresholds spec →
        is_Some (r_Metrics out !! t_Metric th) ∨ IsUnmeasurable out (t_Metric th) = true)) ∧
  (r_Verdict out = VerdictFail ↔ some VerdictFail ∧ ¬ some VerdictError) ∧
  (∀ k v, r_Metrics out !! k = Some v →
     ¬ rank_declares members k ∧
     ∃ vals, elected k vals v ∧ ∀ rv, rv ∈ vals ↔ rank_measures members k (rr_Rank rv) (rr_Value rv)) ∧
  (∀ k, is_Some (r_Metrics out !! k) ∨ IsUnmeasurable out k = true ↔
     rank_declares members k ∨ ∃ rank v, rank_measures members k rank v) ∧
  (∀ k, ¬ (is_Some (r_Metrics out !! k) ∧ IsUnmeasurable out k = true)).
Proof.
  intros out some. unfold out, combineGroup. set (raw := MkResult _ _ _ _ _ _ _ _).
  destruct (log_rule_facts logErr spec raw) as (Hm & Hu & Hv & Hpass).
  destruct (group_verdict_members members) as [Hp Hf].
  split_and!.
  - rewrite Hpass, missingThresholdMetric_false. unfold IsUnmeasurable. rewrite Hm, Hu.
    cbn [r_Verdict raw] in *. rewrite Hp. tauto.
  - etransitivity; [|exact Hf]. cbn [r_Verdict raw] in *. destruct Hv as [->|[-> ->]]; done.
  - intros k v. rewrite Hm. apply group_metric.
  - intros k. unfold IsUnmeasurable. rewrite Hm, Hu. apply group_answers.
  - intros k. unfold IsUnmeasurable. rewrite Hm, Hu. apply group_answers.
Qed.
