(* ===== verification/Artifacts.v ===== *)
(** * internal/controller/artifacts.go: the evidence a run keeps

    Payloads a runner fenced in its output, stored in the run's ConfigMap under a key per
    pod and name and within a budget, and the references to them in the results. *)

From S2P Require Import Prelude GoStrings GoFloat GoTime GoSha256 Contract Registry Runner Verdict Api Plan.
From S2P Require Import Soak Pods RunPlan Attempt Effects World.
From Stdlib Require Import Ascii.
Open Scope stdpp_scope.

(** ** The ConfigMap *)
Definition maxArtifactBytes : Z := MaxArtifactBytes.
Definition maxRunArtifactBytes : Z := (900 * 1024)%Z.

Definition artifactConfigMapName (run : BurnInRun) : str := run_Name run +:+ "-artifacts".

Definition len (s : str) : Z := Z.of_nat (String.length s).

Definition entries_bytes (m : gmap str str) : Z :=
  map_fold (λ k v n, (n + (len k + len v))%Z) 0%Z m.

Definition configMapBytes (cm : ConfigMap) : Z :=
  (entries_bytes (cm_Data cm) + entries_bytes (cm_BinaryData cm))%Z.

Definition setArtifactData (cm : ConfigMap) (key payload : str) : ConfigMap :=
  if ValidString payload
  then MkConfigMap (<[key := payload]> (cm_Data cm)) (delete key (cm_BinaryData cm))
  else MkConfigMap (delete key (cm_Data cm)) (<[key := payload]> (cm_BinaryData cm)).

Definition key_char (c : ascii) : bool :=
  is_lower c || is_upper c || is_digit c || Ascii.eqb c "-" || Ascii.eqb c "_" || Ascii.eqb c ".".

Definition validConfigMapKey (s : str) : bool :=
  negb (String.eqb s ".") && negb (String.eqb s "..") && all_chars key_char s.

Definition artifactKey (testName podName artifactName : str) : str + str :=
  if String.eqb artifactName "" then inr "the artifact has no name"
  else if negb (validConfigMapKey artifactName) then
    inr ("the runner's artifact name " +:+ quote artifactName +:+
         " is not usable as a ConfigMap key (alphanumerics, '-', '_' and '.' only)")
  else
    let key := testName +:+ "." +:+ podName +:+ "." +:+ artifactName in
    if (253 <? len key)%Z
    then inr ("the artifact's key would be " +:+ Itoa (len key) +:+ " bytes, over the 253-byte limit")
    else inl key.

(** ** Storing *)
Definition dropped_ref (a : Artifact) (reason : str) : ArtifactRef :=
  MkArtifactRef (a_Name a) (a_MediaType a) (a_SizeBytes a) "" "" "" reason.

Definition dropAll (artifacts : list Artifact) (reason : str) : list ArtifactRef :=
  (λ a, dropped_ref a (if String.eqb (a_Dropped a) "" then reason else a_Dropped a)) <$> artifacts.

Record storing := MkStoring {
  sg_cm : ConfigMap;
  sg_used : Z;
  sg_refs : list ArtifactRef;
  sg_wrote : bool;
}.

(** Why an artifact is not kept, or the key it goes under. *)
Definition placement (used : Z) (testName podName : str) (a : Artifact) : str + str :=
  if negb (String.eqb (a_Dropped a) "") then inr (a_Dropped a)
  else
    match artifactKey testName podName (a_Name a) with
    | inr e => inr e
    | inl key =>
        if (maxArtifactBytes <? len (a_Payload a))%Z then
          inr ("payload is " +:+ Itoa (len (a_Payload a)) +:+ " bytes, over the " +:+
               Itoa maxArtifactBytes +:+ "-byte per-artifact cap")
        else if (maxRunArtifactBytes <? used + len key + len (a_Payload a))%Z then
          inr ("the run's " +:+ Itoa maxRunArtifactBytes +:+ "-byte artifact budget is exhausted (" +:+
               Itoa used +:+ " used); evidence not kept")
        else inl key
    end.

Definition store_one (cmName testName podName : str) (st : storing) (a : Artifact) : storing :=
  match placement (sg_used st) testName podName a with
  | inr why => MkStoring (sg_cm st) (sg_used st) (sg_refs st ++ [dropped_ref a why]) (sg_wrote st)
  | inl key =>
      MkStoring (setArtifactData (sg_cm st) key (a_Payload a))
        (sg_used st + (len key + len (a_Payload a)))
        (sg_refs st ++ [MkArtifactRef (a_Name a) (a_MediaType a) (a_SizeBytes a) (a_Digest a)
                          cmName key ""])
        true
  end.

Definition downgrade (reason : str) (r : ArtifactRef) : ArtifactRef :=
  if String.eqb (ar_Dropped r) ""
  then MkArtifactRef (ar_Name r) (ar_MediaType r) (ar_SizeBytes r) "" "" "" reason else r.

Definition writeConfigMap (fresh : bool) (name : str) (cm : ConfigMap) : M () :=
  call name (λ w,
    match w_configmaps w !! name, fresh with
    | Some _, true => (inr AlreadyExists, w)
    | None, false => (inr NotFound, w)
    | _, _ => (inl tt, set_w_configmaps (<[name := cm]> (w_configmaps w)) w)
    end).

(** [upsertConfigMap]: created when it was not there to read, updated otherwise. *)
Definition upsertConfigMap (fresh : bool) (name : str) (cm : ConfigMap) : M () :=
  writeConfigMap fresh name cm.

Definition store_into (run : BurnInRun) (fresh : bool) (cm : ConfigMap) (testName podName : str)
    (artifacts : list Artifact) : M (list ArtifactRef) :=
  let cmName := artifactConfigMapName run in
  let st := fold_left (store_one cmName testName podName) artifacts
              (MkStoring cm (configMapBytes cm) [] false) in
  if negb (sg_wrote st) then mret (sg_refs st)
  else
    r ← try (upsertConfigMap fresh cmName (sg_cm st));
    match r with
    | inl _ => mret (sg_refs st)
    | inr e => mret (downgrade ("could not write " +:+ cmName +:+ ": " +:+ er_text e) <$> sg_refs st)
    end.

Definition storeArtifacts (run : BurnInRun) (testName podName : str) (artifacts : list Artifact)
    : M (list ArtifactRef) :=
  match artifacts with
  | [] => mret []
  | _ =>
      let cmName := artifactConfigMapName run in
      r ← try (read cmName (λ w, w_configmaps w !! cmName));
      match r with
      | inl cm => store_into run false cm testName podName artifacts
      | inr e =>
          if IsNotFound e then store_into run true (MkConfigMap ∅ ∅) testName podName artifacts
          else mret (dropAll artifacts ("could not read " +:+ cmName +:+ ": " +:+ er_text e))
      end
  end.

(** ** Recording *)
Definition artifactIdentity (a : ArtifactRef) : str :=
  if negb (String.eqb (ar_Key a) "") then "k/" +:+ ar_Key a
  else "d/" +:+ ar_Name a +:+ nul +:+ ar_Dropped a.

Fixpoint record_refs (seen : gset str) (kept refs : list ArtifactRef) : list ArtifactRef :=
  match refs with
  | [] => kept
  | a :: refs =>
      if bool_decide (artifactIdentity a ∈ seen) then record_refs seen kept refs
      else record_refs ({[artifactIdentity a]} ∪ seen) (kept ++ [a]) refs
  end.

(** [recordArtifacts] *)
Definition recordArtifacts (res : TestResult) (refs : list ArtifactRef) : TestResult :=
  set_tr_Artifacts
    (record_refs (list_to_set (artifactIdentity <$> tr_Artifacts res)) (tr_Artifacts res) refs) res.

Definition harvestArtifacts (testName : str) (nodes : list str) (podName : str)
    (artifacts : list Artifact) : M () :=
  if is_nil artifacts || String.eqb podName "" then mret tt
  else
    run ← getRun;
    refs ← storeArtifacts run testName podName artifacts;
    modifyRun (λ run,
      match resultIndex run testName (first_node nodes) with
      | Some i =>
          match results run !! i with
          | Some res => set_result i (recordArtifacts res refs) run
          | None => run
          end
      | None => run
      end).

(** ** Properties *)

(** *** Sizes *)
Lemma entries_bytes_insert m k v :
  m !! k = None → entries_bytes (<[k := v]> m) = (entries_bytes m + (len k + len v))%Z.
Proof.
  intros H. unfold entries_bytes. apply (map_fold_insert_L (λ k v n, n + (len k + len v))%Z); [|done].
  intros. lia.
Qed.

Lemma len_nonneg s : (0 <= len s)%Z.
Proof. unfold len. lia. Qed.

Lemma entries_bytes_delete m k : (entries_bytes (delete k m) <= entries_bytes m)%Z.
Proof.
  destruct (m !! k) as [v|] eqn:E; [|by rewrite delete_id].
  rewrite <-(insert_delete_id m k v) at 2 by done.
  rewrite entries_bytes_insert by apply lookup_delete_eq.
  pose proof (len_nonneg k). pose proof (len_nonneg v). lia.
Qed.

Lemma entries_bytes_put m k v : (entries_bytes (<[k := v]> m) <= entries_bytes m + (len k + len v))%Z.
Proof.
  rewrite <-insert_delete_eq, entries_bytes_insert by apply lookup_delete_eq.
  pose proof (entries_bytes_delete m k). lia.
Qed.

Lemma setArtifactData_bytes cm key payload :
  (configMapBytes (setArtifactData cm key payload) <= configMapBytes cm + (len key + len payload))%Z.
Proof.
  unfold setArtifactData, configMapBytes. case_match; cbn [cm_Data cm_BinaryData];
    [pose proof (entries_bytes_put (cm_Data cm) key payload);
       pose proof (entries_bytes_delete (cm_BinaryData cm) key)
    |pose proof (entries_bytes_put (cm_BinaryData cm) key payload);
       pose proof (entries_bytes_delete (cm_Data cm) key)]; lia.
Qed.

(** *** What a ConfigMap holds under a key *)
Definition holds (cm : ConfigMap) (key payload : str) : Prop :=
  cm_Data cm !! key = Some payload ∧ cm_BinaryData cm !! key = None ∨
  cm_Data cm !! key = None ∧ cm_BinaryData cm !! key = Some payload.

Lemma setArtifactData_holds cm key payload : holds (setArtifactData cm key payload) key payload.
Proof.
  unfold setArtifactData, holds. case_match; cbn; rewrite lookup_insert_eq, lookup_delete_eq; auto.
Qed.

Lemma setArtifactData_other cm key payload k p :
  k ≠ key → holds cm k p → holds (setArtifactData cm key payload) k p.
Proof.
  intros Hne. unfold setArtifactData, holds.
  case_match; cbn; by rewrite lookup_insert_ne, lookup_delete_ne.
Qed.

(** *** One pass over a pod's artifacts *)
Definition ref_ok (cmName : str) (cm : ConfigMap) (a : Artifact) (r : ArtifactRef) : Prop :=
  ar_Name r = a_Name a ∧ ar_MediaType r = a_MediaType a ∧ ar_SizeBytes r = a_SizeBytes a ∧
  if String.eqb (ar_Dropped r) "" then
    a_Dropped a = "" ∧ ar_Digest r = a_Digest a ∧ ar_ConfigMap r = cmName ∧
    (len (a_Payload a) <= maxArtifactBytes)%Z ∧ holds cm (ar_Key r) (a_Payload a)
  else ar_ConfigMap r = "" ∧ ar_Key r = "" ∧ ar_Digest r = "".

Definition kept_names (arts : list Artifact) : list str :=
  a_Name <$> List.filter (λ a, String.eqb (a_Dropped a) "") arts.

Definition storing_ok (cmName testName podName : str) (done : list Artifact) (st : storing) : Prop :=
  Forall2 (ref_ok cmName (sg_cm st)) done (sg_refs st) ∧
  (configMapBytes (sg_cm st) <= sg_used st)%Z ∧
  ((configMapBytes (sg_cm st) <= maxRunArtifactBytes)%Z ∧ sg_wrote st = true ∨
   sg_wrote st = false ∧ ∀ r, r ∈ sg_refs st → ar_Dropped r ≠ "") ∧
  (∀ r, r ∈ sg_refs st → ar_Dropped r = "" →
     ∃ n, n ∈ kept_names done ∧ artifactKey testName podName n = inl (ar_Key r)).

Lemma placement_facts used testName podName a :
  match placement used testName podName a with
  | inl key => a_Dropped a = "" ∧ artifactKey testName podName (a_Name a) = inl key ∧
               (len (a_Payload a) <= maxArtifactBytes)%Z ∧
               (used + (len key + len (a_Payload a)) <= maxRunArtifactBytes)%Z
  | inr why => why ≠ ""
  end.
Proof.
  unfold placement. destruct (String.eqb_spec (a_Dropped a) "") as [He|]; cbn [negb]; [|done].
  destruct (artifactKey testName podName (a_Name a)) as [key|e] eqn:Ek.
  - destruct (Z.ltb_spec maxArtifactBytes (len (a_Payload a))); [discriminate|].
    destruct (Z.ltb_spec maxRunArtifactBytes (used + len key + len (a_Payload a))); [discriminate|].
    split_and!; [done|done|done|lia].
  - unfold artifactKey in Ek. repeat case_match; simplify_eq; discriminate.
Qed.

Lemma artifactKey_inj t p n n' k : artifactKey t p n = inl k → artifactKey t p n' = inl k → n = n'.
Proof.
  unfold artifactKey. repeat case_match; try done. intros [= <-] [= Heq].
  by do 4 apply (inj (String.append _)) in Heq.
Qed.

Lemma ref_ok_other cmName cm a r key payload :
  ref_ok cmName cm a r → (ar_Dropped r = "" → ar_Key r ≠ key) →
  ref_ok cmName (setArtifactData cm key payload) a r.
Proof.
  unfold ref_ok. intros (H1 & H2 & H3 & H) Hne. split_and!; [done..|].
  destruct (String.eqb_spec (ar_Dropped r) "") as [E|]; [|done].
  destruct H as (? & ? & ? & ? & ?). split_and!; [done..|]. apply setArtifactData_other; auto.
Qed.

Lemma kept_names_snoc done a :
  kept_names (done ++ [a]) = kept_names done ++ (if String.eqb (a_Dropped a) "" then [a_Name a] else []).
Proof. unfold kept_names. rewrite List.filter_app, fmap_app. cbn. by case_match. Qed.

Lemma store_one_ok cmName testName podName done st a :
  NoDup (kept_names (done ++ [a])) →
  storing_ok cmName testName podName done st →
  storing_ok cmName testName podName (done ++ [a]) (store_one cmName testName podName st a).
Proof.
  rewrite kept_names_snoc. intros Hnd (Hrefs & Hused & Hbudget & Hkeys). unfold store_one, storing_ok.
  pose proof (placement_facts (sg_used st) testName podName a) as Hp.
  rewrite kept_names_snoc.
  destruct (placement _ _ _ a) as [key|why]; cbn [sg_cm sg_refs sg_used sg_wrote].
  - destruct Hp as (Hd & Hk & Hlen & Hroom). rewrite Hd in *. cbn [String.eqb] in *.
    pose proof (setArtifactData_bytes (sg_cm st) key (a_Payload a)) as Hbytes.
    split_and!; [|lia|left; split; [lia|done]|].
    + apply Forall2_app.
      * apply Forall2_same_length_lookup_2; [by apply Forall2_length in Hrefs|].
        intros i a' r Ha Hr. apply ref_ok_other; [by eapply Forall2_lookup_lr|].
        intros Hrd Heq. destruct (Hkeys r) as (n & Hn & Hkn); [by eapply list_elem_of_lookup_2|done|].
        rewrite Heq in Hkn. rewrite (artifactKey_inj _ _ _ _ _ Hkn Hk) in Hn.
        apply NoDup_app in Hnd as (_ & Hdisj & _). apply (Hdisj _ Hn). left.
      * constructor; [|constructor]. split_and!; try done. cbn.
        split_and!; [done|done|done|exact Hlen|apply setArtifactData_holds].
    + intros r [Hr| ->%list_elem_of_singleton]%elem_of_app Hrd.
      * destruct (Hkeys r Hr Hrd) as (n & Hn & Hkn). exists n. split; [|done]. apply elem_of_app. by left.
      * exists (a_Name a). split; [apply elem_of_app; right; left|done].
  - split_and!; [|done| |].
    2: { destruct Hbudget as [?|[? Hno]]; [by left|right]. split; [done|].
         intros r [Hr| ->%list_elem_of_singleton]%elem_of_app; [auto|done]. }
    + apply Forall2_app; [done|]. constructor; [|constructor]. split_and!; try done. cbn.
      by destruct (String.eqb_spec why "").
    + intros r [Hr| ->%list_elem_of_singleton]%elem_of_app Hrd; [|done].
      destruct (Hkeys r Hr Hrd) as (n & Hn & Hkn). exists n. split; [|done]. apply elem_of_app. by left.
Qed.

Lemma kept_names_app l k : kept_names (l ++ k) = kept_names l ++ kept_names k.
Proof. unfold kept_names. by rewrite List.filter_app, fmap_app. Qed.

Lemma store_fold_ok cmName testName podName rest done st :
  NoDup (kept_names (done ++ rest)) → storing_ok cmName testName podName done st →
  storing_ok cmName testName podName (done ++ rest)
    (fold_left (store_one cmName testName podName) rest st).
Proof.
  revert done st. induction rest as [|a rest IH]; intros done st Hnd Hst; [by rewrite app_nil_r|].
  cbn. rewrite cons_middle, (assoc_L (++)) in *. apply IH; [done|]. apply store_one_ok; [|done].
  rewrite kept_names_app in Hnd. by apply NoDup_app in Hnd as [? _].
Qed.

(** The references a run keeps, against what its ConfigMap holds. *)
Definition evidence (cmName : str) (w : world) (arts : list Artifact) (refs : list ArtifactRef) : Prop :=
  Forall2 (λ a r, ∃ cm, (ar_Dropped r = "" → w_configmaps w !! cmName = Some cm) ∧ ref_ok cmName cm a r)
    arts refs.

Definition within_budget (cmName : str) (w : world) : Prop :=
  ∀ cm, w_configmaps w !! cmName = Some cm → (configMapBytes cm <= maxRunArtifactBytes)%Z.

Lemma downgrade_ok cmName cm a r reason :
  reason ≠ "" → ref_ok cmName cm a r →
  ref_ok cmName cm a (downgrade reason r) ∧ ar_Dropped (downgrade reason r) ≠ "".
Proof.
  intros Hne (H1 & H2 & H3 & H). unfold downgrade, ref_ok.
  destruct (String.eqb_spec (ar_Dropped r) "") as [E|E]; cbn.
  - destruct (String.eqb_spec reason ""); done.
  - destruct (String.eqb_spec (ar_Dropped r) ""); done.
Qed.

Lemma writeConfigMap_spec fresh name cm s :
  ∃ r s', writeConfigMap fresh name cm s = (r, s') ∧ s_run s' = s_run s ∧
    (∀ n, n ≠ name → w_configmaps (s_world s') !! n = w_configmaps (s_world s) !! n) ∧
    (w_configmaps (s_world s') !! name = w_configmaps (s_world s) !! name ∨
     w_configmaps (s_world s') !! name = Some cm) ∧
    (r = inl () → w_configmaps (s_world s') !! name = Some cm).
Proof.
  unfold writeConfigMap, call.
  destruct (head (w_faults (s_world s))) as [[| |]|]; cbn;
    destruct (w_configmaps (s_world s) !! name) eqn:E, fresh; cbn;
    (eexists _, _; split; [reflexivity|]; cbn; split; [done|]);
    rewrite ?lookup_insert_eq; (split; [intros n Hn; by rewrite ?lookup_insert_ne|]); (split; [auto|]); first [done|by intros].
Qed.

Lemma store_into_ok run fresh cm testName podName arts s :
  let cmName := artifactConfigMapName run in
  NoDup (kept_names arts) → (configMapBytes cm <= maxRunArtifactBytes)%Z → within_budget cmName (s_world s) →
  ∃ refs s',
    store_into run fresh cm testName podName arts s = (inl refs, s') ∧
    evidence cmName (s_world s') arts refs ∧ within_budget cmName (s_world s') ∧ s_run s' = s_run s ∧
    ∀ n, n ≠ cmName → w_configmaps (s_world s') !! n = w_configmaps (s_world s) !! n.
Proof.
  intros cmName Hnd Hcm Hw. unfold store_into. fold cmName.
  pose proof (store_fold_ok cmName testName podName arts [] (MkStoring cm (configMapBytes cm) [] false)
    Hnd) as Hok. cbn [app] in Hok.
  destruct (fold_left _ arts _) as [cm' used refs wrote]. destruct Hok as (Hrefs & _ & Hbudget & _).
  { split_and!; [constructor|done|right; split; [done|]|]; intros r Hr; by apply elem_of_nil in Hr. }
  cbn [sg_cm sg_refs sg_wrote] in *. destruct wrote; cbn [negb].
  - destruct Hbudget as [[Hb _]|[? _]]; [|done].
    destruct (writeConfigMap_spec fresh cmName cm' s) as (r & s' & Hs' & Hrun & Hother & Hcase & Hland).
    unfold upsertConfigMap, try, mbind, M_bind. rewrite Hs'.
    assert (within_budget cmName (s_world s')) as Hw'.
    { intros c Hc. destruct Hcase as [E|E]; rewrite E in Hc; [by apply Hw|by injection Hc as <-]. }
    destruct r as [[]|e]; eexists _, s'; (split; [reflexivity|]); split_and!; try done.
    + eapply Forall2_impl; [exact Hrefs|]. intros a r Hr. exists cm'. split; [|done].
      intros _. by apply Hland.
    + apply Forall2_fmap_r. eapply Forall2_impl; [exact Hrefs|]. intros a r Hr.
      exists cm'. edestruct downgrade_ok as [H1 H2]; [|exact Hr|split; [|exact H1]]; [discriminate|].
      intros H. by apply H2 in H.
  - destruct Hbudget as [[_ ?]|[_ Hno]]; [done|]. eexists _, s. split; [reflexivity|].
    split_and!; try done. apply Forall2_same_length_lookup_2; [by apply Forall2_length in Hrefs|].
    intros i a r Ha Hr. exists cm'. split; [|by eapply Forall2_lookup_lr].
    intros H. apply Hno in H; [done|]. by eapply list_elem_of_lookup_2.
Qed.

Lemma dropAll_evidence cmName w arts reason : reason ≠ "" → evidence cmName w arts (dropAll arts reason).
Proof.
  intros Hne. unfold evidence, dropAll. apply Forall2_fmap_r, Forall2_same_length_lookup_2; [done|].
  intros i a r Ha Hr. assert (r = a) as -> by congruence. exists (MkConfigMap ∅ ∅). cbn.
  unfold ref_ok. cbn. destruct (String.eqb_spec (a_Dropped a) "") as [E|E]; cbn.
  - destruct (String.eqb_spec reason ""); done.
  - destruct (String.eqb_spec (a_Dropped a) ""); done.
Qed.

(** C17: No reference promises evidence the run does not have: whatever calls fail, storing
    a pod's artifacts, no two of those it kept sharing a name, answers every one of them,
    in order, with either a reference to a key of the run's ConfigMap that holds exactly
    its payload, which is within the budget of one artifact, or a reason it was dropped
    and no key; it touches no other ConfigMap, and one that was within the budget of a
    run stays within it. *)
Theorem stored_evidence run testName podName arts s :
  let cmName := artifactConfigMapName run in
  NoDup (kept_names arts) → within_budget cmName (s_world s) →
  ∃ refs s',
    storeArtifacts run testName podName arts s = (inl refs, s') ∧
    evidence cmName (s_world s') arts refs ∧ within_budget cmName (s_world s') ∧ s_run s' = s_run s ∧
    ∀ n, n ≠ cmName → w_configmaps (s_world s') !! n = w_configmaps (s_world s) !! n.
Proof.
  intros cmName Hnd Hw. destruct arts as [|a arts].
  { exists [], s. split_and!; try done. constructor. }
  unfold storeArtifacts. fold cmName. rewrite try_read_bind.
  destruct (head (w_faults (s_world s))) as [[| |]|]; try rewrite IsNotFound_failure.
  2, 3: eexists _, _; (split; [reflexivity|]); split_and!; [apply dropAll_evidence; discriminate|done..].
  all: change (w_configmaps (s_world (spent s))) with (w_configmaps (s_world s));
    destruct (w_configmaps (s_world s) !! cmName) as [cm|] eqn:E; rewrite ?IsNotFound_NotFound.
  1, 3: apply (store_into_ok run false cm _ _ (a :: arts) (spent s)); [done|by apply Hw|done].
  all: apply (store_into_ok run true (MkConfigMap ∅ ∅) _ _ (a :: arts) (spent s)); [done| |done];
    vm_compute; congruence.
Qed.

(** *** What the references do not survive *)

(** Storing the same payload again, as a pass does whose status write was lost, counts it
    twice: when it no longer fits, the reference says it was not kept although the
    ConfigMap holds it. *)
Lemma restored_evidence_denied run testName podName a key cm s :
  w_faults (s_world s) = [] → a_Dropped a = "" → artifactKey testName podName (a_Name a) = inl key →
  (len (a_Payload a) <= maxArtifactBytes)%Z →
  w_configmaps (s_world s) !! artifactConfigMapName run = Some cm → holds cm key (a_Payload a) →
  (maxRunArtifactBytes < configMapBytes cm + len key + len (a_Payload a))%Z →
  ∃ r, storeArtifacts run testName podName [a] s = (inl [r], s) ∧ ar_Dropped r ≠ "" ∧ ar_Key r = "".
Proof.
  intros Hf Hd Hk Hl Hcm Hh Hbig. unfold storeArtifacts. rewrite try_read_bind, Hf. cbn [head].
  change (w_configmaps (s_world (spent s))) with (w_configmaps (s_world s)). rewrite Hcm.
  unfold store_into. cbn [fold_left]. unfold store_one, placement. cbn [sg_used]. rewrite Hd, Hk.
  cbn [String.eqb negb].
  destruct (Z.ltb_spec maxArtifactBytes (len (a_Payload a))); [lia|].
  destruct (Z.ltb_spec maxRunArtifactBytes (configMapBytes cm + len key + len (a_Payload a))); [|lia].
  cbn. rewrite spent_nil by done. eexists. split; [reflexivity|]. done.
Qed.

(** Two artifacts of one name from one pod share a key: the result keeps the reference of
    the first, with its digest, to the payload of the second. *)
Definition example_artifact (payload : str) : Artifact :=
  MkArtifact "log" "text/plain" payload (len payload) ("sha256:" +:+ hex_encode (Sum256 payload)) "".

Lemma repeated_name_mismatch :
  let arts := [example_artifact "first"; example_artifact "second"] in
  let run := named_run "r" in
  let w := MkWorld 0 None [] ∅ ∅ ∅ ∅ ∅ ∅ ∅ ∅ ∅ ∅ ∅ [] [] (λ _ _, "") [] in
  let '(refs, s') := storeArtifacts run "t" "p" arts (MkSt run ∅ w) in
  match refs with
  | inl refs =>
      (λ r, (ar_Key r, ar_Digest r)) <$> record_refs ∅ [] refs =
        [("t.p.log", a_Digest (example_artifact "first"))]
  | inr _ => False
  end ∧
  (w_configmaps (s_world s') !! "r-artifacts" ≫= λ cm, cm_Data cm !! "t.p.log") = Some "second" ∧
  a_Digest (example_artifact "first") ≠ a_Digest (example_artifact "second").
Proof. vm_compute. split_and!; [reflexivity|reflexivity|discriminate]. Qed.

Lemma stored_evidence_witness :
  let arts := [example_artifact "first"] in
  let run := named_run "r" in
  let w := MkWorld 0 None [] ∅ ∅ ∅ ∅ ∅ ∅ ∅ ∅ ∅ ∅ ∅ [] [] (λ _ _, "") [] in
  NoDup (kept_names arts) ∧
  ∃ refs s', storeArtifacts run "t" "p" arts (MkSt run ∅ w) = (inl refs, s') ∧
             evidence "r-artifacts" (s_world s') arts refs.
Proof.
  intros arts run w.
  assert (NoDup (kept_names arts)) as Hnd by (apply (bool_decide_unpack _); vm_compute; exact I).
  split; [exact Hnd|].
  destruct (stored_evidence run "t" "p" arts (MkSt run ∅ w) Hnd) as (refs & s' & H & He & _).
  { intros cm H. discriminate H. }
  exists refs, s'. split; [exact H|exact He].
Defined.
