(* ===== verification/Engine.v ===== *)
(** * One sweep over a plan (internal/controller/burninrun_controller.go, pair.go, group.go,
    deliver.go, vendor.go)

    How a pass moves every execution of a run forward by one step: what it launches, gates,
    observes, judges and condemns, at Node, Pair and Group scope, and what it keeps holding.
    The handlers run in the monad of World: the busy map is part of the state, so that every
    arm of a sweep sees the nodes the ones before it took. *)

From S2P Require Import Prelude GoStrings GoFloat GoTime Contract Registry Runner Verdict Group Api.
From S2P Require Import Plan Soak Pods RunPlan Attempt Effects World Cordon Admission PodBuild Rendezvous Artifacts.
Open Scope stdpp_scope.

(** The reconciler's configuration: where the fingerprints live, and whether it can read
    pod logs. *)
Class Settings := { FingerprintNamespace : str; hasPodLogs : bool }.

(** ** Results of a handler *)

Inductive advanceState := AdvanceDone | AdvanceRunning | AdvancePending | AdvanceHarvested.

Global Instance advanceState_eq_dec : EqDecision advanceState.
Proof. solve_decision. Defined.

Record advanceEffect := MkEffect {
  ef_dirty : bool;
  ef_checkpointed : bool;
  ef_rendezvous : bool;
  ef_kill : list Pod;
}.

Definition noEffect : advanceEffect := MkEffect false false false [].
Definition dirtied (b : bool) : advanceEffect := MkEffect b false false [].
Definition condemning (pods : list Pod) : advanceEffect := MkEffect true false false pods.

Record passResult := MkPass {
  ps_running : bool;
  ps_pending : bool;
  ps_harvested : bool;
  ps_checkpointed : bool;
  ps_kill : list Pod;
  ps_checkpointEvery : Z;
  ps_awaitingStart : bool;
  ps_dirty : bool;
  ps_rendezvous : bool;
}.

Definition noPass : passResult := MkPass false false false false [] 0 false false false.

(** ** Delivery (deliver.go) *)
Definition PhaseKey (phase : RunPhase) : str :=
  match phase with
  | RunUnset => "" | RunPending => "Pending" | RunRunning => "Running" | RunPassed => "Passed"
  | RunFailed => "Failed" | RunError => "Error" | RunSkipped => "Skipped"
  | RunCancelled => "Cancelled"
  end.

(** Sending one envelope: its outcome is the receiver's. *)
Definition send (sink reason key : str) : M (option str) := λ s,
  let w := s_world s in
  let w' := set_w_sends (tail (w_sends w)) w in
  match head (w_sends w) with
  | Some (Some e) => (inl (Some e), set_s_world w' s)
  | _ => (inl None, set_s_world (emit (EvSent sink reason key) w') s)
  end.

Definition updateSink (name : str) (status : SinkStatus) : M () :=
  call name (λ w,
    match w_sinks w !! name with
    | None => (inr NotFound, w)
    | Some _ => (inl tt, set_w_sinks (<[name := status]> (w_sinks w)) w)
    end).

Definition deliver_one (reason key : str) (allOK : bool) (name : str) : M bool :=
  r ← try (read name (λ w, w_sinks w !! name));
  match r with
  | inr _ => mret false
  | inl status =>
      e ← send name reason key; t ← now;
      try (updateSink name
             match e with
             | Some text => MkSinkStatus (ss_LastDelivery status) text
             | None => MkSinkStatus (Some t) ""
             end) ;;
      mret (allOK && is_unset e)
  end.

(** Whether every sink accepted the envelope. *)
Definition deliver (sinks : list str) (reason key : str) : M bool :=
  fold (deliver_one reason key) true sinks.

Definition deliverPhase (sinks : list str) (phase : RunPhase) : M bool :=
  deliver sinks "RunPhaseChanged" (PhaseKey phase).

Definition deliverTestCompleted (sinks : list str) (key : option str) : M () :=
  match key with
  | None => mret tt
  | Some k => deliver sinks "TestCompleted" k ;; mret tt
  end.

Definition deliverCheckpoint (sinks : list str) (sequence : Z) : M () :=
  deliver sinks "Checkpoint" (Itoa sequence) ;; mret tt.

Section engine.
Context `{cfg : Settings}.

(** ** What an execution reads *)

(** [vendorOf] *)
Definition vendorOf (recorded : str) : str :=
  if String.eqb recorded "unknown" then "" else recorded.

Definition vendorFor (node : str) : M str :=
  if String.eqb node "" || String.eqb FingerprintNamespace "" then mret ""
  else
    r ← try (read node (λ w, w_vendors w !! node));
    mret match r with inl v => vendorOf v | inr _ => "" end.

Definition fetchLogs (pod : Pod) : M logs :=
  w ← world_of;
  mret (if hasPodLogs then default (inl "") (w_logs w !! pod_Name pod) else inl "").

Definition harvest (t : Test) (pod : Pod) : M (Result * option str) :=
  out ← fetchLogs pod; mret (harvestPod t pod out).

(** [pairPod] and one lookup of [groupPods]: [None] when there is no such pod. *)
Definition findPod (name : str) : M (option Pod) :=
  r ← try (getPod name);
  match r with
  | inl pod => mret (Some pod)
  | inr e => if IsNotFound e then mret None else throw e
  end.

(** ** The bookkeeping of Attempt, on the run in hand *)

(** Whether anything changed. *)
Definition begin (t : Test) (nodes : list str) (attempt : Z) (pod : option Pod) : M bool :=
  run ← getRun; n ← now;
  let '(run, _, changed) := beginAttempt n run t nodes attempt pod in
  modifyRun (λ _, run) ;; mret changed.

(** [completeAttempt], with the delivery of a completion. *)
Definition complete (p : plan) (t : Test) (nodes : list str) (attempt : Z) (podName : str)
    (pod : option Pod) (parsed : Result) : M () :=
  run ← getRun; n ← now;
  let '(run, key) := completeAttempt n run t nodes attempt podName pod parsed in
  modifyRun (λ _, run) ;;
  deliverTestCompleted (pl_Sinks p) key.

Definition checkpointPod (t : Test) (node : str) (pod : Pod) : M bool :=
  run ← getRun; n ← now; out ← fetchLogs pod;
  let '(run, wrote) := checkpoint n run t node out in
  modifyRun (λ _, run) ;; mret wrote.

(** [runner.Result{Verdict: VerdictError, Message: message}] *)
Definition errorResult (message : str) : Result :=
  MkResult VerdictError 0 ∅ ∅ message [] [] false.

(** A result recorded for an execution without one more step to take. *)
Definition harvested (p : plan) (t : Test) (nodes : list str) (attempt : Z) (pod : option Pod)
    (parsed : Result) (kill : list Pod) : M (advanceState * advanceEffect) :=
  complete p t nodes attempt (podNameOf pod) pod parsed ;;
  mret (AdvanceHarvested, condemning kill).

Definition ignoreExists (m : M ()) : M () :=
  r ← try m;
  match r with
  | inl _ => mret tt
  | inr e => if IsAlreadyExists e then mret tt else throw e
  end.

(** The pod of one execution of [t] on [node], or why there is none. *)
Definition buildPod (index : Z) (t : Test) (attempt : Z) (node : str) (rv : option rendezvous)
    : M (Pod + str) :=
  run ← getRun;
  vendor ← vendorFor node;
  mret match podForTest run index attempt (te_Name t) (te_Spec t) (te_Axes t) node vendor
               (sp_TargetTolerations (run_Spec run)) rv with
       | inl template => inl (pod_of_template run template)
       | inr e => inr e
       end.

Definition settledResult (res : option TestResult) : bool :=
  match res with Some r => IsTerminal (tr_Phase r) | None => false end.

Definition free_in (busy : gset str) (nodes : list str) : Z :=
  count_of (List.filter (λ n, negb (bool_decide (n ∈ busy))) nodes).

Definition phase_word (pod : Pod) : str :=
  match pod_Phase pod with
  | PodPending => "Pending" | PodRunning => "Running" | PodSucceeded => "Succeeded"
  | PodFailed => "Failed" | PodUnknown => "Unknown"
  end.

(** ** advance: one execution on one node *)
Definition launchNode (p : plan) (index : Z) (t : Test) (node : str) (attempt : Z)
    (launch : bool) (capNodes : Z) : M (advanceState * advanceEffect) :=
  if negb launch then mret (AdvancePending, noEffect)
  else
    busy ← getBusy;
    if negb (bool_decide (node ∈ busy)) && (capNodes <=? Z.of_nat (size busy))%Z
    then mret (AdvancePending, noEffect)
    else
      built ← buildPod index t attempt node None;
      match built with
      | inr e => harvested p t [node] attempt None (errorResult e) []
      | inl pod =>
          cordoned ← cordonNode node (te_Spec t);
          ignoreExists (createPod pod) ;;
          addBusy node ;;
          mret (AdvanceRunning, dirtied cordoned)
      end.

(** The log-fetch rule of a Node-scope execution. *)
Definition unread_log (t : Test) (parsed : Result) (logErr : option str) : Result :=
  match logErr with
  | Some e =>
      if bool_decide (r_Verdict parsed = VerdictPass) && negb (is_nil (ts_Thresholds (te_Spec t))) &&
         missingThresholdMetric parsed (ts_Thresholds (te_Spec t))
      then set_verdict VerdictError
             ("runner logs unavailable (" +:+ e +:+ ") — thresholds cannot be evaluated; no verdict") parsed
      else parsed
  | None => parsed
  end.

Definition observeNode (p : plan) (t : Test) (node : str) (attempt : Z) (pod : Pod)
    : M (advanceState * advanceEffect) :=
  n ← now;
  match podOutcome pod with
  | None =>
      if podOverdue n pod (te_Spec t) then
        harvested p t [node] attempt (Some pod)
          (errorResult ("pod never completed within its window (last phase " +:+
             quote (phase_word pod) +:+ ") — unschedulable target or stuck image pull; no verdict" +:+
             pendingDetail (Some pod))) [pod]
      else if negb (podStarted pod) then mret (AdvanceRunning, noEffect)
      else
        opened ← begin t [node] attempt (Some pod);
        checkpointed ← checkpointPod t node pod;
        mret (AdvanceRunning, MkEffect (opened || checkpointed) checkpointed false [])
  | Some _ =>
      begin t [node] attempt (Some pod) ;;
      h ← harvest t pod;
      let '(parsed, logErr) := h in
      let parsed := unread_log t parsed logErr in
      complete p t [node] attempt (pod_Name pod) (Some pod) parsed ;;
      harvestArtifacts (te_Name t) [node] (pod_Name pod) (r_Artifacts parsed) ;;
      mret (AdvanceHarvested, dirtied true)
  end.

Definition advance (p : plan) (index : Z) (t : Test) (node : str) (launch : bool) (capNodes : Z)
    : M (advanceState * advanceEffect) :=
  run ← getRun;
  let res := resultFor run (te_Name t) node in
  if settledResult res then mret (AdvanceDone, noEffect)
  else
    let attempt := (nextAttempt res).1 in
    found ← findPod (podName run index node attempt);
    match found with
    | None => launchNode p index t node attempt launch capNodes
    | Some pod =>
        when (podLive pod) (addBusy node) ;;
        observeNode p t node attempt pod
    end.

(** ** Pairs (pair.go) *)
Definition panic {A} (what : str) : M A := throw (Errorf ("panic: " +:+ what)).

(** The Service and the first pod of a rendezvous, the whole wave of nodes held first. *)
Definition startRendezvous (p : plan) (index : Z) (attempt : Z) (t : Test) (nodes : list str)
    (launch : bool) (capNodes : Z) (rv : str → rendezvous) : M (advanceState * advanceEffect) :=
  if negb launch then mret (AdvancePending, noEffect)
  else
    busy ← getBusy;
    if (capNodes <? Z.of_nat (size busy) + free_in busy nodes)%Z
    then mret (AdvancePending, noEffect)
    else
      run ← getRun;
      let svc := headlessServiceForRendezvous run index attempt (te_Name t) in
      ignoreExists (createService (sv_Name svc)) ;;
      built ← buildPod index t attempt (first_node nodes) (Some (rv (sv_Name svc)));
      match built with
      | inr e => harvested p t nodes attempt None (errorResult e) []
      | inl pod =>
          cordoned ← cordonWave nodes (te_Spec t);
          ignoreExists (createPod pod) ;;
          iter addBusy nodes ;;
          mret (AdvanceRunning, MkEffect cordoned false true [])
      end.

Definition startPair (p : plan) (index attempt : Z) (t : Test) (serverNode clientNode : str)
    (launch : bool) (capNodes : Z) : M (advanceState * advanceEffect) :=
  startRendezvous p index attempt t [serverNode; clientNode] launch capNodes
    (λ service, pairRendezvous pairRoleServer service pairRoleClient clientNode).

Definition gateClientOnServer (p : plan) (index attempt : Z) (t : Test)
    (serverNode clientNode : str) (serverPod : Pod) (launch : bool)
    : M (advanceState * advanceEffect) :=
  let nodes := [serverNode; clientNode] in
  n ← now;
  match podOutcome serverPod with
  | Some _ =>
      h ← harvest t serverPod;
      let '(parsed, logErr) := h in
      let combined := combinePair
        (MkSide pairRoleServer serverNode (pod_Name serverPod) (Some parsed) "")
        (MkSide pairRoleClient clientNode "" None "") logErr (te_Spec t) in
      complete p t nodes attempt (pod_Name serverPod) (Some serverPod) combined ;;
      harvestArtifacts (te_Name t) nodes (pod_Name serverPod) (r_Artifacts parsed) ;;
      mret (AdvanceHarvested, dirtied true)
  | None =>
      if podOverdue n serverPod (te_Spec t) then
        harvested p t nodes attempt (Some serverPod)
          (errorResult ("the " +:+ pairRoleServer +:+ " endpoint on " +:+ serverNode +:+
             " never became ready within its window (last phase " +:+ quote (phase_word serverPod) +:+
             ") — the client was never started and the link was not measured; no verdict" +:+
             pendingDetail (Some serverPod))) [serverPod]
      else if negb (podStarted serverPod) then mret (AdvanceRunning, MkEffect false false true [])
      else
        opened ← begin t nodes attempt (Some serverPod);
        if negb (podReady serverPod) then mret (AdvanceRunning, MkEffect opened false true [])
        else if negb launch then mret (AdvancePending, dirtied opened)
        else
          run ← getRun;
          built ← buildPod index t attempt clientNode
                    (Some (pairRendezvous pairRoleClient (rendezvousServiceName run index attempt)
                             pairRoleServer serverNode));
          match built with
          | inr e => harvested p t nodes attempt (Some serverPod) (errorResult e) []
          | inl pod =>
              ignoreExists (createPod pod) ;;
              mret (AdvanceRunning, dirtied opened)
          end
  end.

(** The server's side of a pair whose client is done: its report, or its log so far when it
    is still running and about to be condemned. *)
Definition serverSide (t : Test) (serverNode : str) (serverPod : Pod) (logErr : option str)
    : M (pairSide * option str * list Pod) :=
  let side := MkSide pairRoleServer serverNode (pod_Name serverPod) in
  match podOutcome serverPod with
  | Some _ =>
      h ← harvest t serverPod;
      let '(parsed, serverLogErr) := h in
      mret (side (Some parsed) "", match logErr with Some e => Some e | None => serverLogErr end, [])
  | None =>
      out ← fetchLogs serverPod;
      mret (side None match out with inl stdout => stdout | inr _ => "" end, logErr, [serverPod])
  end.

Definition harvestPair (p : plan) (t : Test) (serverNode clientNode : str) (attempt : Z)
    (serverPod clientPod : Pod) : M (advanceState * advanceEffect) :=
  let nodes := [serverNode; clientNode] in
  n ← now;
  match podOutcome clientPod with
  | None =>
      if podOverdue n clientPod (te_Spec t) then
        harvested p t nodes attempt (Some serverPod)
          (errorResult ("the " +:+ pairRoleClient +:+ " endpoint on " +:+ clientNode +:+
             " never completed within its window (last phase " +:+ quote (phase_word clientPod) +:+
             ") — the link was not measured; no verdict" +:+ pendingDetail (Some clientPod)))
          [serverPod; clientPod]
      else
        opened ← begin t nodes attempt (Some serverPod);
        checkpointed ← checkpointPod t clientNode clientPod;
        mret (AdvanceRunning, MkEffect (opened || checkpointed) checkpointed false [])
  | Some _ =>
      begin t nodes attempt (Some serverPod) ;;
      h ← harvest t clientPod;
      let '(clientParsed, clientLogErr) := h in
      sv ← serverSide t serverNode serverPod clientLogErr;
      let '(server, logErr, condemned) := sv in
      let client := MkSide pairRoleClient clientNode (pod_Name clientPod) (Some clientParsed) "" in
      complete p t nodes attempt (pod_Name serverPod) (Some serverPod)
        (combinePair server client logErr (te_Spec t)) ;;
      harvestArtifacts (te_Name t) nodes (pod_Name clientPod) (r_Artifacts clientParsed) ;;
      match sd_result server with
      | Some parsed => harvestArtifacts (te_Name t) nodes (pod_Name serverPod) (r_Artifacts parsed)
      | None => mret tt
      end ;;
      mret (AdvanceHarvested, condemning condemned)
  end.

Definition advancePair (p : plan) (index : Z) (t : Test) (launch : bool) (capNodes : Z)
    : M (advanceState * advanceEffect) :=
  match pl_Targets p with
  | serverNode :: clientNode :: _ =>
      run ← getRun;
      let res := resultFor run (te_Name t) serverNode in
      if settledResult res then mret (AdvanceDone, noEffect)
      else
        let attempt := (nextAttempt res).1 in
        serverPod ← findPod (podNameForRole run index serverNode attempt pairRoleServer);
        clientPod ← findPod (podNameForRole run index clientNode attempt pairRoleClient);
        let live o := match o with Some pod => podLive pod | None => false end in
        when (live serverPod || live clientPod) (iter addBusy [serverNode; clientNode]) ;;
        match serverPod, clientPod with
        | None, _ => startPair p index attempt t serverNode clientNode launch capNodes
        | Some server, None => gateClientOnServer p index attempt t serverNode clientNode server launch
        | Some server, Some client => harvestPair p t serverNode clientNode attempt server client
        end
  | _ => panic "index out of range"
  end.

(** ** Groups (group.go) *)
Definition groupPods (index attempt : Z) (nodes : list str) : M (list (option Pod)) :=
  run ← getRun;
  fold (λ pods rn,
    pod ← findPod (podNameForRole run index rn.2 attempt (groupRole (Z.of_nat rn.1)));
    mret (pods ++ [pod])) [] (imap pair nodes).

Definition startGroup (p : plan) (index attempt : Z) (t : Test) (nodes : list str)
    (launch : bool) (capNodes : Z) : M (advanceState * advanceEffect) :=
  startRendezvous p index attempt t nodes launch capNodes (groupRendezvous groupRootRank nodes).

(** [harvestMembers]: the reports of the ranks that are done, and the first log error. *)
Definition harvestMember (t : Test) (acc : list groupMember * option str)
    (entry : nat * (str * option Pod)) : M (list groupMember * option str) :=
  let '(members, logErr) := acc in
  let '(rank, (node, pod)) := entry in
  match pod with
  | None => mret (members ++ [MkMember (Z.of_nat rank) node "" None], logErr)
  | Some pod =>
      match podOutcome pod with
      | None => mret (members ++ [MkMember (Z.of_nat rank) node (pod_Name pod) None], logErr)
      | Some _ =>
          h ← harvest t pod;
          let '(parsed, e) := h in
          mret (members ++ [MkMember (Z.of_nat rank) node (pod_Name pod) (Some parsed)],
                match logErr with Some _ => logErr | None => e end)
      end
  end.

Definition harvestMembers (t : Test) (nodes : list str) (pods : list (option Pod))
    : M (list groupMember * option str) :=
  fold (harvestMember t) ([], None) (imap pair (zip nodes pods)).

Definition present (pods : list (option Pod)) : list Pod := omap id pods.

Definition anyOverdue (n : Z) (pods : list (option Pod)) (spec : BurnInTestSpec) : bool :=
  existsb (λ pod, podOverdue n pod spec) (present pods).

(** Start the rank's pod unless it is there; a refusal to build it is an error of the test. *)
Definition startRank (index attempt : Z) (t : Test) (nodes : list str) (built : option str)
    (entry : nat * (str * option Pod)) : M (option str) :=
  let '(rank, (node, pod)) := entry in
  match built, pod with
  | Some e, _ => mret (Some e)
  | None, Some _ => mret None
  | None, None =>
      run ← getRun;
      r ← buildPod index t attempt node
            (Some (groupRendezvous rank nodes (rendezvousServiceName run index attempt)));
      match r with
      | inr e => mret (Some e)
      | inl pod => ignoreExists (createPod pod) ;; mret None
      end
  end.

Definition gateWorkersOnRoot (p : plan) (index attempt : Z) (t : Test) (nodes : list str)
    (pods : list (option Pod)) (root : Pod) (launch : bool) : M (advanceState * advanceEffect) :=
  n ← now;
  match podOutcome root with
  | Some _ =>
      h ← harvestMembers t nodes pods;
      let '(members, logErr) := h in
      harvested p t nodes attempt (Some root) (combineGroup members logErr (te_Spec t))
        (present pods)
  | None =>
      if podOverdue n root (te_Spec t) then
        harvested p t nodes attempt (Some root)
          (errorResult ("rank " +:+ Itoa (Z.of_nat groupRootRank) +:+ " (the root) on " +:+
             first_node nodes +:+ " never became ready within its window (last phase " +:+
             quote (phase_word root) +:+ ") — the other " +:+ Itoa (count_of nodes - 1) +:+
             " rank(s) were never started and the collective was not measured; no verdict" +:+
             pendingDetail (Some root))) (present pods)
      else if negb (podStarted root) then mret (AdvanceRunning, MkEffect false false true [])
      else
        opened ← begin t nodes attempt (Some root);
        if negb (podReady root) then mret (AdvanceRunning, MkEffect opened false true [])
        else if negb launch then mret (AdvancePending, dirtied opened)
        else
          failed ← fold (startRank index attempt t nodes) None (tail (imap pair (zip nodes pods)));
          match failed with
          | Some e => harvested p t nodes attempt (Some root) (errorResult e) []
          | None => mret (AdvanceRunning, dirtied opened)
          end
  end.

Definition unfinished (entry : nat * (str * option Pod)) : option str :=
  let '(rank, (node, pod)) := entry in
  if is_unset (pod ≫= podOutcome) then
    let what := if match pod with Some p => podStarted p | None => false end
                then "never finished" else "never started" +:+ pendingDetail pod in
    Some ("rank " +:+ Itoa (Z.of_nat rank) +:+ " (" +:+ node +:+ ") " +:+ what)
  else None.

Definition harvestGroup (p : plan) (t : Test) (nodes : list str) (attempt : Z)
    (pods : list (option Pod)) (root : Pod) : M (advanceState * advanceEffect) :=
  n ← now;
  match omap unfinished (imap pair (zip nodes pods)) with
  | _ :: _ as stillRunning =>
      if anyOverdue n pods (te_Spec t) then
        harvested p t nodes attempt (Some root)
          (errorResult ("the collective did not complete within its window — " +:+
             Itoa (count_of stillRunning) +:+ " of " +:+ Itoa (count_of nodes) +:+
             " rank(s) did not report (" +:+ Join stillRunning ", " +:+
             "); every other rank blocks on a rank that never arrives, so this names the ones that did not; no verdict"))
          (present pods)
      else
        opened ← begin t nodes attempt (Some root);
        checkpointed ← checkpointPod t (first_node nodes) root;
        mret (AdvanceRunning, MkEffect (opened || checkpointed) checkpointed false [])
  | [] =>
      begin t nodes attempt (Some root) ;;
      h ← harvestMembers t nodes pods;
      let '(members, logErr) := h in
      complete p t nodes attempt (pod_Name root) (Some root)
        (combineGroup members logErr (te_Spec t)) ;;
      iter (λ m, match gm_result m with
                 | Some r => harvestArtifacts (te_Name t) nodes (gm_pod m) (r_Artifacts r)
                 | None => mret tt
                 end) members ;;
      mret (AdvanceHarvested, dirtied true)
  end.

Definition advanceGroup (p : plan) (index : Z) (t : Test) (launch : bool) (capNodes : Z)
    : M (advanceState * advanceEffect) :=
  let nodes := pl_Targets p in
  match nodes with
  | [] => panic "index out of range"
  | rootNode :: _ =>
      run ← getRun;
      let res := resultFor run (te_Name t) rootNode in
      if settledResult res then mret (AdvanceDone, noEffect)
      else
        let attempt := (nextAttempt res).1 in
        pods ← groupPods index attempt nodes;
        when (existsb podLive (present pods)) (iter addBusy nodes) ;;
        match pods with
        | Some root :: rest =>
            if existsb is_unset rest
            then gateWorkersOnRoot p index attempt t nodes pods root launch
            else harvestGroup p t nodes attempt pods root
        | _ => startGroup p index attempt t nodes launch capNodes
        end
  end.

(** ** The sweep *)

(** The live pods of the run, as the informer has them. *)
Definition livePods (run : BurnInRun) (pods : list Pod) : list Pod :=
  List.filter (λ pod, ownedBy pod (run_UID run) && podLive pod) pods.

Definition node_label (pod : Pod) : str := default "" (pod_Labels pod !! labelNode).

(** The nodes with a live pod, and whether one has not started. *)
Definition busyNodes : M (gset str * bool) :=
  run ← getRun;
  pods ← listPods;
  let live := livePods run pods in
  mret (list_to_set (node_label <$> live), existsb (λ pod, negb (podStarted pod)) live).

Definition shorter (cp every : Z) : Z :=
  if (0 <? cp)%Z && ((every =? 0)%Z || (cp <? every)%Z) then cp else every.

(** The [apply] closure of [execute]. *)
Definition apply_effect (t : Test) (test : passResult) (r : advanceState * advanceEffect)
    : passResult :=
  let '(state, ef) := r in
  let became s := bool_decide (state = s) in
  MkPass (ps_running test || became AdvanceRunning)
    (ps_pending test || became AdvancePending)
    (ps_harvested test || became AdvanceHarvested)
    (ps_checkpointed test || ef_checkpointed ef)
    (ps_kill test ++ ef_kill ef)
    (if became AdvanceRunning then shorter (checkpointInterval (te_Spec t)) (ps_checkpointEvery test)
     else ps_checkpointEvery test)
    (ps_awaitingStart test)
    (ps_dirty test || ef_dirty ef)
    (ps_rendezvous test || ef_rendezvous ef).

(** What one test's executions add to the pass. *)
Definition merge_pass (out test : passResult) : passResult :=
  MkPass (ps_running out || ps_running test) (ps_pending out || ps_pending test)
    (ps_harvested out || ps_harvested test) (ps_checkpointed out || ps_checkpointed test)
    (ps_kill out ++ ps_kill test)
    (shorter (ps_checkpointEvery test) (ps_checkpointEvery out))
    (ps_awaitingStart out) (ps_dirty out || ps_dirty test) (ps_rendezvous out || ps_rendezvous test).

Definition sweepTest (p : plan) (index : Z) (t : Test) (launch : bool) (capNodes : Z) : M passResult :=
  let one m := r ← m; mret (apply_effect t noPass r) in
  if String.eqb (ts_Scope (te_Spec t)) ScopePair then one (advancePair p index t launch capNodes)
  else if String.eqb (ts_Scope (te_Spec t)) ScopeGroup
  then one (advanceGroup p index t launch capNodes)
  else fold (λ test node,
         r ← advance p index t node launch capNodes; mret (apply_effect t test r))
         noPass (pl_Targets p).

Definition settleTest (p : plan) (t : Test) : M bool :=
  run ← getRun; n ← now;
  match settleWithoutPod n run t with
  | None => mret false
  | Some (run, key) =>
      modifyRun (λ _, run) ;;
      deliverTestCompleted (pl_Sinks p) key ;;
      mret true
  end.

Definition unfinishedPass (test : passResult) : bool :=
  ps_running test || ps_pending test || ps_harvested test.

(** Tests run in plan order, one at a time. *)
Fixpoint sweep (p : plan) (launch : bool) (capNodes : Z) (out : passResult)
    (tests : list (nat * Test)) : M passResult :=
  match tests with
  | [] => mret out
  | (index, t) :: tests =>
      run ← getRun;
      if pl_FailFast p && hasRequiredFailure run p then mret out
      else
        settled ← settleTest p t;
        if settled : bool then sweep p launch capNodes out tests
        else
          test ← sweepTest p (Z.of_nat index) t launch capNodes;
          if unfinishedPass test then mret (merge_pass out test)
          else sweep p launch capNodes (merge_pass out test) tests
  end.

Definition execute (p : plan) (launch : bool) : M passResult :=
  b ← busyNodes;
  let '(busy, awaitingStart) := b in
  run ← getRun;
  putBusy (busy ∪ holdingNodes run) ;;
  out ← sweep p launch (maxConcurrentNodes run)
          (MkPass false false false false [] 0 awaitingStart false false)
          (imap pair (pl_Tests p));
  busy ← getBusy;
  released ← releaseHeldNodes busy;
  mret (merge_pass out (MkPass false false false false [] 0 false released false)).

(** ** After the sweep *)
Definition waitingPollInterval : Z := (30 * second)%Z.

Definition nextWake (n : Z) (run : BurnInRun) (pass : passResult) : Z :=
  let wake := if ps_awaitingStart pass then waitingPollInterval else settledPollInterval in
  let cp := ps_checkpointEvery pass in
  let wake := if (0 <? cp)%Z && (cp <? wake)%Z then cp else wake in
  match st_StartedAt (run_Status run) with
  | Some started =>
      let d := runDeadline run in
      let remaining := (started + d - n)%Z in
      if (0 <? d)%Z && (0 <? remaining)%Z && (remaining <? wake)%Z then remaining else wake
  | None => wake
  end.

(** Deleting what may already be gone. *)
Definition deleteUnlessGone (pod : Pod) : M () :=
  r ← try (deletePod (pod_Name pod));
  match r with
  | inl _ => mret tt
  | inr e => if IsNotFound e then mret tt else throw e
  end.

Definition killPods (pods : list Pod) : M () := iter deleteUnlessGone (List.filter podLive pods).

Definition deleteLivePods : M () :=
  run ← getRun;
  pods ← listPods;
  iter deleteUnlessGone (livePods run pods).

Definition deliverOwedCheckpoint (p : plan) (pass : passResult) : M () :=
  if ps_checkpointed pass then
    run ← getRun; n ← now; deliverCheckpoint (pl_Sinks p) (checkpointSequence n run p)
  else mret tt.

Definition persistPass (p : plan) (pass : passResult) : M requeue :=
  when (ps_dirty pass || ps_harvested pass || ps_checkpointed pass) statusUpdate ;;
  deliverOwedCheckpoint p pass ;;
  run ← getRun; n ← now;
  let wake := nextWake n run pass in
  mret (After (if ps_rendezvous pass && (rendezvousPollInterval <? wake)%Z
               then rendezvousPollInterval else wake)).
End engine.
