(* ===== verification/Lifecycle.v ===== *)
(** * The life of a run (internal/controller/burninrun_controller.go, admission.go)

    From the first reconcile of a run to its deletion: resolving and admitting it, pinning
    its plan, stepping it, stopping it, and converging what a finished or a deleted run
    still owes the cluster.  Conditions carry neither times nor generations, metrics are not
    modelled, and the run a reconcile reads is the one that is stored. *)

From S2P Require Import Prelude GoStrings GoFloat GoTime Contract Registry Runner Verdict Group Api.
From S2P Require Import Plan Soak Pods RunPlan PlanStore Attempt Effects World Cordon Admission PodBuild.
From S2P Require Import Rendezvous Artifacts Engine.
Open Scope stdpp_scope.

Definition resolveGracePeriod : Z := (2 * minute)%Z.
Definition terminalDeliveryRetryInterval : Z := (5 * minute)%Z.

(** ** Edits of the run in hand *)
Definition annotate (k v : str) : M () :=
  modifyRun (λ run, set_run_Annotations (<[k := v]> (run_Annotations run)) run).
Definition unannotate (k : str) : M () :=
  modifyRun (λ run, set_run_Annotations (delete k (run_Annotations run)) run).

(** [controllerutil.AddFinalizer] and [RemoveFinalizer]: whether the run changed. *)
Definition addFinalizer : M bool :=
  run ← getRun;
  if has_finalizer run then mret false
  else
    modifyRun (λ run, set_run_Finalizers (run_Finalizers run ++ [FinalizerCordonCleanup]) run) ;;
    mret true.

Definition without_finalizer (run : BurnInRun) : BurnInRun :=
  set_run_Finalizers
    (List.filter (λ f, negb (String.eqb f FinalizerCordonCleanup)) (run_Finalizers run)) run.

Definition removeFinalizer : M bool :=
  run ← getRun; modifyRun without_finalizer ;; mret (has_finalizer run).

Definition ignoreNotFound (m : M ()) : M () :=
  r ← try m;
  match r with
  | inl _ => mret tt
  | inr e => if IsNotFound e then mret tt else throw e
  end.

(** [nodefingerprint_controller.go]'s clamp: bytes, not runes. *)
Definition clampConditionMessage (s : str) : str :=
  if (String.length s <=? 1024)%nat then s else String.substring 0 1023 s +:+ "…".

(** [meta.SetStatusCondition] *)
Definition setCondition (type : str) (status : bool) (reason message : str) : M () :=
  modifyRun (λ run, set_run_Status
    (set_st_Conditions (<[type := MkCondition status reason message]>
       (st_Conditions (run_Status run))) (run_Status run)) run).

(** ** After the verdict *)
Definition handleTTL : M requeue :=
  run ← getRun; n ← now;
  match sp_TTLSecondsAfterFinished (run_Spec run), st_FinishedAt (run_Status run) with
  | Some ttl, Some finished =>
      if (ttl <=? 0)%Z then mret Stop
      else
        let remaining := (finished + ttl * second - n)%Z in
        if (0 <? remaining)%Z then mret (After remaining)
        else ignoreNotFound deleteRun ;; mret Stop
  | _, _ => mret Stop
  end.

(** Stop the load, then hand the nodes back, and record that they were. *)
Definition standDown : M () :=
  deleteLivePods ;;
  released ← releaseCordons;
  when released statusUpdate.

(** The end of [terminate]: deliver, then let the finalizer go. *)
Definition wrapUp (sinks : list str) (phase : RunPhase) : M requeue :=
  delivered ← deliverPhase sinks phase;
  when delivered (unannotate pendingDeliveryAnnotation ;; updateKeepingStatus) ;;
  removed ← removeFinalizer;
  when removed updateKeepingStatus ;;
  if delivered : bool then handleTTL else mret (After terminalDeliveryRetryInterval).

Definition terminate (sinks : list str) (phase : RunPhase) : M requeue :=
  n ← now;
  modifyRun (terminal_status n phase) ;;
  statusUpdate ;;
  annotate pendingDeliveryAnnotation (PhaseKey phase) ;;
  updateKeepingStatus ;;
  standDown ;;
  wrapUp sinks phase.

Definition finalize (p : plan) : M requeue :=
  run ← getRun; terminate (pl_Sinks p) (final_phase run p).

(** A synthetic result: no kind, no scope, no nodes. *)
Definition appendSynthetic (name message : str) : M () :=
  n ← now;
  modifyRun (λ run, set_results (results run ++ [bareResult n name "" "" RunError message]) run).

Definition finalizeError (sinks : list str) (cause : str) : M requeue :=
  appendSynthetic SyntheticResultResolve cause ;;
  terminate sinks RunError.

Section lifecycle.
Context `{codec : PlanCodec} `{cfg : Settings}.

(** ** A finished run *)
Definition redeliver : M requeue :=
  run ← getRun;
  match run_Annotations run !! pendingDeliveryAnnotation with
  | None => handleTTL
  | Some phase =>
      match loadPlan run with
      | Some (inl p) =>
          delivered ← deliver (pl_Sinks p) "RunPhaseChanged" phase;
          if delivered : bool then unannotate pendingDeliveryAnnotation ;; update ;; handleTTL
          else mret (After terminalDeliveryRetryInterval)
      | _ => unannotate pendingDeliveryAnnotation ;; update ;; handleTTL
      end
  end.

Definition reconcileTerminal : M requeue :=
  run ← getRun;
  when (has_finalizer run) (
    standDown ;;
    removeFinalizer ;;
    updateKeepingStatus) ;;
  redeliver.

Definition reconcileDeleted : M requeue :=
  run ← getRun;
  if negb (has_finalizer run) then mret Stop
  else
    deleteLivePods ;;
    releaseCordons ;;
    removeFinalizer ;;
    ignoreNotFound update ;;
    mret Stop.

(** ** Stopping a run *)
Definition cancelReason (run : BurnInRun) : str :=
  if String.eqb (sp_CancelReason (run_Spec run)) "" then "cancelled with no reason given"
  else sp_CancelReason (run_Spec run).

Definition cancelling (run : BurnInRun) : str :=
  default "" (run_Annotations run !! cancellingAnnotation).

Definition finishCancel (p : plan) (message : str) : M requeue :=
  n ← now;
  modifyRun (λ run, settleRemaining n run p RunCancelled message) ;;
  terminate (pl_Sinks p) RunCancelled.

Definition cancel (p : plan) : M requeue :=
  run ← getRun;
  when (String.eqb (cancelling run) "")
    (annotate cancellingAnnotation (cancelReason run) ;; updateKeepingStatus) ;;
  run ← getRun;
  let message := "run cancelled: " +:+ cancelling run in
  pass ← execute p false;
  if bool_decide (sp_CancelPolicy (run_Spec run) = CancelImmediate) then finishCancel p message
  else if ps_running pass then persistPass p pass
  else if ps_harvested pass || ps_dirty pass then
    statusUpdate ;; deliverOwedCheckpoint p pass ;; mret Again
  else finishCancel p message.

Definition expire (p : plan) : M requeue :=
  run ← getRun; n ← now;
  let message := "run deadline of " +:+ Itoa (default 0%Z (sp_DeadlineSeconds (run_Spec run))) +:+
    "s expired before this execution completed — the hardware was not judged" in
  modifyRun (λ run, settleRemaining n run p RunError message) ;;
  terminate (pl_Sinks p) RunError.

(** ** A running run *)
Definition step (p : plan) : M requeue :=
  run ← getRun; n ← now;
  if cancelRequested run || negb (String.eqb (cancelling run) "") then cancel p
  else if deadlineExceeded n run then expire p
  else
    pass ← execute p (negb (suspended run));
    if ps_running pass || ps_pending pass then persistPass p pass
    else if ps_harvested pass then
      statusUpdate ;;
      killPods (ps_kill pass) ;;
      deliverOwedCheckpoint p pass ;;
      mret Again
    else if suspended run then
      run ← getRun; mret (After (nextWake n run noPass))
    else finalize p.

(** ** Starting a run *)
Definition fingerprint_of (node : Node) : str :=
  Join (["kernel=" +:+ nd_Kernel node; "os=" +:+ nd_OS node; "arch=" +:+ nd_Arch node] ++
        omap (λ k, (λ v, k +:+ "=" +:+ v) <$> nd_Labels node !! k)
          ["nvidia.com/gpu.product"; "glimmer.ai/gpu-arch"; "glimmer.ai/hw-class"]) " ".

Definition captureFingerprint (targets : list str) : M (gmap str str) :=
  fold (λ fp name,
    r ← try (getNode name);
    mret (<[name := match r with
                    | inl node => fingerprint_of node
                    | inr _ => "node object unavailable at run start"
                    end]> fp)) ∅ targets.

Definition soundMessage : str :=
  "every threshold in this run's pinned plan is a gate this operator can vouch for as a form of comparison. That is not a claim about its NUMBER: whether a bound is calibrated for the hardware is measured, not linted.".

Definition applyThresholdsSoundCondition (p : plan) : M () :=
  match unsoundThresholds p with
  | [] => setCondition "ThresholdsSound" true "Reviewed" soundMessage
  | advice => setCondition "ThresholdsSound" false "UnsoundThresholds"
                (clampConditionMessage (summariseThresholdAdvice advice))
  end.

Definition applyPlanExpandedCondition (p : plan) : M () :=
  run ← getRun;
  let sum := plan_variantSummary p in
  if is_nil (vs_Expanded sum) then mret tt
  else
    setCondition "PlanExpanded" true "VariantsExpanded" (clampConditionMessage
      ("variants expanded " +:+ Itoa (vs_Entries sum) +:+ " profile entries into " +:+
       Itoa (vs_Executions sum) +:+ " executions (" +:+ Join (vs_Expanded sum) ", " +:+
       "). Across " +:+ Itoa (count_of (pl_Targets p)) +:+ " target nodes that is " +:+
       Itoa (vs_Executions sum * count_of (pl_Targets p)) +:+
       " node-executions; at maxConcurrentNodes " +:+ Itoa (maxConcurrentNodes run) +:+
       " they are not all concurrent. This arithmetic is not visible in the profile, which is why it is stated here rather than discovered by waiting.")).

Definition markRunning (p : plan) : M requeue :=
  added ← addFinalizer;
  when added updateKeepingStatus ;;
  run ← getRun;
  when (is_unset (st_PriorUnschedulable (run_Status run)))
    (prior ← capturePriorSchedulability (pl_Targets p);
     modifyRun (λ run, set_run_Status (set_st_PriorUnschedulable prior (run_Status run)) run)) ;;
  n ← now;
  modifyRun (λ run, set_run_Status (set_st_StartedAt (Some n)
               (set_st_Phase RunRunning (run_Status run))) run) ;;
  fp ← captureFingerprint (pl_Targets p);
  modifyRun (λ run, set_run_Status (set_st_Fingerprint fp (run_Status run)) run) ;;
  applyThresholdsSoundCondition p ;;
  applyPlanExpandedCondition p ;;
  deliverPhase (pl_Sinks p) RunRunning ;;
  statusUpdate ;;
  mret Again.

(** *** Resolution *)
Definition isTransportError (e : error) : bool :=
  existsb (Contains (er_text e))
    ["connection refused"; "context deadline exceeded"; "TLS handshake timeout"; "unavailable"].

Definition isConfigError (e : error) : bool :=
  IsNotFound e ||
  (bool_decide (er_class e = Unstructured) && negb (isTransportError e)).

Definition resolve_test (acc : list Test + error) (entry : nat * ProfileTest)
    : M (list Test + error) :=
  let '(i, pt) := entry in
  let required := default true (pt_Required pt) in
  let named := negb (String.eqb (pt_TestRef pt) "") in
  let fail text := mret (inr (Errorf ("profile test " +:+ Itoa (Z.of_nat i) +:+ text))) in
  match acc, pt_Inline pt with
  | inr e, _ => mret (inr e)
  | inl tests, Some spec =>
      if named then fail " sets both testRef and inline"
      else mret (inl (tests ++ ExpandVariants
             ("inline-" +:+ Itoa (Z.of_nat i) +:+ "-" +:+ ts_Kind spec) spec required (pt_Variants pt)))
  | inl tests, None =>
      if named then
        r ← try (read (pt_TestRef pt) (λ w, w_tests w !! pt_TestRef pt));
        mret match r with
             | inl spec => inl (tests ++ ExpandVariants (pt_TestRef pt) spec required (pt_Variants pt))
             | inr e => inr (wrap ("testRef " +:+ quote (pt_TestRef pt) +:+ ": ") e)
             end
      else fail " names no testRef and no inline spec"
  end.

(** The profile when there is one, and its tests or why there are none. *)
Definition resolveProfile : M (option BurnInProfileSpec * (list Test + error)) :=
  run ← getRun;
  let ref := sp_ProfileRef (run_Spec run) in
  r ← try (read ref (λ w, w_profiles w !! ref));
  match r with
  | inr e => mret (None, inr (wrap ("profile " +:+ quote ref +:+ ": ") e))
  | inl profile =>
      tests ← fold resolve_test (inl []) (imap pair (pr_Tests profile));
      mret (Some profile, tests)
  end.

Definition profileSinks (profile : option BurnInProfileSpec) : list str :=
  default [] (pr_Sinks <$> profile).

(** *** Admission *)
Definition setAdmitted (status : bool) (reason message : str) : M () :=
  setCondition "Admitted" status reason (clampConditionMessage message).

Definition refuse (sinks : list str) (message : str) : M requeue :=
  appendSynthetic SyntheticResultAdmission message ;;
  terminate sinks RunError.

Definition refusal (c : conflict) : str :=
  let run := cf_run c in
  "refused: BurnInRun " +:+ run_Namespace run +:+ "/" +:+ run_Name run +:+ " is already testing " +:+
  Join (cf_nodes c) ", " +:+
  ". Two burn-ins on one node are two full-power loads on one machine — the facility interlock (maxConcurrentNodes) bounds only ONE run's fan-out, so neither run can see the other's load — and the measurements contend for the very resources they are measuring. No hardware was tested here. Re-create this run once " +:+
  run_Name run +:+ " finishes, or set spec.force to accept the contention deliberately".

(** [admit]: [None] when the run is admitted. *)
Definition admitRun (targets sinks : list str) : M (option requeue) :=
  run ← getRun;
  found ← findConflict run targets;
  match found with
  | None =>
      setAdmitted true "TargetsAvailable" "no other active run holds these targets" ;; mret None
  | Some c =>
      if forced run then
        setAdmitted true "AdmittedByForce"
          ("spec.force admitted this run while " +:+ show_conflict c +:+
           " — results measured under contention are not comparable to results measured alone") ;;
        mret None
      else
        setAdmitted false "TargetsBusy" (refusal c) ;;
        res ← refuse sinks (refusal c);
        mret (Some res)
  end.

(** What is pinned, and that the run now owes a cleanup, in one write. *)
Definition pin (p : plan) : M requeue :=
  run ← getRun;
  match pinPlan run p with
  | inr e => finalizeError (pl_Sinks p) e
  | inl run =>
      modifyRun (λ _, run) ;;
      addFinalizer ;;
      updateKeepingStatus ;;
      markRunning p
  end.

Definition startAdmitted (profile : BurnInProfileSpec) (tests : list Test) (targets : list str)
    : M requeue :=
  run ← getRun;
  match buildPlan profile tests targets (maxConcurrentNodes run) (isBaseline run) with
  | inr e => finalizeError (pr_Sinks profile) e
  | inl p => pin p
  end.

(** Waiting for a reference that may still appear, and giving up on it. *)
Definition unresolved (profile : option BurnInProfileSpec) (e : error) : M requeue :=
  run ← getRun; n ← now;
  if negb (isConfigError e) then throw e
  else if (n - run_CreatedAt run <? resolveGracePeriod)%Z then mret (After (15 * second)%Z)
  else finalizeError (profileSinks profile) (er_text e).

Definition start : M requeue :=
  run ← getRun;
  resolved ← resolveProfile;
  match resolved with
  | (Some profile, inl tests) =>
      targets ← try (resolveTargets (run_Spec run));
      match targets with
      | inr e => unresolved (Some profile) e
      | inl targets =>
          admitted ← admitRun targets (pr_Sinks profile);
          match admitted with
          | Some res => mret res
          | None => startAdmitted profile tests targets
          end
      end
  | (profile, inr e) => unresolved profile e
  | (None, inl _) => mret Stop
  end.

(** ** Reconcile *)
Definition reconcileRun : M requeue :=
  run ← getRun;
  if negb (is_unset (run_DeletionTimestamp run)) then reconcileDeleted
  else if isTerminal (st_Phase (run_Status run)) then reconcileTerminal
  else
    match loadPlan run with
    | Some (inr e) => finalizeError [] e
    | None => start
    | Some (inl p) =>
        if bool_decide (st_Phase (run_Status run) ∈ [RunUnset; RunPending]) then markRunning p
        else step p
    end.

(** The run is read first; one that is gone needs nothing. *)
Definition Reconcile (name : str) : M requeue :=
  r ← try (read name w_run);
  match r with
  | inr e => if IsNotFound e then mret Stop else throw e
  | inl run => modifyRun (λ _, run) ;; reconcileRun
  end.
End lifecycle.
