(* ===== verification/Scenario.v ===== *)
(** * Small clusters to run the controller on

    A run of one test over a few nodes, its pods and a world around them: the inputs of the
    witnesses of the safety theorems, and the executions that show where the controller
    falls short of what its comments say. *)

From S2P Require Import Prelude GoStrings GoFloat GoTime Contract Registry Runner Verdict Group Api.
From S2P Require Import Plan Soak Pods RunPlan PlanStore Attempt Effects World Cordon Admission PodBuild.
From S2P Require Import Rendezvous Artifacts Engine Lifecycle.
Open Scope stdpp_scope.

#[local] Instance no_fingerprints : Settings := Build_Settings "" true.

Definition idle_node : Node := MkNode ∅ ∅ false "" "" "".

(** A host check of a minute, to be passed the given number of times. *)
Definition host_test (repeats : option Z) : Test :=
  MkTest "host" true
    (MkTestSpec KindHostHealth ScopeNode 60 repeats None None None [] (MkResources ∅ ∅) false) ∅ "".

Definition small_plan (targets : list str) (t : Test) : plan := MkPlan 1 targets [] false false 1 [t].

(** Reads back that one plan, whatever is pinned. *)
Definition knows (p : plan) : PlanCodec :=
  Build_PlanCodec (λ _, "{}") (λ _, inl p) (λ _, "") (λ _ _, inl "").

Definition running_run (cap retries : Z) (res : list TestResult) : BurnInRun :=
  MkRun "ns" "r" "uid-1" 0 None {[ planAnnotation := "{}" ]} [FinalizerCordonCleanup]
    (MkRunSpec "p" [] ∅ [] (Some cap) None (Some retries) None None None None CancelUnset "" None)
    (MkStatus RunRunning ∅ (Some 0%Z) None res 0 0 0 0 [] None ∅).

(** The pod of the first attempt of the first test on a node. *)
Definition first_pod (node : str) (created : Z) (phase : PodPhase) (start : option Z)
    (containers : list ContainerStatus) : Pod :=
  let run := running_run 0 0 [] in
  MkPod (podName run 0 node 1) {[ labelRun := run_Name run; labelNode := node ]} [run_UID run]
    created node phase "" "" start [] containers.

Definition cluster (now : Z) (run : BurnInRun) (nodes : list (str * Node)) (pods : list Pod)
    (faults : list fault) : st :=
  let pods := list_to_map ((λ p, (pod_Name p, p)) <$> pods) in
  MkSt run ∅
    (MkWorld now (Some run) [] ∅ ∅ (list_to_map nodes) pods ∅ pods ∅ ∅ ∅ ∅ ∅ faults []
       (λ _ _, "") []).

(** The informer catches up. *)
Definition catch_up : M () := λ s, (inl tt, set_s_world (set_w_informer (w_pods (s_world s)) (s_world s)) s).

(** What a handler's calls did, oldest first, by the names of their targets. *)
Definition doings (s : st) : list (str * str) :=
  omap (λ e, match e with
             | EvPodCreated _ node => Some ("create pod on", node)
             | EvPodDeleted name => Some ("delete pod", name)
             | EvStatus _ => Some ("write", "status")
             | _ => None
             end) (rev (w_trace (s_world s))).

Definition noon : Z := (43200 * second)%Z.

(** Two targets under a cap of two: the pod on [a] is past its window, the one on [b] runs.
    The overdue pod is recorded and condemned, but a pass that is still running never
    deletes what it condemned; the next one starts the retry beside it. *)
Definition overdue_cluster : st :=
  cluster noon (running_run 2 1 []) [("a", idle_node); ("b", idle_node)]
    [first_pod "a" second PodPending None [];
     first_pod "b" (noon - 10 * second) PodRunning (Some (noon - 5 * second)%Z) []] [].

Definition twice {A} (m : M A) : M A := m ;; catch_up ;; m.

Lemma condemned_pod_left_running :
  let p := small_plan ["a"; "b"] (host_test None) in
  let s' := (twice (@step no_fingerprints p) overdue_cluster).2 in
  doings s' = [("write", "status"); ("create pod on", "a"); ("write", "status")] ∧
  (ownedBy (first_pod "a" second PodPending None []) "uid-1" &&
   podLive (first_pod "a" second PodPending None [])) = true ∧
  w_terminating (s_world s') = ∅.
Proof. vm_compute. done. Qed.

(** Two targets under a cap of one, the test to be passed twice.  The first attempt on [a]
    ended before any pass saw it run: its result is opened by the pass that harvests it,
    after the busy nodes were counted, so [a] counts as free and [b] is started; the next
    pass counts both and starts [a] again. *)
Definition unseen_cluster : st :=
  cluster noon (running_run 1 0 []) [("a", idle_node); ("b", idle_node)]
    [first_pod "a" (noon - 10 * second) PodSucceeded (Some (noon - 5 * second)%Z)
       [MkContainer "runner" (Some (MkTerminated 0 "Completed" "")) None]] [].

Lemma cap_of_one_loads_two :
  let p := small_plan ["a"; "b"] (host_test (Some 2%Z)) in
  let s' := (twice (@step no_fingerprints p) unseen_cluster).2 in
  doings s' = [("create pod on", "b"); ("write", "status"); ("create pod on", "a"); ("write", "status")] ∧
  size (w_terminating (s_world s')) = 0%nat.
Proof. vm_compute. done. Qed.
