(* ===== verification/Frames.v ===== *)
(** * What a sweep leaves alone

    Frames: facts about the stored run and the run in hand that nothing but a write of the
    run can change.  Every handler of the engine keeps every frame, whatever the calls do;
    the safety theorems instantiate them. *)

From S2P Require Import Prelude GoStrings GoFloat GoTime Contract Registry Runner Verdict Group Api.
From S2P Require Import Plan Soak Pods RunPlan Attempt Effects World Cordon Admission PodBuild.
From S2P Require Import Rendezvous Artifacts Engine.
Open Scope stdpp_scope.

(** ** Frames

    A fact about the stored run and the run in hand that nothing but a write of the run can
    change: the cluster around them and the busy map may move, and the status in hand along
    the moves of [R].  A mild frame may also speak of the pods and of the busy map. *)

(** The nodes pods were created on, newest first. *)
Definition created (w : world) : list str :=
  omap (λ e, match e with EvPodCreated _ node => Some node | _ => None end) (w_trace w).

(** The run and the pods are as they were. *)
Definition stirred (w w' : world) : Prop :=
  w_run w' = w_run w ∧ w_pods w' = w_pods w ∧ w_terminating w' = w_terminating w ∧
  w_informer w' = w_informer w ∧ created w' = created w.

Record mild (R : BurnInRunStatus → BurnInRunStatus → Prop) (I : st → Prop) : Prop := MkMild {
  mild_world : ∀ s w, stirred (s_world s) w → I s → I (set_s_world w s);
  mild_status : ∀ s status, R (run_Status (s_run s)) status → I s →
    I (set_s_run (set_run_Status status (s_run s)) s);
}.

Record frame (R : BurnInRunStatus → BurnInRunStatus → Prop) (I : st → Prop) : Prop := MkFrame {
  frame_world : ∀ s w, w_run w = w_run (s_world s) → I s → I (set_s_world w s);
  frame_busy : ∀ s b, I s → I (set_s_busy b s);
  frame_status : ∀ s status, R (run_Status (s_run s)) status → I s →
    I (set_s_run (set_run_Status status (s_run s)) s);
}.

(** Every move that leaves the phase, and every move that leaves all but the held nodes. *)
Definition same_phase (a b : BurnInRunStatus) : Prop := st_Phase b = st_Phase a.
Definition recordoned (a b : BurnInRunStatus) : Prop := ∃ names, b = set_st_CordonedNodes names a.

Lemma frame_mild R I : frame R I → mild R I.
Proof. intros [Hw Hb Hs]. split; [|exact Hs]. intros s w Hst. by apply Hw, Hst. Qed.

Lemma recordoned_same_phase a b : recordoned a b → same_phase a b.
Proof. by intros [names ->]. Qed.

Lemma mild_recordoned I : mild same_phase I → mild recordoned I.
Proof. intros [Hw Hs]. split; [exact Hw|]. intros s status Hr. apply Hs, recordoned_same_phase, Hr. Qed.

Lemma frame_recordoned I : frame same_phase I → frame recordoned I.
Proof.
  intros [Hw Hb Hs]. split; [exact Hw|exact Hb|].
  intros s status Hr. apply Hs, recordoned_same_phase, Hr.
Qed.

Create HintDb engine.

Lemma keeps_fold_any {A B} (I : st → Prop) (f : B → A → M B) acc l :
  (∀ b a, keeps I (f b a)) → keeps I (fold f acc l).
Proof. intros H. apply (triple_fold (λ _, I)). intros b a _. apply H. Qed.

(** Walk through a handler: binds, branches and loops down to the calls with a lemma. *)
Ltac keep :=
  repeat first
    [ progress intros
    | solve [eauto 4 with engine nocore]
    | apply keeps_ret
    | apply keeps_throw
    | apply keeps_try
    | apply keeps_when
    | apply keeps_fold_any
    | apply triple_iter
    | apply keeps_bind
    | case_match ].

Section mild_frames.
Context {R : BurnInRunStatus → BurnInRunStatus → Prop} (I : st → Prop) (HI : mild R I).

Lemma mild_call {A} name (f : world → (A + error_class) * world) :
  (∀ w, stirred w (f w).2) → keeps I (call name f).
Proof. intros Hf. apply keeps_call; intros s Hs; (apply (mild_world _ _ HI); [apply Hf || done|done]). Qed.

Lemma frame_read {A} name (f : world → option A) : keeps I (read name f).
Proof. apply mild_call. intros w. by destruct (f w). Qed.

Lemma frame_getRun : keeps I getRun.
Proof. by intros s H. Qed.
Lemma frame_getBusy : keeps I getBusy.
Proof. by intros s H. Qed.
Lemma frame_now : keeps I now.
Proof. by intros s H. Qed.
Lemma frame_world_of : keeps I world_of.
Proof. by intros s H. Qed.
Lemma frame_modify (f : BurnInRunStatus → BurnInRunStatus) :
  (∀ status, R status (f status)) →
  keeps I (modifyRun (λ run, set_run_Status (f (run_Status run)) run)).
Proof. intros Hf s H. exact (mild_status _ _ HI s _ (Hf _) H). Qed.
End mild_frames.

Section frames.
Context {R : BurnInRunStatus → BurnInRunStatus → Prop} (I : st → Prop) (HI : frame R I).

Lemma frame_call {A} name (f : world → (A + error_class) * world) :
  (∀ w, w_run (f w).2 = w_run w) → keeps I (call name f).
Proof.
  intros Hf. apply keeps_call; intros s Hs; (apply (frame_world _ _ HI); [by rewrite ?Hf|done]).
Qed.

Lemma frame_putBusy b : keeps I (putBusy b).
Proof. intros s H. exact (frame_busy _ _ HI s b H). Qed.
Lemma frame_addBusy n : keeps I (addBusy n).
Proof. intros s H. exact (frame_busy _ _ HI s _ H). Qed.
Lemma frame_createPod p : keeps I (createPod p).
Proof. apply frame_call. intros w. by case_match. Qed.
Lemma frame_deletePod n : keeps I (deletePod n).
Proof. apply frame_call. intros w. by case_match. Qed.
End frames.
#[export] Hint Resolve frame_getRun frame_getBusy frame_now frame_world_of frame_putBusy
  frame_addBusy frame_read frame_createPod frame_deletePod frame_mild : engine.

(** *** The run in hand *)

(** A step of the bookkeeping: the status moves, its phase does not. *)
Definition restated (run run' : BurnInRun) : Prop :=
  run' = set_run_Status (run_Status run') run ∧ st_Phase (run_Status run') = st_Phase (run_Status run).

Lemma restated_refl run : restated run run.
Proof. split; [by destruct run|done]. Qed.

Lemma restated_trans a b c : restated a b → restated b c → restated a c.
Proof. intros [-> Hb] [-> Hc]. split; [done|]. cbn in *. congruence. Qed.

Lemma restated_results l run : restated run (set_results l run).
Proof. done. Qed.

Lemma restated_result i res run : restated run (set_result i res run).
Proof. apply restated_results. Qed.

Lemma restated_recount run : restated run (recount run).
Proof. done. Qed.

Lemma frame_restated (I : st → Prop) s run : mild same_phase I → restated (s_run s) run → I s → I (set_s_run run s).
Proof. intros HI [-> Hp] H. exact (mild_status _ _ HI s _ Hp H). Qed.

Lemma keeps_restated (I : st → Prop) f :
  mild same_phase I → (∀ run, restated run (f run)) → keeps I (modifyRun f).
Proof. intros HI Hf s H. exact (frame_restated I s _ HI (Hf _) H). Qed.

Lemma restated_ensureResult run t nodes : restated run (ensureResult run t nodes).1.
Proof. unfold ensureResult. case_match; [apply restated_refl|apply restated_results]. Qed.

Lemma restated_beginAttempt n run t nodes attempt pod :
  restated run (beginAttempt n run t nodes attempt pod).1.1.
Proof.
  unfold beginAttempt. pose proof (restated_ensureResult run t nodes) as H.
  destruct (ensureResult run t nodes) as [run1 i]. cbn in H.
  destruct (results run1 !! i) as [res|]; [|done].
  destruct (begin_on n res nodes attempt pod) as [res' began]. cbn.
  eapply restated_trans; [exact H|apply restated_result].
Qed.

Lemma restated_completeAttempt n run t nodes attempt podName pod parsed :
  restated run (completeAttempt n run t nodes attempt podName pod parsed).1.
Proof.
  unfold completeAttempt. pose proof (restated_beginAttempt n run t nodes attempt pod) as H.
  destruct (beginAttempt n run t nodes attempt pod) as [[run1 i] b]. cbn in H.
  destruct (results run1 !! i) as [res|]; [|done].
  destruct (finish_on _ _ _ _ _ _ _) as [res' d].
  destruct d; cbn; (eapply restated_trans; [exact H|];
    first [apply restated_result | eapply restated_trans; [apply restated_result|apply restated_recount]]).
Qed.

Lemma restated_checkpoint n run t node out : restated run (checkpoint n run t node out).1.
Proof.
  unfold checkpoint. case_match; [apply restated_refl|].
  destruct (resultIndex run (te_Name t) node) as [i|]; [|apply restated_refl].
  destruct (results run !! i) as [res|]; [|apply restated_refl].
  destruct (checkpoint_on n t out res) as [res' wrote]. apply restated_result.
Qed.

Lemma restated_settleWithoutPod n run t run' key :
  settleWithoutPod n run t = Some (run', key) → restated run run'.
Proof.
  unfold settleWithoutPod. case_match; [done|]. case_match.
  - intros [= <- <-]. apply restated_refl.
  - unfold appendSettled. intros [= <- _].
    eapply restated_trans; [apply restated_results|apply restated_recount].
Qed.

Lemma restated_fold {A} (f : BurnInRun → A → BurnInRun) l run :
  (∀ run a, restated run (f run a)) → restated run (fold_left f l run).
Proof.
  intros Hf. revert run. induction l as [|a l IH]; intros run; [apply restated_refl|].
  eapply restated_trans; [apply Hf|apply IH].
Qed.

Lemma restated_settle_unit n phase message t run nodes :
  restated run (settle_unit n phase message t run nodes).
Proof.
  unfold settle_unit. pose proof (restated_ensureResult run t nodes) as H.
  destruct (ensureResult run t nodes) as [run1 i]. cbn in H. case_match; [|done].
  case_match; [done|]. cbv zeta. eapply restated_trans; [exact H|apply restated_result].
Qed.

Lemma restated_settleRemaining n run p phase message :
  restated run (settleRemaining n run p phase message).
Proof.
  eapply restated_trans; [|apply restated_recount]. apply restated_fold. intros run' t.
  unfold settle_test. repeat case_match; try apply restated_refl;
    apply restated_fold; intros; apply restated_settle_unit.
Qed.

(** *** Delivery moves neither the run nor what it holds *)

(** What the finalizer is about: the nodes, the pods and what is known of them. *)
Definition same_cluster (w w' : world) : Prop :=
  w_nodes w' = w_nodes w ∧ w_pods w' = w_pods w ∧ w_terminating w' = w_terminating w ∧
  w_informer w' = w_informer w ∧ created w' = created w.

Definition cluster_stable (P : st → Prop) : Prop :=
  ∀ s w, w_run w = w_run (s_world s) → same_cluster (s_world s) w → P s → P (set_s_world w s).

Lemma mild_cluster_stable R I : mild R I → cluster_stable I.
Proof. intros HI s w Hw (_ & Hc) H. by apply (mild_world _ _ HI). Qed.

Lemma frame_cluster_stable R I : frame R I → cluster_stable I.
Proof. intros HI. by eapply mild_cluster_stable, frame_mild. Qed.

Section delivery.
Context (P : st → Prop) (HP : cluster_stable P).

Lemma quiet_call {A} name (f : world → (A + error_class) * world) :
  (∀ w, w_run (f w).2 = w_run w ∧ same_cluster w (f w).2) → keeps P (call name f).
Proof. intros Hf. apply keeps_call; intros s Hs; (apply HP; [apply Hf || done..|exact Hs]). Qed.

Lemma quiet_read {A} name (f : world → option A) : keeps P (read name f).
Proof. apply quiet_call. intros w. by destruct (f w). Qed.

Lemma quiet_updateSink n v : keeps P (updateSink n v).
Proof. apply quiet_call. intros w. by case_match. Qed.

Lemma quiet_send a b c : keeps P (send a b c).
Proof.
  intros s H. unfold send. cbv zeta.
  destruct (head (w_sends (s_world s))) as [[e|]|]; (apply HP; [done|done|exact H]).
Qed.

Lemma keeps_now_any : keeps P now.
Proof. by intros s H. Qed.

Lemma quiet_deliver sinks reason key : keeps P (deliver sinks reason key).
Proof.
  unfold deliver, deliver_one. apply keeps_fold_any. intros ok n.
  apply keeps_bind; [apply keeps_try, quiet_read|]. intros [status|e]; [|apply keeps_ret].
  apply keeps_bind; [apply quiet_send|]. intros e. apply keeps_bind; [apply keeps_now_any|]. intros t.
  apply keeps_bind; [apply keeps_try, quiet_updateSink|]. intros _. apply keeps_ret.
Qed.
End delivery.

Section delivery_frames.
Context {R : BurnInRunStatus → BurnInRunStatus → Prop} (I : st → Prop) (HI : mild R I).

Local Hint Resolve HI : engine.

Lemma frame_deliver sinks reason key : keeps I (deliver sinks reason key).
Proof. exact (quiet_deliver I (mild_cluster_stable _ _ HI) sinks reason key). Qed.
Local Hint Resolve frame_deliver : engine.
Lemma frame_deliverPhase sinks phase : keeps I (deliverPhase sinks phase).
Proof. unfold deliverPhase. keep. Qed.
Lemma frame_deliverTestCompleted sinks key : keeps I (deliverTestCompleted sinks key).
Proof. unfold deliverTestCompleted. keep. Qed.
Lemma frame_deliverCheckpoint sinks n : keeps I (deliverCheckpoint sinks n).
Proof. unfold deliverCheckpoint. keep. Qed.
Local Hint Resolve frame_deliverTestCompleted frame_deliverCheckpoint : engine.
Lemma frame_deliverOwedCheckpoint p pass : keeps I (deliverOwedCheckpoint p pass).
Proof. unfold deliverOwedCheckpoint. keep. Qed.
End delivery_frames.
#[export] Hint Resolve frame_deliver frame_deliverPhase frame_deliverTestCompleted frame_deliverCheckpoint
  frame_deliverOwedCheckpoint : engine.

(** *** The engine keeps every frame *)
Section engine_frames.
Context (I : st → Prop) (HI : mild recordoned I).

Local Hint Resolve HI : engine.

Lemma frame_bind_run {A} (f : BurnInRun → M A) :
  (∀ run, keeps (λ s, I s ∧ s_run s = run) (f run)) → keeps I (getRun ≫= f).
Proof.
  intros Hf s H. unfold mbind, M_bind, getRun.
  specialize (Hf (s_run s) s (conj H eq_refl)).
  destruct (f (s_run s) s) as [[a|e] s']; apply Hf.
Qed.

Lemma frame_getNode n : keeps I (getNode n). Proof. by eapply frame_read. Qed.
Lemma frame_getPod n : keeps I (getPod n). Proof. by eapply frame_read. Qed.
Lemma frame_listNodes : keeps I listNodes. Proof. by eapply frame_read. Qed.
Lemma frame_listPods : keeps I listPods.
Proof. apply keeps_bind; [by eapply frame_getRun|]. intros run. by eapply frame_read. Qed.

Lemma frame_updateNode n node : keeps I (updateNode n node).
Proof. apply (mild_call I HI). intros w. by case_match. Qed.
Lemma frame_createService n : keeps I (createService n).
Proof. apply (mild_call I HI). intros w. by case_match. Qed.
Lemma frame_writeConfigMap fresh n cm : keeps I (writeConfigMap fresh n cm).
Proof. apply (mild_call I HI). intros w. by repeat case_match. Qed.
Lemma frame_set_cordoned names : keeps I (set_cordoned names).
Proof. apply (frame_modify I HI (set_st_CordonedNodes names)). intros status. by exists names. Qed.
End engine_frames.
#[export] Hint Resolve frame_getNode frame_getPod frame_listNodes frame_listPods frame_updateNode
  frame_createService frame_writeConfigMap
  frame_set_cordoned : engine.

Section engine_frames2.
Context (I : st → Prop) (HI : mild recordoned I).

Local Hint Resolve HI : engine.

Lemma frame_update_unless_gone n node : keeps I (update_unless_gone n node).
Proof. unfold update_unless_gone. keep. Qed.
Lemma frame_take_node run n heat t node : keeps I (take_node run n heat t node).
Proof. unfold take_node. keep. Qed.
Local Hint Resolve frame_update_unless_gone frame_take_node : engine.
Lemma frame_cordonNode n spec : keeps I (cordonNode n spec).
Proof. unfold cordonNode. keep. Qed.
Lemma frame_releaseNode n : keeps I (releaseNode n).
Proof. unfold releaseNode. keep. Qed.
Local Hint Resolve frame_cordonNode frame_releaseNode : engine.
Lemma frame_cordonWave nodes spec : keeps I (cordonWave nodes spec).
Proof. unfold cordonWave. keep. Qed.
Lemma frame_releaseHeldNodes held : keeps I (releaseHeldNodes held).
Proof. unfold releaseHeldNodes. keep. Qed.
Lemma frame_releaseCordons : keeps I releaseCordons.
Proof. unfold releaseCordons, release_listed. keep. Qed.
Lemma frame_busyNodes : keeps I busyNodes.
Proof. unfold busyNodes. keep. Qed.
End engine_frames2.

Section pod_frames.
Context {R : BurnInRunStatus → BurnInRunStatus → Prop} (I : st → Prop) (HI : frame R I).

Local Hint Resolve HI : engine.

Lemma frame_listPods_any : keeps I listPods.
Proof. apply keeps_bind; [by intros s H|]. intros run. by eapply frame_read, frame_mild. Qed.
Local Hint Resolve frame_listPods_any : engine.

Lemma frame_deleteUnlessGone pod : keeps I (deleteUnlessGone pod).
Proof. unfold deleteUnlessGone. keep. Qed.
Local Hint Resolve frame_deleteUnlessGone : engine.
Lemma frame_deleteLivePods : keeps I deleteLivePods.
Proof. unfold deleteLivePods. keep. Qed.
Lemma frame_killPods pods : keeps I (killPods pods).
Proof. unfold killPods. keep. Qed.
End pod_frames.
#[export] Hint Resolve frame_update_unless_gone frame_take_node frame_cordonNode frame_releaseNode
  frame_cordonWave frame_releaseHeldNodes frame_releaseCordons frame_deleteUnlessGone
  frame_deleteLivePods frame_killPods frame_busyNodes : engine.

Section engine_frames3.
Context `{cfg : Settings} (I : st → Prop) (HI : mild same_phase I).

Local Hint Resolve HI mild_recordoned : engine.

Lemma frame_vendorFor n : keeps I (vendorFor n).
Proof. unfold vendorFor. keep. Qed.
Lemma frame_fetchLogs pod : keeps I (fetchLogs pod).
Proof. unfold fetchLogs. keep. Qed.
Local Hint Resolve frame_fetchLogs frame_vendorFor : engine.
Lemma frame_harvest t pod : keeps I (harvest t pod).
Proof. unfold harvest. keep. Qed.
Lemma frame_findPod n : keeps I (findPod n).
Proof. unfold findPod. keep. Qed.
Lemma frame_ignoreExists m : keeps I m → keeps I (ignoreExists m).
Proof. unfold ignoreExists. keep. Qed.
Lemma frame_buildPod index t attempt node rv : keeps I (buildPod index t attempt node rv).
Proof. unfold buildPod. keep. Qed.
Lemma frame_storeArtifacts run a b c : keeps I (storeArtifacts run a b c).
Proof. unfold storeArtifacts, store_into, upsertConfigMap. keep. Qed.
Local Hint Resolve frame_storeArtifacts : engine.

Lemma frame_harvestArtifacts t nodes pod arts : keeps I (harvestArtifacts t nodes pod arts).
Proof.
  unfold harvestArtifacts. case_match; [apply keeps_ret|].
  apply keeps_bind; [by eapply frame_getRun|]. intros run.
  apply keeps_bind; [by apply frame_storeArtifacts|]. intros refs.
  apply keeps_restated; [done|]. intros run'. case_match; [|apply restated_refl].
  case_match; [apply restated_result|apply restated_refl].
Qed.

Lemma frame_begin t nodes attempt pod : keeps I (begin t nodes attempt pod).
Proof.
  intros s H. unfold begin, getRun, now, modifyRun, mbind, M_bind, mret, M_ret.
  pose proof (restated_beginAttempt (w_now (s_world s)) (s_run s) t nodes attempt pod) as Hr.
  destruct (beginAttempt _ _ _ _ _ _) as [[run i] b]. exact (frame_restated I s run HI Hr H).
Qed.

Lemma frame_checkpointPod t node pod : keeps I (checkpointPod t node pod).
Proof.
  intros s H. unfold checkpointPod, fetchLogs, world_of, getRun, now, modifyRun, mbind, M_bind, mret, M_ret.
  set (out := if hasPodLogs then _ else _).
  pose proof (restated_checkpoint (w_now (s_world s)) (s_run s) t node out) as Hr.
  destruct (checkpoint _ _ _ _ _) as [run b]. exact (frame_restated I s run HI Hr H).
Qed.

Lemma frame_modifyRun_const (m : M ()) run s :
  keeps I m → restated (s_run s) run → I s →
  match (modifyRun (λ _, run) ;; m) s with (inl _, s') => I s' | (inr _, s') => I s' end.
Proof.
  intros Hm Hr H. unfold modifyRun, mbind, M_bind.
  exact (Hm _ (frame_restated I s run HI Hr H)).
Qed.

Lemma frame_complete p t nodes attempt podName pod parsed :
  keeps I (complete p t nodes attempt podName pod parsed).
Proof.
  intros s H. unfold complete, getRun, now, mbind at 1 2, M_bind at 1 2.
  pose proof (restated_completeAttempt (w_now (s_world s)) (s_run s) t nodes attempt podName pod parsed) as Hr.
  destruct (completeAttempt _ _ _ _ _ _ _ _) as [run key].
  apply frame_modifyRun_const; [by eapply frame_deliverTestCompleted|done|done].
Qed.
Local Hint Resolve frame_complete : engine.

Lemma frame_harvested p t nodes attempt pod parsed kill :
  keeps I (harvested p t nodes attempt pod parsed kill).
Proof. unfold harvested. keep. Qed.

Local Hint Resolve frame_harvest frame_findPod frame_buildPod frame_harvestArtifacts frame_begin
  frame_checkpointPod frame_harvested : engine.

Lemma frame_observeNode p t node attempt pod : keeps I (observeNode p t node attempt pod).
Proof. unfold observeNode. keep. Qed.
Lemma frame_serverSide t node pod logErr : keeps I (serverSide t node pod logErr).
Proof. unfold serverSide. keep. Qed.
Local Hint Resolve frame_serverSide : engine.
Lemma frame_harvestPair p t a b attempt sv cl : keeps I (harvestPair p t a b attempt sv cl).
Proof. unfold harvestPair. keep. Qed.
Lemma frame_groupPods index attempt nodes : keeps I (groupPods index attempt nodes).
Proof. unfold groupPods. keep. Qed.
Lemma frame_harvestMembers t nodes pods : keeps I (harvestMembers t nodes pods).
Proof. unfold harvestMembers, harvestMember. keep. Qed.
Local Hint Resolve frame_harvestMembers : engine.
Lemma frame_harvestGroup p t nodes attempt pods root :
  keeps I (harvestGroup p t nodes attempt pods root).
Proof. unfold harvestGroup. keep. Qed.

Lemma frame_settleTest p t : keeps I (settleTest p t).
Proof.
  intros s H. unfold settleTest, getRun, now, mbind at 1 2, M_bind at 1 2.
  destruct (settleWithoutPod _ _ _) as [[run key]|] eqn:Hs; [|exact H].
  apply restated_settleWithoutPod in Hs. unfold modifyRun, mbind at 1, M_bind at 1.
  eapply (keeps_bind I); [eapply frame_deliverTestCompleted; exact HI|intros; apply keeps_ret|].
  exact (frame_restated I s run HI Hs H).
Qed.
End engine_frames3.
#[export] Hint Resolve frame_fetchLogs frame_harvest frame_findPod frame_buildPod
  frame_harvestArtifacts frame_begin frame_checkpointPod frame_complete frame_harvested
  frame_observeNode frame_harvestPair frame_groupPods frame_harvestMembers frame_harvestGroup
  frame_settleTest : engine.

Section engine_frames4.
Context `{cfg : Settings} (I : st → Prop) (HI : frame same_phase I).

Let HM : mild same_phase I := frame_mild _ _ HI.
Local Hint Resolve HI HM frame_recordoned mild_recordoned : engine.
Local Hint Extern 1 (keeps _ (ignoreExists _)) => apply frame_ignoreExists : engine.

Lemma frame_launchNode p index t node attempt launch cap :
  keeps I (launchNode p index t node attempt launch cap).
Proof. unfold launchNode. keep. Qed.
Local Hint Resolve frame_launchNode : engine.
Lemma frame_advance p index t node launch cap : keeps I (advance p index t node launch cap).
Proof. unfold advance. keep. Qed.

Lemma frame_startRendezvous p index attempt t nodes launch cap rv :
  keeps I (startRendezvous p index attempt t nodes launch cap rv).
Proof. unfold startRendezvous. keep. Qed.
Local Hint Resolve frame_startRendezvous : engine.
Lemma frame_gateClientOnServer p index attempt t a b pod launch :
  keeps I (gateClientOnServer p index attempt t a b pod launch).
Proof. unfold gateClientOnServer. keep. Qed.
Local Hint Resolve frame_gateClientOnServer : engine.
Lemma frame_advancePair p index t launch cap : keeps I (advancePair p index t launch cap).
Proof. unfold advancePair, startPair, panic. keep. Qed.

Lemma frame_startRank index attempt t nodes built entry :
  keeps I (startRank index attempt t nodes built entry).
Proof. unfold startRank. keep. Qed.
Local Hint Resolve frame_startRank : engine.
Lemma frame_gateWorkersOnRoot p index attempt t nodes pods root launch :
  keeps I (gateWorkersOnRoot p index attempt t nodes pods root launch).
Proof. unfold gateWorkersOnRoot. keep. Qed.
Local Hint Resolve frame_gateWorkersOnRoot : engine.
Lemma frame_advanceGroup p index t launch cap : keeps I (advanceGroup p index t launch cap).
Proof. unfold advanceGroup, startGroup, panic. keep. Qed.
Local Hint Resolve frame_advance frame_advancePair frame_advanceGroup : engine.

Lemma frame_sweepTest p index t launch cap : keeps I (sweepTest p index t launch cap).
Proof. unfold sweepTest. keep. Qed.
Local Hint Resolve frame_sweepTest : engine.

Lemma frame_sweep p launch cap tests out : keeps I (sweep p launch cap out tests).
Proof.
  revert out. induction tests as [|[index t] tests IH]; intros out; [apply keeps_ret|].
  cbn [sweep]. keep; apply IH.
Qed.
Local Hint Resolve frame_sweep : engine.

Lemma frame_execute p launch : keeps I (execute p launch).
Proof. unfold execute. keep. Qed.
End engine_frames4.
#[export] Hint Resolve frame_execute : engine.

(** ** Writes of the run *)

(** What a write that got through leaves stored: the object, unless the server was only
    waiting for its last finalizer to go. *)
Definition stores (new : BurnInRun) (w : world) : Prop :=
  w_run w = Some new ∨ (w_run w = None ∧ run_Finalizers new = []).

(** The two kinds of write, and what each makes of the stored object. *)
Definition with_status (run stored : BurnInRun) : BurnInRun := set_run_Status (run_Status run) stored.
Definition with_meta (run stored : BurnInRun) : BurnInRun :=
  set_run_Annotations (run_Annotations run) (set_run_Finalizers (run_Finalizers run) stored).

(** [P] survives a write [f] that gets through, whether its answer arrives, and the run is
    refreshed from it by [back], or not. *)
Definition lands (P : st → Prop) (f back : BurnInRun → BurnInRun → BurnInRun) : Prop :=
  ∀ s stored w, P s → w_run (s_world s) = Some stored → same_cluster (s_world s) w →
    stores (f (s_run s) stored) w →
    P (set_s_world w s) ∧ P (set_s_run (back (s_run s) (f (s_run s) stored)) (set_s_world w s)).

Lemma stored_update_cases f run ev s :
  (∀ r w, created (emit (ev r) w) = created w) →
  match stored_update f run ev s with
  | (r, s') =>
      ∃ w, same_cluster (s_world s) w ∧
        ((∃ e, r = inr e ∧ s' = set_s_world w s ∧ w_run w = w_run (s_world s)) ∨
         ∃ stored, w_run (s_world s) = Some stored ∧ stores (f stored) w ∧
           ((r = inl tt ∧ s' = set_s_run (f stored) (set_s_world w s)) ∨
            ∃ e, r = inr e ∧ s' = set_s_world w s))
  end.
Proof.
  intros Hev. unfold stored_update, call, modifyRun, mbind, M_bind.
  assert (∀ stored, stores (f stored) (emit (ev (f stored)) (set_w_run
    (if bool_decide (run_DeletionTimestamp (f stored) ≠ None) && is_nil (run_Finalizers (f stored))
     then None else Some (f stored)) (set_w_faults (tail (w_faults (s_world s))) (s_world s))))) as Hst.
  { intros stored. unfold stores. cbn. case_bool_decide; cbn; [|by left].
    destruct (run_Finalizers (f stored)); cbn; [by right|by left]. }
  destruct (head (w_faults (s_world s))) as [[| |]|]; cbn;
    destruct (w_run (s_world s)) as [stored|] eqn:Hw; cbn;
    (eexists; split; [|first [right; exists stored; split; [done|]; split; [apply Hst|]; eauto; fail
                             |left; eexists; split; [done|]; split; [done|exact Hw]]]);
    repeat split; try done; (eapply eq_trans; [apply Hev|done]).
Qed.

Lemma keeps_stored_update (P : st → Prop) f back ev :
  (∀ r w, created (emit (ev r) w) = created w) → cluster_stable P → lands P f back →
  keeps P (run ← getRun; stored_update (f run) run ev ;; modifyRun (λ new, back run new)).
Proof.
  intros Hev Hc Hl s H. unfold getRun, mbind at 1, M_bind at 1.
  pose proof (stored_update_cases (f (s_run s)) (s_run s) ev s Hev) as Hcases.
  unfold mbind, M_bind. destruct (stored_update _ _ _ s) as [r s'].
  destruct Hcases as (w & Hw & [(e & -> & -> & Hr)|(stored & Hs & Hst & Hend)]).
  { apply Hc; [exact Hr|exact Hw|exact H]. }
  destruct (Hl s stored w H Hs Hw Hst) as [H1 H2].
  destruct Hend as [[-> ->]|(e & -> & ->)]; [exact H2|exact H1].
Qed.

Lemma modify_same (g : BurnInRun → M ()) s :
  (run ← getRun; g run ;; modifyRun (λ new, new)) s = (run ← getRun; g run) s.
Proof.
  unfold mbind, M_bind, modifyRun, getRun. destruct (g _ s) as [[[]|e] s']; [|done]. by destruct s'.
Qed.

Lemma keeps_statusUpdate (P : st → Prop) :
  cluster_stable P → lands P with_status (λ _ new, new) → keeps P statusUpdate.
Proof.
  intros Hc Hl s H. pose proof (keeps_stored_update P _ _ EvStatus (λ _ _, eq_refl) Hc Hl s H) as Hk.
  by rewrite (modify_same (λ run, stored_update (with_status run) run EvStatus)) in Hk.
Qed.

Lemma keeps_update (P : st → Prop) :
  cluster_stable P → lands P with_meta (λ _ new, new) → keeps P update.
Proof.
  intros Hc Hl s H. pose proof (keeps_stored_update P _ _ EvMeta (λ _ _, eq_refl) Hc Hl s H) as Hk.
  by rewrite (modify_same (λ run, stored_update (with_meta run) run EvMeta)) in Hk.
Qed.

Lemma keeps_updateKeepingStatus (P : st → Prop) :
  cluster_stable P → lands P with_meta with_status → keeps P updateKeepingStatus.
Proof. intros Hc Hl s H. exact (keeps_stored_update P _ _ EvMeta (λ _ _, eq_refl) Hc Hl s H). Qed.
