(* ===== verification/Safety.v ===== *)
(** * When a run may be called Passed

    A pass that neither ran, awaited nor harvested anything found every execution settled;
    only such a pass ends a run on its results, and only then can the stored phase become
    Passed. *)

From S2P Require Import Prelude GoStrings GoFloat GoTime Contract Registry Runner Verdict Group Api.
From S2P Require Import Plan Soak Pods RunPlan PlanStore Attempt Effects World Cordon Admission PodBuild.
From S2P Require Import Rendezvous Artifacts Engine Lifecycle Scenario Frames.
Open Scope stdpp_scope.

(** ** A pass with nothing left to do *)

(** Every value a handler returns is one of [φ]. *)
Definition yields {A} (φ : A → Prop) (m : M A) : Prop :=
  triple (λ _, True) m (λ a _, φ a) (λ _ _, True).

Lemma yields_ret {A} (φ : A → Prop) a : φ a → yields φ (mret a).
Proof. by intros H s _. Qed.

Lemma yields_throw {A} (φ : A → Prop) e : yields φ (throw e).
Proof. by intros s _. Qed.

Lemma yields_bind {A B} (φ : B → Prop) (m : M A) (f : A → M B) :
  (∀ a, yields φ (f a)) → yields φ (m ≫= f).
Proof.
  intros H. apply (triple_bind _ _ _ (λ _ _, True)); [|exact H].
  intros s _. by destruct (m s) as [[a|e] s'].
Qed.

Ltac yields_all :=
  repeat first
    [ progress intros
    | solve [eauto 2 with yields nocore]
    | apply yields_throw
    | apply yields_ret; discriminate
    | apply yields_bind
    | case_match ].

Create HintDb yields.

Section done.
Context `{cfg : Settings}.

Definition moves (r : advanceState * advanceEffect) : Prop := r.1 ≠ AdvanceDone.

Lemma moves_harvested p t nodes attempt pod parsed kill :
  yields moves (harvested p t nodes attempt pod parsed kill).
Proof. unfold harvested. yields_all. Qed.
Local Hint Resolve moves_harvested : yields.

Lemma moves_launchNode p index t node attempt launch cap :
  yields moves (launchNode p index t node attempt launch cap).
Proof. unfold launchNode. yields_all. Qed.
Lemma moves_observeNode p t node attempt pod : yields moves (observeNode p t node attempt pod).
Proof. unfold observeNode. yields_all. Qed.
Lemma moves_startRendezvous p index attempt t nodes launch cap rv :
  yields moves (startRendezvous p index attempt t nodes launch cap rv).
Proof. unfold startRendezvous. yields_all. Qed.
Lemma moves_gateClientOnServer p index attempt t a b pod launch :
  yields moves (gateClientOnServer p index attempt t a b pod launch).
Proof. unfold gateClientOnServer. yields_all. Qed.
Lemma moves_harvestPair p t a b attempt sv cl : yields moves (harvestPair p t a b attempt sv cl).
Proof. unfold harvestPair. yields_all. Qed.
Lemma moves_gateWorkersOnRoot p index attempt t nodes pods root launch :
  yields moves (gateWorkersOnRoot p index attempt t nodes pods root launch).
Proof. unfold gateWorkersOnRoot. yields_all. Qed.
Lemma moves_harvestGroup p t nodes attempt pods root :
  yields moves (harvestGroup p t nodes attempt pods root).
Proof. unfold harvestGroup. yields_all. Qed.
Local Hint Resolve moves_launchNode moves_observeNode moves_startRendezvous
  moves_gateClientOnServer moves_harvestPair moves_gateWorkersOnRoot moves_harvestGroup : yields.

(** An execution with nothing left to do: its result is settled, and nothing was touched. *)
Definition unit_done (run : BurnInRun) (t : Test) (nodes : list str) : Prop :=
  settledResult (resultFor run (te_Name t) (first_node nodes)) = true.

Definition settled_here (t : Test) (nodes : list str) (m : M (advanceState * advanceEffect)) : Prop :=
  ∀ s, match m s with
       | (inl (AdvanceDone, _), s') => s' = s ∧ unit_done (s_run s) t nodes
       | _ => True
       end.

Lemma settled_here_guard t nodes (f : BurnInRun → M (advanceState * advanceEffect)) :
  (∀ run, yields moves (f run)) →
  settled_here t nodes (run ← getRun;
    if settledResult (resultFor run (te_Name t) (first_node nodes))
    then mret (AdvanceDone, noEffect) else f run).
Proof.
  intros Hf s. unfold mbind, M_bind, getRun.
  destruct (settledResult _) eqn:Hd; [by split|].
  pose proof (Hf (s_run s) s I) as H. destruct (f (s_run s) s) as [[[state ef]|e] s']; [|done].
  by destruct state.
Qed.

Lemma advance_done p index t node launch cap :
  settled_here t [node] (advance p index t node launch cap).
Proof. apply (settled_here_guard t [node]). intros run. yields_all. Qed.

Lemma advancePair_done p index t launch cap :
  settled_here t (pl_Targets p) (advancePair p index t launch cap).
Proof.
  unfold advancePair. destruct (pl_Targets p) as [|server [|client rest]]; [by intros s..|].
  apply (settled_here_guard t (server :: client :: rest)). intros run. unfold startPair. yields_all.
Qed.

Lemma advanceGroup_done p index t launch cap :
  settled_here t (pl_Targets p) (advanceGroup p index t launch cap).
Proof.
  unfold advanceGroup. destruct (pl_Targets p) as [|root rest] eqn:Ht; [by intros s|].
  apply (settled_here_guard t (root :: rest)). intros run. unfold startGroup. yields_all.
Qed.

Lemma unfinished_apply t test r :
  unfinishedPass (apply_effect t test r) = false → unfinishedPass test = false ∧ r.1 = AdvanceDone.
Proof.
  destruct r as [state ef]. unfold unfinishedPass, apply_effect. cbn.
  destruct (ps_running test), (ps_pending test), (ps_harvested test), state; done.
Qed.

Lemma unfinished_merge out test :
  unfinishedPass (merge_pass out test) = unfinishedPass out || unfinishedPass test.
Proof.
  unfold unfinishedPass, merge_pass. cbn.
  destruct (ps_running out), (ps_pending out), (ps_harvested out), (ps_running test), (ps_pending test); done.
Qed.

(** A loop that ends finished ran every one of its executions from the same state. *)
Lemma sweep_nodes_done p index t launch cap nodes test s test' s' :
  fold (λ test node, r ← advance p index t node launch cap; mret (apply_effect t test r)) test nodes s
    = (inl test', s') →
  unfinishedPass test' = false →
  unfinishedPass test = false ∧ s' = s ∧ ∀ n, n ∈ nodes → unit_done (s_run s) t [n].
Proof.
  revert test s. induction nodes as [|n nodes IH]; intros test s.
  { intros [= <- <-] Hf. split_and!; [done|done|]. by intros n ?%elem_of_nil. }
  cbn [fold]. unfold mbind, M_bind.
  pose proof (advance_done p index t n launch cap s) as Hd.
  destruct (advance p index t n launch cap s) as [[r|e] s1]; [|discriminate]. intros Hr Hf.
  apply IH in Hr as (Hu & -> & Hn); [|done]. apply unfinished_apply in Hu as [Hu Hs].
  destruct r as [state ef]. cbn in Hs. subst state. destruct Hd as [-> Hd].
  split_and!; [done|done|]. intros m [->|Hm]%elem_of_cons; [done|by apply Hn].
Qed.

Definition test_done (p : plan) (run : BurnInRun) (t : Test) : Prop :=
  ∀ nodes, nodes ∈ executionUnits p t → unit_done run t nodes.

Lemma sweepTest_done p index t launch cap s test s' :
  sweepTest p index t launch cap s = (inl test, s') → unfinishedPass test = false →
  s' = s ∧ test_done p (s_run s) t.
Proof.
  assert (∀ m, settled_here t (pl_Targets p) m →
    (r ← m; mret (apply_effect t noPass r)) s = (inl test, s') → unfinishedPass test = false →
    s' = s ∧ unit_done (s_run s) t (pl_Targets p)) as Hone.
  { intros m Hm. unfold mbind, M_bind. specialize (Hm s).
    destruct (m s) as [[r|e] s1]; [|discriminate]. intros [= <- <-] [_ Hu]%unfinished_apply.
    destruct r as [state ef]. cbn in Hu. subst state. done. }
  unfold sweepTest, test_done, executionUnits. cbv zeta.
  destruct (String.eqb (ts_Scope (te_Spec t)) ScopePair); cbn [orb].
  { intros Hr Hu. destruct (Hone _ (advancePair_done _ _ _ _ _) Hr Hu) as [-> Hd].
    split; [done|]. by intros nodes ->%list_elem_of_singleton. }
  destruct (String.eqb (ts_Scope (te_Spec t)) ScopeGroup).
  { intros Hr Hu. destruct (Hone _ (advanceGroup_done _ _ _ _ _) Hr Hu) as [-> Hd].
    split; [done|]. by intros nodes ->%list_elem_of_singleton. }
  intros Hr Hu. apply sweep_nodes_done in Hr as (_ & -> & Hn); [|done].
  split; [done|]. intros nodes (n & -> & Hin)%list_elem_of_fmap. by apply Hn.
Qed.

(** Between one settled test and the next, only errors of nothing run get appended. *)
Definition extends (run run' : BurnInRun) : Prop :=
  run_Name run' = run_Name run ∧ run_UID run' = run_UID run ∧
  ∃ l, results run' = results run ++ l ∧ ∀ r, r ∈ l → tr_Phase r = RunError.

Lemma extends_refl run : extends run run.
Proof.
  split_and!; try done. exists []. rewrite app_nil_r. split; [done|]. by intros r ?%elem_of_nil.
Qed.

Lemma extends_trans a b c : extends a b → extends b c → extends a c.
Proof.
  intros (? & ? & l & Hl & Hel) (? & ? & k & Hk & Hek). split_and!; [congruence..|].
  exists (l ++ k). split; [by rewrite Hk, Hl, app_assoc|]. intros r [?|?]%elem_of_app; auto.
Qed.

Lemma resultFor_Some run name node res :
  resultFor run name node = Some res ↔
  ∃ i, results run !! i = Some res ∧ result_is name node res = true ∧
       ∀ j r, (j < i)%nat → results run !! j = Some r → result_is name node r = false.
Proof.
  unfold resultFor, resultIndex. split.
  - destruct (index_of _ _) as [i|] eqn:Hi; [|done]. cbn. intros Hr.
    apply index_of_Some in Hi as (x & Hx & Hp & Hmin). assert (x = res) as -> by congruence. by exists i.
  - intros (i & Hi & Hp & Hmin).
    assert (index_of (result_is name node) (results run) = Some i) as -> by (apply index_of_Some; eauto).
    exact Hi.
Qed.

Lemma extends_resultFor run run' name node res :
  extends run run' → resultFor run name node = Some res → resultFor run' name node = Some res.
Proof.
  intros (_ & _ & l & Hl & _) (i & Hi & Hp & Hmin)%resultFor_Some. apply resultFor_Some.
  exists i. rewrite Hl. split_and!; [by apply lookup_app_l_Some|done|].
  intros j r Hj. rewrite lookup_app_l by (apply lookup_lt_Some in Hi; lia). by apply Hmin.
Qed.

Lemma extends_origin run run' name node res :
  extends run run' → resultFor run' name node = Some res →
  resultFor run name node = Some res ∨ tr_Phase res = RunError.
Proof.
  intros (_ & _ & l & Hl & He) (i & Hi & Hp & Hmin)%resultFor_Some. rewrite Hl in Hi, Hmin.
  apply lookup_app_Some in Hi as [Hi|[_ Hi]]; [left|right; by eapply He, list_elem_of_lookup_2].
  apply resultFor_Some. exists i. split_and!; [done..|]. intros j r Hj Hr.
  eapply Hmin; [exact Hj|]. by apply lookup_app_l_Some.
Qed.

Lemma extends_unit_done run run' t nodes : extends run run' → unit_done run t nodes → unit_done run' t nodes.
Proof.
  intros He. unfold unit_done. destruct (resultFor run (te_Name t) (first_node nodes)) as [res|] eqn:Hr; [|done].
  by rewrite (extends_resultFor _ _ _ _ _ He Hr).
Qed.

(** The run in hand, when only the world moves. *)
Lemma frame_in_hand run : frame eq (λ s, s_run s = run).
Proof. split; [done|done|]. intros s status <- <-. by destruct (s_run s). Qed.

Lemma restated_same_ids run run' : restated run run' → run_Name run' = run_Name run ∧ run_UID run' = run_UID run.
Proof. by intros [-> _]. Qed.

Definition swept (p : plan) (before after : BurnInRun) (t : Test) : Prop :=
  if knownScope (ts_Scope (te_Spec t)) then test_done p after t
  else ∃ res, resultFor after (te_Name t) "" = Some res ∧
              (resultFor before (te_Name t) "" = Some res ∨ tr_Phase res = RunError).

Lemma settleTest_spec p t s b s' :
  settleTest p t s = (inl b, s') →
  extends (s_run s) (s_run s') ∧ b = negb (knownScope (ts_Scope (te_Spec t))) ∧
  (b = true → swept p (s_run s) (s_run s') t).
Proof.
  unfold settleTest, swept, settleWithoutPod, getRun, now, mbind at 1 2, M_bind at 1 2.
  destruct (knownScope _); [intros [= <- <-]; split; [apply extends_refl|done]|].
  assert (∀ run key, (modifyRun (λ _, run) ;; deliverTestCompleted (pl_Sinks p) key ;; mret true) s = (inl b, s') →
    b = true ∧ s_run s' = run) as Hdel.
  { intros run key. unfold modifyRun, mbind, M_bind.
    pose proof (frame_deliverTestCompleted _ (frame_mild _ _ (frame_in_hand run)) (pl_Sinks p) key (set_s_run run s) eq_refl) as H.
    destruct (deliverTestCompleted _ _ _) as [[u|e] s1]; [|discriminate]. by intros [= <- <-]. }
  destruct (resultFor (s_run s) (te_Name t) "") as [res|] eqn:Hr.
  - intros [-> ->]%Hdel. split; [apply extends_refl|]. split; [done|]. intros _. exists res. by split; [|left].
  - cbv zeta. unfold appendSettled. intros [-> ->]%Hdel. set (res := bareResult _ _ _ _ _ _).
    assert (extends (s_run s) (recount (set_results (results (s_run s) ++ [res]) (s_run s)))) as He.
    { split_and!; try done. exists [res]. split; [done|]. by intros r ->%list_elem_of_singleton. }
    split; [done|]. split; [done|]. intros _. exists res. split; [|by right].
    apply resultFor_Some. exists (length (results (s_run s))).
    change (results (recount _)) with (results (s_run s) ++ [res]).
    split_and!; [by apply list_lookup_middle|by unfold result_is; cbn [res bareResult tr_Name]; rewrite String.eqb_refl|].
    intros j r Hj Hl. rewrite lookup_app_l in Hl by done.
    destruct (result_is (te_Name t) "" r) eqn:Hq; [|done]. exfalso.
    unfold resultFor, resultIndex in Hr.
    destruct (index_of _ _) as [k|] eqn:Hk.
    + apply index_of_Some in Hk as (x & Hx & _). cbn in Hr. congruence.
    + rewrite index_of_None in Hk. rewrite Hk in Hq; [done|]. by eapply list_elem_of_lookup_2.
Qed.

Lemma swept_extends p before before' after after' t :
  extends before before' → extends after after' → swept p before' after t → swept p before after' t.
Proof.
  intros Hb Ha. unfold swept. destruct (knownScope _).
  - intros H nodes Hn. eapply extends_unit_done; [exact Ha|by apply H].
  - intros (res & Hr & H). exists res. split; [by eapply extends_resultFor|].
    destruct H as [H|H]; [|by right]. by eapply extends_origin in H.
Qed.

(** Every test a finished sweep got to is done, and only fail-fast keeps it from one. *)
Lemma sweep_done p launch cap tests out s out' s' :
  sweep p launch cap out tests s = (inl out', s') → unfinishedPass out' = false →
  extends (s_run s) (s_run s') ∧
  ((pl_FailFast p = true ∧ hasRequiredFailure (s_run s') p = true) ∨
   ∀ e, e ∈ tests → swept p (s_run s) (s_run s') e.2).
Proof.
  revert out s. induction tests as [|[index t] tests IH]; intros out s.
  { intros [= <- <-] _. split; [apply extends_refl|]. right. by intros e ?%elem_of_nil. }
  cbn [sweep]. unfold mbind, M_bind, getRun.
  destruct (pl_FailFast p && hasRequiredFailure (s_run s) p) eqn:Hff.
  { intros [= <- <-] _. split; [apply extends_refl|]. left. by apply andb_prop in Hff. }
  destruct (settleTest p t s) as [[b|e] s1] eqn:Hs; [|discriminate].
  apply settleTest_spec in Hs as (He1 & Hb & Hsw).
  assert (∀ out s2, extends (s_run s1) (s_run s2) → swept p (s_run s) (s_run s2) t →
    sweep p launch cap out tests s2 = (inl out', s') → unfinishedPass out' = false →
    extends (s_run s) (s_run s') ∧ ((pl_FailFast p = true ∧ hasRequiredFailure (s_run s') p = true) ∨
     ∀ e, e ∈ (index, t) :: tests → swept p (s_run s) (s_run s') e.2)) as Hrest.
  { intros out2 s2 He2 Hsw2 Hr Hf. apply IH in Hr as [He3 Hr]; [|done].
    assert (extends (s_run s) (s_run s2)) as He by (by eapply extends_trans).
    split; [by eapply extends_trans|]. destruct Hr as [Hr|Hr]; [by left|right].
    intros e [->|Hin]%elem_of_cons.
    - eapply swept_extends; [apply extends_refl|exact He3|exact Hsw2].
    - eapply swept_extends; [exact He|apply extends_refl|by apply Hr]. }
  destruct b.
  - apply Hrest; [apply extends_refl|by apply Hsw].
  - destruct (sweepTest p (Z.of_nat index) t launch cap s1) as [[test|e] s2] eqn:Ht; [|discriminate].
    destruct (unfinishedPass test) eqn:Hu.
    { intros [= <- <-]. by rewrite unfinished_merge, Hu, orb_true_r. }
    apply sweepTest_done in Ht as [-> Hd]; [|done].
    apply Hrest; [apply extends_refl|]. unfold swept. symmetry in Hb. apply negb_false_iff in Hb.
    by rewrite Hb.
Qed.

(** *** A finished pass *)

(** Every test of the plan is done, or fail-fast stopped at a required failure. *)
Definition swept_all (p : plan) (before after : BurnInRun) : Prop :=
  (pl_FailFast p = true ∧ hasRequiredFailure after p = true) ∨
  ∀ t, t ∈ pl_Tests p → swept p before after t.

Lemma resultFor_results run run' name node :
  results run = results run' → resultFor run name node = resultFor run' name node.
Proof. intros H. unfold resultFor, resultIndex. by rewrite H. Qed.

Lemma swept_all_results p before before' after after' :
  results before = results before' → results after = results after' →
  swept_all p before after → swept_all p before' after'.
Proof.
  intros Hb Ha [[Hf Hr]|H]; [left|right].
  - split; [done|]. unfold hasRequiredFailure in *. by rewrite <-Ha.
  - intros t Ht. specialize (H t Ht). unfold swept in *. destruct (knownScope _).
    + intros nodes Hn. unfold unit_done. rewrite <-(resultFor_results _ _ _ _ Ha). by apply H.
    + destruct H as (res & Hr & H). exists res.
      by rewrite <-(resultFor_results _ _ _ _ Ha), <-(resultFor_results _ _ _ _ Hb).
Qed.

Lemma frame_results l : frame recordoned (λ s, results (s_run s) = l).
Proof. split; [done|done|]. intros s status [names ->] <-. done. Qed.

Lemma execute_done p launch s pass s' :
  execute p launch s = (inl pass, s') → unfinishedPass pass = false →
  swept_all p (s_run s) (s_run s').
Proof.
  unfold execute, mbind, M_bind, getRun, putBusy, getBusy.
  pose proof (frame_busyNodes _ (frame_mild _ _ (frame_results (results (s_run s)))) s eq_refl) as Hb.
  destruct (busyNodes s) as [[[busy awaiting]|e] s1]; [|discriminate].
  set (s2 := set_s_busy _ s1).
  destruct (sweep _ _ _ _ _ s2) as [[out|e] s3] eqn:Hs; [|discriminate].
  pose proof (frame_releaseHeldNodes _ (frame_mild _ _ (frame_results (results (s_run s3)))) (s_busy s3) s3 eq_refl) as Hr.
  destruct (releaseHeldNodes _ _) as [[released|e] s4]; [|discriminate].
  intros [= <- <-] Hu. assert (unfinishedPass out = false) as Hout.
  { revert Hu. unfold unfinishedPass. cbn. by rewrite !orb_false_r. }
  apply sweep_done in Hs as [_ Hs]; [|done].
  apply (swept_all_results p (s_run s2) _ (s_run s3)); [exact Hb|done|].
  destruct Hs as [Hs|Hs]; [by left|right]. intros t Ht.
  apply list_elem_of_lookup_1 in Ht as [i Hi]. apply (Hs (i, t)).
  apply list_elem_of_lookup. exists i. by rewrite list_lookup_imap, Hi.
Qed.
End done.

(** ** Acceptance *)

(** What a run called Passed has: of every test of its plan, a settled result on every unit
    of nodes, neither failed nor in error if the test is required; and no required test of
    a scope the operator does not know, unless an earlier pass settled it otherwise. *)
Definition judged_good (p : plan) (res : TestResult) : Prop :=
  is_set (requiredByName p) (tr_Name res) = true → tr_Phase res ≠ RunFailed ∧ tr_Phase res ≠ RunError.

Definition accepted (p : plan) (before run : BurnInRun) : Prop :=
  ∀ t, t ∈ pl_Tests p →
    if knownScope (ts_Scope (te_Spec t)) then
      ∀ nodes, nodes ∈ executionUnits p t → ∃ res,
        resultFor run (te_Name t) (first_node nodes) = Some res ∧
        IsTerminal (tr_Phase res) = true ∧ judged_good p res
    else is_set (requiredByName p) (te_Name t) = true →
      ∃ res, resultFor before (te_Name t) "" = Some res ∧ judged_good p res.

Lemma resultFor_name run name node res : resultFor run name node = Some res → tr_Name res = name.
Proof.
  intros (i & _ & H & _)%resultFor_Some. unfold result_is in H.
  apply andb_prop in H as [H _]. by apply String.eqb_eq in H.
Qed.

Lemma resultFor_elem run name node res : resultFor run name node = Some res → res ∈ results run.
Proof. intros (i & H & _)%resultFor_Some. by eapply list_elem_of_lookup_2. Qed.

Lemma final_phase_good run p res :
  final_phase run p = RunPassed → res ∈ results run → judged_good p res.
Proof.
  unfold final_phase, hasRequiredFailure, hasRequiredError.
  destruct (existsb _ _) eqn:Hf; [done|].
  destruct (existsb (λ r, bool_decide (tr_Phase r = RunError) && _) _) eqn:He; [done|].
  intros _ Hin Hreq. rewrite existsb_false_elem in Hf, He.
  specialize (Hf res Hin). specialize (He res Hin). cbn in Hf, He. rewrite Hreq in Hf, He.
  rewrite orb_true_r, andb_true_r in He. rewrite andb_true_r in Hf.
  by apply bool_decide_eq_false in Hf, He.
Qed.

Lemma swept_all_accepted p before after :
  swept_all p before after → final_phase after p = RunPassed → accepted p before after.
Proof.
  intros Hs Hp t Ht. destruct Hs as [[_ Hf]|Hs].
  { unfold final_phase in Hp. by rewrite Hf in Hp. }
  specialize (Hs t Ht). unfold swept in Hs. destruct (knownScope _).
  - intros nodes Hn. specialize (Hs nodes Hn). unfold unit_done, settledResult in Hs.
    destruct (resultFor after _ _) as [res|] eqn:Hr; [|done]. exists res. split_and!; [done|done|].
    eapply final_phase_good; [exact Hp|by eapply resultFor_elem].
  - destruct Hs as (res & Hr & Hb). intros Hreq.
    assert (judged_good p res) as Hg by (eapply final_phase_good; [exact Hp|by eapply resultFor_elem]).
    destruct Hb as [Hb|Hb]; [by exists res|]. rewrite <-(resultFor_name _ _ _ _ Hr) in Hreq.
    by destruct (Hg Hreq).
Qed.

(** ** Ending a run

    What a fact must survive to survive the end of a run: calls that touch neither the run
    nor what it holds, the two writes, a deletion, the edits of annotations and the terminal
    status; and, for the last steps, the loss of the finalizer. *)
Record closing (phase : RunPhase) (P : st → Prop) : Prop := MkClosing {
  closing_quiet : cluster_stable P;
  closing_status : lands P with_status (λ _ new, new);
  closing_meta : lands P with_meta with_status;
  closing_delete : ∀ s stored w, P s → w_run (s_world s) = Some stored →
    same_cluster (s_world s) w →
    ((w_run w = None ∧ run_Finalizers stored = []) ∨
     ∃ t, w_run w = Some (set_run_DeletionTimestamp t stored)) →
    P (set_s_world w s);
  closing_edit : ∀ s ann, P s → P (set_s_run (set_run_Annotations ann (s_run s)) s);
  closing_terminal : ∀ s n, P s → P (set_s_run (terminal_status n phase (s_run s)) s);
}.

Definition unfinalizing (P : st → Prop) : Prop :=
  ∀ s, P s → P (set_s_run (without_finalizer (s_run s)) s).

Create HintDb closing.

Section closing.
Context (phase : RunPhase) (P : st → Prop) (HP : closing phase P).

Lemma closing_getRun : keeps P getRun. Proof. by intros s H. Qed.

Lemma closing_statusUpdate : keeps P statusUpdate.
Proof. apply keeps_statusUpdate; apply HP. Qed.

Lemma closing_updateKeepingStatus : keeps P updateKeepingStatus.
Proof. apply keeps_updateKeepingStatus; apply HP. Qed.

Lemma closing_annotate k v : keeps P (annotate k v).
Proof. intros s H. exact (closing_edit _ _ HP s _ H). Qed.

Lemma closing_unannotate k : keeps P (unannotate k).
Proof. intros s H. exact (closing_edit _ _ HP s _ H). Qed.

Lemma closing_terminal_status n : keeps P (modifyRun (terminal_status n phase)).
Proof. intros s H. exact (closing_terminal _ _ HP s n H). Qed.

Lemma closing_deliver sinks reason key : keeps P (deliver sinks reason key).
Proof. apply quiet_deliver, HP. Qed.

Lemma closing_deliverPhase sinks p : keeps P (deliverPhase sinks p).
Proof. apply closing_deliver. Qed.

Lemma closing_deleteRun : keeps P deleteRun.
Proof.
  apply keeps_bind; [apply closing_getRun|]. intros run.
  apply keeps_call; [by intros s H; apply (closing_quiet _ _ HP)|]. intros s H.
  destruct (w_run (s_world s)) as [stored|] eqn:Hw; [|by apply (closing_quiet _ _ HP)].
  eapply (closing_delete _ _ HP s stored); [done|done|done|]. cbn.
  destruct (run_Finalizers stored) eqn:Hf; cbn; [by left|]. right. by eexists.
Qed.
End closing.
#[export] Hint Resolve closing_statusUpdate closing_updateKeepingStatus closing_annotate
  closing_unannotate closing_terminal_status closing_deliver closing_deliverPhase closing_deleteRun
  closing_getRun keeps_now_any : closing.

Ltac close :=
  repeat first
    [ progress intros
    | solve [eauto 3 with engine closing nocore]
    | apply keeps_ret
    | apply keeps_throw
    | apply keeps_try
    | apply keeps_when
    | apply keeps_fold_any
    | apply triple_iter
    | apply keeps_bind
    | case_match ].

Section closing2.
Context (phase : RunPhase) (P : st → Prop) (HP : closing phase P).

Local Hint Resolve HP : closing.

Lemma closing_handleTTL : keeps P handleTTL.
Proof. unfold handleTTL, ignoreNotFound. close. Qed.

Lemma closing_removeFinalizer : unfinalizing P → keeps P removeFinalizer.
Proof. intros Hu. unfold removeFinalizer. close; by apply Hu. Qed.
Local Hint Resolve closing_handleTTL closing_removeFinalizer : closing.

Lemma closing_wrapUp sinks : unfinalizing P → keeps P (wrapUp sinks phase).
Proof. intros Hu. unfold wrapUp. close. Qed.

Lemma closing_standDown : frame recordoned P → keeps P standDown.
Proof. intros HF. unfold standDown. close. Qed.
Local Hint Resolve closing_wrapUp closing_standDown : closing.

Lemma closing_terminate sinks : frame recordoned P → unfinalizing P → keeps P (terminate sinks phase).
Proof. intros HF Hu. unfold terminate. close. Qed.
End closing2.

(** *** Ending on results that deserve Passed *)
Lemma accepted_results p before run run' :
  results run' = results run → accepted p before run → accepted p before run'.
Proof.
  intros H Ha t Ht. specialize (Ha t Ht). destruct (knownScope _); [|done].
  intros nodes Hn. destruct (Ha nodes Hn) as (res & Hr & Hrest). exists res.
  by rewrite (resultFor_results _ _ _ _ H).
Qed.

Lemma close_open_name n res : tr_Name (close_open n res) = tr_Name res ∧ tr_Nodes (close_open n res) = tr_Nodes res.
Proof. unfold close_open. by case_match. Qed.

Lemma accepted_terminal p before run n phase :
  accepted p before run → accepted p before (terminal_status n phase run).
Proof.
  intros Ha t Ht. specialize (Ha t Ht). destruct (knownScope _); [|done].
  intros nodes Hn. destruct (Ha nodes Hn) as (res & Hr & Hterm & Hg). exists res.
  split_and!; [|done|done]. apply resultFor_Some in Hr as (i & Hi & Hp & Hmin).
  assert (results (terminal_status n phase run) = close_open n <$> results run) as Hl by done.
  apply resultFor_Some. exists i. rewrite Hl.
  split_and!; [|done|].
  - rewrite list_lookup_fmap, Hi. cbn. unfold close_open. by rewrite Hterm.
  - intros j r Hj. rewrite list_lookup_fmap. intros (r0 & Hr0 & ->)%fmap_Some.
    destruct (close_open_name n r0) as [H1 H2]. unfold result_is. rewrite H1, H2. exact (Hmin j r0 Hj Hr0).
Qed.

(** The run in hand deserves Passed, and so does the stored one if that is what it says. *)
Definition deserved (p : plan) (before : BurnInRun) (s : st) : Prop :=
  accepted p before (s_run s) ∧
  ∀ r, w_run (s_world s) = Some r → st_Phase (run_Status r) = RunPassed → accepted p before r.

Lemma frame_deserved p before : frame recordoned (deserved p before).
Proof.
  split.
  - intros s w Hw [H1 H2]. split; [done|]. cbn. by rewrite Hw.
  - done.
  - intros s status [names ->] [H1 H2]. split; [|done]. by eapply accepted_results; [|exact H1].
Qed.

Lemma closing_deserved p before phase : closing phase (deserved p before).
Proof.
  split; [apply (frame_cluster_stable _ _ (frame_deserved p before))|..].
  - intros s stored w [H1 H2] Hs _ Hst.
    assert (accepted p before (with_status (s_run s) stored)) as Hn by (by eapply accepted_results; [|exact H1]).
    split; (split; [done|]); cbn; destruct Hst as [->|[-> _]]; try done; by intros r [= <-].
  - intros s stored w [H1 H2] Hs _ Hst.
    assert (∀ r, w_run w = Some r → st_Phase (run_Status r) = RunPassed → accepted p before r) as Hn.
    { destruct Hst as [->|[-> _]]; [|done]. intros r [= <-] Hp.
      eapply accepted_results; [|exact (H2 stored Hs Hp)]. done. }
    split; (split; [|exact Hn]); [done|]. by eapply accepted_results; [|exact H1].
  - intros s stored w [H1 H2] Hs _ Hw. split; [done|]. cbn. intros r Hr Hp.
    destruct Hw as [[Hw _]|[t Hw]]; rewrite Hw in Hr; [done|]. injection Hr as <-.
    eapply accepted_results; [|exact (H2 stored Hs Hp)]. done.
  - intros s ann [H1 H2]. split; [|done]. by eapply accepted_results; [|exact H1].
  - intros s n [H1 H2]. split; [|done]. by apply accepted_terminal.
Qed.

Lemma unfinalizing_deserved p before : unfinalizing (deserved p before).
Proof. intros s [H1 H2]. split; [|done]. by eapply accepted_results; [|exact H1]. Qed.

(** *** Ending on anything else *)
Definition not_passed (s : st) : Prop :=
  st_Phase (run_Status (s_run s)) ≠ RunPassed ∧
  ∀ r, w_run (s_world s) = Some r → st_Phase (run_Status r) ≠ RunPassed.

Lemma frame_not_passed : frame same_phase not_passed.
Proof.
  split.
  - intros s w Hw [H1 H2]. split; [done|]. cbn. by rewrite Hw.
  - done.
  - intros s status Hp [H1 H2]. split; [|done]. cbn. by rewrite Hp.
Qed.

Lemma closing_not_passed phase : phase ≠ RunPassed → closing phase not_passed.
Proof.
  intros Hne. split; [apply (frame_cluster_stable _ _ frame_not_passed)|..].
  - intros s stored w [H1 H2] Hs _ Hst.
    split; (split; [done|]); cbn; destruct Hst as [->|[-> _]]; try done; by intros r [= <-].
  - intros s stored w [H1 H2] Hs _ Hst.
    pose proof (H2 stored Hs) as Hp.
    split; (split; [done|]); cbn; destruct Hst as [->|[-> _]]; try done; by intros r [= <-].
  - intros s stored w [H1 H2] Hs _ Hw. split; [done|]. cbn. intros r Hr.
    destruct Hw as [[Hw _]|[t Hw]]; rewrite Hw in Hr; [done|]. injection Hr as <-. by apply (H2 stored).
  - intros s ann [H1 H2]. done.
  - intros s n [H1 H2]. done.
Qed.

Lemma unfinalizing_not_passed : unfinalizing not_passed.
Proof. by intros s [H1 H2]. Qed.

Lemma not_passed_update : keeps not_passed update.
Proof.
  apply keeps_update; [apply (frame_cluster_stable _ _ frame_not_passed)|].
  intros s stored w [H1 H2] Hs _ Hst.
  pose proof (H2 stored Hs) as Hp.
  split; (split; [done|]); cbn; destruct Hst as [->|[-> _]]; try done; by intros r [= <-].
Qed.

Section not_passed.
Context `{codec : PlanCodec} `{cfg : Settings}.

Let HF : frame same_phase not_passed := frame_not_passed.
Let HM : mild same_phase not_passed := frame_mild _ _ frame_not_passed.
Let HE : closing RunError not_passed := closing_not_passed RunError ltac:(done).
Let HC : closing RunCancelled not_passed := closing_not_passed RunCancelled ltac:(done).
Local Hint Resolve HF HM mild_recordoned : engine.
Local Hint Resolve HE HC frame_recordoned unfinalizing_not_passed closing_handleTTL closing_standDown
  closing_terminate closing_removeFinalizer not_passed_update : closing.

(** An edit of the run in hand that does not call it Passed. *)
Lemma not_passed_modify f :
  (∀ run, st_Phase (run_Status run) ≠ RunPassed → st_Phase (run_Status (f run)) ≠ RunPassed) →
  keeps not_passed (modifyRun f).
Proof. intros Hf s [H1 H2]. split; [by apply Hf|done]. Qed.

Lemma not_passed_settleRemaining n p phase message :
  keeps not_passed (modifyRun (λ run, settleRemaining n run p phase message)).
Proof. apply (keeps_restated _ _ (frame_mild _ _ HF)). intros run. apply restated_settleRemaining. Qed.

Local Hint Resolve not_passed_settleRemaining : closing.
Local Hint Extern 2 (keeps _ (modifyRun _)) => apply not_passed_modify; done : closing.

Lemma not_passed_setCondition a b c d : keeps not_passed (setCondition a b c d).
Proof. unfold setCondition. close. Qed.
Lemma not_passed_addFinalizer : keeps not_passed addFinalizer.
Proof. unfold addFinalizer. close. Qed.
Lemma not_passed_finalizeError sinks cause : keeps not_passed (finalizeError sinks cause).
Proof. unfold finalizeError, appendSynthetic. close. Qed.
Local Hint Resolve not_passed_setCondition not_passed_addFinalizer not_passed_finalizeError : closing.
Lemma not_passed_redeliver : keeps not_passed redeliver.
Proof. unfold redeliver. close. Qed.
Local Hint Resolve not_passed_redeliver : closing.
Lemma not_passed_reconcileTerminal : keeps not_passed reconcileTerminal.
Proof. unfold reconcileTerminal. close. Qed.
Lemma not_passed_reconcileDeleted : keeps not_passed reconcileDeleted.
Proof. unfold reconcileDeleted, ignoreNotFound. close. Qed.
Lemma not_passed_persistPass p pass : keeps not_passed (persistPass p pass).
Proof. unfold persistPass. close. Qed.
Lemma not_passed_finishCancel p m : keeps not_passed (finishCancel p m).
Proof. unfold finishCancel. close. Qed.
Local Hint Resolve not_passed_persistPass not_passed_finishCancel : closing.
Lemma not_passed_cancel p : keeps not_passed (cancel p).
Proof. unfold cancel. close. Qed.
Lemma not_passed_expire p : keeps not_passed (expire p).
Proof.
  unfold expire. apply keeps_bind; [by eapply frame_getRun|]. intros run.
  apply keeps_bind; [by eapply frame_now|]. intros n. cbv zeta. close.
Qed.
Lemma not_passed_terminate_Error sinks : keeps not_passed (terminate sinks RunError).
Proof. apply closing_terminate; [apply HE|apply frame_recordoned, HF|apply unfinalizing_not_passed]. Qed.
Local Hint Resolve not_passed_terminate_Error : closing.

Lemma not_passed_captureFingerprint targets : keeps not_passed (captureFingerprint targets).
Proof. unfold captureFingerprint. close. Qed.
Lemma not_passed_capture targets : keeps not_passed (capturePriorSchedulability targets).
Proof. unfold capturePriorSchedulability, capture_one. close. Qed.
Lemma not_passed_soundCondition p : keeps not_passed (applyThresholdsSoundCondition p).
Proof. unfold applyThresholdsSoundCondition. close. Qed.
Lemma not_passed_expandedCondition p : keeps not_passed (applyPlanExpandedCondition p).
Proof. unfold applyPlanExpandedCondition. close. Qed.
Local Hint Resolve not_passed_captureFingerprint not_passed_capture not_passed_soundCondition
  not_passed_expandedCondition : closing.
Lemma not_passed_markRunning p : keeps not_passed (markRunning p).
Proof. unfold markRunning. close. Qed.
Local Hint Resolve not_passed_markRunning : closing.

Lemma not_passed_resolveProfile : keeps not_passed resolveProfile.
Proof. unfold resolveProfile, resolve_test. close. Qed.
Lemma not_passed_resolveTargets sp : keeps not_passed (resolveTargets sp).
Proof. unfold resolveTargets, rethrow. close. Qed.
Local Hint Resolve not_passed_resolveProfile not_passed_resolveTargets : closing.
Lemma not_passed_findConflict run targets : keeps not_passed (findConflict run targets).
Proof. unfold findConflict, consider, overlappingTargets, rethrow. close. Qed.
Local Hint Resolve not_passed_findConflict : closing.
Lemma not_passed_admit targets sinks : keeps not_passed (admitRun targets sinks).
Proof. unfold admitRun, setAdmitted, refuse, appendSynthetic. close. Qed.
Lemma not_passed_unresolved profile e : keeps not_passed (unresolved profile e).
Proof. unfold unresolved. close. Qed.
Local Hint Resolve not_passed_admit not_passed_unresolved : closing.

(** Reading the run and editing that very run. *)
Lemma not_passed_pin p : keeps not_passed (pin p).
Proof.
  intros s H. unfold pin, getRun, mbind at 1, M_bind at 1.
  destruct (pinPlan (s_run s) p) as [run|e] eqn:Hp; [|by apply not_passed_finalizeError].
  assert (st_Phase (run_Status run) = st_Phase (run_Status (s_run s))) as Hph.
  { revert Hp. unfold pinPlan. cbv zeta. repeat case_match; by intros [= <-]. }
  unfold modifyRun, mbind at 1, M_bind at 1.
  assert (keeps not_passed (addFinalizer ;; updateKeepingStatus ;; markRunning p)) as Hk by close.
  apply (Hk (set_s_run run s)). destruct H as [H1 H2]. split; [|done]. cbn. by rewrite Hph.
Qed.
Local Hint Resolve not_passed_pin : closing.

Lemma not_passed_start : keeps not_passed start.
Proof. unfold start, startAdmitted. close. Qed.
End not_passed.

(** ** Passed *)
Section passed.
Context `{codec : PlanCodec} `{cfg : Settings}.

Lemma keeps_post {A} P (m : M A) s : keeps P m → P s → P (m s).2.
Proof. intros Hm H. specialize (Hm s H). by destruct (m s) as [[a|e] s']. Qed.

(** A step ends in Passed only on results that deserve it. *)
Lemma step_passed p s :
  not_passed s →
  not_passed (step p s).2 ∨
  ∀ r, w_run (s_world (step p s).2) = Some r → st_Phase (run_Status r) = RunPassed →
    accepted p (s_run s) r.
Proof.
  intros H. remember (step p s) as o eqn:Ho. revert Ho.
  unfold step, getRun, now, mbind at 1 2, M_bind at 1 2.
  case_match; [intros ->; left; apply keeps_post; [apply not_passed_cancel|exact H]|].
  case_match; [intros ->; left; apply keeps_post; [apply not_passed_expire|exact H]|].
  unfold mbind at 1, M_bind at 1.
  pose proof (frame_execute _ frame_not_passed p (negb (suspended (s_run s))) s H) as He.
  pose proof (execute_done p (negb (suspended (s_run s))) s) as Hd.
  destruct (execute _ _ s) as [[pass|e] s1]; [|intros ->; by left].
  destruct (ps_running pass || ps_pending pass) eqn:Hrun.
  { intros ->. left. apply keeps_post; [apply not_passed_persistPass|exact He]. }
  destruct (ps_harvested pass) eqn:Hharv.
  { intros ->. left. apply keeps_post; [|exact He]. pose proof (closing_not_passed RunError ltac:(done)).
    pose proof frame_not_passed. pose proof frame_recordoned. close. }
  case_match; [intros ->; left; exact He|]. intros ->.
  destruct (decide (final_phase (s_run s1) p = RunPassed)) as [Hp|Hp].
  - right. assert (deserved p (s_run s) s1) as Hdes.
    { split; [|intros r Hr; by apply He in Hr]. apply swept_all_accepted, Hp.
      apply (Hd pass s1 eq_refl). unfold unfinishedPass. by rewrite Hrun, Hharv. }
    assert (keeps (deserved p (s_run s)) (finalize p)) as Hk.
    { intros s2 Hs2. exact (closing_terminate _ _ (closing_deserved p (s_run s) (final_phase (s_run s2) p)) _
        (frame_deserved p (s_run s)) (unfinalizing_deserved p (s_run s)) s2 Hs2). }
    exact (proj2 (keeps_post _ (finalize p) s1 Hk Hdes)).
  - left. exact (keeps_post _ (terminate (pl_Sinks p) _) s1
      (closing_terminate _ _ (closing_not_passed _ Hp) _ (frame_recordoned _ frame_not_passed)
         unfinalizing_not_passed) He).
Qed.

(** C1: A run is called Passed only on a full account: whatever calls fail or are lost, if
    reconciling a run that was not Passed leaves its stored status Passed, then every
    test of its pinned plan has a settled result on every unit of nodes it owes, no
    required one Failed or Error; and no required test of a scope the operator does not
    know passes by omission. *)
Theorem passed_only_when_accepted s run' :
  w_run (s_world s) = Some (s_run s) →
  st_Phase (run_Status (s_run s)) ≠ RunPassed →
  w_run (s_world (reconcileRun s).2) = Some run' → st_Phase (run_Status run') = RunPassed →
  ∃ p, loadPlan (s_run s) = Some (inl p) ∧ accepted p (s_run s) run'.
Proof.
  intros Hw Hp Hr Hp'. assert (not_passed s) as H by (split; [done|]; rewrite Hw; by intros r [= <-]).
  assert (¬ not_passed (reconcileRun s).2) as Hnot by (intros [_ Hn]; by apply (Hn run')).
  remember (reconcileRun s) as o eqn:Ho. revert Ho.
  unfold reconcileRun, getRun, mbind, M_bind.
  case_match; [intros ->; destruct Hnot; apply keeps_post; [apply not_passed_reconcileDeleted|done]|].
  case_match; [intros ->; destruct Hnot; apply keeps_post; [apply not_passed_reconcileTerminal|done]|].
  destruct (loadPlan (s_run s)) as [[p|e]|];
    [|intros ->; destruct Hnot; apply keeps_post; [apply not_passed_finalizeError|done]
     |intros ->; destruct Hnot; apply keeps_post; [apply not_passed_start|done]].
  case_match; [intros ->; destruct Hnot; apply keeps_post; [apply not_passed_markRunning|done]|].
  intros ->. exists p. split; [done|]. destruct (step_passed p s H) as [Hn|Hacc]; [done|]. by apply Hacc.
Qed.
End passed.

(** A run of one test on one node whose only result is in. *)
Definition host_result : TestResult :=
  set_tr_Phase RunPassed (newResult (host_test None) ["a"]).

Lemma passed_only_when_accepted_witness :
  let p := small_plan ["a"] (host_test None) in
  let s := cluster noon (running_run 1 0 [host_result]) [("a", idle_node)] [] [Land; Land] in
  let r := default (s_run s) (w_run (s_world
             (@reconcileRun (knows p) (Build_Settings "" true) s).2)) in
  st_Phase (run_Status r) = RunPassed ∧ accepted p (s_run s) r.
Proof.
  intros p s r.
  assert (w_run (s_world (@reconcileRun (knows p) (Build_Settings "" true) s).2) = Some r) as Hr
    by (vm_compute; reflexivity).
  assert (st_Phase (run_Status r) = RunPassed) as Hp by (vm_compute; reflexivity).
  split; [exact Hp|].
  destruct (@passed_only_when_accepted (knows p) (Build_Settings "" true) s r eq_refl
    ltac:(vm_compute; discriminate) Hr Hp) as (p' & Hl & Ha).
  assert (p' = p) as -> by (vm_compute in Hl; injection Hl as <-; reflexivity).
  exact Ha.
Defined.
