(* ===== verification/Guard.v ===== *)
(** * What a cleared finalizer proves

    The finalizer is the standing record that a run owes the cluster a cordon to give back
    and a pod to stop.  From a run that carries it, whatever calls fail or are lost, a
    reconcile either leaves it on the stored run or leaves nothing owed. *)

From S2P Require Import Prelude GoStrings GoFloat GoTime Contract Registry Runner Verdict Group Api.
From S2P Require Import Plan Soak Pods RunPlan PlanStore Attempt Effects World Cordon Admission PodBuild.
From S2P Require Import Rendezvous Artifacts Engine Lifecycle Scenario Frames Safety.
Open Scope stdpp_scope.

Section guard.
Context (run0 : BurnInRun).

Definition same_ids (run : BurnInRun) : Prop :=
  run_Namespace run = run_Namespace run0 ∧ run_Name run = run_Name run0 ∧ run_UID run = run_UID run0.

(** The live pods of the run, as the informer has them. *)
Definition known_live (w : world) : list Pod :=
  livePods run0 (List.filter (has_label labelRun (run_Name run0)) (map_to_list (w_informer w)).*2).

(** Every one of them is gone, or the server was told to delete it. *)
Definition stopped (w : world) : Prop :=
  ∀ pod, pod ∈ known_live w → w_pods w !! pod_Name pod = None ∨ pod_Name pod ∈ w_terminating w.

Definition nothing_owed (w : world) : Prop := stopped w ∧ unstamped run0 (w_nodes w).

(** The run in hand and the stored one still carry the finalizer. *)
Definition owing (s : st) : Prop :=
  same_ids (s_run s) ∧ has_finalizer (s_run s) = true ∧
  ∃ stored, w_run (s_world s) = Some stored ∧ same_ids stored ∧ has_finalizer stored = true.

Definition relieved (s : st) : Prop :=
  same_ids (s_run s) ∧ (∀ stored, w_run (s_world s) = Some stored → same_ids stored) ∧
  nothing_owed (s_world s).

Lemma same_ids_status run status : same_ids run → same_ids (set_run_Status status run).
Proof. done. Qed.

Lemma same_ids_owner run : same_ids run → cordonOwnerID run = cordonOwnerID run0.
Proof. intros (H1 & H2 & H3). unfold cordonOwnerID. by rewrite H1, H2, H3. Qed.

Lemma has_finalizer_nonempty run : has_finalizer run = true → run_Finalizers run ≠ [].
Proof. unfold has_finalizer. case_bool_decide as H; [|done]. intros _ Hf. rewrite Hf in H. by apply elem_of_nil in H. Qed.

Lemma nothing_owed_cluster w w' : same_cluster w w' → nothing_owed w → nothing_owed w'.
Proof.
  intros (Hn & Hp & Ht & Hi & _) [H1 H2]. unfold nothing_owed, stopped, known_live, unstamped in *.
  by rewrite Hn, Hp, Ht, Hi.
Qed.

(** ** Owing survives everything but the loss of the finalizer *)
Lemma frame_owing : frame same_phase owing.
Proof.
  split; [|done|].
  - intros s w Hw (H1 & H2 & H3). split_and!; [done..|]. cbn. by rewrite Hw.
  - intros s status _ (H1 & H2 & H3). done.
Qed.

Lemma closing_owing phase : closing phase owing.
Proof.
  split; [apply (frame_cluster_stable _ _ frame_owing)|..].
  - intros s stored w (H1 & H2 & stored' & Hs' & Hi & Hf) Hs _ Hst.
    assert (stored' = stored) as -> by congruence.
    destruct Hst as [Hw|[_ Hnil]]; [|by apply has_finalizer_nonempty in Hf].
    split; (split_and!; [done..|]); exists (with_status (s_run s) stored); done.
  - intros s stored w (H1 & H2 & stored' & Hs' & Hi & Hf) Hs _ Hst.
    assert (stored' = stored) as -> by congruence.
    destruct Hst as [Hw|[_ Hnil]]; [|by apply has_finalizer_nonempty in H2].
    split; (split_and!; [done..|]); exists (with_meta (s_run s) stored); done.
  - intros s stored w (H1 & H2 & stored' & Hs' & Hi & Hf) Hs _ Hw.
    assert (stored' = stored) as -> by congruence.
    destruct Hw as [[_ Hnil]|[t Hw]]; [by apply has_finalizer_nonempty in Hf|].
    split_and!; [done..|]. by exists (set_run_DeletionTimestamp t stored).
  - intros s ann (H1 & H2 & H3). done.
  - intros s n (H1 & H2 & H3). done.
Qed.

(** ** Being relieved survives the rest *)
Lemma closing_relieved phase : closing phase relieved.
Proof.
  split.
  - intros s w Hw Hc (H1 & H2 & H3). split_and!; [done| |].
    + cbn. rewrite Hw. exact H2.
    + cbn. by eapply nothing_owed_cluster.
  - intros s stored w (H1 & H2 & H3) Hs Hc Hst. pose proof (H2 stored Hs) as Hi.
    pose proof (nothing_owed_cluster _ _ Hc H3) as Hn.
    split; (split_and!; [done| |done]); cbn; destruct Hst as [->|[-> _]]; try done; by intros r [= <-].
  - intros s stored w (H1 & H2 & H3) Hs Hc Hst. pose proof (H2 stored Hs) as Hi.
    pose proof (nothing_owed_cluster _ _ Hc H3) as Hn.
    split; (split_and!; [done| |done]); cbn; destruct Hst as [->|[-> _]]; try done; by intros r [= <-].
  - intros s stored w (H1 & H2 & H3) Hs Hc Hw. pose proof (H2 stored Hs) as Hi.
    pose proof (nothing_owed_cluster _ _ Hc H3) as Hn. split_and!; [done| |done]. cbn.
    destruct Hw as [[-> _]|[t ->]]; [done|]. by intros r [= <-].
  - intros s ann (H1 & H2 & H3). done.
  - intros s n (H1 & H2 & H3). done.
Qed.

Lemma unfinalizing_relieved : unfinalizing relieved.
Proof. by intros s (H1 & H2 & H3). Qed.

Lemma relieved_update : keeps relieved update.
Proof.
  apply keeps_update; [apply (closing_quiet _ _ (closing_relieved RunError))|].
  intros s stored w (H1 & H2 & H3) Hs Hc Hst. pose proof (H2 stored Hs) as Hi.
  pose proof (nothing_owed_cluster _ _ Hc H3) as Hn.
  split; (split_and!; [done| |done]); cbn; destruct Hst as [->|[-> _]]; try done; by intros r [= <-].
Qed.

(** ** Stopping the load *)
Definition down (w : world) (pod : Pod) : Prop :=
  w_pods w !! pod_Name pod = None ∨ pod_Name pod ∈ w_terminating w.

Definition stopping (inf : gmap str Pod) (stopped : list Pod) (s : st) : Prop :=
  w_informer (s_world s) = inf ∧ ∀ pod, pod ∈ stopped → down (s_world s) pod.

Lemma deleteUnlessGone_spec inf done pod :
  triple (stopping inf done) (deleteUnlessGone pod) (λ _, stopping inf (pod :: done)) (λ _ _, True).
Proof.
  intros s [Hi Hd]. unfold deleteUnlessGone, deletePod, call, try, mbind, M_bind, stopping.
  destruct (head (w_faults (s_world s))) as [[| |]|]; cbn; rewrite ?IsNotFound_failure; try done;
    destruct (w_pods (s_world s) !! pod_Name pod) eqn:Hp; cbn; rewrite ?IsNotFound_NotFound; cbn;
    split; try exact Hi; intros q [->|Hq]%elem_of_cons; unfold down; cbn.
  all: first [by left | right; set_solver | (destruct (Hd q Hq) as [?|?]; [by left|right; set_solver])].
Qed.

Lemma stop_all inf pods done :
  triple (stopping inf done) (iter deleteUnlessGone pods)
    (λ _ s, w_informer (s_world s) = inf ∧ ∀ pod, pod ∈ pods → down (s_world s) pod) (λ _ _, True).
Proof.
  revert done. induction pods as [|pod pods IH]; intros done.
  { intros s [Hi _]. split; [done|]. by intros q ?%elem_of_nil. }
  cbn [iter]. eapply triple_bind; [apply deleteUnlessGone_spec|]. intros _ s H.
  pose proof (IH (pod :: done) s H) as Hr.
  assert (triple (stopping inf (pod :: done)) (iter deleteUnlessGone pods)
    (λ _, stopping inf (pod :: done)) (λ _ _, True)) as Hkeep.
  { clear. intros s H. revert s H. induction pods as [|q pods IH]; intros s H; [exact H|].
    cbn [iter]. unfold mbind, M_bind. pose proof (deleteUnlessGone_spec inf (pod :: done) q s H) as Hq.
    destruct (deleteUnlessGone q s) as [[u|e] s']; [|done]. apply IH. split; [apply Hq|].
    intros r Hr. apply Hq. by right. }
  specialize (Hkeep s H). destruct (iter _ pods s) as [[u|e] s']; [|done].
  destruct Hr as [Hi Hr]. split; [done|]. intros q [->|Hq]%elem_of_cons; [|by apply Hr].
  apply Hkeep. by left.
Qed.

Lemma deleteLivePods_stops :
  triple (λ s, same_ids (s_run s)) deleteLivePods (λ _ s, stopped (s_world s)) (λ _ _, True).
Proof.
  intros s Hids. unfold deleteLivePods, listPods, getRun, mbind at 1 2 3, M_bind at 1 2 3.
  unfold read, call. destruct Hids as (H1 & H2 & H3).
  assert (∀ w, w_informer w = w_informer (s_world s) →
    livePods (s_run s) (List.filter (has_label labelRun (run_Name (s_run s))) (map_to_list (w_informer w)).*2)
      = known_live w) as Hl.
  { intros w _. unfold known_live, livePods. by rewrite H2, H3. }
  assert (∀ s1, w_informer (s_world s1) = w_informer (s_world s) →
    match iter deleteUnlessGone (livePods (s_run s) (List.filter (has_label labelRun (run_Name (s_run s)))
      (map_to_list (w_informer (s_world s))).*2)) s1 with
    | (inl _, s') => stopped (s_world s')
    | (inr _, _) => True
    end) as Hgo.
  { intros s1 Hi1. rewrite <-Hi1, Hl by done.
    pose proof (stop_all (w_informer (s_world s1)) (known_live (s_world s1)) [] s1) as Hs.
    destruct (iter _ _ s1) as [[u|e] s']; [|done].
    destruct Hs as [Hi Hd]; [split; [done|by intros q ?%elem_of_nil]|].
    unfold stopped, known_live. rewrite Hi. exact Hd. }
  destruct (head (w_faults (s_world s))) as [[| |]|]; cbn; try done; by apply Hgo.
Qed.

Lemma releaseCordons_pods w0 :
  keeps (λ s, w_pods (s_world s) = w_pods w0 ∧ w_terminating (s_world s) = w_terminating w0 ∧
              w_informer (s_world s) = w_informer w0) releaseCordons.
Proof.
  apply frame_releaseCordons. split.
  - intros s w (_ & Hp & Ht & Hi & _) H. cbn. by rewrite Hp, Ht, Hi.
  - by intros s status _ H.
Qed.

Lemma stop_and_release {A} (f : bool → M A) :
  (∀ released, keeps relieved (f released)) →
  triple owing (deleteLivePods ;; released ← releaseCordons; f released)
    (λ _, relieved) (λ _ s, owing s ∨ relieved s).
Proof.
  intros Hf. pose proof (frame_recordoned _ frame_owing) as HF.
  apply (triple_bind _ _ _ (λ _ s, owing s ∧ stopped (s_world s))).
  { eapply triple_conseq; [apply triple_and; [apply (frame_deleteLivePods _ HF)|apply deleteLivePods_stops]| | |].
    - intros s H. split; [exact H|apply H].
    - done.
    - intros e s [H _]. by left. }
  intros _. apply (triple_bind _ _ _ (λ _, relieved)).
  - apply triple_pre. intros s [Ho Hst].
    eapply triple_conseq; [apply triple_and; [apply (frame_releaseCordons _ (frame_mild _ _ HF))|apply triple_and;
      [apply (releaseCordons_unstamps run0)|apply (releaseCordons_pods (s_world s))]]| | |].
    + intros s' ->. split; [exact Ho|]. split; [apply same_ids_owner, Ho|done].
    + intros b s' ((H1 & H2 & stored & Hs & Hi & Hfin) & Hu & Hp & Ht & Hin).
      split_and!; [done|intros st' Hs'; by simplify_eq|]. split; [|exact Hu].
      unfold stopped, known_live in *. by rewrite Hp, Ht, Hin.
    + intros e s' [H _]. by left.
  - intros released. eapply triple_conseq; [apply (Hf released)|done|done|]. intros e s H. by right.
Qed.

Lemma standDown_relieves :
  triple owing standDown (λ _, relieved) (λ _ s, owing s ∨ relieved s).
Proof.
  apply stop_and_release. intros released.
  apply keeps_when, (closing_statusUpdate _ _ (closing_relieved RunError)).
Qed.

(** What every handler leaves behind when it starts from a run that owes. *)
Definition guarded (s : st) : Prop := owing s ∨ relieved s.

Lemma guarded_bind {A B} (m : M A) (f : A → M B) :
  keeps owing m → (∀ a, triple owing (f a) (λ _, guarded) (λ _, guarded)) →
  triple owing (m ≫= f) (λ _, guarded) (λ _, guarded).
Proof.
  intros Hm Hf. apply (triple_bind _ _ _ (λ _, owing)); [|exact Hf].
  eapply triple_conseq; [exact Hm|done|done|]. intros e s H. by left.
Qed.

Lemma guarded_keeps {A} (m : M A) : keeps owing m → triple owing m (λ _, guarded) (λ _, guarded).
Proof. intros H. eapply triple_conseq; [exact H|done|intros; by left..]. Qed.

Lemma guarded_then {A} (m : M A) :
  keeps relieved m → triple owing (standDown ;; m) (λ _, guarded) (λ _, guarded).
Proof.
  intros Hm. apply (triple_bind _ _ _ (λ _, relieved)); [exact standDown_relieves|]. intros _.
  eapply triple_conseq; [exact Hm|done|intros; by right..].
Qed.

Lemma guarded_terminate sinks phase :
  triple owing (terminate sinks phase) (λ _, guarded) (λ _, guarded).
Proof.
  pose proof (closing_owing phase) as Hc. unfold terminate.
  apply guarded_bind; [apply keeps_now_any|]. intros n.
  apply guarded_bind; [exact (closing_terminal_status _ _ Hc n)|]. intros _.
  apply guarded_bind; [exact (closing_statusUpdate _ _ Hc)|]. intros _.
  apply guarded_bind; [exact (closing_annotate _ _ Hc _ _)|]. intros _.
  apply guarded_bind; [exact (closing_updateKeepingStatus _ _ Hc)|]. intros _.
  apply guarded_then, closing_wrapUp; [apply closing_relieved|apply unfinalizing_relieved].
Qed.

Lemma owing_modify f :
  (∀ run, same_ids run → has_finalizer run = true → same_ids (f run) ∧ has_finalizer (f run) = true) →
  keeps owing (modifyRun f).
Proof. intros Hf s (H1 & H2 & H3). split_and!; [by apply Hf..|done]. Qed.

Lemma owing_settleRemaining n p phase message :
  keeps owing (modifyRun (λ run, settleRemaining n run p phase message)).
Proof. apply (keeps_restated _ _ (frame_mild _ _ frame_owing)). intros run. apply restated_settleRemaining. Qed.

Lemma owing_addFinalizer : keeps owing addFinalizer.
Proof.
  intros s H. unfold addFinalizer, getRun, mbind, M_bind. destruct H as (H1 & H2 & H3).
  by rewrite H2.
Qed.
End guard.

Create HintDb guard.

Section handlers.
Context `{codec : PlanCodec} `{cfg : Settings} (run0 : BurnInRun).

Let HF : frame same_phase (owing run0) := frame_owing run0.
Let HM : mild same_phase (owing run0) := frame_mild _ _ (frame_owing run0).
Let HE : closing RunError (owing run0) := closing_owing run0 RunError.
Let HR : closing RunError (relieved run0) := closing_relieved run0 RunError.
Let HU : unfinalizing (relieved run0) := unfinalizing_relieved run0.
Let Hupd : keeps (relieved run0) update := relieved_update run0.
Local Hint Resolve HF HM mild_recordoned : engine.
Local Hint Resolve HE HR HU Hupd frame_recordoned closing_handleTTL closing_removeFinalizer
  owing_settleRemaining owing_addFinalizer : closing.
Local Hint Extern 2 (keeps _ (modifyRun _)) => apply owing_modify; done : closing.
Local Hint Resolve guarded_terminate : guard.

Ltac guarding :=
  repeat first
    [ progress intros
    | solve [eauto 2 with guard nocore]
    | apply guarded_bind; [solve [close]|]
    | apply guarded_then; solve [close]
    | case_match
    | apply guarded_keeps; solve [close] ].

Lemma guarded_finalizeError sinks cause :
  triple (owing run0) (finalizeError sinks cause) (λ _, guarded run0) (λ _, guarded run0).
Proof. unfold finalizeError, appendSynthetic. guarding. Qed.

Lemma relieved_redeliver : keeps (relieved run0) redeliver.
Proof. unfold redeliver. close. Qed.
Local Hint Resolve relieved_redeliver : closing.
Local Hint Resolve guarded_finalizeError : guard.

Lemma guarded_reconcileTerminal :
  triple (owing run0) reconcileTerminal (λ _, guarded run0) (λ _, guarded run0).
Proof.
  unfold reconcileTerminal. intros s H. unfold getRun, mbind at 1, M_bind at 1.
  rewrite (proj1 (proj2 H)). cbn [when].
  assert (triple (owing run0) (standDown ;; (removeFinalizer ;; updateKeepingStatus) ;; redeliver)
    (λ _, guarded run0) (λ _, guarded run0)) as Hg by (apply guarded_then; close).
  specialize (Hg s H). revert Hg. unfold mbind, M_bind.
  destruct (standDown s) as [[u|e] s1]; [|done].
  destruct (removeFinalizer s1) as [[b|e] s2]; [|done]. by destruct (updateKeepingStatus s2) as [[]].
Qed.

Lemma guarded_reconcileDeleted :
  triple (owing run0) reconcileDeleted (λ _, guarded run0) (λ _, guarded run0).
Proof.
  unfold reconcileDeleted, ignoreNotFound. apply guarded_bind; [close|]. intros run.
  case_match; [guarding|]. eapply triple_conseq; [apply stop_and_release; close|done|intros; by right|done].
Qed.

Lemma guarded_persistPass p pass :
  triple (owing run0) (persistPass p pass) (λ _, guarded run0) (λ _, guarded run0).
Proof. unfold persistPass. guarding. Qed.
Local Hint Resolve guarded_persistPass : guard.

Lemma guarded_finishCancel p m :
  triple (owing run0) (finishCancel p m) (λ _, guarded run0) (λ _, guarded run0).
Proof. unfold finishCancel. guarding. Qed.
Local Hint Resolve guarded_finishCancel : guard.

Lemma guarded_cancel p : triple (owing run0) (cancel p) (λ _, guarded run0) (λ _, guarded run0).
Proof. unfold cancel. guarding. Qed.

Lemma guarded_expire p : triple (owing run0) (expire p) (λ _, guarded run0) (λ _, guarded run0).
Proof.
  unfold expire. apply guarded_bind; [close|]. intros run. apply guarded_bind; [close|]. intros n.
  cbv zeta. guarding.
Qed.

Lemma guarded_finalize p : triple (owing run0) (finalize p) (λ _, guarded run0) (λ _, guarded run0).
Proof. unfold finalize. guarding. Qed.
Local Hint Resolve guarded_cancel guarded_expire guarded_finalize : guard.

Lemma guarded_step p : triple (owing run0) (step p) (λ _, guarded run0) (λ _, guarded run0).
Proof. unfold step. guarding. Qed.

(** *** Before the first step *)
Lemma owing_setCondition a b c d : keeps (owing run0) (setCondition a b c d).
Proof. unfold setCondition. close. Qed.
Local Hint Resolve owing_setCondition : closing.
Lemma owing_captureFingerprint targets : keeps (owing run0) (captureFingerprint targets).
Proof. unfold captureFingerprint. close. Qed.
Lemma owing_capture targets : keeps (owing run0) (capturePriorSchedulability targets).
Proof. unfold capturePriorSchedulability, capture_one. close. Qed.
Local Hint Resolve owing_captureFingerprint owing_capture : closing.
Lemma owing_markRunning p : keeps (owing run0) (markRunning p).
Proof. unfold markRunning, applyThresholdsSoundCondition, applyPlanExpandedCondition. close. Qed.
Local Hint Resolve owing_markRunning : closing.
Lemma owing_resolveProfile : keeps (owing run0) resolveProfile.
Proof. unfold resolveProfile, resolve_test. close. Qed.
Lemma owing_resolveTargets sp : keeps (owing run0) (resolveTargets sp).
Proof. unfold resolveTargets, rethrow. close. Qed.
Local Hint Resolve owing_resolveProfile owing_resolveTargets : closing.
Lemma owing_findConflict run targets : keeps (owing run0) (findConflict run targets).
Proof. unfold findConflict, consider, overlappingTargets, rethrow. close. Qed.
Local Hint Resolve owing_findConflict : closing.

Lemma guarded_pin p : triple (owing run0) (pin p) (λ _, guarded run0) (λ _, guarded run0).
Proof.
  intros s H. unfold pin, getRun, mbind at 1, M_bind at 1.
  destruct (pinPlan (s_run s) p) as [run|e] eqn:Hp; [|by apply guarded_finalizeError].
  assert (∃ ann, run = set_run_Annotations ann (s_run s)) as [ann ->].
  { revert Hp. unfold pinPlan. cbv zeta. repeat case_match; intros [= <-]; by eexists. }
  unfold modifyRun, mbind at 1, M_bind at 1.
  assert (triple (owing run0) (addFinalizer ;; updateKeepingStatus ;; markRunning p)
    (λ _, guarded run0) (λ _, guarded run0)) as Hk by (apply guarded_keeps; close).
  apply (Hk (set_s_run (set_run_Annotations ann (s_run s)) s)). exact (closing_edit _ _ HE s ann H).
Qed.
Local Hint Resolve guarded_pin : guard.

Lemma guarded_unresolved profile e :
  triple (owing run0) (unresolved profile e) (λ _, guarded run0) (λ _, guarded run0).
Proof. unfold unresolved. guarding. Qed.

Lemma guarded_admitted profile tests targets :
  triple (owing run0) (startAdmitted profile tests targets) (λ _, guarded run0) (λ _, guarded run0).
Proof. unfold startAdmitted. guarding. Qed.
Local Hint Resolve guarded_unresolved guarded_admitted : guard.

Lemma guarded_admit targets sinks :
  triple (owing run0) (admitRun targets sinks)
    (λ res s, match res with None => owing run0 s | Some _ => guarded run0 s end) (λ _, guarded run0).
Proof.
  assert (∀ a b c, triple (owing run0) (setAdmitted a b c ;; mret (None : option requeue))
    (λ res s, match res with None => owing run0 s | Some _ => guarded run0 s end) (λ _, guarded run0)) as Hyes.
  { intros a b c. apply (triple_bind _ _ _ (λ _, owing run0)); [|by intros _ s H].
    unfold setAdmitted. eapply triple_conseq; [apply owing_setCondition|done|done|intros; by left]. }
  unfold admitRun. apply (triple_bind _ _ _ (λ _, owing run0)); [by intros s H|]. intros run.
  apply (triple_bind _ _ _ (λ _, owing run0)).
  { eapply triple_conseq; [apply owing_findConflict|done|done|intros; by left]. }
  intros [c|]; [|apply Hyes]. case_match; [apply Hyes|].
  apply (triple_bind _ _ _ (λ _, owing run0)).
  { unfold setAdmitted. eapply triple_conseq; [apply owing_setCondition|done|done|intros; by left]. }
  intros _. apply (triple_bind _ _ _ (λ _, guarded run0)); [|by intros res s' Hs'].
  unfold refuse, appendSynthetic. apply guarded_bind; [close|]. intros _. apply guarded_terminate.
Qed.

Lemma guarded_start : triple (owing run0) start (λ _, guarded run0) (λ _, guarded run0).
Proof.
  unfold start. apply guarded_bind; [close|]. intros run. apply guarded_bind; [close|].
  intros [[profile|] [tests|e]];
    [|apply guarded_unresolved|apply guarded_keeps, keeps_ret|apply guarded_unresolved].
  apply guarded_bind; [close|]. intros [targets|e]; [|apply guarded_unresolved].
  eapply triple_bind; [apply guarded_admit|]. intros [res|]; [by intros s H|apply guarded_admitted].
Qed.

Lemma guarded_reconcileRun :
  triple (owing run0) reconcileRun (λ _, guarded run0) (λ _, guarded run0).
Proof.
  unfold reconcileRun. apply guarded_bind; [close|]. intros run.
  case_match; [apply guarded_reconcileDeleted|]. case_match; [apply guarded_reconcileTerminal|].
  case_match; [case_match|apply guarded_start]; [|apply guarded_finalizeError].
  case_match; [apply guarded_keeps, owing_markRunning|apply guarded_step].
Qed.
End handlers.

(** C3: The finalizer is only cleared when nothing is owed: reconciling a run that carries
    it, whatever calls fail or are lost, leaves it on the stored run, or no node of the
    cluster carries a stamp of the run and every live pod of the run that its cache shows
    is gone or has been told to go. *)
Theorem finalizer_guard `{codec : PlanCodec} `{cfg : Settings} s :
  w_run (s_world s) = Some (s_run s) → has_finalizer (s_run s) = true →
  let w := s_world (reconcileRun s).2 in
  (∃ stored, w_run w = Some stored ∧ has_finalizer stored = true) ∨ nothing_owed (s_run s) w.
Proof.
  intros Hw Hf. cbv zeta.
  assert (owing (s_run s) s) as H by (split_and!; [done..|]; by exists (s_run s)).
  pose proof (guarded_reconcileRun (s_run s) s H) as Hg.
  destruct (reconcileRun s) as [[r|e] s']; cbn [snd];
    (destruct Hg as [(_ & _ & stored & Hs & _ & Hfin)|(_ & _ & Hn)]; [left; by exists stored|by right]).
Qed.

(** A deleted run with a stamped node and a live pod. *)
Definition deleted_run : BurnInRun := set_run_DeletionTimestamp (Some 5%Z) (running_run 1 0 []).

Definition stamped_node : Node :=
  MkNode ∅ {[ AnnotationCordonOwner := cordonOwnerID deleted_run ]} true "" "" "".

Lemma finalizer_guard_witness :
  let s := cluster noon deleted_run [("a", stamped_node)]
             [first_pod "a" (noon - 10 * second) PodRunning None []] [] in
  has_finalizer (s_run s) = true ∧
  let w := s_world (@reconcileRun (knows (small_plan ["a"] (host_test None))) (Build_Settings "" true) s).2 in
  nothing_owed (s_run s) w.
Proof.
  intros s. assert (has_finalizer (s_run s) = true) as Hf by (vm_compute; reflexivity).
  split; [exact Hf|]. intros w.
  destruct (@finalizer_guard (knows (small_plan ["a"] (host_test None))) (Build_Settings "" true) s
    eq_refl Hf) as [(stored & Hs & _)|H]; [|exact H].
  exfalso. revert Hs. vm_compute. discriminate.
Defined.

(** A pod created a moment ago, a run cancelled at once, and a cache that does not have the
    pod yet: the finalizer goes, and with it the only sweep that would have found it. *)
Definition cancelled_run : BurnInRun :=
  let run := running_run 1 0 [] in
  MkRun (run_Namespace run) (run_Name run) (run_UID run) 0 None (run_Annotations run)
    (run_Finalizers run)
    (MkRunSpec "p" [] ∅ [] None None None None None None (Some true) CancelImmediate "" None)
    (run_Status run).

Definition unseen_pod_cluster : st :=
  let s := cluster noon cancelled_run [("a", idle_node)]
             [first_pod "a" (noon - second) PodPending None []] [] in
  set_s_world (set_w_informer ∅ (s_world s)) s.

Lemma stale_cache_leaves_pod :
  let s' := (@reconcileRun (knows (small_plan ["a"] (host_test None))) (Build_Settings "" true)
               unseen_pod_cluster).2 in
  let w := s_world s' in
  run_Finalizers (s_run s') = [] ∧ st_Phase (run_Status (s_run s')) = RunCancelled ∧
  size (w_terminating w) = 0%nat ∧ podLive <$> (map_to_list (w_pods w)).*2 = [true].
Proof. vm_compute. done. Qed.

(** Deleting a pod is a request: the node is schedulable again, its stamp gone, while the
    pod is still there, terminating. *)
Lemma released_while_terminating :
  let s' := (@reconcileRun (knows (small_plan ["a"] (host_test None))) (Build_Settings "" true)
               (cluster noon deleted_run [("a", stamped_node)]
                  [first_pod "a" (noon - 10 * second) PodRunning None []] [])).2 in
  (λ n, (nd_Unschedulable n, map_to_list (nd_Annotations n))) <$>
    (map_to_list (w_nodes (s_world s'))).*2 = [(false, [])] ∧
  podLive <$> (map_to_list (w_pods (s_world s'))).*2 = [true].
Proof. vm_compute. done. Qed.
