(* ===== verification/Converge.v ===== *)
(** * A finished run settles what it owes

    Every call of a reconcile can fail, and the controller's answer is to be called again.
    What makes that an answer: once the calls get through and the sinks accept, one
    reconcile of a finished run leaves nothing for the next. *)

From S2P Require Import Prelude GoStrings GoFloat GoTime Contract Registry Runner Verdict Group Api.
From S2P Require Import Plan Soak Pods RunPlan PlanStore Attempt Effects World Cordon Admission PodBuild.
From S2P Require Import Rendezvous Artifacts Engine Lifecycle Scenario Frames Safety Guard.
Open Scope stdpp_scope.

(** A handler that reports no error from the states of [P] and stays among them. *)
Definition smooth {A} (P : st → Prop) (m : M A) : Prop := triple P m (λ _, P) (λ _ _, False).

Section smooth.
Context {A B : Type} (P : st → Prop).

Lemma smooth_ret (a : A) : smooth P (mret a).
Proof. by intros s H. Qed.

Lemma smooth_bind (m : M A) (f : A → M B) : smooth P m → (∀ a, smooth P (f a)) → smooth P (m ≫= f).
Proof. intros. by eapply triple_bind. Qed.

Lemma smooth_reader (f : st → A) : smooth P (λ s, (inl (f s), s)).
Proof. by intros s H. Qed.
End smooth.

Lemma smooth_when P b m : smooth P m → smooth P (when b m).
Proof. intros. destruct b; [done|apply smooth_ret]. Qed.

Lemma smooth_iter {A} P (f : A → M ()) l : (∀ a, smooth P (f a)) → smooth P (iter f l).
Proof.
  intros H. induction l as [|a l IH]; [apply smooth_ret|]. cbn [iter].
  apply smooth_bind; [apply H|by intros _].
Qed.

Lemma smooth_fold {A B} P (f : B → A → M B) acc l : (∀ b a, smooth P (f b a)) → smooth P (fold f acc l).
Proof. intros H. apply (triple_fold (λ _, P)). intros b a _. apply H. Qed.

(** ** What was sent meanwhile *)
Section sent.
Context (before : list event).

(** Since [before], the trace has grown, and every event of [evs] is in what it grew by. *)
Definition since (evs : list event) (s : st) : Prop :=
  ∃ new, w_trace (s_world s) = new ++ before ∧ ∀ e, e ∈ evs → e ∈ new.

Lemma since_emit evs e s w :
  since evs s → w_trace w = e :: w_trace (s_world s) → since (e :: evs) (set_s_world w s).
Proof.
  intros (new & Hn & Hin) Hw. exists (e :: new). cbn. rewrite Hw, Hn. split; [done|].
  intros e' [->|He]%elem_of_cons; [apply list_elem_of_here|by apply list_elem_of_further, Hin].
Qed.

Lemma since_weaken evs evs' s : (∀ e, e ∈ evs' → e ∈ evs) → since evs s → since evs' s.
Proof. intros Hi (new & Hn & Hin). exists new. split; [done|]. intros e He. by apply Hin, Hi. Qed.

Context (evs : list event).

(** A call adds one event or none. *)
Lemma since_call {A} name (f : world → (A + error_class) * world) :
  (∀ w, w_trace (f w).2 = w_trace w ∨ ∃ e, w_trace (f w).2 = e :: w_trace w) →
  keeps (since evs) (call name f).
Proof.
  intros Hf. apply keeps_call; intros s Hs; [exact Hs|]. destruct (Hf (s_world s)) as [He|[e He]].
  - destruct Hs as (new & Hn & Hin). exists new. cbn. by rewrite He, Hn.
  - eapply since_weaken; [|by eapply since_emit]. intros e' H. by apply list_elem_of_further.
Qed.

Lemma since_getRun : keeps (since evs) getRun. Proof. by intros s H. Qed.
Lemma since_now : keeps (since evs) now. Proof. by intros s H. Qed.
Lemma since_modifyRun f : keeps (since evs) (modifyRun f). Proof. by intros s H. Qed.
Lemma since_read {A} name (f : world → option A) : keeps (since evs) (read name f).
Proof. apply since_call. by left. Qed.
Lemma since_deletePod n : keeps (since evs) (deletePod n).
Proof. apply since_call. intros w. case_match; [right; by eexists|by left]. Qed.
Lemma since_updateNode n node : keeps (since evs) (updateNode n node).
Proof. apply since_call. intros w. case_match; [right; by eexists|by left]. Qed.
Lemma since_updateSink n status : keeps (since evs) (updateSink n status).
Proof. apply since_call. left. by case_match. Qed.
Lemma since_stored_update f run ev : keeps (since evs) (stored_update f run ev).
Proof.
  apply keeps_bind; [|intros; apply since_modifyRun]. apply since_call.
  intros w. destruct (w_run w); [right; by eexists|by left].
Qed.
Lemma since_deleteRun : keeps (since evs) deleteRun.
Proof.
  apply keeps_bind; [apply since_getRun|]. intros run. apply since_call.
  intros w. destruct (w_run w); [right; by eexists|by left].
Qed.
End sent.

Local Hint Resolve since_getRun since_now since_modifyRun since_read since_deletePod since_updateNode
  since_updateSink since_stored_update since_deleteRun : engine.

Lemma since_standDown before evs : keeps (since before evs) standDown.
Proof.
  unfold standDown, deleteLivePods, deleteUnlessGone, releaseCordons, release_listed, update_unless_gone,
    set_cordoned, listPods, listNodes, statusUpdate.
  keep.
Qed.

Lemma since_handleTTL before evs : keeps (since before evs) handleTTL.
Proof. unfold handleTTL, ignoreNotFound. keep. Qed.
Local Hint Resolve since_handleTTL : engine.

Lemma since_settling before evs :
  keeps (since before evs) (unannotate pendingDeliveryAnnotation ;; update ;; handleTTL).
Proof. unfold unannotate, update. keep. Qed.

Lemma since_drop_finalizer before evs : keeps (since before evs) (removeFinalizer ;; updateKeepingStatus).
Proof. unfold removeFinalizer, updateKeepingStatus, update. keep. Qed.

(** ** A world that answers *)
Section calm.
Context (sinks : list str).

(** No fault to come, every sink there and accepting, and a stored run nobody deletes. *)
Definition calm (s : st) : Prop :=
  w_faults (s_world s) = [] ∧ w_sends (s_world s) = [] ∧
  (∀ n, n ∈ sinks → is_Some (w_sinks (s_world s) !! n)) ∧
  ∃ stored, w_run (s_world s) = Some stored ∧ run_DeletionTimestamp stored = None.

Lemma calm_world w : w_faults w = [] → set_w_faults (tail (w_faults w)) w = w.
Proof. destruct w. cbn. by intros ->. Qed.

(** A call on a calm world lands; its answer is its effect's. *)
Lemma calm_call {A} name (f : world → (A + error_class) * world) s :
  calm s →
  call name f s =
  (match (f (s_world s)).1 with
   | inl a => inl a
   | inr c => inr (MkError c (w_text (s_world s) c name))
   end, set_s_world (f (s_world s)).2 s).
Proof.
  intros (Hf & _). unfold call. rewrite (calm_world _ Hf), Hf. cbn [head].
  by destruct (f (s_world s)) as [[a|c] w'].
Qed.

Lemma smooth_call {A} name (f : world → (A + error_class) * world) :
  (∀ s, calm s → (∃ a, (f (s_world s)).1 = inl a) ∧ calm (set_s_world (f (s_world s)).2 s)) →
  smooth calm (call name f).
Proof.
  intros Hf s H. rewrite (calm_call _ _ _ H). destruct (Hf s H) as [[a Ha] Hc]. by rewrite Ha.
Qed.

(** A call whose only refusal is NotFound, which the caller forgives. *)
Lemma smooth_forgiven name (f : world → (() + error_class) * world) :
  (∀ s, calm s → ((f (s_world s)).1 = inl tt ∨ (f (s_world s)).1 = inr NotFound) ∧
                 calm (set_s_world (f (s_world s)).2 s)) →
  smooth calm (r ← try (call name f);
    match r with inl _ => mret tt | inr e => if IsNotFound e then mret tt else throw e end).
Proof.
  intros Hf s H. unfold try, mbind, M_bind. rewrite (calm_call _ _ _ H).
  destruct (Hf s H) as [[Ha|Ha] Hc]; by rewrite Ha.
Qed.

Lemma smooth_getRun : smooth calm getRun. Proof. by intros s H. Qed.
Lemma smooth_now : smooth calm now. Proof. by intros s H. Qed.
Lemma smooth_modifyRun f : smooth calm (modifyRun f). Proof. by intros s H. Qed.

Lemma smooth_listPods : smooth calm listPods.
Proof.
  apply smooth_bind; [apply smooth_getRun|]. intros run. apply smooth_call.
  intros s H. split; [by eexists|]. by destruct s.
Qed.

Lemma smooth_listNodes : smooth calm listNodes.
Proof. apply smooth_call. intros s H. split; [by eexists|]. by destruct s. Qed.

Lemma smooth_deleteUnlessGone pod : smooth calm (deleteUnlessGone pod).
Proof. apply smooth_forgiven. intros s H. case_match; (split; [eauto|by destruct s]). Qed.

Lemma smooth_update_unless_gone n node : smooth calm (update_unless_gone n node).
Proof. apply smooth_forgiven. intros s H. case_match; (split; [eauto|by destruct s]). Qed.

(** A write of the run lands, and is what is stored. *)
Lemma calm_write f run ev s :
  calm s → (∀ stored, run_DeletionTimestamp (f stored) = run_DeletionTimestamp stored) →
  ∃ stored w, w_run (s_world s) = Some stored ∧
    stored_update f run ev s = (inl tt, set_s_run (f stored) (set_s_world w s)) ∧
    w_run w = Some (f stored) ∧ calm (set_s_run (f stored) (set_s_world w s)).
Proof.
  intros H Hd. pose proof H as (Hf & Hs & Hk & stored & Hr & Hn). exists stored.
  unfold stored_update, mbind, M_bind. rewrite (calm_call _ _ _ H), Hr.
  assert (bool_decide (run_DeletionTimestamp (f stored) ≠ None) = false) as Hgone.
  { apply bool_decide_eq_false. rewrite Hd, Hn. by intros []. }
  cbn. rewrite Hgone. cbn. eexists. split_and!; [done|done|done|].
  split_and!; [done..|]. exists (f stored). by rewrite Hd.
Qed.

Lemma smooth_statusUpdate : smooth calm statusUpdate.
Proof.
  intros s H. destruct (calm_write (set_run_Status (run_Status (s_run s))) (s_run s) EvStatus s H)
    as (stored & w & _ & He & _ & Hc); [done|].
  unfold statusUpdate, getRun, mbind, M_bind. by rewrite He.
Qed.

Lemma smooth_releaseCordons : smooth calm releaseCordons.
Proof.
  unfold releaseCordons. apply smooth_bind; [apply smooth_getRun|]. intros run.
  apply smooth_bind; [apply smooth_listNodes|]. intros nodes. apply smooth_bind.
  - apply smooth_fold. intros b [n node]. apply smooth_bind; [apply smooth_getRun|]. intros run'.
    case_match; [|apply smooth_ret]. apply smooth_bind; [apply smooth_update_unless_gone|].
    intros _. apply smooth_ret.
  - intros changed. case_match; [apply smooth_ret|].
    apply smooth_bind; [apply smooth_modifyRun|]. intros _. apply smooth_ret.
Qed.

Lemma smooth_standDown : smooth calm standDown.
Proof.
  apply smooth_bind.
  - apply smooth_bind; [apply smooth_getRun|]. intros run.
    apply smooth_bind; [apply smooth_listPods|]. intros pods. apply smooth_iter, smooth_deleteUnlessGone.
  - intros _. apply smooth_bind; [apply smooth_releaseCordons|]. intros released.
    apply smooth_when, smooth_statusUpdate.
Qed.

(** The envelopes a delivery to [l] sends. *)
Definition envelopes (l : list str) (reason key : str) : list event :=
  (λ n, EvSent n reason key) <$> l.

(** Every sink accepts, and is sent the envelope. *)
Lemma calm_deliver_one before evs reason key ok n :
  n ∈ sinks →
  triple (λ s, calm s ∧ since before evs s) (deliver_one reason key ok n)
    (λ b s, b = ok ∧ calm s ∧ since before (EvSent n reason key :: evs) s) (λ _ _, False).
Proof.
  intros Hn s [H Hev]. unfold deliver_one, read, try, mbind at 1, M_bind at 1. rewrite (calm_call _ _ _ H).
  pose proof H as (Hf & Hs & Hk & Hr). destruct (Hk n Hn) as [status Hst]. rewrite Hst. cbn [fst snd].
  assert (set_s_world (s_world s) s = s) as -> by by destruct s.
  unfold send, now, mbind, M_bind, mret, M_ret. rewrite Hs. cbn [head tail].
  set (s1 := set_s_world _ s). assert (calm s1) as H1 by done.
  assert (since before (EvSent n reason key :: evs) s1) as Hev1 by (by apply since_emit).
  unfold updateSink. rewrite (calm_call _ _ _ H1). cbn [s_world s1 set_s_world]. cbn. rewrite Hst. cbn.
  split; [by rewrite andb_true_r|]. split; [split_and!; [done|done| |done]|exact Hev1].
  intros m Hm. cbn. destruct (decide (m = n)) as [->|Hne]; [by rewrite lookup_insert_eq|].
  rewrite lookup_insert_ne by done. by apply Hk.
Qed.

Lemma calm_deliver before evs l reason key :
  (∀ n, n ∈ l → n ∈ sinks) →
  triple (λ s, calm s ∧ since before evs s) (deliver l reason key)
    (λ b s, b = true ∧ calm s ∧ since before (envelopes l reason key ++ evs) s) (λ _ _, False).
Proof.
  intros Hl. unfold deliver. revert evs. induction l as [|n l IH]; intros evs; [by intros s H|].
  cbn [fold]. eapply triple_bind; [apply calm_deliver_one, Hl, list_elem_of_here|].
  intros b s (-> & H & Hev).
  pose proof (IH (λ m Hm, Hl m (list_elem_of_further _ _ _ Hm)) _ s (conj H Hev)) as Hd.
  destruct (fold _ _ _ s) as [[b'|e] s']; [|done]. destruct Hd as (-> & H' & Hin).
  split_and!; [done|done|]. eapply since_weaken; [|exact Hin]. unfold envelopes. set_solver.
Qed.
End calm.

(** ** The last pass *)
Section finishing.
Context `{codec : PlanCodec} (sinks : list str) (run0 : BurnInRun).

(** The metadata in hand and stored is still what the pass read. *)
Definition same_meta (run : BurnInRun) : Prop :=
  run_Annotations run = run_Annotations run0 ∧ run_Finalizers run = run_Finalizers run0.

Definition unedited (s : st) : Prop :=
  same_meta (s_run s) ∧ ∀ stored, w_run (s_world s) = Some stored → same_meta stored.

Definition settled_meta (run : BurnInRun) : Prop :=
  has_finalizer run = false ∧ run_Annotations run !! pendingDeliveryAnnotation = None.

(** Nothing is left for another pass to do. *)
Definition settled (s : st) : Prop :=
  ∀ stored, w_run (s_world s) = Some stored → settled_meta stored.

(** The finalizer is off, and the annotations are as they were. *)
Definition unfinalized (s : st) : Prop :=
  run_Annotations (s_run s) = run_Annotations run0 ∧ has_finalizer (s_run s) = false ∧
  ∀ stored, w_run (s_world s) = Some stored →
    run_Annotations stored = run_Annotations run0 ∧ has_finalizer stored = false.

Lemma frame_unedited : frame recordoned unedited.
Proof.
  split; [|done|].
  - intros s w Hw [H1 H2]. split; [done|]. cbn. by rewrite Hw.
  - by intros s status [names ->] [H1 H2].
Qed.

Lemma unedited_standDown : keeps unedited standDown.
Proof.
  pose proof frame_unedited as HF. unfold standDown.
  apply keeps_bind; [exact (frame_deleteLivePods _ HF)|]. intros _.
  apply keeps_bind; [exact (frame_releaseCordons _ (frame_mild _ _ HF))|]. intros released. apply keeps_when.
  apply keeps_statusUpdate; [exact (frame_cluster_stable _ _ HF)|].
  intros s stored w [H1 H2] Hs _ Hst. pose proof (H2 stored Hs) as Hm.
  split; (split; [done|]); cbn; destruct Hst as [->|[-> _]]; try done; by intros r [= <-].
Qed.

Lemma without_finalizer_gone run : has_finalizer (without_finalizer run) = false.
Proof.
  unfold has_finalizer. apply bool_decide_eq_false. cbn.
  rewrite list_elem_of_In, List.filter_In. intros [_ H]. by rewrite String.eqb_refl in H.
Qed.

Lemma meta_finalizer run stored : has_finalizer (with_meta run stored) = has_finalizer run.
Proof. done. Qed.

Lemma drop_finalizer :
  triple (λ s, calm sinks s ∧ unedited s) (removeFinalizer ;; updateKeepingStatus)
    (λ _ s, calm sinks s ∧ unfinalized s) (λ _ _, False).
Proof.
  intros s [Hc [[Ha _] Hu]]. unfold removeFinalizer, updateKeepingStatus, update.
  unfold getRun, modifyRun, mbind, M_bind, mret, M_ret. cbn [s_run set_s_run].
  set (run := without_finalizer (s_run s)). set (s1 := set_s_run run s).
  destruct (calm_write sinks (λ stored, set_run_Annotations (run_Annotations run)
      (set_run_Finalizers (run_Finalizers run) stored)) run EvMeta s1 Hc)
    as (stored & w & _ & He & Hw & Hc'); [done|].
  change (s_run s1) with run. rewrite He. split; [exact Hc'|].
  assert (has_finalizer run = false) as Hf by apply without_finalizer_gone.
  split_and!; [exact Ha|exact Hf|]. cbn. rewrite Hw. intros r [= <-]. by split.
Qed.

Lemma settled_handleTTL : triple (λ s, calm sinks s ∧ settled s) handleTTL (λ _, settled) (λ _ _, False).
Proof.
  intros s [Hc Hs]. unfold handleTTL, ignoreNotFound, try, deleteRun, getRun, now, mbind, M_bind. cbv zeta.
  destruct (sp_TTLSecondsAfterFinished (run_Spec (s_run s))) as [ttl|]; [|exact Hs].
  destruct (st_FinishedAt (run_Status (s_run s))) as [t|]; [|exact Hs].
  destruct (ttl <=? 0)%Z; [exact Hs|]. destruct (0 <? _)%Z; [exact Hs|].
  rewrite (calm_call _ _ _ _ Hc).
  pose proof Hc as (_ & _ & _ & stored & Hr & Hn). rewrite Hr. cbn. unfold settled. cbn.
  destruct (run_Finalizers stored); [done|]. cbn. intros r [= <-]. exact (Hs stored Hr).
Qed.

Lemma unannotated_settles :
  triple (λ s, calm sinks s ∧ unfinalized s) (unannotate pendingDeliveryAnnotation ;; update ;; handleTTL)
    (λ _, settled) (λ _ _, False).
Proof.
  intros s [Hc (Ha & Hf & Hu)]. unfold unannotate, update, getRun, modifyRun.
  unfold mbind at 1, M_bind at 1. unfold mbind at 1, M_bind at 1. unfold mbind at 1, M_bind at 1.
  set (run := set_run_Annotations _ (s_run s)). set (s1 := set_s_run run s).
  destruct (calm_write sinks (λ stored, set_run_Annotations (run_Annotations run)
      (set_run_Finalizers (run_Finalizers run) stored)) run EvMeta s1 Hc)
    as (stored & w & _ & He & Hw & Hc'); [done|].
  change (s_run s1) with run. rewrite He. apply settled_handleTTL. split; [exact Hc'|].
  intros r. cbn. rewrite Hw. intros [= <-]. split; [exact Hf|]. cbn. apply lookup_delete_eq.
Qed.

Lemma unfinalized_stable : cluster_stable unfinalized.
Proof. intros s w Hw _ (H1 & H2 & H3). split_and!; [done..|]. cbn. by rewrite Hw. Qed.

Lemma loadPlan_annotations run run' :
  run_Annotations run = run_Annotations run' → loadPlan run = loadPlan run'.
Proof. intros H. unfold loadPlan. by rewrite H. Qed.

(** The delivery a finished run owes: the pending phase, to every sink of its plan. *)
Definition owed_deliveries : list event :=
  match run_Annotations run0 !! pendingDeliveryAnnotation, loadPlan run0 with
  | Some phase, Some (inl p) => envelopes (pl_Sinks p) "RunPhaseChanged" phase
  | _, _ => []
  end.

Lemma settling_since before evs :
  triple (λ s, (calm sinks s ∧ unfinalized s) ∧ since before evs s)
    (unannotate pendingDeliveryAnnotation ;; update ;; handleTTL)
    (λ _ s, settled s ∧ since before evs s) (λ _ _, False).
Proof.
  eapply triple_conseq;
    [apply (triple_and _ _ _ _ _ _ _ unannotated_settles (since_settling before evs))|done|done|].
  by intros e s [[] _].
Qed.

Lemma redeliver_settles before :
  (∀ p n, loadPlan run0 = Some (inl p) → n ∈ pl_Sinks p → n ∈ sinks) →
  triple (λ s, (calm sinks s ∧ unfinalized s) ∧ since before [] s) redeliver
    (λ _ s, settled s ∧ since before owed_deliveries s) (λ _ _, False).
Proof.
  intros Hsinks. apply triple_pre. intros s [[Hc Hu] Hev]. pose proof Hu as (Ha & Hf & Hst).
  unfold owed_deliveries. rewrite <-Ha. intros s' ->. unfold redeliver, getRun, mbind at 1, M_bind at 1.
  destruct (run_Annotations (s_run s) !! pendingDeliveryAnnotation) as [phase|] eqn:Hp.
  - rewrite (loadPlan_annotations _ run0 Ha).
    destruct (loadPlan run0) as [[p|e]|] eqn:Hl; [|by apply settling_since..].
    pose proof (triple_and _ _ _ _ _ _ _
      (calm_deliver sinks before [] (pl_Sinks p) "RunPhaseChanged" phase (λ n, Hsinks p n eq_refl))
      (quiet_deliver _ unfinalized_stable (pl_Sinks p) "RunPhaseChanged" phase) s (conj (conj Hc Hev) Hu)) as Hd.
    unfold mbind at 1, M_bind at 1. destruct (deliver _ _ _ s) as [[b|e] s1]; [|by destruct Hd].
    destruct Hd as [(-> & Hc1 & Hev1) Hu1]. rewrite app_nil_r in Hev1. by apply settling_since.
  - assert (settled s) as Hset.
    { intros stored Hs. destruct (Hst stored Hs) as [Has Hfs]. split; [done|]. by rewrite Has, <-Ha. }
    pose proof (triple_and _ _ _ _ _ _ _ settled_handleTTL (since_handleTTL before []) s
      (conj (conj Hc Hset) Hev)) as Hd.
    destruct (handleTTL s) as [[r|e] s1]; [exact Hd|by destruct Hd].
Qed.

(** The pass over a finished run that still has the finalizer. *)
Definition last_pass : M requeue := standDown ;; (removeFinalizer ;; updateKeepingStatus) ;; redeliver.

Lemma last_pass_settles before :
  (∀ p n, loadPlan run0 = Some (inl p) → n ∈ pl_Sinks p → n ∈ sinks) →
  triple (λ s, (calm sinks s ∧ unedited s) ∧ since before [] s) last_pass
    (λ _ s, settled s ∧ since before owed_deliveries s) (λ _ _, False).
Proof.
  intros Hsinks. apply (triple_bind _ _ _ (λ _ s, (calm sinks s ∧ unedited s) ∧ since before [] s)).
  - eapply triple_conseq; [apply (triple_and _ _ _ _ _ _ _
      (triple_and _ _ _ _ _ _ _ (smooth_standDown sinks) unedited_standDown)
      (since_standDown before []))|done|done|]. by intros e s [[[] _] _].
  - intros _. apply (triple_bind _ _ _ (λ _ s, (calm sinks s ∧ unfinalized s) ∧ since before [] s)).
    + eapply triple_conseq; [apply (triple_and _ _ _ _ _ _ _ drop_finalizer
        (since_drop_finalizer before []))|done|done|]. by intros e s [[] _].
    + intros _. by apply redeliver_settles.
Qed.
End finishing.

Lemma reconcileRun_last_pass `{codec : PlanCodec} `{cfg : Settings} s :
  isTerminal (st_Phase (run_Status (s_run s))) = true → has_finalizer (s_run s) = true →
  run_DeletionTimestamp (s_run s) = None → reconcileRun s = last_pass s.
Proof.
  intros Hterm Hfin Hdel. unfold last_pass, reconcileRun, getRun, mbind at 1, M_bind at 1.
  rewrite Hdel, Hterm. cbn [is_unset negb].
  unfold reconcileTerminal, getRun, mbind at 1, M_bind at 1. rewrite Hfin. cbn [when].
  unfold mbind, M_bind. destruct (standDown s) as [[u|e] s1]; [|done].
  destruct (removeFinalizer s1) as [[b|e] s2]; [|done]. by destruct (updateKeepingStatus s2) as [[]].
Qed.

(** C8: The retries converge: when every call gets through, every sink the plan names is
    there and accepts, and nobody has deleted it, one reconcile of a finished run that
    still carries the finalizer reports no error, and during it every sink of the plan is
    sent the phase the run still owed, if it owed one; the stored run, if its TTL has not
    deleted it, has neither the finalizer nor a pending delivery; no node carries a stamp
    of it, and every live pod of it in the cache is gone or was told to go. *)
Theorem finished_run_converges `{codec : PlanCodec} `{cfg : Settings} s :
  w_run (s_world s) = Some (s_run s) → isTerminal (st_Phase (run_Status (s_run s))) = true →
  has_finalizer (s_run s) = true → run_DeletionTimestamp (s_run s) = None →
  w_faults (s_world s) = [] → w_sends (s_world s) = [] →
  (∀ p n, loadPlan (s_run s) = Some (inl p) → n ∈ pl_Sinks p → is_Some (w_sinks (s_world s) !! n)) →
  ∃ r s' during, reconcileRun s = (inl r, s') ∧ nothing_owed (s_run s) (s_world s') ∧
    (∀ stored, w_run (s_world s') = Some stored →
      has_finalizer stored = false ∧ run_Annotations stored !! pendingDeliveryAnnotation = None) ∧
    w_trace (s_world s') = during ++ w_trace (s_world s) ∧
    ∀ phase p n, run_Annotations (s_run s) !! pendingDeliveryAnnotation = Some phase →
      loadPlan (s_run s) = Some (inl p) → n ∈ pl_Sinks p → EvSent n "RunPhaseChanged" phase ∈ during.
Proof.
  intros Hw Hterm Hfin Hdel Hf Hs Hk.
  set (sinks := match loadPlan (s_run s) with Some (inl p) => pl_Sinks p | _ => [] end).
  assert (calm sinks s) as Hc.
  { split_and!; [done..| |by exists (s_run s)]. unfold sinks. intros n.
    destruct (loadPlan (s_run s)) as [[p|e]|] eqn:Hl; [by apply Hk|by intros ?%elem_of_nil..]. }
  assert (unedited (s_run s) s) as Hu.
  { split; [done|]. rewrite Hw. by intros r [= <-]. }
  assert (since (w_trace (s_world s)) [] s) as Hev by by exists [].
  assert (∀ p n, loadPlan (s_run s) = Some (inl p) → n ∈ pl_Sinks p → n ∈ sinks) as Hsinks
    by (intros p n Hl; unfold sinks; by rewrite Hl).
  pose proof (last_pass_settles sinks (s_run s) (w_trace (s_world s)) Hsinks s (conj (conj Hc Hu) Hev)) as Ht.
  rewrite <-(reconcileRun_last_pass s) in Ht by done.
  assert (owing (s_run s) s) as Ho by (split_and!; [done..|]; by exists (s_run s)).
  pose proof (guarded_reconcileRun (s_run s) s Ho) as Hg.
  destruct (reconcileRun s) as [[r|e] s']; [|done]. destruct Ht as [Hset (during & Htr & Hin)].
  exists r, s', during. split_and!; [done| |exact Hset|exact Htr|].
  - destruct Hg as [(_ & _ & stored & Hr & _ & Hown)|(_ & _ & Hn)]; [|exact Hn].
    destruct (Hset stored Hr) as [Hno _]. congruence.
  - intros phase p n Hp Hl Hn. apply Hin. unfold owed_deliveries, envelopes. rewrite Hp, Hl.
    by apply list_elem_of_fmap; exists n.
Qed.

(** A run that failed before it could clean up: a stamped node, a live pod, a delivery owed. *)
Definition failed_run : BurnInRun :=
  let run := running_run 1 0 [] in
  set_run_Annotations (<[pendingDeliveryAnnotation := "Failed"]> (run_Annotations run))
    (set_run_Status (set_st_Phase RunFailed (run_Status run)) run).

Definition interrupted_cluster : st :=
  let s := cluster noon failed_run [("a", stamped_node)]
             [first_pod "a" (noon - 10 * second) PodRunning None []] [] in
  set_s_world (set_w_sinks {[ "hub" := MkSinkStatus None "" ]} (s_world s)) s.

Definition hub_plan : plan := MkPlan 1 ["a"] ["hub"] false false 1 [host_test None].

Lemma finished_run_converges_witness :
  isTerminal (st_Phase (run_Status (s_run interrupted_cluster))) = true ∧
  ∃ r s', @reconcileRun (knows hub_plan) (Build_Settings "" true) interrupted_cluster = (inl r, s') ∧
    nothing_owed failed_run (s_world s') ∧
    EvSent "hub" "RunPhaseChanged" "Failed" ∈ w_trace (s_world s').
Proof.
  assert (isTerminal (st_Phase (run_Status (s_run interrupted_cluster))) = true) as Ht by reflexivity.
  split; [exact Ht|].
  assert (has_finalizer (s_run interrupted_cluster) = true) as Hf by (vm_compute; reflexivity).
  assert (∀ p n, @loadPlan (knows hub_plan) (s_run interrupted_cluster) = Some (inl p) →
    n ∈ pl_Sinks p → is_Some (w_sinks (s_world interrupted_cluster) !! n)) as Hk.
  { intros p n Hl. vm_compute in Hl. injection Hl as <-. cbn.
    intros ->%list_elem_of_singleton. eexists. vm_compute. reflexivity. }
  destruct (@finished_run_converges (knows hub_plan) (Build_Settings "" true) interrupted_cluster
    eq_refl Ht Hf eq_refl eq_refl eq_refl Hk) as (r & s' & during & Hr & Hn & _ & Htr & Hsent).
  assert (@loadPlan (knows hub_plan) (s_run interrupted_cluster) = Some (inl hub_plan)) as Hl
    by (vm_compute; reflexivity).
  assert (run_Annotations (s_run interrupted_cluster) !! pendingDeliveryAnnotation = Some "Failed") as Hp
    by (vm_compute; reflexivity).
  exists r, s'. split; [exact Hr|]. split; [exact Hn|]. rewrite Htr. apply elem_of_app. left.
  apply (Hsent _ _ "hub" Hp Hl); cbn; apply list_elem_of_here.
Defined.
