(* ===== verification/Interlock.v ===== *)
(** * The facility interlock

    How far one pass can spread the load of a run: over every fault script, the nodes it
    knew to be busy together with the nodes it started pods on are targets of the plan, and
    no more of them than the cap or than there already were.  A pass that may not launch
    starts nothing. *)

From S2P Require Import Prelude GoStrings GoFloat GoTime Contract Registry Runner Verdict Group Api.
From S2P Require Import Plan Soak Pods RunPlan PlanStore Attempt Effects World Cordon Admission PodBuild.
From S2P Require Import Rendezvous Artifacts Engine Lifecycle Scenario Frames.
Open Scope stdpp_scope.

(** One execution over several nodes. *)
Definition wide (t : Test) : bool :=
  String.eqb (ts_Scope (te_Spec t)) ScopePair || String.eqb (ts_Scope (te_Spec t)) ScopeGroup.

(** The run's pods, as the informer lists them. *)
Definition listed_pods (s : st) : list Pod :=
  List.filter (has_label labelRun (run_Name (s_run s))) (map_to_list (w_informer (s_world s))).*2.

(** The nodes a pass knows to be busy when it starts: those with a live pod, and those of
    executions that are not settled. *)
Definition known_busy (s : st) : gset str :=
  list_to_set (node_label <$> livePods (s_run s) (listed_pods s)) ∪ holdingNodes (s_run s).

(** A pod found under the name of an execution on [node] is the run's, and on [node]. *)
Definition honest (run : BurnInRun) (inf : gmap str Pod) : Prop :=
  ∀ index node attempt pod, inf !! podName run index node attempt = Some pod →
    ownedBy pod (run_UID run) = true ∧ has_label labelRun (run_Name run) pod = true ∧
    node_label pod = node.

Lemma podName_ids a b index node attempt :
  run_UID a = run_UID b → run_Name a = run_Name b →
  podName a index node attempt = podName b index node attempt.
Proof. intros H1 H2. unfold podName, podNameForRole, pod_seed. by rewrite H1, H2. Qed.

(** A pod that was built is labelled with the node it was built for. *)
Lemma podForTest_label run index attempt name spec axes node vendor tol rv tmpl :
  podForTest run index attempt name spec axes node vendor tol rv = inl tmpl →
  node_label (pod_of_template run tmpl) = node.
Proof.
  unfold podForTest. destruct (runnerImage spec vendor); [|done]. intros [= <-].
  unfold node_label. cbn. unfold podLabels. destruct rv as [r|]; [destruct (String.eqb _ _)|].
  all: rewrite ?(lookup_insert_ne _ labelRank), ?(lookup_insert_ne _ labelPairRole) by done.
  all: rewrite lookup_insert_ne, lookup_insert_ne by done.
  all: by rewrite lookup_insert_eq.
Qed.

Section interlock.
Context `{cfg : Settings} (run0 : BurnInRun) (inf : gmap str Pod) (before : list str).
Context (busy0 T : gset str) (cap : Z) (launch : bool).

Definition bound : Z := Z.max cap (Z.of_nat (size busy0)).

(** What the pass has started is accounted for by the busy map and [B], the nodes about to
    be added to it. *)
Definition accounted (B : gset str) (s : st) (started : list str) : Prop :=
  created (s_world s) = started ++ before ∧
  (launch = false → started = []) ∧
  busy0 ∪ list_to_set started ⊆ B ∪ s_busy s.

Definition budget (B : gset str) (s : st) : Prop :=
  run_UID (s_run s) = run_UID run0 ∧ run_Name (s_run s) = run_Name run0 ∧
  w_informer (s_world s) = inf ∧ (∃ started, accounted B s started) ∧
  B ∪ s_busy s ⊆ T ∧ (Z.of_nat (size (B ∪ s_busy s)) <= bound)%Z.

Lemma mild_budget B busy : mild same_phase (λ s, budget B s ∧ s_busy s = busy).
Proof.
  split.
  - intros s w (_ & _ & _ & Hi & Hc) [(H1 & H2 & H3 & (started & H4) & H5) Hb].
    split; [|done]. split_and!; [done|done|by rewrite <-H3| |by apply H5..].
    exists started. unfold accounted. cbn. by rewrite Hc.
  - by intros s status _ H.
Qed.

Lemma mild_budget_any B : mild same_phase (budget B).
Proof.
  split.
  - intros s w Hw H. exact (proj1 (mild_world _ _ (mild_budget B (s_busy s)) s w Hw (conj H eq_refl))).
  - by intros s status _ H.
Qed.

(** ** Moving nodes into the busy map *)
Lemma budget_cover B s (C : gset str) : C ∪ s_busy s = B ∪ s_busy s → budget B s → budget C s.
Proof. intros He. unfold budget, accounted. by rewrite He. Qed.

Lemma spend n B : triple (budget ({[n]} ∪ B)) (addBusy n) (λ _, budget B) (λ _ _, False).
Proof.
  intros s H. unfold addBusy, budget, accounted. cbn.
  assert (B ∪ ({[n]} ∪ s_busy s) = {[n]} ∪ B ∪ s_busy s) as -> by set_solver. exact H.
Qed.

Lemma keeps_addBusy n B : n ∈ B ∪ busy0 → keeps (budget B) (addBusy n).
Proof.
  intros Hn s H. unfold addBusy. pose proof H as (_ & _ & _ & (st' & _ & _ & Hs) & _).
  unfold budget, accounted. cbn.
  assert (B ∪ ({[n]} ∪ s_busy s) = B ∪ s_busy s) as -> by set_solver. exact H.
Qed.

Lemma keeps_createPod B pod : launch = true → node_label pod ∈ B → keeps (budget B) (createPod pod).
Proof.
  intros Hl Hn. apply keeps_call; intros s (H1 & H2 & H3 & (started & H4 & H5 & H6) & H7).
  - split_and!; [done..| |apply H7|apply H7]. by exists started.
  - destruct (w_pods (s_world s) !! pod_Name pod).
    + split_and!; [done..| |apply H7|apply H7]. by exists started.
    + split_and!; [done..| |apply H7|apply H7]. exists (node_label pod :: started).
      split_and!; [cbn; by f_equal|by rewrite Hl|cbn; set_solver].
Qed.

(** Building a pod, whose label is then known. *)
Lemma triple_build {A} (I : st → Prop) index t attempt node rv (f : Pod + str → M A) Q E :
  mild same_phase I → (∀ e s, I s → E e s) →
  (∀ r, (∀ pod, r = inl pod → node_label pod = node) → triple I (f r) Q E) →
  triple I (buildPod index t attempt node rv ≫= f) Q E.
Proof.
  intros HI HE Hf.
  apply (triple_bind _ _ _ (λ r s, I s ∧ ∀ pod, r = inl pod → node_label pod = node)).
  - unfold buildPod. apply (triple_bind _ _ _ (λ _, I)); [by intros s H|]. intros run.
    apply (triple_bind _ _ _ (λ _, I)); [|intros vendor s H; split; [exact H|]].
    + eapply triple_conseq; [exact (frame_vendorFor I HI node)|done|done|exact HE].
    + intros pod. destruct (podForTest _ _ _ _ _ _ _ _ _ _) as [tmpl|] eqn:Ht; [|done].
      intros [= <-]. by eapply podForTest_label.
  - intros r. apply (triple_fact _ (∀ pod, r = inl pod → node_label pod = node)); [by intros s []|].
    intros Hr. eapply triple_conseq; [exact (Hf r Hr)|by intros s []|done|done].
Qed.

(** ** One node *)
Definition spent (s : st) : Prop := ∃ B, budget B s.

Definition paced {A} (B : gset str) (m : M A) : Prop :=
  triple (budget B) m (λ _, budget B) (λ _, spent).

Lemma paced_keeps {A} B (m : M A) : keeps (budget B) m → paced B m.
Proof. intros H. eapply triple_conseq; [exact H|done|done|]. intros e s Hs. by exists B. Qed.

Lemma paced_bind {A C} B (m : M A) (f : A → M C) :
  keeps (budget B) m → (∀ a, paced B (f a)) → paced B (m ≫= f).
Proof. intros Hm Hf. apply (triple_bind _ _ _ (λ _, budget B)); [by apply paced_keeps|exact Hf]. Qed.

(** The check under which a node may be loaded. *)
Lemma enter_node B node s :
  node ∈ T → B = ∅ ∨ B = T →
  negb (bool_decide (node ∈ s_busy s)) && (cap <=? Z.of_nat (size (s_busy s)))%Z = false →
  budget B s → budget ({[node]} ∪ B) s.
Proof.
  intros HT HB Hc H. pose proof H as (H1 & H2 & H3 & (started & H4 & H5 & H6) & H7 & H8).
  destruct (decide (node ∈ B ∪ s_busy s)) as [Hn|Hn].
  { apply (budget_cover B); [set_solver|exact H]. }
  destruct HB as [->| ->]; [|by destruct Hn; set_solver].
  assert (node ∉ s_busy s) as Hb by set_solver. rewrite bool_decide_eq_false_2 in Hc by done.
  apply Z.leb_gt in Hc. split_and!; [done..| | |].
  - exists started. split_and!; [done..|set_solver].
  - set_solver.
  - assert ({[node]} ∪ ∅ ∪ s_busy s = {[node]} ∪ s_busy s) as -> by set_solver.
    rewrite size_union, size_singleton by set_solver. unfold bound. lia.
Qed.

Lemma paced_launchNode p index t node attempt B :
  node ∈ T → B = ∅ ∨ B = T → paced B (launchNode p index t node attempt launch cap).
Proof.
  intros HT HB. unfold launchNode. destruct (negb launch) eqn:Hl; [by intros s H|].
  apply negb_false_iff in Hl.
  apply (triple_bind _ _ _ (λ busy s, budget B s ∧ s_busy s = busy)); [by intros s H|].
  intros busy. destruct (negb _ && _) eqn:Hc; [by intros s [H _]|].
  apply triple_build; [apply mild_budget|intros e s [H _]; by exists B|]. intros [pod|e] Hpod.
  - apply (triple_conseq (budget ({[node]} ∪ B)) _ _ (λ _, budget B) _ (λ _, spent)); [|
      intros s [H <-]; by apply enter_node|done|done].
    pose proof (mild_recordoned _ (mild_budget_any ({[node]} ∪ B))) as HM.
    apply (triple_bind _ _ _ (λ _, budget ({[node]} ∪ B))).
    { apply paced_keeps. by apply frame_cordonNode. }
    intros cordoned. apply (triple_bind _ _ _ (λ _, budget ({[node]} ∪ B))).
    { apply paced_keeps, frame_ignoreExists, keeps_createPod; [done|].
      rewrite (Hpod pod eq_refl). set_solver. }
    intros _. eapply triple_bind; [eapply triple_conseq; [apply spend|done|intros a s H; exact H|done]|].
    intros _ s H. exact H.
  - eapply triple_conseq; [apply (frame_harvested _ (mild_budget_any B))|by intros s [H _]|done|].
    intros e' s H. by exists B.
Qed.

Lemma findPod_informer (I : st → Prop) name :
  mild same_phase I → (∀ s, I s → w_informer (s_world s) = inf) →
  triple I (findPod name) (λ r s, I s ∧ ∀ pod, r = Some pod → inf !! name = Some pod) (λ _, I).
Proof.
  intros HI Hinf. apply (triple_bind _ _ _
    (λ r s, I s ∧ ∀ pod, r = inl pod → inf !! name = Some pod)).
  - apply triple_try. eapply triple_conseq; [apply (triple_read I)|done| |].
    + intros s H. by apply (mild_world _ _ HI).
    + done.
    + intros pod s [H Hp]. split; [exact H|]. intros pod' [= <-]. by rewrite <-(Hinf s H).
    + intros e s H. by split.
  - intros [pod|e]; [|destruct (IsNotFound e)].
    + intros s [H Hp]. split; [exact H|]. intros pod' [= <-]. by apply Hp.
    + intros s [H _]. by split.
    + by intros s [H _].
Qed.

Context (known : ∀ index node attempt pod,
  inf !! podName run0 index node attempt = Some pod → podLive pod = true → node ∈ busy0).

Lemma paced_advance p index t node B :
  node ∈ T → B = ∅ ∨ B = T → paced B (advance p index t node launch cap).
Proof.
  intros HT HB. unfold advance.
  apply (triple_bind _ _ _ (λ run s, budget B s ∧ run_UID run = run_UID run0 ∧ run_Name run = run_Name run0)).
  { intros s H. split; [exact H|]. split; apply H. }
  intros run. apply (triple_fact _ (run_UID run = run_UID run0 ∧ run_Name run = run_Name run0));
    [by intros s [_ H]|]. intros [Hu Hn]. cbv zeta.
  eapply triple_conseq; [|intros s [H _]; exact H|intros a s H; exact H|intros e s H; exact H].
  destruct (settledResult _); [by intros s H|]. rewrite (podName_ids _ _ _ _ _ Hu Hn).
  eapply triple_bind; [eapply triple_conseq; [apply (findPod_informer (budget B));
    [apply mild_budget_any|by intros s (_ & _ & H & _)]|done|intros r s H; exact H|
    intros e s H; by exists B]|].
  intros [pod|]; [|eapply triple_conseq; [by apply paced_launchNode|by intros s [H _]|done|done]].
  eapply triple_fact; [intros s [_ H]; exact (H pod eq_refl)|]. intros Hp.
  eapply triple_conseq; [|intros s [H _]; exact H|intros a s H; exact H|intros e s H; exact H].
  apply paced_bind; [|intros _; apply paced_keeps, (frame_observeNode _ (mild_budget_any B))].
  destruct (podLive pod) eqn:Hlive; [|apply keeps_ret]. apply keeps_addBusy, elem_of_union_r.
  by eapply known.
Qed.

(** ** Several nodes: all the targets are accounted for *)
Lemma keeps_build {A} (I : st → Prop) index t attempt node rv (f : Pod + str → M A) :
  mild same_phase I →
  (∀ r, (∀ pod, r = inl pod → node_label pod = node) → keeps I (f r)) →
  keeps I (buildPod index t attempt node rv ≫= f).
Proof. intros HI Hf. by apply triple_build. Qed.

Lemma keeps_addBusy_all nodes : Forall (λ n, n ∈ T) nodes → keeps (budget T) (iter addBusy nodes).
Proof.
  intros Hn. apply triple_iter. intros n Hin. apply keeps_addBusy, elem_of_union_l.
  exact (proj1 (Forall_forall _ _) Hn n Hin).
Qed.

Let HM : mild same_phase (budget T) := mild_budget_any T.
Local Hint Resolve HM mild_recordoned keeps_addBusy_all : engine.
Local Hint Extern 1 (keeps _ (ignoreExists _)) => apply frame_ignoreExists : engine.
Local Hint Extern 1 (keeps _ (createPod ?pod)) =>
  apply keeps_createPod; [by apply negb_false_iff|];
  match goal with H : ∀ pod', inl pod = inl pod' → _ |- _ => by rewrite (H pod eq_refl) end : engine.

Ltac pace :=
  repeat first
    [ progress intros
    | lazymatch goal with
      | |- keeps _ (buildPod _ _ _ _ _ ≫= _) =>
          apply keeps_build; [apply mild_budget_any|intros [?|?] ?]
      end
    | solve [eauto 4 with engine nocore]
    | apply keeps_ret
    | apply keeps_throw
    | apply keeps_when
    | apply keeps_bind
    | case_match ].

Lemma pace_startRendezvous p index attempt t node nodes rv :
  Forall (λ n, n ∈ T) (node :: nodes) →
  keeps (budget T) (startRendezvous p index attempt t (node :: nodes) launch cap rv).
Proof. intros Hn. pose proof (Forall_inv Hn) as Hnode. unfold startRendezvous. pace. Qed.

Lemma pace_gateClientOnServer p index attempt t a b pod :
  b ∈ T → keeps (budget T) (gateClientOnServer p index attempt t a b pod launch).
Proof. intros Hb. unfold gateClientOnServer. pace. Qed.

Lemma pace_startRank index attempt t nodes built entry :
  launch = true → entry.2.1 ∈ T → keeps (budget T) (startRank index attempt t nodes built entry).
Proof.
  intros Hl Hn. apply negb_false_iff in Hl. destruct entry as [rank [node pod]]. cbn in Hn.
  unfold startRank. pace.
Qed.

Lemma tail_elem {A} (x : A) l : x ∈ tail l → x ∈ l.
Proof. destruct l; [done|]. by right. Qed.

Lemma ranked_node {A} (nodes : list str) (pods : list A) e :
  e ∈ tail (imap pair (zip nodes pods)) → e.2.1 ∈ nodes.
Proof.
  intros He%tail_elem. destruct e as [rank [node pod]]. cbn.
  apply elem_of_lookup_imap in He as (i & [n p] & [= -> -> ->] & Hz).
  by eapply elem_of_zip_l, list_elem_of_lookup_2.
Qed.

Lemma pace_gateWorkersOnRoot p index attempt t nodes pods root :
  Forall (λ n, n ∈ T) nodes →
  keeps (budget T) (gateWorkersOnRoot p index attempt t nodes pods root launch).
Proof.
  intros Hn. unfold gateWorkersOnRoot.
  assert (launch = true → keeps (budget T)
    (fold (startRank index attempt t nodes) None (tail (imap pair (zip nodes pods))))) as Hf.
  { intros Hl. apply (triple_fold (λ _, budget T)). intros b e He. apply pace_startRank; [done|].
    exact (proj1 (Forall_forall _ _) Hn _ (ranked_node _ _ _ He)). }
  pace. apply Hf. by apply negb_false_iff.
Qed.

Local Hint Resolve pace_startRendezvous pace_gateClientOnServer pace_gateWorkersOnRoot : engine.

Lemma pace_advancePair p index t :
  Forall (λ n, n ∈ T) (pl_Targets p) → keeps (budget T) (advancePair p index t launch cap).
Proof.
  intros Hn. unfold advancePair, startPair, panic.
  destruct (pl_Targets p) as [|a [|b l]]; [apply keeps_throw..|].
  assert (Forall (λ n, n ∈ T) [a; b]) as Hab.
  { apply Forall_cons in Hn as [? Hn]. apply Forall_cons in Hn as [? _]. by repeat constructor. }
  assert (b ∈ T) by (inversion Hab as [|? ? ? Hb]; by inversion Hb). pace.
Qed.

Lemma pace_advanceGroup p index t :
  Forall (λ n, n ∈ T) (pl_Targets p) → keeps (budget T) (advanceGroup p index t launch cap).
Proof.
  intros Hn. unfold advanceGroup, startGroup, panic.
  destruct (pl_Targets p) as [|a l]; [apply keeps_throw|]. pace.
Qed.

(** ** The sweep *)
Lemma paced_fold_nodes p index t B nodes :
  (∀ n, n ∈ nodes → n ∈ T) → B = ∅ ∨ B = T → ∀ acc,
  paced B (fold (λ test node,
    r ← advance p index t node launch cap; mret (apply_effect t test r)) acc nodes).
Proof.
  intros Hn HB acc. apply (triple_fold (λ _, budget B)). intros test node Hin.
  apply (triple_bind _ _ _ (λ _, budget B)); [|by intros r s H].
  apply paced_advance; [by apply Hn|done].
Qed.

Lemma paced_sweepTest p index t B :
  (∀ n, n ∈ pl_Targets p → n ∈ T) → B = ∅ ∨ B = T → (wide t = true → B = T) →
  paced B (sweepTest p index t launch cap).
Proof.
  intros Hn HB Hw. unfold sweepTest, wide in *.
  assert (Forall (λ n, n ∈ T) (pl_Targets p)) as Hall by by apply Forall_forall.
  destruct (String.eqb _ ScopePair); [|destruct (String.eqb _ ScopeGroup)].
  - rewrite (Hw eq_refl). apply paced_keeps, keeps_bind; [by apply pace_advancePair|by intros r s H].
  - rewrite (Hw eq_refl). apply paced_keeps, keeps_bind; [by apply pace_advanceGroup|by intros r s H].
  - by apply paced_fold_nodes.
Qed.

Lemma paced_sweep p B tests :
  (∀ n, n ∈ pl_Targets p → n ∈ T) → B = ∅ ∨ B = T →
  (∀ it, it ∈ tests → wide it.2 = true → B = T) → ∀ out, paced B (sweep p launch cap out tests).
Proof.
  intros Hn HB. induction tests as [|[index t] tests IH]; intros Hw out; [by intros s H|].
  assert (∀ it, it ∈ tests → wide it.2 = true → B = T) as Hw'.
  { intros it Hit. apply Hw. by right. }
  cbn [sweep]. apply paced_bind; [by intros s H|]. intros run.
  destruct (_ && _); [by intros s H|].
  apply paced_bind; [apply (frame_settleTest _ (mild_budget_any B))|]. intros [|]; [by apply IH|].
  apply (triple_bind _ _ _ (λ _, budget B)).
  { apply paced_sweepTest; [done|done|]. apply (Hw (index, t)). by left. }
  intros test. destruct (unfinishedPass test); [by intros s H|by apply IH].
Qed.
End interlock.

(** ** The pass *)
Lemma busyNodes_known s :
  match busyNodes s with
  | (inl (busy, _), s') => busy = list_to_set (node_label <$> livePods (s_run s) (listed_pods s))
  | (inr _, _) => True
  end.
Proof.
  unfold busyNodes, getRun, listPods, mbind, M_bind, mret, M_ret, getRun, read, call, listed_pods.
  destruct (head (w_faults (s_world s))) as [[| |]|]; cbn; done.
Qed.

(** A node found live by name is one the pass knew to be busy. *)
Lemma honest_known s index node attempt pod :
  honest (s_run s) (w_informer (s_world s)) →
  w_informer (s_world s) !! podName (s_run s) index node attempt = Some pod →
  podLive pod = true → node ∈ known_busy s.
Proof.
  intros Hh Hp Hlive. destruct (Hh _ _ _ _ Hp) as (Ho & Hl & <-).
  apply elem_of_union_l, elem_of_list_to_set, list_elem_of_fmap. exists pod. split; [done|].
  apply list_elem_of_In, filter_In. split; [|by rewrite Ho, Hlive].
  apply filter_In. split; [|done]. apply list_elem_of_In, list_elem_of_fmap.
  exists (podName (s_run s) index (node_label pod) attempt, pod). split; [done|]. by apply elem_of_map_to_list.
Qed.

Lemma size_targets (l : list str) : (size (list_to_set l : gset str) <= length l)%nat.
Proof.
  induction l as [|x l IH]; [done|]. cbn. rewrite size_union_alt, size_singleton.
  assert (size ((list_to_set l : gset str) ∖ {[x]}) <= size (list_to_set l : gset str))%nat as H.
  { apply subseteq_size. set_solver. }
  lia.
Qed.

Lemma planned_test p it : it ∈ imap pair (pl_Tests p) → it.2 ∈ pl_Tests p.
Proof.
  destruct it as [i t]. intros (j & t' & [= -> ->] & Hl)%elem_of_lookup_imap.
  by eapply list_elem_of_lookup_2.
Qed.

Section pass.
Context `{cfg : Settings} (p : plan) (launch : bool) (s0 : st).

Let T : gset str := list_to_set (pl_Targets p).
Let cap : Z := maxConcurrentNodes (s_run s0).

(** The pods started by a pass that began at [s0] are within the cap. *)
Definition within (s : st) : Prop :=
  ∃ started,
    created (s_world s) = started ++ created (s_world s0) ∧
    (launch = false → started = []) ∧
    list_to_set started ⊆ (list_to_set (pl_Targets p) : gset str) ∧
    (Z.of_nat (size (known_busy s0 ∪ list_to_set started)) <=
       Z.max (maxConcurrentNodes (s_run s0)) (Z.of_nat (size (known_busy s0))))%Z.

(** What counting the busy nodes leaves as it was. *)
Definition counting (s : st) : Prop :=
  run_UID (s_run s) = run_UID (s_run s0) ∧ run_Name (s_run s) = run_Name (s_run s0) ∧
  run_Spec (s_run s) = run_Spec (s_run s0) ∧ results (s_run s) = results (s_run s0) ∧
  w_informer (s_world s) = w_informer (s_world s0) ∧ created (s_world s) = created (s_world s0).

Lemma mild_counting : mild recordoned counting.
Proof.
  split.
  - intros s w (_ & _ & _ & Hi & Hc) (H1 & H2 & H3 & H4 & H5 & H6).
    split_and!; [done..|by rewrite <-H5|by rewrite <-H6].
  - by intros s status [names ->] H.
Qed.

Lemma counting_within s : counting s → within s.
Proof.
  intros (_ & _ & _ & _ & _ & Hc). exists []. split_and!; [done|done|set_solver|].
  rewrite list_to_set_nil, union_empty_r_L. lia.
Qed.

Lemma spent_within s :
  spent (s_run s0) (w_informer (s_world s0)) (created (s_world s0)) (known_busy s0) T cap launch s →
  within s.
Proof.
  intros (B & _ & _ & _ & (started & H1 & H2 & H3) & H4 & H5). exists started.
  split_and!; [done|done|set_solver|]. etransitivity; [|exact H5].
  apply inj_le, subseteq_size, H3.
Qed.

Context (Hhonest : honest (s_run s0) (w_informer (s_world s0))).
Context (Hknown : known_busy s0 ⊆ list_to_set (pl_Targets p)).
Context (Hwide : ∀ t, t ∈ pl_Tests p → wide t = true → (count_of (pl_Targets p) <= cap)%Z).

(** The allowance of the pass: all the targets when a test needs them together. *)
Definition allowance : gset str := if existsb wide (pl_Tests p) then T else ∅.

Lemma budget_start s :
  counting s → budget (s_run s0) (w_informer (s_world s0)) (created (s_world s0)) (known_busy s0) T cap
    launch allowance (set_s_busy (known_busy s0) s).
Proof.
  intros (H1 & H2 & _ & _ & H5 & H6). split_and!; [done..| | |].
  - exists []. split_and!; [done|done|]. cbn. set_solver.
  - unfold allowance. cbn. destruct (existsb _ _); set_solver.
  - unfold allowance, bound. cbn. destruct (existsb wide (pl_Tests p)) eqn:Hw.
    + apply existsb_exists in Hw as (t & Ht%list_elem_of_In & Hw). specialize (Hwide t Ht Hw).
      assert (T ∪ known_busy s0 = T) as -> by set_solver.
      pose proof (size_targets (pl_Targets p)) as Hs. unfold count_of in Hwide. fold T in Hs. lia.
    + rewrite union_empty_l_L. lia.
Qed.

Lemma paced_within {A} (m : M A) :
  paced (s_run s0) (w_informer (s_world s0)) (created (s_world s0)) (known_busy s0) T cap launch
    allowance m →
  triple (budget (s_run s0) (w_informer (s_world s0)) (created (s_world s0)) (known_busy s0) T cap
    launch allowance) m (λ _, within) (λ _, within).
Proof.
  intros H. eapply triple_conseq; [exact H|done| |].
  - intros a s Hs. apply spent_within. by exists allowance.
  - intros e s Hs. by apply spent_within.
Qed.

Lemma paced_pass :
  triple (λ s, s = s0) (execute p launch) (λ _, within) (λ _, within).
Proof.
  unfold execute.
  apply (triple_bind _ _ _ (λ b s, counting s ∧
    b.1 = list_to_set (node_label <$> livePods (s_run s0) (listed_pods s0)))).
  { intros s ->. pose proof (busyNodes_known s0) as Hb.
    assert (counting s0) as H0 by done.
    pose proof (frame_busyNodes _ mild_counting s0 H0) as Hc.
    destruct (busyNodes s0) as [[[busy awaiting]|e] s']; [by split|by apply counting_within]. }
  intros [busy awaiting]. cbn.
  apply (triple_fact _ (busy = list_to_set (node_label <$> livePods (s_run s0) (listed_pods s0))));
    [by intros s [_ H]|]. intros ->.
  apply (triple_bind _ _ _ (λ run s, counting s ∧ results run = results (s_run s0) ∧
    run_Spec run = run_Spec (s_run s0))); [intros s [H _]; split; [done|split; apply H]|].
  intros run. eapply (triple_fact _ (results run = results (s_run s0) ∧
    run_Spec run = run_Spec (s_run s0))); [by intros s [_ H]|]. intros [Hr Hs].
  assert (holdingNodes run = holdingNodes (s_run s0)) as -> by (unfold holdingNodes; by rewrite Hr).
  assert (maxConcurrentNodes run = cap) as -> by (unfold cap, maxConcurrentNodes; by rewrite Hs).
  set (P := budget (s_run s0) (w_informer (s_world s0)) (created (s_world s0)) (known_busy s0) T cap
    launch allowance).
  eapply triple_conseq; [|intros s [H _]; exact H|intros a s H; exact H|intros e s H; exact H].
  apply (triple_bind _ _ _ (λ _, P)); [intros s H; by apply budget_start|]. intros _.
  apply paced_within. apply (triple_bind _ _ _ (λ _, P)).
  - apply paced_sweep; [|intros n Hn; by apply elem_of_list_to_set| |].
    + intros index node attempt pod. by apply honest_known.
    + unfold allowance. destruct (existsb _ _); [by right|by left].
    + intros it Hit Hw. unfold allowance. rewrite (proj2 (existsb_exists _ _)); [done|].
      exists it.2. split; [by apply list_elem_of_In, planned_test|done].
  - intros out. apply paced_bind; [by intros s H|]. intros held.
    apply paced_bind; [|by intros released s H].
    apply frame_releaseHeldNodes, mild_recordoned, mild_budget_any.
Qed.
End pass.

(** C2: The facility interlock holds on every pass: whatever calls fail or are lost, the
    nodes the pass started pods on are targets of the plan, and together with the nodes it
    knew to be busy they are no more than the cap, or than were busy already.  A pass that
    may not launch, of a suspended or a cancelled run, starts nothing. *)
Theorem interlock_holds `{cfg : Settings} (p : plan) (launch : bool) (s : st) :
  honest (s_run s) (w_informer (s_world s)) →
  known_busy s ⊆ list_to_set (pl_Targets p) →
  (∀ t, t ∈ pl_Tests p → wide t = true →
    (count_of (pl_Targets p) <= maxConcurrentNodes (s_run s))%Z) →
  ∃ started,
    created (s_world (execute p launch s).2) = started ++ created (s_world s) ∧
    (launch = false → started = []) ∧
    list_to_set started ⊆ (list_to_set (pl_Targets p) : gset str) ∧
    (Z.of_nat (size (known_busy s ∪ list_to_set started)) <=
       Z.max (maxConcurrentNodes (s_run s)) (Z.of_nat (size (known_busy s))))%Z.
Proof.
  intros Hh Hk Hw. pose proof (paced_pass p launch s Hh Hk Hw s eq_refl) as H.
  destruct (execute p launch s) as [[a|e] s']; exact H.
Qed.

(** Three targets under a cap of two, and a pod of the run already live on [b]. *)
Definition half_full_cluster : st :=
  cluster noon (running_run 2 0 []) [("a", idle_node); ("b", idle_node); ("c", idle_node)]
    [MkPod "other" {[ labelRun := "r"; labelNode := "b" ]} ["uid-1"] noon "b" PodRunning "" ""
       (Some noon) [] []] [].

Lemma half_full_honest :
  honest (s_run half_full_cluster) (w_informer (s_world half_full_cluster)).
Proof.
  intros index node attempt pod. cbn. rewrite insert_empty, lookup_singleton_Some.
  intros [Heq _]. apply (f_equal (String.get 0)) in Heq. discriminate Heq.
Qed.

Lemma interlock_holds_witness :
  let p := small_plan ["a"; "b"; "c"] (host_test None) in
  known_busy half_full_cluster = {["b"]} ∧
  created (s_world (@execute no_fingerprints p true half_full_cluster).2) = ["b"; "a"] ∧
  ∃ started,
    created (s_world (@execute no_fingerprints p true half_full_cluster).2) = started ++ [] ∧
    (true = false → started = []) ∧
    list_to_set started ⊆ (list_to_set (pl_Targets p) : gset str) ∧
    (Z.of_nat (size (known_busy half_full_cluster ∪ list_to_set started)) <= 2)%Z.
Proof.
  assert (known_busy half_full_cluster = {["b"]}) as Hb by (vm_compute; reflexivity).
  split; [exact Hb|]. split; [vm_compute; reflexivity|]. apply (@interlock_holds no_fingerprints).
  - exact half_full_honest.
  - rewrite Hb. apply singleton_subseteq_l, elem_of_list_to_set. right. left.
  - intros t Ht%list_elem_of_singleton. subst t. done.
Defined.
