(* ===== verification/Schedule.v ===== *)
(** * Scheduled burn-ins (internal/controller/burninschedule_controller.go)

    The controller that turns a BurnInSchedule into runs: which tick is due, what is missed,
    the guard against a second run, the retention of history, and one reconcile over a
    store whose calls can each be answered, rejected, or carried out without an answer, and
    whose cached copy of the schedule may be an old one.  The cron parser is a library the
    source calls, and the zone database a file it embeds: both are an interface. *)

From S2P Require Import Prelude GoStrings GoFloat GoTime Contract Registry Runner Verdict Group Api.
From S2P Require Import Plan Soak Pods RunPlan Attempt Effects.
Open Scope stdpp_scope.

(** [cron.ParseStandard], [Schedule.Next] with the zero time as [None], and
    [time.LoadLocation]. *)
Class CronLib := {
  location : Type;
  cronSchedule : Type;
  UTC : location;
  LoadLocation : str → location + str;
  location_String : location → str;
  ParseStandard : str → cronSchedule + str;
  Next : cronSchedule → Z → option Z;
}.

(** What the cron library documents: the next activation is later, and on the second. *)
Class CronLaws `(cron : CronLib) := {
  Next_later : ∀ c t u, Next c t = Some u → (t < u)%Z;
  Next_second : ∀ c t u, Next c t = Some u → (u mod second = 0)%Z;
}.

(** ** The objects *)
Record BurnInRunTemplate := MkRunTemplate {
  rt_TTLSecondsAfterFinished : option Z;
  rt_DeadlineSeconds : option Z;
  rt_MaxConcurrentNodes : option Z;
  rt_RetryOnErrorLimit : option Z;
  rt_Baseline : option bool;
}.

Record BurnInScheduleSpec := MkScheduleSpec {
  ls_Schedule : str;
  ls_TimeZone : option str;
  ls_ProfileRef : str;
  ls_TargetNodeNames : list str;
  ls_TargetNodeSelector : gmap str str;
  ls_TargetTolerations : list Toleration;
  ls_Suspend : option bool;
  ls_ConcurrencyPolicy : str;
  ls_StartingDeadlineSeconds : option Z;
  ls_SuccessfulRunsHistoryLimit : option Z;
  ls_FailedRunsHistoryLimit : option Z;
  ls_RunTemplate : BurnInRunTemplate;
}.

(** [corev1.ObjectReference], of a run. *)
Record runRef := MkRunRef { rr_Namespace : str; rr_Name : str; rr_UID : str }.

Record BurnInScheduleStatus := MkScheduleStatus {
  lt_LastScheduleTime : option Z;
  lt_LastSuccessfulTime : option Z;
  lt_Active : list runRef;
  lt_LastRunName : str;
  lt_LastRunPhase : RunPhase;
  lt_MissedSchedules : Z;
  lt_ObservedGeneration : Z;
  lt_Conditions : gmap str Condition;
}.

Record BurnInSchedule := MkSchedule {
  sc_Namespace : str;
  sc_Name : str;
  sc_UID : str;
  sc_CreatedAt : Z;
  sc_Generation : Z;
  sc_Spec : BurnInScheduleSpec;
  sc_Status : BurnInScheduleStatus;
}.

Global Instance Condition_eq_dec : EqDecision Condition.
Proof. solve_decision. Defined.
Global Instance runRef_eq_dec : EqDecision runRef.
Proof. solve_decision. Defined.
Global Instance BurnInScheduleStatus_eq_dec : EqDecision BurnInScheduleStatus.
Proof. solve_decision. Defined.

Definition set_sc_Status (v : BurnInScheduleStatus) (s : BurnInSchedule) : BurnInSchedule :=
  MkSchedule (sc_Namespace s) (sc_Name s) (sc_UID s) (sc_CreatedAt s) (sc_Generation s) (sc_Spec s) v.

Definition set_lt_LastScheduleTime (v : option Z) (s : BurnInScheduleStatus) : BurnInScheduleStatus :=
  MkScheduleStatus v (lt_LastSuccessfulTime s) (lt_Active s) (lt_LastRunName s) (lt_LastRunPhase s)
    (lt_MissedSchedules s) (lt_ObservedGeneration s) (lt_Conditions s).
Definition set_lt_MissedSchedules (v : Z) (s : BurnInScheduleStatus) : BurnInScheduleStatus :=
  MkScheduleStatus (lt_LastScheduleTime s) (lt_LastSuccessfulTime s) (lt_Active s) (lt_LastRunName s)
    (lt_LastRunPhase s) v (lt_ObservedGeneration s) (lt_Conditions s).
Definition set_lt_Conditions (v : gmap str Condition) (s : BurnInScheduleStatus) : BurnInScheduleStatus :=
  MkScheduleStatus (lt_LastScheduleTime s) (lt_LastSuccessfulTime s) (lt_Active s) (lt_LastRunName s)
    (lt_LastRunPhase s) (lt_MissedSchedules s) (lt_ObservedGeneration s) v.

(** A stored run, with the labels and the controller reference a schedule gives it. *)
Record OwnedRun := MkOwnedRun {
  or_run : BurnInRun;
  or_Labels : gmap str str;
  or_Controller : option str;
}.

Definition or_Name (r : OwnedRun) : str := run_Name (or_run r).
Definition or_Phase (r : OwnedRun) : RunPhase := st_Phase (run_Status (or_run r)).

(** ** Constants *)
Definition labelSchedule : str := "burnin.glimmer.ai/schedule".
Definition annotationScheduledAt : str := "burnin.glimmer.ai/scheduled-at".
Definition conditionScheduleValid : str := "ScheduleValid".
Definition defaultSuccessfulRunsHistoryLimit : Z := 3.
Definition defaultFailedRunsHistoryLimit : Z := 10.
Definition scheduleMaxTickScan : nat := 1000.
Definition scheduleMinRequeue : Z := second.
Definition ConcurrencyForbid : str := "Forbid".
Definition ConcurrencyAllow : str := "Allow".

(** ** The order of the history *)
Definition runOrderKey (run : BurnInRun) : Z :=
  match run_Annotations run !! annotationScheduledAt with
  | None => run_CreatedAt run
  | Some v => if String.eqb v "" then run_CreatedAt run else default (run_CreatedAt run) (ParseRFC3339 v)
  end.

Definition newer (a b : OwnedRun) : bool :=
  let x := runOrderKey (or_run a) in
  let y := runOrderKey (or_run b) in
  if (x =? y)%Z then str_ltb (or_Name b) (or_Name a) else (y <? x)%Z.

(** [sort.SliceStable] under [newer]. *)
Fixpoint insert_run (r : OwnedRun) (l : list OwnedRun) : list OwnedRun :=
  match l with
  | [] => [r]
  | q :: l' => if newer q r then q :: insert_run r l' else r :: l
  end.
Definition sortRunsNewestFirst (l : list OwnedRun) : list OwnedRun := foldr insert_run [] l.

(** ** Ticks *)
Section cron.
Context `{cron : CronLib}.

Definition parseSchedule (sched : BurnInSchedule) : cronSchedule + str :=
  let spec := TrimSpace (ls_Schedule (sc_Spec sched)) in
  if String.eqb spec "" then inr "spec.schedule is empty"
  else if HasPrefix spec "TZ=" || HasPrefix spec "CRON_TZ=" then
    inr "spec.schedule must not carry a TZ=/CRON_TZ= prefix; use spec.timeZone instead"
  else
    let zone :=
      match ls_TimeZone (sc_Spec sched) with
      | None => inl UTC
      | Some tz =>
          if String.eqb tz "" then inl UTC
          else match LoadLocation tz with
               | inl l => inl l
               | inr e => inr ("invalid spec.timeZone " +:+ quote tz +:+ ": " +:+ e)
               end
      end in
    match zone with
    | inr e => inr e
    | inl loc =>
        match ParseStandard ("CRON_TZ=" +:+ location_String loc +:+ " " +:+ spec) with
        | inl c => inl c
        | inr e => inr ("invalid spec.schedule " +:+ quote spec +:+ ": " +:+ e)
        end
    end.

Definition scheduleWindowStart (sched : BurnInSchedule) (now : Z) : Z :=
  match lt_LastScheduleTime (sc_Status sched) with
  | Some t => t
  | None => if negb (sc_CreatedAt sched =? 0)%Z then sc_CreatedAt sched else now
  end.

(** The loop of [dueTick], from tick [t]; [budget] ticks may still be counted. *)
Fixpoint scan_ticks (c : cronSchedule) (now : Z) (deadline : option Z) (budget : nat)
    (t : option Z) (latest : option Z) (missed : Z) : option Z * Z * bool :=
  match t with
  | None => (latest, missed, false)
  | Some u =>
      if (now <? u)%Z then (latest, missed, false)
      else
        match budget with
        | O => (None, Z.of_nat scheduleMaxTickScan + 1, true)%Z
        | S budget =>
            if match deadline with Some d => (u <? d)%Z | None => false end
            then scan_ticks c now deadline budget (Next c u) latest (missed + 1)%Z
            else scan_ticks c now deadline budget (Next c u) (Some u)
                   (match latest with Some _ => missed + 1 | None => missed end)%Z
        end
  end.

Definition dueTick (c : cronSchedule) (from now : Z) (startingDeadlineSeconds : option Z)
    : option Z * Z * bool :=
  scan_ticks c now ((λ d, now - d * second)%Z <$> startingDeadlineSeconds) scheduleMaxTickScan
    (Next c from) None 0.

Definition untilNext (c : cronSchedule) (now : Z) : requeue :=
  match Next c now with
  | None => Stop
  | Some next => if (scheduleMinRequeue <? next - now)%Z then After (next - now) else After scheduleMinRequeue
  end.
End cron.

Definition concurrencyPolicy (sched : BurnInSchedule) : str :=
  if String.eqb (ls_ConcurrencyPolicy (sc_Spec sched)) ConcurrencyAllow
  then ConcurrencyAllow else ConcurrencyForbid.

Definition addMissed (current delta : Z) : Z :=
  if (delta <=? 0)%Z then current
  else if (2147483647 <? current + delta)%Z then 2147483647 else i32 (current + delta).

(** ** What a schedule says of its runs *)
Definition runPhaseOrPending (p : RunPhase) : RunPhase :=
  match p with RunUnset => RunPending | p => p end.

Definition runReference (r : OwnedRun) : runRef :=
  MkRunRef (run_Namespace (or_run r)) (or_Name r) (run_UID (or_run r)).

Definition later_success (acc : option Z) (r : OwnedRun) : option Z :=
  if bool_decide (or_Phase r = RunPassed) then
    let at_ := default (run_CreatedAt (or_run r)) (st_FinishedAt (run_Status (or_run r))) in
    match acc with
    | None => Some at_
    | Some t => if (t <? at_)%Z then Some at_ else Some t
    end
  else acc.

Definition observe (sched : BurnInSchedule) (active finished : list OwnedRun) : BurnInScheduleStatus :=
  let before := sc_Status sched in
  let newest := head (sortRunsNewestFirst (active ++ finished)) in
  MkScheduleStatus (lt_LastScheduleTime before)
    (foldl later_success (lt_LastSuccessfulTime before) finished)
    (runReference <$> active)
    (match newest with Some r => or_Name r | None => lt_LastRunName before end)
    (match newest with Some r => runPhaseOrPending (or_Phase r) | None => lt_LastRunPhase before end)
    (lt_MissedSchedules before) (sc_Generation sched) (lt_Conditions before).

(** The run of a tick; the server names it, gives it its UID and stamps its creation. *)
Definition runForTick (sched : BurnInSchedule) (tick : Z) : OwnedRun :=
  let spec := sc_Spec sched in
  let tpl := ls_RunTemplate spec in
  MkOwnedRun
    (MkRun (sc_Namespace sched) (truncate (sc_Name sched) 200 +:+ "-") "" 0 None
       {[ annotationScheduledAt := FormatRFC3339 tick ]} []
       (MkRunSpec (ls_ProfileRef spec) (ls_TargetNodeNames spec) (ls_TargetNodeSelector spec)
          (ls_TargetTolerations spec)
          (Some (default 1%Z (rt_MaxConcurrentNodes tpl))) None
          (Some (default 0%Z (rt_RetryOnErrorLimit tpl))) (rt_DeadlineSeconds tpl) None
          (rt_Baseline tpl) None CancelUnset "" (rt_TTLSecondsAfterFinished tpl))
       (MkStatus RunUnset ∅ None None [] 0 0 0 0 [] None ∅))
    {[ labelSchedule := sc_Name sched ]} (Some (sc_UID sched)).

(** ** The store *)
Inductive sched_event :=
  | EvSchedStatus (s : BurnInScheduleStatus)
  | EvRunCreated (r : OwnedRun)
  | EvRunCollected (name : str).

Record sworld := MkSworld {
  sw_now : Z;
  sw_sched : option (nat * BurnInSchedule);  (* with its resource version *)
  sw_cached : option (nat * BurnInSchedule);  (* as the cache has it *)
  sw_runs : list OwnedRun;  (* the stored runs of the namespace *)
  sw_listed : list OwnedRun;  (* the runs as the cache lists them *)
  sw_serial : nat;  (* of the next name and UID the server makes up *)
  sw_faults : list fault;
  sw_text : error_class → str → str;
  sw_trace : list sched_event;
}.

Definition set_sw_sched (v : option (nat * BurnInSchedule)) (w : sworld) : sworld :=
  MkSworld (sw_now w) v (sw_cached w) (sw_runs w) (sw_listed w) (sw_serial w) (sw_faults w)
    (sw_text w) (sw_trace w).
Definition set_sw_runs (v : list OwnedRun) (w : sworld) : sworld :=
  MkSworld (sw_now w) (sw_sched w) (sw_cached w) v (sw_listed w) (sw_serial w) (sw_faults w)
    (sw_text w) (sw_trace w).
Definition set_sw_serial (v : nat) (w : sworld) : sworld :=
  MkSworld (sw_now w) (sw_sched w) (sw_cached w) (sw_runs w) (sw_listed w) v (sw_faults w)
    (sw_text w) (sw_trace w).
Definition set_sw_faults (v : list fault) (w : sworld) : sworld :=
  MkSworld (sw_now w) (sw_sched w) (sw_cached w) (sw_runs w) (sw_listed w) (sw_serial w) v
    (sw_text w) (sw_trace w).
Definition sched_emit (e : sched_event) (w : sworld) : sworld :=
  MkSworld (sw_now w) (sw_sched w) (sw_cached w) (sw_runs w) (sw_listed w) (sw_serial w)
    (sw_faults w) (sw_text w) (e :: sw_trace w).

(** The schedule in hand with the version it was read at, the status the pass last wrote or
    read, and the store. *)
Record sst := MkSst {
  ss_version : nat;
  ss_sched : BurnInSchedule;
  ss_before : BurnInScheduleStatus;
  ss_world : sworld;
}.

Notation SM := (eff sst).

Definition set_ss_world (w : sworld) (s : sst) : sst :=
  MkSst (ss_version s) (ss_sched s) (ss_before s) w.
Definition getSched : SM BurnInSchedule := λ s, (inl (ss_sched s), s).
Definition schedNow : SM Z := λ s, (inl (sw_now (ss_world s)), s).
Definition modifyStatus (f : BurnInScheduleStatus → BurnInScheduleStatus) : SM () := λ s,
  (inl tt, MkSst (ss_version s) (set_sc_Status (f (sc_Status (ss_sched s))) (ss_sched s))
             (ss_before s) (ss_world s)).

(** One call about the object [name]; [f] is its effect when it is let through. *)
Definition sched_call {A} (name : str) (f : sworld → (A + error_class) * sworld) : SM A := λ s,
  let w := set_sw_faults (tail (sw_faults (ss_world s))) (ss_world s) in
  let report c := inr (MkError c (sw_text w c name)) in
  match head (sw_faults (ss_world s)) with
  | Some (Reject structured) => (report (failure structured), set_ss_world w s)
  | Some (Lost structured) => (report (failure structured), set_ss_world (f w).2 s)
  | Some Land | None =>
      let '(r, w') := f w in
      (match r with inl a => inl a | inr c => report c end, set_ss_world w' s)
  end.

(** The status write: refused when the schedule was read at an older version. *)
Definition update_status (version : nat) (new : BurnInSchedule) (w : sworld)
    : (nat + error_class) * sworld :=
  match sw_sched w with
  | None => (inr NotFound, w)
  | Some (v, stored) =>
      if (v =? version)%nat then
        (inl (S v), sched_emit (EvSchedStatus (sc_Status new))
                      (set_sw_sched (Some (S v, set_sc_Status (sc_Status new) stored)) w))
      else (inr ApiStatus, w)
  end.

(** The snapshot moves to what was written. *)
Definition rebase (version : nat) : SM () := λ s,
  (inl tt, MkSst version (ss_sched s) (sc_Status (ss_sched s)) (ss_world s)).

Definition storeStatus (version : nat) (sched : BurnInSchedule) : SM () :=
  new ← sched_call (sc_Name sched) (update_status version sched); rebase new.

Definition writeStatus : SM () := λ s,
  if bool_decide (ss_before s = sc_Status (ss_sched s)) then (inl tt, s)
  else storeStatus (ss_version s) (ss_sched s) s.

(** The server's part of [r.Create]: a name and a UID nobody else has. *)
Definition admitted_run (w : sworld) (r : OwnedRun) : OwnedRun :=
  let run := or_run r in
  let serial := Itoa (Z.of_nat (sw_serial w)) in
  MkOwnedRun
    (MkRun (run_Namespace run) (run_Name run +:+ serial) ("uid-" +:+ serial) (sw_now w) None
       (run_Annotations run) (run_Finalizers run) (run_Spec run) (run_Status run))
    (or_Labels r) (or_Controller r).

Definition createRun (r : OwnedRun) : SM OwnedRun :=
  sched_call (or_Name r) (λ w,
    let r := admitted_run w r in
    (inl r, sched_emit (EvRunCreated r)
              (set_sw_serial (S (sw_serial w)) (set_sw_runs (sw_runs w ++ [r]) w)))).

Definition run_named (name : str) (r : OwnedRun) : bool := String.eqb (or_Name r) name.

(** A run that still carries a finalizer is only marked for deletion. *)
Definition deleted_run (now : Z) (r : OwnedRun) : option OwnedRun :=
  if is_nil (run_Finalizers (or_run r)) then None
  else Some (MkOwnedRun (set_run_DeletionTimestamp (Some now) (or_run r)) (or_Labels r) (or_Controller r)).

Definition deleteOwned (name : str) : SM () :=
  sched_call name (λ w,
    if existsb (run_named name) (sw_runs w) then
      (inl tt, sched_emit (EvRunCollected name)
        (set_sw_runs (omap (λ r, if run_named name r then deleted_run (sw_now w) r else Some r)
                        (sw_runs w)) w))
    else (inr NotFound, w)).

(** ** Reconcile *)
Definition controlledBy (sched : BurnInSchedule) (r : OwnedRun) : bool :=
  match or_Controller r with Some uid => String.eqb uid (sc_UID sched) | None => false end.

Definition ownedRuns : SM (list OwnedRun * list OwnedRun) :=
  sched ← getSched;
  listed ← rethrow ("list BurnInRuns in " +:+ sc_Namespace sched +:+ ": ")
             (sched_call (sc_Namespace sched) (λ w, (inl (sw_listed w), w)));
  let mine := List.filter (controlledBy sched) listed in
  let finished := List.filter (λ r, IsTerminal (or_Phase r)) mine in
  let active := List.filter (λ r, negb (IsTerminal (or_Phase r))) mine in
  mret (sortRunsNewestFirst active, sortRunsNewestFirst finished).

Definition collect_one (r : OwnedRun) : SM () :=
  res ← try (deleteOwned (or_Name r));
  match res with
  | inl _ => mret tt
  | inr e =>
      if IsNotFound e then mret tt
      else throw (wrap ("garbage-collect BurnInRun " +:+ run_Namespace (or_run r) +:+ "/" +:+
                        or_Name r +:+ ": ") e)
  end.

(** A negative limit indexes the list out of its range. *)
Definition deleteBeyond (runs : list OwnedRun) (limit : Z) : SM () :=
  let runs := sortRunsNewestFirst runs in
  if (limit <? 0)%Z then throw (Errorf "panic: index out of range")
  else iter collect_one (list.drop (Z.to_nat limit) runs).

Definition collectHistory (finished : list OwnedRun) : SM () :=
  sched ← getSched;
  let passed := List.filter (λ r, bool_decide (or_Phase r = RunPassed)) finished in
  let notPassed := List.filter (λ r, negb (bool_decide (or_Phase r = RunPassed))) finished in
  deleteBeyond passed (default defaultSuccessfulRunsHistoryLimit
                         (ls_SuccessfulRunsHistoryLimit (sc_Spec sched))) ;;
  deleteBeyond notPassed (default defaultFailedRunsHistoryLimit
                            (ls_FailedRunsHistoryLimit (sc_Spec sched))).

Definition setScheduleValid (status : bool) (reason message : str) : SM () :=
  modifyStatus (λ s, set_lt_Conditions
    (<[conditionScheduleValid := MkCondition status reason message]> (lt_Conditions s)) s).

(** The cursor is stored before the run is created. *)
Definition fire (tick : Z) : SM () :=
  modifyStatus (set_lt_LastScheduleTime (Some tick)) ;;
  writeStatus ;;
  sched ← getSched;
  r ← createRun (runForTick sched tick);
  modifyStatus (λ s, MkScheduleStatus (lt_LastScheduleTime s) (lt_LastSuccessfulTime s)
    (lt_Active s ++ [runReference r]) (or_Name r) (runPhaseOrPending (or_Phase r))
    (lt_MissedSchedules s) (lt_ObservedGeneration s) (lt_Conditions s)).

Section reconcile.
Context `{cron : CronLib}.

(** The part of a pass that acts on a schedule that parses. *)
Definition act (c : cronSchedule) (active : list OwnedRun) : SM requeue :=
  sched ← getSched;
  n ← schedNow;
  let '(tick, missed, resync) :=
    dueTick c (scheduleWindowStart sched n) n (ls_StartingDeadlineSeconds (sc_Spec sched)) in
  modifyStatus (λ s, set_lt_MissedSchedules (addMissed (lt_MissedSchedules s) missed) s) ;;
  (if resync : bool then modifyStatus (set_lt_LastScheduleTime (Some n))
   else match tick with
        | None => mret tt
        | Some t =>
            if String.eqb (concurrencyPolicy sched) ConcurrencyForbid && negb (is_nil active) then
              modifyStatus (set_lt_LastScheduleTime (Some t)) ;;
              modifyStatus (λ s, set_lt_MissedSchedules (addMissed (lt_MissedSchedules s) 1) s)
            else fire t
        end) ;;
  writeStatus ;;
  mret (untilNext c n).

Definition reconcileSchedule : SM requeue :=
  owned ← ownedRuns;
  let '(active, finished) := owned in
  sched ← getSched;
  modifyStatus (λ _, observe sched active finished) ;;
  collectHistory finished ;;
  match parseSchedule sched with
  | inr e => setScheduleValid false "InvalidSchedule" e ;; writeStatus ;; mret Stop
  | inl c =>
      setScheduleValid true "Parsed" "schedule parses and is being evaluated" ;;
      if default false (ls_Suspend (sc_Spec sched)) then writeStatus ;; mret Stop
      else act c active
  end.

(** One pass from the cached copy; the read is a call like the others. *)
Definition schedulePass (w : sworld) : (requeue + error) * sworld :=
  let w' := set_sw_faults (tail (sw_faults w)) w in
  let report c := (inr (MkError c (sw_text w c "schedule")), w') in
  match head (sw_faults w) with
  | Some (Reject b) | Some (Lost b) => report (failure b)
  | Some Land | None =>
      match sw_cached w with
      | None => (inl Stop, w')
      | Some (version, sched) =>
          let '(r, s') := reconcileSchedule (MkSst version sched (sc_Status sched) w') in
          (r, ss_world s')
      end
  end.
End reconcile.
