(* ===== verification/Hourly.v ===== *)
(** * A schedule on the hour

    The simplest cron library, one that ticks at every multiple of a period, a schedule over
    it and the stores around it: the inputs of the witnesses, and the executions that show
    where the schedule controller falls short of what its comments say. *)

From S2P Require Import Prelude GoStrings GoFloat GoTime Contract Registry Runner Verdict Group Api.
From S2P Require Import Plan Soak Pods RunPlan Attempt Effects Schedule.
Open Scope stdpp_scope.

Definition hour : Z := (3600 * second)%Z.
Definition day : Z := (24 * hour)%Z.

(** Ticks at the multiples of [period], whatever is asked for. *)
Definition every (period : Z) : CronLib :=
  Build_CronLib () () tt (λ _, inl tt) (λ _, "UTC") (λ _, inl tt)
    (λ _ t, Some ((t / period + 1) * period)%Z).

Definition hourly : CronLib := every hour.
Definition weekly : CronLib := every (7 * day).

Lemma every_laws k : (0 < k)%Z → CronLaws (every (k * second)).
Proof.
  intros Hk. assert (0 < k * second)%Z as HP by (unfold second; lia).
  split; intros c t u; cbn [Next every]; intros [= <-].
  - pose proof (Z.div_mod t (k * second) ltac:(lia)). pose proof (Z.mod_pos_bound t (k * second) HP).
    generalize dependent (k * second)%Z. intros P. nia.
  - rewrite Z.mul_assoc. apply Z.mod_mul. unfold second. lia.
Qed.

Lemma hourly_laws : CronLaws hourly.
Proof. exact (every_laws 3600 ltac:(lia)). Qed.

Definition soak_schedule (deadline : option Z) (cursor : option Z) : BurnInSchedule :=
  MkSchedule "ns" "soak" "uid-s" hour 1
    (MkScheduleSpec "0 * * * *" None "p" ["a"] ∅ [] None "" deadline None None
       (MkRunTemplate None None None None None))
    (MkScheduleStatus cursor None [] "" RunUnset 0 1
       {[ conditionScheduleValid := MkCondition true "Parsed" "schedule parses and is being evaluated" ]}).

(** A store and a cache that agree. *)
Definition settled_store (now : Z) (sched : BurnInSchedule) (runs : list OwnedRun) : sworld :=
  MkSworld now (Some (1, sched)) (Some (1, sched)) runs runs 0 [] (λ _ _, "") [].

(** Later, the cache has caught up, and the runs are these. *)
Definition later (now : Z) (runs : list OwnedRun) (w : sworld) : sworld :=
  MkSworld now (sw_sched w) (sw_sched w) runs runs (sw_serial w) (sw_faults w) (sw_text w) (sw_trace w).

(** The cache catches up at once. *)
Definition refreshed (w : sworld) : sworld := later (sw_now w) (sw_runs w) w.

Definition missed_of (w : sworld) : option Z :=
  (λ vs, lt_MissedSchedules (sc_Status vs.2)) <$> sw_sched w.

(** Five ticks passed while nothing ran, all past the starting deadline.  The cursor stays
    behind them, so the very next pass, which the status write itself provokes, counts the
    same five again. *)
Lemma missed_ticks_counted_again :
  let pass w := refreshed (@schedulePass hourly w).2 in
  let w := settled_store (11 * 1800 * second) (soak_schedule (Some 60%Z) (Some 0%Z)) [] in
  missed_of (pass w) = Some 5%Z ∧ missed_of (pass (pass w)) = Some 10%Z ∧
  missed_of (pass (pass (pass w))) = Some 15%Z.
Proof. vm_compute. done. Qed.

(** A weekly tick missed two days and a half ago is fired as soon as the controller is back,
    when no starting deadline is set. *)
Lemma late_tick_fired :
  let w := settled_store (14 * day + 60 * hour) (soak_schedule None (Some (7 * day)%Z)) [] in
  omap (λ e, match e with EvRunCreated r => Some (runOrderKey (or_run r)) | _ => None end)
    (sw_trace (@schedulePass weekly w).2) = [(14 * day)%Z].
Proof. vm_compute. done. Qed.
