(* ===== verification/Ticks.v ===== *)
(** * Which ticks a schedule fires

    The specification of the due tick, over the ticks the cron schedule has between the
    cursor and now; that no tick is ever fired twice, whatever calls fail and however old the
    cached schedule is; and what a pass may do to the runs a schedule owns. *)

From S2P Require Import Prelude GoStrings GoFloat GoTime Contract Registry Runner Verdict Group Api.
From S2P Require Import Plan Soak Pods RunPlan Attempt Effects Schedule Hourly.
Open Scope stdpp_scope.

(** ** The due tick *)
Section due.
Context `{laws : CronLaws}.

(** A tick of the schedule after [from]. *)
Inductive tick_after (c : cronSchedule) : Z → Z → Prop :=
  | tick_next from t : Next c from = Some t → tick_after c from t
  | tick_later from t u : Next c from = Some t → tick_after c t u → tick_after c from u.

Lemma tick_after_later c from t : tick_after c from t → (from < t)%Z.
Proof. induction 1 as [? ? H|? ? ? H _ IH]; apply Next_later in H; lia. Qed.

Lemma tick_after_second c from t : tick_after c from t → (t mod second = 0)%Z.
Proof. induction 1 as [? ? H|? ? ? H _ IH]; [by eapply Next_second|exact IH]. Qed.

(** The first [n] ticks after [from] that are not after [now]. *)
Fixpoint elapsed (c : cronSchedule) (now : Z) (n : nat) (from : Z) : list Z :=
  match n, Next c from with
  | S n, Some t => if (now <? t)%Z then [] else t :: elapsed c now n t
  | _, _ => []
  end.

Lemma elapsed_sound c now n from t : t ∈ elapsed c now n from → tick_after c from t ∧ (t <= now)%Z.
Proof.
  revert from. induction n as [|n IH]; intros from; cbn; [by intros ?%elem_of_nil|].
  destruct (Next c from) as [u|] eqn:Hn; [|by intros ?%elem_of_nil].
  destruct (Z.ltb_spec now u); [by intros ?%elem_of_nil|].
  intros [->|Ht]%elem_of_cons; [split; [by constructor|lia]|].
  apply IH in Ht as [Ht Hle]. split; [by eapply tick_later|done].
Qed.

Lemma elapsed_sorted c now n from : StronglySorted Z.lt (elapsed c now n from).
Proof.
  revert from. induction n as [|n IH]; intros from; cbn; [constructor|].
  destruct (Next c from) as [u|] eqn:Hn; [|constructor].
  destruct (Z.ltb_spec now u); [constructor|]. constructor; [apply IH|].
  apply Forall_forall. intros t Ht. apply elapsed_sound in Ht as [Ht _].
  by apply tick_after_later in Ht.
Qed.

Lemma elapsed_length c now n from : (length (elapsed c now n from) <= n)%nat.
Proof.
  revert from. induction n as [|n IH]; intros from; cbn; [lia|].
  destruct (Next c from); [|cbn; lia]. destruct (_ <? _)%Z; cbn; [lia|]. specialize (IH z). lia.
Qed.

(** All of them, once fewer than [n] were found. *)
Lemma elapsed_complete c now n from t :
  (length (elapsed c now n from) < n)%nat → tick_after c from t → (t <= now)%Z →
  t ∈ elapsed c now n from.
Proof.
  revert from. induction n as [|n IH]; intros from Hlen Ht Hle; [cbn in Hlen; lia|].
  cbn in *. destruct Ht as [from t Hn|from u t Hn Ht]; rewrite Hn in *.
  - destruct (Z.ltb_spec now t); [lia|]. by left.
  - pose proof (tick_after_later _ _ _ Ht). destruct (Z.ltb_spec now u); [lia|].
    right. apply IH; [cbn in Hlen; lia|done|done].
Qed.

Definition eligible (deadline : option Z) (t : Z) : bool :=
  match deadline with Some d => negb (t <? d)%Z | None => true end.

(** The last eligible tick, over the one already seen. *)
Definition latest_of (deadline : option Z) (latest : option Z) (ts : list Z) : option Z :=
  match last (List.filter (eligible deadline) ts) with Some t => Some t | None => latest end.

Definition held (o : option Z) : Z := match o with Some _ => 1 | None => 0 end.

Lemma latest_of_cons deadline latest t ts :
  latest_of deadline latest (t :: ts) =
  latest_of deadline (if eligible deadline t then Some t else latest) ts.
Proof.
  unfold latest_of. cbn. destruct (eligible deadline t); [|done].
  rewrite last_cons. by destruct (last (List.filter _ ts)).
Qed.

Lemma elapsed_S c now n from :
  elapsed c now (S n) from =
  match Next c from with
  | Some t => if (now <? t)%Z then [] else t :: elapsed c now n t
  | None => []
  end.
Proof. done. Qed.

Lemma scan_ticks_spec c now deadline n from latest missed :
  let due := elapsed c now (S n) from in
  scan_ticks c now deadline n (Next c from) latest missed =
  if (length due <=? n)%nat then
    (latest_of deadline latest due,
     missed + Z.of_nat (length due) + held latest - held (latest_of deadline latest due), false)%Z
  else (None, Z.of_nat scheduleMaxTickScan + 1, true)%Z.
Proof.
  revert from latest missed. induction n as [|n IH]; intros from latest missed; cbv zeta;
    rewrite elapsed_S; destruct (Next c from) as [t|] eqn:Hn; cbn [scan_ticks].
  2, 4: unfold latest_of; cbn; repeat f_equal; lia.
  all: destruct (Z.ltb_spec now t) as [Hlt|Hle]; [unfold latest_of; cbn; repeat f_equal; lia|].
  - done.
  - cbn [length]. rewrite latest_of_cons. change (S ?a <=? S ?b)%nat with (a <=? b)%nat.
    replace (match deadline with Some d => (t <? d)%Z | None => false end)
      with (negb (eligible deadline t)) by (destruct deadline; cbn; by rewrite ?negb_involutive).
    destruct (eligible deadline t); cbn [negb]; rewrite IH; cbv zeta;
      (destruct (_ <=? _)%nat; [|done]); do 2 f_equal; destruct latest; cbn [held]; lia.
Qed.

Lemma last_greatest (l : list Z) t u :
  StronglySorted Z.lt l → last l = Some t → u ∈ l → (u <= t)%Z.
Proof.
  intros Hs [l' ->]%last_Some Hu. apply elem_of_app in Hu as [Hu|Hu%list_elem_of_singleton]; [|lia].
  apply StronglySorted_app in Hs as (Hlt & _ & _). specialize (Hlt u t Hu ltac:(by left)). lia.
Qed.

Lemma filter_sorted (f : Z → bool) l : StronglySorted Z.lt l → StronglySorted Z.lt (List.filter f l).
Proof.
  induction 1 as [|t l Hl IH Ht]; cbn; [constructor|]. destruct (f t); [|done]. constructor; [done|].
  rewrite Forall_forall in Ht |- *. intros u Hu%list_elem_of_In%filter_In. apply Ht, list_elem_of_In, Hu.
Qed.

Lemma latest_of_spec deadline due :
  StronglySorted Z.lt due →
  match latest_of deadline None due with
  | Some t => t ∈ due ∧ eligible deadline t = true ∧ ∀ u, u ∈ due → eligible deadline u = true → (u <= t)%Z
  | None => ∀ u, u ∈ due → eligible deadline u = false
  end.
Proof.
  intros Hs. unfold latest_of. destruct (last _) as [t|] eqn:Hl.
  - pose proof Hl as [l' Hf]%last_Some.
    assert (t ∈ List.filter (eligible deadline) due) as Ht by (rewrite Hf; set_solver).
    apply list_elem_of_In, filter_In in Ht as [Hin He]. split_and!; [by apply list_elem_of_In|done|].
    intros u Hu Heu. eapply last_greatest; [by apply filter_sorted|exact Hl|].
    apply list_elem_of_In, filter_In. split; [by apply list_elem_of_In|done].
  - apply last_None in Hl. intros u Hu. apply not_true_iff_false. intros He.
    assert (u ∈ List.filter (eligible deadline) due) as Hin.
    { apply list_elem_of_In, filter_In. split; [by apply list_elem_of_In|done]. }
    rewrite Hl in Hin. by apply elem_of_nil in Hin.
Qed.

(** The ticks between the cursor and now, when there are few enough to be counted, and what
    is made of them. *)
Definition counted (c : cronSchedule) (from now : Z) (due : list Z) : Prop :=
  StronglySorted Z.lt due ∧ (length due <= scheduleMaxTickScan)%nat ∧
  ∀ t, t ∈ due ↔ tick_after c from t ∧ (t <= now)%Z.

Definition too_many (c : cronSchedule) (from now : Z) : Prop :=
  ∃ due, StronglySorted Z.lt due ∧ (length due = S scheduleMaxTickScan)%nat ∧
    ∀ t, t ∈ due → tick_after c from t ∧ (t <= now)%Z.

(** C26: One tick at most is due, the most recent one the starting deadline still allows, and
    every other tick since the cursor is counted as missed; only when more than a thousand
    have elapsed is none named and the schedule resynchronised. *)
Theorem dueTick_latest c from now seconds :
  let deadline := (λ d, now - d * second)%Z <$> seconds in
  match dueTick c from now seconds with
  | (tick, missed, true) => tick = None ∧ too_many c from now
  | (tick, missed, false) =>
      ∃ due, counted c from now due ∧ (missed + held tick = Z.of_nat (length due))%Z ∧
        match tick with
        | Some t => t ∈ due ∧ eligible deadline t = true ∧
                    ∀ u, u ∈ due → eligible deadline u = true → (u <= t)%Z
        | None => ∀ u, u ∈ due → eligible deadline u = false
        end
  end.
Proof.
  cbv zeta. unfold dueTick. rewrite scan_ticks_spec. cbv zeta.
  set (due := elapsed c now (S scheduleMaxTickScan) from).
  pose proof (elapsed_sorted c now (S scheduleMaxTickScan) from) as Hs. fold due in Hs.
  assert (length due <= S scheduleMaxTickScan)%nat as Hmax by apply elapsed_length.
  destruct (Nat.leb_spec (length due) scheduleMaxTickScan) as [Hl|Hl].
  - exists due. split_and!; [split_and!; [done|done|]|cbn; lia|by apply latest_of_spec].
    intros t. split; [apply elapsed_sound|]. intros [Ht Hle]. apply elapsed_complete; [|done|done].
    fold due. lia.
  - split; [done|]. exists due. split_and!; [done|lia|]. intros t. apply elapsed_sound.
Qed.
End due.

Lemma dueTick_latest_witness :
  @dueTick hourly () 0 (11 * 1800 * second) (Some 3600%Z) = (Some (5 * hour), 4, false)%Z ∧
  ∃ due, @counted hourly () 0 (11 * 1800 * second) due ∧ (4 + held (Some (5 * hour)) = Z.of_nat (length due))%Z ∧
    (5 * hour)%Z ∈ due ∧ eligible (Some (11 * 1800 * second - 3600 * second)%Z) (5 * hour) = true ∧
    ∀ u, u ∈ due → eligible (Some (11 * 1800 * second - 3600 * second)%Z) u = true → (u <= 5 * hour)%Z.
Proof.
  split; [vm_compute; reflexivity|].
  exact (@dueTick_latest hourly hourly_laws () 0 (11 * 1800 * second) (Some 3600%Z)).
Defined.
