(* ===== verification/Fired.v ===== *)
(** * No tick fires twice

    The life of a schedule as a transition system: passes of its controller from a cached
    copy of any age, over any fault script, between steps of an environment that edits the
    schedule, moves the clock and the runs, and refreshes the cache or not.  The ticks the
    created runs were made for are strictly increasing; and what one pass may create and
    collect. *)

From S2P Require Import Prelude GoStrings GoFloat GoTime Contract Registry Runner Verdict Group Api.
From S2P Require Import Plan Soak Pods RunPlan Attempt Effects Schedule Hourly Ticks.
Open Scope stdpp_scope.

(** ** Instants with a four-digit year *)
Definition era_end : Z := (2786860 * 86400 * second)%Z.
Definition in_era (t : Z) : Prop := (0 <= t < era_end)%Z.

Lemma in_era_year t : in_era t → four_digit_year t.
Proof.
  unfold in_era, era_end, four_digit_year, second. intros H.
  assert (0 <= t / 1000000000 / 86400 < 2786860)%Z as Hd.
  { split; [apply Z.div_pos; [apply Z.div_pos; lia|lia]|].
    apply Z.div_lt_upper_bound; [lia|]. apply Z.div_lt_upper_bound; lia. }
  generalize dependent (t / 1000000000 / 86400)%Z. intros days Hd. unfold date_of_days. cbn [d_year].
  pose proof (Z.mod_pos_bound (days + 719468) 146097 ltac:(lia)) as Hm.
  pose proof (year_of_era_facts _ Hm) as (Hy & _).
  assert (0 <= (days + 719468) / 146097 < 24)%Z.
  { split; [apply Z.div_pos; lia|apply Z.div_lt_upper_bound; lia]. }
  destruct (_ <=? 2)%Z; lia.
Qed.

(** ** The ticks of the runs that were created, newest first *)
Definition tick_of (r : OwnedRun) : Z := runOrderKey (or_run r).

Definition fired (w : sworld) : list Z :=
  omap (λ e, match e with EvRunCreated r => Some (tick_of r) | _ => None end) (sw_trace w).

Lemma tick_of_run w sched t :
  in_era t → (t mod second = 0)%Z → tick_of (admitted_run w (runForTick sched t)) = t.
Proof.
  intros He Hs. unfold tick_of, runOrderKey. cbn [or_run run_Annotations admitted_run runForTick].
  rewrite lookup_singleton_eq.
  assert (String.eqb (FormatRFC3339 t) "" = false) as -> by done.
  rewrite ParseRFC3339_Format by by apply in_era_year. cbn.
  unfold second in *. pose proof (Z.div_mod t 1000000000). lia.
Qed.

(** A call keeps what survives every move of [R], when it and running out a fault are moves
    of [R]. *)
Lemma keeps_sched_call {A} (R : sworld → sworld → Prop) (P : sst → Prop) name
    (f : sworld → (A + error_class) * sworld) :
  (∀ w fs, R w (set_sw_faults fs w)) → (∀ s w, R (ss_world s) w → P s → P (set_ss_world w s)) →
  (∀ w, R w (f w).2) → keeps P (sched_call name f).
Proof.
  intros HR HP Hf s H. unfold sched_call.
  set (w0 := set_sw_faults _ _). assert (P (set_ss_world w0 s)) as H0 by (apply HP; [apply HR|done]).
  assert (P (set_ss_world (f w0).2 s)) as H1 by exact (HP (set_ss_world w0 s) _ (Hf w0) H0).
  destruct (head (sw_faults (ss_world s))) as [[| |]|]; try done; by destruct (f w0) as [[a|c] w'].
Qed.

(** ** The invariant *)
Definition cursor (s : BurnInSchedule) : option Z := lt_LastScheduleTime (sc_Status s).

Definition sane (s : BurnInSchedule) : Prop :=
  in_era (sc_CreatedAt s) ∧ ∀ c, cursor s = Some c → in_era c.

Definition newest_first (l : list Z) : Prop := StronglySorted (λ a b, (b < a)%Z) l.

(** Every tick fired is at or before the cursor. *)
Definition behind (c : option Z) (w : sworld) : Prop :=
  ∀ t, t ∈ fired w → ∃ u, c = Some u ∧ (t <= u)%Z.

(** A cached copy is of the stored version, and then the stored object, or of an older one,
    and then anything. *)
Definition coherent (w : sworld) : Prop :=
  ∀ v s, sw_cached w = Some (v, s) → sane s ∧
    ∀ v' s', sw_sched w = Some (v', s') → (v <= v')%nat ∧ (v = v' → s = s').

Definition ordered (w : sworld) : Prop :=
  newest_first (fired w) ∧ in_era (sw_now w) ∧
  ∀ v s, sw_sched w = Some (v, s) → sane s ∧ behind (cursor s) w.

Definition sched_inv (w : sworld) : Prop := ordered w ∧ coherent w.

(** ** The pass *)
Section pass.
Context `{laws : CronLaws}.

Definition inv_of (s : sst) : Prop := sched_inv (ss_world s).

(** The version in hand is not newer than the stored one, and the cursor of its stored
    status, if it is that one, is [c]. *)
Definition based (c : option Z) (s : sst) : Prop :=
  inv_of s ∧ in_era (sc_CreatedAt (ss_sched s)) ∧
  ∀ v st, sw_sched (ss_world s) = Some (v, st) →
    (ss_version s <= v)%nat ∧ (ss_version s = v → cursor st = c).

(** Before anything is decided, the cursor in hand is the one that was read. *)
Definition undecided (c : option Z) (s : sst) : Prop :=
  based c s ∧ sane (ss_sched s) ∧ cursor (ss_sched s) = c ∧ lt_LastScheduleTime (ss_before s) = c.

(** The cursor in hand may be stored: it is no earlier than the one that was read. *)
Definition writable (s : sst) : Prop :=
  ∃ c, based c s ∧ (∀ u, cursor (ss_sched s) = Some u → in_era u) ∧
    ∀ u, c = Some u → ∃ u', cursor (ss_sched s) = Some u' ∧ (u <= u')%Z.

(** What a call that leaves the schedule and the created runs alone keeps. *)
Definition aside (w w' : sworld) : Prop :=
  sw_now w' = sw_now w ∧ sw_sched w' = sw_sched w ∧ sw_cached w' = sw_cached w ∧ fired w' = fired w.

Lemma sched_inv_aside w w' : aside w w' → sched_inv w → sched_inv w'.
Proof.
  intros (Hn & Hs & Hc & Hf). unfold sched_inv, ordered, coherent, behind. by rewrite Hn, Hs, Hc, Hf.
Qed.

Lemma based_aside c s w : aside (ss_world s) w → based c s → based c (set_ss_world w s).
Proof.
  intros Hw (H1 & H2 & H3). split_and!; [by eapply sched_inv_aside|done|].
  intros v st. cbn. destruct Hw as (_ & -> & _). apply H3.
Qed.

Lemma undecided_aside c s w : aside (ss_world s) w → undecided c s → undecided c (set_ss_world w s).
Proof. intros Hw (H1 & H2). split; [by apply based_aside|done]. Qed.

Lemma undecided_status c f :
  (∀ st, lt_LastScheduleTime (f st) = lt_LastScheduleTime st) → keeps (undecided c) (modifyStatus f).
Proof.
  intros Hf s (H1 & [H2 H2'] & H3 & H4). unfold modifyStatus. split_and!; [exact H1| |exact (eq_trans (Hf _) H3)|done].
  split; [done|]. intros u. unfold cursor. cbn. rewrite Hf. apply H2'.
Qed.

Lemma undecided_owned c : keeps (undecided c) ownedRuns.
Proof.
  apply keeps_bind; [by intros s H|]. intros sched. apply keeps_bind; [|intros; apply keeps_ret].
  apply keeps_bind; [|intros [?|?]; [apply keeps_ret|apply keeps_throw]].
  apply keeps_try, (keeps_sched_call aside); [done|apply undecided_aside|done].
Qed.

Lemma undecided_collect c finished : keeps (undecided c) (collectHistory finished).
Proof.
  assert (∀ r, keeps (undecided c) (collect_one r)) as Hone.
  { intros r. apply keeps_bind; [|intros [?|e]; [apply keeps_ret|];
      destruct (IsNotFound e); [apply keeps_ret|apply keeps_throw]].
    apply keeps_try, (keeps_sched_call aside); [done|apply undecided_aside|]. intros w. by destruct (existsb _ _). }
  assert (∀ runs limit, keeps (undecided c) (deleteBeyond runs limit)) as Hbeyond.
  { intros runs limit. unfold deleteBeyond. destruct (_ <? _)%Z; [apply keeps_throw|].
    apply triple_iter. intros r _. apply Hone. }
  apply keeps_bind; [by intros s H|]. intros sched. apply keeps_bind; [apply Hbeyond|].
  intros _. apply Hbeyond.
Qed.

Lemma undecided_writable c s : undecided c s → writable s.
Proof.
  intros (H1 & [_ H2] & H3 & _). exists c. split_and!; [done|done|]. intros u ->. exists u. by split; [|lia].
Qed.

(** A status write that got through moved the stored cursor to the one in hand. *)
Definition stored_cursor (s : sst) : Prop :=
  inv_of s ∧ in_era (sc_CreatedAt (ss_sched s)) ∧ (∀ u, cursor (ss_sched s) = Some u → in_era u) ∧
  ∀ v st, sw_sched (ss_world s) = Some (v, st) → ss_version s = v ∧ cursor st = cursor (ss_sched s).

Lemma update_status_spec s w :
  aside (ss_world s) w → writable s →
  match update_status (ss_version s) (ss_sched s) w with
  | (inl v, w') => sched_inv w' ∧ fired w' = fired (ss_world s) ∧
      (∃ st, sw_sched w' = Some (v, st) ∧ cursor st = cursor (ss_sched s)) ∧
      ∀ c, based c s → behind c (ss_world s)
  | (inr _, w') => sched_inv w'
  end.
Proof.
  intros Hw (c & (Hi & Hc & Hv) & Hera & Hle). pose proof Hw as (Hn & Hs & Hca & Hf).
  pose proof (sched_inv_aside _ _ Hw Hi) as Hi'. unfold update_status. rewrite Hs.
  destruct (sw_sched (ss_world s)) as [[v st]|] eqn:Hst; [|exact Hi'].
  destruct (Nat.eqb_spec v (ss_version s)) as [->|]; [|exact Hi'].
  destruct Hi as [(Ho1 & Ho2 & Ho3) Hco]. destruct (Ho3 _ _ Hst) as [[Hs1 Hs2] Hb].
  destruct (Hv _ _ eq_refl) as [_ Hcur]. specialize (Hcur eq_refl).
  split_and!.
  - split; [split_and!|].
    + cbn. change (newest_first (fired w)). by rewrite Hf.
    + cbn. by rewrite Hn.
    + cbn. intros v' st' [= <- <-]. split; [by split|]. intros t Ht.
      change (t ∈ fired w) in Ht. rewrite Hf in Ht. destruct (Hb t Ht) as (u & Hu & Htu).
      rewrite Hcur in Hu. destruct (Hle u Hu) as (u' & Hu' & Huu). exists u'. split; [exact Hu'|lia].
    + intros v' st' Hcached. cbn in Hcached. rewrite Hca in Hcached.
      destruct (Hco _ _ Hcached) as [Hsane Hold]. split; [done|]. intros v'' s'' [= <- <-].
      destruct (Hold _ _ Hst) as [Hle' _]. split; [lia|]. intros ->. lia.
  - exact Hf.
  - eexists. split; [reflexivity|done].
  - intros c' (_ & _ & Hv'). destruct (Hv' _ _ Hst) as [_ Hcur']. rewrite <-(Hcur' eq_refl). exact Hb.
Qed.

Lemma storeStatus_spec s :
  writable s →
  match storeStatus (ss_version s) (ss_sched s) s with
  | (inl _, s') => stored_cursor s' ∧ ss_sched s' = ss_sched s ∧
      fired (ss_world s') = fired (ss_world s) ∧ ∀ c, based c s → behind c (ss_world s)
  | (inr _, s') => inv_of s'
  end.
Proof.
  intros H. unfold storeStatus, sched_call, mbind, M_bind, rebase.
  set (w0 := set_sw_faults _ _). assert (aside (ss_world s) w0) as Hw by done.
  pose proof (update_status_spec s w0 Hw H) as Hu.
  assert (inv_of (set_ss_world w0 s)) as Hi.
  { destruct H as (c & (Hi & _) & _). by eapply sched_inv_aside. }
  destruct H as (c & (_ & Hcr & _) & Hera & _).
  destruct (head (sw_faults (ss_world s))) as [[| |]|]; try exact Hi;
    destruct (update_status _ _ w0) as [[v|e] w']; try exact Hu; try exact (proj1 Hu).
  all: destruct Hu as (H1 & H2 & (st & H3 & H4) & H5).
  all: split_and!; [split_and!; [exact H1|exact Hcr|exact Hera|]|done|exact H2|exact H5].
  all: cbn; intros v' st' Hs; rewrite H3 in Hs; by injection Hs as <- <-.
Qed.

Lemma stored_writable s : stored_cursor s → writable s.
Proof.
  intros (H1 & H2 & H3 & H4). exists (cursor (ss_sched s)). split_and!; [|done|eauto using Z.le_refl].
  split_and!; [done|done|]. intros v st Hs. destruct (H4 v st Hs) as [<- H]. split; [done|intros _; exact H].
Qed.

Lemma writeStatus_inv : triple writable writeStatus (λ _, inv_of) (λ _, inv_of).
Proof.
  intros s H. unfold writeStatus. case_bool_decide; [destruct H as (c & (Hi & _) & _); exact Hi|].
  pose proof (storeStatus_spec s H) as Hs. destruct (storeStatus _ _ s) as [[[]|e] s']; [|exact Hs].
  destruct Hs as ((Hi & _) & _). exact Hi.
Qed.

(** ** Firing *)
Definition ready (t : Z) (s : sst) : Prop :=
  stored_cursor s ∧ cursor (ss_sched s) = Some t ∧ ∀ u, u ∈ fired (ss_world s) → (u < t)%Z.

Lemma create_world t w sched :
  in_era t → (t mod second = 0)%Z → (∀ u, u ∈ fired w → (u < t)%Z) →
  (∀ v st, sw_sched w = Some (v, st) → cursor st = Some t) → sched_inv w →
  let r := admitted_run w (runForTick sched t) in
  sched_inv (sched_emit (EvRunCreated r) (set_sw_serial (S (sw_serial w)) (set_sw_runs (sw_runs w ++ [r]) w))).
Proof.
  intros He Hsec Hlt Hcur [(H1 & H2 & H3) H4]. cbv zeta. set (r := admitted_run _ _). set (w' := sched_emit _ _).
  assert (fired w' = t :: fired w) as Hf.
  { unfold fired, w'. cbn. unfold r. by rewrite tick_of_run. }
  split; [split_and!|exact H4].
  - rewrite Hf. constructor; [exact H1|]. by apply Forall_forall.
  - exact H2.
  - intros v st Hs. destruct (H3 v st Hs) as [Hsane Hb]. split; [done|]. intros u. rewrite Hf.
    intros Hu. exists t. split; [by eapply Hcur|]. apply elem_of_cons in Hu as [->|Hu]; [lia|].
    specialize (Hlt u Hu). lia.
Qed.

Lemma createRun_ready t :
  in_era t → (t mod second = 0)%Z →
  triple (ready t) (sched ← getSched; createRun (runForTick sched t)) (λ _, stored_cursor) (λ _, inv_of).
Proof.
  intros He Hsec s (Hst & Hcur & Hlt). unfold getSched, createRun, sched_call, mbind, M_bind.
  set (w0 := set_sw_faults _ _). pose proof Hst as (Hi & Hcr & Hera & Hv).
  assert (sched_inv w0) as Hi0 by by eapply sched_inv_aside.
  assert (∀ v st, sw_sched w0 = Some (v, st) → cursor st = Some t) as Hv0.
  { intros v st Hs. rewrite <-Hcur. by eapply Hv. }
  pose proof (create_world t w0 (ss_sched s) He Hsec Hlt Hv0 Hi0) as Hc.
  destruct (head (sw_faults (ss_world s))) as [[| |]|]; cbn; [|exact Hi0|exact Hc|].
  all: split_and!; [exact Hc|exact Hcr|exact Hera|exact Hv].
Qed.

(** A tick later than everything read, from which the cursor may move. *)
Definition due_after (c : option Z) (t : Z) : Prop :=
  in_era t ∧ (t mod second = 0)%Z ∧ ∀ u, c = Some u → (u < t)%Z.

Lemma stored_status f :
  (∀ st, lt_LastScheduleTime (f st) = lt_LastScheduleTime st) → keeps stored_cursor (modifyStatus f).
Proof.
  intros Hf s (H1 & H2 & H3 & H4). unfold modifyStatus. split_and!; [exact H1|exact H2| |].
  - intros u. unfold cursor. cbn. rewrite Hf. apply H3.
  - intros v st Hs. destruct (H4 v st Hs) as [Hv Hc]. split; [exact Hv|]. unfold cursor. cbn. by rewrite Hf.
Qed.

(** Moving the cursor in hand to such a tick. *)
Lemma moved_writable c t s f :
  in_era t → (∀ u, c = Some u → (u < t)%Z) → undecided c s → lt_LastScheduleTime (f (sc_Status (ss_sched s))) = Some t →
  writable (MkSst (ss_version s) (set_sc_Status (f (sc_Status (ss_sched s))) (ss_sched s))
              (ss_before s) (ss_world s)).
Proof.
  intros He Hlt (Hb & _) Hf. exists c. split_and!; [exact Hb| |].
  - intros u. unfold cursor. cbn. rewrite Hf. by intros [= <-].
  - intros u Hu. exists t. split; [exact Hf|]. specialize (Hlt u Hu). lia.
Qed.

Lemma fire_stores c t :
  due_after c t →
  triple (undecided c) (modifyStatus (set_lt_LastScheduleTime (Some t)) ;; writeStatus)
    (λ _, ready t) (λ _, inv_of).
Proof.
  intros Hdue s H. unfold modifyStatus, mbind, M_bind.
  pose proof (moved_writable c t s (set_lt_LastScheduleTime (Some t)) (proj1 Hdue) (proj2 (proj2 Hdue)) H eq_refl) as Hw. set (s1 := MkSst _ _ _ _) in *.
  destruct Hdue as (He & Hsec & Hlt). destruct H as (Hb & Hs & Hc & Hbe). unfold writeStatus.
  case_bool_decide as Heq.
  { apply (f_equal lt_LastScheduleTime) in Heq. cbn in Heq. rewrite Hbe in Heq.
    specialize (Hlt t Heq). lia. }
  pose proof (storeStatus_spec s1 Hw) as Hst. destruct (storeStatus _ _ s1) as [[[]|e] s']; [|exact Hst].
  destruct Hst as (H1 & H2 & H3 & H4). split_and!; [exact H1|by rewrite H2|].
  intros u. rewrite H3. intros Hu. destruct (H4 c Hb u Hu) as (u' & Hu' & Hle).
  specialize (Hlt u' Hu'). lia.
Qed.

Lemma fire_spec c t : due_after c t → triple (undecided c) (fire t) (λ _, writable) (λ _, inv_of).
Proof.
  intros Hdue. pose proof (fire_stores c t Hdue) as Hf. destruct Hdue as (He & Hsec & _).
  intros s H. specialize (Hf s H). unfold fire, mbind, M_bind in *.
  destruct (modifyStatus _ s) as [[[]|e] s1]; [|exact Hf].
  destruct (writeStatus s1) as [[[]|e] s2]; [|exact Hf].
  pose proof (createRun_ready t He Hsec s2 Hf) as Hc. unfold mbind, M_bind in Hc.
  destruct (getSched s2) as [[sched|e] s3]; [|exact Hc].
  destruct (createRun _ s3) as [[r|e] s4]; [|exact Hc].
  apply stored_writable. by apply (stored_status (λ s, MkScheduleStatus _ _ _ _ _ _ _ _) (λ _, eq_refl) s4).
Qed.

(** ** The whole pass *)
Lemma window_start sched now :
  sane sched → in_era now →
  in_era (scheduleWindowStart sched now) ∧
  ∀ u, cursor sched = Some u → scheduleWindowStart sched now = u.
Proof.
  intros [H1 H2] Hn. unfold scheduleWindowStart, cursor in *.
  destruct (lt_LastScheduleTime _) as [u|]; [split; [by apply H2|by intros ? [= <-]]|].
  destruct (negb _); split; done.
Qed.

Lemma due_of_window c cr sched now t :
  sane sched → cursor sched = c → in_era now →
  tick_after cr (scheduleWindowStart sched now) t → (t <= now)%Z → due_after c t.
Proof.
  intros Hs <- Hn Ht Hle. destruct (window_start sched now Hs Hn) as [[Hw _] Hc].
  pose proof (tick_after_later _ _ _ Ht). destruct Hn as [_ Hn]. split_and!; [split; lia| |].
  - by eapply tick_after_second.
  - intros u Hu. specialize (Hc u Hu). lia.
Qed.

Lemma dueTick_within cr from now d tick missed resync :
  dueTick cr from now d = (tick, missed, resync) →
  if resync : bool then ∃ t, tick_after cr from t ∧ (t <= now)%Z
  else ∀ t, tick = Some t → tick_after cr from t ∧ (t <= now)%Z.
Proof.
  unfold dueTick. rewrite scan_ticks_spec. cbv zeta. set (due := elapsed _ _ _ _).
  destruct (Nat.leb_spec (length due) scheduleMaxTickScan) as [Hl|Hl]; intros [= <- _ <-].
  - intros t Ht. apply (elapsed_sound _ _ (S scheduleMaxTickScan)). fold due.
    pose proof (latest_of_spec ((λ d, now - d * second)%Z <$> d) due (elapsed_sorted _ _ _ _)) as Hs.
    rewrite Ht in Hs. apply Hs.
  - destruct due as [|t l] eqn:Hd; [cbn in Hl; lia|]. exists t.
    apply (elapsed_sound _ _ (S scheduleMaxTickScan)). fold due. rewrite Hd. left.
Qed.

Lemma writable_status f :
  (∀ st, lt_LastScheduleTime (f st) = lt_LastScheduleTime st) → keeps writable (modifyStatus f).
Proof.
  intros Hf s (c & Hb & H1 & H2). exists c. unfold cursor. cbn. rewrite Hf. by split_and!.
Qed.

Lemma move_cursor c t :
  in_era t → (∀ u, c = Some u → (u < t)%Z) →
  triple (undecided c) (modifyStatus (set_lt_LastScheduleTime (Some t))) (λ _, writable) (λ _, inv_of).
Proof.
  intros He Hlt s H. exact (moved_writable c t s (set_lt_LastScheduleTime (Some t)) He Hlt H eq_refl).
Qed.

Lemma triple_inv {A} (P : sst → Prop) (m : SM A) Q :
  keeps P m → (∀ s, P s → Q s) → (∀ s, P s → inv_of s) → triple P m (λ _, Q) (λ _, inv_of).
Proof. intros H HQ Hi. eapply triple_conseq; [exact H|done|intros a s Hs; exact (HQ s Hs)|intros e s Hs; exact (Hi s Hs)]. Qed.

Lemma undecided_inv c s : undecided c s → inv_of s.
Proof. intros ((Hi & _) & _). exact Hi. Qed.
Lemma writable_inv s : writable s → inv_of s.
Proof. intros (c & (Hi & _) & _). exact Hi. Qed.

Lemma decide_spec c cr sched n tick missed resync (active : list OwnedRun) :
  sane sched → cursor sched = c → in_era n →
  dueTick cr (scheduleWindowStart sched n) n (ls_StartingDeadlineSeconds (sc_Spec sched)) =
    (tick, missed, resync) →
  triple (undecided c)
    (if resync : bool then modifyStatus (set_lt_LastScheduleTime (Some n))
     else match tick with
          | None => mret tt
          | Some t =>
              if String.eqb (concurrencyPolicy sched) ConcurrencyForbid && negb (is_nil active) then
                modifyStatus (set_lt_LastScheduleTime (Some t)) ;;
                modifyStatus (λ s, set_lt_MissedSchedules (addMissed (lt_MissedSchedules s) 1) s)
              else fire t
          end)
    (λ _, writable) (λ _, inv_of).
Proof.
  intros Hs Hc Hn Hdue%dueTick_within. destruct resync.
  - destruct Hdue as (t & Ht & Hle). destruct (due_of_window c cr sched n t Hs Hc Hn Ht Hle) as (_ & _ & Hlt).
    apply move_cursor; [done|]. intros u Hu. specialize (Hlt u Hu). lia.
  - destruct tick as [t|]; [|intros s H; by eapply undecided_writable].
    destruct (Hdue t eq_refl) as [Ht Hle]. pose proof (due_of_window c cr sched n t Hs Hc Hn Ht Hle) as Hd.
    destruct (_ && _); [|by apply fire_spec]. destruct Hd as (He & _ & Hlt).
    apply (triple_bind _ _ _ (λ _, writable)); [by apply move_cursor|]. intros _.
    apply triple_inv; [by apply writable_status|done|apply writable_inv].
Qed.

Lemma act_spec c cr active : triple (undecided c) (act cr active) (λ _, inv_of) (λ _, inv_of).
Proof.
  unfold act. apply (triple_bind _ _ _ (λ sched s, undecided c s ∧ sane sched ∧ cursor sched = c)).
  { intros s H. split; [exact H|]. destruct H as (_ & Hs & Hc & _). by split. }
  intros sched. apply (triple_fact _ (sane sched ∧ cursor sched = c)); [by intros s (_ & H)|].
  intros [Hs Hc]. apply (triple_bind _ _ _ (λ n s, undecided c s ∧ in_era n)).
  { intros s [H _]. split; [exact H|]. apply (undecided_inv _ _ H). }
  intros n. apply (triple_fact _ (in_era n)); [by intros s (_ & H)|]. intros Hn.
  destruct (dueTick _ _ _ _) as [[tick missed] resync] eqn:Hdue.
  apply (triple_bind _ _ _ (λ _, undecided c)).
  { intros s [H _]. exact (undecided_status c
      (λ st, set_lt_MissedSchedules (addMissed (lt_MissedSchedules st) missed) st) (λ _, eq_refl) s H). }
  intros _. apply (triple_bind _ _ _ (λ _, writable)); [by eapply decide_spec|]. intros _.
  apply (triple_bind _ _ _ (λ _, inv_of)); [exact writeStatus_inv|]. intros _ s H. exact H.
Qed.

Lemma reconcile_spec c : triple (undecided c) reconcileSchedule (λ _, inv_of) (λ _, inv_of).
Proof.
  assert (∀ A (m : SM A), keeps (undecided c) m → triple (undecided c) m (λ _, undecided c) (λ _, inv_of)) as Hk.
  { intros A m H. apply triple_inv; [exact H|done|apply undecided_inv]. }
  assert (triple (undecided c) (writeStatus ;; mret Stop) (λ _, inv_of) (λ _, inv_of)) as Hw.
  { apply (triple_bind _ _ _ (λ _, inv_of)); [|by intros _ s H].
    intros s H. apply (writeStatus_inv s). by eapply undecided_writable. }
  unfold reconcileSchedule. apply (triple_bind _ _ _ (λ _, undecided c)); [apply Hk, undecided_owned|].
  intros [active finished]. apply (triple_bind _ _ _ (λ sched s, undecided c s ∧ cursor sched = c)).
  { intros s H. split; [exact H|apply H]. }
  intros sched. apply (triple_fact _ (cursor sched = c)); [by intros s []|]. intros Hc.
  apply (triple_bind _ _ _ (λ _, undecided c)).
  { intros s [(H1 & [H2 H2'] & H3 & H4) _]. split_and!; [exact H1| |exact Hc|exact H4].
    split; [exact H2|]. intros u. unfold cursor. cbn. fold (cursor sched). rewrite Hc, <-H3. apply H2'. }
  intros _. apply (triple_bind _ _ _ (λ _, undecided c)); [apply Hk, undecided_collect|]. intros _.
  destruct (parseSchedule sched) as [cr|e].
  - apply (triple_bind _ _ _ (λ _, undecided c)); [by apply Hk, undecided_status|]. intros _.
    destruct (default _ _); [exact Hw|apply act_spec].
  - apply (triple_bind _ _ _ (λ _, undecided c)); [by apply Hk, undecided_status|]. intros _. exact Hw.
Qed.

Lemma schedulePass_inv w : sched_inv w → sched_inv (schedulePass w).2.
Proof.
  intros H. unfold schedulePass. set (w0 := set_sw_faults _ _).
  assert (sched_inv w0) as H0 by by eapply sched_inv_aside.
  assert (∀ v sched, sw_cached w = Some (v, sched) →
    sched_inv (let '(r, s') := reconcileSchedule (MkSst v sched (sc_Status sched) w0) in (r, ss_world s')).2) as Hgo.
  { intros v sched Hc. destruct (proj2 H _ _ Hc) as [Hs Hv].
    assert (undecided (cursor sched) (MkSst v sched (sc_Status sched) w0)) as Hu.
    { split; [|by split_and!]. split; [exact H0|]. split; [exact (proj1 Hs)|].
      intros v' st Hst. destruct (Hv v' st Hst) as [Hle Heq]. split; [exact Hle|].
      intros He. cbn in He. by rewrite (Heq He). }
    pose proof (reconcile_spec _ _ Hu) as Hr. by destruct (reconcileSchedule _) as [[r|e] s']. }
  destruct (head (sw_faults w)) as [[| |]|]; try exact H0;
    (destruct (sw_cached w) as [[v sched]|] eqn:Hc; [by apply Hgo|exact H0]).
Qed.
End pass.

(** ** The life of a schedule *)

(** What may happen between two passes: the clock moves on, the schedule is edited or goes
    away, the runs and their cached list change at will, and the cached schedule becomes the
    stored one or any older one. *)
Record environment (w w' : sworld) : Prop := MkEnvironment {
  env_clock : (sw_now w <= sw_now w')%Z ∧ in_era (sw_now w');
  env_trace : sw_trace w' = sw_trace w;
  env_edit : ∀ v' s', sw_sched w' = Some (v', s') → ∃ v s, sw_sched w = Some (v, s) ∧
    (v <= v')%nat ∧ (v = v' → s = s') ∧ sc_Status s' = sc_Status s ∧ sc_CreatedAt s' = sc_CreatedAt s;
  env_cache : ∀ v s, sw_cached w' = Some (v, s) → sane s ∧
    ∀ v' s', sw_sched w' = Some (v', s') → (v <= v')%nat ∧ (v = v' → s = s');
}.

(** A schedule nobody has acted on yet. *)
Definition fresh (w : sworld) : Prop :=
  sw_trace w = [] ∧ in_era (sw_now w) ∧ sw_cached w = None ∧
  ∀ v s, sw_sched w = Some (v, s) → in_era (sc_CreatedAt s) ∧ cursor s = None.

Inductive sched_reachable `{cron : CronLib} : sworld → Prop :=
  | sched_start w : fresh w → sched_reachable w
  | sched_pass w : sched_reachable w → sched_reachable (schedulePass w).2
  | sched_env w w' : sched_reachable w → environment w w' → sched_reachable w'.

Lemma reachable_inv `{laws : CronLaws} w : sched_reachable w → sched_inv w.
Proof.
  induction 1 as [w (Ht & Hn & Hc & Hs)|w _ IH|w w' _ [(H1 & H2 & H3) _] [He1 He2 He3 He4]].
  - assert (fired w = []) as Hf by (unfold fired; by rewrite Ht).
    split; [split_and!|].
    + rewrite Hf. constructor.
    + done.
    + intros v s Hsc. destruct (Hs v s Hsc) as [Hcr Hcur]. split; [split; [done|by rewrite Hcur]|].
      intros t. by rewrite Hf, elem_of_nil.
    + intros v s. by rewrite Hc.
  - by apply schedulePass_inv.
  - assert (fired w' = fired w) as Hf by (unfold fired; by rewrite He2).
    split; [split_and!|exact He4].
    + by rewrite Hf.
    + apply He1.
    + intros v' s' Hsc. destruct (He3 v' s' Hsc) as (v & s & Hold & _ & _ & Hst & Hcr).
      destruct (H3 v s Hold) as [[Hs1 Hs2] Hb]. unfold sane, behind, cursor in *.
      rewrite Hst, Hcr, Hf. by split.
Qed.

(** C9: No tick of a schedule is ever fired twice, and they are fired in order: whatever
    calls fail or take effect without an answer, however old the cached schedule a pass works
    from, and whatever happens between passes, the ticks the created runs were made for are
    strictly increasing and the stored cursor is at or past every one of them. *)
Theorem ticks_fire_once `{laws : CronLaws} w :
  sched_reachable w →
  StronglySorted (λ later earlier, (earlier < later)%Z) (fired w) ∧
  ∀ v s t, sw_sched w = Some (v, s) → t ∈ fired w →
    ∃ c, lt_LastScheduleTime (sc_Status s) = Some c ∧ (t <= c)%Z.
Proof.
  intros [(H1 & _ & H3) _]%reachable_inv. split; [exact H1|].
  intros v s t Hs Ht. destruct (H3 v s Hs) as [_ Hb]. exact (Hb t Ht).
Qed.

Lemma later_environment w t runs :
  sched_inv w → (sw_now w <= t)%Z → in_era t → environment w (later t runs w).
Proof.
  intros [(_ & _ & H) _] Hle Ht. split; [done|done| |].
  - intros v s Hs. by exists v, s.
  - intros v s Hs. split; [apply (H v s Hs)|]. intros v' s' Hs'. cbn in Hs, Hs'.
    rewrite Hs in Hs'. by injection Hs' as <- <-.
Qed.

(** A schedule created at one o'clock; its cache is still empty, and the answer to the first
    creation will be lost. *)
Definition new_store : sworld :=
  MkSworld (2 * hour + 1800 * second) (Some (1, soak_schedule None None)) None [] [] 0
    [Land; Land; Land; Lost true] (λ _ _, "") [].

(** Two passes, an hour apart. *)
Definition first_pass : sworld := (@schedulePass hourly (later (sw_now new_store) [] new_store)).2.
Definition two_passes : sworld :=
  (@schedulePass hourly (later (3 * hour + 1800 * second) [] first_pass)).2.

Lemma two_passes_reachable : @sched_reachable hourly two_passes.
Proof.
  assert (@sched_reachable hourly new_store) as H0.
  { apply sched_start. split_and!; [done|by vm_compute|done|]. intros v s [= _ <-]. by vm_compute. }
  assert (∀ w t, @sched_reachable hourly w → (sw_now w <= t)%Z → in_era t →
    @sched_reachable hourly (later t [] w)) as Hl.
  { intros w t Hw Hle Ht. eapply sched_env; [exact Hw|].
    apply later_environment; [by apply (@reachable_inv hourly hourly_laws)|done|done]. }
  apply sched_pass, Hl; [apply sched_pass, Hl; [exact H0|done|by vm_compute]|by vm_compute..].
Qed.

Lemma ticks_fire_once_witness :
  fired two_passes = [3 * hour; 2 * hour]%Z ∧
  StronglySorted (λ later earlier, (earlier < later)%Z) (fired two_passes) ∧
  ∀ v s t, sw_sched two_passes = Some (v, s) → t ∈ fired two_passes →
    ∃ c, lt_LastScheduleTime (sc_Status s) = Some c ∧ (t <= c)%Z.
Proof.
  split; [vm_compute; reflexivity|].
  exact (@ticks_fire_once hourly hourly_laws two_passes two_passes_reachable).
Defined.
