(* ===== verification/SchedulePass.v ===== *)
(** * What one pass of a schedule does to its runs

    The order of a schedule's history is total, so retention collects a finished run only
    behind its limit of newer ones; and a pass creates one run at most, for the due tick of a
    schedule that is not suspended and, under Forbid, has no run under way. *)

From S2P Require Import Prelude GoStrings GoFloat GoTime Contract Registry Runner Verdict Group Api.
From S2P Require Import Plan Soak Pods RunPlan Attempt Effects Schedule Hourly Ticks Fired.
Open Scope stdpp_scope.

(** ** The order of the history *)
Lemma newer_irrefl a : newer a a = false.
Proof. unfold newer. by rewrite Z.eqb_refl, str_ltb_irrefl. Qed.

Lemma newer_trans a b c : newer a b = true → newer b c = true → newer a c = true.
Proof.
  unfold newer.
  destruct (Z.eqb_spec (runOrderKey (or_run a)) (runOrderKey (or_run b))),
    (Z.eqb_spec (runOrderKey (or_run b)) (runOrderKey (or_run c))),
    (Z.eqb_spec (runOrderKey (or_run a)) (runOrderKey (or_run c))); rewrite ?Z.ltb_lt; try lia.
  intros H1 H2. by apply (str_ltb_trans _ (or_Name b)).
Qed.

Lemma newer_total a b : or_Name a ≠ or_Name b → newer a b = true ∨ newer b a = true.
Proof.
  intros Hne. unfold newer. rewrite (Z.eqb_sym (runOrderKey (or_run b))).
  destruct (Z.eqb_spec (runOrderKey (or_run a)) (runOrderKey (or_run b))); rewrite ?Z.ltb_lt; [|lia].
  destruct (str_ltb_total (or_Name a) (or_Name b) Hne); [by right|by left].
Qed.

Lemma insert_run_perm r l : insert_run r l ≡ₚ r :: l.
Proof.
  induction l as [|q l IH]; [done|]. cbn. destruct (newer q r); [|done].
  rewrite IH. apply Permutation_swap.
Qed.

Lemma sortRuns_perm l : sortRunsNewestFirst l ≡ₚ l.
Proof. induction l as [|r l IH]; [done|]. cbn. by rewrite insert_run_perm, IH. Qed.

Definition newest_sorted (l : list OwnedRun) : Prop := StronglySorted (λ a b, newer a b = true) l.

Lemma insert_run_sorted r l :
  newest_sorted l → (∀ q, q ∈ l → or_Name q ≠ or_Name r) → newest_sorted (insert_run r l).
Proof.
  induction 1 as [|q l Hl IH Hq]; intros Hne; cbn; [by repeat constructor|].
  destruct (newer q r) eqn:Hqr.
  - constructor; [apply IH; intros; apply Hne; by right|]. apply Forall_forall. intros x.
    rewrite insert_run_perm. intros [->|Hx]%elem_of_cons; [done|]. by apply (proj1 (Forall_forall _ _) Hq).
  - assert (newer r q = true) as Hrq.
    { destruct (newer_total r q) as [H|H]; [|done|congruence]. intros Heq. by apply (Hne q); [left|]. }
    constructor; [by constructor|]. constructor; [done|]. apply Forall_forall. intros x Hx.
    eapply newer_trans; [exact Hrq|]. by apply (proj1 (Forall_forall _ _) Hq).
Qed.

Lemma sortRuns_sorted l : NoDup (or_Name <$> l) → newest_sorted (sortRunsNewestFirst l).
Proof.
  induction l as [|r l IH]; cbn; [constructor|]. intros [Hr Hl]%NoDup_cons.
  apply insert_run_sorted; [by apply IH|]. intros q Hq. rewrite sortRuns_perm in Hq.
  intros Heq. apply Hr. rewrite <-Heq. by apply list_elem_of_fmap_2.
Qed.

(** A run past the first [k] of the history has [k] newer ones. *)
Definition newer_than (r : OwnedRun) (l : list OwnedRun) : list OwnedRun :=
  List.filter (λ q, newer q r) l.

Lemma dropped_behind k l r :
  newest_sorted l → r ∈ list.drop k l → (k <= length (newer_than r l))%nat.
Proof.
  intros Hs Hr. rewrite <-(firstn_skipn k l) in Hs.
  apply StronglySorted_app in Hs as (Hlt & _ & _).
  assert (k <= length l)%nat as Hk.
  { destruct (Nat.le_gt_cases k (length l)) as [|Hgt]; [done|]. rewrite skipn_all2 in Hr by lia.
    by apply elem_of_nil in Hr. }
  unfold newer_than. rewrite <-(firstn_skipn k l) at 1. rewrite List.filter_app, length_app.
  assert (List.filter (λ q, newer q r) (list.take k l) = list.take k l) as ->.
  { apply filter_all. intros q Hq. by apply Hlt. }
  rewrite firstn_length. lia.
Qed.

(** ** The pass *)
Definition has_passed (r : OwnedRun) : bool := bool_decide (or_Phase r = RunPassed).

(** The schedule's runs in a listing. *)
Definition finished_of (sched : BurnInSchedule) (listed : list OwnedRun) : list OwnedRun :=
  List.filter (λ r, IsTerminal (or_Phase r)) (List.filter (controlledBy sched) listed).
Definition active_of (sched : BurnInSchedule) (listed : list OwnedRun) : list OwnedRun :=
  List.filter (λ r, negb (IsTerminal (or_Phase r))) (List.filter (controlledBy sched) listed).

(** How many runs of an outcome are kept. *)
Definition retained (sched : BurnInSchedule) (passed : bool) : Z :=
  if passed then default defaultSuccessfulRunsHistoryLimit (ls_SuccessfulRunsHistoryLimit (sc_Spec sched))
  else default defaultFailedRunsHistoryLimit (ls_FailedRunsHistoryLimit (sc_Spec sched)).

(** A finished run of the schedule that has its limit of newer ones of its outcome. *)
Definition collectable (sched : BurnInSchedule) (listed : list OwnedRun) (name : str) : Prop :=
  ∃ r, r ∈ finished_of sched listed ∧ or_Name r = name ∧
    (retained sched (has_passed r) <=
       count_of (newer_than r (List.filter (λ q, Bool.eqb (has_passed q) (has_passed r))
                                 (finished_of sched listed))))%Z.

(** A tick a pass over [listed] at [now] may create a run for. *)
Definition startable `{cron : CronLib} (sched : BurnInSchedule) (listed : list OwnedRun) (now t : Z) : Prop :=
  default false (ls_Suspend (sc_Spec sched)) = false ∧
  (concurrencyPolicy sched = ConcurrencyForbid → active_of sched listed = []) ∧
  ∃ c missed, parseSchedule sched = inl c ∧
    dueTick c (scheduleWindowStart sched now) now (ls_StartingDeadlineSeconds (sc_Spec sched)) =
      (Some t, missed, false).

Definition created_runs (ev : list sched_event) : list OwnedRun :=
  omap (λ e, match e with EvRunCreated r => Some r | _ => None end) ev.

Section pass.
Context `{cron : CronLib} (sched0 : BurnInSchedule) (w0 : sworld).

(** So far the pass has created [l] and collected only what it may. *)
Definition logged (l : list OwnedRun) (s : sst) : Prop :=
  sw_now (ss_world s) = sw_now w0 ∧ sw_listed (ss_world s) = sw_listed w0 ∧
  (∃ st, ss_sched s = set_sc_Status st sched0) ∧
  ∃ ev, sw_trace (ss_world s) = ev ++ sw_trace w0 ∧
    (∀ n, EvRunCollected n ∈ ev → collectable sched0 (sw_listed w0) n) ∧ created_runs ev = l.

(** What a call other than a creation may do. *)
Definition quiet (w w' : sworld) : Prop :=
  sw_now w' = sw_now w ∧ sw_listed w' = sw_listed w ∧
  (sw_trace w' = sw_trace w ∨ (∃ st, sw_trace w' = EvSchedStatus st :: sw_trace w) ∨
   ∃ n, collectable sched0 (sw_listed w0) n ∧ sw_trace w' = EvRunCollected n :: sw_trace w).

Lemma quiet_spent w fs : quiet w (set_sw_faults fs w).
Proof. split_and!; [done|done|by left]. Qed.

Lemma logged_quiet l s w : quiet (ss_world s) w → logged l s → logged l (set_ss_world w s).
Proof.
  intros (Hn & Hl & Ht) (H1 & H2 & H3 & ev & H4 & H5 & H6).
  unfold logged. cbn. split_and!; [by rewrite Hn|by rewrite Hl|exact H3|].
  destruct Ht as [Ht|[[st Ht]|(n & Hc & Ht)]]; rewrite Ht, H4.
  - by exists ev.
  - exists (EvSchedStatus st :: ev). split_and!; [done| |done].
    intros n [Heq|Hn']%elem_of_cons; [done|by apply H5].
  - exists (EvRunCollected n :: ev). split_and!; [done| |done].
    intros m [[= ->]|Hm]%elem_of_cons; [done|by apply H5].
Qed.

Lemma keeps_log_status l f : keeps (logged l) (modifyStatus f).
Proof.
  intros s (H1 & H2 & [st H3] & H4). split_and!; [exact H1|exact H2| |exact H4].
  cbn. rewrite H3. by eexists.
Qed.

Lemma keeps_writeStatus l : keeps (logged l) writeStatus.
Proof.
  assert (∀ v sched, keeps (logged l) (storeStatus v sched)) as Hs.
  { intros v sched. apply keeps_bind; [|by intros a s H].
    apply (keeps_sched_call quiet); [apply quiet_spent|apply logged_quiet|]. intros w.
    unfold update_status.
    destruct (sw_sched w) as [[v' st]|]; [destruct (v' =? v)%nat|]; split_and!; try done; [|by left..].
    right. left. by eexists. }
  intros s H. unfold writeStatus. case_bool_decide; [exact H|by apply Hs].
Qed.

(** *** Collection, for whatever survives quiet calls *)
Section collection.
Context (P : sst → Prop) (HP : ∀ s w, quiet (ss_world s) w → P s → P (set_ss_world w s)).

Lemma keeps_collect_one r : collectable sched0 (sw_listed w0) (or_Name r) → keeps P (collect_one r).
Proof.
  intros Hc. apply keeps_bind; [|intros [?|e]; [apply keeps_ret|];
    destruct (IsNotFound e); [apply keeps_ret|apply keeps_throw]].
  apply keeps_try, (keeps_sched_call quiet); [apply quiet_spent|exact HP|]. intros w.
  destruct (existsb _ _); split_and!; try done; [|by left].
  right. right. by exists (or_Name r).
Qed.

(** One class of the finished runs is trimmed to its limit. *)
Lemma keeps_deleteBeyond passed runs :
  runs ≡ₚ List.filter (λ q, Bool.eqb (has_passed q) passed) (finished_of sched0 (sw_listed w0)) →
  NoDup (or_Name <$> runs) → keeps P (deleteBeyond runs (retained sched0 passed)).
Proof.
  intros Hp Hnd. unfold deleteBeyond. destruct (Z.ltb_spec (retained sched0 passed) 0); [apply keeps_throw|].
  apply triple_iter. intros r Hr. apply keeps_collect_one.
  pose proof (dropped_behind _ _ _ (sortRuns_sorted _ Hnd) Hr) as Hlen.
  assert (r ∈ runs) as Hin.
  { rewrite <-sortRuns_perm. rewrite <-(firstn_skipn (Z.to_nat (retained sched0 passed))). set_solver. }
  rewrite Hp in Hin. apply list_elem_of_In, filter_In in Hin as [Hin Hpass%eqb_prop].
  exists r. split_and!; [by apply list_elem_of_In|done|]. rewrite Hpass.
  unfold newer_than in *. rewrite (filter_perm_length _ _ _ (sortRuns_perm runs)) in Hlen.
  rewrite (filter_perm_length _ _ _ Hp) in Hlen. unfold count_of. lia.
Qed.

Lemma keeps_collectHistory finished :
  (∀ s, P s → ∃ st, ss_sched s = set_sc_Status st sched0) →
  finished ≡ₚ finished_of sched0 (sw_listed w0) → NoDup (or_Name <$> sw_listed w0) →
  keeps P (collectHistory finished).
Proof.
  intros Hs Hf Hnd.
  assert (∀ f : OwnedRun → bool, NoDup (or_Name <$> List.filter f finished)) as Hnd'.
  { intros f. rewrite (filter_perm f _ _ Hf). unfold finished_of.
    eapply sublist_NoDup; [exact Hnd|]. apply fmap_sublist.
    etrans; [apply list_filter_sublist|]. etrans; apply list_filter_sublist. }
  apply (triple_bind _ _ _ (λ sched s, P s ∧ ∃ st, sched = set_sc_Status st sched0)).
  { intros s H. split; [exact H|]. by apply Hs. }
  intros sched. apply (triple_fact _ (∃ st, sched = set_sc_Status st sched0)); [by intros s []|].
  intros [st ->]. eapply (triple_conseq P); [|by intros s []|intros a s H; exact H|intros e s H; exact H].
  apply keeps_bind; [apply (keeps_deleteBeyond true)|intros _; apply (keeps_deleteBeyond false)].
  - rewrite (filter_perm _ _ _ Hf). erewrite List.filter_ext; [done|]. intros q.
    unfold has_passed. by case_bool_decide.
  - apply Hnd'.
  - rewrite (filter_perm _ _ _ Hf). erewrite List.filter_ext; [done|]. intros q.
    unfold has_passed. by case_bool_decide.
  - apply Hnd'.
Qed.
End collection.

(** The pass has created nothing, or the run of a tick that could be started. *)
Definition outcome (s : sst) : Prop :=
  ∃ l, logged l s ∧ (l = [] ∨ ∃ t w, l = [admitted_run w (runForTick sched0 t)] ∧
    startable sched0 (sw_listed w0) (sw_now w0) t).

Lemma keeps_outcome {A} (m : SM A) : (∀ l, keeps (logged l) m) → keeps outcome m.
Proof.
  intros Hm s (l & Hl & Ho). specialize (Hm l s Hl). destruct (m s) as [[a|e] s']; by exists l.
Qed.

(** The cursor in hand is still the one that was read. *)
Definition early (s : sst) : Prop := logged [] s ∧ cursor (ss_sched s) = cursor sched0.

Lemma early_outcome s : early s → outcome s.
Proof. intros [H _]. exists []. by split; [|left]. Qed.

Lemma early_quiet s w : quiet (ss_world s) w → early s → early (set_ss_world w s).
Proof. intros Hw [Hl Hc]. split; [by apply logged_quiet|exact Hc]. Qed.

Lemma early_status f :
  (∀ st, lt_LastScheduleTime (f st) = lt_LastScheduleTime st) → keeps early (modifyStatus f).
Proof.
  intros Hf s [Hl Hc]. split; [by apply (keeps_log_status [] f s)|].
  unfold cursor in *. cbn. by rewrite Hf.
Qed.

Lemma early_sched s : early s → ∃ st, ss_sched s = set_sc_Status st sched0.
Proof. intros [(_ & _ & H & _) _]. exact H. Qed.

Lemma outcome_status f : keeps outcome (modifyStatus f).
Proof. apply keeps_outcome. intros l. apply keeps_log_status. Qed.

Lemma outcome_write : keeps outcome writeStatus.
Proof. apply keeps_outcome, keeps_writeStatus. Qed.

(** *** Creation *)
Lemma create_outcome t :
  startable sched0 (sw_listed w0) (sw_now w0) t →
  triple (logged []) (createRun (runForTick sched0 t)) (λ _, outcome) (λ _, outcome).
Proof.
  intros Hst s H. unfold createRun, sched_call. set (w1 := set_sw_faults _ _).
  assert (logged [] (set_ss_world w1 s)) as H1 by (apply logged_quiet; [apply quiet_spent|done]).
  set (r := admitted_run w1 (runForTick sched0 t)).
  set (w2 := sched_emit (EvRunCreated r) (set_sw_serial (S (sw_serial w1)) (set_sw_runs (sw_runs w1 ++ [r]) w1))).
  assert (outcome (set_ss_world w2 s)) as H2.
  { exists [r]. split; [|right; by exists t, w1]. destruct H1 as (Hn & Hl & Hs & ev & He & Hc & Hr).
    split_and!; [exact Hn|exact Hl|exact Hs|]. exists (EvRunCreated r :: ev).
    split_and!; [cbn in *; by rewrite He| |].
    2: { unfold created_runs in *. cbn. by rewrite Hr. }
    intros n [Heq|Hn']%elem_of_cons; [done|by apply Hc]. }
  assert (outcome (set_ss_world w1 s)) as H3 by (exists []; by split; [|left]).
  destruct (head (sw_faults (ss_world s))) as [[| |]|]; done.
Qed.

Lemma fire_outcome t :
  startable sched0 (sw_listed w0) (sw_now w0) t → triple (logged []) (fire t) (λ _, outcome) (λ _, outcome).
Proof.
  intros Hst. assert (∀ A (m : SM A), keeps (logged []) m → triple (logged []) m (λ _, logged []) (λ _, outcome)) as Hk.
  { intros A m Hm s H. specialize (Hm s H). destruct (m s) as [[a|e] s']; [exact Hm|].
    exists []. by split; [|left]. }
  unfold fire. apply (triple_bind _ _ _ (λ _, logged [])); [apply Hk, keeps_log_status|]. intros _.
  apply (triple_bind _ _ _ (λ _, logged [])); [apply Hk, keeps_writeStatus|]. intros _.
  apply (triple_bind _ _ _ (λ sched s, logged [] s ∧ ∃ st, sched = set_sc_Status st sched0)).
  { intros s H. split; [exact H|apply H]. }
  intros sched. apply (triple_fact _ (∃ st, sched = set_sc_Status st sched0)); [by intros s []|].
  intros [st ->]. change (runForTick (set_sc_Status st sched0) t) with (runForTick sched0 t).
  apply (triple_bind _ _ _ (λ _, outcome)); [|intros r; apply outcome_status].
  intros s [H _]. by apply create_outcome.
Qed.

(** *** The whole pass *)
Lemma owned_spec :
  triple early ownedRuns
    (λ r s, early s ∧ r.1 ≡ₚ active_of sched0 (sw_listed w0) ∧ r.2 ≡ₚ finished_of sched0 (sw_listed w0))
    (λ _, early).
Proof.
  apply (triple_bind _ _ _ (λ sched s, early s ∧ ∃ st, sched = set_sc_Status st sched0)).
  { intros s H. split; [exact H|by apply early_sched]. }
  intros sched. apply (triple_fact _ (∃ st, sched = set_sc_Status st sched0)); [by intros s []|].
  intros [st ->]. apply (triple_bind _ _ _ (λ l s, early s ∧ l = sw_listed w0)).
  - intros s [H _]. unfold rethrow, try, sched_call, mbind, M_bind. set (w1 := set_sw_faults _ _).
    assert (early (set_ss_world w1 s)) as H1 by (apply early_quiet; [apply quiet_spent|done]).
    destruct (head (sw_faults (ss_world s))) as [[| |]|]; cbn; try exact H1; (split; [exact H1|]);
      apply H.
  - intros l s [H ->]. split; [exact H|]. cbn. by rewrite !sortRuns_perm.
Qed.

Lemma act_outcome c active :
  default false (ls_Suspend (sc_Spec sched0)) = false → parseSchedule sched0 = inl c →
  active ≡ₚ active_of sched0 (sw_listed w0) →
  triple early (act c active) (λ _, outcome) (λ _, outcome).
Proof.
  intros Hsus Hparse Hact. unfold act.
  apply (triple_bind _ _ _ (λ sched s, early s ∧ (∃ st, sched = set_sc_Status st sched0) ∧
    cursor sched = cursor sched0)).
  { intros s H. split; [exact H|]. split; [by apply early_sched|apply H]. }
  intros sched. apply (triple_fact _ ((∃ st, sched = set_sc_Status st sched0) ∧ cursor sched = cursor sched0));
    [by intros s []|]. intros [[st ->] Hcur].
  apply (triple_bind _ _ _ (λ n s, early s ∧ n = sw_now w0)).
  { intros s [H _]. split; [exact H|apply H]. }
  intros n. apply (triple_fact _ (n = sw_now w0)); [by intros s []|]. intros ->.
  assert (scheduleWindowStart (set_sc_Status st sched0) (sw_now w0) =
    scheduleWindowStart sched0 (sw_now w0)) as ->.
  { unfold scheduleWindowStart, cursor in *. by rewrite Hcur. }
  cbn [sc_Spec set_sc_Status]. destruct (dueTick _ _ _ _) as [[tick missed] resync] eqn:Hdue.
  apply (triple_bind _ _ _ (λ _, logged [])).
  { intros s [[H _] _]. by apply (keeps_log_status [] _ s). }
  intros _. apply (triple_bind _ _ _ (λ _, outcome)); [|intros _;
    apply keeps_bind; [exact outcome_write|intros _; apply keeps_ret]].
  assert (∀ s, logged [] s → outcome s) as Hq by (intros s H; exists []; by split; [|left]).
  destruct resync; [intros s H; by apply outcome_status, Hq|].
  destruct tick as [t|]; [|intros s H; by apply Hq].
  change (concurrencyPolicy (set_sc_Status st sched0)) with (concurrencyPolicy sched0).
  destruct (_ && _) eqn:Hforbid.
  - intros s H. apply (keeps_bind outcome); [apply outcome_status|intros _; apply outcome_status|by apply Hq].
  - apply fire_outcome. split_and!; [done| |by exists c, missed]. intros Hf.
    rewrite Hf in Hforbid. cbn in Hforbid. apply negb_false_iff in Hforbid.
    destruct active; [by apply Permutation_nil in Hact|done].
Qed.
End pass.

Lemma reconcile_outcome `{cron : CronLib} sched0 w0 :
  NoDup (or_Name <$> sw_listed w0) →
  triple (early sched0 w0) reconcileSchedule (λ _, outcome sched0 w0) (λ _, outcome sched0 w0).
Proof.
  intros Hnd. pose proof (early_outcome sched0 w0) as Heo.
  assert (∀ A (m : SM A), keeps (early sched0 w0) m →
    triple (early sched0 w0) m (λ _, early sched0 w0) (λ _, outcome sched0 w0)) as Hk.
  { intros A m Hm s H. specialize (Hm s H). destruct (m s) as [[a|e] s']; [exact Hm|by apply Heo]. }
  assert (triple (early sched0 w0) (writeStatus ;; mret Stop) (λ _, outcome sched0 w0)
    (λ _, outcome sched0 w0)) as Hw.
  { intros s H%Heo. apply (keeps_bind (outcome sched0 w0)); [apply outcome_write|intros; apply keeps_ret|exact H]. }
  unfold reconcileSchedule. apply (triple_bind _ _ _ (λ r s, early sched0 w0 s ∧
    r.1 ≡ₚ active_of sched0 (sw_listed w0) ∧ r.2 ≡ₚ finished_of sched0 (sw_listed w0))).
  { eapply triple_conseq; [apply owned_spec|done|intros r s H; exact H|intros e s H; by apply Heo]. }
  intros [active finished]. apply (triple_fact _ (active ≡ₚ active_of sched0 (sw_listed w0) ∧
    finished ≡ₚ finished_of sched0 (sw_listed w0))); [by intros s []|]. intros [Ha Hf].
  apply (triple_bind _ _ _ (λ sched s, early sched0 w0 s ∧ (∃ st, sched = set_sc_Status st sched0) ∧
    cursor sched = cursor sched0)).
  { intros s [H _]. split; [exact H|]. split; [by eapply early_sched|apply H]. }
  intros sched. apply (triple_fact _ ((∃ st, sched = set_sc_Status st sched0) ∧ cursor sched = cursor sched0));
    [by intros s []|]. intros [[st ->] Hcur].
  apply (triple_bind _ _ _ (λ _, early sched0 w0)).
  { intros s [[H Hc] _]. split; [|exact Hcur].
    exact (keeps_log_status sched0 w0 [] (λ _, observe (set_sc_Status st sched0) active finished) s H). }
  intros _. apply (triple_bind _ _ _ (λ _, early sched0 w0)).
  { apply Hk, (keeps_collectHistory sched0 w0); [apply early_quiet|apply early_sched|exact Hf|exact Hnd]. }
  intros _. change (parseSchedule (set_sc_Status st sched0)) with (parseSchedule sched0).
  destruct (parseSchedule sched0) as [c|e] eqn:Hp.
  - apply (triple_bind _ _ _ (λ _, early sched0 w0)); [by apply Hk, early_status|]. intros _.
    cbn [sc_Spec set_sc_Status]. destruct (default _ _) eqn:Hs; [exact Hw|by apply act_outcome].
  - apply (triple_bind _ _ _ (λ _, early sched0 w0)); [by apply Hk, early_status|]. intros _. exact Hw.
Qed.

(** One pass of a schedule creates one run at most, the run of the due tick exactly as the
    template describes it, and only of a schedule that parses, is not suspended and, under
    Forbid, has no unfinished run of its own in the list; and it collects only finished runs
    of its own that have at least the limit of newer ones with their outcome. *)
Theorem schedule_pass_effects `{cron : CronLib} w version sched :
  NoDup (or_Name <$> sw_listed w) →
  sw_cached w = Some (version, sched) →
  ∃ ev, sw_trace (schedulePass w).2 = ev ++ sw_trace w ∧
    (∀ n, EvRunCollected n ∈ ev → collectable sched (sw_listed w) n) ∧
    (created_runs ev = [] ∨
     ∃ t w', created_runs ev = [admitted_run w' (runForTick sched t)] ∧
       startable sched (sw_listed w) (sw_now w) t).
Proof.
  intros Hnd Hc. unfold schedulePass. rewrite Hc. set (w1 := set_sw_faults _ _).
  assert (early sched w (MkSst version sched (sc_Status sched) w1)) as He.
  { split; [|done]. split_and!; [done|done|exists (sc_Status sched); by destruct sched|].
    exists []. split_and!; [done|by intros n ?%elem_of_nil|done]. }
  pose proof (reconcile_outcome sched w Hnd _ He) as Hr.
  assert (∃ ev, sw_trace w1 = ev ++ sw_trace w ∧
    (∀ n, EvRunCollected n ∈ ev → collectable sched (sw_listed w) n) ∧
    (created_runs ev = [] ∨ ∃ t w', created_runs ev = [admitted_run w' (runForTick sched t)] ∧
       startable sched (sw_listed w) (sw_now w) t)) as H0.
  { exists []. split_and!; [done|by intros n ?%elem_of_nil|by left]. }
  destruct (reconcileSchedule _) as [r s']. assert (outcome sched w s') as Ho by (by destruct r).
  destruct (head (sw_faults w)) as [[| |]|]; try exact H0.
  all: destruct Ho as (l & (_ & _ & _ & ev & H1 & H2 & H3) & Hl); exists ev; cbn;
    (split_and!; [exact H1|exact H2|]); rewrite H3; exact Hl.
Qed.

(** Four passed runs of the schedule, the oldest beyond the default limit of three, and an
    unfinished run of somebody else. *)
Definition past_run (name : str) (tick : Z) (phase : RunPhase) (controller : str) : OwnedRun :=
  let r := runForTick (soak_schedule None None) tick in
  let run := or_run r in
  MkOwnedRun
    (MkRun "ns" name ("uid-" +:+ name) tick None (run_Annotations run) [] (run_Spec run)
       (MkStatus phase ∅ None None [] 0 0 0 0 [] None ∅)) (or_Labels r) (Some controller).

Definition full_history : sworld :=
  settled_store (8 * hour + 60 * second) (soak_schedule None (Some (7 * hour)%Z))
    [past_run "r4" (4 * hour) RunPassed "uid-s"; past_run "r5" (5 * hour) RunPassed "uid-s";
     past_run "r6" (6 * hour) RunPassed "uid-s"; past_run "r7" (7 * hour) RunPassed "uid-s";
     past_run "x" (7 * hour) RunRunning "uid-t"].

Lemma schedule_pass_effects_witness :
  omap (λ e, match e with EvRunCollected n => Some n | EvRunCreated r => Some (or_Name r) | _ => None end)
    (sw_trace (@schedulePass hourly full_history).2) = ["soak-0"; "r4"] ∧
  ∃ ev, sw_trace (@schedulePass hourly full_history).2 = ev ++ [] ∧
    (∀ n, EvRunCollected n ∈ ev →
       collectable (soak_schedule None (Some (7 * hour)%Z)) (sw_listed full_history) n) ∧
    (created_runs ev = [] ∨
     ∃ t w', created_runs ev = [admitted_run w' (runForTick (soak_schedule None (Some (7 * hour)%Z)) t)] ∧
       @startable hourly (soak_schedule None (Some (7 * hour)%Z)) (sw_listed full_history)
         (8 * hour + 60 * second) t).
Proof.
  split; [vm_compute; reflexivity|].
  apply (@schedule_pass_effects hourly full_history 1); [|reflexivity].
  apply (bool_decide_unpack _). vm_compute. exact I.
Defined.
