(* ===== verification/Envelope.v ===== *)
(** * The delivery document (pkg/contract/envelope.go, producer.go; internal/sink/envelope.go;
    internal/controller/deliver.go)

    What is sent about a run: how the envelope is assembled from the run and its pinned plan,
    which envelopes are refused before they are sent, and the key a receiver tells deliveries
    apart by.  The document's types carry the names of pkg/contract, with [Doc] where the API
    has a type of the same name. *)

From S2P Require Import Prelude GoStrings GoFloat GoTime GoSha256 Contract Registry Runner Verdict.
From S2P Require Import Group Api Plan Soak Pods RunPlan PlanStore Attempt Rendezvous Engine.
From Stdlib Require Import Ascii.
Open Scope stdpp_scope.

(** ** The document *)
Definition Version : str := "burnin.glimmer.ai/v1alpha1".

Definition ReasonPhaseChanged : str := "RunPhaseChanged".
Definition ReasonTestCompleted : str := "TestCompleted".
Definition ReasonCheckpoint : str := "Checkpoint".
Definition Reasons : list str := [ReasonPhaseChanged; ReasonTestCompleted; ReasonCheckpoint].

Record RunRef := MkRunRef { rf_Namespace : str; rf_Name : str; rf_UID : str; rf_Profile : str }.

Record ViolationDoc := MkViolationDoc {
  vd_Index : Z; vd_Metric : str; vd_Cause : str; vd_Kind : str; vd_Reason : str;
}.

Record AppliedGateDoc := MkAppliedDoc {
  gd_Index : Z; gd_Metric : str; gd_Comparison : str; gd_Value : str;
}.

Record ArtifactDoc := MkArtifactDoc {
  ad_Name : str; ad_MediaType : str; ad_SizeBytes : Z; ad_Digest : str;
  ad_ConfigMap : str; ad_Key : str; ad_Dropped : str;
}.

Record NotEvaluatedDoc := MkNotEvaluatedDoc { nd_Metric : str; nd_Reason : str }.

Record SegmentSummary := MkSegmentSummary {
  sg_Completed : Z; sg_Required : Z; sg_SegmentSeconds : Z; sg_TruncatedAttempts : Z;
}.

Record ResultDoc := MkResultDoc {
  rd_Name : str;
  rd_Kind : str;
  rd_Scope : str;
  rd_Phase : str;
  rd_Nodes : list str;
  rd_StartedAt : option Z;
  rd_FinishedAt : option Z;
  rd_Metrics : gmap str str;
  rd_Message : str;
  rd_Violations : list ViolationDoc;
  rd_NotEvaluated : list NotEvaluatedDoc;
  rd_Applied : list AppliedGateDoc;
  rd_Unmeasurable : list str;
  rd_Artifacts : list ArtifactDoc;
  rd_VariantAxes : gmap str str;
  rd_Segments : option SegmentSummary;
}.

Record Summary := MkSummary { su_Passed : Z; su_Failed : Z; su_Errored : Z; su_Skipped : Z }.

Record ClusterRef := MkClusterRef { cl_Name : str; cl_UID : str }.

Record Progress := MkProgress {
  pg_PlannedExecutions : Z;
  pg_Nodes : list str;
  pg_CurrentNodes : list str;
}.

Record Producer := MkProducer { pr_Name : str; pr_Version : str; pr_Commit : str }.

Record Envelope := MkEnvelope {
  e_Version : str;
  e_Baseline : bool;
  e_DeliveryID : str;
  e_Reason : str;
  e_SentAt : Z;
  e_Run : RunRef;
  e_Producer : option Producer;
  e_Cluster : option ClusterRef;
  e_Phase : str;
  e_CancelReason : str;
  e_CheckpointSequence : Z;
  e_Fingerprint : gmap str str;
  e_Results : list ResultDoc;
  e_Summary : Summary;
  e_Progress : option Progress;
}.

(** [NewDeliveryID] *)
Definition delivery_seed (runUID reason eventKey : str) : str :=
  runUID +:+ nul +:+ reason +:+ nul +:+ eventKey.

Definition NewDeliveryID (runUID reason eventKey : str) : str :=
  hex_encode (firstn 16 (Sum256 (delivery_seed runUID reason eventKey))).

(** ** Validation *)
Record ValidationError := MkInvalid { ve_Field : str; ve_Reason : str }.

Definition ValidationError_string (e : ValidationError) : str :=
  "invalid envelope: " +:+ ve_Field e +:+ ": " +:+ ve_Reason e.

(** The zero [time.Time], year 1, in nanoseconds since 1970. *)
Definition zero_time : Z := (-62135596800 * second)%Z.

(** The first invalid metric name of the first result that has one. *)
Fixpoint invalid_metrics `{RangeOrder} (i : nat) (results : list ResultDoc) : option ValidationError :=
  match results with
  | [] => None
  | r :: results =>
      match list_first (λ name, negb (is_unset (ValidateMetricName name))) (keys_of (rd_Metrics r)) with
      | Some name =>
          e ← ValidateMetricName name;
          Some (MkInvalid ("results[" +:+ Itoa (Z.of_nat i) +:+ "].metrics") (NameError_string e))
      | None => invalid_metrics (S i) results
      end
  end.

Definition Validate `{RangeOrder} (e : Envelope) : option ValidationError :=
  if String.eqb (e_Version e) "" then Some (MkInvalid "version" "must be set")
  else if negb (String.eqb (e_Version e) Version)
  then Some (MkInvalid "version" ("unknown envelope version " +:+ e_Version e))
  else if String.eqb (e_DeliveryID e) ""
  then Some (MkInvalid "deliveryId" "must be set; retries depend on a stable key")
  else if String.eqb (e_Reason e) "" then Some (MkInvalid "reason" "must be set")
  else if String.eqb (rf_UID (e_Run e)) ""
  then Some (MkInvalid "run.uid" "must be set; name alone is not stable identity")
  else if (e_SentAt e =? zero_time)%Z then Some (MkInvalid "sentAt" "must be set")
  else if match e_Progress e with Some g => (pg_PlannedExecutions g <? 1)%Z | None => false end
  then Some (MkInvalid "progress.plannedExecutions"
    "must be at least 1 when progress is present; an absent progress is how an envelope says it was not observed")
  else invalid_metrics 0 (e_Results e).

(** ** The build that sends (producer.go) *)
(** What the toolchain recorded: the main module's version and the build settings. *)
Record BuildInfo := MkBuildInfo { bi_Version : str; bi_Settings : list (str * str) }.

Definition vcs_settings (settings : list (str * str)) : str * bool :=
  fold_left (λ '(rev, dirty) '(k, v),
    if String.eqb k "vcs.revision" then (v, dirty)
    else if String.eqb k "vcs.modified" then (rev, String.eqb v "true")
    else (rev, dirty)) settings ("", false).

Definition ProducerFromBuild (info : option BuildInfo) (name stampedVersion stampedCommit : str)
    : Producer :=
  let '(version, commit) :=
    match info with
    | None => (stampedVersion, stampedCommit)
    | Some bi =>
        ((if (String.eqb stampedVersion "" || String.eqb stampedVersion "(devel)") &&
             negb (String.eqb (bi_Version bi) "") then bi_Version bi else stampedVersion),
         (if String.eqb stampedCommit "" then
            let '(rev, dirty) := vcs_settings (bi_Settings bi) in
            if negb (String.eqb rev "") && dirty then rev +:+ "-dirty" else rev
          else stampedCommit))
    end in
  MkProducer name (if String.eqb version "" then "(devel)" else version) commit.

(** The operator binary: what the build stamped, what the toolchain recorded, and the
    cluster it was told it runs in. *)
Class Binary := {
  version : str;
  commit : str;
  buildInfo : option BuildInfo;
  Cluster : option ClusterRef;
}.

(** ** Assembly (internal/sink/envelope.go) *)
Definition TestKey (testName : str) : str := testName.
Definition CheckpointKey (sequence : Z) : str := Itoa sequence.

Definition testResult (r : TestResult) : ResultDoc :=
  MkResultDoc (tr_Name r) (tr_Kind r) (tr_Scope r) (PhaseKey (tr_Phase r)) (tr_Nodes r)
    (tr_StartedAt r) (tr_FinishedAt r) (tr_Metrics r) (tr_Message r)
    ((λ v, MkViolationDoc (vr_Index v) (vr_Metric v) (vr_Cause v) (vr_Kind v) (vr_Reason v))
       <$> tr_Violations r)
    ((λ n, MkNotEvaluatedDoc (nr_Metric n) (nr_Reason n)) <$> tr_NotEvaluated r)
    ((λ a, MkAppliedDoc (gr_Index a) (gr_Metric a) (gr_Comparison a) (gr_Value a)) <$> tr_Applied r)
    (tr_Unmeasurable r)
    ((λ a, MkArtifactDoc (ar_Name a) (ar_MediaType a) (ar_SizeBytes a) (ar_Digest a)
             (ar_ConfigMap a) (ar_Key a) (ar_Dropped a)) <$> tr_Artifacts r)
    (tr_VariantAxes r)
    (if (0 <? tr_SegmentsRequired r)%Z
     then Some (MkSegmentSummary (tr_SegmentsCompleted r) (tr_SegmentsRequired r)
                  (tr_SegmentSeconds r) (tr_TruncatedAttempts r))
     else None).

Definition EnvelopeFor `{Binary} (run : BurnInRun) (profile reason eventKey : str) (now : Z)
    (cluster : option ClusterRef) (baseline : bool) (progress : option Progress) : Envelope :=
  let st := run_Status run in
  MkEnvelope Version baseline (NewDeliveryID (run_UID run) reason eventKey) reason now
    (MkRunRef (run_Namespace run) (run_Name run) (run_UID run) profile)
    (Some (ProducerFromBuild buildInfo "glimmer-burnin-operator" version commit))
    cluster (PhaseKey (st_Phase st))
    (if bool_decide (st_Phase st = RunCancelled) then sp_CancelReason (run_Spec run) else "")
    (if String.eqb reason ReasonCheckpoint then default 0%Z (Atoi eventKey) else 0%Z)
    (st_Fingerprint st) (testResult <$> st_Results st)
    (MkSummary (st_Passed st) (st_Failed st) (st_Errored st) (st_Skipped st)) progress.

(** ** What the pinned plan says of a delivery (deliver.go) *)
Section delivery.
Context `{PlanCodec}.

(** A readable plan, or none. *)
Definition readable_plan (run : BurnInRun) : option plan :=
  match loadPlan run with Some (inl p) => Some p | _ => None end.

Definition pinnedBaseline (run : BurnInRun) : bool :=
  match readable_plan run with
  | Some p => pl_Baseline p
  | None => default false (sp_Baseline (run_Spec run))
  end.

Definition planned_executions (p : plan) : Z :=
  foldr (λ t n, (count_of (executionUnits p t) + n)%Z) 0%Z (pl_Tests p).

(** The nodes of the results still running. *)
Definition running_nodes (run : BurnInRun) : gset str :=
  list_to_set (mjoin (tr_Nodes <$>
    List.filter (λ r, bool_decide (tr_Phase r = RunRunning)) (results run))).

Definition pinnedProgress (run : BurnInRun) : option Progress :=
  match readable_plan run with
  | None => None
  | Some p =>
      if (planned_executions p =? 0)%Z then None
      else Some (MkProgress (i32 (planned_executions p)) (pl_Targets p)
             (List.filter (λ n, bool_decide (n ∈ running_nodes run)) (pl_Targets p)))
  end.

(** The envelope [deliver] builds. *)
Definition delivery_envelope `{Binary} (run : BurnInRun) (reason eventKey : str) (now : Z)
    : Envelope :=
  EnvelopeFor run (sp_ProfileRef (run_Spec run)) reason eventKey now Cluster (pinnedBaseline run)
    (pinnedProgress run).
End delivery.

(** ** Names a document may carry *)
Definition valid_names (m : gmap str str) : Prop := map_Forall (λ k _, ValidateMetricName k = None) m.
Definition named_result (r : TestResult) : Prop :=
  valid_names (tr_Metrics r) ∧ valid_names (tr_AggregatedMetrics r).
Definition named (run : BurnInRun) : Prop := Forall named_result (results run).

Create HintDb named.

Lemma valid_empty : valid_names ∅.
Proof. apply map_Forall_empty. Qed.

Lemma valid_Parse kind stdout code : valid_names (r_Metrics (Parse kind stdout code)).
Proof. intros k v Hk. destruct (Parse_wf kind stdout code k) as (_ & H & _). apply H. eauto. Qed.

Lemma valid_fold agg next : valid_names agg → valid_names next → valid_names (foldMetrics agg next).
Proof.
  intros Ha Hn k v. rewrite foldMetrics_lookup.
  destruct (next !! k) as [raw|] eqn:En; [intros _; exact (Hn k raw En)|intros Hk; exact (Ha k v Hk)].
Qed.
#[export] Hint Resolve valid_empty valid_Parse valid_fold : named.

(** What a harvest returns. *)
Lemma valid_harvestPod t pod out : valid_names (r_Metrics (harvestPod t pod out).1).
Proof.
  unfold harvestPod.
  destruct (match podOutcome pod with Some o => _ | None => _ end) as [[code reason] detail].
  cbn [fst]. repeat case_match; rewrite ?set_verdict_metrics; apply valid_Parse.
Qed.

Definition valid_side (r : option Result) : Prop :=
  match r with Some r => valid_names (r_Metrics r) | None => True end.

Lemma valid_log_rule logErr spec out :
  valid_names (r_Metrics out) → valid_names (r_Metrics (log_rule logErr spec out)).
Proof. by destruct (log_rule_facts logErr spec out) as (-> & _). Qed.

(** What the two ends of a link make together. *)
Lemma valid_combinePair server client logErr spec :
  valid_side (sd_result server) → valid_side (sd_result client) →
  valid_names (r_Metrics (combinePair server client logErr spec)).
Proof.
  intros Hs Hc. unfold combinePair. destruct (pairVerdict server client) as [v code].
  apply valid_log_rule. cbn [r_Metrics]. unfold side_metrics.
  apply map_Forall_union_2; [destruct (sd_result client)|destruct (sd_result server)];
    try done; apply valid_empty.
Qed.

Lemma readings_valid k ranks :
  readings_of k ranks ≠ [] → Forall (λ m, valid_side (rk_Result m)) ranks →
  ValidateMetricName k = None.
Proof.
  unfold readings_of. intros Hne H.
  destruct (omap (rank_measured k) (rev ranks)) as [|rv l] eqn:E; [done|]. clear Hne.
  assert (rv ∈ omap (rank_measured k) (rev ranks)) as Hin by (rewrite E; apply list_elem_of_here).
  apply list_elem_of_omap in Hin as (m & Hm & Hr). rewrite Forall_forall in H.
  rewrite list_elem_of_In, <-in_rev, <-list_elem_of_In in Hm. specialize (H m Hm).
  unfold rank_measured in Hr. destruct (rk_Result m) as [r|]; [|done]. simpl in Hr.
  destruct (r_Metrics r !! k) as [v|] eqn:Ev; [|done]. exact (H k v Ev).
Qed.

(** What the ranks of a group make together. *)
Lemma valid_combineGroup members logErr spec :
  Forall (λ m, valid_side (gm_result m)) members →
  valid_names (r_Metrics (combineGroup members logErr spec)).
Proof.
  intros H. unfold combineGroup. apply valid_log_rule. cbn [r_Metrics]. intros k v.
  destruct (Combine_key (rankReports members) k) as (_ & -> & _). intros Hk.
  apply (readings_valid k (rankReports members)).
  - intros E. by rewrite E in Hk.
  - unfold rankReports. apply Forall_fmap. exact H.
Qed.

(** *** The bookkeeping *)
Lemma named_metrics m r : valid_names m → named_result r → named_result (set_tr_Metrics m r).
Proof. by intros Hm [_ Ha]. Qed.

Lemma named_settle now final msg metrics ev r :
  valid_names metrics → named_result r → named_result (settle now final msg metrics ev r).
Proof. by intros Hm [_ Ha]. Qed.

Lemma named_truncate r : named_result r → named_result (truncateAttempts r).
Proof. intros Hr. unfold truncateAttempts. by repeat case_match. Qed.

Lemma named_record now podName parsed phase message r :
  valid_names (r_Metrics parsed) → named_result r →
  named_result (record_attempt now podName parsed phase message r).
Proof.
  intros Hp Hr. unfold record_attempt.
  case_bool_decide; [|apply named_metrics; [done|]]; apply named_truncate; exact Hr.
Qed.

Lemma named_foldSegment parsed r :
  valid_names (r_Metrics parsed) → named_result r → named_result (foldSegment r parsed).
Proof.
  intros Hp [Hm Ha]. unfold foldSegment. cbn zeta.
  assert (valid_names (foldMetrics (tr_AggregatedMetrics r) (r_Metrics parsed))) by by apply valid_fold.
  case_bool_decide; split; done.
Qed.

Lemma named_decide now limit t attempt parsed phase message ev r :
  valid_names (r_Metrics parsed) → named_result r →
  named_result (decide_attempt now limit t attempt parsed phase message ev r).1.
Proof.
  intros Hp Hr. unfold decide_attempt.
  pose proof (named_foldSegment parsed r Hp Hr) as Hf.
  repeat case_match; cbn [fst]; try (apply named_settle; [|exact Hr || exact Hf]);
    first [exact Hp|exact Hr|exact Hf|exact (proj2 Hr)|exact (proj2 Hf)].
Qed.

Lemma named_set_results l run : Forall named_result l → named (set_results l run).
Proof. done. Qed.

Lemma named_snoc r run : named_result r → named run → named (set_results (results run ++ [r]) run).
Proof. intros Hr H. apply named_set_results, Forall_app_2; [exact H|by apply Forall_singleton]. Qed.

Lemma named_set_result i r run : named_result r → named run → named (set_result i r run).
Proof. intros Hr H. apply named_set_results. by apply Forall_insert. Qed.

Lemma named_lookup run i r : named run → results run !! i = Some r → named_result r.
Proof. intros H Hi. exact (Forall_lookup_1 _ _ _ _ H Hi). Qed.

Lemma named_ensure run t nodes : named run → named (ensureResult run t nodes).1.
Proof.
  intros H. unfold ensureResult. destruct (resultIndex _ _ _); [exact H|].
  apply named_snoc; [split; apply valid_empty|exact H].
Qed.

Lemma named_begin_on now r nodes attempt pod :
  named_result r → named_result (begin_on now r nodes attempt pod).1.
Proof. intros H. unfold begin_on. by repeat case_match; simplify_eq/=. Qed.

Lemma named_begin now run t nodes attempt pod :
  named run → named (beginAttempt now run t nodes attempt pod).1.1.
Proof.
  intros H. unfold beginAttempt. pose proof (named_ensure run t nodes H) as He.
  destruct (ensureResult run t nodes) as [run1 i]. cbn [fst] in He.
  destruct (results run1 !! i) as [r|] eqn:E; [|exact He].
  pose proof (named_begin_on now r nodes attempt pod (named_lookup _ _ _ He E)) as Hb.
  destruct (begin_on now r nodes attempt pod) as [r' began]. by apply named_set_result.
Qed.

Lemma named_complete now run t nodes attempt podName pod parsed :
  valid_names (r_Metrics parsed) → named run →
  named (completeAttempt now run t nodes attempt podName pod parsed).1.
Proof.
  intros Hp H. unfold completeAttempt. pose proof (named_begin now run t nodes attempt pod H) as Hb.
  destruct (beginAttempt now run t nodes attempt pod) as [[run1 i] c]. cbn [fst] in Hb.
  destruct (results run1 !! i) as [r|] eqn:E; [|exact Hb].
  unfold finish_on. destruct (attemptOutcome t parsed) as [[phase message] ev].
  pose proof (named_decide now (retryOnErrorLimit run1) t attempt parsed phase message ev _ Hp
    (named_record now podName parsed phase message r Hp (named_lookup _ _ _ Hb E))) as Hd.
  destruct (decide_attempt _ _ _ _ _ _ _ _ _) as [r' d].
  destruct d; exact (named_set_result i r' run1 Hd Hb).
Qed.

Lemma named_checkpoint_on now t out r : named_result r → named_result (checkpoint_on now t out r).1.
Proof.
  intros H. unfold checkpoint_on. destruct (IsTerminal (tr_Phase r)); [exact H|].
  destruct (match _ with Some s => _ | None => _ end); [exact H|]. destruct out as [s|e]; [|exact H].
  cbn zeta. case_bool_decide; [exact H|].
  pose proof (valid_Parse (ts_Kind (te_Spec t)) s 0) as Hp.
  pose proof (valid_fold _ _ (proj2 H) Hp) as Hf. destruct H as [_ Ha].
  repeat case_match; by split.
Qed.

Lemma named_checkpoint now run t node out : named run → named (checkpoint now run t node out).1.
Proof.
  intros H. unfold checkpoint. destruct (_ <=? 0)%Z; [exact H|].
  destruct (resultIndex _ _ _) as [i|]; [|exact H]. destruct (results run !! i) as [r|] eqn:E; [|exact H].
  pose proof (named_checkpoint_on now t out r (named_lookup _ _ _ H E)) as Hc.
  destruct (checkpoint_on now t out r) as [r' wrote]. by apply named_set_result.
Qed.

Lemma named_settleWithoutPod now run t run' key :
  named run → settleWithoutPod now run t = Some (run', key) → named run'.
Proof.
  intros H. unfold settleWithoutPod, appendSettled. repeat case_match; intros; simplify_eq/=; [done|].
  apply (named_snoc (bareResult _ _ _ _ _ _)); [split; apply valid_empty|exact H].
Qed.

Lemma named_settle_unit now phase message t run nodes :
  named run → named (settle_unit now phase message t run nodes).
Proof.
  intros H. unfold settle_unit. pose proof (named_ensure run t nodes H) as He.
  destruct (ensureResult run t nodes) as [run1 i]. cbn [fst] in He.
  destruct (results run1 !! i) as [r|] eqn:E; [|exact He].
  pose proof (named_lookup _ _ _ He E) as Hr.
  repeat case_match; try exact He; by apply named_set_result.
Qed.

Lemma named_fold {A} (f : BurnInRun → A → BurnInRun) l run :
  (∀ run a, named run → named (f run a)) → named run → named (fold_left f l run).
Proof. intros Hf. revert run. induction l; simpl; auto. Qed.

Lemma named_settleRemaining now run p phase message :
  named run → named (settleRemaining now run p phase message).
Proof.
  intros H. unfold settleRemaining. change (named (fold_left (settle_test now p phase message) (pl_Tests p) run)).
  apply named_fold; [|exact H]. intros run' t H'. unfold settle_test.
  assert (named (fold_left (settle_unit now phase message t) (executionUnits p t) run')) as Hu
    by (apply named_fold; [apply named_settle_unit|exact H']).
  repeat case_match; done.
Qed.

Lemma named_terminal now phase run : named run → named (terminal_status now phase run).
Proof.
  intros H. unfold terminal_status. apply (named_set_results (close_open now <$> results run)).
  apply Forall_fmap. eapply Forall_impl; [exact H|]. intros r Hr. unfold compose, close_open.
  by case_match.
Qed.

(** ** Which envelopes are sent *)
Section validity.
Context `{RangeOrder}.

Lemma invalid_metrics_None i l :
  invalid_metrics i l = None ↔ Forall (λ r, valid_names (rd_Metrics r)) l.
Proof.
  revert i. induction l as [|r l IH]; intros i; [done|]. simpl. rewrite Forall_cons, <-(IH (S i)).
  pose proof (keys_of_elem (rd_Metrics r)) as Hkeys.
  destruct (list_first _ _) as [name|] eqn:E.
  - apply list_first_Some in E as [Hin Hbad]. apply Hkeys in Hin as [v Hv].
    destruct (ValidateMetricName name) as [e|] eqn:Ee; [|done]. simpl. split; [done|].
    intros [Hall _]. specialize (Hall name v Hv). congruence.
  - rewrite list_first_None in E. split; [|naive_solver].
    intros Hrest. split; [|done]. intros k v Hk.
    assert (k ∈ keys_of (rd_Metrics r)) as Hin by (apply Hkeys; eauto).
    specialize (E k Hin). cbn beta in E. by destruct (ValidateMetricName k).
Qed.

Lemma hex_encode_cons_ne b l : hex_encode (b :: l) ≠ "".
Proof. done. Qed.

Lemma NewDeliveryID_ne u r k : NewDeliveryID u r k ≠ "".
Proof.
  unfold NewDeliveryID, Sum256. destruct (blocks _ _ _). apply hex_encode_cons_ne.
Qed.

(** What an assembled envelope needs to pass. *)
Lemma Validate_EnvelopeFor `{Binary} run profile reason key now cluster baseline progress :
  Validate (EnvelopeFor run profile reason key now cluster baseline progress) = None ↔
  reason ≠ "" ∧ run_UID run ≠ "" ∧ now ≠ zero_time ∧
  (∀ g, progress = Some g → (1 <= pg_PlannedExecutions g)%Z) ∧
  Forall (λ r, valid_names (tr_Metrics r)) (results run).
Proof.
  pose proof (NewDeliveryID_ne (run_UID run) reason key) as Hid. apply String.eqb_neq in Hid.
  unfold Validate.
  cbn [EnvelopeFor e_Version e_DeliveryID e_Reason e_Run e_SentAt e_Progress e_Results rf_UID].
  change (String.eqb Version "") with false. change (negb (String.eqb Version Version)) with false.
  rewrite Hid.
  destruct (String.eqb_spec reason ""); [naive_solver|]. destruct (String.eqb_spec (run_UID run) ""); [naive_solver|].
  destruct (Z.eqb_spec now zero_time); [naive_solver|].
  assert (Forall (λ r, valid_names (rd_Metrics r)) (testResult <$> st_Results (run_Status run)) ↔
          Forall (λ r, valid_names (tr_Metrics r)) (results run)) as Hnames by apply Forall_fmap.
  destruct progress as [g|]; [destruct (Z.ltb_spec (pg_PlannedExecutions g) 1) as [Hlt|Hge]|].
  - split; [done|]. intros (_ & _ & _ & Hg & _). specialize (Hg g eq_refl). lia.
  - rewrite invalid_metrics_None, Hnames. split; [|tauto].
    intros Hall. split_and!; [done..| |done]. by intros g' [= <-].
  - rewrite invalid_metrics_None, Hnames. split; [|tauto]. by intros Hall; split_and!.
Qed.
End validity.

Section deliverable.
Context `{RangeOrder} `{Binary} `{PlanCodec}.

Lemma planned_executions_nonneg p : (0 <= planned_executions p)%Z.
Proof.
  unfold planned_executions. generalize (pl_Tests p). intros l.
  induction l as [|t l IH]; cbn [foldr]; [done|]. unfold count_of at 1. lia.
Qed.

(** A run whose pinned plan holds fewer executions than an int32 counts. *)
Definition countable_plan (run : BurnInRun) : Prop :=
  ∀ p, readable_plan run = Some p → (planned_executions p < 2 ^ 31)%Z.

Lemma pinnedProgress_valid run g :
  countable_plan run → pinnedProgress run = Some g → (1 <= pg_PlannedExecutions g)%Z.
Proof.
  unfold countable_plan, pinnedProgress. intros Hsmall.
  destruct (readable_plan run) as [p|]; [|done]. specialize (Hsmall p eq_refl).
  pose proof (planned_executions_nonneg p). destruct (Z.eqb_spec (planned_executions p) 0); [done|].
  intros [= <-]. cbn [pg_PlannedExecutions]. rewrite i32_small; unfold int32_range; lia.
Qed.

Lemma reason_set reason : reason ∈ Reasons → reason ≠ "".
Proof. unfold Reasons. rewrite !elem_of_cons. intros [->|[->|[->|Hin]]]; [done..|by apply not_elem_of_nil in Hin]. Qed.

(** C28: A run the operator records is always one it can report. The names of its metrics start
    valid and stay valid under every step of the bookkeeping: a completed attempt with what a
    pod's log parses to or what the ends of a link or the ranks of a group combine to, a
    checkpoint, a result settled without a pod, the results settled at the end and the
    terminal status. Such a run's envelope, for any reason and event, passes the validation
    that is applied before every send; so no verdict is ever lost to a malformed document. *)
Theorem run_stays_deliverable (run : BurnInRun) :
  named run →
  (∀ now t nodes attempt podName pod parsed, valid_names (r_Metrics parsed) →
     named (completeAttempt now run t nodes attempt podName pod parsed).1) ∧
  (∀ t pod out, valid_names (r_Metrics (harvestPod t pod out).1)) ∧
  (∀ server client logErr spec, valid_side (sd_result server) → valid_side (sd_result client) →
     valid_names (r_Metrics (combinePair server client logErr spec))) ∧
  (∀ members logErr spec, Forall (λ m, valid_side (gm_result m)) members →
     valid_names (r_Metrics (combineGroup members logErr spec))) ∧
  (∀ now t node out, named (checkpoint now run t node out).1) ∧
  (∀ now t run' key, settleWithoutPod now run t = Some (run', key) → named run') ∧
  (∀ now p phase message, named (settleRemaining now run p phase message)) ∧
  (∀ now phase, named (terminal_status now phase run)) ∧
  (∀ reason key now, reason ∈ Reasons → run_UID run ≠ "" → now ≠ zero_time → countable_plan run →
     Validate (delivery_envelope run reason key now) = None).
Proof.
  intros Hn. split_and!; intros.
  - by apply named_complete.
  - apply valid_harvestPod.
  - by apply valid_combinePair.
  - by apply valid_combineGroup.
  - by apply named_checkpoint.
  - by eapply named_settleWithoutPod.
  - by apply named_settleRemaining.
  - by apply named_terminal.
  - apply Validate_EnvelopeFor. split_and!; [by apply reason_set|done|done| |].
    + intros g. by apply pinnedProgress_valid.
    + eapply Forall_impl; [exact Hn|]. by intros r [? _].
Qed.
End deliverable.

(** ** The identity of a delivery *)

(** The key is not the clock's: a later delivery of the same event has the same identity, in
    a document whose [sentAt] has moved. *)
Lemma redelivery_moves `{Binary} run profile reason key now now' cluster baseline progress :
  now ≠ now' →
  let e := EnvelopeFor run profile reason key now cluster baseline progress in
  let e' := EnvelopeFor run profile reason key now' cluster baseline progress in
  e_DeliveryID e' = e_DeliveryID e ∧ e' ≠ e.
Proof. intros Hne. split; [done|]. intros [=]. congruence. Qed.

Lemma delivery_seed_inj u r k u' r' k' :
  nul_free u → nul_free u' → nul_free r → nul_free r' →
  delivery_seed u r k = delivery_seed u' r' k' → u = u' ∧ r = r' ∧ k = k'.
Proof.
  unfold delivery_seed. intros Hu Hu' Hr Hr' H.
  apply nul_split in H as [-> H]; [|done..]. by apply nul_split in H as [-> ->].
Qed.

Lemma elem_of_firstn {A} n (l : list A) x : x ∈ firstn n l → x ∈ l.
Proof. intros H. rewrite <-(firstn_skipn n l). apply elem_of_app. by left. Qed.

(** *** The keys of a run's events *)

(** What a delivery tells of: a phase entered, an execution finished (by name, of no node, or
    of the nodes it ran on), a checkpoint. *)
Inductive occasion :=
  | PhaseEntered (phase : RunPhase)
  | Completed (name : str) (nodes : list str)
  | Checkpointed (sequence : Z).

Definition reason_of (o : occasion) : str :=
  match o with
  | PhaseEntered _ => ReasonPhaseChanged
  | Completed _ _ => ReasonTestCompleted
  | Checkpointed _ => ReasonCheckpoint
  end.

Definition key_of (o : occasion) : str :=
  match o with
  | PhaseEntered phase => PhaseKey phase
  | Completed name [] => TestKey name
  | Completed name nodes => TestKey (completion_key name nodes)
  | Checkpointed sequence => CheckpointKey sequence
  end.

(** Names of tests hold no slash, names of nodes no plus: both are DNS names. *)
Definition occasion_ok (o : occasion) : Prop :=
  match o with
  | Completed name nodes =>
      no_char "/" name = true ∧ Forall (λ n, no_char "+" n = true) nodes
  | _ => True
  end.

Lemma PhaseKey_inj a b : PhaseKey a = PhaseKey b → a = b.
Proof. by destruct a, b. Qed.

Lemma no_char_none c s t : no_char c (s +:+ String c t) = false.
Proof. unfold no_char. rewrite all_chars_app. simpl. rewrite Ascii.eqb_refl. apply andb_false_r. Qed.

Lemma key_inj o o' :
  occasion_ok o → occasion_ok o' → reason_of o = reason_of o' → key_of o = key_of o' → o = o'.
Proof.
  destruct o as [a|name nodes|n], o' as [a'|name' nodes'|n']; try done; cbn [key_of].
  - by intros _ _ _ ->%PhaseKey_inj.
  - unfold TestKey, completion_key. intros [Hn Hl] [Hn' Hl'] _.
    assert (∀ x y z, no_char "/" x = true → x ≠ y +:+ "/" +:+ z) as Hne.
    { intros x y z Hx ->. change (no_char "/" (y +:+ String "/" z) = true) in Hx.
      by rewrite no_char_none in Hx. }
    destruct nodes as [|a l], nodes' as [|b l'].
    + by intros ->.
    + intros H. by destruct (Hne _ _ _ Hn H).
    + intros H. symmetry in H. by destruct (Hne _ _ _ Hn' H).
    + intros H. apply no_char_split in H as [-> H]; [|done..]. f_equal.
      apply (f_equal (λ s, Split s "+")) in H. by rewrite !Split_Join in H.
  - intros _ _ _ H. apply Itoa_inj in H. by subst.
Qed.

(** The idempotency key of a delivery is the event it tells of. Deliveries of the same
    event of a run carry one key whenever they are sent and whatever the document says by
    then; two deliveries with one key are of the same run and the same event, unless the
    first sixteen bytes of SHA-256 collide on what was hashed. So a receiver that drops
    repeated keys drops retries and nothing else; and a checkpoint carries the number its key
    was made of. *)
Theorem delivery_identity `{Binary} `{PlanCodec} (run run' : BurnInRun) (o o' : occasion)
    (now now' : Z) :
  nul_free (run_UID run) → nul_free (run_UID run') → occasion_ok o → occasion_ok o' →
  let id run o now := e_DeliveryID (delivery_envelope run (reason_of o) (key_of o) now) in
  let seed run o := delivery_seed (run_UID run) (reason_of o) (key_of o) in
  (run_UID run = run_UID run' → o = o' → id run o now = id run' o' now') ∧
  (id run o now = id run' o' now' →
     (run_UID run = run_UID run' ∧ o = o') ∨
     (seed run o ≠ seed run' o' ∧ firstn 16 (Sum256 (seed run o)) = firstn 16 (Sum256 (seed run' o')))) ∧
  (∀ n, o = Checkpointed n → (0 <= n < 2 ^ 63)%Z →
     e_CheckpointSequence (delivery_envelope run (reason_of o) (key_of o) now) = n).
Proof.
  intros Hu Hu' Ho Ho' id seed. split_and!.
  - unfold id. intros Huid ->. cbn [e_DeliveryID delivery_envelope EnvelopeFor]. by rewrite Huid.
  - intros Hid. change (hex_encode (firstn 16 (Sum256 (seed run o))) =
      hex_encode (firstn 16 (Sum256 (seed run' o')))) in Hid.
    apply hex_encode_inj in Hid; [|intros b Hb; eapply Sum256_bytes, elem_of_firstn, Hb..].
    destruct (decide (seed run o = seed run' o')) as [Hs|Hs]; [left|by right].
    unfold seed in Hs. apply delivery_seed_inj in Hs as (Huid & Hr & Hk); [|done|done|by destruct o|by destruct o'].
    split; [exact Huid|by apply key_inj].
  - intros n -> Hn. cbn [delivery_envelope EnvelopeFor e_CheckpointSequence reason_of key_of].
    unfold CheckpointKey. by rewrite Atoi_Itoa.
Qed.

(** ** Witnesses *)
Definition example_binary : Binary :=
  Build_Binary "v0.9.1" "" (Some (MkBuildInfo "(devel)" [("vcs.revision", "abc"); ("vcs.modified", "true")]))
    (Some (MkClusterRef "lab" "")).

Lemma run_stays_deliverable_witness :
  let run := (completeAttempt 7 (named_run "run") example_test ["node-a"] 1 "pod" None passing_result).1 in
  let env := @delivery_envelope example_codec example_binary run ReasonTestCompleted "gemm/node-a" 7 in
  rd_Metrics <$> e_Results env = [r_Metrics passing_result] ∧
  @Validate key_order env = None.
Proof.
  split; [vm_compute; reflexivity|].
  assert (named (named_run "run")) as H0 by constructor.
  destruct (@run_stays_deliverable key_order example_binary example_codec (named_run "run") H0)
    as (Hc & _).
  specialize (Hc 7 example_test ["node-a"] 1 "pod" None passing_result)%Z.
  destruct (@run_stays_deliverable key_order example_binary example_codec _
    (Hc (proj2 (map_Forall_singleton _ _ _) eq_refl))) as (_ & _ & _ & _ & _ & _ & _ & _ & H).
  apply H; [right; left|discriminate|discriminate|].
  intros p Hp. vm_compute in Hp. discriminate.
Defined.

Lemma delivery_identity_witness :
  let id o := e_DeliveryID
    (@delivery_envelope example_codec example_binary (named_run "run") (reason_of o) (key_of o) 7) in
  id (PhaseEntered RunPassed) ≠ id (Completed "gemm" ["a"; "b"]) ∧
  e_CheckpointSequence (@delivery_envelope example_codec example_binary (named_run "run")
    ReasonCheckpoint (CheckpointKey 12) 7) = 12%Z.
Proof.
  split.
  - intros H. destruct (@delivery_identity example_binary example_codec (named_run "run") (named_run "run")
      (PhaseEntered RunPassed) (Completed "gemm" ["a"; "b"]) 7 7) as (_ & Hid & _);
      [reflexivity..|exact I|repeat constructor|].
    destruct (Hid H) as [[_ Ho]|[_ Hc]]; [discriminate Ho|vm_compute in Hc; discriminate Hc].
  - apply (@delivery_identity example_binary example_codec (named_run "run") (named_run "run")
      (Checkpointed 12) (Checkpointed 12) 7 7); [reflexivity..|exact I|exact I|reflexivity|lia].
Defined.
