(* ===== verification/Exporter.v ===== *)
(** * The metrics exporter (internal/metrics/metrics.go, sink.go)

    A Prometheus sink is a selector: the envelope of a run it is named for is reflected into
    gauges that are scraped later.  The exporter remembers what it published for each run, so
    that an observation replaces a run's series and a forgotten run leaves nothing behind. *)

From S2P Require Import Prelude GoStrings GoFloat GoTime Contract Registry Api Envelope.
Open Scope stdpp_scope.

Definition DefaultMaxRuns : Z := 128.

Record RunID := MkRunID { ri_Namespace : str; ri_Name : str }.

Global Instance RunID_eq_dec : EqDecision RunID.
Proof. solve_decision. Defined.
Global Instance RunID_countable : Countable RunID.
Proof.
  refine (inj_countable' (λ i, (ri_Namespace i, ri_Name i)) (λ p, MkRunID p.1 p.2) _). by intros [].
Defined.

Definition vecRunPhase : str := "run_phase".
Definition vecRunTests : str := "run_tests".
Definition vecRunStart : str := "run_start".
Definition vecRunFinish : str := "run_finish".
Definition vecTestPhase : str := "test_phase".
Definition vecTestMetric : str := "test_metric".

Definition knownPhases : list str :=
  ["Pending"; "Running"; "Passed"; "Failed"; "Error"; "Skipped"; "Cancelled"].

Definition dropUnregistered : str := "unregistered".
Definition dropNonNumeric : str := "non_numeric".
Definition dropNonFinite : str := "non_finite".

(** One gauge of a vector: its label values. *)
Record sample := MkSample { sa_vec : str; sa_vals : list str; sa_val : float64 }.

Record runState := MkRunState { rs_lastSeen : Z; rs_series : gmap str sample }.

(** The exporter, with what its gauge vectors and counters hold. *)
Record Exporter := MkExporter {
  ex_runs : gmap RunID runState;
  ex_maxRuns : Z;
  ex_gauges : gmap (str * list str) float64;
  ex_runsTracked : Z;
  ex_runsEvicted : Z;
  ex_metricsDropped : gmap str Z;
}.

Definition New : Exporter := MkExporter ∅ DefaultMaxRuns ∅ 0 0 ∅.

Definition tracked_now (e : Exporter) : Exporter :=
  MkExporter (ex_runs e) (ex_maxRuns e) (ex_gauges e) (Z.of_nat (size (ex_runs e)))
    (ex_runsEvicted e) (ex_metricsDropped e).

(** ** The series of an envelope *)
(** The series collected so far, and the drops counted. *)
Record observing := MkObserving { ob_next : gmap str sample; ob_dropped : gmap str Z }.

Definition series_key (vec identity : str) : str := vec +:+ Pods.nul +:+ identity.

(** [add] *)
Definition add (vec identity : str) (v : float64) (vals : list str) (o : observing) : observing :=
  MkObserving (<[series_key vec identity := MkSample vec vals v]> (ob_next o)) (ob_dropped o).

Definition drop_metric (reason : str) (o : observing) : observing :=
  MkObserving (ob_next o) (<[reason := (default 0 (ob_dropped o !! reason) + 1)%Z]> (ob_dropped o)).

Definition loop {A} (f : A → observing → observing) (l : list A) (o : observing) : observing :=
  fold_left (λ o a, f a o) l o.

(** [exposable] *)
Definition exposable (name : str) : option Metric := Lookup name.

(** [numeric]: the value, or why there is none. *)
Definition numeric (raw : str) : float64 + str :=
  match ParseFloat (TrimSpace raw) with
  | (_, Some _) => inr dropNonNumeric
  | (v, None) => if IsNaN v || IsInf v then inr dropNonFinite else inl v
  end.

Definition threshold_use_string (u : ThresholdUse) : str :=
  match u with
  | ThresholdUseUnspecified => "" | ThresholdUseAcceptance => "Acceptance"
  | ThresholdUseEvidence => "Evidence"
  end.

Definition earliestStart (results : list ResultDoc) : option Z :=
  fold_left (λ out r,
    match rd_StartedAt r with
    | Some t => if (t =? zero_time)%Z then out
                else match out with
                     | Some o => if (t <? o)%Z then Some t else out
                     | None => Some t
                     end
    | None => out
    end) results None.

Definition latestFinish (results : list ResultDoc) : option Z :=
  fold_left (λ out r,
    match rd_FinishedAt r with
    | Some t => if (t =? zero_time)%Z then out
                else match out with
                     | Some o => if (o <? t)%Z then Some t else out
                     | None => Some t
                     end
    | None => out
    end) results None.

(** [t.Unix()] *)
Definition Unix (t : Z) : Z := (t / second)%Z.

Definition phase_count (phase : str) (results : list ResultDoc) : Z :=
  Z.of_nat (length (List.filter (λ r, String.eqb (rd_Phase r) phase) results)).

(** The phases of the results that are none of [knownPhases]. *)
Definition other_phases (results : list ResultDoc) : list str :=
  List.filter (λ p, negb (bool_decide (p ∈ knownPhases))) (rd_Phase <$> results).

(** [RunPhase(phase).IsTerminal()] on a phase read back from a document. *)
Definition terminal_word (phase : str) : bool :=
  bool_decide (phase ∈ ["Passed"; "Failed"; "Error"; "Skipped"; "Cancelled"]).

Definition observe_metric (run : list str) (r : ResultDoc) (key : str) (o : observing) : observing :=
  let node := match rd_Nodes r with [n] => n | _ => "" end in
  match exposable key with
  | None => drop_metric dropUnregistered o
  | Some m =>
      match numeric (default "" (rd_Metrics r !! key)) with
      | inr reason => drop_metric reason o
      | inl v =>
          add vecTestMetric (rd_Name r +:+ Pods.nul +:+ node +:+ Pods.nul +:+ key) v
            (run ++ [rd_Name r; rd_Kind r; rd_Scope r; node; key; unit_string (m_Unit m);
                     threshold_use_string (m_ThresholdUse m)]) o
      end
  end.

Definition sortedKeys (m : gmap str str) : list str := sort_strings (map_to_list m).*1.

Definition observe_result (run : list str) (r : ResultDoc) (o : observing) : observing :=
  let nodes := match rd_Nodes r with [] => [""] | nodes => nodes end in
  let o := loop (λ node, add vecTestPhase (rd_Name r +:+ Pods.nul +:+ node) fone
             (run ++ [rd_Name r; rd_Kind r; rd_Scope r; node; rd_Phase r])) nodes o in
  loop (observe_metric run r) (sortedKeys (rd_Metrics r)) o.

Definition observe_phase (run : list str) (profile phase : str) (o : observing) : observing :=
  let o := loop (λ p, add vecRunPhase p (if String.eqb p phase then fone else fzero)
             (run ++ [profile; p])) knownPhases o in
  if negb (String.eqb phase "") && negb (bool_decide (phase ∈ knownPhases))
  then add vecRunPhase phase fone (run ++ [profile; phase]) o else o.

Definition observe_tallies (run : list str) (results : list ResultDoc) (o : observing) : observing :=
  loop (λ p, add vecRunTests p (float_of_Z (phase_count p results)) (run ++ [p]))
    (knownPhases ++ other_phases results) o.

Definition observe_start (run : list str) (env : Envelope) (o : observing) : observing :=
  match earliestStart (e_Results env) with
  | Some t => add vecRunStart "" (float_of_Z (Unix t)) run o
  | None => o
  end.

Definition observe_finish (run : list str) (env : Envelope) (o : observing) : observing :=
  if terminal_word (e_Phase env) then
    match latestFinish (e_Results env) with
    | Some t => add vecRunFinish "" (float_of_Z (Unix t)) run o
    | None => o
    end
  else o.

Definition observed (env : Envelope) (dropped : gmap str Z) : observing :=
  let run := [rf_Namespace (e_Run env); rf_Name (e_Run env)] in
  loop (observe_result run) (e_Results env)
    (observe_finish run env (observe_start run env
      (observe_tallies run (e_Results env)
        (observe_phase run (rf_Profile (e_Run env)) (e_Phase env) (MkObserving ∅ dropped))))).

(** ** Publishing *)
Definition label (s : sample) : str * list str := (sa_vec s, sa_vals s).

(** [equalVals] *)
Definition equalVals (a b : list str) : bool := bool_decide (a = b).

Definition set_gauges (next : gmap str sample) (g : gmap (str * list str) float64) :=
  map_fold (λ _ s g, <[label s := sa_val s]> g) g next.

Definition delete_stale (prev next : gmap str sample) (g : gmap (str * list str) float64) :=
  map_fold (λ key s g,
    if match next !! key with Some cur => equalVals (sa_vals s) (sa_vals cur) | None => false end
    then g else delete (label s) g) g prev.

(** [applyLocked] *)
Definition applyLocked (now : Z) (id : RunID) (next : gmap str sample) (e : Exporter) : Exporter :=
  let prev := default ∅ (rs_series <$> ex_runs e !! id) in
  MkExporter (<[id := MkRunState now next]> (ex_runs e)) (ex_maxRuns e)
    (delete_stale prev next (set_gauges next (ex_gauges e)))
    (ex_runsTracked e) (ex_runsEvicted e) (ex_metricsDropped e).

(** [forgetLocked] *)
Definition forgetLocked (id : RunID) (e : Exporter) : Exporter :=
  match ex_runs e !! id with
  | None => e
  | Some st =>
      MkExporter (delete id (ex_runs e)) (ex_maxRuns e)
        (map_fold (λ _ s g, delete (label s) g) (ex_gauges e) (rs_series st))
        (ex_runsTracked e) (ex_runsEvicted e) (ex_metricsDropped e)
  end.

(** The order a [range] over the runs takes: any. *)
Class RunsOrder := {
  runs_order : gmap RunID runState → list (RunID * runState);
  runs_order_perm : ∀ m, runs_order m ≡ₚ map_to_list m;
}.

Definition map_order : RunsOrder.
Proof. exact (Build_RunsOrder map_to_list (λ m, Permutation_refl _)). Defined.

(** The first of the least recently observed runs. *)
Definition oldest_run (l : list (RunID * runState)) : option RunID :=
  fst <$> fold_left (λ out '(id, st),
    match out with
    | None => Some (id, st)
    | Some (_, st') => if (rs_lastSeen st <? rs_lastSeen st')%Z then Some (id, st) else out
    end) l None.

Definition count_evicted (e : Exporter) : Exporter :=
  MkExporter (ex_runs e) (ex_maxRuns e) (ex_gauges e) (ex_runsTracked e) (ex_runsEvicted e + 1)
    (ex_metricsDropped e).

Section exporter.
Context `{RunsOrder}.

(** [evictLocked], a turn of the loop for each run there is. *)
Fixpoint evict (turns : nat) (e : Exporter) : Exporter :=
  if (ex_maxRuns e <? Z.of_nat (size (ex_runs e)))%Z then
    match turns, oldest_run (runs_order (ex_runs e)) with
    | S turns, Some id => evict turns (count_evicted (forgetLocked id e))
    | _, _ => e
    end
  else e.

Definition evictLocked (e : Exporter) : Exporter := evict (size (ex_runs e)) e.

Definition SetMaxRuns (n : Z) (e : Exporter) : Exporter :=
  if (n <? 1)%Z then e
  else tracked_now (evictLocked (MkExporter (ex_runs e) n (ex_gauges e) (ex_runsTracked e)
                                   (ex_runsEvicted e) (ex_metricsDropped e))).

(** [Observe], at a time of the exporter's clock. *)
Definition Observe (now : Z) (env : Envelope) (e : Exporter) : Exporter :=
  if String.eqb (rf_Name (e_Run env)) "" then e
  else
    let o := observed env (ex_metricsDropped e) in
    let e := MkExporter (ex_runs e) (ex_maxRuns e) (ex_gauges e) (ex_runsTracked e)
               (ex_runsEvicted e) (ob_dropped o) in
    tracked_now (evictLocked
      (applyLocked now (MkRunID (rf_Namespace (e_Run env)) (rf_Name (e_Run env))) (ob_next o) e)).

Definition Forget (namespace name : str) (e : Exporter) : Exporter :=
  tracked_now (forgetLocked (MkRunID namespace name) e).

(** [Sweep]: the exporter, and how many runs it forgot. *)
Definition Sweep (live : list RunID) (e : Exporter) : Exporter * Z :=
  let gone := List.filter (λ id, negb (bool_decide (id ∈ live))) (runs_order (ex_runs e)).*1 in
  (tracked_now (fold_left (λ e id, forgetLocked id e) gone e), Z.of_nat (length gone)).
End exporter.

(** [Tracked]: by namespace, then by name. *)
Definition run_before (a b : RunID) : Prop :=
  if bool_decide (ri_Namespace a = ri_Namespace b) then String.le (ri_Name a) (ri_Name b)
  else String.le (ri_Namespace a) (ri_Namespace b).

Global Instance run_before_dec : RelDecision run_before.
Proof. unfold run_before. intros a b. case_bool_decide; apply _. Defined.

Definition Tracked `{RunsOrder} (e : Exporter) : list RunID :=
  merge_sort run_before (runs_order (ex_runs e)).*1.

(** ** What an envelope shows *)

(** One series of an envelope: its identity, labels and value. *)
Inductive describes (env : Envelope) : str → sample → Prop :=
  | describes_phase p :
      describes env (series_key vecRunPhase p)
        (MkSample vecRunPhase [rf_Namespace (e_Run env); rf_Name (e_Run env); rf_Profile (e_Run env); p]
           (if String.eqb p (e_Phase env) then fone else fzero))
  | describes_tally p :
      describes env (series_key vecRunTests p)
        (MkSample vecRunTests [rf_Namespace (e_Run env); rf_Name (e_Run env); p]
           (float_of_Z (phase_count p (e_Results env))))
  | describes_start t :
      earliestStart (e_Results env) = Some t →
      describes env (series_key vecRunStart "")
        (MkSample vecRunStart [rf_Namespace (e_Run env); rf_Name (e_Run env)] (float_of_Z (Unix t)))
  | describes_finish t :
      terminal_word (e_Phase env) = true → latestFinish (e_Results env) = Some t →
      describes env (series_key vecRunFinish "")
        (MkSample vecRunFinish [rf_Namespace (e_Run env); rf_Name (e_Run env)] (float_of_Z (Unix t)))
  | describes_test r node :
      r ∈ e_Results env → node ∈ rd_Nodes r ∨ (rd_Nodes r = [] ∧ node = "") →
      describes env (series_key vecTestPhase (rd_Name r +:+ Pods.nul +:+ node))
        (MkSample vecTestPhase
           [rf_Namespace (e_Run env); rf_Name (e_Run env); rd_Name r; rd_Kind r; rd_Scope r; node;
            rd_Phase r] fone)
  | describes_metric r node key raw m v :
      r ∈ e_Results env → node = match rd_Nodes r with [n] => n | _ => "" end →
      rd_Metrics r !! key = Some raw → Lookup key = Some m → numeric raw = inl v →
      describes env (series_key vecTestMetric (rd_Name r +:+ Pods.nul +:+ node +:+ Pods.nul +:+ key))
        (MkSample vecTestMetric
           [rf_Namespace (e_Run env); rf_Name (e_Run env); rd_Name r; rd_Kind r; rd_Scope r; node;
            key; unit_string (m_Unit m); threshold_use_string (m_ThresholdUse m)] v).

(** Collecting keeps to what [φ] allows, and loses no key. *)
Definition collects (φ : str → sample → Prop) (f : observing → observing) : Prop :=
  ∀ o, map_Forall φ (ob_next o) →
    map_Forall φ (ob_next (f o)) ∧ ∀ k, is_Some (ob_next o !! k) → is_Some (ob_next (f o) !! k).

Create HintDb collects.

Section collecting.
Context (φ : str → sample → Prop).

Lemma collects_id : collects φ id.
Proof. by intros o H. Qed.

Lemma collects_drop reason : collects φ (drop_metric reason).
Proof. by intros o H. Qed.

Lemma collects_add vec identity v vals :
  φ (series_key vec identity) (MkSample vec vals v) → collects φ (add vec identity v vals).
Proof.
  intros Hs o H. split; [by apply map_Forall_insert_2|]. intros k Hk. cbn [add ob_next].
  destruct (decide (series_key vec identity = k)) as [->|Hne];
    [by rewrite lookup_insert_eq|by rewrite lookup_insert_ne].
Qed.

Lemma collects_comp f g : collects φ f → collects φ g → collects φ (λ o, f (g o)).
Proof. intros Hf Hg o H. destruct (Hg o H) as [H1 H2]. destruct (Hf _ H1) as [H3 H4]. split; auto. Qed.

Lemma collects_loop {A} (f : A → observing → observing) l :
  (∀ a, a ∈ l → collects φ (f a)) → collects φ (loop f l).
Proof.
  unfold loop. induction l as [|a l IH]; intros Hf; [apply collects_id|]. cbn [fold_left].
  apply (collects_comp (λ o, fold_left (λ o a, f a o) l o) (f a)).
  - apply IH. intros b Hb. apply Hf. by right.
  - apply Hf. left.
Qed.
End collecting.

Section describing.
Context (env : Envelope).
Abbreviation ref := [rf_Namespace (e_Run env); rf_Name (e_Run env)].

Lemma collects_metric r key :
  r ∈ e_Results env → key ∈ sortedKeys (rd_Metrics r) →
  collects (describes env) (observe_metric ref r key).
Proof.
  intros Hr Hk. unfold sortedKeys in Hk. rewrite sort_strings_elem, list_elem_of_fmap in Hk.
  destruct Hk as ([k raw] & -> & Hk). apply elem_of_map_to_list in Hk. cbn [fst].
  unfold observe_metric, exposable. destruct (Lookup k) as [m|] eqn:Em; [|apply collects_drop].
  rewrite Hk. change (numeric (default "" (Some raw))) with (numeric raw).
  destruct (numeric raw) as [v|reason] eqn:Ev; [|apply collects_drop].
  apply collects_add. by eapply describes_metric.
Qed.

Lemma collects_result r :
  r ∈ e_Results env → collects (describes env) (observe_result ref r).
Proof.
  intros Hr. unfold observe_result.
  apply (collects_comp _ (loop (observe_metric ref r) (sortedKeys (rd_Metrics r)))).
  - apply collects_loop. intros key Hk. by apply collects_metric.
  - apply collects_loop. intros node Hn. apply collects_add, describes_test; [done|].
    destruct (rd_Nodes r) as [|n l]; [right|by left]. by apply list_elem_of_singleton in Hn.
Qed.

Lemma collects_phase : collects (describes env) (observe_phase ref (rf_Profile (e_Run env)) (e_Phase env)).
Proof.
  assert (collects (describes env) (loop (λ p, add vecRunPhase p
    (if String.eqb p (e_Phase env) then fone else fzero) (ref ++ [rf_Profile (e_Run env); p])) knownPhases)) as Hl.
  { apply collects_loop. intros p _. apply collects_add, describes_phase. }
  unfold observe_phase. destruct (_ && _); [|exact Hl].
  apply (collects_comp _ (add _ _ _ _)); [|exact Hl]. apply collects_add.
  pose proof (describes_phase env (e_Phase env)) as Hp. by rewrite String.eqb_refl in Hp.
Qed.

Lemma collects_tallies : collects (describes env) (observe_tallies ref (e_Results env)).
Proof. apply collects_loop. intros p _. apply collects_add, describes_tally. Qed.

Lemma collects_start : collects (describes env) (observe_start ref env).
Proof.
  unfold observe_start. destruct (earliestStart _) as [t|] eqn:E; [|apply collects_id].
  by apply collects_add, describes_start.
Qed.

Lemma collects_finish : collects (describes env) (observe_finish ref env).
Proof.
  unfold observe_finish. destruct (terminal_word _) eqn:Et; [|apply collects_id].
  destruct (latestFinish _) as [t|] eqn:E; [|apply collects_id].
  by apply collects_add, describes_finish.
Qed.

Lemma loop_adds vec (v : str → float64) (vals : str → list str) l p o :
  p ∈ l → is_Some (ob_next (loop (λ p, add vec p (v p) (vals p)) l o) !! series_key vec p).
Proof.
  revert o. unfold loop. induction l as [|a l IH]; intros o; [by intros ?%elem_of_nil|].
  cbn [fold_left]. destruct (decide (p ∈ l)) as [Hin|Hnin]; [by auto|].
  intros [->|Hp]%elem_of_cons; [|done].
  assert (is_Some (ob_next (add vec a (v a) (vals a) o) !! series_key vec a)) as Ha
    by (cbn [add ob_next]; rewrite lookup_insert_eq; eauto).
  revert Ha. generalize (add vec a (v a) (vals a) o). clear IH Hnin.
  induction l as [|b l IH]; intros o' Ho'; [done|]. cbn [fold_left]. apply IH.
  apply (proj2 (collects_add (λ _ _, True) vec b (v b) (vals b) I o' (λ _ _ _, I))), Ho'.
Qed.

(** Every series collected describes the envelope. *)
Lemma observed_describes dropped : map_Forall (describes env) (ob_next (observed env dropped)).
Proof.
  unfold observed.
  apply (collects_loop (describes env) (observe_result ref)); [intros r; apply collects_result|].
  apply collects_finish, collects_start, collects_tallies, collects_phase. apply map_Forall_empty.
Qed.

(** The phase and the tally of every known phase are among them. *)
Lemma observed_known dropped p :
  p ∈ knownPhases →
  is_Some (ob_next (observed env dropped) !! series_key vecRunPhase p) ∧
  is_Some (ob_next (observed env dropped) !! series_key vecRunTests p).
Proof.
  intros Hp. unfold observed.
  set (o1 := observe_phase _ _ _ _). set (o2 := observe_tallies _ _ o1).
  assert (map_Forall (describes env) (ob_next o1)) as H1 by (apply collects_phase, map_Forall_empty).
  destruct (collects_tallies o1 H1) as [H2 K2]. fold o2 in H2, K2.
  destruct (collects_start o2 H2) as [H3 K3]. destruct (collects_finish _ H3) as [H4 K4].
  assert (∀ k, is_Some (ob_next o2 !! k) → is_Some (ob_next (loop (observe_result ref) (e_Results env)
    (observe_finish ref env (observe_start ref env o2))) !! k)) as K.
  { intros k Hk. apply (collects_loop (describes env) (observe_result ref));
      [intros r; apply collects_result|exact H4|]. by apply K4, K3. }
  split; apply K.
  - apply K2. unfold o1, observe_phase.
    destruct (loop_adds vecRunPhase (λ p, if String.eqb p (e_Phase env) then fone else fzero)
      (λ p, ref ++ [rf_Profile (e_Run env); p]) knownPhases p (MkObserving ∅ dropped) Hp) as [v Hv].
    destruct (_ && _); [|by exists v]. cbn [add ob_next].
    destruct (decide (series_key vecRunPhase (e_Phase env) = series_key vecRunPhase p)) as [->|Hne];
      [by rewrite lookup_insert_eq|rewrite lookup_insert_ne by done; by exists v].
  - apply (loop_adds vecRunTests (λ p, float_of_Z (phase_count p (e_Results env))) (λ p, ref ++ [p])).
    apply elem_of_app. by left.
Qed.
End describing.

(** ** What is scraped *)

(** Which series a gauge belongs to, read off its labels. *)
Definition identity (l : str * list str) : str :=
  match l.2 with
  | _ :: _ :: rest =>
      if String.eqb l.1 vecRunPhase then match rest with [_; p] => p | _ => "" end
      else if String.eqb l.1 vecRunTests then match rest with [p] => p | _ => "" end
      else if String.eqb l.1 vecTestPhase then
        match rest with [t; _; _; n; _] => t +:+ Pods.nul +:+ n | _ => "" end
      else if String.eqb l.1 vecTestMetric then
        match rest with [t; _; _; n; k; _; _] => t +:+ Pods.nul +:+ n +:+ Pods.nul +:+ k | _ => "" end
      else ""
  | _ => ""
  end.

Definition sample_key (l : str * list str) : str := series_key l.1 (identity l).

(** A series of the run [id]. *)
Definition sample_ok (id : RunID) (key : str) (s : sample) : Prop :=
  key = sample_key (label s) ∧ Pods.nul_free (sa_vec s) ∧
  ∃ rest, sa_vals s = ri_Namespace id :: ri_Name id :: rest.

Lemma describes_ok env key s :
  describes env key s → sample_ok (MkRunID (rf_Namespace (e_Run env)) (rf_Name (e_Run env))) key s.
Proof. destruct 1; (split_and!; [reflexivity..|by eexists]). Qed.

(** What the series of one run say of a gauge. *)
Definition shows (m : gmap str sample) (l : str * list str) : option float64 :=
  s ← m !! sample_key l; if bool_decide (label s = l) then Some (sa_val s) else None.

(** What the exporter last published of a gauge, for the runs it tracks. *)
Definition published (e : Exporter) (l : str * list str) : option float64 :=
  match l.2 with
  | ns :: name :: _ => st ← ex_runs e !! MkRunID ns name; shows (rs_series st) l
  | _ => None
  end.

Definition keyed (m : gmap str sample) : Prop := map_Forall (λ key s, key = sample_key (label s)) m.

Lemma set_gauges_lookup next g l :
  keyed next →
  set_gauges next g !! l = match shows next l with Some v => Some v | None => g !! l end.
Proof.
  unfold set_gauges. revert l. apply (map_fold_weak_ind (λ r next, ∀ l, keyed next →
    r !! l = match shows next l with Some v => Some v | None => g !! l end)).
  - intros l _. unfold shows. by rewrite lookup_empty.
  - intros key s m r Hk IH l [Hkey Hm]%map_Forall_insert; [|done]. unfold shows.
    destruct (decide (label s = l)) as [<-|Hne].
    + rewrite lookup_insert_eq, <-Hkey, lookup_insert_eq. cbn. by rewrite bool_decide_true.
    + rewrite lookup_insert_ne, (IH l Hm) by done. unfold shows.
      destruct (decide (key = sample_key l)) as [->|Hne'].
      * rewrite lookup_insert_eq, Hk. cbn. by rewrite bool_decide_false.
      * by rewrite lookup_insert_ne.
Qed.

(** Deleting the gauges of the series [keep] does not save. *)
Lemma delete_gauges_lookup (keep : str → sample → bool) (prev : gmap str sample)
    (g : gmap (str * list str) float64) l :
  keyed prev →
  map_fold (λ key s g, if keep key s then g else delete (label s) g) g prev !! l =
  match prev !! sample_key l with
  | Some s => if bool_decide (label s = l) && negb (keep (sample_key l) s) then None else g !! l
  | None => g !! l
  end.
Proof.
  revert l. apply (map_fold_weak_ind (λ (r : gmap (str * list str) float64) prev, ∀ l, keyed prev →
    r !! l = match prev !! sample_key l with
             | Some s => if bool_decide (label s = l) && negb (keep (sample_key l) s) then None else g !! l
             | None => g !! l
             end)).
  - intros l _. by rewrite lookup_empty.
  - intros key s m r Hk IH l [Hkey Hm]%map_Forall_insert; [|done]. specialize (IH l Hm).
    destruct (decide (key = sample_key l)) as [->|Hne].
    + rewrite lookup_insert_eq. rewrite Hk in IH. case_bool_decide as Hl; cbn [andb].
      * destruct (keep _ s); [done|]. by rewrite Hl, lookup_delete_eq.
      * destruct (keep _ s); [done|]. by rewrite lookup_delete_ne.
    + rewrite lookup_insert_ne by done. destruct (keep key s); [done|].
      rewrite lookup_delete_ne; [done|]. intros Hl. apply Hne. by rewrite Hkey, Hl.
Qed.

(** A key determines the series of a phase, or of a tally. *)
Lemma known_phase env p s :
  describes env (series_key vecRunPhase p) s →
  s = MkSample vecRunPhase [rf_Namespace (e_Run env); rf_Name (e_Run env); rf_Profile (e_Run env); p]
        (if String.eqb p (e_Phase env) then fone else fzero).
Proof. intros H. inversion H; simplify_eq/=; try discriminate; done. Qed.

Lemma known_tally env p s :
  describes env (series_key vecRunTests p) s →
  s = MkSample vecRunTests [rf_Namespace (e_Run env); rf_Name (e_Run env); p]
        (float_of_Z (phase_count p (e_Results env))).
Proof. intros H. inversion H; simplify_eq/=; try discriminate; done. Qed.

Definition series_ok (id : RunID) (m : gmap str sample) : Prop := map_Forall (sample_ok id) m.

Lemma series_keyed id m : series_ok id m → keyed m.
Proof. intros H key s Hs. by destruct (H key s Hs). Qed.

(** The run a gauge is labelled with. *)
Definition run_of (l : str * list str) : option RunID :=
  match l.2 with ns :: name :: _ => Some (MkRunID ns name) | _ => None end.

Lemma published_run e l :
  published e l = id ← run_of l; st ← ex_runs e !! id; shows (rs_series st) l.
Proof. unfold published, run_of. by destruct l as [vec [|ns [|name rest]]]. Qed.

Lemma series_run id m key s : series_ok id m → m !! key = Some s → run_of (label s) = Some id.
Proof.
  intros H Hs. destruct (H key s Hs) as (_ & _ & rest & Hv). unfold run_of, label. cbn [snd].
  rewrite Hv. by destruct id.
Qed.

Lemma shows_Some m l v :
  shows m l = Some v ↔ ∃ s, m !! sample_key l = Some s ∧ label s = l ∧ sa_val s = v.
Proof.
  unfold shows. destruct (m !! sample_key l) as [s|] eqn:E; cbn; [|naive_solver].
  case_bool_decide; naive_solver.
Qed.

Lemma shows_other id m l : series_ok id m → run_of l ≠ Some id → shows m l = None.
Proof.
  intros H Hl. destruct (shows m l) as [v|] eqn:E; [|done].
  apply shows_Some in E as (s & Hs & <- & _). by rewrite (series_run id m _ s H Hs) in Hl.
Qed.

(** Two samples of a run under one key are in the same vector. *)
Lemma same_vec id m m' l s s' :
  series_ok id m → series_ok id m' → m !! sample_key l = Some s → m' !! sample_key l = Some s' →
  sa_vec s = sa_vec s'.
Proof.
  intros H H' Hs Hs'. destruct (H _ _ Hs) as (Hk & Hn & _), (H' _ _ Hs') as (Hk' & Hn' & _).
  rewrite Hk in Hk'. unfold sample_key, series_key in Hk'. by apply Pods.nul_split in Hk' as [Hv _].
Qed.

(** After a replacement of [prev] by [next], the run's gauges are those of [next]. *)
Lemma replaced_lookup id prev next g l :
  series_ok id prev → series_ok id next →
  delete_stale prev next (set_gauges next g) !! l =
  match shows next l, shows prev l with
  | Some v, _ => Some v
  | None, Some _ => None
  | None, None => g !! l
  end.
Proof.
  intros Hp Hn. unfold delete_stale.
  rewrite (delete_gauges_lookup (λ key s, match next !! key with
    | Some cur => equalVals (sa_vals s) (sa_vals cur) | None => false end)) by by eapply series_keyed.
  rewrite set_gauges_lookup by by eapply series_keyed.
  destruct (prev !! sample_key l) as [s|] eqn:Es; unfold shows; rewrite Es; cbn [mbind option_bind];
    [|by destruct (next !! _ ≫= _)].
  destruct (next !! sample_key l) as [cur|] eqn:Ec; cbn [mbind option_bind].
  - pose proof (same_vec id prev next l s cur Hp Hn Es Ec) as Hv. unfold equalVals.
    destruct (bool_decide_reflect (label s = l)) as [Hl|Hl]; cbn [andb]; [|by case_bool_decide].
    destruct (bool_decide_reflect (sa_vals s = sa_vals cur)) as [He|He]; cbn [negb].
    + assert (label cur = l) as Hcl by (rewrite <-Hl; unfold label; congruence).
      by rewrite (bool_decide_true (label cur = l)).
    + rewrite (bool_decide_false (label cur = l)); [done|]. intros Hcl. apply He.
      unfold label in *. congruence.
  - destruct (bool_decide_reflect (label s = l)) as [Hl|Hl]; done.
Qed.

(** The series remembered are those of their runs, and what is scraped is what was last
    published for the runs that are tracked. *)
Definition exporter_ok (e : Exporter) : Prop :=
  (∀ id st, ex_runs e !! id = Some st → series_ok id (rs_series st)) ∧
  ∀ l, ex_gauges e !! l = published e l.

Lemma applyLocked_ok now id next e :
  series_ok id next → exporter_ok e → exporter_ok (applyLocked now id next e).
Proof.
  intros Hn [Hs Hg]. set (prev := default ∅ (rs_series <$> ex_runs e !! id)).
  assert (series_ok id prev) as Hp.
  { unfold prev. destruct (ex_runs e !! id) as [st|] eqn:E; [by apply Hs|apply map_Forall_empty]. }
  split; cbn [applyLocked ex_runs ex_gauges].
  - intros id' st. destruct (decide (id = id')) as [<-|Hne].
    + rewrite lookup_insert_eq. by intros [= <-].
    + rewrite lookup_insert_ne by done. apply Hs.
  - intros l. fold prev. rewrite (replaced_lookup id) by done. rewrite Hg, !published_run.
    destruct (decide (run_of l = Some id)) as [Hl|Hl].
    + rewrite Hl. cbn [applyLocked ex_runs mbind option_bind]. rewrite lookup_insert_eq. cbn [mbind option_bind rs_series].
      unfold prev. destruct (shows next l); [done|].
      destruct (ex_runs e !! id) as [st|]; cbn; [by destruct (shows (rs_series st) l)|].
      unfold shows. by rewrite lookup_empty.
    + rewrite (shows_other id next), (shows_other id prev) by done.
      destruct (run_of l) as [id'|]; [|done]. cbn [applyLocked ex_runs mbind option_bind].
      by rewrite lookup_insert_ne by congruence.
Qed.

Lemma forgetLocked_ok id e : exporter_ok e → exporter_ok (forgetLocked id e).
Proof.
  intros [Hs Hg]. unfold forgetLocked. destruct (ex_runs e !! id) as [st|] eqn:E; [|by split].
  pose proof (Hs id st E) as Hst. split; cbn [ex_runs ex_gauges].
  - intros id' st' [_ H]%lookup_delete_Some. by apply Hs.
  - intros l. etrans; [apply (delete_gauges_lookup (λ _ _, false)); by eapply series_keyed|].
    rewrite Hg, !published_run. cbn [ex_runs negb]. destruct (decide (run_of l = Some id)) as [Hl|Hl].
    + rewrite Hl. cbn [mbind option_bind]. rewrite E, lookup_delete_eq. cbn [mbind option_bind].
      unfold shows. destruct (rs_series st !! sample_key l); cbn; [|done]. by case_bool_decide.
    + transitivity (id' ← run_of l; st ← ex_runs e !! id'; shows (rs_series st) l).
      * destruct (rs_series st !! sample_key l) as [s|] eqn:Es; [|done].
        rewrite bool_decide_false; [done|]. intros <-. by rewrite (series_run id _ _ s Hst Es) in Hl.
      * destruct (run_of l) as [id'|]; [|done]. cbn. by rewrite lookup_delete_ne by congruence.
Qed.

Lemma counted_ok e e' :
  ex_runs e' = ex_runs e → ex_gauges e' = ex_gauges e → exporter_ok e → exporter_ok e'.
Proof.
  intros Hr Hg [H1 H2]. split.
  - by rewrite Hr.
  - intros l. by rewrite Hg, H2, !published_run, Hr.
Qed.

Lemma forgetLocked_runs id e : ex_runs (forgetLocked id e) = delete id (ex_runs e).
Proof.
  unfold forgetLocked. destruct (ex_runs e !! id) eqn:E; [done|]. by rewrite delete_id.
Qed.

Lemma forgetLocked_max id e : ex_maxRuns (forgetLocked id e) = ex_maxRuns e.
Proof. unfold forgetLocked. by case_match. Qed.

Lemma oldest_run_elem l id : oldest_run l = Some id → id ∈ l.*1.
Proof.
  unfold oldest_run. 
  set (f := λ out '(id, st), match out with None => Some (id, st) | Some (_, st') => _ end).
  assert (∀ l out p, fold_left f l out = Some p → p ∈ l ∨ out = Some p) as H.
  { clear. induction l as [|[id st] l IH]; intros out p; cbn [fold_left]; [by right|].
    intros [Hin|Hf]%IH; [left; by right|]. unfold f in Hf.
    destruct out as [[id' st']|]; [destruct (_ <? _)%Z|];
      [injection Hf as <-; left; left|by right|injection Hf as <-; left; left]. }
  destruct (fold_left f l None) as [p|] eqn:E; [|done]. cbn. intros [= <-].
  destruct (H l None p E) as [Hin|]; [|done]. by apply list_elem_of_fmap_2.
Qed.

Lemma oldest_run_cons p l : is_Some (oldest_run (p :: l)).
Proof.
  unfold oldest_run. destruct p as [id st]. cbn [fold_left].
  generalize (id, st) at 1. intros q. apply fmap_is_Some. revert q. clear.
  induction l as [|[id st] l IH]; intros [id' st']; cbn [fold_left]; [by eexists|].
  destruct (_ <? _)%Z; apply IH.
Qed.

Section operations.
Context `{RunsOrder}.

Lemma evict_ok turns e : exporter_ok e → exporter_ok (evict turns e).
Proof.
  revert e. induction turns as [|turns IH]; intros e He; cbn [evict]; destruct (_ <? _)%Z; try done.
  destruct (oldest_run _) as [id|]; [|done]. apply IH.
  by eapply (counted_ok (forgetLocked id e)), forgetLocked_ok.
Qed.

(** The loop ends within the limit: every turn forgets a run. *)
Lemma evict_bound turns e :
  (0 <= ex_maxRuns e)%Z → (size (ex_runs e) <= turns)%nat →
  (Z.of_nat (size (ex_runs (evict turns e))) <= ex_maxRuns e)%Z ∧
  ex_maxRuns (evict turns e) = ex_maxRuns e.
Proof.
  revert e. induction turns as [|turns IH]; intros e Hm Hs; cbn [evict];
    destruct (Z.ltb_spec (ex_maxRuns e) (Z.of_nat (size (ex_runs e)))) as [Hlt|Hge]; try (split; [lia|done]).
  destruct (oldest_run (runs_order (ex_runs e))) as [id|] eqn:E.
  - apply oldest_run_elem in E. rewrite runs_order_perm, list_elem_of_fmap in E.
    destruct E as ([id' st] & -> & Hin). apply elem_of_map_to_list in Hin. cbn [fst].
    assert (size (ex_runs e) = S (size (delete id' (ex_runs e)))) as Hsize
      by (rewrite map_size_delete_Some by eauto; lia).
    destruct (IH (count_evicted (forgetLocked id' e))) as [H1 H2]; cbn [count_evicted ex_runs ex_maxRuns];
      rewrite ?forgetLocked_max, ?forgetLocked_runs; [done|lia|].
    cbn [count_evicted ex_maxRuns] in H1, H2. rewrite forgetLocked_max in H1, H2. by split.
  - exfalso. destruct (runs_order (ex_runs e)) as [|p l] eqn:El.
    + assert (size (ex_runs e) = 0)%nat; [|lia].
      rewrite <-length_map_to_list, <-(runs_order_perm (ex_runs e)), El. done.
    + destruct (oldest_run_cons p l) as [id Hid]. congruence.
Qed.

(** ** The life of an exporter *)
Inductive operation :=
  | Observed (now : Z) (env : Envelope)
  | Forgot (namespace name : str)
  | Swept (live : list RunID)
  | Limited (n : Z).

Definition operate (e : Exporter) (op : operation) : Exporter :=
  match op with
  | Observed now env => Observe now env e
  | Forgot namespace name => Forget namespace name e
  | Swept live => (Sweep live e).1
  | Limited n => SetMaxRuns n e
  end.

(** Within its limit, and counted. *)
Definition bounded (e : Exporter) : Prop :=
  (1 <= ex_maxRuns e)%Z ∧ (Z.of_nat (size (ex_runs e)) <= ex_maxRuns e)%Z ∧
  ex_runsTracked e = Z.of_nat (size (ex_runs e)).

Definition healthy (e : Exporter) : Prop := exporter_ok e ∧ bounded e.

Lemma tracked_evicted e :
  (1 <= ex_maxRuns e)%Z → exporter_ok e → healthy (tracked_now (evictLocked e)).
Proof.
  intros Hm He. destruct (evict_bound (size (ex_runs e)) e) as [H1 H2]; [lia|done|].
  split; [by eapply counted_ok, evict_ok|]. unfold evictLocked in *.
  split_and!; cbn [tracked_now ex_maxRuns ex_runs ex_runsTracked]; [by rewrite H2|by rewrite H2|done].
Qed.

Lemma size_delete_le (m : gmap RunID runState) id : (size (delete id m) <= size m)%nat.
Proof. rewrite map_size_delete. destruct (m !! id); [apply Nat.le_pred_l|done]. Qed.

Lemma forget_all_healthy l e :
  exporter_ok e → (1 <= ex_maxRuns e)%Z → (Z.of_nat (size (ex_runs e)) <= ex_maxRuns e)%Z →
  healthy (tracked_now (fold_left (λ e id, forgetLocked id e) l e)).
Proof.
  revert e. induction l as [|id l IH]; intros e He Hm Hs; cbn [fold_left].
  - split; [by eapply counted_ok|]. by split_and!.
  - pose proof (size_delete_le (ex_runs e) id).
    apply IH; rewrite ?forgetLocked_max, ?forgetLocked_runs; [by apply forgetLocked_ok|done|lia].
Qed.

Lemma operate_healthy e op : healthy e → healthy (operate e op).
Proof.
  intros (He & Hm & Hs & Ht). destruct op as [now env|ns name|live|n]; cbn [operate].
  - unfold Observe. destruct (String.eqb _ ""); [by split|]. apply tracked_evicted; [done|].
    apply applyLocked_ok; [|by eapply counted_ok].
    intros key s Hk. by apply describes_ok, (observed_describes env (ex_metricsDropped e)).
  - by apply (forget_all_healthy [MkRunID ns name]).
  - by apply forget_all_healthy.
  - unfold SetMaxRuns. destruct (Z.ltb_spec n 1); [by split|]. apply tracked_evicted; [done|].
    by eapply counted_ok.
Qed.

Definition history (ops : list operation) : Exporter := fold_left operate ops New.

Lemma healthy_history ops : healthy (history ops).
Proof.
  assert (healthy New) as H0.
  { split; [split; [by intros id st Hst; cbn in Hst; rewrite lookup_empty in Hst|]|by split_and!; vm_compute].
    intros l. rewrite published_run. by destruct (run_of l). }
  unfold history. revert H0. generalize New. induction ops as [|op ops IH]; intros e He; [done|].
  by apply IH, operate_healthy.
Qed.

Lemma evict_keeps turns e id st : ex_runs (evict turns e) !! id = Some st → ex_runs e !! id = Some st.
Proof.
  revert e. induction turns as [|turns IH]; intros e; cbn [evict]; destruct (_ <? _)%Z; try done.
  destruct (oldest_run _) as [id'|]; [|done]. intros Hin%IH. cbn [count_evicted ex_runs] in Hin.
  rewrite forgetLocked_runs in Hin. by apply lookup_delete_Some in Hin as [_ Hin].
Qed.

(** The gauges of a run just observed. *)
Lemma observed_gauges now env e id l v :
  healthy e → rf_Name (e_Run env) ≠ "" → id = MkRunID (rf_Namespace (e_Run env)) (rf_Name (e_Run env)) →
  is_Some (ex_runs (Observe now env e) !! id) → run_of l = Some id →
  ex_gauges (Observe now env e) !! l = Some v ↔
  shows (ob_next (observed env (ex_metricsDropped e))) l = Some v.
Proof.
  intros He Hname Hid [st Hst] Hl.
  destruct (operate_healthy e (Observed now env) He) as [[_ Hg] _]. cbn [operate] in Hg.
  rewrite Hg, published_run, Hl. cbn [mbind option_bind]. rewrite Hst. cbn [mbind option_bind].
  apply String.eqb_neq in Hname. unfold Observe in Hst. rewrite Hname in Hst.
  apply evict_keeps in Hst. cbn [applyLocked ex_runs] in Hst. rewrite Hid, lookup_insert_eq in Hst.
  by injection Hst as <-.
Qed.

(** C27: What is scraped is what was last delivered. After any sequence of observations,
    forgettings, sweeps and changes of the limit, the gauges are exactly the series last
    published for the runs that are tracked, so that no run and no state a run has left
    lingers, and no more runs are tracked than the limit. An observed run, unless it was
    itself evicted, is shown by nothing but its envelope's series, and for every known phase
    by whether it is in it and by the number of its results in it. *)
Theorem exporter_coherent (ops : list operation) :
  let e := history ops in
  (∀ l, ex_gauges e !! l = published e l) ∧ bounded e ∧
  ∀ now env, let id := MkRunID (rf_Namespace (e_Run env)) (rf_Name (e_Run env)) in
    let e' := Observe now env e in
    rf_Name (e_Run env) ≠ "" → is_Some (ex_runs e' !! id) →
    (∀ l v, run_of l = Some id → ex_gauges e' !! l = Some v →
       ∃ s, describes env (sample_key l) s ∧ label s = l ∧ sa_val s = v) ∧
    ∀ p, p ∈ knownPhases →
      ex_gauges e' !! (vecRunTests, [ri_Namespace id; ri_Name id; p]) =
        Some (float_of_Z (phase_count p (e_Results env))) ∧
      ex_gauges e' !! (vecRunPhase, [ri_Namespace id; ri_Name id; rf_Profile (e_Run env); p]) =
        Some (if String.eqb p (e_Phase env) then fone else fzero).
Proof.
  destruct (healthy_history ops) as [[_ Hg] Hb].
  pose proof (healthy_history ops) as He. intros e. split_and!; [exact Hg|apply Hb..|].
  intros now env id e' Hname Hin.
  pose proof (observed_describes env (ex_metricsDropped e)) as Hd.
  split.
  - intros l v Hl Hv. eapply observed_gauges, shows_Some in Hv as (s & Hk & Hsl & Hsv); try done.
    exists s. split_and!; [|done..]. by apply Hd.
  - intros p Hp. destruct (observed_known env (ex_metricsDropped e) p Hp) as [[s1 H1] [s2 H2]].
    split.
    + eapply observed_gauges; [done..|]. apply shows_Some. exists s2.
      specialize (Hd _ _ H2). split; [exact H2|]. apply known_tally in Hd. by rewrite Hd.
    + eapply observed_gauges; [done..|]. apply shows_Some. exists s1.
      specialize (Hd _ _ H1). split; [exact H1|]. apply known_phase in Hd. by rewrite Hd.
Qed.
End operations.

(** ** Witness *)
Definition shown_envelope : Envelope :=
  @delivery_envelope PlanStore.example_codec example_binary
    (Attempt.completeAttempt 7 (Pods.named_run "run") Attempt.example_test ["node-a"] 1 "pod" None
       Attempt.passing_result).1 ReasonTestCompleted "gemm/node-a" 7.

Lemma exporter_coherent_witness :
  let e := Observe (H := map_order) 7 shown_envelope New in
  ex_gauges e !! (vecRunTests, ["ns"; "run"; "Passed"]) = Some fone ∧
  ex_gauges e !! (vecRunPhase, ["ns"; "run"; "p"; "Passed"]) = Some fzero ∧
  ex_gauges e !! (vecTestPhase, ["ns"; "run"; "gemm"; "gemm-sweep"; "Node"; "node-a"; "Passed"]) = Some fone ∧
  ex_metricsDropped e = {[dropUnregistered := 1%Z]}.
Proof.
  destruct (@exporter_coherent map_order []) as (_ & _ & H).
  destruct (H 7%Z shown_envelope) as [_ Hp]; [discriminate|vm_compute; eexists; reflexivity|].
  destruct (Hp "Passed") as [H1 H2]; [do 2 right; left|].
  split; [exact H1|]. split; [exact H2|]. split; vm_compute; reflexivity.
Defined.
