(* ===== verification/Sink.v ===== *)
(** * Senders (internal/sink: sink.go, webhook.go, configmap.go, build.go)

    How an envelope reaches its destination: the retry loop over a deliverer, under a policy
    and a context that ends at a deadline, and the three destinations a BurnInSink can name.
    A deliverer acts on a clock, in nanoseconds, and on a world of its own. *)

From S2P Require Import Prelude GoStrings GoFloat GoTime Contract Registry Api Effects World Artifacts.
From S2P Require Import Pods PlanStore Admission Attempt Engine Envelope Exporter.
From Stdlib Require Import SpecFloat.
Open Scope stdpp_scope.

(** ** Errors *)
(** An [error] of a delivery: whether a [PermanentError] is in its chain, and its text. *)
Record send_error := MkSendError { se_permanent : bool; se_text : str }.

Definition Permanent (e : send_error) : send_error := MkSendError true (se_text e).
Definition IsPermanent (e : send_error) : bool := se_permanent e.
Definition plain (text : str) : send_error := MkSendError false text.

(** [fmt.Errorf(prefix + "%w" + suffix, err)] *)
Definition wrapped (prefix : str) (e : send_error) (suffix : str) : send_error :=
  MkSendError (se_permanent e) (prefix +:+ se_text e +:+ suffix).

(** ** The policy *)
Record RetryPolicy := MkPolicy { po_MaxAttempts : Z; po_Base : Z; po_Max : Z; po_Jitter : bool }.

Definition DefaultRetryPolicy : RetryPolicy := MkPolicy 6 (2 * second) (2 * minute) true.

Definition withDefaults (p : RetryPolicy) : RetryPolicy :=
  MkPolicy (if (po_MaxAttempts p <=? 0)%Z then po_MaxAttempts DefaultRetryPolicy else po_MaxAttempts p)
    (if (po_Base p <=? 0)%Z then po_Base DefaultRetryPolicy else po_Base p)
    (if (po_Max p <=? 0)%Z then po_Max DefaultRetryPolicy else po_Max p)
    (po_Jitter p).

(** The reconciler's own (deliver.go). *)
Definition deliveryTimeout : Z := (15 * second)%Z.
Definition deliverRetry : RetryPolicy := MkPolicy 2 second (2 * second) false.

Fixpoint double_up (times : nat) (max d : Z) : Z :=
  match times with
  | O => d
  | S times => let d := i64 (d * 2) in if (max <=? d)%Z then max else double_up times max d
  end.

(** [time.Duration(f)]: towards zero. *)
Definition Duration_of (f : float64) : Z :=
  match f with
  | S754_finite s m e =>
      let n := if (0 <=? e)%Z then (Z.pos m * 2 ^ e)%Z else (Z.pos m / 2 ^ (- e))%Z in
      if s then (- n)%Z else n
  | _ => 0%Z
  end.

(** An interval moved by up to a quarter; [u] is the draw of [rnd.Float64()]. *)
Definition jittered (u : float64) (d : Z) : Z :=
  let delta := fmul (float_of_Z d) (round_decimal false 25 (-2)) in
  let d := Duration_of (fadd (float_of_Z d) (fmul (fsub (fmul u (float_of_Z 2)) fone) delta)) in
  if (d <? 0)%Z then 0%Z else d.

(** [backoff] before the attempt; [rnd] is the next draw, if there is a source. *)
Definition backoff (p : RetryPolicy) (attempt : Z) (rnd : option float64) : Z :=
  let d := double_up (Z.to_nat (attempt - 2)) (po_Max p) (po_Base p) in
  match rnd with
  | Some u => if po_Jitter p then jittered u d else d
  | None => d
  end.

(** ** Sending *)
Section send.
Context `{RangeOrder} {W : Type}.

(** The clock, and the world a deliverer acts on. *)
Abbreviation timed := (Z * W)%type.

Record Deliverer := MkDeliverer {
  Deliver : Envelope → timed → option send_error * timed;
  Describe : str;
}.

(** When the context ends and what it then says, and what the source of randomness gives
    before each attempt. *)
Context (deadline : Z) (ended : str) (draws : Z → option float64).

(** [ctx.Err()] *)
Definition ctxErr (s : timed) : option str :=
  if (deadline <=? s.1)%Z then Some ended else None.

(** [sleepCtx]: the timer, or the end of the context if it comes first. *)
Definition sleepCtx (d : Z) (s : timed) : option str * timed :=
  if (d <=? 0)%Z then (None, s)
  else if (s.1 + d <? deadline)%Z then (None, (s.1 + d, s.2)%Z)
  else (Some ended, (Z.max s.1 deadline, s.2)).

Section loop.
Context (d : Deliverer) (p : RetryPolicy) (env : Envelope).

Definition gave_up (last : option send_error) : send_error :=
  wrapped ("delivery to " +:+ Describe d +:+ " failed after " +:+ Itoa (po_MaxAttempts p) +:+
           " attempts: ") (default (plain "%!w(<nil>)") last) "".

Definition waited (attempt : Z) (s : timed) : option str * timed :=
  if (1 <? attempt)%Z then sleepCtx (backoff p attempt (draws attempt)) s else (None, s).

(** The loop of [Send], with the attempts that are left. *)
Fixpoint send_loop (tries : nat) (attempt : Z) (last : option send_error) (s : timed)
    : option send_error * timed :=
  match tries with
  | O => (Some (gave_up last), s)
  | S tries =>
      let '(w, s) := waited attempt s in
      match w with
      | Some err =>
          (Some (plain ("delivery to " +:+ Describe d +:+ " abandoned after " +:+ Itoa (attempt - 1) +:+
             " attempt(s): " +:+ err +:+ " (last error: " +:+ default "<nil>" (se_text <$> last) +:+ ")")), s)
      | None =>
          let '(r, s) := Deliver d env s in
          match r with
          | None => (None, s)
          | Some e =>
              if IsPermanent e
              then (Some (wrapped ("delivery to " +:+ Describe d +:+ " failed permanently: ") e ""), s)
              else
                match ctxErr s with
                | Some err =>
                    (Some (plain ("delivery to " +:+ Describe d +:+ " abandoned: " +:+ err +:+
                       " (last error: " +:+ se_text e +:+ ")")), s)
                | None => send_loop tries (attempt + 1) (Some e) s
                end
          end
      end
  end.
End loop.

(** [Sender.Send] *)
Definition Send (d : Deliverer) (policy : RetryPolicy) (env : Envelope) (s : timed)
    : option send_error * timed :=
  match Validate env with
  | Some e => (Some (Permanent (plain (ValidationError_string e))), s)
  | None =>
      let p := withDefaults policy in send_loop d p env (Z.to_nat (po_MaxAttempts p)) 1 None s
  end.
End send.
Arguments Deliverer W : clear implicits.

(** ** Webhooks *)
Record HttpRequest := MkRequest {
  rq_Method : str; rq_URL : str; rq_Headers : list (str * str); rq_Body : str;
}.

Record HttpResponse := MkResponse { rs_StatusCode : Z; rs_Status : str; rs_Body : str }.

(** encoding/json on an envelope, net/http's check of a URL, and one exchange over the
    network, each with its error. *)
Class Wire (W : Type) := {
  Marshal : Envelope → str + str;
  NewRequest : str → option str;
  Do : HttpRequest → Z * W → (HttpResponse + str) * (Z * W);
}.

Definition IdempotencyKeyHeader : str := "Idempotency-Key".

Record Webhook := MkWebhook { wh_URL : str; wh_Token : str }.

Definition webhook_request (w : Webhook) (env : Envelope) (body : str) : HttpRequest :=
  MkRequest "POST" (wh_URL w)
    ([("Content-Type", "application/json"); (IdempotencyKeyHeader, e_DeliveryID env)] ++
     (if String.eqb (wh_Token w) "" then [] else [("Authorization", "Bearer " +:+ wh_Token w)])) body.

(** [take] of the body is what is quoted. *)
Definition snippetLimit : nat := 2048.

(** What a response means. *)
Definition webhook_answer (url : str) (r : HttpResponse) : option send_error :=
  let code := rs_StatusCode r in
  let said := rs_Status r +:+ ": " +:+ take snippetLimit (rs_Body r) in
  if (200 <=? code)%Z && (code <? 300)%Z then None
  else if (code =? 429)%Z || (code =? 408)%Z then Some (plain (url +:+ " returned " +:+ said))
  else if (400 <=? code)%Z && (code <? 500)%Z
  then Some (Permanent (plain (url +:+ " rejected the delivery with " +:+ said)))
  else Some (plain (url +:+ " returned " +:+ said)).

Definition webhook_deliver {W} `{Wire W} (w : Webhook) (env : Envelope) (s : Z * W)
    : option send_error * (Z * W) :=
  match Marshal env with
  | inr e => (Some (Permanent (plain ("encode envelope: " +:+ e))), s)
  | inl body =>
      match NewRequest (wh_URL w) with
      | Some e => (Some (Permanent (plain ("build request: " +:+ e))), s)
      | None =>
          let '(r, s) := Do (webhook_request w env body) s in
          match r with
          | inr e => (Some (plain ("post to " +:+ wh_URL w +:+ ": " +:+ e)), s)
          | inl resp => (webhook_answer (wh_URL w) resp, s)
          end
      end
  end.

Definition webhook_deliverer {W} `{Wire W} (w : Webhook) : Deliverer W :=
  MkDeliverer (webhook_deliver w) ("webhook " +:+ wh_URL w).

(** ** ConfigMaps *)
Definition maxConfigMapBytes : Z := (900 * 1024)%Z.

(** [dataSize] *)
Definition dataSize (data : gmap str str) : Z := entries_bytes data.

Section configmap.
Context (encode : Envelope → str + str) (namespace name : str).

Definition configmap_path : str := namespace +:+ "/" +:+ name.

Definition set_cm_Data (data : gmap str str) (cm : ConfigMap) : ConfigMap :=
  MkConfigMap data (cm_BinaryData cm).

(** What the error of a write is: of a fresh ConfigMap, or of one that was read. *)
Definition write_error (fresh : bool) (e : error) : send_error :=
  if fresh then
    if IsAlreadyExists e
    then plain ("configmap " +:+ configmap_path +:+ " was created concurrently, retrying as update")
    else plain ("create configmap " +:+ configmap_path +:+ ": " +:+ er_text e)
  else plain ("update configmap " +:+ configmap_path +:+ ": " +:+ er_text e).

Definition configmap_write (fresh : bool) (cm : ConfigMap) : M (option send_error) :=
  r ← try (writeConfigMap fresh name cm);
  mret match r with inl _ => None | inr e => Some (write_error fresh e) end.

(** [ConfigMap.Deliver] *)
Definition configmap_deliver (env : Envelope) : M (option send_error) :=
  match encode env with
  | inr e => mret (Some (Permanent (plain ("encode envelope: " +:+ e))))
  | inl body =>
      r ← try (read name (λ w, w_configmaps w !! name));
      match r with
      | inr e =>
          if IsNotFound e
          then configmap_write true (MkConfigMap {[e_DeliveryID env := body]} ∅)
          else mret (Some (plain ("get configmap " +:+ configmap_path +:+ ": " +:+ er_text e)))
      | inl cm =>
          if bool_decide (cm_Data cm !! e_DeliveryID env = Some body) then mret None
          else
            let data := <[e_DeliveryID env := body]> (cm_Data cm) in
            if (maxConfigMapBytes <? dataSize data)%Z
            then mret (Some (Permanent (plain ("configmap " +:+ configmap_path +:+ " would reach " +:+
                   Itoa (dataSize data) +:+ " bytes, over the " +:+ Itoa maxConfigMapBytes +:+
                   " limit; rotate or shard the sink"))))
            else configmap_write false (set_cm_Data data cm)
      end
  end.
End configmap.

(** ** Building a deliverer from a BurnInSink *)
Record SecretKeySelector := MkSecretKey { sk_Name : str; sk_Key : str }.
Record WebhookSink := MkWebhookSink {
  ws_URL : str; ws_TokenSecretRef : option SecretKeySelector; ws_InsecureSkipVerify : bool;
}.
Record ConfigMapSink := MkConfigMapSink { cs_Name : str }.

Definition SinkWebhook : str := "Webhook".
Definition SinkPrometheus : str := "Prometheus".
Definition SinkConfigMap : str := "ConfigMap".

Record BurnInSink := MkBurnInSink {
  bs_Namespace : str;
  bs_Name : str;
  bs_Type : str;
  bs_Webhook : option WebhookSink;
  bs_ConfigMap : option ConfigMapSink;
}.

(** What the operator's deliverers act on: the cluster, its secrets, and the exporter. *)
Record plant := MkPlant {
  pt_api : st;
  pt_secrets : gmap str (gmap str str);
  pt_metrics : Exporter;
}.

(** A handler's call on the cluster; [configmap_deliver] returns its errors. *)
Definition on_api (m : M (option send_error)) (s : Z * plant) : option send_error * (Z * plant) :=
  let '(r, api) := m (pt_api s.2) in
  (match r with inl e => e | inr e => Some (plain (er_text e)) end,
   (s.1, MkPlant api (pt_secrets s.2) (pt_metrics s.2))).

(** [Sink.Deliver] (internal/metrics/sink.go) *)
Definition prometheus_deliver `{RunsOrder} (env : Envelope) (s : Z * plant)
    : option send_error * (Z * plant) :=
  (None, (s.1, MkPlant (pt_api s.2) (pt_secrets s.2) (Observe s.1 env (pt_metrics s.2)))).

Definition token_error (namespace : str) (ref : SecretKeySelector) (what : str) : send_error :=
  Permanent (plain ("secret " +:+ namespace +:+ "/" +:+ sk_Name ref +:+ what)).

Definition resolveToken (secrets : gmap str (gmap str str)) (namespace : str)
    (ref : option SecretKeySelector) : M (str + send_error) :=
  match ref with
  | None => mret (inl "")
  | Some ref =>
      r ← try (read (sk_Name ref) (λ _, secrets !! sk_Name ref));
      mret match r with
           | inr e => inr (Permanent (plain ("read token secret " +:+ namespace +:+ "/" +:+ sk_Name ref +:+
                        ": " +:+ er_text e)))
           | inl data =>
               match data !! sk_Key ref with
               | None => inr (token_error namespace ref (" has no key " +:+ quote (sk_Key ref)))
               | Some v =>
                   if String.eqb v ""
                   then inr (token_error namespace ref (" key " +:+ quote (sk_Key ref) +:+ " is empty"))
                   else inl v
               end
           end
  end.

(** The timeout of one request. *)
Definition webhook_timeout (timeout : Z) : Z :=
  if (timeout <=? 0)%Z then (30 * second)%Z else timeout.

Section build.
Context `{RunsOrder} `{RangeOrder} (client : bool → Z → Wire plant) (encode : Envelope → str + str).

Definition sink_error (b : BurnInSink) (what : str) : send_error :=
  Permanent (plain ("sink " +:+ bs_Namespace b +:+ "/" +:+ bs_Name b +:+ what)).

(** [Build] *)
Definition Build (secrets : gmap str (gmap str str)) (b : BurnInSink) (timeout : Z)
    : M (Deliverer plant + send_error) :=
  if String.eqb (bs_Type b) SinkWebhook then
    match bs_Webhook b with
    | None => mret (inr (sink_error b " has type Webhook but no webhook config"))
    | Some w =>
        token ← resolveToken secrets (bs_Namespace b) (ws_TokenSecretRef w);
        mret match token with
             | inr e => inr e
             | inl token =>
                 inl (@webhook_deliverer _ (client (ws_InsecureSkipVerify w) (webhook_timeout timeout))
                        (MkWebhook (ws_URL w) token))
             end
    end
  else if String.eqb (bs_Type b) SinkConfigMap then
    mret match bs_ConfigMap b with
         | None => inr (sink_error b " has type ConfigMap but no configMap config")
         | Some c =>
             inl (MkDeliverer (λ env, on_api (configmap_deliver encode (bs_Namespace b) (cs_Name c) env))
                    ("configmap " +:+ configmap_path (bs_Namespace b) (cs_Name c)))
         end
  else if String.eqb (bs_Type b) SinkPrometheus then
    mret (inl (MkDeliverer prometheus_deliver
                 ("prometheus sink " +:+ bs_Namespace b +:+ "/" +:+ bs_Name b +:+
                  " (exposed on /metrics for scrape)")))
  else mret (inr (sink_error b (" has unknown type " +:+ quote (bs_Type b)))).

(** What one sink of a delivery answers: the sender is built and used. *)
Definition deliver_to (deadline : Z) (ended : str) (b : BurnInSink) (env : Envelope) (s : Z * plant)
    : option send_error * (Z * plant) :=
  let '(r, api) := Build (pt_secrets s.2) b deliveryTimeout (pt_api s.2) in
  let s := (s.1, MkPlant api (pt_secrets s.2) (pt_metrics s.2)) in
  match r with
  | inr e => (Some (plain (er_text e)), s)
  | inl (inr e) => (Some e, s)
  | inl (inl d) => Send deadline ended (λ _, None) d deliverRetry env s
  end.
End build.

(** ** Properties of the retry loop *)

(** A deliverer that keeps a log of what its attempts came to. *)
Definition logged {W} (d : Deliverer W) : Deliverer (W * list (option send_error)) :=
  MkDeliverer (λ env s,
    let '(r, (t, w)) := Deliver d env (s.1, s.2.1) in (r, (t, (w, s.2.2 ++ [r])))) (Describe d).

Definition retryable (x : option send_error) : Prop := ∃ e, x = Some e ∧ IsPermanent e = false.
Definition is_permanent (x : option send_error) : Prop := ∃ e, x = Some e ∧ IsPermanent e = true.

(** What the attempts of a loop say of its answer. *)
Record accounts (deadline : Z) (tries : nat) (r : option send_error) (t : Z)
    (attempts : list (option send_error)) : Prop := MkAccounts {
  ac_bound : (length attempts <= tries)%nat;
  ac_retried : ∀ i x, attempts !! i = Some x → (S i < length attempts)%nat → retryable x;
  ac_success : r = None ↔ last attempts = Some None;
  ac_permanent : is_permanent r ↔ ∃ x, last attempts = Some x ∧ is_permanent x;
  ac_spent : retryable r → length attempts = tries ∨ (deadline <= t)%Z;
}.

Lemma not_both x : retryable x → is_permanent x → False.
Proof. intros (e & -> & H) (e' & [= <-] & H'). congruence. Qed.

Lemma not_permanent e : IsPermanent e = false → ¬ is_permanent (Some e).
Proof. intros He (e' & [= <-] & H). congruence. Qed.

Lemma accounts_one deadline tries r x t :
  (x = None ↔ r = None) → (is_permanent x ↔ is_permanent r) →
  (retryable r → (deadline <= t)%Z) → accounts deadline (S tries) r t [x].
Proof.
  intros H1 H2 H3. split; cbn.
  - lia.
  - intros i y _ Hi. lia.
  - rewrite <-H1. naive_solver.
  - rewrite <-H2. naive_solver.
  - auto.
Qed.

Lemma accounts_cons deadline tries r t x l :
  retryable x → accounts deadline tries r t l → accounts deadline (S tries) r t (x :: l).
Proof.
  intros Hx [Hb Hr Hs Hp Hd]. split; cbn [length].
  - lia.
  - intros [|i] y; cbn; [by intros [= <-]|]. intros Hy Hi. apply (Hr i); [done|lia].
  - rewrite Hs. destruct l as [|y l]; [|done]. cbn. destruct Hx as (e & -> & _). by split.
  - rewrite Hp. destruct l as [|y l]; [|done]. cbn. split; [naive_solver|].
    intros (z & [= <-] & Hz). by destruct (not_both x).
  - intros [Hl|Hl]%Hd; [left; lia|by right].
Qed.

Lemma accounts_none deadline r t tries :
  retryable r → tries = 0%nat ∨ (deadline <= t)%Z → accounts deadline tries r t [].
Proof.
  intros (e & -> & He) Hend. split; cbn; [lia|done|done| |].
  - split; [|naive_solver]. intros Hp. by destruct (not_both (Some e)); [exists e|].
  - intros _. destruct Hend as [->|]; auto.
Qed.

Section loops.
Context {W : Type} (deadline : Z) (ended : str) (draws : Z → option float64).
Context (d : Deliverer W) (p : RetryPolicy) (env : Envelope).

Lemma waited_logged attempt t (w : W) (log : list (option send_error)) :
  ∃ t', (waited deadline ended draws p attempt (t, (w, log)) = (None, (t', (w, log)))) ∨
    (∃ e, waited deadline ended draws p attempt (t, (w, log)) = (Some e, (t', (w, log))) ∧
          (1 < attempt)%Z ∧ (deadline <= t')%Z).
Proof.
  unfold waited, sleepCtx. cbn [fst snd]. destruct (Z.ltb_spec 1 attempt); [|by eexists; left].
  destruct (_ <=? 0)%Z; [by eexists; left|]. destruct (_ <? deadline)%Z; [by eexists; left|].
  exists (Z.max t deadline). right. exists ended. split; [reflexivity|lia].
Qed.

Lemma send_loop_accounts tries attempt lst t (w : W) (log : list (option send_error)) :
  (∀ e, lst = Some e → IsPermanent e = false) → (tries = 0%nat → is_Some lst) →
  ∃ r t' w' new,
    send_loop deadline ended draws (logged d) p env tries attempt lst (t, (w, log)) =
      (r, (t', (w', log ++ new))) ∧
    accounts deadline tries r t' new ∧ ((attempt <= 1)%Z → tries ≠ 0%nat → new ≠ []).
Proof.
  revert attempt lst t w log. induction tries as [|tries IH]; intros attempt lst t w log Hlast Hsome.
  - destruct (Hsome eq_refl) as [e ->]. eexists _, _, _, []. rewrite app_nil_r.
    split_and!; [reflexivity| |done]. apply accounts_none; [|by left].
    eexists. split; [reflexivity|]. cbn. by apply Hlast.
  - cbn [send_loop]. destruct (waited_logged attempt t w log) as (t1 & [Hw|(e & Hw & Ha & Ht)]); rewrite Hw.
    + cbn [logged Deliver fst snd]. destruct (Deliver d env (t1, w)) as [[e|] [t2 w2]].
      * destruct (IsPermanent e) eqn:Ee.
        { eexists _, _, _, [_]. split_and!; [reflexivity| |done].
          apply accounts_one; [done| |].
          - by split; intros _; eexists; split; cbn.
          - intros Hr. destruct (not_both _ Hr). by eexists. }
        unfold ctxErr at 1. cbn [fst]. destruct (Z.leb_spec deadline t2).
        { eexists _, _, _, [_]. split_and!; [reflexivity| |done].
          apply accounts_one; [done| |done].
          by split; intros Hp; apply not_permanent in Hp. }
        destruct (IH (attempt + 1)%Z (Some e) t2 w2 (log ++ [Some e])) as (r & t' & w' & new & -> & Hacc & _);
          [by intros ? [= <-]|done|].
        exists r, t', w', (Some e :: new). rewrite <-app_assoc. split_and!; [done| |done].
        apply accounts_cons; [by eexists|done].
      * eexists _, _, _, [_]. split_and!; [reflexivity| |done]. by apply accounts_one; [| |intros (? & ? & _)].
    + eexists _, _, _, []. rewrite app_nil_r. split_and!; [reflexivity| |lia].
      apply accounts_none; [by eexists|by right].
Qed.
End loops.

(** Sending ends, and says what happened. An envelope that does not validate is never
    sent and fails for good. Any other is tried at least once and at most as often as the
    policy says; every attempt but the last failed in a way worth retrying, so nothing is
    sent again after an acceptance or a permanent failure; the send succeeds exactly when the
    last attempt was accepted, is permanent exactly when the last attempt was, and gives up
    on a retryable failure only when the attempts are used up or the context has ended. *)
Theorem Send_attempts `{RangeOrder} {W} (deadline : Z) (ended : str) (draws : Z → option float64)
    (d : Deliverer W) (policy : RetryPolicy) (env : Envelope) (t : Z) (w : W) :
  let most := Z.to_nat (po_MaxAttempts (withDefaults policy)) in
  let '(r, (t', (w', attempts))) := Send deadline ended draws (logged d) policy env (t, (w, [])) in
  (0 < most)%nat ∧
  match Validate env with
  | Some _ => is_permanent r ∧ attempts = [] ∧ t' = t ∧ w' = w
  | None => attempts ≠ [] ∧ accounts deadline most r t' attempts
  end.
Proof.
  set (most := Z.to_nat _). assert (0 < most)%nat as Hmost.
  { unfold most, withDefaults. cbn [po_MaxAttempts].
    destruct (Z.leb_spec (po_MaxAttempts policy) 0); cbn; lia. }
  unfold Send. destruct (Validate env) as [e|].
  - split; [done|]. split_and!; [by eexists|done..].
  - fold most. destruct (send_loop_accounts deadline ended draws d (withDefaults policy) env most 1 None t w [])
      as (r & t' & w' & new & -> & Hacc & Hne); [done|lia|]. cbn. split; [done|].
    split; [apply Hne; lia|exact Hacc].
Qed.

(** *** Intervals *)
Lemma double_up_spec times max d :
  (0 < d <= max)%Z → (max < 2 ^ 62)%Z → double_up times max d = Z.min max (d * 2 ^ Z.of_nat times)%Z.
Proof.
  revert d. induction times as [|times IH]; intros d Hd Hmax; cbn [double_up]; [cbn; lia|].
  rewrite i64_small by lia. rewrite Nat2Z.inj_succ, Z.pow_succ_r by lia.
  pose proof (Z.pow_pos_nonneg 2 (Z.of_nat times)). 
  destruct (Z.leb_spec max (d * 2)); [nia|]. rewrite IH by lia. f_equal. lia.
Qed.

(** The interval before the n-th attempt doubles from the base and is capped, as long as the
    base itself is under the cap. *)
Lemma backoff_doubles p attempt :
  (0 < po_Base p <= po_Max p)%Z → (po_Max p < 2 ^ 62)%Z → (2 <= attempt)%Z →
  backoff p attempt None = Z.min (po_Max p) (po_Base p * 2 ^ (attempt - 2))%Z.
Proof. intros Hb Hm Ha. unfold backoff. rewrite double_up_spec by done. by rewrite Z2Nat.id by lia. Qed.

(** The first interval is the base, whatever the cap. *)
Lemma first_backoff_uncapped p : backoff p 2 None = po_Base p.
Proof. done. Qed.

(** A policy of zeros takes the default's attempts and intervals, not its jitter. *)
Lemma zero_policy_no_jitter :
  withDefaults (MkPolicy 0 0 0 false) =
    MkPolicy (po_MaxAttempts DefaultRetryPolicy) (po_Base DefaultRetryPolicy) (po_Max DefaultRetryPolicy) false ∧
  po_Jitter DefaultRetryPolicy = true.
Proof. done. Qed.

(** *** Webhooks *)
(** A response is an acceptance in the 200s, final in the 400s but for 408 and 429, and worth
    another try otherwise. *)
Lemma webhook_answer_spec url r :
  let code := rs_StatusCode r in
  (webhook_answer url r = None ↔ (200 <= code < 300)%Z) ∧
  (is_permanent (webhook_answer url r) ↔ (400 <= code < 500)%Z ∧ code ≠ 408%Z ∧ code ≠ 429%Z).
Proof.
  unfold webhook_answer. cbn zeta.
  destruct (Z.leb_spec 200 (rs_StatusCode r)), (Z.ltb_spec (rs_StatusCode r) 300); cbn [andb];
    try (split; [split; [lia|done]|split; [by intros (? & ? & _)|lia]]);
  destruct (Z.eqb_spec (rs_StatusCode r) 429), (Z.eqb_spec (rs_StatusCode r) 408); cbn [orb];
    try (split; [split; [done|lia]|split; [by intros ?%not_permanent|lia]]);
  destruct (Z.leb_spec 400 (rs_StatusCode r)), (Z.ltb_spec (rs_StatusCode r) 500); cbn [andb];
    split; (split; [done|]) || (split; [intros Hp|]); try lia;
    try (intros _; by eexists); try by apply not_permanent in Hp.
Qed.

(** *** ConfigMaps *)
Section configmap_facts.
Context (encode : Envelope → str + str) (namespace name : str).

Abbreviation cms s := (w_configmaps (s_world s)).

(** A call whose answer is looked at. *)
Lemma try_read {A} what (f : world → option A) s :
  let '(r, s') := try (read what f) s in
  cms s' = cms s ∧
  match r with
  | inl (inl a) => f (set_w_faults (tail (w_faults (s_world s))) (s_world s)) = Some a
  | inl (inr e) => IsNotFound e = true → f (set_w_faults (tail (w_faults (s_world s))) (s_world s)) = None
  | inr _ => False
  end.
Proof.
  unfold try, read, call. destruct (head (w_faults (s_world s))) as [[|b|b]|];
    cbn; rewrite ?IsNotFound_failure; try (split; [done|done]);
    destruct (f _) as [a|] eqn:E; cbn; rewrite ?IsNotFound_failure; done.
Qed.

Lemma try_write fresh cm s :
  let '(r, s') := configmap_write namespace name fresh cm s in
  ∃ x, r = inl x ∧ ¬ is_permanent x ∧
  ((cms s' = cms s ∧ x ≠ None) ∨
   (cms s' = <[name := cm]> (cms s) ∧ (if fresh then cms s !! name = None else is_Some (cms s !! name)))).
Proof.
  unfold configmap_write, mret, M_ret, mbind, M_bind, try, writeConfigMap, call.
  destruct (head (w_faults (s_world s))) as [[|b|b]|]; cbn;
    destruct (cms s !! name) as [cm0|] eqn:E; destruct fresh; cbn;
    (eexists; split; [reflexivity|]); (split; [first [by intros (? & ? & _)|apply not_permanent; by repeat case_match]|]);
    first [by left; split|by right; split; [|eauto]].
Qed.

(** What a delivery left of the ConfigMap it found, and what its answer means. *)
Record kept (env : Envelope) (before after : gmap str ConfigMap) (r : option send_error) : Prop := MkKept {
  kept_others : ∀ n, n ≠ name → after !! n = before !! n;
  kept_entries : ∀ cm, before !! name = Some cm → ∃ cm', after !! name = Some cm' ∧
    cm_BinaryData cm' = cm_BinaryData cm ∧
    (∀ k, k ≠ e_DeliveryID env → cm_Data cm' !! k = cm_Data cm !! k) ∧
    (cm' = cm ∨ (dataSize (cm_Data cm') <= maxConfigMapBytes)%Z);
  kept_success : r = None → ∃ body cm', encode env = inl body ∧ after !! name = Some cm' ∧
    cm_Data cm' !! e_DeliveryID env = Some body;
  kept_permanent : is_permanent r → after = before ∧ ((∃ e, encode env = inr e) ∨
    ∃ body cm, encode env = inl body ∧ before !! name = Some cm ∧
      (maxConfigMapBytes < dataSize (<[e_DeliveryID env := body]> (cm_Data cm)))%Z);
}.

Lemma kept_same env before r :
  r ≠ None →
  (is_permanent r → (∃ e, encode env = inr e) ∨
    ∃ body cm, encode env = inl body ∧ before !! name = Some cm ∧
      (maxConfigMapBytes < dataSize (<[e_DeliveryID env := body]> (cm_Data cm)))%Z) →
  kept env before before r.
Proof. intros Hr Hp. split; [done|by eauto 6|done|by auto]. Qed.

Lemma kept_written env before body cm r :
  encode env = inl body → ¬ is_permanent r →
  cm_Data cm !! e_DeliveryID env = Some body →
  (∀ old, before !! name = Some old → cm_BinaryData cm = cm_BinaryData old ∧
     (∀ k, k ≠ e_DeliveryID env → cm_Data cm !! k = cm_Data old !! k) ∧
     (dataSize (cm_Data cm) <= maxConfigMapBytes)%Z) →
  kept env before (<[name := cm]> before) r.
Proof.
  intros Henc Hr Hbody Hold. split.
  - intros n Hn. by rewrite lookup_insert_ne.
  - intros old Ho. destruct (Hold old Ho) as (H1 & H2 & H3). exists cm. rewrite lookup_insert_eq. auto.
  - intros _. exists body, cm. by rewrite lookup_insert_eq.
  - done.
Qed.

Lemma kept_after env body s :
  encode env = inl body → (∃ cm, cms s !! name = Some cm ∧ cm_Data cm !! e_DeliveryID env = Some body) →
  w_faults (s_world s) = [] → configmap_deliver encode namespace name env s = (inl None, s).
Proof.
  intros Henc (cm & Hcm & Hbody) Hf. unfold configmap_deliver. rewrite Henc.
  unfold mbind, M_bind, try, read, call. rewrite Hf. cbn. rewrite Hcm. cbn.
  rewrite bool_decide_true by done. by destruct s as [run busy []]; cbn in *; subst.
Qed.

(** Every way through a delivery. *)
Lemma configmap_deliver_kept env s :
  let '(res, s') := configmap_deliver encode namespace name env s in
  ∃ r, res = inl r ∧ kept env (cms s) (cms s') r.
Proof.
  unfold configmap_deliver. destruct (encode env) as [body|e] eqn:Eenc.
  2: { eexists. split; [reflexivity|]. apply kept_same; [done|by eauto]. }
  pose proof (try_read name (λ w, w_configmaps w !! name) s) as Hread.
  unfold mbind, M_bind. destruct (try (read name _) s) as [[[cm|e]|e] s1]; [| |by destruct Hread].
  - destruct Hread as [H1 Hcm]. change (cms s !! name = Some cm) in Hcm.
    case_bool_decide as Hsame.
    { eexists. split; [reflexivity|]. rewrite H1. split; [done|by eauto 6|by eauto|by intros (? & ? & _)]. }
    destruct (Z.ltb_spec maxConfigMapBytes (dataSize (<[e_DeliveryID env := body]> (cm_Data cm)))) as [Hover|Hfits].
    { eexists. split; [reflexivity|]. rewrite H1. apply kept_same; [done|by eauto 8]. }
    pose proof (try_write false (set_cm_Data (<[e_DeliveryID env := body]> (cm_Data cm)) cm) s1) as Hw.
    destruct (configmap_write _ _ _ _ s1) as [r s2]. destruct Hw as (x & -> & Hnp & [[H2 Hx]|[H2 _]]);
      exists x; (split; [done|]); rewrite H2, H1.
    + by apply kept_same.
    + apply (kept_written _ _ body); [done|done|cbn; by rewrite lookup_insert_eq|].
      intros old Ho. simplify_eq. split_and!; [done| |done]. intros k Hk. cbn. by rewrite lookup_insert_ne.
  - destruct Hread as [H1 Hnone]. destruct (IsNotFound e).
    + specialize (Hnone eq_refl). change (cms s !! name = None) in Hnone.
      pose proof (try_write true (MkConfigMap {[e_DeliveryID env := body]} ∅) s1) as Hw.
      destruct (configmap_write _ _ _ _ s1) as [r s2]. destruct Hw as (x & -> & Hnp & [[H2 Hx]|[H2 _]]);
        exists x; (split; [done|]); rewrite H2, H1.
      * by apply kept_same.
      * apply (kept_written _ _ body); [done|done|cbn; by rewrite lookup_singleton_eq|]. intros old Ho. congruence.
    + eexists. split; [reflexivity|]. rewrite H1. apply kept_same; [done|]. by intros Hp; apply not_permanent in Hp.
Qed.

(** C29: A ConfigMap sink never loses what it holds. Whatever calls fail or are carried out
    without an answer, a delivery touches no other ConfigMap and no other entry of its own; a
    success means the envelope is stored under its delivery key, and delivering it again then
    changes nothing; a failure for good means nothing was written, because the envelope does
    not encode or the data would pass the limit; and an update leaves the data within it. *)
Theorem configmap_sink (env : Envelope) (s : st) :
  let '(res, s') := configmap_deliver encode namespace name env s in
  ∃ r, res = inl r ∧ kept env (cms s) (cms s') r ∧
  (r = None → w_faults (s_world s') = [] → configmap_deliver encode namespace name env s' = (inl None, s')).
Proof.
  pose proof (configmap_deliver_kept env s) as H.
  destruct (configmap_deliver encode namespace name env s) as [res s']. destruct H as (r & -> & H).
  exists r. split_and!; [done|done|]. intros Hr Hf.
  destruct (kept_success _ _ _ _ H Hr) as (body & cm & He & Hcm & Hb). apply (kept_after env body); eauto.
Qed.
End configmap_facts.

(** The bound is not looked at when the ConfigMap is created: a first envelope over the limit
    is sent to the API server as it is. *)
Lemma first_delivery_unbounded encode namespace name env body s :
  encode env = inl body → w_faults (s_world s) = [] → w_configmaps (s_world s) !! name = None →
  let '(r, s') := configmap_deliver encode namespace name env s in
  r = inl None ∧
  w_configmaps (s_world s') !! name = Some (MkConfigMap {[e_DeliveryID env := body]} ∅).
Proof.
  intros Henc Hf Hnone. unfold configmap_deliver. rewrite Henc.
  unfold configmap_write, writeConfigMap, mret, M_ret, mbind, M_bind, try, read, call. rewrite Hf. cbn. rewrite Hnone.
  rewrite IsNotFound_NotFound. cbn. rewrite Hnone. cbn. by rewrite lookup_insert_eq.
Qed.

(** ** Witnesses *)
(** A receiver that is restarting for two attempts and then accepts. *)
Definition restarting : Deliverer nat :=
  MkDeliverer (λ _ s, match s.2 with
                      | O => (None, s)
                      | S n => (Some (plain "connection refused"), (s.1 + second, n)%Z)
                      end) "webhook https://ingest".

Definition tiny_envelope : Envelope :=
  MkEnvelope Version false "id" ReasonCheckpoint 7 (MkRunRef "ns" "run" "uid-1" "p") None None "Running"
    "" 1 ∅ [] (MkSummary 0 0 0 0) None.

Lemma Send_attempts_witness :
  let sent n := @Send key_order _ (15 * second)%Z "context deadline exceeded" (λ _, None)
                  (logged restarting) deliverRetry tiny_envelope (0%Z, (n, [])) in
  let refused := Some (plain "connection refused") in
  sent 1%nat = (None, ((2 * second)%Z, (0%nat, [refused; None]))) ∧
  accounts (15 * second) 2 None (2 * second) [refused; None] ∧
  (sent 9%nat).2.2.2 = [refused; refused].
Proof.
  pose proof (@Send_attempts key_order nat (15 * second)%Z "context deadline exceeded" (λ _, None)
    restarting deliverRetry tiny_envelope 0%Z 1%nat) as H.
  assert (@Send key_order _ (15 * second)%Z "context deadline exceeded" (λ _, None)
    (logged restarting) deliverRetry tiny_envelope (0%Z, (1%nat, [])) =
    (None, ((2 * second)%Z, (0%nat, [Some (plain "connection refused"); None])))) as Hs
    by (vm_compute; reflexivity).
  rewrite Hs in H. destruct H as (_ & _ & H).
  split; [exact Hs|]. split; [exact H|]. vm_compute. reflexivity.
Defined.

Definition empty_api : st := MkSt (named_run "run") ∅ (example_world [] []).

Lemma configmap_sink_witness :
  let s' := (configmap_deliver (λ _, inl "{}") "ns" "out" tiny_envelope empty_api).2 in
  is_Some (w_configmaps (s_world s') !! "out") ∧
  configmap_deliver (λ _, inl "{}") "ns" "out" tiny_envelope s' = (inl None, s').
Proof.
  pose proof (configmap_sink (λ _, inl "{}") "ns" "out" tiny_envelope empty_api) as H.
  assert ((configmap_deliver (λ _, inl "{}") "ns" "out" tiny_envelope empty_api).1 = inl None) as Hr
    by reflexivity.
  destruct (configmap_deliver (λ _, inl "{}") "ns" "out" tiny_envelope empty_api) as [res s'] eqn:E.
  destruct H as (r & -> & Hk & Hagain). cbn [fst snd] in *. injection Hr as ->. split.
  - destruct (kept_success _ _ _ _ _ _ Hk eq_refl) as (body & cm & _ & Hcm & _). by exists cm.
  - apply Hagain; [done|]. apply (f_equal (λ p, w_faults (s_world p.2))) in E. exact (eq_sym E).
Defined.
