(* ===== verification/Identity.v ===== *)
(** * The hardware identity of a node (internal/controller/nodefingerprint_controller.go,
    the part that reads, digests, compares and names)

    What a node publishes about its hardware, as labels and allocatable resources, becomes a
    fingerprint; its digest says whether the hardware moved.  The order a range over a map
    takes is a parameter, another one for each range, because the source promises that it
    never reaches the digest. *)

From S2P Require Import Prelude GoStrings GoFloat GoSha256 Registry Pods World.
From Stdlib Require Import Ascii.
Open Scope stdpp_scope.

(** [resource.Quantity] (apimachinery). *)
Class QuantityLib := {
  Quantity : Type;
  AsInt64 : Quantity → option Z;
  ParseQuantity : str → option Quantity;
  Sign : Quantity → Z;
  Value : Quantity → Z;
}.

Definition digestSchemeVersion : str := "v1".
Definition maxGPUsPerFingerprint : Z := 64.

(** ** The fingerprint *)
Record GPUInfo := MkGPU {
  gp_Index : Z; gp_Vendor : str; gp_Model : str; gp_Arch : str; gp_MemoryBytes : Z; gp_DriverVer : str;
}.

Record NICInfo := MkNIC {
  ni_Name : str; ni_Role : str; ni_PCIVendor : str; ni_Model : str; ni_RDMADevice : str;
  ni_LinkLayer : str; ni_SpeedMbps : Z; ni_MTU : Z;
}.

(** What is observed of a node, without the bookkeeping of the status. *)
Record Observation := MkObservation {
  ob_OSImage : str;
  ob_Kernel : str;
  ob_Labels : gmap str str;
  ob_GPUs : list GPUInfo;
  ob_NICs : list NICInfo;
}.

Global Instance GPUInfo_eq_dec : EqDecision GPUInfo.
Proof. solve_decision. Defined.
Global Instance NICInfo_eq_dec : EqDecision NICInfo.
Proof. solve_decision. Defined.
Global Instance Observation_eq_dec : EqDecision Observation.
Proof. solve_decision. Defined.

(** ** Labels *)
Definition splitLabelKey (key : str) : str * str :=
  match IndexByte key "/" with
  | Some i => (take i key, drop (S i) key)
  | None => ("", key)
  end.

(** The keys k8s.io/api calls LabelArchStable and LabelInstanceTypeStable, and their betas. *)
Definition salientLabelKeys : list str :=
  ["kubernetes.io/arch"; "beta.kubernetes.io/arch"; "node.kubernetes.io/instance-type";
   "beta.kubernetes.io/instance-type"].

Definition salientLabelNamePrefixes : list str :=
  ["accelerator"; "board."; "board-"; "cpu."; "cpu-"; "cuda."; "cuda-"; "gpu."; "gpu-"; "gpus.";
   "hw."; "hw-"; "infiniband"; "kernel-version."; "memory."; "memory-"; "mig."; "mig-"; "nic.";
   "nic-"; "nvlink"; "pci-"; "rdma."; "rdma-"; "rocm."; "rocm-"; "system-os"].

Definition isSalientLabel (key : str) : bool :=
  let '(domain, name) := splitLabelKey key in
  if String.eqb domain "burnin.glimmer.ai" || HasSuffix domain ".burnin.glimmer.ai" then false
  else
    let name := ToLower name in
    if HasPrefix name "burnin" || Contains name "-burnin" || Contains name ".burnin" then false
    else if bool_decide (key ∈ salientLabelKeys) then true
    else existsb (HasPrefix name) salientLabelNamePrefixes.

Definition salientLabels (labels : gmap str str) : gmap str str :=
  filter (λ kv, isSalientLabel kv.1 = true) labels.

Definition isNonVendorDomain (domain : str) : bool :=
  String.eqb domain "" || String.eqb domain "kubernetes.io" || HasSuffix domain ".kubernetes.io" ||
  String.eqb domain "glimmer.ai" || HasSuffix domain ".glimmer.ai".

(** The first of the last two labels of the domain. *)
Definition vendorFromDomain (domain : str) : str :=
  let labels := Split (ToLower domain) "." in
  default "" (head (if (2 <? length labels)%nat then list.drop (length labels - 2) labels else labels)).

(** ** Accelerators, from labels *)
Record gpuFacts := MkFacts {
  gf_vendor : str; gf_model : str; gf_arch : str; gf_family : str; gf_driver : str;
  gf_driverMajor : str; gf_driverMinor : str; gf_driverRev : str; gf_memory : str; gf_count : str;
}.

Global Instance gpuFacts_eq_dec : EqDecision gpuFacts.
Proof. solve_decision. Defined.

Definition noFacts (vendor : str) : gpuFacts := MkFacts vendor "" "" "" "" "" "" "" "" "".

Inductive gpuFact :=
  FModel | FCount | FMemory | FArch | FFamily | FVendor | FDriver | FDriverMajor | FDriverMinor | FDriverRev.

Global Instance gpuFact_eq_dec : EqDecision gpuFact.
Proof. solve_decision. Defined.

Definition one_of (l : list str) (s : str) : bool := existsb (String.eqb s) l.

(** [gpuField]; [None] is the empty field. *)
Definition gpuField (name : str) : option gpuFact :=
  let n := ToLower name in
  if one_of ["gpu.product"; "gpu.model"; "gpu.name"; "gpu-product"; "gpu-model"] n then Some FModel
  else if one_of ["gpu.count"; "gpu-count"; "gpu.replicas"] n then Some FCount
  else if one_of ["gpu.memory"; "gpu-memory"; "gpu.vram"] n then Some FMemory
  else if one_of ["gpu.arch"; "gpu-arch"; "gpu.architecture"; "gpu.compute-capability";
                  "cuda.compute-capability"] n then Some FArch
  else if one_of ["gpu.family"; "gpu-family"] n then Some FFamily
  else if one_of ["gpu.vendor"; "gpu-vendor"] n then Some FVendor
  else if one_of ["gpu.driver-version"; "gpu.driver"; "gpu.driver.version"; "cuda.driver-version"] n
  then Some FDriver
  else if one_of ["cuda.driver.major"; "gpu.driver.major"] n then Some FDriverMajor
  else if one_of ["cuda.driver.minor"; "gpu.driver.minor"] n then Some FDriverMinor
  else if one_of ["cuda.driver.rev"; "gpu.driver.rev"] n then Some FDriverRev
  else None.

(** [gpuFacts.set] *)
Definition set_fact (field : gpuFact) (v : str) (f : gpuFacts) : gpuFacts :=
  let '(MkFacts vendor model arch family driver major minor rev memory count) := f in
  match field with
  | FModel => MkFacts vendor v arch family driver major minor rev memory count
  | FCount => MkFacts vendor model arch family driver major minor rev memory v
  | FMemory => MkFacts vendor model arch family driver major minor rev v count
  | FArch => MkFacts vendor model v family driver major minor rev memory count
  | FFamily => MkFacts vendor model arch v driver major minor rev memory count
  | FVendor => MkFacts v model arch family driver major minor rev memory count
  | FDriver => MkFacts vendor model arch family v major minor rev memory count
  | FDriverMajor => MkFacts vendor model arch family driver v minor rev memory count
  | FDriverMinor => MkFacts vendor model arch family driver major v rev memory count
  | FDriverRev => MkFacts vendor model arch family driver major minor v memory count
  end.

Definition or_else (a b : str) : str := if String.eqb a "" then b else a.

(** [gpuFacts.fillFrom] *)
Definition fillFrom (f other : gpuFacts) : gpuFacts :=
  let '(major, minor, rev) :=
    if String.eqb (gf_driverMajor f) ""
    then (gf_driverMajor other, gf_driverMinor other, gf_driverRev other)
    else (gf_driverMajor f, gf_driverMinor f, gf_driverRev f) in
  MkFacts (gf_vendor f) (or_else (gf_model f) (gf_model other)) (or_else (gf_arch f) (gf_arch other))
    (or_else (gf_family f) (gf_family other)) (or_else (gf_driver f) (gf_driver other)) major minor rev
    (or_else (gf_memory f) (gf_memory other)) (or_else (gf_count f) (gf_count other)).

(** What the labels said, by the vendor domain that published it, and of no vendor. *)
Record labelled := MkLabelled { lb_byDomain : gmap str gpuFacts; lb_unattributed : gpuFacts }.

Definition read_label (l : labelled) (kv : str * str) : labelled :=
  let '(domain, name) := splitLabelKey kv.1 in
  match gpuField name with
  | None => l
  | Some field =>
      if isNonVendorDomain domain
      then MkLabelled (lb_byDomain l) (set_fact field kv.2 (lb_unattributed l))
      else
        let facts := default (noFacts (vendorFromDomain domain)) (lb_byDomain l !! domain) in
        MkLabelled (<[domain := set_fact field kv.2 facts]> (lb_byDomain l)) (lb_unattributed l)
  end.

Definition read_labels (range : list (str * str)) : labelled :=
  fold_left read_label range (MkLabelled ∅ (noFacts "")).

Definition describes_gpu (f : gpuFacts) : bool :=
  negb (String.eqb (gf_model f) "") || negb (String.eqb (gf_count f) "").

(** By vendor, then by model. *)
Definition facts_le (a b : gpuFacts) : Prop :=
  if bool_decide (gf_vendor a = gf_vendor b) then String.le (gf_model a) (gf_model b)
  else String.le (gf_vendor a) (gf_vendor b).

Global Instance facts_le_dec : RelDecision facts_le.
Proof. intros a b. unfold facts_le. case_bool_decide; apply _. Defined.

(** [gpuCount]; [None] is an unknown count. *)
Definition gpuCount (raw : str) : option nat :=
  n ← Atoi raw;
  if (n <? 0)%Z || (maxGPUsPerFingerprint <? n)%Z then None else Some (Z.to_nat n).

(** The leading parts that are there. *)
Fixpoint until_empty (l : list str) : list str :=
  match l with
  | [] => []
  | s :: l => if String.eqb s "" then [] else s :: until_empty l
  end.

Definition driverVersion (f : gpuFacts) : str :=
  if negb (String.eqb (gf_driver f) "") then gf_driver f
  else Join (until_empty [gf_driverMajor f; gf_driverMinor f; gf_driverRev f]) ".".

Section identity.
Context `{QuantityLib}.

(** A bare integer is in mebibytes; anything else is a quantity. *)
Definition parseGPUMemoryBytes (v : str) : Z :=
  if String.eqb v "" then 0%Z
  else
    match ParseInt 64 v with
    | Some n => if (n <=? 0)%Z || (2 ^ 62 / 2 ^ 20 <? n)%Z then 0%Z else (n * 2 ^ 20)%Z
    | None =>
        match ParseQuantity v with
        | Some q => if (Sign q <=? 0)%Z then 0%Z else Value q
        | None => 0%Z
        end
    end.

(** One entry per accelerator of a group, numbered from [index]. *)
Definition gpus_of_facts (index : nat) (f : gpuFacts) : list GPUInfo :=
  let count :=
    match gpuCount (gf_count f) with
    | Some n => n
    | None =>
        if String.eqb (gf_model f) "" && String.eqb (gf_arch f) "" && String.eqb (gf_memory f) ""
        then 0%nat else 1%nat
    end in
  (λ i, MkGPU (i32 (Z.of_nat i)) (gf_vendor f) (gf_model f) (or_else (gf_arch f) (gf_family f))
          (parseGPUMemoryBytes (gf_memory f)) (driverVersion f)) <$> seq index count.

Fixpoint number_gpus (index : nat) (groups : list gpuFacts) : list GPUInfo :=
  match groups with
  | [] => []
  | f :: groups =>
      let gpus := gpus_of_facts index f in gpus ++ number_gpus (index + length gpus) groups
  end.

(** The groups that describe accelerators, in no order yet. *)
Definition gpu_groups (range : list (str * gpuFacts)) (unattributed : gpuFacts) : list gpuFacts :=
  let groups := List.filter describes_gpu range.*2 in
  let groups :=
    match groups with
    | [] => if describes_gpu unattributed then [unattributed] else []
    | groups => groups
    end in
  match groups with
  | [f] => [fillFrom f unattributed]
  | groups => groups
  end.

(** The ranges of one call: over the labels, and over the domains found.  [sort.Slice] leaves
    ties in any order, which the range over the domains stands for. *)
Definition gpusFromLabels (r1 r2 : RangeOrder) (labels : gmap str str) : list GPUInfo :=
  let l := read_labels (@range_of r1 _ labels) in
  number_gpus 0 (merge_sort facts_le (gpu_groups (@range_of r2 _ (lb_byDomain l)) (lb_unattributed l))).

(** ** Accelerators, from allocatable resources *)
Definition acceleratorResourceNames : list str :=
  ["gpu"; "gpu.shared"; "i915"; "i915_monitoring"; "xe"; "npu"; "tpu"; "accelerator"].

Definition isAcceleratorDomain (domain : str) : bool :=
  one_of ["gpu"; "accelerator"; "npu"; "tpu"] (default "" (head (Split (ToLower domain) "."))).

(** The vendor and the number of one resource. *)
Definition allocated (kv : str * Quantity) : option (str * Z) :=
  let '(domain, res) := splitLabelKey kv.1 in
  if String.eqb domain "" || isNonVendorDomain domain then None
  else if negb (one_of acceleratorResourceNames (ToLower res)) && negb (isAcceleratorDomain domain)
  then None
  else
    n ← AsInt64 kv.2;
    if (n <=? 0)%Z || (maxGPUsPerFingerprint <? n)%Z then None else Some (vendorFromDomain domain, n).

Definition vendor_le (a b : str * Z) : Prop := String.le a.1 b.1.

Global Instance vendor_le_dec : RelDecision vendor_le.
Proof. intros a b. unfold vendor_le. apply _. Defined.

Definition gpusFromAllocatable (r : RangeOrder) (allocatable : gmap str Quantity) : list GPUInfo :=
  let groups := merge_sort vendor_le (omap allocated (@range_of r _ allocatable)) in
  imap (λ i vendor, MkGPU (i32 (Z.of_nat i)) vendor "" "" 0 "")
    (mjoin ((λ '(vendor, n), replicate (Z.to_nat n) vendor) <$> groups)).

(** ** Network interfaces *)
Definition parseInt32 (v : str) : Z :=
  match ParseInt 32 v with Some n => if (n <? 0)%Z then 0%Z else n | None => 0%Z end.

(** [strings.LastIndex] of a dot. *)
Definition last_dot (s : str) : option nat :=
  fold_left (λ out '(i, c), if Ascii.eqb c "." then Some i else out)
    (imap pair (String.list_ascii_of_string s)) None.

Inductive nicFact := NRole | NPCIVendor | NModel | NRDMADevice | NLinkLayer | NSpeedMbps | NMTU.

Global Instance nicFact_eq_dec : EqDecision nicFact.
Proof. solve_decision. Defined.

(** The field a spelling names; [None] is one that is not known, and sets nothing. *)
Definition nicField (field : str) : option nicFact :=
  if String.eqb field "role" then Some NRole
  else if one_of ["pci-vendor"; "pcivendor"] field then Some NPCIVendor
  else if String.eqb field "model" then Some NModel
  else if one_of ["rdma-device"; "rdmadevice"] field then Some NRDMADevice
  else if one_of ["link-layer"; "linklayer"] field then Some NLinkLayer
  else if one_of ["speed-mbps"; "speedmbps"] field then Some NSpeedMbps
  else if String.eqb field "mtu" then Some NMTU
  else None.

Definition set_nic (field : option nicFact) (v : str) (n : NICInfo) : NICInfo :=
  let '(MkNIC name role pci model rdma link speed mtu) := n in
  match field with
  | Some NRole => MkNIC name v pci model rdma link speed mtu
  | Some NPCIVendor => MkNIC name role v model rdma link speed mtu
  | Some NModel => MkNIC name role pci v rdma link speed mtu
  | Some NRDMADevice => MkNIC name role pci model v link speed mtu
  | Some NLinkLayer => MkNIC name role pci model rdma v speed mtu
  | Some NSpeedMbps => MkNIC name role pci model rdma link (parseInt32 v) mtu
  | Some NMTU => MkNIC name role pci model rdma link speed (parseInt32 v)
  | None => n
  end.

(** The device and the field of a label, if it is one of an interface. *)
Definition nic_label (key : str) : option (str * str) :=
  let name := ToLower (splitLabelKey key).2 in
  if negb (HasPrefix name "nic.") then None
  else
    let rest := TrimPrefix name "nic." in
    i ← last_dot rest;
    if (i =? 0)%nat || (S i =? String.length rest)%nat then None
    else Some (take i rest, drop (S i) rest).

Definition read_nic (byDevice : gmap str NICInfo) (kv : str * str) : gmap str NICInfo :=
  match nic_label kv.1 with
  | None => byDevice
  | Some (device, field) =>
      let nic := default (MkNIC device "" "" "" "" "" 0 0) (byDevice !! device) in
      <[device := set_nic (nicField field) kv.2 nic]> byDevice
  end.

Definition sorted_names {A} (m : gmap str A) : list str := sort_strings (map_to_list m).*1.

Definition nicsFromLabels (r : RangeOrder) (labels : gmap str str) : list NICInfo :=
  let byDevice : gmap str NICInfo := fold_left read_nic (@range_of r _ labels) ∅ in
  omap (λ name, byDevice !! name) (sorted_names byDevice).

(** ** The observation of a node *)
(** What a kubelet reports besides what [Node] holds. *)
Record Machine := MkMachine {
  mc_OSImage : str;
  mc_Allocatable : gmap str Quantity;
}.

(** The orders of the ranges of one observation. *)
Record orders := MkOrders {
  or_labels : RangeOrder; or_domains : RangeOrder; or_alloc : RangeOrder; or_nics : RangeOrder;
}.

Definition gpusFrom (o : orders) (labels : gmap str str) (m : Machine) : list GPUInfo :=
  match gpusFromLabels (or_labels o) (or_domains o) labels with
  | [] => gpusFromAllocatable (or_alloc o) (mc_Allocatable m)
  | gpus => gpus
  end.

Definition observeNode (o : orders) (node : Node) (m : Machine) : Observation :=
  MkObservation (mc_OSImage m) (nd_Kernel node) (salientLabels (nd_Labels node))
    (gpusFrom o (nd_Labels node) m) (nicsFromLabels (or_nics o) (nd_Labels node)).
End identity.
Arguments Machine : clear implicits.
Arguments Machine {_}.

(** ** The digest *)
Definition gpu_parts (g : GPUInfo) : list str :=
  [Itoa (gp_Index g); gp_Vendor g; gp_Model g; gp_Arch g; Itoa (gp_MemoryBytes g); gp_DriverVer g].

Definition nic_parts (n : NICInfo) : list str :=
  [ni_Name n; ni_Role n; ni_PCIVendor n; ni_Model n; ni_RDMADevice n; ni_LinkLayer n;
   Itoa (ni_SpeedMbps n); Itoa (ni_MTU n)].

Definition gpu_text (g : GPUInfo) : str := Join (gpu_parts g) "|".
Definition nic_text (n : NICInfo) : str := Join (nic_parts n) "|".

Definition label_facts (labels : gmap str str) : list (str * str) :=
  omap (λ k, (λ v, ("label:" +:+ k, v)) <$> labels !! k) (sorted_names labels).

(** The facts hashed, in their order. *)
Definition digest_facts (s : Observation) : list (str * str) :=
  [("scheme", digestSchemeVersion); ("osImage", ob_OSImage s); ("kernel", ob_Kernel s)] ++
  label_facts (ob_Labels s) ++
  ((λ g, ("gpu", gpu_text g)) <$> ob_GPUs s) ++ ((λ n, ("nic", nic_text n)) <$> ob_NICs s).

(** [add], over all of them: the stream that is hashed. *)
Fixpoint digest_stream (facts : list (str * str)) : str :=
  match facts with
  | [] => ""
  | (k, v) :: facts => k +:+ nul +:+ v +:+ nul +:+ digest_stream facts
  end.

Definition fingerprintDigest (s : Observation) : str :=
  digestSchemeVersion +:+ ":" +:+ hex_encode (Sum256 (digest_stream (digest_facts s))).

Definition digestScheme (digest : str) : str :=
  match IndexByte digest ":" with Some i => take i digest | None => "" end.

(** ** Drift *)
Inductive driftVerdict := driftBaseline | driftStable | driftChanged | driftIncomparable.

Global Instance driftVerdict_eq_dec : EqDecision driftVerdict.
Proof. solve_decision. Defined.

Definition classify (stored current : str) : driftVerdict :=
  if String.eqb stored "" then driftBaseline
  else if String.eqb stored current then driftStable
  else if negb (String.eqb (digestScheme stored) (digestScheme current)) then driftIncomparable
  else driftChanged.

Definition orNone (s : str) : str := if String.eqb s "" then "(none)" else s.

Definition gpu_kind (g : GPUInfo) : str :=
  let key := TrimSpace (Join [gp_Vendor g; gp_Model g; gp_Arch g] " ") in
  if String.eqb key "" then "(unidentified)" else key.

(** How many there are of each kind. *)
Definition gpu_counts (gpus : list GPUInfo) : gmap str Z :=
  fold_left (λ counts g, <[gpu_kind g := (default 0 (counts !! gpu_kind g) + 1)%Z]> counts) gpus ∅.

Definition summarizeGPUs (gpus : list GPUInfo) : str :=
  match gpus with
  | [] => "(none)"
  | _ =>
      let counts := gpu_counts gpus in
      Join (omap (λ k, (λ n, Itoa n +:+ "×" +:+ k) <$> counts !! k) (sorted_names counts)) ", "
  end.

Definition summarizeNICs (nics : list NICInfo) : str :=
  match nics with
  | [] => "(none)"
  | _ => Join ((λ n, if String.eqb (ni_Role n) "" then ni_Name n
                     else ni_Name n +:+ "/" +:+ ni_Role n) <$> nics) ", "
  end.

(** [unionKeys], sorted. *)
Definition union_keys (a b : gmap str str) : list str := sorted_names (a ∪ b).

Definition label_drift (before after : gmap str str) (k : str) : option str :=
  match before !! k, after !! k with
  | Some b, None => Some ("label " +:+ k +:+ "=" +:+ b +:+ " removed")
  | None, Some a => Some ("label " +:+ k +:+ "=" +:+ a +:+ " added")
  | Some b, Some a =>
      if String.eqb b a then None else Some ("label " +:+ k +:+ " " +:+ b +:+ " → " +:+ a)
  | None, None => None
  end.

Definition drift_part (what before after : str) : option str :=
  if String.eqb before after then None else Some (what +:+ " " +:+ before +:+ " → " +:+ after).

Definition drift_parts (before after : Observation) : list str :=
  omap id
    [(if String.eqb (ob_Kernel before) (ob_Kernel after) then None
      else drift_part "kernel" (orNone (ob_Kernel before)) (orNone (ob_Kernel after)));
     (if String.eqb (ob_OSImage before) (ob_OSImage after) then None
      else drift_part "osImage" (orNone (ob_OSImage before)) (orNone (ob_OSImage after)));
     drift_part "gpus" (summarizeGPUs (ob_GPUs before)) (summarizeGPUs (ob_GPUs after));
     drift_part "nics" (summarizeNICs (ob_NICs before)) (summarizeNICs (ob_NICs after))] ++
  omap (label_drift (ob_Labels before) (ob_Labels after)) (union_keys (ob_Labels before) (ob_Labels after)).

Definition describeDrift (before after : Observation) : str :=
  match drift_parts before after with
  | [] => "no field-level difference is visible; the digest scheme covers facts not reproduced in status"
  | parts => Join parts "; "
  end.

(** ** Naming *)
(** [IsDNS1123Subdomain] is apimachinery's validation of a name. *)
Definition maxSanitised : nat := 190.

(** A character past ASCII is one dash, however many bytes it takes. *)
Fixpoint sanitise (s : str) : str :=
  match s with
  | "" => ""
  | String c s =>
      if is_lower c || is_digit c || Ascii.eqb c "-" || Ascii.eqb c "." then String c (sanitise s)
      else if rune_start c then String "-" (sanitise s)
      else sanitise s
  end.

(** [strings.Trim(s, "-.")] *)
Definition trim_name (s : str) : str := TrimRight (TrimLeft s "-.") "-.".

Definition fingerprintName (IsDNS1123Subdomain : str → bool) (node : str) : str :=
  if IsDNS1123Subdomain node then node
  else
    let sanitised := trim_name (sanitise (ToLower node)) in
    let sanitised :=
      if (maxSanitised <? String.length sanitised)%nat then trim_name (take maxSanitised sanitised)
      else sanitised in
    let sum := hex_encode (firstn 8 (Sum256 node)) in
    if String.eqb sanitised "" then "node-" +:+ sum else sanitised +:+ "-" +:+ sum.

(** ** Lemmas *)
Definition pipe : ascii := "|".
Definition pipe_free (s : str) : Prop := no_char pipe s = true.
Definition number_char (c : ascii) : bool := is_digit c || Ascii.eqb c "-".

Lemma Itoa_chars z : all_chars number_char (Itoa z) = true.
Proof.
  assert (∀ z, (0 <= z)%Z → all_chars number_char (Itoa z) = true) as Hpos.
  { intros z' Hz. apply (all_chars_impl is_digit); [|by apply Itoa_digits].
    unfold number_char. by intros c ->. }
  destruct z as [|p|p]; [by apply Hpos..|].
  change (number_char "-" && all_chars number_char (Itoa (Zpos p)) = true). by rewrite Hpos.
Qed.

Lemma Itoa_pipe_free z : pipe_free (Itoa z).
Proof.
  apply (all_chars_impl number_char); [|apply Itoa_chars].
  intros c. by destruct c as [[] [] [] [] [] [] [] []].
Qed.

Lemma Itoa_any_nul_free z : nul_free (Itoa z).
Proof.
  apply (all_chars_impl number_char); [|apply Itoa_chars].
  intros c. by destruct c as [[] [] [] [] [] [] [] []].
Qed.

Lemma Join_nul_free l : Forall nul_free l → nul_free (Join l "|").
Proof.
  intros Hl. induction Hl as [|s l Hs Hl IH]; [done|]. destruct l as [|t l]; [done|].
  change (Join (s :: t :: l) "|") with (s +:+ "|" +:+ Join (t :: l) "|").
  unfold nul_free, no_char in *. by rewrite !all_chars_app, Hs, IH.
Qed.

Lemma Join_pipe_inj l l' :
  l ≠ [] → l' ≠ [] → Forall pipe_free l → Forall pipe_free l' → Join l "|" = Join l' "|" → l = l'.
Proof.
  intros Hne Hne' Hl Hl' Heq.
  rewrite <-(Split_Join l pipe Hne Hl), <-(Split_Join l' pipe Hne' Hl').
  by f_equal.
Qed.

(** *** Well-formed fields: what the API server admits as label values and resource names *)
Definition clean (s : str) : Prop := nul_free s ∧ pipe_free s.

Definition gpu_fields (g : GPUInfo) : list str := [gp_Vendor g; gp_Model g; gp_Arch g; gp_DriverVer g].
Definition nic_fields (n : NICInfo) : list str :=
  [ni_Name n; ni_Role n; ni_PCIVendor n; ni_Model n; ni_RDMADevice n; ni_LinkLayer n].

Record clean_observation (s : Observation) : Prop := {
  co_os : nul_free (ob_OSImage s);
  co_kernel : nul_free (ob_Kernel s);
  co_labels : map_Forall (λ k v, nul_free k ∧ nul_free v) (ob_Labels s);
  co_gpus : Forall (λ g, Forall clean (gpu_fields g)) (ob_GPUs s);
  co_nics : Forall (λ n, Forall clean (nic_fields n)) (ob_NICs s);
}.

Lemma clean_nul l : Forall clean l → Forall nul_free l.
Proof. intros Hl. eapply Forall_impl; [exact Hl|]. by intros ? []. Qed.
Lemma clean_pipe l : Forall clean l → Forall pipe_free l.
Proof. intros Hl. eapply Forall_impl; [exact Hl|]. by intros ? []. Qed.

Lemma clean_Itoa z : clean (Itoa z).
Proof. split; [apply Itoa_any_nul_free|apply Itoa_pipe_free]. Qed.

Lemma gpu_parts_clean g : Forall clean (gpu_fields g) → Forall clean (gpu_parts g).
Proof. unfold gpu_fields, gpu_parts. rewrite !Forall_cons. naive_solver eauto using clean_Itoa. Qed.

Lemma nic_parts_clean n : Forall clean (nic_fields n) → Forall clean (nic_parts n).
Proof.
  unfold nic_fields, nic_parts. rewrite !Forall_cons. naive_solver eauto using clean_Itoa.
Qed.

Lemma gpu_text_inj g g' :
  Forall clean (gpu_fields g) → Forall clean (gpu_fields g') → gpu_text g = gpu_text g' → g = g'.
Proof.
  intros Hg%gpu_parts_clean%clean_pipe Hg'%gpu_parts_clean%clean_pipe Heq.
  apply (Join_pipe_inj (gpu_parts g) (gpu_parts g')) in Heq; [|done..].
  destruct g, g'. unfold gpu_parts in Heq. cbn in Heq. injection Heq as Hi -> -> -> Hm ->.
  by apply Itoa_inj in Hi as ->; apply Itoa_inj in Hm as ->.
Qed.

Lemma nic_text_inj n n' :
  Forall clean (nic_fields n) → Forall clean (nic_fields n') → nic_text n = nic_text n' → n = n'.
Proof.
  intros Hn%nic_parts_clean%clean_pipe Hn'%nic_parts_clean%clean_pipe Heq.
  apply (Join_pipe_inj (nic_parts n) (nic_parts n')) in Heq; [|done..].
  destruct n, n'. unfold nic_parts in Heq. cbn in Heq. injection Heq as -> -> -> -> -> -> Hs Hm.
  by apply Itoa_inj in Hs as ->; apply Itoa_inj in Hm as ->.
Qed.

(** *** The stream hashed tells the facts apart *)
Definition nul_free_facts (facts : list (str * str)) : Prop :=
  Forall (λ f, nul_free f.1 ∧ nul_free f.2) facts.

Lemma digest_stream_inj l l' :
  nul_free_facts l → nul_free_facts l' → digest_stream l = digest_stream l' → l = l'.
Proof.
  intros Hl. revert l'. induction Hl as [|[k v] l [Hk Hv] Hl IH]; intros l' Hl'.
  - destruct Hl' as [|[k v] l']; [done|]. cbn. by destruct k.
  - destruct Hl' as [|[k' v'] l' [Hk' Hv'] Hl']; cbn; [by destruct k|]. intros Heq.
    apply nul_split in Heq as [-> Heq]; [|done..].
    apply nul_split in Heq as [-> Heq]; [|done..]. f_equal. by apply IH.
Qed.

Lemma sorted_names_elem {A} (m : gmap str A) k : k ∈ sorted_names m ↔ is_Some (m !! k).
Proof.
  unfold sorted_names. rewrite sort_strings_elem, list_elem_of_fmap. split.
  - intros ([k' x] & -> & Hx%elem_of_map_to_list). by eexists.
  - intros [x Hx]. exists (k, x). split; [done|]. by apply elem_of_map_to_list.
Qed.

Lemma label_facts_elem labels k v :
  ("label:" +:+ k, v) ∈ label_facts labels ↔ labels !! k = Some v.
Proof.
  unfold label_facts. rewrite list_elem_of_omap. split.
  - intros (k' & _ & Hv). destruct (labels !! k') as [v'|] eqn:E; [|done].
    cbn in Hv. by simplify_eq.
  - intros Hv. exists k. split; [by apply sorted_names_elem|]. by rewrite Hv.
Qed.

Lemma label_facts_tag labels f : f ∈ label_facts labels → ∃ k, f.1 = "label:" +:+ k.
Proof.
  unfold label_facts. intros (k & _ & Hf)%list_elem_of_omap. exists k.
  destruct (labels !! k); [|done]. by injection Hf as <-.
Qed.

Lemma label_facts_inj m m' : label_facts m = label_facts m' → m = m'.
Proof.
  intros Heq. apply map_eq. intros k. apply option_eq. intros v.
  by rewrite <-!label_facts_elem, Heq.
Qed.

(** The facts of one tag. *)
Definition tagged (tag : str → bool) (facts : list (str * str)) : list (str * str) :=
  List.filter (λ f, tag f.1) facts.

Lemma tagged_all tag l : (∀ f, f ∈ l → tag f.1 = true) → tagged tag l = l.
Proof. intros H. by apply filter_all. Qed.

Lemma tagged_none tag l : (∀ f, f ∈ l → tag f.1 = false) → tagged tag l = [].
Proof.
  induction l as [|f l IH]; intros H; [done|]. cbn. rewrite (H f) by (by left).
  apply IH. intros g Hg. apply H. by right.
Qed.

Lemma tagged_app tag l k : tagged tag (l ++ k) = tagged tag l ++ tagged tag k.
Proof. apply List.filter_app. Qed.

(** The facts but the fixed three: of the labels, then the accelerators, then the interfaces. *)
Definition is_label (tag : str) : bool := HasPrefix tag "label:".
Definition is_gpu (tag : str) : bool := String.eqb tag "gpu".
Definition is_nic (tag : str) : bool := String.eqb tag "nic".

Definition varying (s : Observation) : list (str * str) :=
  label_facts (ob_Labels s) ++
  ((λ g, ("gpu", gpu_text g)) <$> ob_GPUs s) ++ ((λ n, ("nic", nic_text n)) <$> ob_NICs s).

Lemma tagged_fmap {A} tag t (h : A → str) l :
  tagged tag ((λ x, (t, h x)) <$> l) = if tag t then (λ x, (t, h x)) <$> l else [].
Proof.
  destruct (tag t) eqn:E; [apply tagged_all|apply tagged_none];
    by intros ? (x & -> & _)%list_elem_of_fmap.
Qed.

Lemma tagged_labels tag labels b :
  (∀ k, tag ("label:" +:+ k) = b) → tagged tag (label_facts labels) = if b then label_facts labels else [].
Proof.
  intros Hb. destruct b; [apply tagged_all|apply tagged_none];
    intros f (k & ->)%label_facts_tag; apply Hb.
Qed.

Lemma varying_tagged s :
  tagged is_label (varying s) = label_facts (ob_Labels s) ∧
  tagged is_gpu (varying s) = ((λ g, ("gpu", gpu_text g)) <$> ob_GPUs s) ∧
  tagged is_nic (varying s) = ((λ n, ("nic", nic_text n)) <$> ob_NICs s).
Proof.
  assert (∀ k, is_label ("label:" +:+ k) = true) as Hl.
  { intros k. apply HasPrefix_spec. by exists k. }
  unfold varying. rewrite !tagged_app, !tagged_fmap, (tagged_labels is_label _ true),
    (tagged_labels is_gpu _ false), (tagged_labels is_nic _ false) by done.
  change (is_label "gpu") with false. change (is_label "nic") with false.
  change (is_gpu "gpu") with true. change (is_gpu "nic") with false.
  change (is_nic "gpu") with false. change (is_nic "nic") with true. cbn [app].
  rewrite !app_nil_r. done.
Qed.

Lemma tagged_texts_inj {A} (t : str) (h : A → str) (ok : A → Prop) l l' :
  (∀ x y, ok x → ok y → h x = h y → x = y) → Forall ok l → Forall ok l' →
  (λ x, (t, h x)) <$> l = (λ x, (t, h x)) <$> l' → l = l'.
Proof.
  intros Hinj Hl. revert l'. induction Hl as [|x l Hx Hl IH]; intros l' Hl' Heq.
  - by destruct Hl'.
  - destruct Hl' as [|y l' Hy Hl']; [done|]. cbn in Heq. injection Heq as Hxy Heq.
    f_equal; [by apply Hinj|by apply IH].
Qed.

Lemma varying_inj s s' :
  clean_observation s → clean_observation s' → varying s = varying s' →
  ob_Labels s = ob_Labels s' ∧ ob_GPUs s = ob_GPUs s' ∧ ob_NICs s = ob_NICs s'.
Proof.
  intros Hs Hs' Heq.
  destruct (varying_tagged s) as (Hl & Hg & Hn), (varying_tagged s') as (Hl' & Hg' & Hn').
  rewrite Heq in Hl, Hg, Hn. split_and!.
  - apply label_facts_inj. by rewrite <-Hl, Hl'.
  - apply (tagged_texts_inj "gpu" gpu_text (λ g, Forall clean (gpu_fields g)));
      [apply gpu_text_inj|apply co_gpus, Hs|apply co_gpus, Hs'|by rewrite <-Hg, Hg'].
  - apply (tagged_texts_inj "nic" nic_text (λ n, Forall clean (nic_fields n)));
      [apply nic_text_inj|apply co_nics, Hs|apply co_nics, Hs'|by rewrite <-Hn, Hn'].
Qed.

Lemma varying_nul_free s : clean_observation s → nul_free_facts (varying s).
Proof.
  intros Hs. apply Forall_app; split; [|apply Forall_app; split].
  - apply Forall_forall. intros [t v] Hf. destruct (label_facts_tag _ _ Hf) as [k Hk]. cbn in Hk.
    subst t. apply label_facts_elem in Hf. destruct (co_labels s Hs k v Hf) as [Hk Hv].
    split; [|done]. cbn. unfold nul_free, no_char in *. by rewrite all_chars_app, Hk.
  - apply Forall_fmap. eapply Forall_impl; [apply co_gpus, Hs|]. intros g Hg. split; [done|].
    by apply Join_nul_free, clean_nul, gpu_parts_clean.
  - apply Forall_fmap. eapply Forall_impl; [apply co_nics, Hs|]. intros n Hn. split; [done|].
    by apply Join_nul_free, clean_nul, nic_parts_clean.
Qed.

Lemma digest_facts_nul_free s : clean_observation s → nul_free_facts (digest_facts s).
Proof.
  intros Hs. do 3 (constructor; [split; first [done|apply Hs]|]).
  by apply varying_nul_free.
Qed.

Lemma digest_facts_inj s s' :
  clean_observation s → clean_observation s' → digest_facts s = digest_facts s' → s = s'.
Proof.
  intros Hs Hs' Heq.
  assert (ob_OSImage s = ob_OSImage s' ∧ ob_Kernel s = ob_Kernel s' ∧ varying s = varying s')
    as (Ho & Hk & Hv) by (unfold digest_facts in Heq; by injection Heq).
  destruct (varying_inj s s' Hs Hs' Hv) as (? & ? & ?). destruct s, s'. cbn in *. by subst.
Qed.

(** *** Ranges over maps *)

(** Where the facts of a label go: the domain, or [None] for those of no vendor, and the field. *)
Definition fact_slot (key : str) : option (option str * gpuFact) :=
  let '(domain, name) := splitLabelKey key in
  field ← gpuField name;
  Some (if isNonVendorDomain domain then None else Some domain, field).

Definition nic_slot (key : str) : option (str * nicFact) :=
  '(device, field) ← nic_label key; fact ← nicField field; Some (device, fact).

(** No two labels say the same fact. *)
Definition one_label_each {A} (slot : str → option A) (labels : gmap str str) : Prop :=
  map_Forall (λ k1 _, map_Forall (λ k2 _, slot k1 ≠ None → slot k1 = slot k2 → k1 = k2) labels) labels.

Global Instance one_label_each_dec {A} `{EqDecision A} (slot : str → option A) labels :
  Decision (one_label_each slot labels).
Proof. unfold one_label_each. apply _. Defined.

Lemma set_fact_comm f g v w x :
  f ≠ g → set_fact f v (set_fact g w x) = set_fact g w (set_fact f v x).
Proof. by destruct x, f, g. Qed.

Lemma set_nic_comm f g v w x :
  (f = g → f = None) → set_nic f v (set_nic g w x) = set_nic g w (set_nic f v x).
Proof. destruct x, f as [[]|], g as [[]|]; naive_solver. Qed.

Section slots.
Context (labels : gmap str str).

Lemma slots_differ {A} (slot : str → option A) x y :
  one_label_each slot labels → x ∈ map_to_list labels → y ∈ map_to_list labels → x ≠ y →
  slot x.1 = slot y.1 → slot x.1 = None.
Proof.
  destruct x as [k1 v1], y as [k2 v2]. intros Hone Hx%elem_of_map_to_list Hy%elem_of_map_to_list Hne Heq.
  destruct (slot k1) as [a|] eqn:E; [|by cbn]. exfalso. apply Hne.
  assert (k1 = k2) as -> by (eapply (Hone k1 v1 Hx k2 v2 Hy); cbn in *; congruence). congruence.
Qed.

Lemma read_label_comm l x y :
  one_label_each fact_slot labels → x ∈ map_to_list labels → y ∈ map_to_list labels →
  read_label (read_label l x) y = read_label (read_label l y) x.
Proof.
  intros Hone Hx Hy. destruct (decide (x = y)) as [->|Hne]; [done|].
  pose proof (slots_differ fact_slot x y Hone Hx Hy Hne) as Hs. unfold fact_slot in Hs.
  unfold read_label. destruct (splitLabelKey x.1) as [d1 n1], (splitLabelKey y.1) as [d2 n2].
  destruct (gpuField n1) as [f1|], (gpuField n2) as [f2|]; [|done..]. cbn in Hs.
  destruct (isNonVendorDomain d1), (isNonVendorDomain d2); cbn; [|done..|].
  - f_equal. apply set_fact_comm. intros ->. by discriminate (Hs eq_refl).
  - f_equal. destruct (decide (d1 = d2)) as [->|Hd].
    + rewrite !lookup_insert_eq, !insert_insert_eq. cbn. f_equal. apply set_fact_comm.
      intros ->. by discriminate (Hs eq_refl).
    + rewrite !lookup_insert_ne by done. by apply insert_insert_ne.
Qed.

Lemma read_nic_comm m x y :
  one_label_each nic_slot labels → x ∈ map_to_list labels → y ∈ map_to_list labels →
  read_nic (read_nic m x) y = read_nic (read_nic m y) x.
Proof.
  intros Hone Hx Hy. destruct (decide (x = y)) as [->|Hne]; [done|].
  pose proof (slots_differ nic_slot x y Hone Hx Hy Hne) as Hs. unfold nic_slot in Hs.
  unfold read_nic. destruct (nic_label x.1) as [[d1 f1]|], (nic_label y.1) as [[d2 f2]|]; [|done..].
  cbn in Hs. destruct (decide (d1 = d2)) as [->|Hd].
  - rewrite !lookup_insert_eq, !insert_insert_eq. cbn. f_equal. apply set_nic_comm.
    intros Hf. assert (nicField f1 = nicField f2) as Hf' by congruence. specialize (Hs ltac:(by rewrite Hf')).
    destruct (nicField f1); [by discriminate Hs|congruence].
  - rewrite !lookup_insert_ne by done. by apply insert_insert_ne.
Qed.
End slots.

Section order_independence.
Context (labels : gmap str str).

(** The facts by domain, in the order of the keys; any order gives the same. *)
Definition domain_facts : gmap str gpuFacts := lb_byDomain (read_labels (map_to_list labels)).

Lemma read_labels_any (r : RangeOrder) :
  one_label_each fact_slot labels → read_labels (range_of labels) = read_labels (map_to_list labels).
Proof.
  intros Hone. apply fold_left_perm; [apply range_perm|].
  intros x y l Hx Hy. rewrite range_perm in Hx, Hy. by apply (read_label_comm labels).
Qed.

Lemma nicsFromLabels_any (r r' : RangeOrder) :
  one_label_each nic_slot labels → nicsFromLabels r labels = nicsFromLabels r' labels.
Proof.
  intros Hone. unfold nicsFromLabels.
  assert (∀ r : RangeOrder, fold_left read_nic (range_of labels) (∅ : gmap str NICInfo) =
            fold_left read_nic (map_to_list labels) ∅) as Hr; [|by rewrite (Hr r), (Hr r')].
  intros o. apply fold_left_perm; [apply range_perm|].
  intros x y m Hx Hy. rewrite range_perm in Hx, Hy. by apply (read_nic_comm labels).
Qed.
End order_independence.

(** *** Sorting *)
Lemma facts_le_refl_vendor a b : facts_le a b → facts_le b a → gf_vendor a = gf_vendor b ∧ gf_model a = gf_model b.
Proof.
  unfold facts_le. destruct (decide (gf_vendor a = gf_vendor b)) as [E|E].
  - rewrite !bool_decide_true by congruence. intros H1 H2. split; [done|]. by apply (anti_symm String.le).
  - rewrite !bool_decide_false by congruence. intros H1 H2. by destruct E; apply (anti_symm String.le).
Qed.

Global Instance facts_le_total : Total facts_le.
Proof.
  intros a b. unfold facts_le. destruct (decide (gf_vendor a = gf_vendor b)) as [E|E].
  - rewrite !bool_decide_true by congruence. apply (total String.le).
  - rewrite !bool_decide_false by congruence. apply (total String.le).
Qed.

Global Instance facts_le_trans : Transitive facts_le.
Proof.
  intros a b c. unfold facts_le.
  destruct (decide (gf_vendor a = gf_vendor b)) as [E1|E1], (decide (gf_vendor b = gf_vendor c)) as [E2|E2].
  - rewrite !bool_decide_true by congruence. by intros ??; etrans.
  - rewrite bool_decide_true, !bool_decide_false by congruence. by rewrite E1.
  - rewrite bool_decide_false, bool_decide_true, bool_decide_false by congruence. by rewrite <-E2.
  - rewrite (bool_decide_false (_ = gf_vendor b)), (bool_decide_false (gf_vendor b = _)) by done.
    intros H1 H2. destruct (decide (gf_vendor a = gf_vendor c)) as [E3|E3].
    + destruct E1. rewrite E3 in H1 |- *. by apply (anti_symm String.le).
    + rewrite bool_decide_false by done. by etrans.
Qed.

Lemma merge_sort_any {A} (R : relation A) `{!RelDecision R} `{!Transitive R} `{!Total R} l l' :
  l ≡ₚ l' → (∀ x y, x ∈ l → y ∈ l → R x y → R y x → x = y) → merge_sort R l = merge_sort R l'.
Proof.
  intros Hp Hanti. apply (StronglySorted_unique_strong R).
  - intros x y. rewrite !merge_sort_Permutation, <-Hp. apply Hanti.
  - by apply StronglySorted_merge_sort.
  - by apply StronglySorted_merge_sort.
  - by rewrite !merge_sort_Permutation.
Qed.

(** *** Accelerators in any order *)

(** Facts of two domains with the same vendor and model are the same. *)
Definition told_apart (facts : gmap str gpuFacts) : Prop :=
  map_Forall (λ _ a, map_Forall (λ _ b,
    gf_vendor a = gf_vendor b → gf_model a = gf_model b → a = b) facts) facts.

Global Instance told_apart_dec facts : Decision (told_apart facts).
Proof. unfold told_apart. apply _. Defined.

Definition only_group (groups : list gpuFacts) (unattributed : gpuFacts) : list gpuFacts :=
  match groups with [f] => [fillFrom f unattributed] | groups => groups end.

Definition or_unattributed (groups : list gpuFacts) (unattributed : gpuFacts) : list gpuFacts :=
  match groups with
  | [] => if describes_gpu unattributed then [unattributed] else []
  | groups => groups
  end.

Lemma gpu_groups_alt range u :
  gpu_groups range u = only_group (or_unattributed (List.filter describes_gpu range.*2) u) u.
Proof. done. Qed.

Lemma or_unattributed_perm l l' u : l ≡ₚ l' → or_unattributed l u ≡ₚ or_unattributed l' u.
Proof.
  intros Hp. destruct l as [|f l].
  - apply Permutation_nil_l in Hp as <-. done.
  - destruct l' as [|f' l']; [by apply Permutation_nil_r in Hp|done].
Qed.

(** Several groups are in any order; one alone is the same one. *)
Lemma only_group_perm l l' u : l ≡ₚ l' → only_group l u = only_group l' u ∨ (only_group l u = l ∧ only_group l' u = l').
Proof.
  intros Hp. destruct l as [|f [|g l]].
  - apply Permutation_nil_l in Hp as <-. by left.
  - apply Permutation_singleton_l in Hp as <-. by left.
  - destruct l' as [|f' [|g' l']]; [by right| |by right].
    by apply Permutation_length in Hp.
Qed.

Lemma gpu_groups_sorted (r r' : RangeOrder) facts u :
  told_apart facts →
  merge_sort facts_le (gpu_groups (@range_of r _ facts) u) = merge_sort facts_le (gpu_groups (@range_of r' _ facts) u).
Proof.
  intros Hapart. rewrite !gpu_groups_alt.
  assert (Hp : @range_of r _ facts ≡ₚ @range_of r' _ facts) by (by rewrite !range_perm).
  assert (Hfp := filter_perm describes_gpu _ _ (fmap_Permutation snd _ _ Hp)).
  destruct (only_group_perm _ _ u (or_unattributed_perm _ _ u Hfp)) as [Heq|[Heq Heq']]; [by rewrite Heq|].
  rewrite Heq, Heq'. apply (merge_sort_any facts_le); [by apply or_unattributed_perm|].
  clear Heq Heq' Hfp. intros x y Hx Hy Hxy Hyx.
  destruct (facts_le_refl_vendor x y Hxy Hyx) as [Hv Hm].
  destruct (List.filter describes_gpu (@range_of r _ facts).*2) as [|f l] eqn:E; cbn [or_unattributed] in Hx, Hy.
  - destruct (describes_gpu u); set_solver.
  - rewrite <-E in Hx, Hy.
    assert (∀ z, z ∈ List.filter describes_gpu (@range_of r _ facts).*2 → ∃ d, facts !! d = Some z) as Hin.
    { intros z Hz. rewrite list_elem_of_In, List.filter_In, <-list_elem_of_In in Hz. destruct Hz as [Hz _].
      apply list_elem_of_fmap in Hz as ([d z'] & -> & Hz). rewrite range_perm in Hz.
      exists d. by apply elem_of_map_to_list in Hz. }
    destruct (Hin x Hx) as [dx Hdx], (Hin y Hy) as [dy Hdy].
    by apply (Hapart dx x Hdx dy y Hdy).
Qed.

Section quantities.
Context `{QuantityLib}.

(** One vendor for each accelerator. *)
Definition vendors_of (groups : list (str * Z)) : list str :=
  mjoin ((λ '(vendor, n), replicate (Z.to_nat n) vendor) <$> groups).

Lemma vendors_of_elem groups v : v ∈ vendors_of groups → ∃ n, (v, n) ∈ groups.
Proof.
  unfold vendors_of. intros (l & Hv & ([v' n] & -> & Hg)%list_elem_of_fmap)%list_elem_of_join.
  apply elem_of_replicate in Hv as [-> _]. by exists n.
Qed.

Lemma replicate_sorted n (v : str) : StronglySorted String.le (replicate n v).
Proof.
  induction n as [|n IH]; constructor; [done|]. apply Forall_forall.
  by intros w [-> _]%elem_of_replicate.
Qed.

Lemma vendors_of_sorted groups :
  StronglySorted vendor_le groups → StronglySorted String.le (vendors_of groups).
Proof.
  induction 1 as [|[v n] groups Hs IH Hle]; [constructor|].
  change (StronglySorted String.le (replicate (Z.to_nat n) v ++ vendors_of groups)).
  apply StronglySorted_app. split_and!; [|apply replicate_sorted|done].
  intros x y [-> _]%elem_of_replicate (m & Hy)%vendors_of_elem.
  rewrite Forall_forall in Hle. exact (Hle _ Hy).
Qed.

Global Instance vendor_le_total : Total vendor_le.
Proof. intros a b. apply (total String.le). Qed.

Global Instance vendor_le_trans : Transitive vendor_le.
Proof. intros a b c. unfold vendor_le. by etrans. Qed.

Lemma gpusFromAllocatable_any (r r' : RangeOrder) allocatable :
  gpusFromAllocatable r allocatable = gpusFromAllocatable r' allocatable.
Proof.
  unfold gpusFromAllocatable. f_equal.
  apply (StronglySorted_unique String.le); [by apply vendors_of_sorted, StronglySorted_merge_sort; apply _..|].
  unfold vendors_of. rewrite !merge_sort_Permutation.
  assert (Hp : @range_of r _ allocatable ≡ₚ @range_of r' _ allocatable) by (by rewrite !range_perm).
  by rewrite Hp.
Qed.

Lemma gpusFromLabels_any (r1 r2 r1' r2' : RangeOrder) labels :
  one_label_each fact_slot labels → told_apart (domain_facts labels) →
  gpusFromLabels r1 r2 labels = gpusFromLabels r1' r2' labels.
Proof.
  intros Hone Hapart. unfold gpusFromLabels. rewrite !read_labels_any by done.
  f_equal. by apply gpu_groups_sorted.
Qed.
End quantities.

(** ** What the fingerprint promises *)

(** The stream hashed for an observation. *)
Definition hashed (s : Observation) : str := digest_stream (digest_facts s).

Lemma versioned_inj a b :
  digestSchemeVersion +:+ ":" +:+ a = digestSchemeVersion +:+ ":" +:+ b → a = b.
Proof. intros H. by injection H. Qed.

Lemma digestScheme_versioned a : digestScheme (digestSchemeVersion +:+ ":" +:+ a) = digestSchemeVersion.
Proof. done. Qed.

Lemma versioned_nonempty a : digestSchemeVersion +:+ ":" +:+ a ≠ "".
Proof. done. Qed.

Lemma fingerprintDigest_eq s s' :
  fingerprintDigest s = fingerprintDigest s' → Sum256 (hashed s) = Sum256 (hashed s').
Proof.
  unfold fingerprintDigest. intros Heq%versioned_inj.
  apply hex_encode_inj; [apply Sum256_bytes..|exact Heq].
Qed.

Lemma digestScheme_own s : digestScheme (fingerprintDigest s) = digestSchemeVersion.
Proof. apply digestScheme_versioned. Qed.

Lemma fingerprintDigest_nonempty s : fingerprintDigest s ≠ "".
Proof. apply versioned_nonempty. Qed.

(** A stored digest of this scheme is stable or changed. *)
Lemma classify_own s s' :
  classify (fingerprintDigest s) (fingerprintDigest s') =
    if decide (fingerprintDigest s = fingerprintDigest s') then driftStable else driftChanged.
Proof.
  unfold classify. rewrite !digestScheme_own.
  rewrite (proj2 (String.eqb_neq _ _) (fingerprintDigest_nonempty s)).
  destruct (String.eqb_spec (fingerprintDigest s) (fingerprintDigest s')) as [->|Hne].
  - by rewrite decide_True.
  - by rewrite decide_False.
Qed.

(** Comparing digests compares hardware identities: for two observations whose fields the
    API server admits (no NUL, no bar), and unless SHA-256 collides on the very streams
    hashed for them, the verdict is stable when the observations are equal, field by field,
    and changed when anything differs: an image, a kernel, a salient label, or any part of
    an accelerator or interface. *)
Theorem digest_faithful (s s' : Observation) :
  clean_observation s → clean_observation s' →
  (Sum256 (hashed s) = Sum256 (hashed s') → hashed s = hashed s') →
  classify (fingerprintDigest s) (fingerprintDigest s') =
    if decide (s = s') then driftStable else driftChanged.
Proof.
  intros Hs Hs' Hsha. rewrite classify_own. destruct (decide (s = s')) as [->|Hne].
  - by rewrite decide_True.
  - rewrite decide_False; [done|]. intros Heq%fingerprintDigest_eq%Hsha. apply Hne.
    apply digest_facts_inj; [done..|].
    apply digest_stream_inj; [by apply digest_facts_nul_free..|done].
Qed.

(** No label says a fact twice, and no two vendors' facts are tied. *)
Record unambiguous (labels : gmap str str) : Prop := {
  un_facts : one_label_each fact_slot labels;
  un_nics : one_label_each nic_slot labels;
  un_apart : told_apart (domain_facts labels);
}.

Lemma observeNode_any `{QuantityLib} (o o' : orders) node m :
  unambiguous (nd_Labels node) → observeNode o node m = observeNode o' node m.
Proof.
  intros [Hf Hn Ha]. unfold observeNode, gpusFrom.
  by rewrite (gpusFromLabels_any _ _ (or_labels o') (or_domains o')), (gpusFromAllocatable_any _ (or_alloc o')),
    (nicsFromLabels_any _ _ (or_nics o')).
Qed.

(** One order for every range. *)
Definition in_key_order : orders := MkOrders key_order key_order key_order key_order.
Definition in_reverse : orders := MkOrders reverse_order reverse_order reverse_order reverse_order.

(** Quantities as plain numbers, for examples. *)
Definition plain_quantities : QuantityLib :=
  {| Quantity := Z; AsInt64 q := Some q; ParseQuantity s := Atoi s; Sign q := Z.sgn q; Value q := q |}.

(** A node whose plugin publishes both gpu.count and gpu.replicas, as one that time-slices its
    accelerators does. *)
Definition time_sliced : gmap str str :=
  {[ "nvidia.com/gpu.product" := "A100"; "nvidia.com/gpu.count" := "8"; "nvidia.com/gpu.replicas" := "32" ]}.

(** The two labels set one fact in the order of the range, so nothing but the order makes the
    digest of an unchanged node differ. *)
Lemma ambiguous_count :
  let _ := plain_quantities in
  let node := MkNode time_sliced ∅ false "6.8" "linux" "amd64" in
  let m := MkMachine "Ubuntu" ∅ in
  classify (fingerprintDigest (observeNode in_key_order node m))
    (fingerprintDigest (observeNode in_reverse node m)) = driftChanged.
Proof. vm_compute. reflexivity. Qed.

(** Accelerators only labels of no vendor describe have no vendor, where the comment says
    unknown. *)
Lemma unattributed_no_vendor :
  let _ := plain_quantities in
  gp_Vendor <$> gpusFromLabels key_order key_order {[ "feature.node.kubernetes.io/gpu.model" := "A100" ]} = [""].
Proof. vm_compute. reflexivity. Qed.

(** *** Witnesses *)
Definition small_observation (kernel : str) : Observation :=
  MkObservation "Ubuntu" kernel {[ "nvidia.com/gpu.count" := "1" ]}
    [MkGPU 0 "nvidia" "A100" "ampere" 0 "550"] [MkNIC "eth0" "fabric" "15b3" "" "mlx5_0" "" 200000 9000].

Lemma small_observation_clean k : nul_free k → clean_observation (small_observation k).
Proof.
  intros Hk. split; [done|done| | |].
  - by apply map_Forall_singleton.
  - by repeat constructor.
  - by repeat constructor.
Qed.

Lemma digest_faithful_witness :
  Sum256 (hashed (small_observation "5")) ≠ Sum256 (hashed (small_observation "6")) ∧
  classify (fingerprintDigest (small_observation "5")) (fingerprintDigest (small_observation "6")) =
    driftChanged.
Proof.
  assert (bool_decide (Sum256 (hashed (small_observation "5")) = Sum256 (hashed (small_observation "6"))) = false)
    as Hne by (vm_compute; reflexivity).
  apply bool_decide_eq_false in Hne. split; [exact Hne|].
  rewrite (digest_faithful (small_observation "5") (small_observation "6")
    (small_observation_clean "5" eq_refl) (small_observation_clean "6" eq_refl)
    (λ Heq, False_ind _ (Hne Heq))).
  reflexivity.
Defined.
