(* ===== verification/Fingerprint.v ===== *)
(** * The fingerprint reconciler (internal/controller/nodefingerprint_controller.go, cordonreaper.go)

    One pass over a node: the orphaned-cordon reaper first, then the fingerprint is found or
    created, derived again, compared with the stored one and written when it moved.  The state
    is the cluster of World with the stored fingerprints beside it; both spend one script of
    faults. *)

From S2P Require Import Prelude GoStrings GoFloat GoSha256 GoTime Registry Api Pods Attempt Effects World.
From S2P Require Import Cordon Lifecycle Identity.
Open Scope stdpp_scope.

(** ** State *)
Record FingerprintStatus := MkFingerprintStatus {
  fs_CapturedAt : option Z;
  fs_Observation : Observation;
  fs_Digest : str;
  fs_ObservedGeneration : Z;
  fs_Conditions : gmap str (Condition * Z);  (* with the generation each observed *)
}.

Record NodeFingerprint := MkFingerprint {
  fp_NodeName : str;
  fp_Generation : Z;
  fp_Status : FingerprintStatus;
}.

Local Instance FingerprintCondition_eq_dec : EqDecision Condition.
Proof. solve_decision. Defined.
Global Instance FingerprintStatus_eq_dec : EqDecision FingerprintStatus.
Proof. solve_decision. Defined.

Definition set_fp_Status (v : FingerprintStatus) (fp : NodeFingerprint) : NodeFingerprint :=
  MkFingerprint (fp_NodeName fp) (fp_Generation fp) v.

Definition noObservation : Observation := MkObservation "" "" ∅ [] [].
Definition noStatus : FingerprintStatus := MkFingerprintStatus None noObservation "" 0 ∅.

Definition cordonReapInterval : Z := (5 * 60 * second)%Z.

Definition ConditionDrifted : str := "Drifted".
Definition EventReasonHardwareDrift : str := "HardwareDrift".

Section reconciler.
Context `{QuantityLib}.
Variable IsDNS1123Subdomain : str → bool.

(** The cluster, the fingerprints of the operator's namespace by name, what each kubelet
    reports, and the events recorded, newest first. *)
Record fstate := MkFstate {
  f_st : st;
  f_store : gmap str NodeFingerprint;
  f_machines : gmap str Machine;
  f_events : list (str * str);
}.

Notation F := (eff fstate).

Definition set_f_st (v : st) (s : fstate) : fstate := MkFstate v (f_store s) (f_machines s) (f_events s).
Definition set_f_store (v : gmap str NodeFingerprint) (s : fstate) : fstate :=
  MkFstate (f_st s) v (f_machines s) (f_events s).

(** A handler of the cluster alone. *)
Definition on_cluster {A} (m : M A) : F A := λ s,
  let '(r, s') := m (f_st s) in (r, set_f_st s' s).

(** One call about a fingerprint; it spends a fault as every call does. *)
Definition fp_call {A} (name : str) (f : gmap str NodeFingerprint → (A + error_class) * gmap str NodeFingerprint)
    : F A := λ s,
  let w := s_world (f_st s) in
  let s0 := set_f_st (spent (f_st s)) s in
  let report c := inr (MkError c (w_text w c name)) in
  match head (w_faults w) with
  | Some (Reject structured) => (report (failure structured), s0)
  | Some (Lost structured) => (report (failure structured), set_f_store (f (f_store s)).2 s0)
  | Some Land | None =>
      let '(r, store) := f (f_store s) in
      (match r with inl a => inl a | inr c => report c end, set_f_store store s0)
  end.

Definition getFingerprint (name : str) : F NodeFingerprint :=
  fp_call name (λ store, (match store !! name with Some fp => inl fp | None => inr NotFound end, store)).

Definition createFingerprint (name : str) (fp : NodeFingerprint) : F NodeFingerprint :=
  fp_call name (λ store,
    match store !! name with
    | Some _ => (inr AlreadyExists, store)
    | None => (inl fp, <[name := fp]> store)
    end).

(** [r.Status().Update(ctx, fp)] *)
Definition updateFingerprintStatus (name : str) (status : FingerprintStatus) : F () :=
  fp_call name (λ store,
    match store !! name with
    | None => (inr NotFound, store)
    | Some fp => (inl tt, <[name := set_fp_Status status fp]> store)
    end).

Definition event (reason message : str) : F () := λ s,
  (inl tt, MkFstate (f_st s) (f_store s) (f_machines s) ((reason, message) :: f_events s)).

Definition clusterNow : F Z := λ s, (inl (w_now (s_world (f_st s))), s).
Definition getMachine (name : str) : F Machine := λ s,
  (inl (default (MkMachine "" ∅) (f_machines s !! name)), s).

(** ** The pass *)
(** A live stamp is looked at again after a while. *)
Definition look_again (live : bool) : requeue := if live then After cordonReapInterval else Stop.

Definition reapCordon (name : str) (node : Node) : F requeue :=
  live ← on_cluster (reapOrphanedCordon name node); mret (look_again live).

(** [None]: the name is taken by another node's fingerprint. *)
Definition ensureFingerprint (node : str) : F (option NodeFingerprint) :=
  let name := fingerprintName IsDNS1123Subdomain node in
  r ← try (getFingerprint name);
  match r with
  | inr e =>
      if IsNotFound e
      then fp ← createFingerprint name (MkFingerprint node 1 noStatus); mret (Some fp)
      else throw e
  | inl fp => mret (if String.eqb (fp_NodeName fp) node then Some fp else None)
  end.

Definition is_drifted (conditions : gmap str (Condition * Z)) : bool :=
  match conditions !! ConditionDrifted with Some (c, _) => cd_Status c | None => false end.

Definition drift_condition (drift : driftVerdict) (change : str) : Condition :=
  match drift with
  | driftBaseline => MkCondition false "BaselineCaptured"
      "baseline captured; there is no earlier fingerprint to compare against"
  | driftStable => MkCondition false "DigestStable"
      "salient hardware identity is unchanged since the baseline"
  | driftIncomparable => MkCondition false "DigestSchemeChanged"
      "stored digest was produced by a different digest scheme; re-baselined without any claim about the hardware"
  | driftChanged => MkCondition true "DigestChanged"
      (clampConditionMessage ("salient hardware identity changed since the baseline: " +:+ change))
  end.

Definition applyDriftCondition (conditions : gmap str (Condition * Z)) (drift : driftVerdict) (change : str)
    (generation : Z) : gmap str (Condition * Z) :=
  if negb (bool_decide (drift = driftChanged)) && is_drifted conditions then conditions
  else <[ConditionDrifted := (drift_condition drift change, generation)]> conditions.

(** [sameObservation] compares what is observed and its digest: the bookkeeping is not in
    either. *)
Definition sameObservation (before : FingerprintStatus) (observed : Observation) (digest : str) : bool :=
  bool_decide (fs_Observation before = observed) && String.eqb (fs_Digest before) digest.

(** The status to write, and the verdict with its description. *)
Definition desired_status (before : FingerprintStatus) (observed : Observation) (generation now : Z)
    : FingerprintStatus * driftVerdict * str :=
  let digest := fingerprintDigest observed in
  let same := sameObservation before observed digest in
  let captured := if same then match fs_CapturedAt before with Some t => t | None => now end else now in
  let drift := classify (fs_Digest before) digest in
  let change := if bool_decide (drift = driftChanged) then describeDrift (fs_Observation before) observed else "" in
  (MkFingerprintStatus (Some captured) observed digest generation
     (applyDriftCondition (fs_Conditions before) drift change generation), drift, change).

Definition drift_message (node change : str) : str :=
  "hardware identity of node " +:+ node +:+ " changed since the baseline: " +:+ change +:+
  " — verdicts recorded against the previous fingerprint no longer describe this node".

(** The fingerprint in hand is written when it moved, and a drift is announced once the write
    was answered. *)
Definition captureFingerprint (o : orders) (name : str) (node : Node) (fp : NodeFingerprint) (res : requeue)
    : F requeue :=
  m ← getMachine name; t ← clusterNow;
  let '(desired, drift, change) :=
    desired_status (fp_Status fp) (observeNode o node m) (fp_Generation fp) t in
  if bool_decide (fp_Status fp = desired) then mret res
  else
    updateFingerprintStatus (fingerprintName IsDNS1123Subdomain name) desired ;;
    when (bool_decide (drift = driftChanged)) (event EventReasonHardwareDrift (drift_message name change)) ;;
    mret res.

Definition ReconcileNode (o : orders) (name : str) : F requeue :=
  r ← try (on_cluster (getNode name));
  match r with
  | inr e => if IsNotFound e then mret Stop else throw e
  | inl node =>
      res ← reapCordon name node;
      fp ← ensureFingerprint name;
      match fp with
      | None => mret res
      | Some fp => captureFingerprint o name node fp res
      end
  end.
(** ** What wakes the reconciler *)
(** [nodeIdentityChanged], on an update of a node. *)
Definition nodeIdentityChanged (old new : Node) (old_m new_m : Machine) : bool :=
  negb (bool_decide (nd_Labels old = nd_Labels new)) ||
  negb (String.eqb (mc_OSImage old_m) (mc_OSImage new_m) && String.eqb (nd_Kernel old) (nd_Kernel new) &&
        String.eqb (nd_OS old) (nd_OS new) && String.eqb (nd_Arch old) (nd_Arch new)) ||
  negb (String.eqb (annotation AnnotationCordonOwner old) (annotation AnnotationCordonOwner new)).

(** The node to look at when a fingerprint of [namespace] changed. *)
Definition nodeForFingerprint (operator namespace : str) (fp : NodeFingerprint) : list str :=
  if negb (String.eqb namespace operator) || String.eqb (fp_NodeName fp) "" then [] else [fp_NodeName fp].

(** The namespace fingerprints are written to: the one configured, or the one the service
    account's file names; [serviceAccount] is what reading it gives. *)
Definition fingerprint_namespace (configured : str) (serviceAccount : str + str) : str + str :=
  if negb (String.eqb configured "") then inl configured
  else
    match serviceAccount with
    | inr e => inr ("NodeFingerprint namespace is unknown: set POD_NAMESPACE from the downward API " +:+
        "(fieldRef metadata.namespace) or NodeFingerprintReconciler.Namespace; refusing to guess where to " +:+
        "write fingerprints: " +:+ e)
    | inl raw =>
        let namespace := TrimSpace raw in
        if String.eqb namespace "" then inr "NodeFingerprint namespace resolved to the empty string"
        else inl namespace
    end.
End reconciler.

(** ** Lemmas *)
Section passes.
Context `{QuantityLib}.
Variable IsDNS1123Subdomain : str → bool.
Notation fp_name := (fingerprintName IsDNS1123Subdomain).

Definition new_fingerprint (node : str) : NodeFingerprint := MkFingerprint node 1 noStatus.

(** What a call about fingerprints leaves: the store is as before or as the call has it, and
    as the call has it when it was answered. *)
Lemma fp_call_spec {A} name (f : gmap str NodeFingerprint → (A + error_class) * gmap str NodeFingerprint) s :
  let p := fp_call name f s in
  f_events p.2 = f_events s ∧ f_machines p.2 = f_machines s ∧
  match p.1 with
  | inl a => f (f_store s) = (inl a, f_store p.2)
  | inr _ => f_store p.2 = f_store s ∨ f_store p.2 = (f (f_store s)).2
  end.
Proof.
  unfold fp_call. destruct (head (w_faults (s_world (f_st s)))) as [[| |]|]; cbn;
    try (destruct (f (f_store s)) as [[a|c] store] eqn:E; cbn); naive_solver.
Qed.

Lemma getFingerprint_spec name s :
  let p := getFingerprint name s in
  f_events p.2 = f_events s ∧ f_machines p.2 = f_machines s ∧ f_store p.2 = f_store s ∧
  ∀ fp, p.1 = inl fp → f_store s !! name = Some fp.
Proof.
  intros p. destruct (fp_call_spec name (λ store,
    (match store !! name with Some fp => inl fp | None => inr NotFound end, store)) s) as (He & Hm & Hs).
  subst p. unfold getFingerprint. destruct (fp_call _ _ s) as [[fp|e] s']; cbn in *.
  - split_and!; [done..| |]; destruct (f_store s !! name); naive_solver.
  - split_and!; [done..|naive_solver|done].
Qed.

(** The store after a fingerprint was looked for and, when missing, created. *)
Definition ensured (node : str) (store store' : gmap str NodeFingerprint) : Prop :=
  store' = store ∨ (store !! fp_name node = None ∧ store' = <[fp_name node := new_fingerprint node]> store).

Lemma createFingerprint_spec node s :
  let p := createFingerprint (fp_name node) (new_fingerprint node) s in
  f_events p.2 = f_events s ∧ f_machines p.2 = f_machines s ∧ ensured node (f_store s) (f_store p.2) ∧
  ∀ fp, p.1 = inl fp → fp = new_fingerprint node ∧ f_store p.2 !! fp_name node = Some fp.
Proof.
  intros p. unfold createFingerprint in p.
  destruct (fp_call_spec (fp_name node) (λ store,
    match store !! fp_name node with
    | Some _ => (inr AlreadyExists, store)
    | None => (inl (new_fingerprint node), <[fp_name node := new_fingerprint node]> store)
    end) s) as (He & Hm & Hs).
  fold p in He, Hm, Hs. clearbody p. destruct p as [[fp|e] s']; cbn in *; (split; [done|]; split; [done|]);
    destruct (f_store s !! fp_name node) as [fp0|] eqn:E; unfold ensured; cbn in Hs.
  - by injection Hs.
  - injection Hs as <- <-. split; [by right|]. intros fp [= <-]. split; [done|]. apply lookup_insert_eq.
  - split; [naive_solver|done].
  - split; [naive_solver|done].
Qed.

Lemma ensureFingerprint_spec node s :
  let p := ensureFingerprint IsDNS1123Subdomain node s in
  f_events p.2 = f_events s ∧ f_machines p.2 = f_machines s ∧ ensured node (f_store s) (f_store p.2) ∧
  ∀ fp, p.1 = inl (Some fp) → fp_NodeName fp = node ∧ f_store p.2 !! fp_name node = Some fp.
Proof.
  unfold ensureFingerprint, mbind, M_bind, try.
  pose proof (getFingerprint_spec (fp_name node) s) as (He & Hm & Hs & Hfp).
  destruct (getFingerprint (fp_name node) s) as [[fp|e] s1]; cbn in *.
  - split_and!; [done..|by left|]. intros fp'. rewrite Hs.
    destruct (String.eqb_spec (fp_NodeName fp) node) as [<-|]; [|done].
    intros [= <-]. split; [done|]. by apply Hfp.
  - destruct (IsNotFound e); cbn; [|by split_and!; [..|left|]].
    pose proof (createFingerprint_spec node s1) as (He1 & Hm1 & Hs1 & Hfp1).
    unfold new_fingerprint in *.
    destruct (createFingerprint _ _ s1) as [[fp|e1] s2]; cbn in *; rewrite Hs in Hs1;
      (split; [congruence|]; split; [congruence|]; split; [done|]); [|done].
    intros fp' [= <-]. by destruct (Hfp1 fp eq_refl) as [-> ?].
Qed.

(** The status a pass wants of a fingerprint in hand, with the verdict. *)
Definition wanted (o : orders) (node : Node) (m : Machine) (t : Z) (fp : NodeFingerprint)
    : FingerprintStatus * driftVerdict * str :=
  desired_status (fp_Status fp) (observeNode o node m) (fp_Generation fp) t.

Definition machine_of (name : str) (s : fstate) : Machine := default (MkMachine "" ∅) (f_machines s !! name).

Definition answered {A} (r : A + error) : Prop := match r with inl _ => True | inr _ => False end.

(** What a pass leaves that has the fingerprint [fp] in hand: nothing moved; or the status was
    written, and announced if it tells of a drift and the write was answered. *)
Definition captured (o : orders) (name : str) (node : Node) (t : Z) (fp : NodeFingerprint) (s s' : fstate)
    (ok : Prop) : Prop :=
  let d := wanted o node (machine_of name s) t fp in
  (f_store s' = f_store s ∧ f_events s' = f_events s ∧ (ok → fp_Status fp = d.1.1)) ∨
  (f_store s' = <[fp_name name := set_fp_Status d.1.1 fp]> (f_store s) ∧
   ((f_events s' = f_events s ∧ (ok → d.1.2 ≠ driftChanged)) ∨
    (d.1.2 = driftChanged ∧ ∃ message, f_events s' = (EventReasonHardwareDrift, message) :: f_events s))).

Lemma captureFingerprint_spec o name node fp res s :
  f_store s !! fp_name name = Some fp →
  let p := captureFingerprint IsDNS1123Subdomain o name node fp res s in
  captured o name node (w_now (s_world (f_st s))) fp s p.2 (answered p.1).
Proof.
  intros Hfp p. subst p. unfold captureFingerprint, mbind, M_bind, getMachine, clusterNow, captured.
  fold (machine_of name s). fold (wanted o node (machine_of name s) (w_now (s_world (f_st s))) fp).
  destruct (wanted _ _ _ _ fp) as [[desired drift] change]. cbn [fst snd].
  case_bool_decide as Heq; [by left|].
  pose proof (fp_call_spec (fp_name name) (λ store, match store !! fp_name name with
    | None => (inr NotFound, store)
    | Some fp => (inl tt, <[fp_name name := set_fp_Status desired fp]> store) end) s) as (He & Hm & Hs).
  unfold updateFingerprintStatus. rewrite Hfp in Hs.
  destruct (fp_call _ _ s) as [[[]|e] s1]; cbn in He, Hm, Hs |- *.
  - injection Hs as Hs. right. case_bool_decide as Hd; cbn; (split; [done|]).
    + right. split; [done|]. eexists. by rewrite He.
    + by left.
  - destruct Hs as [Hs|Hs]; [left|right]; naive_solver.
Qed.

(** What a pass leaves of the fingerprints and the events. *)
Definition passed (o : orders) (name : str) (s s' : fstate) (ok : Prop) : Prop :=
  ∃ s1, ensured name (f_store s) (f_store s1) ∧ f_events s1 = f_events s ∧ f_machines s1 = f_machines s ∧
    ((f_store s' = f_store s1 ∧ f_events s' = f_events s1) ∨
     ∃ node fp t, w_nodes (s_world (f_st s)) !! name = Some node ∧
       f_store s1 !! fp_name name = Some fp ∧ fp_NodeName fp = name ∧ captured o name node t fp s1 s' ok).

Lemma reapCordon_spec name node s :
  let s' := (reapCordon name node s).2 in
  f_store s' = f_store s ∧ f_events s' = f_events s ∧ f_machines s' = f_machines s.
Proof.
  unfold reapCordon, mbind, M_bind, on_cluster.
  by destruct (reapOrphanedCordon name node (f_st s)) as [[live|e] s1].
Qed.

Lemma getNode_some name s node : (on_cluster (getNode name) s).1 = inl node → w_nodes (s_world (f_st s)) !! name = Some node.
Proof.
  unfold on_cluster, getNode, read, call.
  destruct (head (w_faults (s_world (f_st s)))) as [[| |]|]; cbn; try done;
    destruct (w_nodes _ !! name); cbn; congruence.
Qed.

Lemma on_cluster_store {A} (m : M A) s :
  f_store (on_cluster m s).2 = f_store s ∧ f_events (on_cluster m s).2 = f_events s ∧
  f_machines (on_cluster m s).2 = f_machines s.
Proof. unfold on_cluster. by destruct (m (f_st s)). Qed.

Lemma passed_nothing o name s s' ok :
  f_store s' = f_store s ∧ f_events s' = f_events s ∧ f_machines s' = f_machines s → passed o name s s' ok.
Proof. intros (Hs & He & Hm). exists s'. split_and!; [by left|done..|by left]. Qed.

Lemma ReconcileNode_spec o name s :
  let p := ReconcileNode IsDNS1123Subdomain o name s in passed o name s p.2 (answered p.1).
Proof.
  unfold ReconcileNode, mbind, M_bind, try.
  pose proof (on_cluster_store (getNode name) s) as Hg. pose proof (getNode_some name s) as Hnode.
  destruct (on_cluster (getNode name) s) as [[node|e] s0]; cbn in Hg, Hnode |- *.
  2: { destruct (IsNotFound e); by apply passed_nothing. }
  pose proof (reapCordon_spec name node s0) as Hr. specialize (Hnode node eq_refl).
  destruct Hg as (Hg1 & Hg2 & Hg3).
  destruct (reapCordon name node s0) as [[res|e] s1]; cbn in Hr |- *; destruct Hr as (Hr1 & Hr2 & Hr3).
  2: { apply passed_nothing. split_and!; congruence. }
  pose proof (ensureFingerprint_spec name s1) as (He & Hm & Hen & Hfp).
  destruct (ensureFingerprint _ name s1) as [[[fp|]|e] s2]; cbn in He, Hm, Hen, Hfp |- *;
    rewrite Hr1, Hg1 in Hen; exists s2; (split; [done|]; split; [congruence|]; split; [congruence|]);
    [right|by left..].
  destruct (Hfp fp eq_refl) as [Hname Hin]. exists node, fp, (w_now (s_world (f_st s2))).
  split_and!; [done..|]. by apply captureFingerprint_spec.
Qed.

Definition drifted (fp : NodeFingerprint) : Prop := is_drifted (fs_Conditions (fp_Status fp)) = true.

Lemma is_drifted_insert conditions c g : is_drifted (<[ConditionDrifted := (c, g)]> conditions) = cd_Status c.
Proof. unfold is_drifted. by rewrite lookup_insert_eq. Qed.

Lemma applyDrift_sticky conditions drift change g :
  is_drifted conditions = true → is_drifted (applyDriftCondition conditions drift change g) = true.
Proof.
  intros Hd. unfold applyDriftCondition. rewrite Hd. case_bool_decide as E; cbn; [|done].
  by rewrite is_drifted_insert, E.
Qed.

Lemma applyDrift_changed conditions change g :
  is_drifted (applyDriftCondition conditions driftChanged change g) = true.
Proof.
  unfold applyDriftCondition. rewrite bool_decide_true by done. cbn. by rewrite is_drifted_insert.
Qed.

Lemma classify_changed stored s :
  stored ≠ "" → digestScheme stored = digestSchemeVersion → stored ≠ fingerprintDigest s →
  classify stored (fingerprintDigest s) = driftChanged.
Proof.
  intros Hne Hs Hd. unfold classify. rewrite digestScheme_own, Hs.
  rewrite (proj2 (String.eqb_neq _ _) Hne), (proj2 (String.eqb_neq _ _) Hd). done.
Qed.

Section wanted.
Context (o : orders) (node : Node) (m : Machine) (t : Z) (fp : NodeFingerprint).
Notation d := (wanted o node m t fp).

Lemma wanted_digest : fs_Digest d.1.1 = fingerprintDigest (observeNode o node m).
Proof. done. Qed.

Lemma wanted_drift : d.1.2 = classify (fs_Digest (fp_Status fp)) (fingerprintDigest (observeNode o node m)).
Proof. done. Qed.

Lemma wanted_sticky : drifted fp → drifted (set_fp_Status d.1.1 fp).
Proof. apply applyDrift_sticky. Qed.

Lemma wanted_drifted : d.1.2 = driftChanged → drifted (set_fp_Status d.1.1 fp).
Proof.
  rewrite wanted_drift. intros Hd. unfold drifted, wanted, desired_status. rewrite Hd.
  apply applyDrift_changed.
Qed.

Lemma wanted_moved :
  fs_Digest (fp_Status fp) ≠ "" → digestScheme (fs_Digest (fp_Status fp)) = digestSchemeVersion →
  fs_Digest (fp_Status fp) ≠ fs_Digest d.1.1 → d.1.2 = driftChanged.
Proof. rewrite wanted_digest, wanted_drift. apply classify_changed. Qed.
End wanted.

(** A stored digest of this operator's scheme. *)
Definition comparable (fp : NodeFingerprint) : Prop :=
  fs_Digest (fp_Status fp) ≠ "" ∧ digestScheme (fs_Digest (fp_Status fp)) = digestSchemeVersion.

Definition announces (s s' : fstate) : Prop :=
  ∃ message, f_events s' = (EventReasonHardwareDrift, message) :: f_events s.

(** What a pass may do to one stored fingerprint. *)
Definition kept (o : orders) (name : str) (s s' : fstate) (ok : Prop) (k : str) (fp fp' : NodeFingerprint) : Prop :=
  fp_NodeName fp' = fp_NodeName fp ∧
  (fp_NodeName fp ≠ name ∨ k ≠ fp_name name → fp' = fp) ∧
  (drifted fp → drifted fp') ∧
  (fs_Digest (fp_Status fp') ≠ fs_Digest (fp_Status fp) →
   (∃ node, w_nodes (s_world (f_st s)) !! name = Some node ∧
     fs_Digest (fp_Status fp') = fingerprintDigest (observeNode o node (machine_of name s))) ∧
   (comparable fp → drifted fp' ∧ (ok → announces s s'))).

Lemma kept_untouched o name s s' ok k fp : kept o name s s' ok k fp fp.
Proof. by split_and!. Qed.

(** A fingerprint that was there is the one in hand, or is not touched. *)
Lemma ensured_lookup node store store' k fp :
  ensured node store store' → store !! k = Some fp → store' !! k = Some fp.
Proof.
  intros [->|[Hn ->]] Hk; [done|]. rewrite lookup_insert_ne; [done|]. intros <-. congruence.
Qed.

Lemma captured_kept o name node t fp s s1 s' ok k fp0 :
  w_nodes (s_world (f_st s)) !! name = Some node → f_machines s1 = f_machines s → f_events s1 = f_events s →
  f_store s1 !! fp_name name = Some fp → fp_NodeName fp = name → captured o name node t fp s1 s' ok →
  f_store s1 !! k = Some fp0 → ∃ fp', f_store s' !! k = Some fp' ∧ kept o name s s' ok k fp0 fp'.
Proof.
  intros Hnode Hm He Hfp Hname Hcap Hk.
  destruct Hcap as [(Hs & _ & _)|(Hs & Hev)]; rewrite Hs.
  { exists fp0. split; [done|apply kept_untouched]. }
  destruct (decide (k = fp_name name)) as [->|Hne].
  2: { exists fp0. rewrite lookup_insert_ne by done. split; [done|apply kept_untouched]. }
  rewrite Hfp in Hk. injection Hk as <-.
  assert (machine_of name s1 = machine_of name s) as Hmo by (unfold machine_of; by rewrite Hm).
  rewrite Hmo in Hs, Hev. exists (set_fp_Status (wanted o node (machine_of name s) t fp).1.1 fp).
  rewrite Hmo, lookup_insert_eq. split; [done|].
  split_and!; [done|naive_solver|apply wanted_sticky|]. intros Hd. split.
  - exists node. split; [done|apply wanted_digest].
  - intros [Hne Hscheme].
    assert ((wanted o node (machine_of name s) t fp).1.2 = driftChanged) as Hch.
    { apply wanted_moved; [done..|]. cbn [set_fp_Status fp_Status] in Hd. congruence. }
    split; [by apply wanted_drifted|]. intros Hok. unfold announces. rewrite <-He. naive_solver.
Qed.

(** A fingerprint that appears is the node's, under its own name. *)
Lemma captured_new o name node t fp s1 s' ok k :
  f_store s1 !! fp_name name = Some fp → captured o name node t fp s1 s' ok →
  f_store s1 !! k = None → f_store s' !! k = None.
Proof.
  intros Hfp [(Hs & _ & _)|(Hs & _)] Hk; rewrite Hs; [done|].
  rewrite lookup_insert_ne; [done|]. intros <-. congruence.
Qed.

Lemma ensured_new node store store' k :
  ensured node store store' → k ≠ fp_name node → store !! k = None → store' !! k = None.
Proof. intros [->|[_ ->]] Hk; [done|]. by rewrite lookup_insert_ne. Qed.

(** An event tells of a drift that is stored. *)
Lemma captured_events o name node t fp s1 s' ok :
  captured o name node t fp s1 s' ok →
  f_events s' = f_events s1 ∨
  (announces s1 s' ∧ ∃ fp', f_store s' !! fp_name name = Some fp' ∧ drifted fp').
Proof.
  intros [(_ & He & _)|(Hs & [[He _]|[Hd Hev]])]; [by left..|]. right. split; [done|].
  rewrite Hs, lookup_insert_eq. eexists. split; [done|]. by apply wanted_drifted.
Qed.

(** C25: A pass over a node, whatever calls fail: every stored fingerprint stays, under its
    node's name; one that is another node's, or under another name, is untouched, even when
    it takes the very name this node's would have; and none appears but under this node's
    name.  A Drifted condition is never taken back.  A digest moves only to that of what the
    node shows, and when the old one was comparable the move is recorded as drift and, if
    the pass succeeds, announced.  An event is recorded only when the drift it tells of is
    stored. *)
Theorem fingerprint_pass o name s :
  let p := ReconcileNode IsDNS1123Subdomain o name s in
  (∀ k fp, f_store s !! k = Some fp → ∃ fp', f_store p.2 !! k = Some fp' ∧
     kept o name s p.2 (answered p.1) k fp fp') ∧
  (∀ k, k ≠ fp_name name → f_store s !! k = None → f_store p.2 !! k = None) ∧
  (f_events p.2 = f_events s ∨
   (announces s p.2 ∧ ∃ fp', f_store p.2 !! fp_name name = Some fp' ∧ drifted fp')).
Proof.
  intros p. destruct (ReconcileNode_spec o name s) as (s1 & Hen & He & Hm & Hp). fold p in Hp.
  unfold announces. rewrite <-He.
  destruct Hp as [[Hs Hev]|(node & fp & t & Hnode & Hfp & Hname & Hcap)].
  - split_and!; [|rewrite Hs; intros k; by apply ensured_new|by left].
    intros k fp Hk. exists fp. rewrite Hs. split; [by eapply ensured_lookup|apply kept_untouched].
  - split_and!.
    + intros k fp0 Hk. eapply captured_kept; [done..|by eapply ensured_lookup].
    + intros k Hk Hn. eapply captured_new; [done..|by eapply ensured_new].
    + by eapply captured_events.
Qed.

(** *** With no failed call *)
Definition quiet (s : fstate) : Prop := w_faults (s_world (f_st s)) = [].

Lemma spent_quiet s : w_faults (s_world s) = [] → spent s = s.
Proof. destruct s as [run busy w]. cbn. destruct w. cbn. by intros ->. Qed.

Lemma set_f_st_id s : set_f_st (f_st s) s = s.
Proof. by destruct s. Qed.

Lemma fp_call_quiet {A} name (f : gmap str NodeFingerprint → (A + error_class) * gmap str NodeFingerprint) s a store :
  quiet s → f (f_store s) = (inl a, store) → fp_call name f s = (inl a, set_f_store store s).
Proof.
  intros Hq Hf. unfold fp_call. rewrite Hq, (spent_quiet _ Hq), set_f_st_id, Hf. done.
Qed.

(** What the reaper leaves of a node when its calls succeed: labels, system info, the clock. *)
Lemma reap_quiet name node s :
  quiet s → w_nodes (s_world (f_st s)) !! name = Some node →
  ∃ res s' node', reapCordon name node s = (inl res, s') ∧ quiet s' ∧
    w_now (s_world (f_st s')) = w_now (s_world (f_st s)) ∧
    w_nodes (s_world (f_st s')) !! name = Some node' ∧
    nd_Labels node' = nd_Labels node ∧ nd_Kernel node' = nd_Kernel node ∧
    f_store s' = f_store s ∧ f_events s' = f_events s ∧ f_machines s' = f_machines s.
Proof.
  intros Hq Hn.
  assert (∃ live st', reapOrphanedCordon name node (f_st s) = (inl live, st') ∧
    w_faults (s_world st') = [] ∧ w_now (s_world st') = w_now (s_world (f_st s)) ∧
    ∃ node', w_nodes (s_world st') !! name = Some node' ∧ nd_Labels node' = nd_Labels node ∧
      nd_Kernel node' = nd_Kernel node) as (live & st' & Hr & Hq' & Hw & node' & Hn' & Hl & Hk).
  2: { exists (look_again live), (set_f_st st' s), node'. unfold reapCordon, mbind, M_bind, on_cluster.
       rewrite Hr. done. }
  assert (∀ uid, nd_Labels (reaped uid node) = nd_Labels node ∧ nd_Kernel (reaped uid node) = nd_Kernel node)
    as Hreaped.
  { intros uid. unfold reaped, dropHeatExpected. by repeat case_match. }
  unfold reapOrphanedCordon.
  destruct (nd_Annotations node !! AnnotationCordonOwner) as [stamp|]; [|by eauto 10].
  destruct (parseCordonOwner stamp) as [owner|]; [|by eauto 10].
  rewrite try_read_bind, Hq, (spent_quiet _ Hq). cbn [head].
  assert (∃ live st', (update_unless_gone name (reaped (co_uid owner) node) ;; mret false) (f_st s) = (inl live, st') ∧
    w_faults (s_world st') = [] ∧ w_now (s_world st') = w_now (s_world (f_st s)) ∧
    ∃ node', w_nodes (s_world st') !! name = Some node' ∧ nd_Labels node' = nd_Labels node ∧
      nd_Kernel node' = nd_Kernel node) as Hreap.
  { unfold update_unless_gone, updateNode, call, mbind, M_bind, try. rewrite Hq. cbn. rewrite Hn. cbn.
    eexists _, _. split; [done|]. cbn. split; [done|]. split; [done|].
    rewrite lookup_insert_eq. eexists. split; [done|]. apply Hreaped. }
  destruct (find_run _ _ _) as [run|]; [|exact Hreap]. destruct (String.eqb _ _); [by eauto 10|exact Hreap].
Qed.

(** The fingerprint a pass has in hand. *)
Definition in_hand (name : str) (store : gmap str NodeFingerprint) : NodeFingerprint :=
  default (new_fingerprint name) (store !! fp_name name).

(** No other node's fingerprint takes the name. *)
Definition name_free (name : str) (store : gmap str NodeFingerprint) : Prop :=
  ∀ fp, store !! fp_name name = Some fp → fp_NodeName fp = name.

Lemma set_f_store_id s : set_f_store (f_store s) s = s.
Proof. by destruct s. Qed.

Lemma set_fp_Status_id fp : set_fp_Status (fp_Status fp) fp = fp.
Proof. by destruct fp. Qed.

Lemma ensure_quiet name s :
  quiet s → name_free name (f_store s) →
  ensureFingerprint IsDNS1123Subdomain name s =
    (inl (Some (in_hand name (f_store s))),
     set_f_store (<[fp_name name := in_hand name (f_store s)]> (f_store s)) s).
Proof.
  intros Hq Hfree. unfold ensureFingerprint, in_hand, mbind, M_bind, try.
  destruct (f_store s !! fp_name name) as [fp|] eqn:E; cbn [default].
  - unfold getFingerprint. rewrite (fp_call_quiet _ _ _ fp (f_store s) Hq) by (by rewrite E).
    cbn. rewrite (Hfree fp E), String.eqb_refl. unfold mret, M_ret. by rewrite insert_id.
  - assert (getFingerprint (fp_name name) s = (inr (MkError NotFound (w_text (s_world (f_st s)) NotFound (fp_name name))), s)) as ->.
    { unfold getFingerprint, fp_call. rewrite Hq, (spent_quiet _ Hq), set_f_st_id, E. cbn.
      by rewrite set_f_store_id. }
    rewrite IsNotFound_NotFound. unfold createFingerprint. fold (new_fingerprint name).
    by rewrite (fp_call_quiet _ _ _ (new_fingerprint name) (<[fp_name name := new_fingerprint name]> (f_store s)) Hq)
      by (by rewrite E).
Qed.

Lemma capture_quiet o name node res s fp :
  quiet s → f_store s !! fp_name name = Some fp →
  let d := wanted o node (machine_of name s) (w_now (s_world (f_st s))) fp in
  let p := captureFingerprint IsDNS1123Subdomain o name node fp res s in
  p.1 = inl res ∧ f_st p.2 = f_st s ∧ f_machines p.2 = f_machines s ∧
  f_store p.2 = <[fp_name name := set_fp_Status d.1.1 fp]> (f_store s) ∧
  (d.1.2 ≠ driftChanged → f_events p.2 = f_events s).
Proof.
  intros Hq Hfp d p. subst p d. unfold captureFingerprint, mbind, M_bind, getMachine, clusterNow.
  fold (machine_of name s). fold (wanted o node (machine_of name s) (w_now (s_world (f_st s))) fp).
  destruct (wanted _ _ _ _ fp) as [[desired drift] change]. cbn [fst snd].
  case_bool_decide as Heq.
  - cbn. rewrite <-Heq, set_fp_Status_id, insert_id by done. done.
  - unfold updateFingerprintStatus.
    rewrite (fp_call_quiet _ _ _ tt (<[fp_name name := set_fp_Status desired fp]> (f_store s)) Hq) by (by rewrite Hfp).
    case_bool_decide as Hd; cbn; by split_and!.
Qed.

Lemma read_quiet {A} name (f : world → option A) a (s : st) :
  w_faults (s_world s) = [] → f (s_world s) = Some a → read name f s = (inl a, s).
Proof.
  destruct s as [run busy w]. unfold read, call. cbn. intros Hq Hf. rewrite Hq. cbn.
  assert (set_w_faults [] w = w) as -> by (destruct w; cbn in *; by subst). by rewrite Hf.
Qed.

(** A pass whose calls succeed: the fingerprint in hand becomes what the node shows. *)
Lemma pass_quiet o name node s :
  quiet s → w_nodes (s_world (f_st s)) !! name = Some node → name_free name (f_store s) →
  let fp := in_hand name (f_store s) in
  let d := wanted o node (machine_of name s) (w_now (s_world (f_st s))) fp in
  let s' := (ReconcileNode IsDNS1123Subdomain o name s).2 in
  quiet s' ∧ f_machines s' = f_machines s ∧
  (∃ node', w_nodes (s_world (f_st s')) !! name = Some node' ∧
     nd_Labels node' = nd_Labels node ∧ nd_Kernel node' = nd_Kernel node) ∧
  f_store s' = <[fp_name name := set_fp_Status d.1.1 fp]> (f_store s) ∧
  (d.1.2 ≠ driftChanged → f_events s' = f_events s).
Proof.
  intros Hq Hn Hfree fp d s'. subst s'. unfold ReconcileNode, mbind, M_bind, try.
  assert (on_cluster (getNode name) s = (inl node, s)) as ->.
  { unfold on_cluster, getNode. by rewrite (read_quiet _ _ node (f_st s) Hq Hn), set_f_st_id. }
  destruct (reap_quiet name node s Hq Hn)
    as (res & s1 & node' & -> & Hq1 & Hnow & Hn1 & Hl & Hk & Hs1 & He1 & Hm1).
  rewrite (ensure_quiet name s1 Hq1) by (by rewrite Hs1).
  assert (fp = in_hand name (f_store s1)) as Hfp by (unfold fp; by rewrite Hs1).
  rewrite <-Hfp. set (s2 := set_f_store _ s1).
  destruct (capture_quiet o name node res s2 fp Hq1) as (_ & Hst & Hm & Hs & He); [apply lookup_insert_eq|].
  assert (machine_of name s2 = machine_of name s) as Hmo by (unfold machine_of; cbn; by rewrite Hm1).
  change (w_now (s_world (f_st s2))) with (w_now (s_world (f_st s1))) in Hs, He.
  rewrite Hmo, Hnow in Hs, He. fold d in Hs, He. unfold quiet. rewrite Hst, Hm, Hs.
  split_and!; [done|done|by exists node'| |].
  - cbn. by rewrite insert_insert_eq, Hs1.
  - intros Hd. rewrite He by done. done.
Qed.

(** The clock moves between passes. *)
Definition at_time (t : Z) (s : fstate) : fstate :=
  set_f_st (set_s_world (set_w_now t (s_world (f_st s))) (f_st s)) s.

Definition pass_at (name : str) (o : orders) (t : Z) (s : fstate) : fstate :=
  (ReconcileNode IsDNS1123Subdomain o name (at_time t s)).2.

(** A status that shows the node as it is, with a judged condition, is what a pass wants. *)
Definition settled_status (obs : Observation) (g : Z) (status : FingerprintStatus) : Prop :=
  fs_CapturedAt status ≠ None ∧ fs_Observation status = obs ∧ fs_Digest status = fingerprintDigest obs ∧
  fs_ObservedGeneration status = g.

Lemma desired_settled before obs g t : settled_status obs g (desired_status before obs g t).1.1.
Proof. by split_and!. Qed.

Lemma desired_again status obs g t :
  settled_status obs g status →
  desired_status status obs g t =
    (MkFingerprintStatus (fs_CapturedAt status) obs (fs_Digest status) g
       (applyDriftCondition (fs_Conditions status) driftStable "" g), driftStable, "").
Proof.
  intros (Hc & Ho & Hd & Hg). unfold desired_status, sameObservation.
  rewrite Ho, Hd, bool_decide_true, String.eqb_refl by done. cbn [andb].
  rewrite classify_own, decide_True by done. cbn.
  destruct (fs_CapturedAt status); done.
Qed.

Lemma applyDrift_stable_twice conditions g :
  let again := applyDriftCondition conditions driftStable "" g in
  applyDriftCondition again driftStable "" g = again.
Proof.
  unfold applyDriftCondition. rewrite bool_decide_false by done. cbn.
  destruct (is_drifted conditions) eqn:E; cbn; [by rewrite E|].
  rewrite is_drifted_insert. cbn. by rewrite insert_insert_eq.
Qed.

(** A state between passes: the node shows what [node] and [m] say, and no call fails. *)
Definition showing (name : str) (node : Node) (m : Machine) (s : fstate) : Prop :=
  quiet s ∧ machine_of name s = m ∧ name_free name (f_store s) ∧
  ∃ node', w_nodes (s_world (f_st s)) !! name = Some node' ∧
    nd_Labels node' = nd_Labels node ∧ nd_Kernel node' = nd_Kernel node.

Lemma observe_same o o' node node' m :
  unambiguous (nd_Labels node) → nd_Labels node' = nd_Labels node → nd_Kernel node' = nd_Kernel node →
  observeNode o' node' m = observeNode o node m.
Proof.
  intros Hun Hl Hk. rewrite (observeNode_any o' o) by (by rewrite Hl). unfold observeNode. by rewrite Hl, Hk.
Qed.

Lemma in_hand_name name store : name_free name store → fp_NodeName (in_hand name store) = name.
Proof. intros Hfree. unfold in_hand. destruct (store !! fp_name name) eqn:E; [by apply Hfree|done]. Qed.

Lemma pass_showing name node m s o o' t :
  unambiguous (nd_Labels node) → showing name node m s →
  let fp := in_hand name (f_store s) in
  let d := desired_status (fp_Status fp) (observeNode o node m) (fp_Generation fp) t in
  let s' := pass_at name o' t s in
  showing name node m s' ∧ in_hand name (f_store s') = set_fp_Status d.1.1 fp ∧
  f_store s' = <[fp_name name := set_fp_Status d.1.1 fp]> (f_store s) ∧
  (d.1.2 ≠ driftChanged → f_events s' = f_events s).
Proof.
  intros Hun (Hq & <- & Hfree & node' & Hn & Hl & Hk) fp d s'.
  destruct (pass_quiet o' name node' (at_time t s) Hq Hn Hfree) as (Hq1 & Hm1 & (n1 & Hn1 & Hl1 & Hk1) & Hs1 & He1).
  fold (pass_at name o' t s) in Hq1, Hm1, Hn1, Hs1, He1. fold s' in Hq1, Hm1, Hn1, Hs1, He1.
  unfold wanted in Hs1, He1. change (machine_of name (at_time t s)) with (machine_of name s) in Hs1, He1.
  rewrite (observe_same o o' node node') in Hs1, He1 by done.
  change (f_store (at_time t s)) with (f_store s) in Hs1, He1. fold fp in Hs1, He1.
  change (w_now (s_world (f_st (at_time t s)))) with t in Hs1, He1. fold d in Hs1, He1.
  split_and!; [|unfold in_hand; by rewrite Hs1, lookup_insert_eq|done|done].
  split_and!; [done| | |exists n1; split_and!; [done|congruence|congruence]].
  - unfold machine_of. by rewrite Hm1.
  - intros fp'. rewrite Hs1, lookup_insert_eq. intros [= <-]. by apply in_hand_name.
Qed.

(** C24: The reconciler settles: on a node that does not change, with no failed call and
    no ambiguous labels, at whatever times and in whatever orders the ranges go, the
    second pass announces nothing, and from then on nothing is written: the fingerprint
    is the node's and shows it, and the third pass leaves every fingerprint and the events
    as the second did. *)
Theorem fingerprint_settles name node s o1 o2 o3 t1 t2 t3 :
  quiet s → w_nodes (s_world (f_st s)) !! name = Some node → unambiguous (nd_Labels node) →
  name_free name (f_store s) →
  let s1 := pass_at name o1 t1 s in let s2 := pass_at name o2 t2 s1 in let s3 := pass_at name o3 t3 s2 in
  (∃ fp, f_store s2 !! fp_name name = Some fp ∧ fp_NodeName fp = name ∧
     settled_status (observeNode o1 node (machine_of name s)) (fp_Generation fp) (fp_Status fp)) ∧
  f_events s2 = f_events s1 ∧ f_store s3 = f_store s2 ∧ f_events s3 = f_events s2.
Proof.
  intros Hq Hn Hun Hfree s1 s2 s3.
  assert (showing name node (machine_of name s) s) as Hshow by (split_and!; [done..|by exists node]).
  destruct (pass_showing name node _ s o1 o1 t1 Hun Hshow) as (Hshow1 & Hh1 & Hs1 & _).
  destruct (pass_showing name node _ s1 o1 o2 t2 Hun Hshow1) as (Hshow2 & Hh2 & Hs2 & He2).
  destruct (pass_showing name node _ s2 o1 o3 t3 Hun Hshow2) as (_ & _ & Hs3 & He3).
  fold s1 in Hh1, Hs1. fold s2 in Hh2, Hs2, He2. fold s3 in Hs3, He3.
  pose proof (desired_settled (fp_Status (in_hand name (f_store s))) (observeNode o1 node (machine_of name s))
    (fp_Generation (in_hand name (f_store s))) t1) as Hset.
  set (fp1 := in_hand name (f_store s1)) in *.
  assert (settled_status (observeNode o1 node (machine_of name s)) (fp_Generation fp1) (fp_Status fp1)) as Hset1
    by (by rewrite Hh1).
  rewrite (desired_again _ _ _ t2 Hset1) in Hh2, Hs2, He2. cbn [fst snd] in Hh2, Hs2, He2.
  set (fp2 := in_hand name (f_store s2)) in *.
  assert (settled_status (observeNode o1 node (machine_of name s)) (fp_Generation fp2) (fp_Status fp2)) as Hset2.
  { rewrite Hh2. destruct Hset1 as (? & ? & ? & ?). by split_and!. }
  rewrite (desired_again _ _ _ t3 Hset2) in Hs3, He3. cbn [fst snd] in Hs3, He3.
  assert (f_store s2 !! fp_name name = Some fp2) as Hin2 by (rewrite Hs2, Hh2; apply lookup_insert_eq).
  split_and!; [|by apply He2| |by apply He3].
  - exists fp2. split; [done|]. split; [|done]. by apply in_hand_name, Hshow2.
  - rewrite Hs3. apply insert_id. rewrite Hin2. f_equal. rewrite Hh2. cbn.
    by rewrite applyDrift_stable_twice.
Qed.
End passes.

(** A device plugin that registers changes what is observed, and does not wake the
    reconciler. *)
Lemma allocatable_unseen :
  let _ := plain_quantities in
  let node := MkNode ∅ ∅ false "6.8" "linux" "amd64" in
  let before := MkMachine "Ubuntu" ∅ in
  let after := MkMachine "Ubuntu" {[ "nvidia.com/gpu" := 8%Z ]} in
  nodeIdentityChanged node node before after = false ∧
  observeNode in_key_order node before ≠ observeNode in_key_order node after.
Proof. split; [by vm_compute|]. vm_compute. congruence. Qed.

(** ** Witnesses *)
Definition published : gmap str str :=
  {[ "nvidia.com/gpu.product" := "A100"; "nvidia.com/gpu.count" := "8";
     "feature.node.kubernetes.io/nic.eth0.role" := "fabric" ]}.

Definition settling_node : Node := MkNode published ∅ false "6.8" "linux" "amd64".

Definition settling_state : @fstate plain_quantities :=
  MkFstate (H := plain_quantities)
    (MkSt example_run ∅
      (MkWorld 0 None [] ∅ ∅ {[ "node-a" := settling_node ]} ∅ ∅ ∅ ∅ ∅ ∅ ∅ ∅ [] [] (λ _ _, "") []))
    ∅ ∅ [].

Lemma published_unambiguous : unambiguous published.
Proof.
  split; apply (bool_decide_unpack _); vm_compute; exact I.
Qed.

Lemma nothing_stored {A} (k : str) (a : A) : ¬ (∅ : gmap str A) !! k = Some a.
Proof. by rewrite lookup_empty. Qed.

Lemma fingerprint_settles_witness :
  let pass := pass_at (H := plain_quantities) (λ _, true) "node-a" in
  let s1 := pass in_key_order 5 settling_state in
  let s2 := pass in_reverse 6 s1 in
  quiet (H := plain_quantities) settling_state ∧
  f_store (pass in_key_order 7 s2) = f_store s2.
Proof.
  intros pass s1 s2. split; [reflexivity|].
  exact (proj1 (proj2 (proj2 (fingerprint_settles (H := plain_quantities) (λ _, true) "node-a"
    settling_node settling_state in_key_order in_reverse in_key_order 5 6 7
    eq_refl eq_refl published_unambiguous (λ fp E, False_ind _ (nothing_stored _ _ E)))))).
Defined.
