(* ===== verification/Stats.v ===== *)
(** * pkg/stats: the arithmetic behind baselines and comparison

    Location and spread, the type-7 quantile, the bootstrap of a difference, the prediction
    interval with a Student-t quantile found by bisection, and the steady-state test, over
    binary64 with every operation rounded once: no multiply is fused with an add.
    [math.Exp], [math.Log] and [math.Lgamma] are parameters, and so is the seeded generator,
    of which the source relies on [IntN] staying below its bound. *)

From S2P Require Import Prelude GoStrings GoFloat.
From Stdlib Require Import SpecFloat.
Open Scope stdpp_scope.

(** The functions of package math that are not exact. *)
Class Transcendental := {
  Exp : float64 → float64;
  Log : float64 → float64;
  Lgamma : float64 → float64;
}.

(** [math/rand/v2]'s PCG. *)
Class Random := {
  generator : Type;
  NewPCG : Z → Z → generator;
  IntN : nat → generator → nat * generator;
  IntN_bound : ∀ n g, (0 < n)%nat → ((IntN n g).1 < n)%nat;
}.

(** ** Constants *)
Definition half : float64 := Eval vm_compute in round_decimal false 5 (-1).
Definition ftwo : float64 := Eval vm_compute in float_of_Z 2.

(** ** Location and spread *)
Definition len_f {A} (x : list A) : float64 := float_of_Z (Z.of_nat (length x)).
Definition fsum (x : list float64) : float64 := fold_left fadd x fzero.

Definition Mean (x : list float64) : float64 :=
  match x with [] => S754_nan | _ => fdiv (fsum x) (len_f x) end.

Definition squares (m : float64) (x : list float64) : float64 :=
  fold_left (λ ss v, fadd ss (fmul (fsub v m) (fsub v m))) x fzero.

(** [None] below two samples. *)
Definition SampleSD (x : list float64) : option float64 :=
  if (length x <? 2)%nat then None
  else Some (fsqrt (fdiv (squares (Mean x) x) (float_of_Z (Z.of_nat (length x) - 1)))).

Definition CV (x : list float64) : option float64 :=
  sd ← SampleSD x;
  let m := Mean x in
  if feq m fzero then None else Some (fdiv sd (fabs m)).

(** ** Quantiles *)
(** The order of [sort.Float64s]: NaNs first. *)
Definition float_less (x y : float64) : bool := flt x y || (IsNaN x && negb (IsNaN y)).
Definition float_le (x y : float64) : Prop := float_less y x = false.

Global Instance float_le_dec : RelDecision float_le.
Proof. intros x y. unfold float_le. apply _. Defined.

Definition Float64s (x : list float64) : list float64 := merge_sort float_le x.

(** The index is in range when [p] is between 0 and 1. *)
Definition Quantile7 (sorted : list float64) (p : float64) : float64 :=
  match sorted with
  | [] => S754_nan
  | _ =>
      let n := length sorted in
      let h := fmul p (float_of_Z (Z.of_nat n - 1)) in
      let lo := floor_Z h in
      let at_ i := List.nth i sorted S754_nan in
      if (Z.of_nat n - 1 <=? lo)%Z then at_ (n - 1)%nat
      else fadd (at_ (Z.to_nat lo))
             (fmul (fsub h (float_of_Z lo)) (fsub (at_ (S (Z.to_nat lo))) (at_ (Z.to_nat lo))))
  end.

Definition Median (x : list float64) : float64 := Quantile7 (Float64s x) half.

Definition TrimmedMean (x : list float64) (trim : float64) : float64 :=
  let s := Float64s x in
  let k := Z.to_nat (floor_Z (fmul trim (len_f s))) in
  if (length s <=? 2 * k)%nat then Median s
  else Mean (firstn (length s - 2 * k) (skipn k s)).

(** ** The bootstrap *)
Section bootstrap.
Context `{Random}.

(** The sum of as many draws with replacement as there are samples. *)
Fixpoint draw_sum (v : list float64) (times : nat) (s : float64) (g : generator) : float64 * generator :=
  match times with
  | O => (s, g)
  | S times =>
      let '(i, g) := IntN (length v) g in
      draw_sum v times (fadd s (List.nth i v S754_nan)) g
  end.

Definition draw (v : list float64) (g : generator) : float64 * generator :=
  let '(s, g) := draw_sum v (length v) fzero g in (fdiv s (len_f v), g).

Fixpoint resample (x y : list float64) (resamples : nat) (g : generator) : list float64 :=
  match resamples with
  | O => []
  | S resamples =>
      let '(a, g) := draw x g in
      let '(b, g) := draw y g in
      fsub a b :: resample x y resamples g
  end.

Definition checkFinite (x : list float64) : bool := forallb is_finite x.

(** The interval, and whether it excludes zero; the golden-ratio constant is 0x9e3779b97f4a7c15. *)
Definition BootstrapDiffCI (x y : list float64) (resamples : nat) (level : float64) (seed : Z)
    : (float64 * float64 * bool) + str :=
  match x, y with
  | [], _ | _, [] => inr "bootstrap needs samples on both sides"
  | _, _ =>
      if negb (checkFinite x) then inr "non-finite sample"
      else if negb (checkFinite y) then inr "non-finite sample"
      else
        let stats := Float64s (resample x y resamples (NewPCG seed 11400714819323198485)) in
        let lo := Quantile7 stats (fdiv (fsub fone level) ftwo) in
        let hi := Quantile7 stats (fdiv (fadd fone level) ftwo) in
        inl (lo, hi, flt fzero lo || flt hi fzero)
  end.
End bootstrap.

(** ** The prediction interval *)
Section student.
Context `{Transcendental}.

Definition tiny : float64 := Eval vm_compute in round_decimal false 1 (-300).
Definition eps : float64 := Eval vm_compute in round_decimal false 1 (-14).
Definition not_tiny (d : float64) : float64 := if flt (fabs d) tiny then tiny else d.

Record lentz := MkLentz { lz_c : float64; lz_d : float64; lz_h : float64; lz_del : float64 }.

(** Half a step of Lentz's method with the numerator [num]. *)
Definition lentz_half (num : float64) (s : lentz) : lentz :=
  let d := not_tiny (fadd fone (fmul num (lz_d s))) in
  let c := not_tiny (fadd fone (fdiv num (lz_c s))) in
  let d := fdiv fone d in
  let del := fmul d c in
  MkLentz c d (fmul (lz_h s) del) del.

(** The steps left from [m] on; the loop stops when a step no longer moves the product. *)
Fixpoint betaCF_loop (a b x : float64) (left_ : nat) (m : Z) (s : lentz) : float64 :=
  match left_ with
  | O => lz_h s
  | S left_ =>
      let fm := float_of_Z m in
      let a2 := fadd a (fmul ftwo fm) in
      let s := lentz_half (fdiv (fmul (fmul fm (fsub b fm)) x)
                             (fmul (fsub a2 fone) a2)) s in
      let s := lentz_half (fdiv (fmul (fmul (fneg (fadd a fm)) (fadd (fadd a b) fm)) x)
                             (fmul a2 (fadd a2 fone))) s in
      if flt (fabs (fsub (lz_del s) fone)) eps then lz_h s else betaCF_loop a b x left_ (m + 1) s
  end.

Definition betaCF (a b x : float64) : float64 :=
  let d := fdiv fone (not_tiny (fsub fone (fdiv (fmul (fadd a b) x) (fadd a fone)))) in
  betaCF_loop a b x 300 1 (MkLentz fone d d fzero).

Definition regIncBeta (a b x : float64) : float64 :=
  if fle x fzero then fzero
  else if fle fone x then fone
  else
    let front := Exp (fadd (fadd (fsub (fsub (Lgamma (fadd a b)) (Lgamma a)) (Lgamma b))
                              (fmul a (Log x))) (fmul b (Log (fsub fone x)))) in
    if flt x (fdiv (fadd a fone) (fadd (fadd a b) ftwo)) then fdiv (fmul front (betaCF a b x)) a
    else fsub fone (fdiv (fmul front (betaCF b a (fsub fone x))) b).

Definition studentTCDF (t df : float64) : float64 :=
  let x := fdiv df (fadd df (fmul t t)) in
  let tail_ := fmul half (regIncBeta (fdiv df ftwo) half x) in
  if fle fzero t then fsub fone tail_ else tail_.

Definition bisection_eps : float64 := Eval vm_compute in round_decimal false 1 (-13).

(** Two hundred halvings at most. *)
Fixpoint bisect (p df : float64) (left_ : nat) (lo hi : float64) : float64 * float64 :=
  match left_ with
  | O => (lo, hi)
  | S left_ =>
      let mid := fdiv (fadd lo hi) ftwo in
      let '(lo, hi) := if flt (studentTCDF mid df) p then (mid, hi) else (lo, mid) in
      if flt (fsub hi lo) bisection_eps then (lo, hi) else bisect p df left_ lo hi
  end.

Definition StudentTQuantile (p df : float64) : float64 + str :=
  if negb (flt fzero p && flt p fone) || negb (flt fzero df)
  then inr "StudentTQuantile: p must be in (0,1) and df > 0"
  else
    let '(lo, hi) := bisect p df 200 (float_of_Z (-10000)) (float_of_Z 10000) in
    inl (fdiv (fadd lo hi) ftwo).

Definition PredictionInterval (mean sd : float64) (n : Z) (alpha : float64) : (float64 * float64) + str :=
  if (n <? 2)%Z then inr "a prediction interval needs at least two replicates"
  else
    match StudentTQuantile (fsub fone (fdiv alpha ftwo)) (float_of_Z (n - 1)) with
    | inr e => inr e
    | inl t =>
        let w := fmul (fmul t sd) (fsqrt (fadd fone (fdiv fone (float_of_Z n)))) in
        inl (fsub mean w, fadd mean w)
    end.
End student.

(** ** The steady-state test *)
Definition floor_den : float64 := Eval vm_compute in round_decimal false 1 (-9).

Definition SplitHalfRelDelta (x : list float64) : option float64 :=
  let k := length x in
  if (k <? 4)%nat then None
  else
    let m1 := Mean (firstn (k / 2) x) in
    let m2 := Mean (skipn (k - k / 2) x) in
    let den := fmax (fmax (fabs m1) (fabs m2)) floor_den in
    Some (fdiv (fabs (fsub m2 m1)) den).

(** ** Lemmas *)
Lemma SampleSD_some x : is_Some (SampleSD x) ↔ (2 <= length x)%nat.
Proof.
  unfold SampleSD. destruct (Nat.ltb_spec (length x) 2); split; intros Hx; try lia; by destruct Hx.
Qed.

Lemma CV_some x : is_Some (CV x) → (2 <= length x)%nat ∧ feq (Mean x) fzero = false.
Proof.
  unfold CV. destruct (SampleSD x) eqn:E; cbn; [|by intros []].
  destruct (feq (Mean x) fzero); [by intros []|]. intros _. split; [|done].
  apply SampleSD_some. by rewrite E.
Qed.

(** The spread of the runs of a plain example: five runs around 97.5. *)
Definition example_runs : list float64 :=
  (λ n, fdiv (float_of_Z n) (float_of_Z 100)) <$> [9749; 9750; 9751; 9750; 9750]%Z.

Example example_mean : FormatFloat (Mean example_runs) = "97.5".
Proof. by vm_compute. Qed.
Example example_median : FormatFloat (Median [float_of_Z 3; float_of_Z 1; float_of_Z 2; float_of_Z 10]) = "2.5".
Proof. by vm_compute. Qed.
Example example_steady : SplitHalfRelDelta (float_of_Z <$> [1; 1; 7; 1; 1]%Z) = Some fzero.
Proof. by vm_compute. Qed.
