(* ===== verification/Compare.v ===== *)
(** * pkg/compare: baselines and comparison

    Repeated runs of one node become a side; replicates are promoted to a baseline; a later
    run, or another node, is judged against it.  Envelopes are those of Envelope; the order
    of a range over a map is a parameter where it can be seen, and the order of its keys
    elsewhere, where the results are sorted by a key that is unique. *)

From S2P Require Import Prelude GoStrings GoFloat GoTime Contract Registry Envelope Stats.
From Stdlib Require Import Ascii SpecFloat.
Open Scope stdpp_scope.

Inductive Outcome :=
  | Match_ | Improvement | Regression | NoSignificantDifference | NotComparable
  | InsufficientPrecision | UnusableInput | Missing.

Global Instance Outcome_eq_dec : EqDecision Outcome.
Proof. solve_decision. Defined.

Inductive Direction := Neutral | HigherIsBetter | LowerIsBetter.

Global Instance Direction_eq_dec : EqDecision Direction.
Proof. solve_decision. Defined.

Definition DirectionOf (metric : str) : Direction :=
  match Lookup metric with
  | None => Neutral
  | Some m =>
      match m_Aggregation m with
      | AggMin => HigherIsBetter
      | AggMax | AggSum => LowerIsBetter
      | _ => Neutral
      end
  end.

(** ** Keys *)
Definition sorted_pairs {A} (m : gmap str A) : list (str * A) :=
  omap (λ k, pair k <$> m !! k) (sort_strings (map_to_list m).*1).

Definition axes_suffix (axes : gmap str str) : str :=
  match map_to_list axes with
  | [] => ""
  | l => "[" +:+ Join (sort_strings ((λ kv : str * str, kv.1 +:+ "=" +:+ kv.2) <$> l)) "," +:+ "]"
  end.

Definition Key (r : ResultDoc) (metric : str) : str :=
  rd_Name r +:+ "/" +:+ metric +:+ axes_suffix (rd_VariantAxes r).

(** [indexSlash] *)
Definition indexSlash (k : str) : nat := default (String.length k) (IndexByte k "/").

Definition before_bracket (m : str) : str :=
  match IndexByte m "[" with Some i => take i m | None => m end.

(** [strings.Index(key, "/")+1] is 0 where there is none. *)
Definition metricOf (key : str) : str :=
  before_bracket (match IndexByte key "/" with Some i => drop (S i) key | None => key end).

(** ** Sides *)
Record Observation := MkObs {
  o_Kind : str;
  o_Values : list float64;
  o_Unusable : str;  (* why the latest run's value is not a clean measurement *)
}.

Record Side := MkSide {
  sd_Node : str;
  sd_Fingerprint : str;
  sd_Runs : list str;
  sd_RunFingerprints : list str;
  sd_Metrics : gmap str Observation;
  sd_Identity : gmap str str;
}.

Definition set_sd_Metrics (v : gmap str Observation) (s : Side) : Side :=
  MkSide (sd_Node s) (sd_Fingerprint s) (sd_Runs s) (sd_RunFingerprints s) v (sd_Identity s).
Definition set_sd_Identity (v : gmap str str) (s : Side) : Side :=
  MkSide (sd_Node s) (sd_Fingerprint s) (sd_Runs s) (sd_RunFingerprints s) (sd_Metrics s) v.
Definition add_run (uid : str) (s : Side) : Side :=
  MkSide (sd_Node s) (sd_Fingerprint s) (sd_Runs s ++ [uid]) (sd_RunFingerprints s) (sd_Metrics s) (sd_Identity s).

Definition emptySide : Side := MkSide "" "" [] [] ∅ ∅.

Definition identityMetrics : list str := ["nvmeSerialDigests"].

Definition terminal (phase : str) : bool :=
  bool_decide (phase ∈ ["Passed"; "Failed"; "Error"; "Cancelled"; "Skipped"]).

Definition is_verdict (e : Envelope) : bool :=
  String.eqb (e_Reason e) ReasonPhaseChanged && terminal (e_Phase e).

(** One entry of an envelope's fingerprint; the node of a side is the first one seen. *)
Definition see_node (s : Side) (entry : str * str) : Side + str :=
  let '(node, fp) := entry in
  if String.eqb (sd_Node s) ""
  then inl (MkSide node fp (sd_Runs s) (sd_RunFingerprints s ++ [fp]) (sd_Metrics s) (sd_Identity s))
  else if negb (String.eqb node (sd_Node s))
  then inr ("runs from more than one node (" +:+ sd_Node s +:+ " and " +:+ node +:+ "); a side is one node")
  else inl (MkSide (sd_Node s) (sd_Fingerprint s) (sd_Runs s) (sd_RunFingerprints s ++ [fp]) (sd_Metrics s)
              (sd_Identity s)).

Fixpoint see_nodes (s : Side) (entries : list (str * str)) : Side + str :=
  match entries with
  | [] => inl s
  | entry :: entries => match see_node s entry with inl s => see_nodes s entries | inr e => inr e end
  end.

(** A finite number, read as Go reads it. *)
Definition quantity (raw : str) : option float64 :=
  match ParseFloat (TrimSpace raw) with
  | (v, None) => if IsNaN v || IsInf v then None else Some v
  | (_, Some _) => None
  end.

Definition measured_nothing (r : ResultDoc) : bool :=
  String.eqb (rd_Phase r) "Error" || String.eqb (rd_Phase r) "Skipped".

Definition see_value (r : ResultDoc) (v : float64) (o : option Observation) : Observation :=
  let o := default (MkObs (rd_Kind r) [] "") o in
  if measured_nothing r then MkObs (o_Kind o) (o_Values o) ("the test ended " +:+ rd_Phase r)
  else MkObs (o_Kind o) (o_Values o ++ [v]) "".

Definition see_metric (r : ResultDoc) (s : Side) (entry : str * str) : Side :=
  let '(metric, raw) := entry in
  if bool_decide (metric ∈ identityMetrics) then
    let v := TrimSpace raw in
    if String.eqb v "" then s else set_sd_Identity (<[metric := v]> (sd_Identity s)) s
  else
    match quantity raw with
    | None => s
    | Some v =>
        set_sd_Metrics (<[Key r metric := see_value r v (sd_Metrics s !! Key r metric)]> (sd_Metrics s)) s
    end.

Definition see_result (s : Side) (r : ResultDoc) : Side := fold_left (see_metric r) (sorted_pairs (rd_Metrics r)) s.

Section collect.
Context `{RangeOrder}.

Fixpoint collect (s : Side) (envs : list Envelope) : Side + str :=
  match envs with
  | [] => inl s
  | e :: envs =>
      if negb (is_verdict e) then collect s envs
      else
        match see_nodes s (range_of (e_Fingerprint e)) with
        | inr err => inr err
        | inl s => collect (fold_left see_result (e_Results e) (add_run (rf_UID (e_Run e)) s)) envs
        end
  end.

Definition Collect (envs : list Envelope) : Side + str :=
  match collect emptySide envs with
  | inr err => inr err
  | inl s =>
      match sd_Runs s with
      | [] => inr "no finished runs: a comparison needs a terminal RunPhaseChanged envelope"
      | _ => inl s
      end
  end.
End collect.

(** ** Identity *)
Definition shared_values (metric av bv : str) : list str :=
  if String.eqb av "" || String.eqb bv "" then []
  else
    let seen := TrimSpace <$> Split av "," in
    (λ y, metric +:+ " " +:+ y) <$>
      List.filter (λ y, negb (String.eqb y "") && bool_decide (y ∈ seen)) (TrimSpace <$> Split bv ",").

Definition sharedIdentity (a b : Side) : list str :=
  let of_ s metric := default "" (sd_Identity s !! metric) in
  sort_strings (mjoin ((λ metric, shared_values metric (of_ a metric) (of_ b metric)) <$> identityMetrics)).

(** ** Fingerprint fields *)

(** What the pattern's classes hold. *)
Definition re_space (c : ascii) : bool :=
  existsb (λ n, Ascii.eqb c (chr n)) [9; 10; 12; 13; 32]%Z.
Definition re_letter (c : ascii) : bool := is_lower c || is_upper c.
Definition re_key_char (c : ascii) : bool :=
  re_letter c || is_digit c || existsb (Ascii.eqb c) ["_"; "."; "/"; "-"]%char.

Fixpoint re_key_tail (s : str) : str * str :=
  match s with
  | String c s' => if re_key_char c then let '(k, rest) := re_key_tail s' in (String c k, rest) else ("", s)
  | "" => ("", "")
  end.

(** [[A-Za-z][\w./-]*=]: the key and what follows. *)
Definition re_key (s : str) : option (str * str) :=
  match s with
  | String c s' =>
      if re_letter c then
        let '(k, rest) := re_key_tail s' in
        match rest with String "=" rest => Some (String c k, rest) | _ => None end
      else None
  | "" => None
  end.

(** The pattern at the head of [s]; [first] at the beginning of the text. *)
Definition fpKey (first : bool) (s : str) : option (str * str) :=
  match (if first then re_key s else None) with
  | Some m => Some m
  | None =>
      match s with
      | String c s' => if re_space c then re_key s' else None
      | "" => None
      end
  end.

(** The text before the first match, then each key with the text up to the next match. *)
Fixpoint fp_fields (fuel : nat) (first : bool) (s : str) : str * list (str * str) :=
  match fuel with
  | O => (s, [])
  | S fuel =>
      match fpKey first s with
      | Some (key, rest) => let '(v, l) := fp_fields fuel false rest in ("", (key, v) :: l)
      | None =>
          match s with
          | "" => ("", [])
          | String c s' => let '(v, l) := fp_fields fuel false s' in (String c v, l)
          end
      end
  end.

Definition FingerprintFields (fp : str) : gmap str str :=
  fold_left (λ out '(k, v), <[k := TrimSpace v]> out) (fp_fields (S (String.length fp)) true fp).2 ∅.

Definition DifferingFields (a b : str) : list str :=
  let fa := FingerprintFields a in
  let fb := FingerprintFields b in
  sort_strings
    (((map_to_list (filter (λ kv, default "" (fb !! kv.1) ≠ kv.2) fa)).*1) ++
     ((map_to_list (filter (λ kv, fa !! kv.1 = None) fb)).*1)).

(** ** Comparison *)
Record Result := MkResult {
  re_Key : str;
  re_Outcome : Outcome;
  re_Cause : str;
  re_Current : option float64;
  re_Reference : option float64;
  re_RelDelta : option float64;
  re_Method : str;
  re_Interval : option (float64 * float64);
  re_Enforced : bool;
}.

Record Options := MkOptions {
  op_Tolerance : gmap str float64;
  op_DefaultTolerance : float64;
  op_Alpha : float64;
  op_Enforce : bool;
  op_Seed : Z;
}.

Definition tolFor (o : Options) (key : str) : float64 :=
  default (op_DefaultTolerance o) (op_Tolerance o !! metricOf key).

(** The outcome of a change from [ref] to [x], and the relative change. *)
Definition decide_outcome (x ref tol : float64) (dir : Direction) (conclusive : bool) : Outcome * float64 :=
  let d := fsub x ref in
  let rel := fdiv d (fabs ref) in
  (if fle (fabs rel) tol then Match_
   else if bool_decide (dir = Neutral) || feq d fzero || negb conclusive then NoSignificantDifference
   else if Bool.eqb (flt d fzero) (bool_decide (dir = HigherIsBetter)) then Regression
   else Improvement, rel).

Definition key_le (a b : Result) : Prop := String.le (re_Key a) (re_Key b).

Global Instance key_le_dec : RelDecision key_le.
Proof. intros a b. unfold key_le. apply _. Defined.

Definition sortResults (rs : list Result) : list Result := merge_sort key_le rs.

(** ** Baselines *)
Definition BaselineSchema : str := "burnin.glimmer.ai/baseline/v1".
Definition MinReplicates : Z := 5.

Record BaselineMetric := MkBaselineMetric {
  bm_Test : str;
  bm_Kind : str;
  bm_Metric : str;
  bm_Values : list float64;
  bm_N : Z;
  bm_Mean : float64;
  bm_SD : option float64;
  bm_CV : option float64;
  bm_Enforceable : bool;
  bm_Partial : bool;
}.

Record Baseline := MkBaseline {
  ba_Schema : str;
  ba_Name : str;
  ba_PromotedAt : Z;
  ba_Producer : option Producer;
  ba_Node : str;
  ba_Fingerprint : str;
  ba_SourceRuns : list str;
  ba_Replicates : Z;
  ba_Metrics : gmap str BaselineMetric;
}.

Definition promoteMetric (runs : nat) (k : str) (o : Observation) : option BaselineMetric :=
  match o_Values o with
  | [] => None
  | values =>
      let n := Z.of_nat (length values) in
      Some (MkBaselineMetric (take (indexSlash k) k) (o_Kind o) (metricOf k) values n (Mean values)
        (SampleSD values) (CV values)
        ((2 <=? n)%Z && (MinReplicates <=? n)%Z && negb (bool_decide (CV values = None)))
        (length values <? runs)%nat)
  end.

(** The first fingerprint that is not the side's, with the fields. *)
Fixpoint mixed_configuration (fingerprint : str) (runs : list str) : option (list str) :=
  match runs with
  | [] => None
  | f :: runs =>
      match DifferingFields fingerprint f with
      | [] => mixed_configuration fingerprint runs
      | d => Some d
      end
  end.

Definition Promote (name : str) (s : Side) (producer : option Producer) (now : Z) : Baseline + str :=
  match mixed_configuration (sd_Fingerprint s) (sd_RunFingerprints s) with
  | Some d => inr ("the runs do not share one fingerprint (differ in " +:+ show_strings d +:+
                   "); promote runs of one configuration")
  | None =>
      let metrics := map_imap (promoteMetric (length (sd_Runs s))) (sd_Metrics s) in
      if bool_decide (metrics = ∅)
      then inr "no numeric metric came from a clean run; there is nothing to promote"
      else inl (MkBaseline BaselineSchema name now producer (sd_Node s) (sd_Fingerprint s) (sd_Runs s)
                  (Z.of_nat (length (sd_Runs s))) metrics)
  end.

(** *** One run against a baseline *)
Definition latest (o : Observation) : float64 := default S754_nan (last (o_Values o)).

Definition absent (o : option Observation) : bool :=
  match o with
  | None => true
  | Some o => match o_Values o with [] => String.eqb (o_Unusable o) "" | _ => false end
  end.

Section against.
Context `{Transcendental}.
Variable opts : Options.

Definition fingerprint_difference (cur ref : str) : list str :=
  if String.eqb cur "" || String.eqb ref "" then ["(fingerprint absent)"] else DifferingFields cur ref.

Definition compareMetric (fpDiff : list str) (key : str) (bm : BaselineMetric) (c : option Observation)
    : Result + str :=
  let res outcome cause current :=
    inl (MkResult key outcome cause current (Some (bm_Mean bm)) None "prediction_interval" None false) in
  match c with
  | None => res Missing "present only in the baseline" None
  | Some o =>
      if absent c then res Missing "present only in the baseline" None
      else if negb (bool_decide (fpDiff = []))
      then res NotComparable ("fingerprint differs: " +:+ Join fpDiff ", ") None
      else if negb (String.eqb (o_Unusable o) "") then res UnusableInput (o_Unusable o) None
      else if feq (bm_Mean bm) fzero
      then res NotComparable "zero reference: a relative change from 0 is undefined" (Some (latest o))
      else
        match (if (bm_N bm <? 2)%Z then None else bm_SD bm) with
        | None => res InsufficientPrecision ("baseline has " +:+ Itoa (bm_N bm) +:+ " replicate(s)") (Some (latest o))
        | Some sd =>
            match PredictionInterval (bm_Mean bm) sd (bm_N bm) (op_Alpha opts) with
            | inr e => inr e
            | inl (lo, hi) =>
                let x := latest o in
                let '(outcome, rel) := decide_outcome x (bm_Mean bm) (tolFor opts key) (DirectionOf (bm_Metric bm))
                                         (flt x lo || flt hi x) in
                inl (MkResult key outcome "" (Some x) (Some (bm_Mean bm)) (Some rel) "prediction_interval"
                       (Some (lo, hi))
                       (bool_decide (outcome = Regression) && bm_Enforceable bm && op_Enforce opts))
            end
        end
  end.

Fixpoint compareMetrics (fpDiff : list str) (cur : Side) (metrics : list (str * BaselineMetric))
    : list Result + str :=
  match metrics with
  | [] => inl []
  | (key, bm) :: metrics =>
      match compareMetric fpDiff key bm (sd_Metrics cur !! key) with
      | inr e => inr e
      | inl r => match compareMetrics fpDiff cur metrics with inl rs => inl (r :: rs) | inr e => inr e end
      end
  end.

(** What only this run measured. *)
Definition only_here (b : Baseline) (entry : str * Observation) : option Result :=
  let '(key, c) := entry in
  if bool_decide (is_Some (ba_Metrics b !! key)) || bool_decide (o_Values c = []) then None
  else Some (MkResult key Missing "present only in this run" (Some (latest c)) None None "" None false).

Definition AgainstBaseline (cur : Side) (b : Baseline) : list Result + str :=
  if negb (length (sd_Runs cur) =? 1)%nat
  then inr ("compare one run against a baseline; got " +:+ Itoa (Z.of_nat (length (sd_Runs cur))))
  else
    let fpDiff := fingerprint_difference (sd_Fingerprint cur) (ba_Fingerprint b) in
    match compareMetrics fpDiff cur (map_to_list (ba_Metrics b)) with
    | inr e => inr e
    | inl rs => inl (sortResults (rs ++ omap (only_here b) (map_to_list (sd_Metrics cur))))
    end.

(** *** Two nodes *)
Context `{Random}.

Definition compareNodes (fpDiff : list str) (key : str) (l r : option Observation) : Result :=
  let res outcome cause := MkResult key outcome cause None None None "" None false in
  match l, r with
  | Some lo, Some ro =>
      if absent l || absent r then res Missing "present on one node only"
      else if negb (bool_decide (fpDiff = []))
      then res NotComparable ("fingerprint differs: " +:+ Join fpDiff ", ")
      else if negb (String.eqb (o_Unusable lo) "") || negb (String.eqb (o_Unusable ro) "")
      then res UnusableInput (TrimSpace (o_Unusable lo +:+ " " +:+ o_Unusable ro))
      else
        let x := Mean (o_Values lo) in
        let ref := Mean (o_Values ro) in
        if feq ref fzero then MkResult key NotComparable "zero reference" (Some x) (Some ref) None "" None false
        else
          let boot :=
            if (2 <=? length (o_Values lo))%nat && (2 <=? length (o_Values ro))%nat
            then match BootstrapDiffCI (o_Values lo) (o_Values ro) (Z.to_nat 10000) (fsub fone (op_Alpha opts))
                         (op_Seed opts) with
                 | inl b => Some b
                 | inr _ => None
                 end
            else None in
          let '(method, interval, conclusive) :=
            match boot with
            | Some (lo, hi, c) => ("bootstrap_diff", Some (lo, hi), c)
            | None => ("point_only", None, true)
            end in
          let '(outcome, rel) := decide_outcome x ref (tolFor opts key) (DirectionOf (metricOf key)) conclusive in
          MkResult key outcome "" (Some x) (Some ref) (Some rel) method interval false
  | _, _ => res Missing "present on one node only"
  end.

Definition Symmetry (left_ right_ : Side) : list Result :=
  let fpDiff := DifferingFields (sd_Fingerprint left_) (sd_Fingerprint right_) in
  let keys := sort_strings (map_to_list (sd_Metrics left_ ∪ sd_Metrics right_)).*1 in
  let rows := (λ key, compareNodes fpDiff key (sd_Metrics left_ !! key) (sd_Metrics right_ !! key)) <$> keys in
  let shared := sharedIdentity left_ right_ in
  let identity :=
    if bool_decide (shared = []) || String.eqb (sd_Node left_) (sd_Node right_) then []
    else [MkResult "identity" NotComparable
            ("the same hardware appears on both nodes (" +:+ Join shared "; " +:+
             "): a cloned image, or one machine reached under two names") None None None "" None false] in
  sortResults (rows ++ identity).
End against.

(** ** The command (cmd/burnin/compare.go) *)
(** What --enforce exits with: the first enforced regression fails the comparison. *)
Definition enforced_key (rs : list Result) : option str := re_Key <$> list_first re_Enforced rs.

(** ** Lemmas *)

(** *** What a side holds *)
Definition clean_value (k : str) (r : ResultDoc) (entry : str * str) : option float64 :=
  if bool_decide (entry.1 ∈ identityMetrics) || negb (String.eqb (Key r entry.1) k) || measured_nothing r
  then None else quantity entry.2.

Definition clean_values (k : str) (r : ResultDoc) : list float64 :=
  omap (clean_value k r) (sorted_pairs (rd_Metrics r)).

(** The clean values of a key in the finished runs of some envelopes, in their order. *)
Definition values_of (k : str) (envs : list Envelope) : list float64 :=
  mjoin ((λ e, mjoin (clean_values k <$> e_Results e)) <$> List.filter is_verdict envs).

Definition side_values (s : Side) (k : str) : list float64 :=
  match sd_Metrics s !! k with Some o => o_Values o | None => [] end.

Lemma see_value_values r v o :
  o_Values (see_value r v o) =
    match o with Some o => o_Values o | None => [] end ++ (if measured_nothing r then [] else [v]).
Proof. unfold see_value. destruct o, (measured_nothing r); cbn; by rewrite ?app_nil_r. Qed.

Lemma see_metric_values r s entry k :
  side_values (see_metric r s entry) k = side_values s k ++ option_list (clean_value k r entry).
Proof.
  destruct entry as [metric raw]. unfold see_metric, clean_value. cbn [fst snd].
  case_bool_decide as Hid; cbn [orb].
  { destruct (String.eqb (TrimSpace raw) ""); cbn; by rewrite app_nil_r. }
  destruct (quantity raw) as [v|] eqn:Hq.
  2: { destruct (_ || _); cbn; by rewrite app_nil_r. }
  unfold side_values at 1. cbn [sd_Metrics set_sd_Metrics].
  destruct (String.eqb_spec (Key r metric) k) as [<-|Hne]; cbn [negb orb].
  - rewrite lookup_insert_eq, see_value_values. unfold side_values. by destruct (measured_nothing r).
  - rewrite lookup_insert_ne by done. cbn. by rewrite app_nil_r.
Qed.

Lemma see_result_values s r k : side_values (see_result s r) k = side_values s k ++ clean_values k r.
Proof.
  unfold see_result, clean_values. revert s.
  induction (sorted_pairs (rd_Metrics r)) as [|entry l IH]; intros s; cbn; [by rewrite app_nil_r|].
  rewrite IH, see_metric_values, <-(assoc_L (++)). f_equal. by destruct (clean_value k r entry).
Qed.

Lemma see_results_values s l k :
  side_values (fold_left see_result l s) k = side_values s k ++ mjoin (clean_values k <$> l).
Proof.
  revert s. induction l as [|r l IH]; intros s; cbn; [by rewrite app_nil_r|].
  by rewrite IH, see_result_values, <-(assoc_L (++)).
Qed.

(** Reading results leaves the node and the runs. *)
Definition same_runs (s s' : Side) : Prop :=
  sd_Node s' = sd_Node s ∧ sd_Fingerprint s' = sd_Fingerprint s ∧ sd_Runs s' = sd_Runs s ∧
  sd_RunFingerprints s' = sd_RunFingerprints s.

Global Instance same_runs_trans : Transitive same_runs.
Proof. intros a b c (?&?&?&?) (?&?&?&?). unfold same_runs. split_and!; congruence. Qed.

Lemma see_metric_runs r s entry : same_runs s (see_metric r s entry).
Proof. destruct entry as [m raw]. unfold see_metric. by repeat case_match. Qed.

Lemma fold_runs {A} (f : Side → A → Side) l s :
  (∀ s a, same_runs s (f s a)) → same_runs s (fold_left f l s).
Proof.
  intros Hf. revert s. induction l as [|a l IH]; intros s; cbn; [done|].
  transitivity (f s a); [apply Hf|apply IH].
Qed.

Lemma see_results_runs l s : same_runs s (fold_left see_result l s).
Proof. apply fold_runs. intros s' r. apply fold_runs. apply see_metric_runs. Qed.

Lemma see_nodes_rest s entries s' :
  see_nodes s entries = inl s' →
  sd_Runs s' = sd_Runs s ∧ sd_Metrics s' = sd_Metrics s ∧
  sd_RunFingerprints s' = sd_RunFingerprints s ++ entries.*2.
Proof.
  revert s. induction entries as [|[node fp] l IH]; intros s; cbn [see_nodes].
  - intros [= <-]. by rewrite app_nil_r.
  - destruct (see_node s (node, fp)) as [s1|] eqn:E; [|done]. intros (H1 & H2 & H3)%IH.
    cbn in E. repeat (case_match; simplify_eq/=); rewrite H1, H2, H3; cbn; by rewrite <-(assoc_L (++)).
Qed.

Definition finished_runs (envs : list Envelope) : list str := (λ e, rf_UID (e_Run e)) <$> List.filter is_verdict envs.

Lemma collect_spec `{RangeOrder} envs s s' :
  collect s envs = inl s' →
  (∀ k, side_values s' k = side_values s k ++ values_of k envs) ∧
  sd_Runs s' = sd_Runs s ++ finished_runs envs.
Proof.
  unfold values_of, finished_runs. revert s. induction envs as [|e envs IH]; intros s; cbn [collect List.filter].
  { intros [= <-]. split; [intros k|]; by rewrite app_nil_r. }
  destruct (is_verdict e); cbn [negb]; [|apply IH].
  destruct (see_nodes s (range_of (e_Fingerprint e))) as [s1|] eqn:E; [|done].
  apply see_nodes_rest in E as (Hr & Hm & _). intros [Hv Hrs]%IH. split.
  - intros k. rewrite Hv, see_results_values. cbn. rewrite (assoc_L (++)). f_equal. f_equal.
    unfold side_values. cbn. by rewrite Hm.
  - destruct (see_results_runs (e_Results e) (add_run (rf_UID (e_Run e)) s1)) as (_ & _ & Hru & _).
    rewrite Hrs, Hru. cbn. by rewrite Hr, <-(assoc_L (++)).
Qed.

Lemma Collect_values `{RangeOrder} envs s :
  Collect envs = inl s →
  (∀ k, side_values s k = values_of k envs) ∧ sd_Runs s = finished_runs envs.
Proof.
  unfold Collect. destruct (collect emptySide envs) as [s1|] eqn:E; [|done].
  destruct (sd_Runs s1) as [|u l] eqn:Hr; [done|]. intros [= <-]. by apply collect_spec in E.
Qed.

Lemma quantity_finite raw v : quantity raw = Some v → is_finite v = true.
Proof.
  unfold quantity, is_finite. destruct (ParseFloat (TrimSpace raw)) as [w [e|]]; [done|].
  destruct (IsNaN w || IsInf w) eqn:E; [done|]. intros [= <-]. by rewrite E.
Qed.

Lemma values_of_finite k envs : Forall (λ v, is_finite v = true) (values_of k envs).
Proof.
  apply Forall_forall. intros v. unfold values_of, clean_values.
  rewrite list_elem_of_join. intros (l & Hv & (e & -> & _)%list_elem_of_fmap).
  apply list_elem_of_join in Hv as (l & Hv & (r & -> & _)%list_elem_of_fmap).
  apply list_elem_of_omap in Hv as (entry & _ & Hv). unfold clean_value in Hv.
  destruct (_ || _); [done|]. by eapply quantity_finite.
Qed.

(** *** What a baseline holds *)
Lemma mixed_None fp l : mixed_configuration fp l = None → Forall (λ f, DifferingFields fp f = []) l.
Proof.
  induction l as [|f l IH]; cbn; [constructor|]. destruct (DifferingFields fp f) eqn:E; [|done].
  intros H. constructor; [done|by apply IH].
Qed.

Lemma Promote_spec name s producer now b :
  Promote name s producer now = inl b →
  ba_Fingerprint b = sd_Fingerprint s ∧ Forall (λ f, DifferingFields (sd_Fingerprint s) f = []) (sd_RunFingerprints s) ∧
  ∀ key bm, ba_Metrics b !! key = Some bm →
    bm_Values bm = side_values s key ∧ bm_Mean bm = Mean (side_values s key) ∧
    bm_SD bm = SampleSD (side_values s key) ∧
    bm_Metric bm = metricOf key ∧ bm_N bm = Z.of_nat (length (side_values s key)) ∧
    (bm_Enforceable bm = true → (MinReplicates <= bm_N bm)%Z ∧ is_Some (CV (side_values s key))).
Proof.
  unfold Promote. destruct (mixed_configuration _ _) eqn:Hmix; [done|]. case_bool_decide; [done|].
  intros [= <-]. cbn. split; [done|]. split; [by apply mixed_None|].
  intros key bm. rewrite map_lookup_imap. unfold side_values.
  destruct (sd_Metrics s !! key) as [o|]; cbn; [|done]. unfold promoteMetric.
  destruct (o_Values o) as [|v l] eqn:Hv; [done|]. intros [= <-]. cbn [bm_Values bm_Mean bm_SD bm_Metric bm_N bm_Enforceable].
  split_and!; try done. rewrite !andb_true_iff, negb_true_iff, bool_decide_eq_false, !Z.leb_le.
  intros [[_ Hn] Hcv]. split; [done|]. destruct (CV (v :: l)); [by eexists|done].
Qed.

(** *** The rows *)
Section rows.
Context `{Transcendental}.
Variable opts : Options.

Lemma absent_false o : absent (Some o) = false → o_Unusable o = "" → o_Values o ≠ [].
Proof. cbn. intros Ha Hu Hv. rewrite Hv, Hu in Ha. done. Qed.

Lemma compareMetric_key d key bm c r : compareMetric opts d key bm c = inl r → re_Key r = key.
Proof. unfold compareMetric, decide_outcome. intros Hc. by repeat (case_match; simplify_eq/=). Qed.

Lemma compareMetrics_spec d cur metrics rs :
  compareMetrics opts d cur metrics = inl rs →
  Forall2 (λ entry r, compareMetric opts d entry.1 entry.2 (sd_Metrics cur !! entry.1) = inl r) metrics rs.
Proof.
  revert rs. induction metrics as [|[key bm] metrics IH]; intros rs; cbn [compareMetrics].
  - intros [= <-]. constructor.
  - destruct (compareMetric _ _ _ _ _) eqn:E; [|done].
    destruct (compareMetrics _ _ _ metrics); [|done]. intros [= <-]. constructor; [done|by apply IH].
Qed.

Lemma compareMetrics_keys d cur metrics rs : compareMetrics opts d cur metrics = inl rs → re_Key <$> rs = metrics.*1.
Proof.
  intros Hc%compareMetrics_spec. induction Hc as [|entry r metrics rs Hr _ IH]; [done|].
  cbn. rewrite IH. by rewrite (compareMetric_key _ _ _ _ _ Hr).
Qed.

Lemma only_here_key b entry r :
  only_here b entry = Some r →
  r = MkResult entry.1 Missing "present only in this run" (Some (latest entry.2)) None None "" None false ∧
  ba_Metrics b !! entry.1 = None ∧ o_Values entry.2 ≠ [].
Proof.
  destruct entry as [key c]. unfold only_here. destruct (_ || _) eqn:E; [done|]. intros [= <-].
  apply orb_false_iff in E as [E1%bool_decide_eq_false E2%bool_decide_eq_false].
  split_and!; [done| |done]. cbn. by apply eq_None_not_Some.
Qed.

Definition measured_only_here (b : Baseline) (cur : Side) (key : str) : Prop :=
  ba_Metrics b !! key = None ∧ side_values cur key ≠ [].

Lemma only_here_keys b (m : gmap str Observation) :
  NoDup (re_Key <$> omap (only_here b) (map_to_list m)) ∧
  ∀ key, key ∈ re_Key <$> omap (only_here b) (map_to_list m) ↔
    ba_Metrics b !! key = None ∧ ∃ o, m !! key = Some o ∧ o_Values o ≠ [].
Proof.
  assert (re_Key <$> omap (only_here b) (map_to_list m) `sublist_of` (map_to_list m).*1) as Hsub.
  { induction (map_to_list m) as [|entry l IH]; cbn; [constructor|].
    destruct (only_here b entry) as [r|] eqn:E; cbn; [|by constructor].
    apply only_here_key in E as (-> & _). by constructor. }
  split; [exact (sublist_NoDup _ _ (NoDup_fst_map_to_list m) Hsub)|]. intros key. rewrite list_elem_of_fmap. split.
  - intros (r & -> & (entry & Hin & Hr)%list_elem_of_omap). apply only_here_key in Hr as (-> & Hn & Hv).
    cbn. split; [done|]. exists entry.2. split; [|done]. apply elem_of_map_to_list. by destruct entry.
  - intros (Hn & o & Ho & Hv). eexists. split.
    2: { apply list_elem_of_omap. exists (key, o). split; [by apply elem_of_map_to_list|].
         unfold only_here. rewrite bool_decide_false, bool_decide_false; [done|done|].
         by rewrite Hn; intros []. }
    done.
Qed.

Global Instance key_le_total : Total key_le.
Proof. intros a b. apply (total String.le). Qed.

Global Instance key_le_trans : Transitive key_le.
Proof. intros a b c. unfold key_le. by etrans. Qed.

(** A comparison against a baseline reports every metric of the baseline, and every
    metric the run measured that the baseline has not, each exactly once and in the order of
    the keys; a row about a metric of the baseline is what the precedence of outcomes makes
    of it, and any other row only says that the metric is missing from the baseline. *)
Theorem comparison_complete cur b rs :
  AgainstBaseline opts cur b = inl rs →
  Sorted key_le rs ∧ NoDup (re_Key <$> rs) ∧
  (∀ key, key ∈ re_Key <$> rs ↔ is_Some (ba_Metrics b !! key) ∨ measured_only_here b cur key) ∧
  (∀ r, r ∈ rs →
     match ba_Metrics b !! re_Key r with
     | Some bm => compareMetric opts (fingerprint_difference (sd_Fingerprint cur) (ba_Fingerprint b))
                    (re_Key r) bm (sd_Metrics cur !! re_Key r) = inl r
     | None => re_Outcome r = Missing ∧ re_Enforced r = false
     end).
Proof.
  unfold AgainstBaseline. destruct (length (sd_Runs cur) =? 1)%nat; cbn; [|done].
  destruct (compareMetrics _ _ _ _) as [rows|] eqn:Hrows; [|done]. intros [= <-].
  set (others := omap (only_here b) (map_to_list (sd_Metrics cur))).
  destruct (only_here_keys b (sd_Metrics cur)) as [Hnd Hothers]. fold others in Hnd, Hothers.
  pose proof (compareMetrics_keys _ _ _ _ Hrows) as Hkeys.
  assert (∀ key, key ∈ re_Key <$> rows ↔ is_Some (ba_Metrics b !! key)) as Hin.
  { intros key. rewrite Hkeys. apply (keys_of_elem (H:=key_order)). }
  unfold sortResults. split_and!.
  - apply Sorted_merge_sort, _.
  - rewrite merge_sort_Permutation, fmap_app. apply NoDup_app. split_and!; [|intros key|done].
    + rewrite Hkeys. apply NoDup_fst_map_to_list.
    + rewrite Hin, Hothers. intros [bm Hbm] [Hn _]. congruence.
  - intros key. rewrite merge_sort_Permutation, fmap_app, elem_of_app, Hin, Hothers.
    unfold measured_only_here, side_values. apply or_iff_compat_l. destruct (sd_Metrics cur !! key); naive_solver.
  - intros r. rewrite merge_sort_Permutation, elem_of_app. intros [Hr|Hr].
    + apply compareMetrics_spec in Hrows. apply list_elem_of_lookup in Hr as [i Hi].
      destruct (Forall2_lookup_r _ _ _ _ _ Hrows Hi) as ([key bm] & He & Hc). cbn in Hc.
      rewrite (compareMetric_key _ _ _ _ _ Hc).
      apply list_elem_of_lookup_2, elem_of_map_to_list in He. by rewrite He.
    + apply list_elem_of_omap in Hr as (entry & _ & (-> & Hn & _)%only_here_key). cbn. by rewrite Hn.
Qed.
End rows.

(** *** An enforced regression *)
Definition noise_bound (opts : Options) (key : str) (x ref : float64) : bool :=
  fle (fabs (fdiv (fsub x ref) (fabs ref))) (tolFor opts key).

Definition worse (metric : str) (x ref : float64) : Prop :=
  match DirectionOf metric with
  | Neutral => False
  | HigherIsBetter => flt (fsub x ref) fzero = true
  | LowerIsBetter => flt (fsub x ref) fzero = false ∧ feq (fsub x ref) fzero = false
  end.

Lemma decide_regression x ref tol dir conclusive rel :
  decide_outcome x ref tol dir conclusive = (Regression, rel) →
  fle (fabs (fdiv (fsub x ref) (fabs ref))) tol = false ∧ conclusive = true ∧
  match dir with
  | Neutral => False
  | HigherIsBetter => flt (fsub x ref) fzero = true
  | LowerIsBetter => flt (fsub x ref) fzero = false ∧ feq (fsub x ref) fzero = false
  end.
Proof.
  unfold decide_outcome. intros [= Ho _]. destruct (fle _ tol); [done|].
  destruct (feq (fsub x ref) fzero), conclusive, dir; cbn in Ho; try done;
    destruct (flt (fsub x ref) fzero); cbn in Ho; done.
Qed.

Section enforced.
Context `{Transcendental}.
Variable opts : Options.

Lemma compareMetric_enforced d key bm c r :
  compareMetric opts d key bm c = inl r → re_Enforced r = true →
  ∃ o lo hi sd, c = Some o ∧ d = [] ∧ o_Unusable o = "" ∧ o_Values o ≠ [] ∧
    bm_Enforceable bm = true ∧ op_Enforce opts = true ∧
    re_Outcome r = Regression ∧ re_Interval r = Some (lo, hi) ∧ re_Current r = Some (latest o) ∧
    bm_SD bm = Some sd ∧ PredictionInterval (bm_Mean bm) sd (bm_N bm) (op_Alpha opts) = inl (lo, hi) ∧
    (flt (latest o) lo || flt hi (latest o)) = true ∧
    noise_bound opts key (latest o) (bm_Mean bm) = false ∧ worse (bm_Metric bm) (latest o) (bm_Mean bm).
Proof.
  unfold compareMetric. destruct c as [o|]; [|by intros [= <-]].
  destruct (absent (Some o)) eqn:Ha; [by intros [= <-]|].
  case_bool_decide as Hd; cbn [negb]; [|by intros [= <-]].
  destruct (String.eqb_spec (o_Unusable o) "") as [Hu|]; cbn [negb]; [|by intros [= <-]].
  destruct (feq (bm_Mean bm) fzero); [by intros [= <-]|].
  destruct (bm_N bm <? 2)%Z; [by intros [= <-]|]. destruct (bm_SD bm) as [sd|]; [|by intros [= <-]].
  destruct (PredictionInterval _ _ _ _) as [[lo hi]|] eqn:Hpi; [|done].
  destruct (decide_outcome _ _ _ _ _) as [outcome rel] eqn:Hdec. intros [= <-] He. cbn in He.
  rewrite !andb_true_iff, bool_decide_eq_true in He. destruct He as [[-> Hbm] Hop].
  apply decide_regression in Hdec as (Hn & Hc & Hw).
  exists o, lo, hi, sd.
  split_and!; first [assumption|exact (absent_false o Ha Hu)|reflexivity].
Qed.

Lemma last_latest o : o_Values o ≠ [] → last (o_Values o) = Some (latest o).
Proof. unfold latest. intros Hv. destruct (last (o_Values o)) eqn:E; [done|]. by apply last_None in E. Qed.

(** The clean values of a key in one run. *)
Definition run_values (k : str) (e : Envelope) : list float64 := mjoin (clean_values k <$> e_Results e).

(** A finished run that measured the key. *)
Definition contributes (k : str) (e : Envelope) : bool := is_verdict e && match run_values k e with [] => false | _ => true end.

(** Runs read once each, which give a key one value at most, give as many as they are. *)
Lemma values_of_runs k envs :
  NoDup (finished_runs envs) → (∀ e, e ∈ envs → (length (run_values k e) <= 1)%nat) →
  let uids := (λ e, rf_UID (e_Run e)) <$> List.filter (contributes k) envs in
  NoDup uids ∧ length (values_of k envs) = length uids.
Proof.
  unfold values_of, finished_runs. induction envs as [|e envs IH]; [by split; [constructor|]|].
  intros Hnd Hone. cbn [List.filter].
  assert (∀ e', e' ∈ envs → (length (run_values k e') <= 1)%nat) as Hone'
    by (intros e' He; apply Hone; by apply list_elem_of_further).
  specialize (Hone e (list_elem_of_here _ _)). cbn [List.filter] in Hnd.
  assert (contributes k e = is_verdict e && match run_values k e with [] => false | _ => true end) as Hc
    by reflexivity.
  rewrite Hc. clear Hc.
  destruct (is_verdict e); cbn [andb] in *; [|by apply IH]. cbn [fmap list_fmap mjoin list_join] in *.
  apply NoDup_cons in Hnd as [Hn Hnd]. destruct (IH Hnd Hone') as [Hu Hl].
  fold (run_values k e). rewrite length_app. destruct (run_values k e) as [|v [|v' l]].
  - split; [exact Hu|exact Hl].
  - cbn [fmap list_fmap length]. split; [|exact (f_equal S Hl)]. constructor; [|exact Hu]. intros Hin. apply Hn.
    apply list_elem_of_fmap in Hin as (e' & -> & Hin). apply list_elem_of_fmap. exists e'. split; [done|].
    apply list_elem_of_In, filter_In in Hin as [Hin Hc]. apply list_elem_of_In, filter_In. split; [done|].
    by apply andb_true_iff in Hc as [? _].
  - cbn [length] in Hone. lia.
Qed.

Lemma five_runs k envs :
  NoDup (finished_runs envs) → (∀ e, e ∈ envs → (length (run_values k e) <= 1)%nat) →
  (5 <= length (values_of k envs))%nat →
  ∃ uids, NoDup uids ∧ (5 <= length uids)%nat ∧ ∀ u, u ∈ uids →
    ∃ e, e ∈ envs ∧ is_verdict e = true ∧ run_values k e ≠ [] ∧ rf_UID (e_Run e) = u.
Proof.
  intros Hnd Hone Hfive. destruct (values_of_runs k envs Hnd Hone) as [Hu Hl].
  eexists. split; [exact Hu|]. split; [by rewrite <-Hl|].
  intros u (e & -> & He)%list_elem_of_fmap. exists e.
  apply list_elem_of_In, filter_In in He as [He [Hv Hr]%andb_true_iff].
  split_and!; [by apply list_elem_of_In|done| |done]. by destruct (run_values k e).
Qed.

(** C30: What --enforce fails on: an enforced row is a regression of a metric whose baseline
    was promoted from at least five clean values, all finite, of finished runs whose
    fingerprints, where they carry one, do not differ; those are values of at least five
    distinct runs when no run was read twice and no run gives the metric two values.  The
    one run compared has that fingerprint; its latest value is a clean, finite measurement,
    outside the prediction interval of those values, off their mean by more than the
    tolerance, and on the worse side for a metric with a direction. *)
Theorem enforced_regression `{RangeOrder} base_envs envs name producer now s b cur rs r :
  Collect base_envs = inl s → Promote name s producer now = inl b →
  Collect envs = inl cur → AgainstBaseline opts cur b = inl rs →
  r ∈ rs → re_Enforced r = true →
  let ref := values_of (re_Key r) base_envs in
  ∃ x lo hi sd,
    re_Outcome r = Regression ∧ op_Enforce opts = true ∧
    (5 <= length ref)%nat ∧ Forall (λ v, is_finite v = true) ref ∧
    (NoDup (finished_runs base_envs) → (∀ e, e ∈ base_envs → (length (run_values (re_Key r) e) <= 1)%nat) →
     ∃ uids, NoDup uids ∧ (5 <= length uids)%nat ∧ ∀ u, u ∈ uids →
       ∃ e, e ∈ base_envs ∧ is_verdict e = true ∧ run_values (re_Key r) e ≠ [] ∧ rf_UID (e_Run e) = u) ∧
    Forall (λ f, DifferingFields (sd_Fingerprint s) f = []) (sd_RunFingerprints s) ∧
    length (finished_runs envs) = 1%nat ∧
    sd_Fingerprint cur ≠ "" ∧ DifferingFields (sd_Fingerprint cur) (sd_Fingerprint s) = [] ∧
    last (values_of (re_Key r) envs) = Some x ∧ is_finite x = true ∧ re_Current r = Some x ∧
    SampleSD ref = Some sd ∧
    PredictionInterval (Mean ref) sd (Z.of_nat (length ref)) (op_Alpha opts) = inl (lo, hi) ∧
    (flt x lo || flt hi x) = true ∧ noise_bound opts (re_Key r) x (Mean ref) = false ∧
    worse (metricOf (re_Key r)) x (Mean ref).
Proof.
  intros Hs Hb Hc Hrs Hr He ref. apply Collect_values in Hs as [Hsv _], Hc as [Hcv Hcr].
  apply Promote_spec in Hb as (Hfp & Hmix & Hbm).
  unfold AgainstBaseline in Hrs. destruct (Nat.eqb_spec (length (sd_Runs cur)) 1) as [Hone|]; [cbn [negb] in Hrs|done].
  destruct (compareMetrics _ _ _ _) as [rows|] eqn:Hrows; [|done]. injection Hrs as <-.
  unfold sortResults in Hr. rewrite merge_sort_Permutation, elem_of_app in Hr. destruct Hr as [Hr|Hr].
  2: { apply list_elem_of_omap in Hr as (entry & _ & (-> & _)%only_here_key). done. }
  apply compareMetrics_spec in Hrows. apply list_elem_of_lookup in Hr as [i Hi].
  destruct (Forall2_lookup_r _ _ _ _ _ Hrows Hi) as ([key bm] & Hin & Hrow). cbn [fst snd] in Hrow.
  pose proof (compareMetric_key _ _ _ _ _ _ Hrow) as Hkey. subst key.
  apply list_elem_of_lookup_2, elem_of_map_to_list in Hin.
  destruct (Hbm _ _ Hin) as (Hv & Hm & Hsd & Hme & Hn & Henf).
  apply compareMetric_enforced in Hrow
    as (o & lo & hi & sd & Ho & Hd & _ & Hne & Hen & Hop & Hout & _ & Hcur & Hsd' & Hpi & Hout' & Htol & Hw); [|done].
  apply Henf in Hen as [Hmin _].
  assert (values_of (re_Key r) envs = o_Values o) as Hvals.
  { rewrite <-Hcv. unfold side_values. by rewrite Ho. }
  rewrite Hsv in Hm, Hsd, Hn. fold ref in Hm, Hsd, Hn.
  unfold fingerprint_difference in Hd. rewrite Hfp in Hd.
  destruct (String.eqb_spec (sd_Fingerprint cur) "") as [|Hne1]; [discriminate Hd|].
  destruct (String.eqb_spec (sd_Fingerprint s) "") as [|Hne2]; [discriminate Hd|]. cbn [orb] in Hd.
  exists (latest o), lo, hi, sd. rewrite Hm, Hn, Hme in *.
  pose proof (values_of_finite (re_Key r) envs) as Hfin. rewrite Hvals in Hfin |- *.
  pose proof (last_latest o Hne) as Hlast.
  split_and!; try assumption.
  - unfold MinReplicates in Hmin. lia.
  - apply values_of_finite.
  - intros Hnd Huniq. unfold MinReplicates in Hmin. apply five_runs; [done..|]. fold ref. lia.
  - by rewrite <-Hcr.
  - rewrite Forall_forall in Hfin. apply Hfin. apply list_elem_of_lookup.
    exists (pred (length (o_Values o))). by rewrite <-last_lookup.
  - congruence.
Qed.
End enforced.

(** A comparison of two nodes is never enforced. *)
Lemma compareNodes_not_enforced `{Transcendental} `{Random} opts d key l r :
  re_Enforced (compareNodes opts d key l r) = false.
Proof. unfold compareNodes. by repeat case_match. Qed.

(** ** Witnesses *)
Definition bandwidth_run (uid value : str) : Envelope :=
  MkEnvelope Version false "" ReasonPhaseChanged 0 (MkRunRef "local" "n" uid "p") None None "Passed" "" 0
    {[ "n" := "kernel=6.11 os=Ubuntu 24.04" ]}
    [MkResultDoc "fabric" "ib-write-bw" "Node" "Passed" ["n"] None None {[ "bandwidthGbps" := value ]} "" [] [] []
       [] [] ∅ None] (MkSummary 1 0 0 0) None.

Definition replicate_runs : list Envelope :=
  [bandwidth_run "a" "97.49"; bandwidth_run "b" "97.50"; bandwidth_run "c" "97.51"; bandwidth_run "d" "97.50";
   bandwidth_run "e" "97.50"].

Definition strict : Options := MkOptions ∅ (round_decimal false 2 (-2)) (round_decimal false 5 (-2)) true 0.

(** An exponential that vanishes makes the interval the mean alone. *)
Definition flat : Transcendental := {| Exp _ := fzero; Log x := x; Lgamma x := x |}.

Definition side_of (envs : list Envelope) : Side :=
  match Collect (H:=key_order) envs with inl s => s | inr _ => emptySide end.

Definition promoted (s : Side) : Baseline :=
  match Promote "base" s None 0 with
  | inl b => b
  | inr _ => MkBaseline "" "" 0 None "" "" [] 0 ∅
  end.

Definition rows_of (cur : Side) (b : Baseline) : list Result :=
  match AgainstBaseline (H:=flat) strict cur b with inl rs => rs | inr _ => [] end.

Definition base_side : Side := Eval vm_compute in side_of replicate_runs.
Definition base_line : Baseline := Eval vm_compute in promoted base_side.
Definition slow_side : Side := Eval vm_compute in side_of [bandwidth_run "now" "48.9"].
Definition slow_rows : list Result := Eval vm_compute in rows_of slow_side base_line.

Lemma slow_regresses :
  re_Outcome <$> slow_rows = [Regression] ∧ enforced_key slow_rows = Some "fabric/bandwidthGbps".
Proof. split; vm_compute; reflexivity. Qed.

(** One run read five times passes for five replicates. *)
Lemma one_run_five_times :
  let b := promoted (side_of (repeat (bandwidth_run "a" "97.5") 5)) in
  (bm_N <$> ba_Metrics b !! "fabric/bandwidthGbps") = Some 5%Z ∧
  (bm_Enforceable <$> ba_Metrics b !! "fabric/bandwidthGbps") = Some true.
Proof. split; vm_compute; reflexivity. Qed.

Lemma comparison_complete_witness :
  AgainstBaseline (H:=flat) strict slow_side base_line = inl slow_rows ∧
  (("fabric/bandwidthGbps" : str) ∈ re_Key <$> slow_rows ↔
   is_Some (ba_Metrics base_line !! ("fabric/bandwidthGbps" : str)) ∨
   measured_only_here base_line slow_side "fabric/bandwidthGbps").
Proof.
  assert (AgainstBaseline (H:=flat) strict slow_side base_line = inl slow_rows) as Hrs by (vm_compute; reflexivity).
  split; [exact Hrs|].
  exact (proj1 (proj2 (proj2 (comparison_complete (H:=flat) strict slow_side base_line slow_rows Hrs)))
    "fabric/bandwidthGbps").
Defined.

Lemma enforced_regression_witness :
  ∃ r, r ∈ slow_rows ∧ re_Enforced r = true ∧ re_Outcome r = Regression ∧
    ∃ uids, NoDup uids ∧ (5 <= length uids)%nat ∧
      ∀ u, u ∈ uids → ∃ e, e ∈ replicate_runs ∧ rf_UID (e_Run e) = u.
Proof.
  assert (Collect (H:=key_order) replicate_runs = inl base_side) as Hs by (vm_compute; reflexivity).
  assert (Promote "base" base_side None 0 = inl base_line) as Hb by (vm_compute; reflexivity).
  assert (Collect (H:=key_order) [bandwidth_run "now" "48.9"] = inl slow_side) as Hc by (vm_compute; reflexivity).
  assert (AgainstBaseline (H:=flat) strict slow_side base_line = inl slow_rows) as Hrs by (vm_compute; reflexivity).
  assert (∃ r, head slow_rows = Some r) as [r Hr] by (eexists; reflexivity).
  assert (r ∈ slow_rows) as Hin by (apply head_Some_elem_of; exact Hr).
  assert (re_Enforced r = true) as He by (injection Hr as <-; reflexivity).
  exists r. split; [exact Hin|]. split; [exact He|].
  destruct (enforced_regression (H:=flat) (H0:=key_order) strict replicate_runs [bandwidth_run "now" "48.9"]
    "base" None 0 base_side base_line slow_side slow_rows r Hs Hb Hc Hrs Hin He)
    as (x & lo & hi & sd & Hout & _ & _ & _ & Hruns & _).
  split; [exact Hout|].
  assert (NoDup (finished_runs replicate_runs)) as Hnd by (apply (bool_decide_unpack _); vm_compute; exact I).
  assert (forallb (λ e, length (run_values (re_Key r) e) <=? 1)%nat replicate_runs = true) as Hone
    by (injection Hr as <-; vm_compute; reflexivity).
  destruct Hruns as (uids & Hu & Hfive & Hin'); [exact Hnd| |].
  { intros e Hx. apply Nat.leb_le. exact (proj1 (forallb_forall _ _) Hone e (proj1 (list_elem_of_In _ _) Hx)). }
  exists uids. split; [exact Hu|]. split; [exact Hfive|]. intros u Hx.
  destruct (Hin' u Hx) as (e & Hbase & _ & _ & Huid). exists e. split; [exact Hbase|exact Huid].
Defined.
