(* ===== verification/LocalTranslate.v ===== *)
(** * pkg/localrun/translate.go: a test as a container invocation

    The bare-metal dispatcher runs a profile's tests through a container runtime's
    command line.  [Translate] turns a planned test into a [RunSpec], the mirror of
    [podForTest] (PodBuild.v), and [runtime_args] (pkg/localrun/runtime.go) turns that
    into the arguments of docker, podman or nerdctl.  What the host has on disk is the
    class [Host]; a range over the resources takes the order of [RangeOrder]. *)

From S2P Require Import Prelude GoStrings GoFloat GoTime Contract Registry Runner Verdict Api Plan.
From S2P Require Import Soak Pods RunPlan Attempt PodBuild.
From Stdlib Require Import Ascii.
Open Scope stdpp_scope.

(** ** The plan (localrun.go) *)
Record Rendezvous := MkRendezvous {
  rz_Role : str;
  rz_PeerHost : str;
  rz_PeerNode : str;
  rz_Rank : option Z;
  rz_NRanks : Z;
  rz_RootHost : str;
  rz_RootNode : str;
}.

Record LocalPlan := MkLocalPlan {
  lp_Node : str;
  lp_Vendor : str;
  lp_HostIP : str;
  lp_Tests : list Test;
  lp_FailFast : bool;
  lp_RetryOnErrorLimit : Z;
  lp_Rendezvous : option Rendezvous;
}.

Definition RoleServer : str := "server".
Definition RoleClient : str := "client".

(** ** Invocations *)
Inductive GPUAccess := GPUNone | GPUNvidia | GPUAMD.

Global Instance GPUAccess_eq_dec : EqDecision GPUAccess.
Proof. solve_decision. Defined.

Record Mount := MkHostMount { mt_Source : str; mt_Target : str; mt_ReadOnly : bool }.

Record RunSpec := MkRunSpec {
  sp_Image : str;
  sp_Command : list str;
  sp_Args : list str;
  sp_Env : gmap str str;
  sp_Mounts : list Mount;
  sp_Devices : list str;
  sp_HostNetwork : bool;
  sp_Privileged : bool;
  sp_GroupAdd : list Z;
  sp_User : option Z;
  sp_CapAdd : list str;
  sp_GPUAccess : GPUAccess;
  sp_UnlimitedMemlock : bool;
  sp_Timeout : Z;
}.

Definition set_sp_Env (env : gmap str str) (s : RunSpec) : RunSpec :=
  MkRunSpec (sp_Image s) (sp_Command s) (sp_Args s) env (sp_Mounts s) (sp_Devices s)
    (sp_HostNetwork s) (sp_Privileged s) (sp_GroupAdd s) (sp_User s) (sp_CapAdd s)
    (sp_GPUAccess s) (sp_UnlimitedMemlock s) (sp_Timeout s).

(** ** Accelerators *)
Definition vendorResources : list (str * GPUAccess) :=
  [("nvidia.com/gpu", GPUNvidia); ("amd.com/gpu", GPUAMD)].

Definition vendorResourcePrefixes : list (str * GPUAccess) := [("nvidia.com/mig-", GPUNvidia)].

Definition accessFor (name : str) : GPUAccess :=
  match list_first (λ r, String.eqb r.1 name) vendorResources with
  | Some r => r.2
  | None =>
      match list_first (λ r, HasPrefix name r.1) vendorResourcePrefixes with
      | Some r => r.2
      | None => GPUNone
      end
  end.

Definition VendorResourceNames : list str := sort_strings vendorResources.*1.
Definition VendorResourcePrefixes : list str := sort_strings vendorResourcePrefixes.*1.

(** The first name of a range over a resource list that is an accelerator. *)
Definition first_access (names : list str) : GPUAccess :=
  match list_first (λ n, negb (bool_decide (accessFor n = GPUNone))) names with
  | Some n => accessFor n
  | None => GPUNone
  end.

(** ** Environment *)
Definition fieldHostIP : str := "status.hostIP".
Definition fieldNodeName : str := "spec.nodeName".

(** A value, no value ([inl None]) or a refusal. *)
Definition ResolveEnv (p : LocalPlan) (e : EnvVar) : option str + str :=
  match ev_ValueFrom e with
  | None => inl (Some (ev_Value e))
  | Some src =>
      match es_FieldRef src with
      | None => inl None
      | Some path =>
          if String.eqb path fieldHostIP then
            if String.eqb (lp_HostIP p) "" then
              inr ("env " +:+ quote (ev_Name e) +:+ " asks for " +:+ fieldHostIP +:+
                " and this machine has no routable address to answer with — pkg/hostinfo found neither a default route nor a global unicast address. Set one, or give the variable a literal value for this run")
            else inl (Some (lp_HostIP p))
          else if String.eqb path fieldNodeName then
            if String.eqb (lp_Node p) "" then
              inr ("env " +:+ quote (ev_Name e) +:+ " asks for " +:+ fieldNodeName +:+
                " and this run has no node name; pass --node")
            else inl (Some (lp_Node p))
          else inl None
      end
  end.

Definition describeEnvSource (src : EnvVarSource) : str :=
  match es_FieldRef src with
  | Some path => "fieldRef " +:+ path
  | None =>
      match es_SecretKeyRef src with
      | Some k => "secretKeyRef " +:+ ks_Name k +:+ "/" +:+ ks_Key k
      | None =>
          match es_ConfigMapKeyRef src with
          | Some k => "configMapKeyRef " +:+ ks_Name k +:+ "/" +:+ ks_Key k
          | None =>
              match es_ResourceFieldRef src with
              | Some r => "resourceFieldRef " +:+ r
              | None => "valueFrom"
              end
          end
      end
  end.

Definition UnresolvableEnv (p : LocalPlan) (spec : BurnInTestSpec) : list str :=
  match ts_Runner spec with
  | None => []
  | Some r =>
      omap (λ e, match ev_ValueFrom e, ResolveEnv p e with
                 | Some src, inl None => Some (ev_Name e +:+ " (" +:+ describeEnvSource src +:+ ")")
                 | _, _ => None
                 end) (rs_Env r)
  end.

(** The loop over the test's own environment. *)
Fixpoint own_env (p : LocalPlan) (l : list EnvVar) (env : gmap str str) : gmap str str + str :=
  match l with
  | [] => inl env
  | e :: l =>
      if bool_decide (ev_Name e ∈ ReservedEnv) then own_env p l env
      else
        match ResolveEnv p e with
        | inr err => inr err
        | inl None => own_env p l env
        | inl (Some v) => own_env p l (<[ev_Name e := v]> env)
        end
  end.

Definition setIf (k v : str) (env : gmap str str) : gmap str str :=
  if String.eqb v "" then env else <[k := v]> env.

(** The variables of a rendezvous, by the scope of the test. *)
Definition rendezvous_vars (rz : Rendezvous) (scope : TestScope) (env : gmap str str)
    : gmap str str :=
  if String.eqb scope ScopePair then
    setIf "BURNIN_PEER_NODE" (rz_PeerNode rz)
      (setIf "BURNIN_PEER_HOST" (rz_PeerHost rz) (<["BURNIN_ROLE" := rz_Role rz]> env))
  else if String.eqb scope ScopeGroup then
    let env := match rz_Rank rz with
               | Some n => <["BURNIN_RANK" := Itoa n]> env
               | None => env
               end in
    let env := if (0 <? rz_NRanks rz)%Z then <["BURNIN_NRANKS" := Itoa (rz_NRanks rz)]> env
               else env in
    setIf "BURNIN_ROOT_NODE" (rz_RootNode rz) (setIf "BURNIN_ROOT_HOST" (rz_RootHost rz) env)
  else env.

(** ** Duration *)
Definition deadlineGraceSeconds : Z := 120.
Definition defaultDurationSeconds : Z := 600.

Definition durationSeconds (spec : BurnInTestSpec) : Z :=
  if (0 <? ts_DurationSeconds spec)%Z then ts_DurationSeconds spec else defaultDurationSeconds.

(** ** Mounts and devices *)
Definition mount_of (m : HostPathMount) : Mount :=
  MkHostMount (hp_Path m) (hp_MountPath m)
    (match hp_ReadOnly m with None => true | Some b => b end).

Definition HostPathCharDev : str := "CharDevice".

Definition memlockTriggers : list str := ["/dev/infiniband"].

Definition target_le (a b : Mount) : Prop := String.le (mt_Target a) (mt_Target b).

Global Instance target_le_dec : RelDecision target_le := λ a b, String.le_dec _ _.

(** path/filepath.Clean, for a path without NUL bytes on Unix: the components it keeps,
    last first. *)
Definition clean_step (rooted : bool) (out : list str) (c : str) : list str :=
  if String.eqb c "" || String.eqb c "." then out
  else if String.eqb c ".." then
    match out with
    | x :: rest => if String.eqb x ".." then c :: out else rest
    | [] => if rooted then [] else [c]
    end
  else c :: out.

Definition Clean (path : str) : str :=
  let rooted := HasPrefix path "/" in
  let body := Join (reverse (fold_left (clean_step rooted) (Split path "/"%char) [])) "/" in
  let s := (if rooted then "/" else "") +:+ body in
  if String.eqb s "" then "." else s.

(** path/filepath.Join of two elements, the second not empty. *)
Definition JoinPath (dir name : str) : str :=
  Clean (if String.eqb dir "" then name else dir +:+ "/" +:+ name).

Section translate.

(** What the host has: the entries of a directory with whether each is a character
    device ([None] when its information cannot be read), or an error ([statDir]). *)
Context (statDir : str → option (list (str * option bool))).

Definition charDevicesIn (dir : str) : list str :=
  match statDir dir with
  | None => []
  | Some entries =>
      omap (λ e : str * option bool,
              if default false e.2 then Some (JoinPath dir e.1) else None) entries
  end.

(** What one host path adds to the devices. *)
Definition devices_of (m : HostPathMount) : list str :=
  (match hp_Type m with
   | Some t => if String.eqb t HostPathCharDev then [hp_Path m] else []
   | None => []
   end) ++ charDevicesIn (hp_Path m).

Definition wants_memlock (m : HostPathMount) : bool :=
  existsb (HasPrefix (hp_Path m)) memlockTriggers.

(** [resolveImage]: runnerimages.Resolve with the host's vendor. *)
Definition resolveImage (spec : BurnInTestSpec) (vendor : str) : str + str :=
  Resolve (ts_Kind spec) (ts_Runner spec) vendor.

Definition fabric_scope (scope : TestScope) : bool :=
  String.eqb scope ScopePair || String.eqb scope ScopeGroup.

Definition variant_vars (axes : gmap str str) (env : gmap str str) : gmap str str :=
  fold_left (λ m e, <[ev_Name e := ev_Value e]> m) (VariantEnv axes) env.

(** [r] orders the range over the limits, [r'] the one over the requests. *)
Definition Translate (r r' : RangeOrder) (p : LocalPlan) (t : Test) : RunSpec + str :=
  match resolveImage (te_Spec t) (lp_Vendor p) with
  | inr e => inr e
  | inl image =>
      let spec := te_Spec t in
      let duration := durationSeconds spec in
      let base := variant_vars (te_Axes t) {[ "BURNIN_DURATION_SECONDS" := Itoa duration ]} in
      let run := default emptyRunner (ts_Runner spec) in
      match own_env p (rs_Env run) base with
      | inr e => inr e
      | inl own =>
          let env := match lp_Rendezvous p with
                     | Some rz => rendezvous_vars rz (ts_Scope spec) own
                     | None => own
                     end in
          let network := ts_HostNetwork spec ||
                         (negb (is_unset (lp_Rendezvous p)) && fabric_scope (ts_Scope spec)) in
          let limits := first_access (@keys_of r _ (rq_Limits (ts_Resources spec))) in
          let access := if bool_decide (limits = GPUNone)
                        then first_access (@keys_of r' _ (rq_Requests (ts_Resources spec)))
                        else limits in
          inl (MkRunSpec image (rs_Command run) (rs_Args run) env
                 (merge_sort target_le (mount_of <$> rs_HostPaths run))
                 (sort_strings (mjoin (devices_of <$> rs_HostPaths run)))
                 network (rs_Privileged run) (rs_SupplementalGroups run) (rs_RunAsUser run)
                 (rs_Capabilities run) access (existsb wants_memlock (rs_HostPaths run))
                 (i32 (duration + deadlineGraceSeconds) * second))
      end
  end.
End translate.

(** ** The command line (runtime.go) *)
Inductive GPUFlagStyle := GPUFlagDockerNative | GPUFlagCDI.

Record CLIRuntime := MkCLI { cli_Style : GPUFlagStyle; cli_RunID : str }.

Definition LabelRun : str := "burnin.glimmer.ai/run".

Definition gpu_args (style : GPUFlagStyle) (a : GPUAccess) : list str :=
  match a with
  | GPUNone => []
  | GPUNvidia =>
      match style with
      | GPUFlagCDI => ["--device"; "nvidia.com/gpu=all"]
      | GPUFlagDockerNative => ["--gpus"; "all"]
      end
  | GPUAMD => ["--device"; "/dev/kfd"; "--device"; "/dev/dri"]
  end.

Definition mount_arg (m : Mount) : str :=
  mt_Source m +:+ ":" +:+ mt_Target m +:+ (if mt_ReadOnly m then ":ro" else "").

Definition sortedKeys (m : gmap str str) : list str := sort_strings (map_to_list m).*1.

(** [flag v] for each value. *)
Definition flag_each (flag : str) (l : list str) : list str := mjoin ((λ v, [flag; v]) <$> l).

(** [CLIRuntime.args] *)
Definition runtime_args (r : CLIRuntime) (spec : RunSpec) (name : str) : list str :=
  ["run"; "--rm"; "--name"; name] ++
  (if String.eqb (cli_RunID r) "" then [] else ["--label"; LabelRun +:+ "=" +:+ cli_RunID r]) ++
  (if sp_HostNetwork spec then ["--network"; "host"] else []) ++
  (if sp_Privileged spec then ["--privileged"] else []) ++
  (match sp_User spec with Some u => ["--user"; Itoa u] | None => [] end) ++
  flag_each "--cap-add" (sp_CapAdd spec) ++
  (if sp_UnlimitedMemlock spec then ["--ulimit"; "memlock=-1:-1"] else []) ++
  gpu_args (cli_Style r) (sp_GPUAccess spec) ++
  flag_each "-v" (mount_arg <$> sp_Mounts spec) ++
  flag_each "--device" (sp_Devices spec) ++
  flag_each "--group-add" (Itoa <$> sp_GroupAdd spec) ++
  flag_each "-e" ((λ k, k +:+ "=" +:+ default "" (sp_Env spec !! k)) <$> sortedKeys (sp_Env spec)) ++
  (match sp_Command spec with c :: _ => ["--entrypoint"; c] | [] => [] end) ++
  [sp_Image spec] ++ list.drop 1 (sp_Command spec) ++ sp_Args spec.

(** ** Environments *)

Lemma env_entry_cons n e l :
  env_entry n (e :: l) =
    match env_entry n l with
    | Some x => Some x
    | None => if String.eqb (ev_Name e) n then Some e else None
    end.
Proof.
  change (e :: l) with ([e] ++ l). rewrite env_entry_app.
  destruct (env_entry n l); [done|]. unfold env_entry. cbn. by destruct (String.eqb _ _).
Qed.

Lemma env_entry_none n l : (∀ e, e ∈ l → ev_Name e ≠ n) → env_entry n l = None.
Proof.
  induction l as [|e l IH]; intros H; [done|]. rewrite env_entry_cons, IH by set_solver.
  destruct (String.eqb_spec (ev_Name e) n) as [E|]; [|done]. destruct (H e); [by left|done].
Qed.

Lemma env_entry_elem n l e : env_entry n l = Some e → e ∈ l ∧ ev_Name e = n.
Proof.
  induction l as [|x l IH]; [done|]. rewrite env_entry_cons.
  destruct (env_entry n l) as [y|]; [set_solver|].
  destruct (String.eqb_spec (ev_Name x) n); [|done]. intros [= ->]. by split; [left|].
Qed.

(** A list of literal variables written into a map is read back as the kubelet reads it. *)
Lemma literal_vars_lookup l (env : gmap str str) n :
  fold_left (λ m e, <[ev_Name e := ev_Value e]> m) l env !! n =
    match env_entry n l with Some e => Some (ev_Value e) | None => env !! n end.
Proof.
  revert env. induction l as [|e l IH]; intros env; [done|]. cbn [fold_left].
  rewrite IH, env_entry_cons. destruct (env_entry n l); [done|].
  destruct (String.eqb_spec (ev_Name e) n) as [->|Hn]; [by rewrite lookup_insert_eq|].
  by rewrite lookup_insert_ne.
Qed.

(** The test's own variables, when none is reserved and every one has the value the
    kubelet would give it. *)
Lemma own_env_resolved (kubelet : EnvVar → str) p l (env : gmap str str) :
  (∀ e, e ∈ l → ev_Name e ∉ ReservedEnv ∧ ResolveEnv p e = inl (Some (kubelet e))) →
  ∃ env', own_env p l env = inl env' ∧
    ∀ n, env' !! n = match env_entry n l with Some e => Some (kubelet e) | None => env !! n end.
Proof.
  revert env. induction l as [|e l IH]; intros env Hl; [by exists env|]. cbn [own_env].
  destruct (Hl e) as [Hr He]; [by left|]. rewrite bool_decide_eq_false_2, He by done.
  destruct (IH (<[ev_Name e := kubelet e]> env)) as (env' & -> & Hlook); [set_solver|].
  exists env'. split; [done|]. intros n. rewrite Hlook, env_entry_cons.
  destruct (env_entry n l); [done|].
  destruct (String.eqb_spec (ev_Name e) n) as [->|Hn]; [by rewrite lookup_insert_eq|].
  by rewrite lookup_insert_ne.
Qed.

(** A variable the contract owns is never the test's to set. *)
Lemma own_env_reserved p l env env' n :
  own_env p l env = inl env' → n ∈ ReservedEnv → env' !! n = env !! n.
Proof.
  revert env. induction l as [|e l IH]; intros env; cbn [own_env]; [by intros [= ->]|].
  destruct (bool_decide_reflect (ev_Name e ∈ ReservedEnv)) as [|Hr]; [by apply IH|].
  destruct (ResolveEnv p e) as [[v|]|]; [|by apply IH|done].
  intros H Hn. rewrite (IH _ H Hn). apply lookup_insert_ne. by intros <-.
Qed.

Definition rendezvous_names : list str :=
  ["BURNIN_ROLE"; "BURNIN_PEER_HOST"; "BURNIN_PEER_NODE"; "BURNIN_RANK"; "BURNIN_NRANKS";
   "BURNIN_ROOT_HOST"; "BURNIN_ROOT_NODE"].

Lemma setIf_ne k v env n : n ≠ k → setIf k v env !! n = env !! n.
Proof. intros Hn. unfold setIf. destruct (String.eqb v ""); [done|]. by apply lookup_insert_ne. Qed.

Lemma rendezvous_vars_other rz scope env n :
  n ∉ rendezvous_names → rendezvous_vars rz scope env !! n = env !! n.
Proof.
  unfold rendezvous_names. rewrite !not_elem_of_cons. intros (? & ? & ? & ? & ? & ? & ? & _).
  unfold rendezvous_vars. destruct (String.eqb scope ScopePair).
  { by rewrite !setIf_ne, lookup_insert_ne. }
  destruct (String.eqb scope ScopeGroup); [|done]. rewrite !setIf_ne by done.
  destruct (0 <? rz_NRanks rz)%Z, (rz_Rank rz); rewrite ?lookup_insert_ne by done; done.
Qed.

Lemma rendezvous_env_names rv namespace e :
  e ∈ rendezvous_env rv namespace → ev_Name e ∈ rendezvous_names.
Proof.
  unfold rendezvous_env, rendezvous_names.
  destruct (String.eqb _ _); set_solver.
Qed.

Lemma VariantEnv_names axes e : e ∈ VariantEnv axes → HasPrefix (ev_Name e) "BURNIN_VARIANT_" = true.
Proof.
  intros (k & v & _ & _ & ->)%VariantEnv_elem. unfold VariantEnvName, HasPrefix. cbn.
  by destruct (ToUpper k).
Qed.

(** ** One container on both dispatchers *)

(** [runTest]'s own variable, set after the translation. *)
Definition with_attempt (attempt : Z) (s : RunSpec) : RunSpec :=
  set_sp_Env (<["BURNIN_ATTEMPT" := Itoa attempt]> (sp_Env s)) s.

(** The variables the two dispatchers may answer differently: the addresses of a
    rendezvous, and the resource limits, which only a cluster has. *)
Definition dispatcher_names : list str := "BURNIN_RESOURCE_LIMITS" :: rendezvous_names.

(** The container of a pod and the one of a command line are the same to the runner.
    [kubelet] is the value the kubelet gives a variable. *)
Definition same_container (kubelet : EnvVar → str) (rv : option rendezvous) (spec : RunSpec)
    (pod : PodTemplate) : Prop :=
  (sp_Image spec = pp_Image pod ∧ sp_Command spec = pp_Command pod ∧ sp_Args spec = pp_Args pod) ∧
  (∀ n, n ∉ dispatcher_names → sp_Env spec !! n = kubelet <$> env_entry n (pp_Env pod)) ∧
  match pp_Security pod with
  | None => sp_Privileged spec = false ∧ sp_User spec = None ∧ sp_CapAdd spec = []
  | Some sc => sp_Privileged spec = default false (sc_Privileged sc) ∧
               sp_User spec = sc_RunAsUser sc ∧ sp_CapAdd spec = sc_AddCapabilities sc
  end ∧
  sp_GroupAdd spec = pp_SupplementalGroups pod ∧
  (pp_HostNetwork pod = true → sp_HostNetwork spec = true) ∧
  (rendezvousGraceSeconds rv = 0%Z → sp_Timeout spec = (pp_ActiveDeadline pod * second)%Z) ∧
  (pp_Init pod = [] →
   ((λ m, (mt_Target m, mt_ReadOnly m)) <$> sp_Mounts spec) ≡ₚ
   ((λ v, (vm_MountPath v, vm_ReadOnly v)) <$> pp_Mounts pod)).

Lemma injected_env_entry run a spec axes rv n :
  n ∉ dispatcher_names →
  env_entry n (injected_env run a spec axes rv) =
    match env_entry n (VariantEnv axes) with
    | Some e => Some e
    | None =>
        if String.eqb "BURNIN_ATTEMPT" n then Some (MkEnvVar "BURNIN_ATTEMPT" (Itoa a))
        else if String.eqb "BURNIN_DURATION_SECONDS" n
        then Some (MkEnvVar "BURNIN_DURATION_SECONDS" (Itoa (executionDurationSeconds spec)))
        else None
    end.
Proof.
  unfold dispatcher_names. rewrite not_elem_of_cons. intros [Hlim Hrv].
  unfold injected_env, variantEnv. rewrite !env_entry_app.
  assert (env_entry n (match rv with Some rv => rendezvous_env rv (run_Namespace run)
                       | None => [] end) = None) as ->.
  { apply env_entry_none. destruct rv as [rv|]; [|by intros e He%not_elem_of_nil].
    intros e He%rendezvous_env_names Hn. by rewrite Hn in He. }
  destruct (env_entry n (VariantEnv axes)) as [e|]; [done|].
  assert (env_entry n (if String.eqb (resourceLimitsEnv (ts_Resources spec)) "" then []
    else [MkEnvVar "BURNIN_RESOURCE_LIMITS" (resourceLimitsEnv (ts_Resources spec))]) = None) as ->.
  { apply env_entry_none. destruct (String.eqb _ ""); [by intros e He%not_elem_of_nil|].
    intros e He%list_elem_of_singleton Hn. subst e. by apply Hlim. }
  rewrite !env_entry_cons. change (env_entry n []) with (@None EnvVar). cbn [ev_Name].
  by destruct (String.eqb "BURNIN_ATTEMPT" n), (String.eqb "BURNIN_DURATION_SECONDS" n).
Qed.

Lemma attempt_not_variant axes : env_entry "BURNIN_ATTEMPT" (VariantEnv axes) = None.
Proof. apply env_entry_none. intros e He%VariantEnv_names Hn. by rewrite Hn in He. Qed.

Lemma hostPathVolumes_mounts l :
  ((λ v, (vm_MountPath v, vm_ReadOnly v)) <$> (hostPathVolumes l).*2) =
  ((λ m, (mt_Target m, mt_ReadOnly m)) <$> (mount_of <$> l)).
Proof.
  unfold hostPathVolumes. rewrite !fmap_imap, <-list_fmap_compose, <-imap_const.
  apply imap_ext. intros i m _. unfold compose. cbn. unfold hostPathReadOnly.
  by destruct (hp_ReadOnly m).
Qed.

Lemma Translate_env statDir r r' p t spec :
  Translate statDir r r' p t = inl spec →
  ∃ own, own_env p (rs_Env (default emptyRunner (ts_Runner (te_Spec t))))
           (variant_vars (te_Axes t)
              {[ "BURNIN_DURATION_SECONDS" := Itoa (durationSeconds (te_Spec t)) ]}) = inl own ∧
    ∀ n, n ∉ rendezvous_names → sp_Env spec !! n = own !! n.
Proof.
  unfold Translate. destruct (resolveImage _ _); [|done]. destruct (own_env _ _ _) as [own|] eqn:Hown; [|done].
  intros [= <-]. exists own. split; [done|]. intros n Hn. cbn [sp_Env].
  destruct (lp_Rendezvous p); [|done]. by apply rendezvous_vars_other.
Qed.

Lemma rendezvous_reserved n : n ∈ rendezvous_names → n ∈ ReservedEnv.
Proof. unfold rendezvous_names, ReservedEnv. set_solver. Qed.

Section same.
Context (kubelet : EnvVar → str) (p : LocalPlan) (t : Test).
Context (Hlit : ∀ e, ev_ValueFrom e = None → kubelet e = ev_Value e).
Context (Hres : ∀ e, e ∈ rs_Env (default emptyRunner (ts_Runner (te_Spec t))) →
                     ev_Name e ∉ ReservedEnv ∧ ResolveEnv p e = inl (Some (kubelet e))).
Context (Hsoak : segmentSeconds (te_Spec t) = 0%Z).

Lemma duration_same : executionDurationSeconds (te_Spec t) = durationSeconds (te_Spec t).
Proof using Hsoak. unfold executionDurationSeconds. by rewrite Hsoak. Qed.

Lemma same_env statDir r r' a run rv spec n :
  Translate statDir r r' p t = inl spec → n ∉ dispatcher_names →
  sp_Env (with_attempt a spec) !! n =
    kubelet <$> env_entry n (injected_env run a (te_Spec t) (te_Axes t) rv ++
                             rs_Env (default emptyRunner (ts_Runner (te_Spec t)))).
Proof using Hlit Hres Hsoak.
  intros (own & Hown & Henv)%Translate_env Hn.
  destruct (own_env_resolved kubelet p _ (variant_vars (te_Axes t)
      {[ "BURNIN_DURATION_SECONDS" := Itoa (durationSeconds (te_Spec t)) ]}) Hres)
    as (own' & Hown' & Hlook).
  rewrite Hown in Hown'. injection Hown' as <-.
  rewrite env_entry_app, injected_env_entry by done. cbn [sp_Env with_attempt set_sp_Env].
  destruct (String.eqb_spec "BURNIN_ATTEMPT" n) as [<-|Ha].
  - rewrite lookup_insert_eq, attempt_not_variant, env_entry_none.
    + cbn. by rewrite Hlit.
    + intros e He Hname. destruct (Hres e He) as [Hr _]. apply Hr. rewrite Hname.
      unfold ReservedEnv. set_solver.
  - rewrite lookup_insert_ne, Henv, Hlook by (done || set_solver).
    destruct (env_entry n (rs_Env _)) as [e|]; [done|]. unfold variant_vars.
    rewrite literal_vars_lookup.
    destruct (env_entry n (VariantEnv _)) as [e|] eqn:He.
    + cbn. rewrite Hlit; [done|]. apply env_entry_elem in He as [He _].
      by apply VariantEnv_elem in He as (? & ? & _ & _ & ->).
    + destruct (String.eqb_spec "BURNIN_DURATION_SECONDS" n) as [<-|Hd].
      * cbn. by rewrite lookup_singleton_eq, Hlit, duration_same.
      * by rewrite lookup_singleton_ne.
Qed.
End same.



(** ** What a container is granted *)

Lemma first_access_some names :
  first_access names ≠ GPUNone ↔ ∃ n, n ∈ names ∧ accessFor n ≠ GPUNone.
Proof.
  unfold first_access. destruct (list_first _ names) as [n|] eqn:E.
  - apply list_first_Some in E as [Hn Ha%negb_true_iff%bool_decide_eq_false]. naive_solver.
  - split; [done|]. intros (n & Hn & Ha). rewrite list_first_None in E.
    specialize (E n Hn). apply negb_false_iff, bool_decide_eq_true in E. done.
Qed.

Lemma first_access_in names a :
  a ≠ GPUNone → first_access names = a → ∃ n, n ∈ names ∧ accessFor n = a.
Proof.
  intros Ha. unfold first_access. destruct (list_first _ names) as [n|] eqn:E; [|by intros <-].
  apply list_first_Some in E as [Hn _]. naive_solver.
Qed.

Lemma charDevicesIn_elem statDir dir d :
  d ∈ charDevicesIn statDir dir ↔
  ∃ entries name, statDir dir = Some entries ∧ (name, Some true) ∈ entries ∧ d = JoinPath dir name.
Proof.
  unfold charDevicesIn. destruct (statDir dir) as [entries|]; [|set_solver].
  rewrite list_elem_of_omap. split.
  - intros ([name [[]|]] & He & Hd); cbn in Hd; try discriminate. injection Hd as <-. by exists entries, name.
  - intros (? & name & [= <-] & He & ->). by exists (name, Some true).
Qed.

(** The resources a spec names, in its limits or its requests. *)
Definition names_resource (spec : BurnInTestSpec) (n : str) : Prop :=
  is_Some (rq_Limits (ts_Resources spec) !! n) ∨ is_Some (rq_Requests (ts_Resources spec) !! n).

(** A container gets what its test asks for and nothing else.  A variable of the
    contract has the value the dispatcher gives it, whatever the test's own environment
    says; a device is granted exactly when a declared host path is that character device
    or holds it directly; accelerators are granted exactly when a limit or a request
    names one, of a vendor that is named; and the host's network exactly when the test
    asks for it or runs across machines. *)
Theorem Translate_grants statDir r r' p t spec :
  Translate statDir r r' p t = inl spec →
  let run := default emptyRunner (ts_Runner (te_Spec t)) in
  let base := variant_vars (te_Axes t)
                {[ "BURNIN_DURATION_SECONDS" := Itoa (durationSeconds (te_Spec t)) ]} in
  (∀ n, n ∈ ReservedEnv → n ∉ rendezvous_names → sp_Env spec !! n = base !! n) ∧
  (∀ n, n ∈ rendezvous_names → lp_Rendezvous p = None ∨ ts_Scope (te_Spec t) = ScopeNode →
        sp_Env spec !! n = base !! n) ∧
  (∀ d, d ∈ sp_Devices spec ↔ ∃ m, m ∈ rs_HostPaths run ∧
        (hp_Type m = Some HostPathCharDev ∧ d = hp_Path m ∨
         ∃ entries name, statDir (hp_Path m) = Some entries ∧ (name, Some true) ∈ entries ∧
                         d = JoinPath (hp_Path m) name)) ∧
  ((sp_GPUAccess spec ≠ GPUNone ↔ ∃ n, names_resource (te_Spec t) n ∧ accessFor n ≠ GPUNone) ∧
   (∀ a, a ≠ GPUNone → sp_GPUAccess spec = a →
         ∃ n, names_resource (te_Spec t) n ∧ accessFor n = a)) ∧
  (sp_HostNetwork spec = true ↔
   ts_HostNetwork (te_Spec t) = true ∨
   is_Some (lp_Rendezvous p) ∧ fabric_scope (ts_Scope (te_Spec t)) = true).
Proof.
  intros H run base. pose proof (Translate_env _ _ _ _ _ _ H) as (own & Hown & Henv).
  fold run base in Hown.
  assert (sp_Devices spec = sort_strings (mjoin (devices_of statDir <$> rs_HostPaths run))) as Hdev.
  { revert H. unfold Translate. destruct (resolveImage _ _), (own_env _ _ _); by intros [= <-]. }
  split; [|split; [|split; [|split]]].
  - intros n Hn Hr. rewrite Henv by done. by apply (own_env_reserved _ _ _ _ _ Hown).
  - intros n Hn Hs. rewrite <-(own_env_reserved _ _ _ _ n Hown) by by apply rendezvous_reserved.
    revert H. unfold Translate. destruct (resolveImage _ _); [|done]. fold run base. rewrite Hown.
    intros [= <-]. cbn [sp_Env]. destruct Hs as [-> | ->]; [done|]. by destruct (lp_Rendezvous p).
  - intros d. rewrite Hdev, sort_strings_elem, list_elem_of_join. setoid_rewrite list_elem_of_fmap.
    split.
    + intros (l & Hd & m & -> & Hm). exists m. split; [done|]. revert Hd. unfold devices_of.
      rewrite elem_of_app, charDevicesIn_elem. intros [Hd|Hd]; [left|by right].
      destruct (hp_Type m) as [ty|]; [|by apply not_elem_of_nil in Hd].
      destruct (String.eqb_spec ty HostPathCharDev); [|by apply not_elem_of_nil in Hd].
      apply list_elem_of_singleton in Hd. by subst.
    + intros (m & Hm & Hd). exists (devices_of statDir m). split; [|by exists m]. unfold devices_of.
      rewrite elem_of_app, charDevicesIn_elem. destruct Hd as [[-> ->]|Hd]; [left|by right].
      rewrite String.eqb_refl. by left.
  - revert H. unfold Translate. destruct (resolveImage _ _), (own_env _ _ _); [|done..].
    intros [= <-]. cbn [sp_GPUAccess].
    set (lim := @keys_of r _ (rq_Limits (ts_Resources (te_Spec t)))).
    set (req := @keys_of r' _ (rq_Requests (ts_Resources (te_Spec t)))).
    assert (∀ n, names_resource (te_Spec t) n ↔ n ∈ lim ∨ n ∈ req) as Hnames.
    { intros n. unfold names_resource, lim, req. by rewrite !keys_of_elem. }
    setoid_rewrite Hnames. clear Hnames. clearbody lim req.
    pose proof (first_access_some lim) as Hl. pose proof (first_access_some req) as Hq.
    pose proof (first_access_in lim) as Hil. pose proof (first_access_in req) as Hiq.
    destruct (bool_decide_reflect (first_access lim = GPUNone)) as [E|E]; split;
      naive_solver.
  - revert H. unfold Translate. destruct (resolveImage _ _), (own_env _ _ _); [|done..].
    intros [= <-]. cbn [sp_HostNetwork]. rewrite orb_true_iff, andb_true_iff.
    destruct (lp_Rendezvous p); cbn; naive_solver.
Qed.

Lemma Translate_grants_witness :
  let runner := MkRunner "example/runner:1" [] [] [] [MkEnvVar "BURNIN_ROLE" "client"] false None [] []
                  "" [MkHostPath "/dev/infiniband" "/dev/infiniband" None (Some "Directory")] [] None in
  let t := MkTest "link" true (MkTestSpec "ib-write-bw" ScopeNode 0 None None None (Some runner) []
             (MkResources {[ "nvidia.com/mig-1g.5gb" := "1" ]} ∅) false) ∅ "" in
  let p := MkLocalPlan "node-a" "nvidia" "" [t] false 0 None in
  let statDir := λ d, if String.eqb d "/dev/infiniband"
                      then Some [("by-path", Some false); ("uverbs0", Some true)] else None in
  match Translate statDir key_order key_order p t with
  | inl spec => sp_Devices spec = ["/dev/infiniband/uverbs0"] ∧ sp_GPUAccess spec = GPUNvidia ∧
                sp_Env spec !! "BURNIN_ROLE" = None ∧ sp_HostNetwork spec = false
  | inr _ => False
  end.
Proof.
  intros runner t p statDir.
  destruct (Translate statDir key_order key_order p t) as [spec|e] eqn:E;
    [|vm_compute in E; discriminate E].
  pose proof (Translate_grants statDir key_order key_order p t spec E) as (_ & Hrv & _ & _ & Hn).
  split; [vm_compute in E; injection E as <-; reflexivity|].
  split; [vm_compute in E; injection E as <-; reflexivity|]. split.
  - rewrite (Hrv "BURNIN_ROLE"); [reflexivity| |by left]. unfold rendezvous_names. left.
  - destruct (sp_HostNetwork spec); [|reflexivity].
    destruct (proj1 Hn eq_refl) as [H|[_ H]]; discriminate H.
Defined.
