(* ===== verification/Localrun.v ===== *)
(** * pkg/localrun/localrun.go: the bare-metal dispatcher

    [runTest] is the loop that mirrors the controller's [completeAttempt]: it translates
    a test, runs its container, judges what the runner printed ([outcome]) and repeats
    or retries; [Run] takes a plan's tests in order; [finalPhase] and [codeFor]
    (cmd/burnin/run.go) turn the results into a phase and an exit code.  The world of an
    attempt is an [AttemptInput]: whether the run was cancelled, what the container
    runtime returned for the invocation, what it had printed at each write, and what
    the clock read.  Hooks are the list of events they are called with. *)

From S2P Require Import Prelude GoStrings GoFloat GoTime Contract Registry Runner Verdict Api Plan.
From S2P Require Import Soak Pods RunPlan Attempt History PodBuild LocalTranslate.
From Stdlib Require Import Ascii.
Open Scope stdpp_scope.

(** ** Results *)
Record LocalAttempt := MkLocalAttempt {
  la_Attempt : Z;
  la_Trigger : AttemptTrigger;
  la_Phase : RunPhase;
  la_ExitCode : Z;
  la_StartedAt : Z;
  la_FinishedAt : Z;
  la_Metrics : gmap str str;
  la_Message : str;
}.

(** Of a result: the four fields of the settled attempt's evidence are one. *)
Record LocalResult := MkLocalResult {
  lr_Name : str;
  lr_Kind : str;
  lr_Scope : TestScope;
  lr_Phase : RunPhase;
  lr_Nodes : list str;
  lr_StartedAt : Z;
  lr_FinishedAt : option Z;
  lr_Metrics : gmap str str;
  lr_Message : str;
  lr_VariantAxes : gmap str str;
  lr_Evidence : attemptEvidence;
  lr_RepeatsRequired : Z;
  lr_RepeatsCompleted : Z;
  lr_ErrorRetries : Z;
  lr_Attempts : list LocalAttempt;
}.

(** What the loop changes of a result. *)
Record Progress := MkProgress {
  pg_Metrics : gmap str str;
  pg_Message : str;
  pg_RepeatsCompleted : Z;
  pg_ErrorRetries : Z;
  pg_Attempts : list LocalAttempt;
}.

Definition fresh : Progress := MkProgress ∅ "" 0 0 [].

Definition with_progress (g : Progress) (r : LocalResult) : LocalResult :=
  MkLocalResult (lr_Name r) (lr_Kind r) (lr_Scope r) (lr_Phase r) (lr_Nodes r) (lr_StartedAt r)
    (lr_FinishedAt r) (pg_Metrics g) (pg_Message g) (lr_VariantAxes r) (lr_Evidence r)
    (lr_RepeatsRequired r) (pg_RepeatsCompleted g) (pg_ErrorRetries g) (pg_Attempts g).

(** A result that ends: its phase, when, its message, metrics and evidence. *)
Definition ended (phase : RunPhase) (at' : Z) (message : str) (metrics : gmap str str)
    (ev : attemptEvidence) (r : LocalResult) : LocalResult :=
  MkLocalResult (lr_Name r) (lr_Kind r) (lr_Scope r) phase (lr_Nodes r) (lr_StartedAt r)
    (Some at') metrics message (lr_VariantAxes r) ev (lr_RepeatsRequired r)
    (lr_RepeatsCompleted r) (lr_ErrorRetries r) (lr_Attempts r).

Record Summary := MkSummary { su_Passed : Z; su_Failed : Z; su_Errored : Z; su_Skipped : Z }.

Record Report := MkReport {
  rp_Node : str;
  rp_Phase : RunPhase;
  rp_StartedAt : Z;
  rp_FinishedAt : option Z;
  rp_Results : list LocalResult;
  rp_Summary : Summary;
}.

Record Checkpoint := MkCheckpoint {
  ck_Test : str;
  ck_Sequence : Z;
  ck_Attempt : Z;
  ck_Metrics : gmap str str;
  ck_At : Z;
}.

(** What the hooks are called with, in order. *)
Inductive Event :=
  | EvTestStart (name : str)
  | EvAttempt (name : str) (attempt : Z) (parsed : Result)
  | EvCheckpoint (c : Checkpoint)
  | EvTestComplete (r : LocalResult).

Record Execution := MkExecution {
  ex_ExitCode : Z;
  ex_Stdout : str;
  ex_Stderr : str;
  ex_TimedOut : bool;
}.

(** ** Attribution *)
Definition scopeOf (spec : BurnInTestSpec) : TestScope :=
  if String.eqb (ts_Scope spec) "" then ScopeNode else ts_Scope spec.

Definition pairNodes (rz : option Rendezvous) (local : str) : list str :=
  match rz with
  | None => [local]
  | Some r =>
      if String.eqb (rz_PeerNode r) "" then [local]
      else if String.eqb (rz_Role r) RoleClient then [rz_PeerNode r; local]
      else [local; rz_PeerNode r]
  end.

Definition groupNodes (local : str) : list str := [local].

Definition NodesFor (p : LocalPlan) (t : Test) : list str :=
  match lp_Rendezvous p with
  | None => [lp_Node p]
  | Some rz =>
      if String.eqb (ts_Scope (te_Spec t)) ScopePair then pairNodes (Some rz) (lp_Node p)
      else if String.eqb (ts_Scope (te_Spec t)) ScopeGroup then groupNodes (lp_Node p)
      else [lp_Node p]
  end.

(** ** Outcomes *)
Definition local_maxNamedInvalidMetrics : nat := 5.

Definition bracket (s : str) : str :=
  if String.eqb (TrimSpace s) "" then "" else " [runner said: " +:+ TrimSpace s +:+ "]".

Definition local_undeclaredSkip : str :=
  "runner exited 2 (the skip code) without declaring a skip — an unrecovered Go panic exits 2, as does every Go runtime fatal error, so the likeliest cause is a crashed runner: the hardware is UNJUDGED, not out of scope".

(** The evaluation of a passing runner's metrics against the test's own thresholds. *)
Definition evaluated (t : Test) (parsed : Result) : RunPhase * str * attemptEvidence :=
  let out := Evaluate (r_Metrics parsed) (r_Unmeasurable parsed) (ts_Thresholds (te_Spec t)) in
  let '(phase, message, violations) :=
    if o_Passed out then (RunPassed, r_Message parsed, [])
    else
      let prior := TrimSpace (r_Message parsed) in
      let message := if String.eqb prior "" then o_Message out
                     else bracketed (o_Message out) prior in
      let more := ViolationSummary out in
      (RunFailed, (if String.eqb more "" then message else bracketed message more),
       violationsFor (o_Violations out)) in
  let why := NotEvaluatedMessage out in
  (phase, (if String.eqb why "" then message else bracketed message why),
   MkEvidence violations
     ((λ n, MkNotEvaluatedRef (ne_Metric n) (ne_Reason n)) <$> o_NotEvaluated out)
     (appliedFor out) []).

(** The switch over the runner's verdict, of a test with these thresholds. *)
Definition local_verdict (t : Test) (parsed : Result) : RunPhase * str * attemptEvidence :=
  let said := r_Message parsed in
  match r_Verdict parsed with
  | VerdictPass =>
      let n := count_of (ts_Thresholds (te_Spec t)) in
      if (0 <? n)%Z && ReportedNothing parsed then
        let message := "runner exited 0 but reported nothing, with " +:+ Itoa n +:+
              " threshold(s) to evaluate — the hardware was not measured and is UNJUDGED" in
        (RunError,
         (if String.eqb said "" then message
          else TrimSpace (message +:+ " [runner said: " +:+ said +:+ "]")), noEvidence)
      else evaluated t parsed
  | VerdictFail => (RunFailed, said, noEvidence)
  | VerdictSkip => (RunSkipped, said, noEvidence)
  | VerdictError =>
      (RunError,
       (if r_UndeclaredSkip parsed then TrimSpace (local_undeclaredSkip +:+ bracket said) else said),
       noEvidence)
  end.

Definition local_invalid_note (names : list str) : str :=
  let suffix := if (local_maxNamedInvalidMetrics <? length names)%nat
                then ", and " +:+ Itoa (count_of names - Z.of_nat local_maxNamedInvalidMetrics) +:+ " more"
                else "" in
  " [runner emitted " +:+ Itoa (count_of names) +:+ " metric name(s) the contract rejects: " +:+
  Join (list.take local_maxNamedInvalidMetrics names) ", " +:+ suffix +:+ "]".

Definition outcome (t : Test) (parsed : Result) : RunPhase * str * attemptEvidence :=
  let '(phase, message, ev) := local_verdict t parsed in
  (phase,
   (if is_nil (r_InvalidNames parsed) then message
    else TrimSpace (message +:+ local_invalid_note (r_InvalidNames parsed))),
   MkEvidence (ae_violations ev) (ae_notEvaluated ev) (ae_applied ev)
     (sorted_keys (r_Unmeasurable parsed))).

(** *** The runtime's own words *)
Definition firstLine (s : str) : str :=
  TrimSpace (default "" (head (Split (TrimSpace s) newline))).

Definition isRuntimeFailure (code : Z) : bool :=
  (code =? 125)%Z || (code =? 126)%Z || (code =? 127)%Z.

Definition errorLine (s : str) : str :=
  match list_first (λ line, Contains (ToLower line) "error") (Split s newline) with
  | Some line => TrimSpace line
  | None => firstLine s
  end.

Definition stderrLine (e : Execution) : str :=
  if negb (ex_TimedOut e) && isRuntimeFailure (ex_ExitCode e) then errorLine (ex_Stderr e)
  else firstLine (ex_Stderr e).

(** [triggerFor] (localrun.go) *)
Definition local_triggerFor (attempts : list LocalAttempt) (attempt : Z) : AttemptTrigger :=
  if (attempt =? 1)%Z then AttemptInitial
  else match last attempts with
       | Some a => if bool_decide (la_Phase a = RunError) then AttemptErrorRetry else AttemptRepeat
       | None => AttemptRepeat
       end.

Definition repeatCount (spec : BurnInTestSpec) : Z :=
  match ts_RepeatCount spec with
  | Some n => if (0 <? n)%Z then n else 1
  | None => 1
  end.

(** ** The loop *)

(** The world of one attempt.  A runtime that cannot stream, or a caller without a
    checkpoint hook, is an empty [in_Writes]; [in_Run] is the execution or the error the
    runtime gives for an invocation. *)
Record AttemptInput := MkInput {
  in_Cancelled : option str;
  in_Started : Z;
  in_Writes : list (Z * str);
  in_Run : RunSpec → Execution + str;
  in_Finished : Z;
  in_Settled : Z;
}.

(** *** Checkpoints *)

(** [runCheckpointInterval]: the shortest positive interval of any test. *)
Definition runCheckpointInterval (p : LocalPlan) : Z :=
  fold_left (λ shortest t,
    let d := checkpointInterval (te_Spec t) in
    if (0 <? d)%Z && ((shortest =? 0)%Z || (d <? shortest)%Z) then d else shortest)
    (lp_Tests p) 0%Z.

Definition checkpointSequence (p : LocalPlan) (started at' : Z) : Z :=
  let interval := runCheckpointInterval p in
  if (interval <=? 0)%Z then 0
  else let elapsed := (at' - started)%Z in
       if (elapsed <=? 0)%Z then 0 else Z.quot elapsed interval.

(** The callback of [runOnce] over the writes of an execution: [last] is when this
    execution last published. *)
Fixpoint checkpoints (p : LocalPlan) (t : Test) (attempt runStarted last : Z)
    (writes : list (Z * str)) : list Checkpoint :=
  match writes with
  | [] => []
  | (at', stdout) :: writes =>
      if (at' - last <? checkpointInterval (te_Spec t))%Z
      then checkpoints p t attempt runStarted last writes
      else
        let parsed := Parse (ts_Kind (te_Spec t)) stdout 0 in
        if bool_decide (r_Metrics parsed = ∅) then checkpoints p t attempt runStarted last writes
        else MkCheckpoint (te_Name t) (checkpointSequence p runStarted at') attempt
               (r_Metrics parsed) at' :: checkpoints p t attempt runStarted at' writes
  end.

(** [runOnce]: what the runtime produced, and the checkpoints published on the way. *)
Definition runOnce (p : LocalPlan) (t : Test) (attempt runStarted : Z) (spec : RunSpec)
    (w : AttemptInput) : (Execution + str) * list Checkpoint :=
  (in_Run w spec,
   if (checkpointInterval (te_Spec t) <=? 0)%Z then []
   else checkpoints p t attempt runStarted (in_Started w) (in_Writes w)).

(** What an attempt parses, its phase, its message and its evidence. *)
Definition judged (t : Test) (run : Execution + str)
    : Result * Execution * (RunPhase * str * attemptEvidence) :=
  let exec := match run with inl e => e | inr err => MkExecution (-1) "" err false end in
  let parsed := Parse (ts_Kind (te_Spec t)) (ex_Stdout exec) (ex_ExitCode exec) in
  let '(phase, message, ev) := outcome t parsed in
  let message :=
    if negb (String.eqb (ex_Stderr exec) "") && bool_decide (phase = RunError) &&
       String.eqb (r_Message parsed) ""
    then TrimSpace (message +:+ " [" +:+ stderrLine exec +:+ "]") else message in
  (parsed, exec, (phase, message, ev)).

(** The attempt appended to what the loop has recorded, and the metrics it leaves. *)
Definition record_local (attempt : Z) (w : AttemptInput) (parsed : Result) (exec : Execution)
    (phase : RunPhase) (message : str) (g : Progress) : Progress :=
  MkProgress
    (if bool_decide (r_Metrics parsed = ∅) then pg_Metrics g else r_Metrics parsed)
    (pg_Message g) (pg_RepeatsCompleted g) (pg_ErrorRetries g)
    (pg_Attempts g ++
       [MkLocalAttempt attempt (local_triggerFor (pg_Attempts g) attempt) phase (ex_ExitCode exec)
          (in_Started w) (in_Finished w) (r_Metrics parsed) message]).

(** The switch over the phase: the phase the test settles with, or [None] for another
    attempt. *)
Definition decide_local (required limit attempt : Z) (phase : RunPhase) (message : str)
    (g : Progress) : Progress * option RunPhase :=
  match phase with
  | RunPassed =>
      let n := i32 (pg_RepeatsCompleted g + 1) in
      let g := MkProgress (pg_Metrics g) (pg_Message g) n (pg_ErrorRetries g) (pg_Attempts g) in
      if (required <=? n)%Z then (g, Some RunPassed)
      else (MkProgress (pg_Metrics g)
              ("attempt " +:+ Itoa n +:+ "/" +:+ Itoa required +:+ " passed")
              n (pg_ErrorRetries g) (pg_Attempts g), None)
  | RunFailed => (g, Some RunFailed)
  | RunSkipped => (g, Some RunSkipped)
  | _ =>
      if (pg_ErrorRetries g <? limit)%Z
      then (MkProgress (pg_Metrics g)
              ("attempt " +:+ Itoa attempt +:+ " errored (" +:+ message +:+ "); retrying")
              (pg_RepeatsCompleted g) (i32 (pg_ErrorRetries g + 1)) (pg_Attempts g), None)
      else (g, Some RunError)
  end.

Section run.
Context (statDir : str → option (list (str * option bool))) (r r' : RangeOrder).

Definition newLocalResult (p : LocalPlan) (t : Test) (started : Z) : LocalResult :=
  MkLocalResult (te_Name t) (ts_Kind (te_Spec t)) (scopeOf (te_Spec t)) RunUnset (NodesFor p t)
    started None ∅ "" (CopyAxes (te_Axes t)) noEvidence (repeatCount (te_Spec t)) 0 0 [].

(** The loop of [runTest] from its [k]-th attempt on: the result, the error and the events;
    [None] when the fuel runs out.  The world of an attempt is looked up by its index. *)
Fixpoint attempts (fuel : nat) (p : LocalPlan) (t : Test) (runStarted : Z)
    (world : nat → AttemptInput) (k : nat) (attempt : Z) (res : LocalResult) (g : Progress)
    : option (LocalResult * option str * list Event) :=
  match fuel with
  | O => None
  | S fuel =>
      let w := world k in
      match in_Cancelled w with
      | Some err =>
          Some (ended RunError (in_Started w) "run cancelled before this test reached a verdict"
                  (pg_Metrics g) (lr_Evidence res) (with_progress g res), Some err, [])
      | None =>
          match Translate statDir r r' p t with
          | inr err =>
              Some (ended RunError (in_Started w) err (pg_Metrics g) (lr_Evidence res)
                      (with_progress g res), None, [])
          | inl spec =>
              let '(ran, cks) := runOnce p t attempt runStarted (with_attempt attempt spec) w in
              let '(parsed, exec, (phase, message, ev)) := judged t ran in
              let evs := (EvCheckpoint <$> cks) ++ [EvAttempt (te_Name t) attempt parsed] in
              let '(g, settled) :=
                decide_local (lr_RepeatsRequired res) (lp_RetryOnErrorLimit p) attempt phase message
                  (record_local attempt w parsed exec phase message g) in
              match settled with
              | Some final =>
                  Some (ended final (in_Settled w) message (r_Metrics parsed) ev
                          (with_progress g res), None, evs)
              | None =>
                  match attempts fuel p t runStarted world (S k) (i32 (attempt + 1)) res g with
                  | Some (out, err, more) => Some (out, err, evs ++ more)
                  | None => None
                  end
              end
          end
      end
  end.

(** An attempt that leaves the test open spends a repeat or a retry. *)
Definition attempts_fuel (p : LocalPlan) (t : Test) : nat :=
  S (Z.to_nat (repeatCount (te_Spec t) + Z.max 0 (lp_RetryOnErrorLimit p))).

Definition runTest (p : LocalPlan) (t : Test) (runStarted started : Z)
    (world : nat → AttemptInput) : option (LocalResult * option str * list Event) :=
  attempts (attempts_fuel p t) p t runStarted world 0 1 (newLocalResult p t started) fresh.

(** ** The run *)
Definition tally (results : list LocalResult) : Summary :=
  fold_left (λ s res,
    match lr_Phase res with
    | RunPassed => MkSummary (i32 (su_Passed s + 1)) (su_Failed s) (su_Errored s) (su_Skipped s)
    | RunFailed => MkSummary (su_Passed s) (i32 (su_Failed s + 1)) (su_Errored s) (su_Skipped s)
    | RunSkipped => MkSummary (su_Passed s) (su_Failed s) (su_Errored s) (i32 (su_Skipped s + 1))
    | _ => MkSummary (su_Passed s) (su_Failed s) (i32 (su_Errored s + 1)) (su_Skipped s)
    end) results (MkSummary 0 0 0 0).

Definition saw (phase : RunPhase) (results : list LocalResult) : bool :=
  existsb (λ res, bool_decide (lr_Phase res = phase)) results.

Definition finalPhase (results : list LocalResult) : RunPhase :=
  if saw RunFailed results then RunFailed
  else if saw RunError results then RunError
  else if saw RunPassed results then RunPassed else RunSkipped.

(** The world of one test: whether the run was cancelled before it and what the clock read
    then, when it began, and its attempts. *)
Record TestInput := MkTestInput {
  ti_Cancelled : option str;
  ti_Now : Z;
  ti_Started : Z;
  ti_Attempts : nat → AttemptInput;
}.

(** The loop of [runWithClock]; [finished] is the clock after it. *)
Fixpoint run_tests (p : LocalPlan) (runStarted finished : Z) (world : nat → TestInput) (k : nat)
    (tests : list Test) (results : list LocalResult) : option (Report * option str * list Event) :=
  let report := λ results,
    MkReport (lp_Node p) (finalPhase results) runStarted (Some finished) results (tally results) in
  match tests with
  | [] => Some (report results, None, [])
  | t :: tests =>
      let w := world k in
      match ti_Cancelled w with
      | Some err =>
          Some (MkReport (lp_Node p) (finalPhase results) runStarted (Some (ti_Now w)) results
                  (MkSummary 0 0 0 0), Some err, [])
      | None =>
          match runTest p t runStarted (ti_Started w) (ti_Attempts w) with
          | None => None
          | Some (res, Some err, evs) =>
              Some (MkReport (lp_Node p) RunUnset runStarted None results (MkSummary 0 0 0 0),
                    Some err, EvTestStart (te_Name t) :: evs)
          | Some (res, None, evs) =>
              let evs := EvTestStart (te_Name t) :: evs ++ [EvTestComplete res] in
              let results := results ++ [res] in
              if lp_FailFast p && te_Required t && negb (bool_decide (lr_Phase res = RunPassed))
              then Some (report results, None, evs)
              else
                match run_tests p runStarted finished world (S k) tests results with
                | Some (rep, err, more) => Some (rep, err, evs ++ more)
                | None => None
                end
          end
      end
  end.

Definition Run (p : LocalPlan) (started finished : Z) (world : nat → TestInput)
    : option (Report * option str * list Event) :=
  run_tests p started finished world 0 (lp_Tests p) [].
End run.

(** ** The exit code (cmd/burnin/run.go) *)
Definition exitPass : Z := 0.
Definition exitFail : Z := 1.
Definition exitNothingJudged : Z := 2.
Definition exitError : Z := 3.

(** Whether a test of that name decides the exit code: the last of that name. *)
Definition requiredNames (p : LocalPlan) : gmap str bool :=
  fold_left (λ m t, <[te_Name t := te_Required t]> m) (lp_Tests p) ∅.

Definition codeFor (rep : Report) (p : LocalPlan) : Z :=
  let deciding := List.filter (λ res, is_set (requiredNames p) (lr_Name res)) (rp_Results rep) in
  if saw RunFailed deciding then exitFail
  else if saw RunError deciding then exitError
  else if saw RunPassed deciding then exitPass else exitNothingJudged.

(** ** One outcome on both dispatchers *)

Lemma count_of_pos {A} (l : list A) : (0 <? count_of l)%Z = negb (is_nil l).
Proof. by destruct l. Qed.

Lemma evaluated_agrees t parsed :
  evaluated t parsed =
  gateOutcome (r_Metrics parsed) (r_Unmeasurable parsed) (ts_Thresholds (te_Spec t)) (r_Message parsed).
Proof. reflexivity. Qed.

(** The two dispatchers judge one runner result the same, but for words of the message. *)
Lemma outcome_agrees t parsed :
  segmentSeconds (te_Spec t) = 0%Z →
  (outcome t parsed).1.1 = phase_of t parsed ∧ (outcome t parsed).2 = (attemptOutcome t parsed).2.
Proof.
  intros Hs. unfold phase_of, outcome, attemptOutcome, local_verdict, verdict_outcome.
  rewrite Hs, count_of_pos. change (0 <? 0)%Z with false. cbv iota.
  destruct (r_Verdict parsed); [|done..].
  destruct (negb _ && _); [done|]. rewrite evaluated_agrees.
  by destruct (gateOutcome _ _ _ _) as [[phase message] ev].
Qed.

(** ** The loop is the controller's *)

(** One attempt on the two dispatchers. *)
Definition same_attempt (la : LocalAttempt) (at' : TestAttempt) : Prop :=
  at_Attempt at' = la_Attempt la ∧ at_Trigger at' = la_Trigger la ∧ at_Phase at' = la_Phase la ∧
  at_ExitCode at' = Some (i32 (la_ExitCode la)) ∧ at_Metrics at' = la_Metrics la.

(** One settled result on the two dispatchers. *)
Definition same_result (res : LocalResult) (or : TestResult) : Prop :=
  tr_Phase or = lr_Phase res ∧ tr_Metrics or = lr_Metrics res ∧
  MkEvidence (tr_Violations or) (tr_NotEvaluated or) (tr_Applied or) (tr_Unmeasurable or) =
    lr_Evidence res ∧
  tr_RepeatsCompleted or = lr_RepeatsCompleted res ∧ tr_ErrorRetries or = lr_ErrorRetries res ∧
  Forall2 same_attempt (lr_Attempts res) (tr_Attempts or).

(** What the runner reported in each attempt of a list of events. *)
Definition parsed_of (evs : list Event) : list Result :=
  omap (λ e, match e with EvAttempt _ _ parsed => Some parsed | _ => None end) evs.

Lemma parsed_of_app a b : parsed_of (a ++ b) = parsed_of a ++ parsed_of b.
Proof. apply omap_app. Qed.

Lemma parsed_of_checkpoints cks : parsed_of (EvCheckpoint <$> cks) = [].
Proof. by induction cks. Qed.

Lemma repeatCount_required spec : repeatCount spec = repeatsRequired spec.
Proof.
  unfold repeatCount, repeatsRequired. destruct (ts_RepeatCount spec) as [n|]; [|done].
  destruct (Z.ltb_spec 0 n), (Z.ltb_spec n 1); lia.
Qed.

Lemma Parse_ExitCode kind stdout code : r_ExitCode (Parse kind stdout code) = code.
Proof.
  unfold Parse. destruct (extractArtifacts stdout) as [artifacts lines].
  set (res := MkResult _ code ∅ ∅ "" [] artifacts _).
  assert (r_ExitCode res = code) as H by done. clearbody res. revert res H.
  induction lines as [|l lines IH]; intros res H; [done|]. cbn [fold_left]. apply IH.
  unfold scan_line. by case_all.
Qed.


Section simulation.
Context (t : Test) (nodes : list str) (limit : Z).

Notation required := (repeatsRequired (te_Spec t)).

(** The loop before an attempt, and the controller's open result. *)
Definition in_step (g : Progress) (attempt : Z) (or : TestResult) : Prop :=
  (tr_SegmentsRequired or = 0%Z ∧ tr_Phase or = RunRunning ∧ tr_RepeatsRequired or = required) ∧
  (tr_RepeatsCompleted or = pg_RepeatsCompleted g ∧ tr_ErrorRetries or = pg_ErrorRetries g ∧
   tr_Metrics or = pg_Metrics g) ∧
  Forall2 same_attempt (pg_Attempts g) (tr_Attempts or) ∧
  (∀ la, la ∈ pg_Attempts g → IsTerminal (la_Phase la) = true) ∧
  attempt = (count_of (pg_Attempts g) + 1)%Z ∧
  (∀ la, last (pg_Attempts g) = Some la → la_Attempt la = count_of (pg_Attempts g)) ∧
  count_of (pg_Attempts g) = (pg_RepeatsCompleted g + pg_ErrorRetries g)%Z ∧
  (0 <= pg_RepeatsCompleted g < required)%Z ∧ (0 <= pg_ErrorRetries g <= Z.max 0 limit)%Z.

Lemma in_step_last g attempt or :
  in_step g attempt or →
  match last (pg_Attempts g), last (tr_Attempts or) with
  | None, None => pg_Attempts g = [] ∧ tr_Attempts or = []
  | Some la, Some a => same_attempt la a ∧ IsTerminal (la_Phase la) = true
  | _, _ => False
  end.
Proof.
  intros (_ & _ & Hatt & Hterm & _).
  destruct (pg_Attempts g) as [|la l _] using rev_ind.
  { apply Forall2_nil_inv_l in Hatt as ->. by split. }
  apply Forall2_app_inv_l in Hatt as (l1 & l2 & _ & H2 & ->).
  inversion H2 as [|? a ? ? Ha Hnil]; subst. apply Forall2_nil_inv_l in Hnil as ->.
  rewrite !last_snoc. split; [done|]. apply Hterm. set_solver.
Qed.

Lemma in_step_next g attempt or :
  in_step g attempt or → (attempt < 2147483648)%Z → nextAttempt (Some or) = (attempt, false).
Proof.
  intros H Hlt. pose proof (in_step_last g attempt or H) as Hl.
  destruct H as (_ & _ & _ & _ & -> & Hn & _). unfold nextAttempt. simpl default.
  destruct (last (pg_Attempts g)) as [la|] eqn:E, (last (tr_Attempts or)) as [a|]; try done.
  - destruct Hl as [(Ha & _ & Hp & _) Ht]. rewrite Hp, Ht, Ha, (Hn la eq_refl).
    rewrite i32_small; [done|]. unfold int32_range, count_of in *. lia.
  - destruct Hl as [-> _]. done.
Qed.

Lemma in_step_trigger g attempt or :
  in_step g attempt or → triggerFor or = local_triggerFor (pg_Attempts g) attempt.
Proof.
  intros H. pose proof (in_step_last g attempt or H) as Hl.
  destruct H as ((Hs & _) & _ & _ & _ & -> & _). unfold triggerFor, local_triggerFor.
  rewrite Hs. destruct (last (pg_Attempts g)) as [la|] eqn:E, (last (tr_Attempts or)) as [a|]; try done.
  - destruct Hl as [(_ & _ & -> & _) _]. cbn.
    rewrite (proj2 (Z.eqb_neq _ _)); [done|]. destruct (pg_Attempts g); [done|].
    unfold count_of. simpl. lia.
  - by destruct Hl as [-> _].
Qed.

(** The attempt the controller opens for a runner that is not a pod of its own. *)
Lemma begin_on_next now or attempt :
  nextAttempt (Some or) = (attempt, false) →
  (begin_on now or nodes attempt None).1 =
  set_tr_Attempts (tr_Attempts or ++
    [MkAttempt attempt (triggerFor or) (first_node nodes) "" RunRunning None None None None ∅ ""]) or.
Proof. intros H. unfold begin_on. cbn. rewrite H. done. Qed.

(** The controller's result after one attempt, whose bookkeeping is [record_attempt]. *)
Definition recorded_on (or : TestResult) (attempt now : Z) (parsed : Result) (phase : RunPhase)
    (message : str) : TestResult :=
  let or := set_tr_Attempts (tr_Attempts or ++
      [MkAttempt attempt (triggerFor or) (first_node nodes) "" phase
         (Some (i32 (r_ExitCode parsed))) None (Some now) None (r_Metrics parsed) message]) or in
  if bool_decide (r_Metrics parsed = ∅) then or else set_tr_Metrics (r_Metrics parsed) or.

Lemma finish_on_next now or attempt parsed :
  tr_SegmentsRequired or = 0%Z → nextAttempt (Some or) = (attempt, false) →
  finish_on now limit t attempt "" parsed (begin_on now or nodes attempt None).1 =
  let '(phase, message, ev) := attemptOutcome t parsed in
  decide_attempt now limit t attempt parsed phase message ev
    (recorded_on or attempt now parsed phase message).
Proof.
  intros Hs Hn. rewrite (begin_on_next _ _ _ Hn). unfold finish_on.
  destruct (attemptOutcome t parsed) as [[phase message] ev]. f_equal.
  unfold record_attempt, recorded_on. cbn [tr_Attempts set_tr_Attempts]. rewrite alter_last_snoc.
  unfold truncateAttempts. cbn [tr_SegmentsRequired set_tr_Attempts]. by rewrite Hs.
Qed.

(** What one attempt of the loop appends, seen from the controller. *)
Lemma record_step g attempt or w parsed exec phase message message' :
  in_step g attempt or → r_ExitCode parsed = ex_ExitCode exec → IsTerminal phase = true →
  let g' := record_local attempt w parsed exec phase message g in
  let or' := recorded_on or attempt (in_Finished w) parsed phase message' in
  Forall2 same_attempt (pg_Attempts g') (tr_Attempts or') ∧ tr_Metrics or' = pg_Metrics g' ∧
  (∀ la, la ∈ pg_Attempts g' → IsTerminal (la_Phase la) = true) ∧
  (∀ la, last (pg_Attempts g') = Some la → la_Attempt la = count_of (pg_Attempts g')) ∧
  count_of (pg_Attempts g') = attempt.
Proof.
  intros H Hexit Hphase g' or'. pose proof (in_step_trigger _ _ _ H) as Htr.
  destruct H as (_ & (_ & _ & Hm) & Hatt & Hterm & -> & _).
  assert (tr_Attempts or' = tr_Attempts or ++
    [MkAttempt (count_of (pg_Attempts g) + 1) (triggerFor or) (first_node nodes) "" phase
       (Some (i32 (r_ExitCode parsed))) None (Some (in_Finished w)) None (r_Metrics parsed) message'])
    as -> by by unfold or', recorded_on; destruct (bool_decide _).
  assert (tr_Metrics or' = pg_Metrics g') as ->.
  { unfold or', recorded_on, g', record_local. cbn [pg_Metrics]. by destruct (bool_decide _). }
  assert (count_of (pg_Attempts g') = count_of (pg_Attempts g) + 1)%Z as Hc.
  { unfold g', count_of. cbn. rewrite length_app. cbn. lia. }
  split; [|split; [done|split; [|split]]].
  - apply Forall2_app; [done|]. constructor; [|constructor]. unfold same_attempt. cbn.
    by rewrite Htr, Hexit.
  - intros la. cbn. rewrite elem_of_app, list_elem_of_singleton. intros [?| ->]; [by apply Hterm|done].
  - intros la. cbn [g' record_local pg_Attempts]. rewrite last_snoc. intros [= <-]. done.
  - done.
Qed.

Lemma recorded_on_fields or attempt now parsed phase message :
  let or' := recorded_on or attempt now parsed phase message in
  tr_SegmentsRequired or' = tr_SegmentsRequired or ∧ tr_Phase or' = tr_Phase or ∧
  tr_RepeatsRequired or' = tr_RepeatsRequired or ∧
  tr_RepeatsCompleted or' = tr_RepeatsCompleted or ∧ tr_ErrorRetries or' = tr_ErrorRetries or.
Proof. unfold recorded_on. by destruct (bool_decide _). Qed.

(** A settled result of the loop, seen from the controller. *)
Definition settled_with (final : RunPhase) (metrics : gmap str str) (ev : attemptEvidence)
    (g : Progress) (or : TestResult) : Prop :=
  tr_Phase or = final ∧ tr_Metrics or = metrics ∧
  MkEvidence (tr_Violations or) (tr_NotEvaluated or) (tr_Applied or) (tr_Unmeasurable or) = ev ∧
  tr_RepeatsCompleted or = pg_RepeatsCompleted g ∧ tr_ErrorRetries or = pg_ErrorRetries g ∧
  Forall2 same_attempt (pg_Attempts g) (tr_Attempts or).

Lemma settle_settled now final message metrics ev g or :
  tr_RepeatsCompleted or = pg_RepeatsCompleted g → tr_ErrorRetries or = pg_ErrorRetries g →
  Forall2 same_attempt (pg_Attempts g) (tr_Attempts or) →
  settled_with final metrics ev g (settle now final message metrics ev or).
Proof. intros. unfold settled_with. cbn. by destruct ev. Qed.

(** One attempt of the loop is one completed attempt of the controller. *)
Lemma decide_step g attempt or w parsed exec phase message message' ev :
  in_step g attempt or → r_ExitCode parsed = ex_ExitCode exec →
  phase = RunPassed ∨ phase = RunFailed ∨ phase = RunSkipped ∨ phase = RunError →
  int32_range required → int32_range limit →
  let '(g', settled) :=
    decide_local required limit attempt phase message
      (record_local attempt w parsed exec phase message g) in
  let or' := (decide_attempt (in_Finished w) limit t attempt parsed phase message' ev
                (recorded_on or attempt (in_Finished w) parsed phase message')).1 in
  match settled with
  | Some final => settled_with final (r_Metrics parsed) ev g' or'
  | None => in_step g' (attempt + 1) or'
  end.
Proof.
  intros H Hexit Hphase Hreq Hlim.
  assert (IsTerminal phase = true) as Hterm by by destruct Hphase as [-> |[-> |[-> | ->]]].
  pose proof (record_step g attempt or w parsed exec phase message message' H Hexit Hterm)
    as (Hatt & Hm & Hall & Hlast & Hcount).
  pose proof (recorded_on_fields or attempt (in_Finished w) parsed phase message') as (Hs & Hp & Hr & Hc & He).
  destruct H as ((Hs0 & Hp0 & Hr0) & (Hc0 & He0 & _) & _ & _ & Hattempt & _ & Hsum & Hcr & Her).
  set (g1 := record_local attempt w parsed exec phase message g) in *.
  assert (pg_RepeatsCompleted g1 = pg_RepeatsCompleted g ∧ pg_ErrorRetries g1 = pg_ErrorRetries g)
    as [Hg1 Hg2] by done.
  set (or1 := recorded_on or attempt (in_Finished w) parsed phase message') in *.
  clearbody g1 or1. unfold int32_range in *.
  destruct Hphase as [-> |[-> |[-> | ->]]]; unfold decide_local, decide_attempt.
  - rewrite Hs, Hs0. change (0 <? 0)%Z with false. cbv iota zeta. rewrite Hg1.
    cbn [tr_RepeatsCompleted tr_RepeatsRequired set_tr_RepeatsCompleted]. rewrite Hr, Hr0, Hc, Hc0.
    rewrite i32_small by (unfold int32_range; lia).
    destruct (Z.leb_spec required (pg_RepeatsCompleted g + 1)).
    + apply settle_settled; [done|cbn; congruence|done].
    + unfold in_step. cbn. rewrite Hs, Hp, Hr, Hm, He, He0, Hs0, Hp0, Hr0, Hg2.
      split_and!; try done; lia.
  - apply settle_settled; congruence || done.
  - apply settle_settled; congruence || done.
  - rewrite Hg2, He, He0. destruct (Z.ltb_spec (pg_ErrorRetries g) limit).
    + unfold in_step. cbn. rewrite Hs, Hp, Hr, Hm, Hc, Hc0, Hs0, Hp0, Hr0, Hg1.
      rewrite i32_small by (unfold int32_range; lia). split_and!; try done; lia.
    + rewrite Hs, Hs0. change (0 <? 0)%Z with false. apply settle_settled; congruence || done.
Qed.

End simulation.

Lemma judged_facts t ran parsed exec phase message ev :
  judged t ran = (parsed, exec, (phase, message, ev)) → segmentSeconds (te_Spec t) = 0%Z →
  phase = phase_of t parsed ∧ ev = (attemptOutcome t parsed).2 ∧ r_ExitCode parsed = ex_ExitCode exec.
Proof.
  unfold judged. set (e := match ran with inl e => e | inr err => _ end). clearbody e.
  pose proof (Parse_ExitCode (ts_Kind (te_Spec t)) (ex_Stdout e) (ex_ExitCode e)) as Hexit.
  set (q := Parse _ _ _) in *. clearbody q. intros H Hs.
  destruct (outcome_agrees t q Hs) as [Hp Hv].
  destruct (outcome t q) as [[ph msg] v]. cbn [fst snd] in Hp, Hv.
  injection H as <- <- <- _ <-. done.
Qed.

Lemma in_step_bound t limit g attempt or :
  in_step t limit g attempt or → (repeatsRequired (te_Spec t) + Z.max 0 limit < 2147483648)%Z →
  (1 <= attempt < 2147483648)%Z.
Proof. intros (_ & _ & _ & _ & -> & _ & Hsum & Hc & He) Hb. lia. Qed.

Lemma decide_local_settled required limit attempt phase message g g' final :
  decide_local required limit attempt phase message g = (g', Some final) →
  IsTerminal final = true.
Proof.
  unfold decide_local. destruct phase; try (by intros [= _ <-]);
    try (destruct (_ <=? _)%Z; by intros [= _ <-]); destruct (_ <? _)%Z; by intros [= _ <-].
Qed.

Section refine.
Context (statDir : str → option (list (str * option bool))) (r r' : RangeOrder).
Context (p : LocalPlan) (t : Test) (runStarted : Z) (world : nat → AttemptInput).
Context (spec : RunSpec) (Hspec : Translate statDir r r' p t = inl spec).
Context (Hsoak : segmentSeconds (te_Spec t) = 0%Z).

Notation required := (repeatsRequired (te_Spec t)).
Notation limit := (lp_RetryOnErrorLimit p).

Context (Hlim : int32_range limit) (Hbound : (required + Z.max 0 limit < 2147483648)%Z).

Lemma attempts_refine nodes fuel k attempt res g or h out evs :
  lr_RepeatsRequired res = required →
  executed t nodes limit h or → in_step t limit g attempt or →
  attempts statDir r r' fuel p t runStarted world k attempt res g = Some (out, None, evs) →
  ∃ or', executed t nodes limit (h ++ parsed_of evs) or' ∧ same_result out or' ∧
         IsTerminal (tr_Phase or') = true.
Proof using Hspec Hsoak Hlim Hbound.
  revert k attempt g or h evs.
  induction fuel as [|fuel IH]; intros k attempt g or h evs Hreq Hex Hstep; [done|].
  cbn [attempts]. destruct (in_Cancelled (world k)); [done|]. rewrite Hspec.
  destruct (runOnce _ _ _ _ _ _) as [ran cks].
  destruct (judged t ran) as [[parsed exec] [[phase message] ev]] eqn:Hj.
  destruct (judged_facts _ _ _ _ _ _ _ Hj Hsoak) as (Hph & Hev & Hexit).
  assert (phase = RunPassed ∨ phase = RunFailed ∨ phase = RunSkipped ∨ phase = RunError) as Hcases
    by (rewrite Hph; apply phase_of_cases).
  pose proof (in_step_bound _ _ _ _ _ Hstep Hbound) as Hatt.
  assert (int32_range required) as Hr32.
  { destruct Hstep as (_ & _ & _ & _ & _ & _ & _ & ? & _). unfold int32_range. lia. }
  rewrite Hreq.
  destruct (attemptOutcome t parsed) as [[phase' message'] ev'] eqn:Hout.
  assert (phase' = phase) as -> by by rewrite Hph; unfold phase_of; rewrite Hout.
  cbn in Hev. subst ev'.
  pose proof (decide_step t nodes limit g attempt or (world k) parsed exec phase message message' ev
    Hstep Hexit Hcases Hr32 Hlim) as Hdec.
  pose proof (in_step_next t limit g attempt or Hstep (proj2 Hatt)) as Hnext.
  assert (executed t nodes limit (h ++ [parsed])
    (decide_attempt (in_Finished (world k)) limit t attempt parsed phase message' ev
       (recorded_on nodes or attempt (in_Finished (world k)) parsed phase message')).1) as Hex'.
  { destruct Hstep as ((Hseg & Hrun & _) & _).
    pose proof (finish_on_next t nodes limit (in_Finished (world k)) or attempt parsed Hseg Hnext) as Hf.
    rewrite Hout in Hf. rewrite <-Hf.
    replace attempt with (nextAttempt (Some or)).1 by by rewrite Hnext.
    apply executed_finish; [done|]. by rewrite Hrun. }
  destruct (decide_local _ _ _ _ _ _) as [g' settled] eqn:Hd. destruct settled as [final|].
  - intros [= <- <-]. rewrite parsed_of_app, parsed_of_checkpoints.
    eexists. split; [exact Hex'|]. split; [exact Hdec|].
    destruct Hdec as (-> & _). by apply decide_local_settled in Hd.
  - pose proof (in_step_bound _ _ _ _ _ Hdec Hbound) as Hatt'.
    rewrite i32_small by (unfold int32_range; lia).
    destruct (attempts _ _ _ _ _ _ _ _ _ _ _ _) as [[[out' err] more]|] eqn:Hmore; [|done].
    intros [= -> -> <-].
    destruct (IH _ _ _ _ _ _ Hreq Hex' Hdec Hmore) as (or' & H & ?). exists or'.
    rewrite !parsed_of_app, parsed_of_checkpoints. by rewrite <-app_assoc in H.
Qed.
End refine.

(** ** What a history decides is one phase *)

Lemma history_last required l l' q limit final :
  l = l' ++ [q] → history_verdict limit required l final →
  final = RunRunning ∧ (q = RunPassed ∨ q = RunError) ∨ final = q.
Proof.
  intros ->. destruct final; cbn; try done.
  - intros [[Ho _] _]. left. split; [done|]. apply Ho. set_solver.
  - intros (? & [_ [= ->]]%app_inj_tail & _). by right.
  - intros (? & [_ [= ->]]%app_inj_tail & _). by right.
  - intros (? & [_ [= ->]]%app_inj_tail & _). by right.
  - intros (? & [_ [= ->]]%app_inj_tail & _). by right.
Qed.

(** A history that settles a test settles it in one way. *)
Lemma history_verdict_unique limit required l final final' :
  history_verdict limit required l final → history_verdict limit required l final' →
  IsTerminal final = true → final' = final.
Proof.
  intros H H' Ht.
  assert (∃ l' q, l = l' ++ [q] ∧ final = q) as (l' & q & Hl & ->).
  { destruct final; try done; destruct H as (l' & -> & _); by eexists _, _. }
  destruct (history_last _ _ _ _ _ _ Hl H') as [[-> Hq]| ->]; [|done]. exfalso.
  destruct H' as [[_ Howe] Herr]. destruct Hq as [-> | ->]; cbn in H.
  - destruct H as (? & _ & _ & Hc & _). lia.
  - destruct H as (l2 & E & _ & Hc). rewrite E, count_p_snoc, Hc in Herr.
    change (bool_decide (RunError = RunError)) with true in Herr. cbv iota in Herr. lia.
Qed.

Lemma in_step_new t nodes limit :
  segmentsRequired (te_Spec t) = 0%Z → (1 <= repeatsRequired (te_Spec t))%Z →
  in_step t limit fresh 1 (newResult t nodes).
Proof.
  intros Hs Hr. unfold in_step, fresh. cbn. rewrite Hs.
  split; [done|]. split; [done|]. split; [constructor|].
  split; [by intros ? ?%not_elem_of_nil|]. split; [done|]. split; [done|]. split; [done|]. lia.
Qed.

Lemma repeatsRequired_pos spec : (1 <= repeatsRequired spec)%Z.
Proof.
  unfold repeatsRequired. destruct (ts_RepeatCount spec) as [n|]; [|lia].
  destruct (Z.ltb_spec n 1); lia.
Qed.

Lemma segmentsRequired_zero spec : segmentSeconds spec = 0%Z → segmentsRequired spec = 0%Z.
Proof. intros H. unfold segmentsRequired. by rewrite H. Qed.

(** C6: The bare-metal loop is the controller's, for a test that is not a segmented soak
    (the loop runs one of those whole) and whose repeats and error retries together stay
    below 2^31.  Whatever the runners print and however they end, when the loop comes to a
    verdict: the controller, completing one
    attempt for each attempt of the loop with the same runner result, reaches the same
    phase with the same metrics and evidence, the same repeats and retries spent, and
    the same attempts, each with its number, its reason, its phase and its exit code;
    and every execution the controller can make of those results ends in that phase. *)
Theorem runTest_refines statDir r r' p t runStarted started world spec out evs :
  Translate statDir r r' p t = inl spec → segmentSeconds (te_Spec t) = 0%Z →
  (0 <= lp_RetryOnErrorLimit p)%Z →
  (repeatsRequired (te_Spec t) + lp_RetryOnErrorLimit p < 2147483648)%Z →
  runTest statDir r r' p t runStarted started world = Some (out, None, evs) →
  let limit := lp_RetryOnErrorLimit p in
  (∃ or, executed t (NodesFor p t) limit (parsed_of evs) or ∧ same_result out or) ∧
  ∀ nodes or, executed t nodes limit (parsed_of evs) or → tr_Phase or = lr_Phase out.
Proof.
  intros Hspec Hsoak Hpos Hb Hrun limit.
  pose proof (repeatsRequired_pos (te_Spec t)) as Hone.
  pose proof (segmentsRequired_zero _ Hsoak) as Hseg.
  pose proof (in_step_new t (NodesFor p t) limit Hseg Hone) as Hstep.
  destruct (attempts_refine statDir r r' p t runStarted world spec Hspec Hsoak
    ltac:(unfold int32_range; lia) ltac:(lia) (NodesFor p t) _ _ _ _ _ _ [] _ _
    (repeatCount_required _ : lr_RepeatsRequired (newLocalResult p t started) = _)
    (executed_new t (NodesFor p t) limit) Hstep Hrun) as (or & Hex & Hsame & Hterm).
  cbn [app] in Hex. split; [by exists or|]. intros nodes or' Hex'.
  destruct (executed_inv t (NodesFor p t) limit _ _ Hseg Hpos Hb Hex) as (_ & Hv & _).
  destruct (executed_inv t nodes limit _ _ Hseg Hpos Hb Hex') as (_ & Hv' & _).
  destruct Hsame as (<- & _). by apply (history_verdict_unique _ _ _ _ _ Hv Hv').
Qed.

Definition refines_world (k : nat) : AttemptInput :=
  MkInput None (Z.of_nat k) []
    (λ _, if (k =? 0)%nat then inr "docker: no such host"
          else inl (MkExecution 0 ("BURNIN_METRIC gflops=" +:+ Itoa (Z.of_nat k)) "" false))
    (Z.of_nat k) (Z.of_nat k).

Definition refines_test : Test :=
  MkTest "burn" true
    (MkTestSpec "gpu-burn" "" 0 (Some 2%Z) None None
       (Some (MkRunner "example/runner:1" [] [] [] [] false None [] [] "" [] [] None)) []
       (MkResources ∅ ∅) false) ∅ "".

Definition refines_plan : LocalPlan := MkLocalPlan "node-a" "" "" [refines_test] false 1 None.

Lemma runTest_refines_witness :
  match runTest (λ _, None) key_order key_order refines_plan refines_test 0 0 refines_world with
  | Some (out, None, evs) =>
      (lr_Phase out = RunPassed ∧ lr_ErrorRetries out = 1%Z ∧
       la_Trigger <$> lr_Attempts out = [AttemptInitial; AttemptErrorRetry; AttemptRepeat]) ∧
      ∃ or, executed refines_test ["node-a"] 1 (parsed_of evs) or ∧ same_result out or
  | _ => False
  end.
Proof.
  destruct (Translate (λ _, None) key_order key_order refines_plan refines_test) as [spec|e] eqn:Hs;
    [|vm_compute in Hs; discriminate Hs].
  destruct (runTest (λ _, None) key_order key_order refines_plan refines_test 0 0 refines_world)
    as [[[out [err|]] evs]|] eqn:E; [vm_compute in E; discriminate E| |vm_compute in E; discriminate E].
  split; [vm_compute in E; injection E as <- <-; vm_compute; split_and!; reflexivity|].
  apply (runTest_refines (λ _, None) key_order key_order refines_plan refines_test 0 0 refines_world
           spec out evs Hs eq_refl); [vm_compute; discriminate|vm_compute; reflexivity|exact E].
Defined.

(** ** The loop ends *)

Definition is_attempt (e : Event) : bool := match e with EvAttempt _ _ _ => true | _ => false end.

Lemma decide_local_open required limit attempt phase message g g' :
  decide_local required limit attempt phase message g = (g', None) →
  (0 <= pg_RepeatsCompleted g < required)%Z → (0 <= pg_ErrorRetries g <= Z.max 0 limit)%Z →
  int32_range required → int32_range limit →
  (0 <= pg_RepeatsCompleted g' < required)%Z ∧ (0 <= pg_ErrorRetries g' <= Z.max 0 limit)%Z ∧
  (pg_RepeatsCompleted g' + pg_ErrorRetries g' = pg_RepeatsCompleted g + pg_ErrorRetries g + 1)%Z.
Proof.
  unfold int32_range. intros H Hc He Hr Hl. revert H. unfold decide_local.
  assert (i32 (pg_RepeatsCompleted g + 1) = pg_RepeatsCompleted g + 1)%Z as Hi1
    by (apply i32_small; unfold int32_range; lia).
  assert (pg_ErrorRetries g < limit → i32 (pg_ErrorRetries g + 1) = pg_ErrorRetries g + 1)%Z as Hi2
    by (intros; apply i32_small; unfold int32_range; lia).
  destruct phase; try done;
    try (destruct (Z.ltb_spec (pg_ErrorRetries g) limit); [|done]; intros [= <-]; cbn;
         rewrite Hi2 by done; lia).
  rewrite Hi1. destruct (Z.leb_spec required (pg_RepeatsCompleted g + 1)); [done|].
  intros [= <-]. cbn. lia.
Qed.

Section total.
Context (statDir : str → option (list (str * option bool))) (r r' : RangeOrder).
Context (p : LocalPlan) (t : Test) (runStarted : Z) (world : nat → AttemptInput).

Notation limit := (lp_RetryOnErrorLimit p).

Lemma attempts_total fuel k attempt res g :
  int32_range (lr_RepeatsRequired res) → int32_range limit →
  (0 <= pg_RepeatsCompleted g < lr_RepeatsRequired res)%Z →
  (0 <= pg_ErrorRetries g <= Z.max 0 limit)%Z →
  let owed := (lr_RepeatsRequired res + Z.max 0 limit - pg_RepeatsCompleted g - pg_ErrorRetries g)%Z in
  (owed <= Z.of_nat fuel)%Z →
  ∃ out err evs, attempts statDir r r' fuel p t runStarted world k attempt res g = Some (out, err, evs) ∧
    (count_of (List.filter is_attempt evs) <= owed)%Z ∧ IsTerminal (lr_Phase out) = true ∧
    ((∀ k, in_Cancelled (world k) = None) → err = None).
Proof.
  intros Hreq Hlim. revert k attempt g. induction fuel as [|fuel IH]; intros k attempt g Hc He owed Hf;
    [unfold owed in Hf; lia|].
  cbn [attempts]. destruct (in_Cancelled (world k)) as [e|] eqn:Hcancel.
  { eexists _, _, _. split; [done|]. split; [unfold count_of, owed; cbn; lia|]. split; [done|].
    intros Hno. by rewrite Hno in Hcancel. }
  destruct (Translate statDir r r' p t) as [spec|e];
    [|eexists _, _, _; split; [done|]; split; [unfold count_of, owed; cbn; lia|done]].
  destruct (runOnce _ _ _ _ _ _) as [ran cks].
  destruct (judged t ran) as [[parsed exec] [[phase message] ev]].
  set (g1 := record_local _ _ _ _ _ _ g).
  assert (pg_RepeatsCompleted g1 = pg_RepeatsCompleted g ∧ pg_ErrorRetries g1 = pg_ErrorRetries g)
    as [E1 E2] by done. clearbody g1.
  assert (count_of (List.filter is_attempt
    ((EvCheckpoint <$> cks) ++ [EvAttempt (te_Name t) attempt parsed])) = 1)%Z as Hone.
  { rewrite List.filter_app. by induction cks. }
  destruct (decide_local _ _ _ _ _ g1) as [g' [final|]] eqn:Hd.
  - eexists _, _, _. split; [done|]. rewrite Hone. split; [unfold owed; lia|].
    split; [by apply decide_local_settled in Hd|done].
  - rewrite <-E1 in Hc. rewrite <-E2 in He.
    destruct (decide_local_open _ _ _ _ _ _ _ Hd Hc He Hreq Hlim) as (Hc' & He' & Hsum).
    destruct (IH (S k) (i32 (attempt + 1)) g' Hc' He') as (out & err & evs & -> & Hn & Hterm & Herr);
      [rewrite ?E1, ?E2 in *; unfold owed in *; lia|].
    eexists _, _, _. split; [done|]. split; [|done].
    rewrite List.filter_app. unfold count_of in *. rewrite length_app. rewrite ?E1, ?E2 in *. unfold owed in *. lia.
Qed.
End total.

(** C16: A test always reaches a result.  Whatever its runners do, the loop ends after at
    most one attempt for each repeat the test requires and each retry the run allows,
    with a terminal phase; and with no error unless the run was cancelled. *)
Theorem runTest_terminates statDir r r' p t runStarted started world :
  int32_range (repeatCount (te_Spec t)) → int32_range (lp_RetryOnErrorLimit p) →
  ∃ out err evs,
    runTest statDir r r' p t runStarted started world = Some (out, err, evs) ∧
    (count_of (List.filter is_attempt evs) <=
       repeatCount (te_Spec t) + Z.max 0 (lp_RetryOnErrorLimit p))%Z ∧
    IsTerminal (lr_Phase out) = true ∧ ((∀ k, in_Cancelled (world k) = None) → err = None).
Proof.
  intros Hr Hl. pose proof (repeatsRequired_pos (te_Spec t)) as Hone.
  rewrite <-repeatCount_required in Hone.
  destruct (attempts_total statDir r r' p t runStarted world (attempts_fuel p t) 0 1
    (newLocalResult p t started) fresh Hr Hl) as (out & err & evs & E & Hn & H); cbn; try lia.
  { unfold attempts_fuel. lia. }
  exists out, err, evs. split; [exact E|]. split; [|done]. cbn in Hn. lia.
Qed.

Lemma runTest_terminates_witness :
  int32_range (repeatCount (te_Spec refines_test)) ∧
  int32_range (lp_RetryOnErrorLimit refines_plan) ∧
  ∃ out err evs,
    runTest (λ _, None) key_order key_order refines_plan refines_test 0 0 refines_world =
      Some (out, err, evs) ∧ (count_of (List.filter is_attempt evs) <= 3)%Z.
Proof.
  assert (int32_range (repeatCount (te_Spec refines_test))) as H1
    by (vm_compute; split; [discriminate|reflexivity]).
  assert (int32_range (lp_RetryOnErrorLimit refines_plan)) as H2
    by (vm_compute; split; [discriminate|reflexivity]).
  split; [exact H1|]. split; [exact H2|].
  destruct (runTest_terminates (λ _, None) key_order key_order refines_plan refines_test 0 0
    refines_world H1 H2) as (out & err & evs & E & Hn & _).
  exists out, err, evs. split; [exact E|exact Hn].
Defined.

(** ** Checkpoints of a run *)

Definition checkpoints_of (evs : list Event) : list Checkpoint :=
  omap (λ e, match e with EvCheckpoint c => Some c | _ => None end) evs.

Lemma checkpoints_of_app a b : checkpoints_of (a ++ b) = checkpoints_of a ++ checkpoints_of b.
Proof. apply omap_app. Qed.

Lemma checkpoints_of_published cks name n parsed :
  checkpoints_of ((EvCheckpoint <$> cks) ++ [EvAttempt name n parsed]) = cks.
Proof.
  rewrite checkpoints_of_app. cbn. rewrite app_nil_r.
  unfold checkpoints_of. induction cks; cbn; [done|]. by f_equal.
Qed.

(** Times at least [i] apart, the first at least [i] after [a]. *)
Fixpoint spaced (i a : Z) (l : list Z) : Prop :=
  match l with
  | [] => True
  | x :: l => (a + i <= x)%Z ∧ spaced i x l
  end.

Lemma spaced_weaken i a a' l : (a' <= a)%Z → spaced i a l → spaced i a' l.
Proof. destruct l; cbn; [done|]. intros ? [? ?]. split; [lia|done]. Qed.

Lemma spaced_app i a l b l' :
  (0 <= i)%Z → spaced i a l → (a <= b)%Z → (∀ x, x ∈ l → (x <= b)%Z) → spaced i b l' →
  spaced i a (l ++ l').
Proof.
  intros Hi. revert a. induction l as [|x l IH]; intros a Hl Hab Hb Hl'; cbn.
  - by eapply spaced_weaken.
  - destruct Hl as [Hx Hl]. split; [done|].
    apply IH; [done|apply Hb; by left|intros y Hy; apply Hb; by right|done].
Qed.

Lemma spaced_bound i a l x : (0 <= i)%Z → spaced i a l → x ∈ l → (a + i <= x)%Z.
Proof.
  intros Hi. revert a. induction l as [|y l IH]; intros a; [by intros _ ?%not_elem_of_nil|].
  intros [Hy Hl] [->|Hx]%elem_of_cons; [done|]. specialize (IH _ Hl Hx). lia.
Qed.

Definition shortest_of (shortest d : Z) : Z :=
  if (0 <? d)%Z && ((shortest =? 0)%Z || (d <? shortest)%Z) then d else shortest.

Lemma shortest_of_spec s d :
  (0 <= s)%Z →
  (0 <= shortest_of s d)%Z ∧ ((0 < s)%Z → (0 < shortest_of s d <= s)%Z) ∧
  ((0 < d)%Z → (0 < shortest_of s d <= d)%Z).
Proof.
  intros Hs. unfold shortest_of.
  destruct (Z.ltb_spec 0 d), (Z.eqb_spec s 0), (Z.ltb_spec d s); cbn; lia.
Qed.

Lemma shortest_fold (l : list Test) s :
  (0 <= s)%Z →
  let out := fold_left (λ s t, shortest_of s (checkpointInterval (te_Spec t))) l s in
  (0 <= out)%Z ∧ ((0 < s)%Z → (0 < out <= s)%Z) ∧
  ∀ t, t ∈ l → (0 < checkpointInterval (te_Spec t))%Z →
       (0 < out <= checkpointInterval (te_Spec t))%Z.
Proof.
  revert s. induction l as [|u l IH]; intros s Hs; cbn [fold_left].
  - split; [done|]. split; [lia|]. by intros t ?%not_elem_of_nil.
  - destruct (shortest_of_spec s (checkpointInterval (te_Spec u)) Hs) as (H0 & H1 & H2).
    destruct (IH _ H0) as (I0 & I1 & I2). split; [done|]. split; [lia|].
    intros t [->|Ht]%elem_of_cons Hd; [|by apply I2]. specialize (H2 Hd). lia.
Qed.

Lemma runCheckpointInterval_min p t :
  t ∈ lp_Tests p → (0 < checkpointInterval (te_Spec t))%Z →
  (0 < runCheckpointInterval p <= checkpointInterval (te_Spec t))%Z.
Proof. destruct (shortest_fold (lp_Tests p) 0) as (_ & _ & H); [done|]. apply H. Qed.

(** The checkpoints of one execution are spaced by the run's interval, numbered by the
    time, and sampled at its writes. *)
Lemma checkpoints_spaced p t attempt runStarted last writes :
  t ∈ lp_Tests p → (0 < checkpointInterval (te_Spec t))%Z →
  let cks := checkpoints p t attempt runStarted last writes in
  spaced (runCheckpointInterval p) last (ck_At <$> cks) ∧
  ∀ c, c ∈ cks → (ck_Sequence c = checkpointSequence p runStarted (ck_At c) ∧
                  (0 < runCheckpointInterval p)%Z) ∧ ck_At c ∈ writes.*1.
Proof.
  intros Ht Hi. pose proof (runCheckpointInterval_min p t Ht Hi) as Hrun.
  revert last. induction writes as [|[at' stdout] writes IH]; intros last; cbn [checkpoints].
  - split; [done|]. by intros c ?%not_elem_of_nil.
  - cbv zeta. destruct (Z.ltb_spec (at' - last) (checkpointInterval (te_Spec t)));
      [|destruct (bool_decide _)].
    1,2: destruct (IH last) as [H1 H2]; split; [done|]; intros c Hc;
      destruct (H2 c Hc); split; [done|by right].
    destruct (IH at') as [H1 H2]. split; [cbn; split; [lia|done]|].
    intros c [->|Hc]%elem_of_cons; [split; [split; [done|lia]|by left]|].
    destruct (H2 c Hc). split; [done|by right].
Qed.

Lemma runCheckpointInterval_nonneg p : (0 <= runCheckpointInterval p)%Z.
Proof. by destruct (shortest_fold (lp_Tests p) 0) as (H & _). Qed.

(** The clock never runs backwards over the attempts of a test. *)
Definition test_clock (world : nat → AttemptInput) : Prop :=
  ∀ i j x, (i < j)%nat → x = in_Started (world i) ∨ x ∈ (in_Writes (world i)).*1 →
           (x <= in_Started (world j))%Z.

Section checkpoints.
Context (statDir : str → option (list (str * option bool))) (r r' : RangeOrder).
Context (p : LocalPlan) (runStarted : Z).

(** The checkpoints of events that happen after [a], sampled at [at']. *)
Definition well_published (a : Z) (at' : Z → Prop) (evs : list Event) : Prop :=
  spaced (runCheckpointInterval p) a (ck_At <$> checkpoints_of evs) ∧
  ∀ c, c ∈ checkpoints_of evs →
       (ck_Sequence c = checkpointSequence p runStarted (ck_At c) ∧
        (0 < runCheckpointInterval p)%Z) ∧ at' (ck_At c).

Lemma well_published_none a at' evs : checkpoints_of evs = [] → well_published a at' evs.
Proof. unfold well_published. intros ->. split; [done|]. by intros c ?%not_elem_of_nil. Qed.

Lemma well_published_weaken a (P Q : Z → Prop) evs :
  (∀ x, P x → Q x) → well_published a P evs → well_published a Q evs.
Proof. intros HPQ [H1 H2]. split; [done|]. intros c Hc. destruct (H2 c Hc). auto. Qed.

Lemma well_published_app a b at' evs more :
  well_published a at' evs → well_published b at' more → (a <= b)%Z →
  (∀ c, c ∈ checkpoints_of evs → (ck_At c <= b)%Z) → well_published a at' (evs ++ more).
Proof.
  intros [H1 H2] [H3 H4] Hab Hb. unfold well_published. rewrite checkpoints_of_app, fmap_app.
  split.
  - eapply spaced_app; eauto using runCheckpointInterval_nonneg.
    intros x (c & -> & Hc)%list_elem_of_fmap. by apply Hb.
  - intros c [Hc|Hc]%elem_of_app; auto.
Qed.

Lemma attempts_checkpoints t world fuel k attempt res g out err evs :
  t ∈ lp_Tests p → test_clock world →
  attempts statDir r r' fuel p t runStarted world k attempt res g = Some (out, err, evs) →
  well_published (in_Started (world k))
    (λ x, ∃ j, (k <= j)%nat ∧ x ∈ (in_Writes (world j)).*1) evs.
Proof.
  intros Ht Hclock. revert k attempt g out err evs.
  induction fuel as [|fuel IH]; intros k attempt g out err evs; [done|].
  cbn [attempts]. destruct (in_Cancelled (world k)); [intros [= _ _ <-]; by apply well_published_none|].
  destruct (Translate statDir r r' p t) as [spec|]; [|intros [= _ _ <-]; by apply well_published_none].
  destruct (runOnce _ _ _ _ _ _) as [ran cks] eqn:Hrun.
  destruct (judged t ran) as [[parsed exec] [[phase message] ev]].
  assert (well_published (in_Started (world k)) (λ x, x ∈ (in_Writes (world k)).*1)
    ((EvCheckpoint <$> cks) ++ [EvAttempt (te_Name t) attempt parsed])) as Hcks.
  { unfold well_published. rewrite checkpoints_of_published. injection Hrun as _ <-.
    destruct (Z.leb_spec (checkpointInterval (te_Spec t)) 0);
      [split; [done|by intros c ?%not_elem_of_nil]|by apply checkpoints_spaced]. }
  destruct (decide_local _ _ _ _ _ _) as [g' [final|]].
  - intros [= _ _ <-]. eapply well_published_weaken; [|exact Hcks]. intros x Hx. by exists k.
  - destruct (attempts _ _ _ _ _ _ _ _ _ _ _ _) as [[[out' err'] more]|] eqn:Hmore; [|done].
    intros [= _ _ <-]. apply IH in Hmore.
    apply well_published_app with (b := in_Started (world (S k))).
    + eapply well_published_weaken; [|exact Hcks]. intros x Hx. by exists k.
    + eapply well_published_weaken; [|exact Hmore]. intros x (j & ? & ?). exists j. split; [lia|done].
    + apply (Hclock k); [lia|by left].
    + destruct Hcks as [_ H2]. intros c Hc. apply (Hclock k); [lia|right]. by apply H2.
Qed.

(** The clock never runs backwards over a run. *)
Definition run_clock (world : nat → TestInput) : Prop :=
  (∀ i k, (runStarted <= in_Started (ti_Attempts (world i) k))%Z) ∧
  (∀ i, test_clock (ti_Attempts (world i))) ∧
  (∀ i j k l x, (i < j)%nat →
     x = in_Started (ti_Attempts (world i) k) ∨ x ∈ (in_Writes (ti_Attempts (world i) k)).*1 →
     (x <= in_Started (ti_Attempts (world j) l))%Z).

(** A time the writes of a run have from its [k]-th test on. *)
Definition sampled_from (world : nat → TestInput) (k : nat) (x : Z) : Prop :=
  ∃ i j, (k <= i)%nat ∧ x ∈ (in_Writes (ti_Attempts (world i) j)).*1.

Lemma run_tests_checkpoints finished world k tests results rep err evs :
  tests ⊆ lp_Tests p → run_clock world →
  run_tests statDir r r' p runStarted finished world k tests results = Some (rep, err, evs) →
  well_published (in_Started (ti_Attempts (world k) 0)) (sampled_from world k) evs.
Proof.
  intros Hin Hclock. revert k results rep err evs Hin.
  induction tests as [|t tests IH]; intros k results rep err evs Hin; cbn [run_tests].
  { intros [= _ _ <-]. by apply well_published_none. }
  destruct (ti_Cancelled (world k)); [intros [= _ _ <-]; by apply well_published_none|].
  destruct (runTest _ _ _ _ _ _ _ _) as [[[res e] tevs]|] eqn:Ht; [|done].
  set (here := λ x, ∃ j, x ∈ (in_Writes (ti_Attempts (world k) j)).*1).
  assert (∀ x, here x → sampled_from world k x) as Hhere by (intros x [j Hx]; by exists k, j).
  assert (∀ l, checkpoints_of (EvTestStart (te_Name t) :: l) = checkpoints_of l) as Hstart by done.
  assert (well_published (in_Started (ti_Attempts (world k) 0)) here tevs) as Htevs.
  { apply attempts_checkpoints in Ht; [|apply Hin; by left|apply Hclock].
    eapply well_published_weaken; [|exact Ht]. intros x (j & _ & Hx). by exists j. }
  destruct e as [e|].
  { intros [= _ _ <-]. eapply well_published_weaken; [exact Hhere|].
    unfold well_published. by rewrite Hstart. }
  assert (well_published (in_Started (ti_Attempts (world k) 0)) here
    (EvTestStart (te_Name t) :: tevs ++ [EvTestComplete res])) as Hone.
  { unfold well_published. by rewrite Hstart, checkpoints_of_app, app_nil_r. }
  cbv zeta. destruct (_ && _); [intros [= _ _ <-]; by eapply well_published_weaken|].
  destruct (run_tests _ _ _ _ _ _ _ _ _ _) as [[[rep' err'] more]|] eqn:Hmore; [|done].
  intros [= _ _ <-]. apply IH in Hmore; [|by intros x Hx; apply Hin; right].
  rewrite app_comm_cons, app_comm_cons.
  destruct Hclock as (_ & _ & Hc).
  apply well_published_app with (b := in_Started (ti_Attempts (world (S k)) 0)).
  - by eapply well_published_weaken.
  - eapply well_published_weaken; [|exact Hmore]. intros x (i & j & ? & ?). exists i, j.
    split; [lia|done].
  - apply (Hc k _ 0%nat 0%nat); [lia|by left].
  - intros c Hc'. destruct Hone as [_ H2]. destruct (H2 c Hc') as [_ [j Hx]].
    apply (Hc k _ j 0%nat); [lia|by right].
Qed.
End checkpoints.

Lemma sequence_increases p started x y :
  (0 < runCheckpointInterval p)%Z → (started <= x)%Z → (x + runCheckpointInterval p <= y)%Z →
  (checkpointSequence p started x < checkpointSequence p started y)%Z.
Proof.
  intros Hi Hx Hy. unfold checkpointSequence.
  rewrite (proj2 (Z.leb_gt _ _)) by lia. rewrite (proj2 (Z.leb_gt (y - started) 0)) by lia.
  assert (1 <= Z.quot (y - started) (runCheckpointInterval p))%Z
    by (apply Z.quot_le_lower_bound; lia).
  destruct (Z.leb_spec (x - started) 0); [lia|].
  enough (Z.quot (x - started) (runCheckpointInterval p) + 1
            <= Z.quot (y - started) (runCheckpointInterval p))%Z by lia.
  rewrite !Z.quot_div_nonneg by lia. rewrite <-Z.div_add by lia. apply Z.div_le_mono; lia.
Qed.

Lemma sequences_sorted p started a cks :
  (started <= a)%Z → (cks ≠ [] → (0 < runCheckpointInterval p)%Z) →
  spaced (runCheckpointInterval p) a (ck_At <$> cks) →
  (∀ c, c ∈ cks → ck_Sequence c = checkpointSequence p started (ck_At c)) →
  StronglySorted Z.lt (ck_Sequence <$> cks) ∧ ∀ c, c ∈ cks → (1 <= ck_Sequence c)%Z.
Proof.
  revert a. induction cks as [|c cks IH]; intros a Ha Hi Hsp Hseq.
  { split; [constructor|]. by intros c ?%not_elem_of_nil. }
  destruct Hsp as [Hc Hsp]. specialize (Hi ltac:(done)).
  destruct (IH (ck_At c)) as [IH1 IH2]; [lia|done|done|intros d Hd; apply Hseq; by right|].
  assert (∀ x, (a + runCheckpointInterval p <= x)%Z → (1 <= checkpointSequence p started x)%Z) as Hone.
  { intros x Hx. pose proof (sequence_increases p started started x Hi) as H.
    assert (checkpointSequence p started started = 0)%Z as E.
    { unfold checkpointSequence. rewrite Z.sub_diag. by destruct (_ <=? 0)%Z. }
    rewrite E in H. lia. }
  split.
  - cbn. constructor; [done|]. apply Forall_fmap, Forall_forall. intros d Hd. cbn.
    rewrite (Hseq c), (Hseq d) by (by left || by right). apply sequence_increases; [done|lia|].
    eapply spaced_bound; [lia|exact Hsp|]. by apply list_elem_of_fmap_2.
  - intros d [->|Hd]%elem_of_cons; [|by apply IH2]. rewrite (Hseq c) by by left. by apply Hone.
Qed.

(** The checkpoints of a run have strictly increasing sequence numbers from one, over
    all its tests, attempts and cadences, as long as the clock does not run backwards:
    no two of them share the identity they are delivered under.  Each is sampled at a
    write of a runner. *)
Theorem checkpoints_increase statDir r r' p started finished world rep err evs :
  run_clock started world →
  Run statDir r r' p started finished world = Some (rep, err, evs) →
  let cks := checkpoints_of evs in
  StronglySorted Z.lt (ck_Sequence <$> cks) ∧
  (∀ c, c ∈ cks → (1 <= ck_Sequence c)%Z) ∧
  ∀ c, c ∈ cks → ∃ i j, ck_At c ∈ (in_Writes (ti_Attempts (world i) j)).*1.
Proof.
  intros Hclock Hrun cks.
  destruct (run_tests_checkpoints statDir r r' p started finished world 0 (lp_Tests p) []
    rep err evs (reflexivity _) Hclock Hrun) as [Hsp Hck].
  destruct (sequences_sorted p started (in_Started (ti_Attempts (world 0%nat) 0%nat)) cks) as [H1 H2].
  - by destruct Hclock as [H _].
  - intros Hne. destruct cks as [|c l] eqn:E; [done|]. fold cks in Hck. rewrite E in Hck.
    by destruct (Hck c (list_elem_of_here _ _)) as [[_ ?] _].
  - exact Hsp.
  - intros c Hc. by destruct (Hck c Hc) as [[? _] _].
  - split; [done|]. split; [done|]. intros c Hc. destruct (Hck c Hc) as [_ (i & j & _ & Hx)].
    by exists i, j.
Qed.

Definition clock_test (name : str) : Test :=
  MkTest name true
    (MkTestSpec "gpu-burn" "" 0 None (Some 60%Z) None
       (Some (MkRunner "example/runner:1" [] [] [] [] false None [] [] "" [] [] None)) []
       (MkResources ∅ ∅) false) ∅ "".

Definition clock_plan : LocalPlan :=
  MkLocalPlan "node-a" "" "" [clock_test "one"; clock_test "two"] false 0 None.

Definition clock_world (i : nat) : TestInput :=
  MkTestInput None 0 0 (λ k,
    let started := match i, k with
                   | 0, 0 => 0 | 0, _ => 100 | 1, 0 => 200 | _, _ => 300
                   end%nat in
    MkInput None (Z.of_nat started * second)
      (match i, k with
       | 0%nat, 0%nat => [(70 * second, "gflops=1"); (90 * second, "gflops=2")]%Z
       | 1%nat, 0%nat => [(265 * second, "gflops=3")]%Z
       | _, _ => []
       end)
      (λ _, inl (MkExecution 0 "gflops=3" "" false)) 0 0).

Lemma clock_world_runs : run_clock 0 clock_world.
Proof.
  split; [|split].
  - intros [|[|i]] [|k]; cbn; unfold second; lia.
  - intros [|[|i]] [|k] [|l] x Hij [->|Hx]; cbn in *;
      rewrite ?elem_of_cons, ?elem_of_nil in *; unfold second in *; lia.
  - intros [|[|i]] [|[|j]] [|k] [|l] x Hij [->|Hx]; cbn in *;
      rewrite ?elem_of_cons, ?elem_of_nil in *; unfold second in *; lia.
Qed.

Lemma checkpoints_increase_witness :
  run_clock 0 clock_world ∧
  match Run (λ _, None) key_order key_order clock_plan 0 0 clock_world with
  | Some (rep, err, evs) =>
      ck_Sequence <$> checkpoints_of evs = [1; 4]%Z ∧
      StronglySorted Z.lt (ck_Sequence <$> checkpoints_of evs)
  | None => False
  end.
Proof.
  split; [exact clock_world_runs|].
  destruct (Run (λ _, None) key_order key_order clock_plan 0 0 clock_world) as [[[rep err] evs]|] eqn:E;
    [|vm_compute in E; discriminate E].
  split.
  - vm_compute in E. injection E as <- <- <-. vm_compute. reflexivity.
  - apply (checkpoints_increase (λ _, None) key_order key_order clock_plan 0 0 clock_world rep err evs
             clock_world_runs E).
Defined.

(** ** Evidence, never a verdict *)

(** Two worlds that differ in what is published on the way only. *)
Definition same_but_writes (w w' : AttemptInput) : Prop :=
  in_Cancelled w' = in_Cancelled w ∧ in_Started w' = in_Started w ∧ in_Run w' = in_Run w ∧
  in_Finished w' = in_Finished w ∧ in_Settled w' = in_Settled w.

(** What a runner prints while it runs, and whether anyone watches, changes no result. *)
Lemma writes_change_nothing statDir r r' fuel p t runStarted world world' k attempt res g :
  (∀ k, same_but_writes (world k) (world' k)) →
  option_map fst (attempts statDir r r' fuel p t runStarted world' k attempt res g) =
  option_map fst (attempts statDir r r' fuel p t runStarted world k attempt res g).
Proof.
  intros Hw. revert k attempt g. induction fuel as [|fuel IH]; intros k attempt g; [done|].
  cbn [attempts]. unfold runOnce, record_local. destruct (Hw k) as (-> & -> & -> & -> & ->).
  destruct (in_Cancelled (world k)); [done|]. destruct (Translate _ _ _ _ _) as [spec|e]; [|done].
  destruct (judged t _) as [[parsed exec] [[phase message] ev]].
  destruct (decide_local _ _ _ _ _ _) as [g' [final|]]; [done|].
  specialize (IH (S k) (i32 (attempt + 1)) g').
  destruct (attempts _ _ _ _ _ _ _ world' _ _ _ _) as [[[? ?] ?]|],
    (attempts _ _ _ _ _ _ _ world _ _ _ _) as [[[? ?] ?]|]; cbn in *; congruence.
Qed.

(** ** The verdict of a run *)

(** A bare-metal result and the controller's for the same test. *)
Definition same_verdict (res : LocalResult) (or : TestResult) : Prop :=
  tr_Name or = lr_Name res ∧ tr_Phase or = lr_Phase res ∧ tr_Kind or ≠ "".

Lemma saw_required (required : gmap str bool) phase results ors :
  Forall2 same_verdict results ors →
  saw phase (List.filter (λ res, is_set required (lr_Name res)) results) =
  existsb (λ or, bool_decide (tr_Phase or = phase) && is_set required (tr_Name or)) ors.
Proof.
  induction 1 as [|res or results ors (Hn & Hp & _) _ IH]; [done|]. cbn [List.filter existsb].
  rewrite Hn, Hp, <-IH. unfold saw. destruct (is_set required (lr_Name res)); cbn;
    [by rewrite andb_true_r|by rewrite andb_false_r].
Qed.

(** The exit code refines the operator's verdict.  Where the results of a bare-metal run
    and of a run of the operator have the same names and phases, under the same plan: it
    exits 1 exactly where the operator's run is Failed and 3 exactly where it is Error;
    and where the operator's run is Passed it exits 0 when some required test passed and
    2, "nothing was judged", when none did. *)
Theorem exit_code_refines rep (p : LocalPlan) (run : BurnInRun) (op : plan) :
  pl_Tests op = lp_Tests p → Forall2 same_verdict (rp_Results rep) (results run) →
  match final_phase run op with
  | RunFailed => codeFor rep p = exitFail
  | RunError => codeFor rep p = exitError
  | _ => codeFor rep p = (if existsb (λ or, bool_decide (tr_Phase or = RunPassed) &&
                                     is_set (requiredByName op) (tr_Name or)) (results run)
                          then exitPass else exitNothingJudged)
  end.
Proof.
  intros Htests Hsame. unfold codeFor, final_phase, hasRequiredFailure, hasRequiredError.
  assert (requiredNames p = requiredByName op) as ->
    by (unfold requiredNames, requiredByName; by rewrite Htests).
  rewrite !(saw_required (requiredByName op) _ _ _ Hsame).
  assert (existsb (λ res, bool_decide (tr_Phase res = RunError) &&
      ((IsSynthetic res && String.eqb (tr_Name res) SyntheticResultResolve) ||
       is_set (requiredByName op) (tr_Name res))) (results run) =
    existsb (λ or, bool_decide (tr_Phase or = RunError) && is_set (requiredByName op) (tr_Name or))
      (results run)) as ->.
  { clear -Hsame. induction Hsame as [|res or rs ors (_ & _ & Hk) _ IH]; [done|]. cbn [existsb].
    rewrite IH. unfold IsSynthetic. by rewrite (proj2 (String.eqb_neq _ _) Hk). }
  destruct (existsb _ (results run)); [done|]. by destruct (existsb _ (results run)).
Qed.

Definition exit_report : Report :=
  let res := λ name phase, MkLocalResult name "gpu-burn" ScopeNode phase ["node-a"] 0 (Some 0%Z) ∅ ""
                             ∅ noEvidence 1 1 0 [] in
  MkReport "node-a" RunPassed 0 (Some 0%Z) [res "burn" RunPassed] (MkSummary 1 0 0 0).

Lemma exit_code_refines_witness :
  let op := MkPlan 1 ["node-a"] [] false false 1 [refines_test] in
  let run := set_results [set_tr_Phase RunPassed (newResult refines_test ["node-a"])] (named_run "r") in
  pl_Tests op = lp_Tests refines_plan ∧ Forall2 same_verdict (rp_Results exit_report) (results run) ∧
  final_phase run op = RunPassed ∧ codeFor exit_report refines_plan = exitPass.
Proof.
  intros op run. assert (pl_Tests op = lp_Tests refines_plan) as H1 by reflexivity.
  assert (Forall2 same_verdict (rp_Results exit_report) (results run)) as H2.
  { constructor; [|constructor]. split; [reflexivity|]. split; [reflexivity|discriminate]. }
  assert (final_phase run op = RunPassed) as H3 by (vm_compute; reflexivity).
  split; [exact H1|]. split; [exact H2|]. split; [exact H3|].
  pose proof (exit_code_refines exit_report refines_plan run op H1 H2) as C. rewrite H3 in C.
  rewrite C. vm_compute. reflexivity.
Defined.

(** ** Divergences *)

(** A world where the runner of each test does as told. *)
Definition told (l : list (Z * str)) (i : nat) : TestInput :=
  MkTestInput None 0 0 (λ _,
    MkInput None 0 [] (λ _,
      let o := default (0%Z, "") (l !! i) in inl (MkExecution o.1 o.2 "" false)) 0 0).

Definition burn_test (name : str) (required : bool) : Test :=
  MkTest name required
    (MkTestSpec "gpu-burn" "" 0 None None None
       (Some (MkRunner "example/runner:1" [] [] [] [] false None [] [] "" [] [] None)) []
       (MkResources ∅ ∅) false) ∅ "".

(** Under failFast a required test that skips ends the run, so the tests after it never run;
    and the process still exits 0, "every required test passed".  The operator stops at a
    required failure only, and runs them. *)
Lemma skip_ends_fail_fast :
  let p := MkLocalPlan "node-a" "" ""
             [burn_test "one" true; burn_test "two" true; burn_test "three" true] true 0 None in
  match Run (λ _, None) key_order key_order p 0 0
          (told [(0%Z, "gflops=1"); (2%Z, "BURNIN_SKIP=no such part"); (1%Z, "")]) with
  | Some (rep, None, _) =>
      lr_Phase <$> rp_Results rep = [RunPassed; RunSkipped] ∧ codeFor rep p = exitPass
  | _ => False
  end.
Proof. vm_compute. done. Qed.

(** An optional test that fails: the run's own phase is Failed, its exit code 0. *)
Lemma optional_failure_condemns :
  let p := MkLocalPlan "node-a" "" "" [burn_test "one" true; burn_test "two" false] false 0 None in
  match Run (λ _, None) key_order key_order p 0 0 (told [(0%Z, "gflops=1"); (1%Z, "")]) with
  | Some (rep, None, _) => rp_Phase rep = RunFailed ∧ codeFor rep p = exitPass
  | _ => False
  end.
Proof. vm_compute. done. Qed.

(** A run cancelled during a test reports no phase and an empty summary, and says nothing of
    that test. *)
Lemma interrupted_report :
  let p := MkLocalPlan "node-a" "" "" [burn_test "one" true; burn_test "two" true] false 0 None in
  let world := λ i, if (i =? 1)%nat
    then MkTestInput None 0 0 (λ _, MkInput (Some "context canceled") 0 [] (λ _, inr "") 0 0)
    else told [(0%Z, "gflops=1")] i in
  match Run (λ _, None) key_order key_order p 0 0 world with
  | Some (rep, Some _, _) =>
      lr_Name <$> rp_Results rep = ["one"] ∧ rp_Phase rep = RunUnset ∧
      rp_Summary rep = MkSummary 0 0 0 0 ∧ rp_FinishedAt rep = None
  | _ => False
  end.
Proof. vm_compute. done. Qed.
