(* ===== verification/LocalCli.v ===== *)
(** * cmd/burnin: a suite and its flags become a plan; a report becomes a document

    What `burnin run` decides around the dispatcher (Localrun.v): the documents of a suite
    ([load], suite.go), the plan of a profile ([buildPlan]), which end of a rendezvous this
    machine is (pair.go, group.go), and the envelopes it writes and delivers
    (envelope.go).  YAML, the host's files and the network are the caller's: a document is
    an already-decoded [Document], what pkg/hostinfo found is a [HostFacts], and a minted
    identity is an argument. *)

From S2P Require Import Prelude GoStrings GoFloat GoTime GoSha256 Contract Registry Runner Verdict.
From S2P Require Import Group Api Plan Soak Pods RunPlan PlanStore Attempt Effects World Rendezvous.
From S2P Require Import Engine Lifecycle.
From S2P Require Import Envelope PodBuild LocalTranslate Localrun.
From Stdlib Require Import Ascii.
Open Scope stdpp_scope.

(** ** Suites (suite.go) *)

(** A decoded document of a suite file, by its kind. *)
Inductive Document :=
  | DocProfile (name : str) (spec : BurnInProfileSpec)
  | DocTest (name : str) (spec : BurnInTestSpec)
  | DocKindless
  | DocOther (kind : str).

Record suite := MkSuite {
  su_Profiles : gmap str BurnInProfileSpec;
  su_Tests : gmap str BurnInTestSpec;
  su_Order : list str;
}.

Definition empty_suite : suite := MkSuite ∅ ∅ [].

(** The switch of [readAll], for the [i]-th document of a file. *)
Definition add_document (file : str) (i : nat) (d : Document) (s : suite) : suite + str :=
  match d with
  | DocProfile name spec =>
      match su_Profiles s !! name with
      | Some _ => inr (file +:+ ": two profiles named " +:+ quote name)
      | None => inl (MkSuite (<[name := spec]> (su_Profiles s)) (su_Tests s) (su_Order s ++ [name]))
      end
  | DocTest name spec =>
      match su_Tests s !! name with
      | Some _ => inr (file +:+ ": two tests named " +:+ quote name)
      | None => inl (MkSuite (su_Profiles s) (<[name := spec]> (su_Tests s)) (su_Order s))
      end
  | DocKindless => inr (file +:+ ": document " +:+ Itoa (Z.of_nat i + 1) +:+
                        " has no kind — is it a Kubernetes object?")
  | DocOther _ => inl s
  end.

Fixpoint readAll (file : str) (i : nat) (docs : list Document) (s : suite) : suite + str :=
  match docs with
  | [] => inl s
  | d :: docs =>
      match add_document file i d s with
      | inr e => inr e
      | inl s => readAll file (S i) docs s
      end
  end.

Fixpoint read_files (files : list (str * list Document)) (s : suite) : suite + str :=
  match files with
  | [] => inl s
  | (file, docs) :: files =>
      match readAll file 0 docs s with
      | inr e => inr e
      | inl s => read_files files s
      end
  end.

Definition loadSuite (files : list (str * list Document)) : suite + str :=
  match read_files files empty_suite with
  | inr e => inr e
  | inl s =>
      if bool_decide (su_Profiles s = ∅)
      then inr "no BurnInProfile found — a suite needs one to say what runs and in what order"
      else inl s
  end.

Definition profileNames (s : suite) : list str := sort_strings (su_Order s).

Definition suite_profile (s : suite) (name : str) : (str * BurnInProfileSpec) + str :=
  if negb (String.eqb name "") then
    match su_Profiles s !! name with
    | Some p => inl (name, p)
    | None => inr ("no profile " +:+ quote name +:+ " in this suite; found: " +:+
                   Join (profileNames s) ", ")
    end
  else
    let ambiguous := inr ("this suite declares " +:+ Itoa (Z.of_nat (size (su_Profiles s))) +:+
          " profiles; name one with --profile: " +:+ Join (profileNames s) ", ") in
    if (size (su_Profiles s) =? 1)%nat then
      match su_Order s with
      | name :: _ => match su_Profiles s !! name with
                     | Some p => inl (name, p)
                     | None => ambiguous
                     end
      | [] => ambiguous
      end
    else ambiguous.

Definition resolveTest (s : suite) (profile : str) (i : nat) (pt : ProfileTest)
    : (BurnInTestSpec * str) + str :=
  let n := Itoa (Z.of_nat i + 1) in
  match pt_Inline pt with
  | Some spec =>
      if negb (String.eqb (pt_TestRef pt) "")
      then inr ("profile " +:+ profile +:+ " test " +:+ n +:+
                " sets both testRef and inline — they are mutually exclusive")
      else inl (spec, ts_Kind spec +:+ "-" +:+ n)
  | None =>
      if String.eqb (pt_TestRef pt) ""
      then inr ("profile " +:+ profile +:+ " test " +:+ n +:+ " names nothing")
      else match su_Tests s !! pt_TestRef pt with
           | Some spec => inl (spec, pt_TestRef pt)
           | None => inr ("profile " +:+ profile +:+ " references the test " +:+
               quote (pt_TestRef pt) +:+
               ", which is not in this suite — add its BurnInTest document, or pass the file that has it")
           end
  end.

(** *** Warnings *)
Definition clusterOnlyFields (name : str) (spec : BurnInTestSpec) (rz : option LocalTranslate.Rendezvous)
    : list str :=
  (if String.eqb (ts_Scope spec) ScopePair then
     match rz with
     | None => [name +:+ " is Pair-scope and no --role was given: it will run with BURNIN_ROLE unset, which a runner treats as not-applicable and skips — pass --role server here and --role client --peer <ip> on the other machine to actually measure the link"]
     | Some _ => []
     end
   else if String.eqb (ts_Scope spec) ScopeGroup then
     match rz ≫= rz_Rank with
     | None => [name +:+ " is Group-scope and no --rank was given: it will run with BURNIN_RANK unset, which a fabric runner treats as not-applicable and skips — pass --rank i --nranks n on each machine (--root <ip> on every rank but 0), then `burnin merge` the records"]
     | Some _ => []
     end
   else []) ++
  (match ts_Runner spec ≫= rs_ReadinessProbe with
   | Some _ => if String.eqb (ts_Scope spec) ScopePair then []
               else [name +:+ " declares a readinessProbe, which nothing here acts on outside a Pair-scope server"]
   | None => []
   end).

Definition unresolvableEnvWarnings (p : LocalPlan) (name : str) (spec : BurnInTestSpec) : list str :=
  (λ v, name +:+ " declares env " +:+ v +:+
        ", which has no meaning outside a cluster: it will be UNSET rather than empty, so a runner can tell it apart from a variable the cluster set to nothing")
    <$> UnresolvableEnv p spec.

(** *** The plan *)

(** What pkg/hostinfo found: the vendors of the accelerators and the primary address. *)
Record HostFacts := MkHost { ho_Vendors : list str; ho_PrimaryIP : str }.

Definition vendorOf (h : HostFacts) : str :=
  default "" (list_first (λ v, negb (String.eqb v "")) (ho_Vendors h)).

(** The cells of one entry: the names seen, the warnings and the tests so far. *)
Fixpoint add_cells (p : LocalPlan) (profile : str) (cells : list Test)
    (acc : gset str * list str * list Test) : (gset str * list str * list Test) + str :=
  match cells with
  | [] => inl acc
  | cell :: cells =>
      let '(seen, warnings, tests) := acc in
      if bool_decide (te_Name cell ∈ seen)
      then inr ("profile " +:+ profile +:+ " names the test " +:+ quote (te_Name cell) +:+
                " twice — a test name is a result's identity")
      else add_cells p profile cells
             ({[te_Name cell]} ∪ seen,
              warnings ++ clusterOnlyFields (te_Name cell) (te_Spec cell) (lp_Rendezvous p) ++
                unresolvableEnvWarnings p (te_Name cell) (te_Spec cell),
              tests ++ [cell])
  end.

Fixpoint plan_entries (s : suite) (p : LocalPlan) (profile : str) (i : nat) (entries : list ProfileTest)
    (acc : gset str * list str * list Test) : (gset str * list str * list Test) + str :=
  match entries with
  | [] => inl acc
  | pt :: entries =>
      match resolveTest s profile i pt with
      | inr e => inr e
      | inl (spec, name) =>
          match add_cells p profile
                  (ExpandVariants name spec (default true (pt_Required pt)) (pt_Variants pt)) acc with
          | inr e => inr e
          | inl acc => plan_entries s p profile (S i) entries acc
          end
      end
  end.

Definition buildPlan (s : suite) (profileName node : str) (retries : Z)
    (rz : option LocalTranslate.Rendezvous) (h : HostFacts) : (LocalPlan * list str) + str :=
  match suite_profile s profileName with
  | inr e => inr e
  | inl (name, profile) =>
      let p := MkLocalPlan node (vendorOf h) (ho_PrimaryIP h) [] (pr_FailFast profile) retries rz in
      match plan_entries s p name 0 (pr_Tests profile) (∅, [], []) with
      | inr e => inr e
      | inl (_, _, []) => inr ("profile " +:+ name +:+ " lists no tests")
      | inl (_, warnings, tests) =>
          match RefuseUnreachableAxes tests with
          | Some e => inr e
          | None =>
              match RefuseCapabilitiesWithoutRunAsUserZero tests with
              | Some e => inr e
              | None =>
                  inl (MkLocalPlan node (vendorOf h) (ho_PrimaryIP h) tests (pr_FailFast profile)
                         retries rz, warnings)
              end
          end
      end
  end.

(** ** Two machines and many (pair.go, group.go) *)
Record pairFlags := MkPairFlags { pf_role : str; pf_peer : str; pf_peerNode : str }.

Record groupFlags := MkGroupFlags {
  gf_rank : Z; gf_nranks : Z; gf_root : str; gf_rankSet : bool;
}.

Definition pair_rendezvous (f : pairFlags) : option LocalTranslate.Rendezvous + str :=
  let rz := MkRendezvous (pf_role f) (pf_peer f) (pf_peerNode f) None 0 "" "" in
  if String.eqb (pf_role f) "" then
    if negb (String.eqb (pf_peer f) "") || negb (String.eqb (pf_peerNode f) "")
    then inr "--peer needs --role: which end of the link is this machine?"
    else inl None
  else if String.eqb (pf_role f) RoleServer then
    if negb (String.eqb (pf_peer f) "")
    then inr "--role server takes no --peer: the server learns the client's address when the client connects"
    else inl (Some rz)
  else if String.eqb (pf_role f) RoleClient then
    if String.eqb (pf_peer f) ""
    then inr "--role client needs --peer <ip|host>: the address of the server end"
    else inl (Some rz)
  else inr ("--role is " +:+ quote (pf_role f) +:+ "; it is " +:+ RoleServer +:+ " or " +:+ RoleClient).

Definition group_rendezvous (f : groupFlags) (node : str) : option LocalTranslate.Rendezvous + str :=
  if negb (gf_rankSet f) && (gf_nranks f =? 0)%Z && String.eqb (gf_root f) "" then inl None
  else if negb (gf_rankSet f) then inr "--nranks needs --rank: which rank is this machine?"
  else if (gf_nranks f <? 2)%Z then
    inr ("--nranks is " +:+ Itoa (gf_nranks f) +:+
         "; a collective needs at least 2 ranks, and a group of one measures no interconnect at all")
  else if (gf_rank f <? 0)%Z || (gf_nranks f <=? gf_rank f)%Z then
    inr ("--rank " +:+ Itoa (gf_rank f) +:+ " is not a rank of " +:+ Itoa (gf_nranks f) +:+
         ": ranks are 0.." +:+ Itoa (gf_nranks f - 1))
  else if negb (gf_rank f =? RootRank)%Z && String.eqb (gf_root f) "" then
    inr ("--rank " +:+ Itoa (gf_rank f) +:+ " needs --root <ip|host>: the address rank " +:+
         Itoa RootRank +:+ " serves the rendezvous on")
  else inl (Some (MkRendezvous "" "" "" (Some (i32 (gf_rank f))) (i32 (gf_nranks f)) (gf_root f) node)).

Definition isGroup (f : groupFlags) : bool := gf_rankSet f.

(** [runFlags.rendezvous] *)
Definition run_rendezvous (pair : pairFlags) (group : groupFlags) (node : str)
    : option LocalTranslate.Rendezvous + str :=
  if isGroup group && negb (String.eqb (pf_role pair) "") then
    inr ("--rank and --role together: a machine is one end of a LINK or one rank of a COLLECTIVE, never both. Pair scope sets BURNIN_ROLE and Group scope deliberately does not, so a runner handed both would read rank " +:+
         Itoa (gf_rank group) +:+ " as a client")
  else if isGroup group then group_rendezvous group node
  else pair_rendezvous pair.

Definition groupDeciding (_ : LocalTranslate.Rendezvous) : bool := false.

(** Whether this end produces the verdict. *)
Definition deciding (rz : option LocalTranslate.Rendezvous) : bool :=
  match rz with
  | None => true
  | Some r => match rz_Rank r with
              | Some _ => groupDeciding r
              | None => String.eqb (rz_Role r) RoleClient
              end
  end.

Definition pairScoped (p : LocalPlan) : bool :=
  existsb (λ t, fabric_scope (ts_Scope (te_Spec t))) (lp_Tests p).

Definition rankRecordName (rank : Z) : str :=
  "rank-" +:+ (if (0 <=? rank)%Z && (rank <? 10)%Z then "0" else "") +:+ Itoa rank +:+ ".json".

(** What a run leaves in its results directory besides run.json. *)
Inductive Record_kind := RankRecord (rank : Z) | ServerRecord | VerdictEnvelope.

Definition record_kind (rz : option LocalTranslate.Rendezvous) : Record_kind :=
  match rz ≫= rz_Rank with
  | Some rank => RankRecord rank
  | None => if deciding rz then VerdictEnvelope else ServerRecord
  end.

(** ** Documents (envelope.go) *)

(** [RunIdentity]: the minted uid and the fingerprint taken once. *)
Record RunIdentity := MkIdentity { id_UID : str; id_Node : str; id_Fingerprint : gmap str str }.

Definition run_ref (id : RunIdentity) : RunRef := MkRunRef "local" (id_Node id) (id_UID id) "".

(** [mintUID] over the bytes the random source gives. *)
Definition mintUID (random : list Z) : str := hex_encode random.

Definition NewRunIdentityFor (node : str) (fp : gmap str str) (random : list Z) : RunIdentity :=
  MkIdentity (mintUID random) node fp.

Section documents.
Context `{Binary}.

Definition cliProducer : Producer := ProducerFromBuild buildInfo "burnin" version commit.

Definition toContractResult (r : LocalResult) : ResultDoc :=
  let ev := lr_Evidence r in
  MkResultDoc (lr_Name r) (lr_Kind r) (lr_Scope r) (PhaseKey (lr_Phase r)) (lr_Nodes r)
    (if (lr_StartedAt r =? zero_time)%Z then None else Some (lr_StartedAt r)) (lr_FinishedAt r) (lr_Metrics r) (lr_Message r)
    ((λ v, MkViolationDoc (vr_Index v) (vr_Metric v) (vr_Cause v) (vr_Kind v) (vr_Reason v))
       <$> ae_violations ev)
    ((λ n, MkNotEvaluatedDoc (nr_Metric n) (nr_Reason n)) <$> ae_notEvaluated ev)
    ((λ a, MkAppliedDoc (gr_Index a) (gr_Metric a) (gr_Comparison a) (gr_Value a)) <$> ae_applied ev)
    (ae_unmeasurable ev) [] (lr_VariantAxes r) None.

Definition contract_error (what : str) (e : option ValidationError) (env : Envelope)
    : Envelope + str :=
  match e with
  | None => inl env
  | Some e => inr ("built " +:+ what +:+ " the contract rejects: " +:+ ValidationError_string e)
  end.

(** [RunIdentity.Checkpoint], sent at [now]. *)
Definition CheckpointDoc (r : RangeOrder) (id : RunIdentity) (c : Checkpoint) (kind : str)
    (scope : TestScope) (nodes : list str) (now : Z) : Envelope + str :=
  let env := MkEnvelope Version false
    (NewDeliveryID (id_UID id) ReasonCheckpoint (Itoa (ck_Sequence c))) ReasonCheckpoint now
    (run_ref id) (Some cliProducer) None (PhaseKey RunRunning) "" (ck_Sequence c)
    (id_Fingerprint id)
    [MkResultDoc (ck_Test c) kind scope (PhaseKey RunRunning) nodes (Some (ck_At c)) None
       (ck_Metrics c) "" [] [] [] [] [] ∅ None]
    (Envelope.MkSummary 0 0 0 0) None in
  contract_error "a checkpoint envelope" (Validate (H:=r) env) env.

(** [RunIdentity.Final] *)
Definition Final (r : RangeOrder) (id : RunIdentity) (rep : Report) (now : Z) : Envelope + str :=
  let s := rp_Summary rep in
  let env := MkEnvelope Version false
    (NewDeliveryID (id_UID id) ReasonPhaseChanged (PhaseKey (rp_Phase rep))) ReasonPhaseChanged now
    (run_ref id) (Some cliProducer) None (PhaseKey (rp_Phase rep)) "" 0
    (id_Fingerprint id) (toContractResult <$> rp_Results rep)
    (Envelope.MkSummary (Localrun.su_Passed s) (Localrun.su_Failed s) (Localrun.su_Errored s)
       (Localrun.su_Skipped s)) None in
  contract_error "an envelope" (Validate (H:=r) env) env.

(** The two documents of a verdict: the delivered one, of the identity the run minted before
    anything executed, and the written one, which [EnvelopeFor] mints its own for. *)
Definition delivered_document (r : RangeOrder) (id : RunIdentity) (rep : Report) (now : Z) :=
  Final r id rep now.

Definition EnvelopeFor (r : RangeOrder) (rep : Report) (fp : gmap str str) (random : list Z) (now : Z)
    : Envelope + str :=
  Final r (NewRunIdentityFor (rp_Node rep) fp random) rep now.
End documents.

(** ** Every document of a run is one its contract accepts *)

Definition valid_event (e : Event) : Prop :=
  match e with EvCheckpoint c => valid_names (ck_Metrics c) | _ => True end.

Lemma valid_checkpoints p t attempt runStarted last writes :
  Forall (λ c, valid_names (ck_Metrics c)) (checkpoints p t attempt runStarted last writes).
Proof.
  revert last. induction writes as [|[at' stdout] writes IH]; intros last; cbn [checkpoints]; [done|].
  cbv zeta. destruct (_ <? _)%Z; [done|]. destruct (bool_decide _); [done|].
  constructor; [apply valid_Parse|done].
Qed.

Lemma valid_runOnce p t attempt runStarted spec w :
  Forall valid_event (EvCheckpoint <$> (runOnce p t attempt runStarted spec w).2).
Proof.
  apply Forall_fmap. unfold runOnce. cbn [snd]. destruct (_ <=? 0)%Z; [done|]. apply valid_checkpoints.
Qed.

Lemma valid_judged t ran : valid_names (r_Metrics (judged t ran).1.1).
Proof. unfold judged. destruct (outcome t _) as [[? ?] ?]. apply valid_Parse. Qed.

Lemma decide_local_metrics required limit attempt phase message g :
  pg_Metrics (decide_local required limit attempt phase message g).1 = pg_Metrics g.
Proof. unfold decide_local. destruct phase; try done; by destruct (_ <? _)%Z || destruct (_ <=? _)%Z. Qed.

Section valid.
Context (statDir : str → option (list (str * option bool))) (r r' : RangeOrder).

Lemma valid_attempts fuel p t runStarted world k attempt res g out err evs :
  valid_names (pg_Metrics g) →
  attempts statDir r r' fuel p t runStarted world k attempt res g = Some (out, err, evs) →
  valid_names (lr_Metrics out) ∧ Forall valid_event evs.
Proof.
  revert k attempt g out err evs.
  induction fuel as [|fuel IH]; intros k attempt g out err evs Hg; [done|]. cbn [attempts].
  destruct (in_Cancelled (world k)); [by intros [= <- _ <-]|].
  destruct (Translate statDir r r' p t) as [spec|]; [|by intros [= <- _ <-]].
  pose proof (valid_runOnce p t attempt runStarted (with_attempt attempt spec) (world k)) as Hcks.
  destruct (runOnce _ _ _ _ _ _) as [ran cks]. cbn [snd] in Hcks.
  pose proof (valid_judged t ran) as Hp.
  destruct (judged t ran) as [[parsed exec] [[phase message] ev]]. cbn [fst] in Hp.
  assert (Forall valid_event ((EvCheckpoint <$> cks) ++ [EvAttempt (te_Name t) attempt parsed])) as Hevs
    by (apply Forall_app; split; [done|by repeat constructor]).
  set (g1 := record_local _ _ _ _ _ _ g).
  assert (valid_names (pg_Metrics g1)) as Hg1 by (unfold g1; cbn; by destruct (bool_decide _)).
  pose proof (decide_local_metrics (lr_RepeatsRequired res) (lp_RetryOnErrorLimit p) attempt phase
    message g1) as Hm.
  destruct (decide_local _ _ _ _ _ g1) as [g' [final|]]; [by intros [= <- _ <-]|].
  cbn [fst] in Hm. rewrite <-Hm in Hg1.
  destruct (attempts _ _ _ _ _ _ _ _ _ _ _ _) as [[[out' err'] more]|] eqn:Hmore; [|done].
  intros [= <- _ <-]. destruct (IH _ _ _ _ _ _ Hg1 Hmore) as [H1 H2]. split; [done|].
  by apply Forall_app.
Qed.

Lemma valid_run_tests p started finished world k tests results rep err evs :
  Forall (λ res, valid_names (lr_Metrics res)) results →
  run_tests statDir r r' p started finished world k tests results = Some (rep, err, evs) →
  Forall (λ res, valid_names (lr_Metrics res)) (rp_Results rep) ∧ Forall valid_event evs.
Proof.
  revert k results rep err evs.
  induction tests as [|t tests IH]; intros k results rep err evs Hres; cbn [run_tests];
    [by intros [= <- _ <-]|].
  destruct (ti_Cancelled (world k)); [by intros [= <- _ <-]|].
  destruct (runTest _ _ _ _ _ _ _ _) as [[[res [e|]] tevs]|] eqn:Ht; [| |done];
    apply valid_attempts in Ht as [Hm Hev]; try apply valid_empty.
  { intros [= <- _ <-]. split; [done|]. by constructor. }
  assert (Forall valid_event (EvTestStart (te_Name t) :: tevs ++ [EvTestComplete res])) as Hevs
    by (constructor; [done|apply Forall_app; split; [done|by repeat constructor]]).
  assert (Forall (λ res, valid_names (lr_Metrics res)) (results ++ [res])) as Hres'
    by (apply Forall_app; split; [done|by constructor]).
  cbv zeta. destruct (_ && _); [by intros [= <- _ <-]|].
  destruct (run_tests _ _ _ _ _ _ _ _ _ _) as [[[rep' err'] more]|] eqn:Hmore; [|done].
  intros [= <- _ <-]. destruct (IH _ _ _ _ _ Hres' Hmore) as [H1 H2]. split; [done|].
  rewrite app_comm_cons, app_comm_cons. by apply Forall_app.
Qed.
End valid.

(** What a document of this shape needs to pass. *)
Lemma Validate_local r uid reason key run' producer phase seq fp docs summary now :
  rf_UID run' = uid → uid ≠ "" → reason ≠ "" → now ≠ zero_time →
  Forall (λ d, valid_names (rd_Metrics d)) docs →
  Validate (H:=r) (MkEnvelope Version false (NewDeliveryID uid reason key) reason now run' producer None
    phase "" seq fp docs summary None) = None.
Proof.
  intros Huid Hu Hr Hnow Hdocs. pose proof (NewDeliveryID_ne uid reason key) as Hid.
  apply String.eqb_neq in Hid. unfold Validate.
  cbn [e_Version e_DeliveryID e_Reason e_Run e_SentAt e_Progress e_Results].
  change (String.eqb Version "") with false. change (negb (String.eqb Version Version)) with false.
  rewrite Hid, (proj2 (String.eqb_neq reason "") Hr), Huid, (proj2 (String.eqb_neq uid "") Hu),
    (proj2 (Z.eqb_neq now zero_time) Hnow). by apply invalid_metrics_None.
Qed.

(** C31: Every document of a bare-metal run is one the contract accepts, whatever the runners
    print and however the run ends: under any identity that has a uid, at any time but the
    zero time, each checkpoint the run published and the report it ended with become an
    envelope of that uid, never a refusal.  A checkpoint's document judges nothing, and the
    report's carries the run's phase and every result's name and phase in order. *)
Theorem local_run_delivers `{Binary} statDir (r r' r2 : RangeOrder) p started finished world rep err
    evs id now kind scope nodes :
  Run statDir r r' p started finished world = Some (rep, err, evs) →
  id_UID id ≠ "" → now ≠ zero_time →
  (∃ env, Final r2 id rep now = inl env ∧ rf_UID (e_Run env) = id_UID id ∧
     e_Phase env = PhaseKey (rp_Phase rep) ∧ rd_Name <$> e_Results env = lr_Name <$> rp_Results rep ∧
     rd_Phase <$> e_Results env = (λ res, PhaseKey (lr_Phase res)) <$> rp_Results rep) ∧
  ∀ c, c ∈ checkpoints_of evs →
    ∃ env, CheckpointDoc r2 id c kind scope nodes now = inl env ∧ rf_UID (e_Run env) = id_UID id ∧
      e_Phase env = "Running" ∧ e_CheckpointSequence env = ck_Sequence c ∧
      ∀ d, d ∈ e_Results env → rd_Phase d = "Running" ∧ rd_Violations d = [] ∧ rd_Applied d = [].
Proof.
  intros Hrun Hu Hnow.
  apply valid_run_tests in Hrun as [Hres Hevs]; [|constructor]. split.
  - unfold Final, contract_error. cbv zeta. rewrite Validate_local; [|done..|].
    + eexists. split; [reflexivity|]. cbn. rewrite <-!list_fmap_compose. done.
    + apply Forall_fmap. eapply Forall_impl; [exact Hres|]. done.
  - intros c Hc. apply list_elem_of_omap in Hc as (e & He & Hec).
    rewrite Forall_forall in Hevs. specialize (Hevs e He).
    destruct e as [| |c'|]; try discriminate Hec. injection Hec as ->.
    unfold CheckpointDoc, contract_error. cbv zeta. rewrite Validate_local; [|done..|].
    + eexists. split; [reflexivity|]. split; [done|]. split; [done|]. split; [done|].
      cbn. by intros d ->%list_elem_of_singleton.
    + by constructor.
Qed.

Lemma local_run_delivers_witness :
  let id := NewRunIdentityFor "node-a" ∅ [1; 2; 3]%Z in
  match Run (λ _, None) key_order key_order clock_plan 0 0 clock_world with
  | Some (rep, err, evs) =>
      length (checkpoints_of evs) = 2%nat ∧
      (∃ env, Final (H:=example_binary) key_order id rep 7 = inl env) ∧
      ∀ c, c ∈ checkpoints_of evs →
        ∃ env, CheckpointDoc (H:=example_binary) key_order id c "gpu-burn" ScopeNode ["node-a"] 7 = inl env
  | None => False
  end.
Proof.
  intros id.
  destruct (Run (λ _, None) key_order key_order clock_plan 0 0 clock_world) as [[[rep err] evs]|] eqn:E;
    [|vm_compute in E; discriminate E].
  destruct (local_run_delivers (H:=example_binary) (λ _, None) key_order key_order key_order clock_plan 0 0
    clock_world rep err evs id 7 "gpu-burn" ScopeNode ["node-a"] E) as [(env & Hf & _) Hc];
    [discriminate|vm_compute; discriminate|].
  split; [vm_compute in E; injection E as <- <- <-; reflexivity|].
  split; [exists env; exact Hf|]. intros c Hin. destruct (Hc c Hin) as (env' & Hd & _). exists env'. exact Hd.
Defined.

(** ** Divergences *)

(** One inline entry has one name here and another in a cluster. *)
Lemma inline_names_differ s profile i pt spec :
  pt_Inline pt = Some spec → pt_TestRef pt = "" →
  resolveTest s profile i pt = inl (spec, ts_Kind spec +:+ "-" +:+ Itoa (Z.of_nat i + 1)) ∧
  Lifecycle.resolve_test (inl []) (i, pt) =
    mret (inl (ExpandVariants ("inline-" +:+ Itoa (Z.of_nat i) +:+ "-" +:+ ts_Kind spec) spec
                 (default true (pt_Required pt)) (pt_Variants pt))).
Proof.
  intros Hi Hr. unfold resolveTest, Lifecycle.resolve_test. rewrite Hi, Hr. done.
Qed.

(** Every rank is told that the root node is itself. *)
Lemma root_node_is_own f node rz :
  group_rendezvous f node = inl (Some rz) → rz_RootNode rz = node.
Proof.
  unfold group_rendezvous. destruct (_ && _ && _); [done|].
  destruct (negb _); [done|]. destruct (_ <? 2)%Z; [done|]. destruct (_ || _); [done|].
  destruct (_ && _); [done|]. by intros [= <-].
Qed.

(** The document written to the results directory and the one delivered are of two runs. *)
Lemma written_under_another_identity `{Binary} r id rep fp random now sent written :
  Final r id rep now = inl sent → EnvelopeFor r rep fp random now = inl written →
  rf_UID (e_Run sent) = id_UID id ∧ rf_UID (e_Run written) = mintUID random.
Proof.
  unfold EnvelopeFor, Final, contract_error. cbv zeta.
  destruct (Validate _); [done|]. destruct (Validate _); [done|]. by intros [= <-] [= <-].
Qed.

(** ** Refusals and the plan *)

(** A machine is one end of a link or one rank of a collective, never both, and only one
    end of a link decides. *)
Lemma rendezvous_roles pair group node rz :
  run_rendezvous pair group node = inl (Some rz) →
  (rz_Rank rz = None ∧ (rz_Role rz = RoleServer ∧ rz_PeerHost rz = "" ∧ deciding (Some rz) = false ∨
                        rz_Role rz = RoleClient ∧ rz_PeerHost rz ≠ "" ∧ deciding (Some rz) = true)) ∨
  (rz_Role rz = "" ∧ (2 <= gf_nranks group)%Z ∧ (0 <= gf_rank group < gf_nranks group)%Z ∧
   rz_Rank rz = Some (i32 (gf_rank group)) ∧ (gf_rank group ≠ RootRank → rz_RootHost rz ≠ "") ∧
   deciding (Some rz) = false).
Proof.
  unfold run_rendezvous, isGroup. destruct (gf_rankSet group) eqn:Hset; cbn [andb].
  - destruct (negb _); [done|]. unfold group_rendezvous. rewrite Hset. cbn.
    destruct (Z.ltb_spec (gf_nranks group) 2); [done|].
    destruct (Z.ltb_spec (gf_rank group) 0), (Z.leb_spec (gf_nranks group) (gf_rank group)); try done; cbn.
    destruct (Z.eqb_spec (gf_rank group) RootRank), (String.eqb_spec (gf_root group) ""); cbn; try done;
      intros [= <-]; right; cbn; split_and!; done || lia.
  - unfold pair_rendezvous.
    destruct (String.eqb_spec (pf_role pair) ""); [destruct (_ || _); done|].
    destruct (String.eqb_spec (pf_role pair) RoleServer) as [E|].
    + destruct (String.eqb_spec (pf_peer pair) ""); cbn; [|done]. intros [= <-]. left. cbn. rewrite E. auto.
    + destruct (String.eqb_spec (pf_role pair) RoleClient) as [E|]; [|done].
      destruct (String.eqb_spec (pf_peer pair) ""); cbn; [done|]. intros [= <-]. left. cbn. rewrite E. auto.
Qed.

(** ** One plan on both dispatchers *)

(** The cells of entries that name their tests, or [None] when one is not there. *)
Fixpoint entry_cells (tests : gmap str BurnInTestSpec) (entries : list ProfileTest) : option (list Test) :=
  match entries with
  | [] => Some []
  | pt :: entries =>
      match tests !! pt_TestRef pt, entry_cells tests entries with
      | Some spec, Some cells =>
          Some (ExpandVariants (pt_TestRef pt) spec (default true (pt_Required pt)) (pt_Variants pt) ++ cells)
      | _, _ => None
      end
  end.

Definition by_reference (pt : ProfileTest) : Prop := pt_Inline pt = None ∧ pt_TestRef pt ≠ "".

Lemma read_test tests ref s a s' :
  w_tests (s_world s) = tests → try (read ref (λ w, w_tests w !! ref)) s = (inl a, s') →
  w_tests (s_world s') = tests ∧ ∀ spec, a = inl spec → tests !! ref = Some spec.
Proof.
  intros <-. unfold try, read, call.
  destruct (head (w_faults (s_world s))) as [[|b|b]|]; cbn;
    try (destruct (w_tests (s_world s) !! ref) as [spec|]); intros [= <- <-];
    (split; [reflexivity|]); by intros ? [= ->].
Qed.

Lemma resolved_error es e s : fst (fold resolve_test (inr e) es s) = inl (inr e).
Proof.
  revert s. induction es as [|[i pt] es IH]; intros s; [done|]. cbn [fold resolve_test].
  unfold mbind, M_bind. cbn. by destruct (pt_Inline pt); cbn; apply IH.
Qed.

(** What the operator resolves, call by call, when no call fails. *)
Lemma resolved_cells tests es acc out s s' :
  w_tests (s_world s) = tests → Forall (λ e : nat * ProfileTest, by_reference e.2) es →
  fold resolve_test (inl acc) es s = (inl (inl out), s') →
  ∃ cells, entry_cells tests es.*2 = Some cells ∧ out = acc ++ cells.
Proof.
  intros Ht Hes. revert acc s Ht. induction Hes as [|[i pt] es [Hin Href] _ IH]; intros acc s Ht.
  { intros [= <- _]. exists []. by rewrite app_nil_r. }
  cbn [fold resolve_test fmap list_fmap entry_cells snd] in *. rewrite Hin.
  rewrite (proj2 (String.eqb_neq _ _) Href). cbn [negb].
  unfold mbind, M_bind.
  destruct (try (read (pt_TestRef pt) (λ w, w_tests w !! pt_TestRef pt)) s) as [[a|e] s1] eqn:E; [|done].
  destruct (read_test _ _ _ _ _ Ht E) as [Ht1 Hspec]. destruct a as [spec|e]; cbn.
  - rewrite (Hspec spec eq_refl). intros H. destruct (IH _ _ Ht1 H) as (cells & -> & ->).
    eexists. split; [done|]. by rewrite app_assoc.
  - intros H. pose proof (resolved_error es (wrap ("testRef " +:+ quote (pt_TestRef pt) +:+ ": ") e) s1) as He.
    rewrite H in He. done.
Qed.

Lemma add_cells_distinct p profile cells seen warnings tests :
  NoDup (te_Name <$> cells) → (∀ n, n ∈ te_Name <$> cells → n ∉ seen) →
  ∃ w, add_cells p profile cells (seen, warnings, tests) =
         inl (list_to_set (te_Name <$> cells) ∪ seen, w, tests ++ cells).
Proof.
  revert seen warnings tests. induction cells as [|c cells IH]; intros seen warnings tests Hnd Hs.
  { exists warnings. cbn [add_cells fmap list_fmap list_to_set]. by rewrite app_nil_r, (left_id_L ∅ (∪)). }
  cbn [fmap list_fmap] in Hnd. apply NoDup_cons in Hnd as [Hn Hnd]. cbn [add_cells].
  rewrite bool_decide_eq_false_2 by (apply Hs; by left).
  edestruct IH as [w Hw]; [exact Hnd| |exists w; rewrite Hw].
  { intros n Hin. rewrite elem_of_union, elem_of_singleton. intros [->|Hseen]; [done|].
    apply (Hs n); [by right|done]. }
  cbn [fmap list_fmap list_to_set]. f_equal. f_equal; [f_equal; set_solver|by rewrite <-app_assoc].
Qed.

Lemma plan_entries_cells su p profile entries cells i seen warnings tests :
  Forall by_reference entries → entry_cells (su_Tests su) entries = Some cells →
  NoDup (te_Name <$> cells) → (∀ n, n ∈ te_Name <$> cells → n ∉ seen) →
  ∃ seen' w, plan_entries su p profile i entries (seen, warnings, tests) = inl (seen', w, tests ++ cells).
Proof.
  intros Hes. revert i seen warnings tests cells.
  induction Hes as [|pt entries [Hin Href] _ IH]; intros i seen warnings tests cells.
  { intros [= <-] _ _. exists seen, warnings. by rewrite app_nil_r. }
  cbn [entry_cells plan_entries]. unfold resolveTest. rewrite Hin.
  rewrite (proj2 (String.eqb_neq _ _) Href).
  destruct (su_Tests su !! pt_TestRef pt) as [spec|]; [|done].
  destruct (entry_cells (su_Tests su) entries) as [rest|]; [|done]. intros [= <-].
  rewrite fmap_app. intros (Hnd1 & Hdis & Hnd2)%NoDup_app Hs.
  destruct (add_cells_distinct p profile
    (ExpandVariants (pt_TestRef pt) spec (default true (pt_Required pt)) (pt_Variants pt))
    seen warnings tests Hnd1) as [w ->].
  { intros n Hn. apply Hs. set_solver. }
  edestruct IH as (seen' & w' & ->); [done|exact Hnd2| |].
  { intros n Hn. rewrite elem_of_union, elem_of_list_to_set. intros [Hn'|Hn'].
    - by apply (Hdis n).
    - apply (Hs n); [set_solver|done]. }
  exists seen', w'. by rewrite <-app_assoc.
Qed.

(** C20: One profile is the same executions on both dispatchers, when every entry of it names
    its test.  Where the operator resolves the entries against the tests the suite holds,
    to at least one execution, and accepts them, whatever its targets: the plan `burnin
    run` builds from that suite is accepted too, with the same cells in the same order,
    each with the operator's name, spec and axes, and the same tests required. *)
Theorem same_plan su pn name profile node retries rz h s s' tests targets nodeCap baseline pl :
  suite_profile su pn = inl (name, profile) → w_tests (s_world s) = su_Tests su →
  Forall by_reference (pr_Tests profile) →
  fold resolve_test (inl []) (imap pair (pr_Tests profile)) s = (inl (inl tests), s') →
  RunPlan.buildPlan profile tests targets nodeCap baseline = inl pl → tests ≠ [] →
  ∃ p warnings, buildPlan su pn node retries rz h = inl (p, warnings) ∧
    lp_Tests p = pl_Tests pl ∧ lp_FailFast p = pl_FailFast pl ∧
    requiredNames p = requiredByName pl.
Proof.
  intros Hprof Htests Hrefs Hres (-> & Hrefuse & Hnd & _)%buildPlan_inl Hne.
  assert ((imap pair (pr_Tests profile)).*2 = pr_Tests profile) as Hsnd.
  { rewrite fmap_imap. transitivity (id <$> pr_Tests profile); [|apply list_fmap_id].
    rewrite <-imap_const. by apply imap_ext. }
  apply (resolved_cells (su_Tests su)) in Hres as (cells & Hcells & ->); [|done|].
  2: { apply (proj1 (Forall_fmap snd by_reference (imap pair (pr_Tests profile)))). by rewrite Hsnd. }
  rewrite Hsnd in Hcells. cbn [app] in *.
  apply refusals_None in Hrefuse as (_ & Hcap & _ & _ & Haxes).
  unfold buildPlan. rewrite Hprof.
  set (p0 := MkLocalPlan node (vendorOf h) (ho_PrimaryIP h) [] (pr_FailFast profile) retries rz).
  destruct (plan_entries_cells su p0 name (pr_Tests profile) cells 0 ∅ [] [] Hrefs Hcells Hnd)
    as (seen & w & ->); [set_solver|]. cbn [app].
  destruct cells as [|c cells]; [done|]. rewrite Haxes, Hcap.
  eexists _, w. split; [done|]. done.
Qed.

Definition twin_spec : BurnInTestSpec :=
  MkTestSpec "gpu-burn" "" 0 None None None None [] (MkResources ∅ ∅) false.

Definition twin_profile : BurnInProfileSpec :=
  MkProfile [MkProfileTest "burn" None None
               [MkVariant "fp8" {[ "precision" := "fp8" ]} None None None None None;
                MkVariant "fp4" {[ "precision" := "fp4" ]} None None None None None];
             MkProfileTest "smoke" None (Some false) []] true [].

Definition twin_suite : suite :=
  MkSuite {[ "acceptance" := twin_profile ]} (<["burn" := twin_spec]> {[ "smoke" := twin_spec ]})
    ["acceptance"].

Definition twin_state : st :=
  MkSt (named_run "r") ∅
    (MkWorld 0 None [] ∅ (<["burn" := twin_spec]> {[ "smoke" := twin_spec ]}) ∅ ∅ ∅ ∅ ∅ ∅ ∅ ∅ ∅
       [] [] (λ _ _, "") []).

Lemma same_plan_witness :
  match fold resolve_test (inl []) (imap pair (pr_Tests twin_profile)) twin_state with
  | (inl (inl tests), _) =>
      te_Name <$> tests = ["burn-fp8"; "burn-fp4"; "smoke"] ∧
      ∃ p warnings, buildPlan twin_suite "" "node-a" 0 None (MkHost [] "") = inl (p, warnings) ∧
        te_Name <$> lp_Tests p = te_Name <$> tests
  | _ => False
  end.
Proof.
  destruct (fold resolve_test (inl []) (imap pair (pr_Tests twin_profile)) twin_state) as [[[tests|e]|e] s'] eqn:E;
    [|vm_compute in E; discriminate E|vm_compute in E; discriminate E].
  destruct (RunPlan.buildPlan twin_profile tests ["node-a"] 64 false) as [pl|e] eqn:Hpl.
  2: { vm_compute in E. injection E as <- _. vm_compute in Hpl. discriminate Hpl. }
  assert (pl_Tests pl = tests) as Hsame.
  { vm_compute in E. injection E as <- _. vm_compute in Hpl. injection Hpl as <-. reflexivity. }
  assert (te_Name <$> tests = ["burn-fp8"; "burn-fp4"; "smoke"]) as Hnames
    by (vm_compute in E; injection E as <- _; reflexivity).
  split; [exact Hnames|].
  destruct (same_plan twin_suite "" "acceptance" twin_profile "node-a" 0 None (MkHost [] "") twin_state s'
    tests ["node-a"] 64 false pl) as (p & w & Hp & Ht & _).
  - vm_compute. reflexivity.
  - reflexivity.
  - repeat constructor; discriminate.
  - exact E.
  - exact Hpl.
  - intros ->. discriminate Hnames.
  - exists p, w. split; [exact Hp|]. rewrite Ht, Hsame. reflexivity.
Defined.
