(* ===== verification/Merge.v ===== *)
(** * cmd/burnin/merge.go: the verdict of a collective run on bare metal

    Each rank of a collective writes a [rankRecord]; [mergeRanks] refuses a partial turnout
    and folds the records, test by test, with pkg/group (Group.v).  The files are the
    caller's: [load] takes them already decoded, in the order they are read. *)

From S2P Require Import Prelude GoStrings GoFloat GoTime Contract Registry Runner Verdict Group Api Plan.
From S2P Require Import Soak Pods RunPlan Attempt History PodBuild LocalTranslate Localrun.
Open Scope stdpp_scope.

Record rankRecord := MkRankRecord {
  rc_Rank : Z;
  rc_NRanks : Z;
  rc_Node : str;
  rc_Phase : str;
  rc_StartedAt : Z;
  rc_FinishedAt : option Z;
  rc_Results : list LocalResult;
  rc_Fingerprint : gmap str str;
  rc_Required : gmap str bool;
}.

(** The zero [time.Time], year 1. *)
Definition zero_clock : Z := (-62135596800 * second)%Z.

(** ** Reading the records *)
Definition show_ints (l : list Z) : str := "[" +:+ Join (Itoa <$> l) " " +:+ "]".

Definition rank_le (a b : rankRecord) : Prop := (rc_Rank a <= rc_Rank b)%Z.

Global Instance rank_le_dec : RelDecision rank_le := λ a b, Z.le_dec _ _.

(** The loop of [loadRankRecords] over the files that were read, with their paths. *)
Fixpoint read_records (byRank : gmap Z str) (files : list (str * rankRecord)) : list rankRecord + str :=
  match files with
  | [] => inl []
  | (path, rec) :: files =>
      match byRank !! rc_Rank rec with
      | Some prev =>
          inr ("rank " +:+ Itoa (rc_Rank rec) +:+ " appears twice: " +:+ prev +:+ " and " +:+ path +:+
               ". Two machines that both believed they were rank " +:+ Itoa (rc_Rank rec) +:+
               " did not run the collective this merge would describe")
      | None =>
          match read_records (<[rc_Rank rec := path]> byRank) files with
          | inl recs => inl (rec :: recs)
          | inr e => inr e
          end
      end
  end.

Definition loadRankRecords (files : list (str * rankRecord)) : list rankRecord + str :=
  match read_records ∅ files with
  | inl recs => inl (merge_sort rank_le recs)
  | inr e => inr e
  end.

(** The sizes the records claim, each once. *)
Definition claimed_sizes (records : list rankRecord) : list Z := remove_dups (rc_NRanks <$> records).

Definition expectedRanks (want : Z) (records : list rankRecord) : Z + str :=
  if (0 <? want)%Z then inl want
  else
    match claimed_sizes records with
    | [n] =>
        if (n <? 2)%Z
        then inr ("the records claim " +:+ Itoa n +:+ " rank(s); a collective needs at least 2")
        else inl n
    | sizes =>
        let part n := show_ints (merge_sort Z.le (rc_Rank <$>
                        List.filter (λ r, (rc_NRanks r =? n)%Z) records)) +:+ " say " +:+ Itoa n in
        inr ("the records disagree about how many ranks the collective had (" +:+
             Join (sort_strings (part <$> sizes)) "; " +:+
             ") — they did not run the same collective, and one verdict over them would describe a group that never existed")
    end.

Definition describeMissing (missing : list Z) : str :=
  Join ((λ r, "rank " +:+ Itoa r) <$> missing) ", ".

(** ** One test across the ranks *)
Definition verdictOf (p : RunPhase) : Verdict :=
  match p with
  | RunPassed => VerdictPass
  | RunFailed => VerdictFail
  | RunSkipped => VerdictSkip
  | _ => VerdictError
  end.

Definition phaseOf (v : Verdict) : RunPhase :=
  match v with
  | VerdictPass => RunPassed
  | VerdictFail => RunFailed
  | VerdictSkip => RunSkipped
  | VerdictError => RunError
  end.

Definition resultNamed (l : list LocalResult) (name : str) : option LocalResult :=
  list_first (λ r, String.eqb (lr_Name r) name) l.

Definition declared_map (l : list str) : gmap str bool :=
  fold_left (λ m k, <[k := true]> m) l ∅.

Definition toRunnerResult (r : LocalResult) : Result :=
  MkResult (verdictOf (lr_Phase r))
    (match last (lr_Attempts r) with Some a => la_ExitCode a | None => -1 end)
    (lr_Metrics r) (declared_map (ae_unmeasurable (lr_Evidence r))) (lr_Message r) [] [] false.

Definition rank_of (name : str) (rec : rankRecord) : Rank :=
  MkRank (rc_Rank rec) (rc_Node rec) (toRunnerResult <$> resultNamed (rc_Results rec) name).

Definition disagreementSummary (c : Combined) : str :=
  let keys := List.filter (λ k,
        existsb (λ rv, negb (String.eqb (rr_Value rv) (default "" (c_Metrics c !! k))))
          (default [] (c_Readings c !! k))) (map_to_list (c_Readings c)).*1 in
  match keys with
  | [] => ""
  | _ => "ranks disagreed about " +:+ Join (sort_strings keys) ", "
  end.

Definition dissent (c : Combined) (m : Rank) : option str :=
  let who := "rank " +:+ Itoa (rk_Rank m) +:+ " (" +:+ rk_Node m +:+ ")" in
  match rk_Result m with
  | None => Some (who +:+ " did not report")
  | Some r =>
      if bool_decide (r_Verdict r = c_Verdict c) then None
      else Some (who +:+ " " +:+ ToLower (Verdict_string (r_Verdict r)) +:+ " (exit " +:+
                 Itoa (r_ExitCode r) +:+ ")")
  end.

Definition agrees (c : Combined) (m : Rank) : bool :=
  match rk_Result m with
  | Some r => bool_decide (r_Verdict r = c_Verdict c)
  | None => false
  end.

Definition mergeMessage (ranks : list Rank) (c : Combined) : str :=
  let agreed := count_of (List.filter (agrees c) ranks) in
  let note := disagreementSummary c in
  Join (["group of " +:+ Itoa (count_of ranks) +:+
         " (this verdict is about the COLLECTIVE, not about any one rank)"] ++
        (if (0 <? agreed)%Z
         then [Itoa agreed +:+ " rank(s) " +:+ ToLower (Verdict_string (c_Verdict c))] else []) ++
        omap (dissent c) ranks ++
        (if String.eqb note "" then [] else [note])) "; ".

(** [mergeOneTest]: rank 0's result with what is the collective's in place of its own. *)
Definition mergeOneTest (seed : LocalResult) (records : list rankRecord) (nodes : list str)
    : LocalResult :=
  let ranks := rank_of (lr_Name seed) <$> records in
  let c := Combine ranks in
  let phase := phaseOf (c_Verdict c) in
  let message := mergeMessage ranks c in
  MkLocalResult (lr_Name seed) (lr_Kind seed) (lr_Scope seed) phase nodes (lr_StartedAt seed)
    (lr_FinishedAt seed) (c_Metrics c) message (lr_VariantAxes seed)
    (MkEvidence [] [] (ae_applied (lr_Evidence seed)) (sorted_keys (c_Unmeasurable c)))
    (lr_RepeatsRequired seed) (lr_RepeatsCompleted seed) (lr_ErrorRetries seed)
    [MkLocalAttempt 1 AttemptInitial phase (c_ExitCode c) (lr_StartedAt seed)
       (default zero_clock (lr_FinishedAt seed)) (c_Metrics c) message].

(** ** The whole *)

(** [mergedPhase] *)
Definition mergedPhase (results : list LocalResult) : RunPhase :=
  let '(phase, judged) := fold_left (λ '(phase, judged) res,
    match phase, lr_Phase res with
    | RunFailed, _ => (RunFailed, judged)
    | _, RunFailed => (RunFailed, judged)
    | _, RunError => (RunError, true)
    | _, RunPassed => (phase, true)
    | _, _ => (phase, judged)
    end) results (RunPassed, false) in
  if bool_decide (phase = RunFailed) then RunFailed
  else if judged then phase else RunSkipped.

Definition rank_outside (nranks : Z) (r : rankRecord) : bool :=
  (rc_Rank r <? 0)%Z || (nranks <=? rc_Rank r)%Z.

Definition missing_ranks (records : list rankRecord) (nranks : Z) : list Z :=
  List.filter (λ i, negb (bool_decide (i ∈ rc_Rank <$> records))) (seqZ 0 nranks).

Definition mergeRanks (records : list rankRecord) (nranks : Z) : (Report * gmap str str) + str :=
  match list_first (rank_outside nranks) records with
  | Some r => inr ("a record claims rank " +:+ Itoa (rc_Rank r) +:+ ", which is not a rank of " +:+
                   Itoa nranks)
  | None =>
      match missing_ranks records nranks, records with
      | [], first :: _ =>
          let nodes := rc_Node <$> records in
          let results := (λ seed, mergeOneTest seed records nodes) <$> rc_Results first in
          inl (MkReport (Join nodes ",") (mergedPhase results) (rc_StartedAt first)
                 (rc_FinishedAt first) results (tally results),
               fold_left (λ fp r, rc_Fingerprint r ∪ fp) records ∅)
      | missing, _ =>
          inr ("only " +:+ Itoa (count_of records) +:+ " of " +:+ Itoa nranks +:+ " ranks reported — " +:+
               describeMissing missing +:+
               " never did. A collective is only MEASURED if every rank took part, so there is no verdict here: a fold over the ranks that happened to report would certify machines nobody looked at. Collect the missing record(s), or re-run")
      end
  end.

(** [requiredPlan]: the tests of rank 0, required where any rank said so. *)
Definition requiredPlan (records : list rankRecord) : LocalPlan :=
  let required name := existsb (λ r, is_set (rc_Required r) name) records in
  MkLocalPlan "" "" ""
    ((λ r, MkTest (lr_Name r) (required (lr_Name r))
             (MkTestSpec "" "" 0 None None None None [] (MkResources ∅ ∅) false) ∅ "")
       <$> default [] (rc_Results <$> head records)) false 0 None.

(** `burnin merge`: the report, its fingerprint and the exit code. *)
Definition merge (want : Z) (files : list (str * rankRecord)) : (Report * gmap str str * Z) + str :=
  match loadRankRecords files with
  | inr e => inr e
  | inl [] => inr "no rank records"
  | inl records =>
      match expectedRanks want records with
      | inr e => inr e
      | inl nranks =>
          match mergeRanks records nranks with
          | inr e => inr e
          | inl (rep, fp) => inl (rep, fp, codeFor rep (requiredPlan records))
          end
      end
  end.

(** ** A verdict is every rank's *)

Lemma verdictOf_phaseOf v : verdictOf (phaseOf v) = v.
Proof. by destruct v. Qed.

Lemma mergedPhase_step results phase judged :
  phase = RunPassed ∨ phase = RunError ∧ judged = true ∨ phase = RunFailed →
  let '(phase', judged') := fold_left (λ '(phase, judged) res,
    match phase, lr_Phase res with
    | RunFailed, _ => (RunFailed, judged)
    | _, RunFailed => (RunFailed, judged)
    | _, RunError => (RunError, true)
    | _, RunPassed => (phase, true)
    | _, _ => (phase, judged)
    end) results (phase, judged) in
  (if bool_decide (phase' = RunFailed) then RunFailed else if judged' then phase' else RunSkipped) =
  (if bool_decide (phase = RunFailed) || saw RunFailed results then RunFailed
   else if bool_decide (phase = RunError) || saw RunError results then RunError
   else if judged || saw RunPassed results then RunPassed else RunSkipped).
Proof.
  revert phase judged. induction results as [|res results IH]; intros phase judged Hp; cbn [fold_left].
  { destruct Hp as [-> |[[-> ->]| ->]]; cbn; [by destruct judged|done|done]. }
  unfold saw in *. cbn [existsb].
  destruct Hp as [-> |[[-> ->]| ->]]; destruct (lr_Phase res); cbn;
    (match goal with |- context [fold_left _ _ (?ph, ?j)] => specialize (IH ph j) end;
     destruct (fold_left _ _ _) as [p' j']; rewrite IH by auto; cbn;
     repeat (destruct (existsb _ _)); try done; by destruct judged).
Qed.

(** The phase of a merge has the precedence of a run's. *)
Lemma mergedPhase_finalPhase results : mergedPhase results = finalPhase results.
Proof.
  pose proof (mergedPhase_step results RunPassed false (or_introl eq_refl)) as H.
  unfold mergedPhase, finalPhase. destruct (fold_left _ _ _) as [phase judged]. rewrite H. cbn.
  by destruct (saw RunFailed results), (saw RunError results), (saw RunPassed results).
Qed.

Lemma rank_reports name rec v :
  reports (rank_of name rec) v ↔
  ∃ r, resultNamed (rc_Results rec) name = Some r ∧ verdictOf (lr_Phase r) = v.
Proof.
  unfold reports, rank_of. cbn [rk_Result]. destruct (resultNamed _ _) as [r|]; cbn; split.
  - intros (? & [= <-] & H). by exists r.
  - intros (? & [= <-] & H). by exists (toRunnerResult r).
  - by intros (? & ? & _).
  - by intros (? & ? & _).
Qed.

Lemma verdictOf_pass p : verdictOf p = VerdictPass ↔ p = RunPassed.
Proof. by destruct p. Qed.

Lemma verdictOf_fail p : verdictOf p = VerdictFail ↔ p = RunFailed.
Proof. by destruct p. Qed.

Lemma phaseOf_pass v : phaseOf v = RunPassed ↔ v = VerdictPass.
Proof. by destruct v. Qed.

Lemma phaseOf_fail v : phaseOf v = RunFailed ↔ v = VerdictFail.
Proof. by destruct v. Qed.

(** Some rank ended a test with a verdict. *)
Definition some_rank (records : list rankRecord) (name : str) (v : Verdict) : Prop :=
  ∃ rec r, rec ∈ records ∧ resultNamed (rc_Results rec) name = Some r ∧ verdictOf (lr_Phase r) = v.

Lemma some_rank_reports records name v :
  some_rank records name v ↔ ∃ m, m ∈ rank_of name <$> records ∧ reports m v.
Proof.
  unfold some_rank. setoid_rewrite list_elem_of_fmap. split.
  - intros (rec & r & Hin & Hr & Hv). exists (rank_of name rec). split; [by exists rec|].
    apply rank_reports. by exists r.
  - intros (m & (rec & -> & Hin) & (r & Hr & Hv)%rank_reports). by exists rec, r.
Qed.

Lemma mergeOneTest_phase seed records nodes :
  records ≠ [] →
  let res := mergeOneTest seed records nodes in
  (lr_Phase res = RunPassed ↔ ∀ rec, rec ∈ records →
     ∃ r, resultNamed (rc_Results rec) (lr_Name seed) = Some r ∧ lr_Phase r = RunPassed) ∧
  (lr_Phase res = RunFailed ↔ some_rank records (lr_Name seed) VerdictFail ∧
                              ¬ some_rank records (lr_Name seed) VerdictError).
Proof.
  intros Hne res. unfold res. cbn [lr_Phase mergeOneTest].
  rewrite phaseOf_pass, phaseOf_fail, Combine_verdict.
  destruct (group_Verdict_exact (rank_of (lr_Name seed) <$> records)) as (Hp & Hf & _).
  rewrite Hp, Hf, !some_rank_reports. split; [|done]. split.
  - intros [_ H] rec Hin.
    destruct (proj1 (rank_reports _ _ _) (H _ (list_elem_of_fmap_2 _ _ _ Hin))) as (r & Hr & Hv).
    exists r. split; [done|]. by apply verdictOf_pass.
  - intros H. split; [by destruct records|]. intros m (rec & -> & Hin)%list_elem_of_fmap.
    destruct (H rec Hin) as (r & Hr & Hv). apply rank_reports. exists r.
    split; [done|]. by apply verdictOf_pass.
Qed.

Lemma fingerprints_union records fp node d :
  fold_left (λ fp r, rc_Fingerprint r ∪ fp) records fp !! node = Some d →
  fp !! node = Some d ∨ ∃ rec, rec ∈ records ∧ rc_Fingerprint rec !! node = Some d.
Proof.
  revert fp. induction records as [|rec records IH]; intros fp; cbn [fold_left]; [by left|].
  intros [Hd|(r & Hr & Hd)]%IH.
  - apply lookup_union_Some_raw in Hd as [Hd|[_ Hd]]; [|by left]. right. exists rec. by split; [left|].
  - right. exists r. by split; [right|].
Qed.

Lemma full_turnout records nranks :
  NoDup (rc_Rank <$> records) → list_first (rank_outside nranks) records = None →
  missing_ranks records nranks = [] → rc_Rank <$> records ≡ₚ seqZ 0 nranks.
Proof.
  intros Hnd Hin Hmiss. apply NoDup_Permutation; [done|apply NoDup_seqZ|]. intros i.
  rewrite elem_of_seqZ, Z.add_0_l. split.
  - intros (rec & -> & Hrec)%list_elem_of_fmap. rewrite list_first_None in Hin.
    specialize (Hin rec Hrec). apply orb_false_iff in Hin as [H1 H2]. lia.
  - intros Hi. destruct (decide (i ∈ rc_Rank <$> records)) as [|Hno]; [done|exfalso].
    assert (i ∈ missing_ranks records nranks) as Hm; [|rewrite Hmiss in Hm; by apply not_elem_of_nil in Hm].
    unfold missing_ranks. apply list_elem_of_In, List.filter_In. rewrite bool_decide_eq_false_2 by done.
    split; [|done]. apply list_elem_of_In, elem_of_seqZ. lia.
Qed.

(** C13: A collective's verdict is every rank's.  A merge happens only when each rank of the
    collective left exactly one record; every result of it names every machine that took
    part; a test passes exactly when every rank has a result for it that passed, and
    fails exactly when some rank failed it and none was unjudged; the run has the phase
    its results have; and the hardware it names is what the ranks recorded. *)
Theorem merge_verdict records nranks rep fp :
  NoDup (rc_Rank <$> records) → mergeRanks records nranks = inl (rep, fp) →
  rc_Rank <$> records ≡ₚ seqZ 0 nranks ∧
  (∀ res, res ∈ rp_Results rep →
     lr_Nodes res = rc_Node <$> records ∧
     (lr_Phase res = RunPassed ↔ ∀ rec, rec ∈ records →
        ∃ r, resultNamed (rc_Results rec) (lr_Name res) = Some r ∧ lr_Phase r = RunPassed) ∧
     (lr_Phase res = RunFailed ↔ some_rank records (lr_Name res) VerdictFail ∧
                                 ¬ some_rank records (lr_Name res) VerdictError)) ∧
  rp_Phase rep = finalPhase (rp_Results rep) ∧
  (∀ node d, fp !! node = Some d → ∃ rec, rec ∈ records ∧ rc_Fingerprint rec !! node = Some d).
Proof.
  intros Hnd. unfold mergeRanks.
  destruct (list_first (rank_outside nranks) records) eqn:Hout; [done|].
  destruct (missing_ranks records nranks) as [|x l] eqn:Hmiss; [|done].
  destruct records as [|first rest] eqn:Hrecs; [done|]. rewrite <-Hrecs in *.
  intros [= <- <-]. cbn [rp_Results rp_Phase].
  split; [by apply full_turnout|]. split; [|split; [apply mergedPhase_finalPhase|]].
  - intros res (seed & -> & _)%list_elem_of_fmap. split; [done|].
    destruct (mergeOneTest_phase seed records (rc_Node <$> records)) as [H1 H2];
      [by rewrite Hrecs|]. exact (conj H1 H2).
  - intros node d [Hd|Hd]%fingerprints_union; [by rewrite lookup_empty in Hd|done].
Qed.

(** ** The operator's fold *)

(** A rank's stored result of what its runner reported. *)
Definition stored_as (parsed : Result) (r : LocalResult) : Prop :=
  lr_Phase r = phaseOf (r_Verdict parsed) ∧ lr_Metrics r = r_Metrics parsed ∧
  ae_unmeasurable (lr_Evidence r) = sorted_keys (r_Unmeasurable parsed) ∧
  ∃ l a, lr_Attempts r = l ++ [a] ∧ la_ExitCode a = r_ExitCode parsed.

Lemma declared_map_lookup l m k :
  fold_left (λ (m : gmap str bool) k, <[k := true]> m) l m !! k =
    if bool_decide (k ∈ l) then Some true else m !! k.
Proof.
  revert m. induction l as [|x l IH]; intros m; [done|]. cbn [fold_left]. rewrite IH.
  destruct (decide (k = x)) as [->|Hne].
  - rewrite lookup_insert_eq, (bool_decide_eq_true_2 (x ∈ x :: l)) by by left. by destruct (bool_decide _).
  - rewrite lookup_insert_ne by done.
    by rewrite (bool_decide_ext (k ∈ x :: l) (k ∈ l)) by set_solver.
Qed.

Lemma readings_ext k ranks ranks' :
  Forall2 (λ m m', rank_measured k m = rank_measured k m' ∧ rank_declared k m = rank_declared k m')
    ranks ranks' →
  readings_of k ranks = readings_of k ranks' ∧
  omap (rank_declared k) ranks = omap (rank_declared k) ranks'.
Proof.
  intros H.
  assert (omap (rank_declared k) ranks = omap (rank_declared k) ranks') as Hd.
  { induction H as [|m m' l l' [_ E] _ IH]; [done|]. cbn. by rewrite E, IH. }
  assert (omap (rank_measured k) (rev ranks) = omap (rank_measured k) (rev ranks')) as Hm.
  { clear Hd. induction H as [|m m' l l' [E _] _ IH]; [done|]. cbn.
    rewrite !omap_app, IH. cbn. by rewrite E. }
  split; [|done]. unfold readings_of. by rewrite Hm, Hd.
Qed.

(** Two ranks of the same number whose reports agree but for words. *)
Definition same_report (m m' : Rank) : Prop :=
  rk_Rank m = rk_Rank m' ∧
  match rk_Result m, rk_Result m' with
  | Some r, Some r' =>
      r_Verdict r = r_Verdict r' ∧ r_ExitCode r = r_ExitCode r' ∧ r_Metrics r = r_Metrics r' ∧
      ∀ k, is_Some (r_Unmeasurable r !! k) ↔ is_Some (r_Unmeasurable r' !! k)
  | None, None => True
  | _, _ => False
  end.

Lemma same_report_key k m m' :
  same_report m m' → rank_measured k m = rank_measured k m' ∧ rank_declared k m = rank_declared k m'.
Proof.
  intros [Hr H]. unfold rank_measured, rank_declared. rewrite Hr.
  destruct (rk_Result m) as [r|], (rk_Result m') as [r'|]; try done.
  destruct H as (_ & _ & Hm & Hu). cbn. rewrite Hm. split; [done|].
  specialize (Hu k). destruct (r_Unmeasurable r !! k), (r_Unmeasurable r' !! k); cbn; try done.
  - by destruct (proj1 Hu (mk_is_Some _ _ eq_refl)).
  - by destruct (proj2 Hu (mk_is_Some _ _ eq_refl)).
Qed.

Lemma same_report_verdict ranks ranks' :
  Forall2 same_report ranks ranks' → group_Verdict ranks = group_Verdict ranks'.
Proof.
  intros H.
  assert (∀ v, exit_with ranks v = exit_with ranks' v) as Hexit.
  { intros v. unfold exit_with, list_first.
    induction H as [|m m' l l' [_ Hm] _ IH]; [done|]. cbn. unfold has_verdict at 1 3.
    destruct (rk_Result m) as [r|] eqn:E, (rk_Result m') as [r'|] eqn:E'; try done.
    destruct Hm as (Hv & He & _). rewrite Hv. destruct (bool_decide _); [|exact IH].
    cbn. rewrite E, E'. cbn. by rewrite He. }
  assert (length (List.filter reported ranks) = length (List.filter reported ranks')) as Hn.
  { clear Hexit. induction H as [|m m' l l' [_ Hm] _ IH]; [done|]. cbn.
    assert (reported m = reported m') as -> by
      (unfold reported; by destruct (rk_Result m), (rk_Result m')).
    destruct (reported m'); cbn; by rewrite IH. }
  assert (∀ z, exitCodeOf ranks z = exitCodeOf ranks' z) as Hroot.
  { intros z. unfold exitCodeOf, list_first. clear Hexit Hn.
    induction H as [|m m' l l' [Hr Hm] _ IH]; [done|]. cbn. rewrite Hr.
    destruct (rk_Result m) as [r|] eqn:E, (rk_Result m') as [r'|] eqn:E'; try done; cbn.
    - destruct (rk_Rank m' =? z)%Z; cbn; [|exact IH]. rewrite E, E'. cbn. by destruct Hm as (_ & -> & _).
    - rewrite andb_false_r. exact IH. }
  unfold group_Verdict. by rewrite Hn, !Hexit, Hroot, (Forall2_length _ _ _ H).
Qed.

Lemma same_report_Combine ranks ranks' :
  Forall2 same_report ranks ranks' →
  c_Metrics (Combine ranks) = c_Metrics (Combine ranks') ∧
  c_Unmeasurable (Combine ranks) = c_Unmeasurable (Combine ranks') ∧
  c_Verdict (Combine ranks) = c_Verdict (Combine ranks') ∧
  c_ExitCode (Combine ranks) = c_ExitCode (Combine ranks').
Proof.
  intros H.
  assert (∀ k, readings_of k ranks = readings_of k ranks' ∧
               omap (rank_declared k) ranks = omap (rank_declared k) ranks') as Hk.
  { intros k. apply readings_ext. eapply Forall2_impl; [exact H|]. intros. by apply same_report_key. }
  split; [|split; [|split]].
  - apply map_eq. intros k. destruct (Combine_key ranks k) as (_ & -> & _).
    destruct (Combine_key ranks' k) as (_ & -> & _). by destruct (Hk k) as [-> _].
  - apply map_eq. intros k. destruct (Combine_key ranks k) as (_ & _ & ->).
    destruct (Combine_key ranks' k) as (_ & _ & ->). by destruct (Hk k) as [-> ->].
  - rewrite !Combine_verdict. by rewrite (same_report_verdict _ _ H).
  - unfold Combine. rewrite (same_report_verdict _ _ H). by destruct (group_Verdict ranks').
Qed.

Lemma stored_same parsed r :
  stored_as parsed r → same_report (MkRank 0 "" (Some (toRunnerResult r))) (MkRank 0 "" (Some parsed)).
Proof.
  intros (Hp & Hm & Hu & l & a & Ha & He). split; [done|]. cbn.
  rewrite Hp, verdictOf_phaseOf, Ha, last_snoc. split; [done|]. split; [done|]. split; [done|].
  intros k. rewrite Hu. unfold declared_map. rewrite declared_map_lookup. unfold sorted_keys.
  destruct (bool_decide_reflect (k ∈ sort_strings (map_to_list (r_Unmeasurable parsed)).*1)) as [Hin|Hno].
  - split; [|done]. intros _. apply sort_strings_elem, list_elem_of_fmap in Hin as ([k' b] & -> & Hb).
    apply elem_of_map_to_list in Hb. by exists b.
  - rewrite lookup_empty. split; [by intros [? ?]|]. intros [b Hb]. destruct Hno.
    apply sort_strings_elem, list_elem_of_fmap. exists (k, b). split; [done|]. by apply elem_of_map_to_list.
Qed.

(** C14: The bare-metal collective is the operator's: over records that hold what the runners
    of an ungated test reported, the merged result has the phase of the verdict, the
    metrics, the declarations and the exit code that pkg/group elects from the reports
    themselves, ranks that never reported included. *)
Theorem merge_folds_as_operator seed records nodes (raw : list Rank) :
  Forall2 (λ rec m, rc_Rank rec = rk_Rank m ∧
    match resultNamed (rc_Results rec) (lr_Name seed), rk_Result m with
    | Some r, Some parsed => stored_as parsed r
    | None, None => True
    | _, _ => False
    end) records raw →
  let res := mergeOneTest seed records nodes in
  let c := Combine raw in
  lr_Phase res = phaseOf (c_Verdict c) ∧ lr_Metrics res = c_Metrics c ∧
  ae_unmeasurable (lr_Evidence res) = sorted_keys (c_Unmeasurable c) ∧
  la_ExitCode <$> lr_Attempts res = [c_ExitCode c].
Proof.
  intros H res c.
  assert (Forall2 same_report (rank_of (lr_Name seed) <$> records) raw) as Hsame.
  { apply Forall2_fmap_l. eapply Forall2_impl; [exact H|]. intros rec m [Hr Hm].
    split; [done|]. cbn [rk_Result rank_of].
    destruct (resultNamed _ _) as [r|], (rk_Result m) as [parsed|]; try done. cbn.
    by destruct (stored_same parsed r Hm) as [_ H']. }
  destruct (same_report_Combine _ _ Hsame) as (Hm & Hu & Hv & He).
  unfold res, c. cbn. by rewrite Hm, Hu, Hv, He.
Qed.

(** ** Witnesses *)
Definition example_rank (i : Z) (results : list LocalResult) : rankRecord :=
  MkRankRecord i 2 ("node-" +:+ Itoa i) "Passed" 0 (Some 9%Z) results
    {[ "node-" +:+ Itoa i := "kernel=6.8" ]} {[ "link" := true ]}.

Definition example_result (name : str) (phase : RunPhase) (code : Z) (metrics : gmap str str)
    : LocalResult :=
  MkLocalResult name "nccl-allreduce" ScopeGroup phase ["node-0"] 0 (Some 9%Z) metrics "" ∅
    (MkEvidence [] [] [] []) 1 1 0
    [MkLocalAttempt 1 AttemptInitial phase code 0 9 metrics ""].

Lemma merge_verdict_witness :
  let records := [example_rank 0 [example_result "link" RunPassed 0 {[ "busBandwidthGBs" := "40" ]}];
                  example_rank 1 [example_result "link" RunPassed 0 ∅]] in
  NoDup (rc_Rank <$> records) ∧
  match mergeRanks records 2 with
  | inl (rep, fp) => lr_Phase <$> rp_Results rep = [RunPassed] ∧ rp_Phase rep = RunPassed ∧
                     rc_Rank <$> records ≡ₚ seqZ 0 2
  | inr _ => False
  end.
Proof.
  intros records.
  assert (NoDup (rc_Rank <$> records)) as Hnd by (repeat constructor; set_solver).
  split; [exact Hnd|].
  destruct (mergeRanks records 2) as [[rep fp]|e] eqn:E; [|vm_compute in E; discriminate E].
  destruct (merge_verdict records 2 rep fp Hnd E) as (Hp & _).
  split; [vm_compute in E; injection E as <- <-; vm_compute; reflexivity|].
  split; [vm_compute in E; injection E as <- <-; vm_compute; reflexivity|exact Hp].
Defined.

Definition raw_report (code : Z) (v : Verdict) (metrics : gmap str str) : Result :=
  MkResult v code metrics ∅ "" [] [] false.

Lemma merge_folds_as_operator_witness :
  let seed := example_result "link" RunPassed 0 {[ "busBandwidthGBs" := "40" ]} in
  let records := [example_rank 0 [seed]; example_rank 1 [example_result "link" RunFailed 1 ∅]] in
  let raw := [MkRank 0 "node-0" (Some (raw_report 0 VerdictPass {[ "busBandwidthGBs" := "40" ]}));
              MkRank 1 "node-1" (Some (raw_report 1 VerdictFail ∅))] in
  let res := mergeOneTest seed records ["node-0"; "node-1"] in
  lr_Phase res = phaseOf (c_Verdict (Combine raw)) ∧ lr_Metrics res = c_Metrics (Combine raw) ∧
  lr_Phase res = RunFailed.
Proof.
  intros seed records raw res.
  destruct (merge_folds_as_operator seed records ["node-0"; "node-1"] raw) as (H1 & H2 & _).
  - constructor; [split; [reflexivity|]|constructor; [split; [reflexivity|]|constructor]].
    + split; [reflexivity|]. split; [reflexivity|]. split; [reflexivity|]. exists [].
      eexists. split; reflexivity.
    + split; [reflexivity|]. split; [reflexivity|]. split; [reflexivity|]. exists [].
      eexists. split; reflexivity.
  - split; [exact H1|]. split; [exact H2|]. vm_compute. reflexivity.
Defined.

(** ** Divergences *)

(** A merged result keeps the gates rank 0 cleared, under every machine's name. *)
Lemma merge_keeps_applied seed records nodes :
  ae_violations (lr_Evidence (mergeOneTest seed records nodes)) = [] ∧
  ae_applied (lr_Evidence (mergeOneTest seed records nodes)) = ae_applied (lr_Evidence seed).
Proof. done. Qed.

(** A test rank 0 has no result for is in no merge, though another rank ran it and failed:
    the merge passes and exits 0. *)
Lemma merge_drops_tests :
  let passed := example_result "link" RunPassed 0 ∅ in
  match merge 0 [("a", example_rank 0 [passed]);
                 ("b", example_rank 1 [passed; example_result "fabric" RunFailed 1 ∅])] with
  | inl (rep, _, code) => lr_Name <$> rp_Results rep = ["link"] ∧ rp_Phase rep = RunPassed ∧
                          code = exitPass
  | inr _ => False
  end.
Proof. vm_compute. done. Qed.

(** A gated metric that only rank 0 reports: rank 1 fails its own evaluation, so the
    bare-metal collective fails, where the operator gates the elected metrics and
    passes it. *)
Lemma merge_gates_every_rank :
  let t := MkTest "link" true
    (MkTestSpec "nccl-allreduce" ScopeGroup 0 None None None None
       [MkThreshold "busBandwidthGBs" GTE "30" Required] (MkResources ∅ ∅) false) ∅ "" in
  let exec out := judged t (inl (MkExecution 0 out "" false)) in
  let '(parsed0, _, (phase0, _, _)) := exec "busBandwidthGBs=40" in
  let '(parsed1, _, (phase1, _, _)) := exec "ranks=2" in
  let rank i phase parsed := example_rank i [example_result "link" phase 0 (r_Metrics parsed)] in
  let records := [rank 0%Z phase0 parsed0; rank 1%Z phase1 parsed1] in
  let c := Combine [MkRank 0 "node-0" (Some parsed0); MkRank 1 "node-1" (Some parsed1)] in
  (phase0, phase1) = (RunPassed, RunFailed) ∧
  lr_Phase (mergeOneTest (example_result "link" phase0 0 (r_Metrics parsed0)) records []) = RunFailed ∧
  (attemptOutcome t (MkResult (c_Verdict c) (c_ExitCode c) (c_Metrics c) (c_Unmeasurable c) ""
     (c_InvalidNames c) [] false)).1.1 = RunPassed.
Proof. vm_compute. done. Qed.
