(* ===== verification/Seal.v ===== *)
(** * cmd/burnin/seal.go: sealed results directories

    A results directory is sealed by a SHA256SUMS file over every regular file in it, and
    [verifyDir] says whether a directory is still the sealed one.  A directory is a tree:
    names in the order the system lists them, files with their bytes or the error reading
    them gives, symbolic links and devices with what reading through them gives.  The
    results directory itself is a readable directory.  SHA-256 is GoSha256's. *)

From S2P Require Import Prelude GoStrings GoSha256 Pods LocalTranslate Localrun.
From Stdlib Require Import Ascii.
Open Scope stdpp_scope.

(** ** Directories *)
Inductive readout :=
  | ReadBytes (b : str)
  | ReadNotExist
  | ReadError (err : str).

Inductive entry :=
  | File (bytes : str + str)
  | Dir (children : list (str * entry)) (listError : option str)
  | Link (through : readout)
  | Special (mode : str) (read : readout).

Notation directory := (list (str * entry)).

Fixpoint child (name : str) (d : directory) : option entry :=
  match d with
  | [] => None
  | (n, e) :: d => if String.eqb n name then Some e else child name d
  end.

(** The entry a path of names leads to, through directories only. *)
Fixpoint find (d : directory) (path : list str) : option entry :=
  match path with
  | [] => None
  | [name] => child name d
  | name :: rest =>
      match child name d with
      | Some (Dir children _) => find children rest
      | _ => None
      end
  end.

(** A name added where the system lists it. *)
Fixpoint add_child (name : str) (e : entry) (d : directory) : directory :=
  match d with
  | [] => [(name, e)]
  | (n, x) :: d =>
      if str_ltb name n then (name, e) :: (n, x) :: d else (n, x) :: add_child name e d
  end.

(** os.Rename onto a name: what was there is replaced. *)
Definition set_child (name : str) (e : entry) (d : directory) : directory :=
  add_child name e (List.filter (λ ne, negb (String.eqb ne.1 name)) d).

Definition sumsFile : str := "SHA256SUMS".
Definition sumsTemp : str := ".SHA256SUMS-".

(** ** listRegular *)

(** A file the seal does not cover: the seal itself, and a sealing temp file. *)
Definition exempt (rel : str) : bool := String.eqb rel sumsFile || HasPrefix rel sumsTemp.

Definition not_regular (rel mode : str) : str :=
  rel +:+ " is not a regular file (" +:+ mode +:+ "); a results directory holds only files the run wrote".

Definition slash : ascii := "/".

(** filepath.WalkDir from [path], down to the first error. *)
Fixpoint walk (path : list str) (e : entry) : list str * option str :=
  match e with
  | File _ => (let rel := Join path "/" in if exempt rel then [] else [rel], None)
  | Dir _ (Some err) => ([], Some err)
  | Dir children None =>
      (fix go (l : directory) : list str * option str :=
         match l with
         | [] => ([], None)
         | (n, e) :: l =>
             match walk (path ++ [n]) e with
             | (out, Some err) => (out, Some err)
             | (out, None) => let '(more, err) := go l in (out ++ more, err)
             end
         end) children
  | Link _ => ([], Some (not_regular (Join path "/") "L---------"))
  | Special mode _ => ([], Some (not_regular (Join path "/") mode))
  end.

Definition walk_root (d : directory) : list str * option str := walk [] (Dir d None).

(** The paths found so far, sorted, and the error that ended the walk. *)
Definition listRegular (d : directory) : list str * option str :=
  let '(out, err) := walk_root d in (sort_strings out, err).

(** ** sealDir *)
Definition hash_of (b : str) : str := hex_encode (Sum256 b).

(** [hashFile] of a path under the directory. *)
Definition hashFile (d : directory) (rel : str) : str + str :=
  match find d (Split rel slash) with
  | Some (File (inl b)) => inl (hash_of b)
  | Some (File (inr err)) => inr err
  | _ => inr "no such file or directory"
  end.

Definition newline : str := String (chr 10) "".

Fixpoint sum_lines (d : directory) (files : list str) : str + str :=
  match files with
  | [] => inl ""
  | rel :: files =>
      match hashFile d rel with
      | inr err => inr err
      | inl sum =>
          match sum_lines d files with
          | inr err => inr err
          | inl rest => inl (sum +:+ "  " +:+ rel +:+ newline +:+ rest)
          end
      end
  end.

(** [io] is the first error of creating, writing, syncing, closing or renaming the
    temporary file, which is removed again. *)
Definition sealDir (io : option str) (d : directory) : directory * option str :=
  match listRegular d with
  | (_, Some err) => (d, Some err)
  | (files, None) =>
      match sum_lines d files, io, child sumsFile d with
      | inr err, _, _ => (d, Some err)
      | _, Some err, _ => (d, Some err)
      | _, _, Some (Dir _ _) => (d, Some "rename: file exists")
      | inl b, None, _ => (set_child sumsFile (File (inl b)) d, None)
      end
  end.

(** ** verifyDir *)
Definition readSums (d : directory) : readout :=
  match child sumsFile d with
  | None => ReadNotExist
  | Some (File (inl b)) => ReadBytes b
  | Some (File (inr err)) => ReadError err
  | Some (Dir _ _) => ReadError "read SHA256SUMS: is a directory"
  | Some (Link r) => r
  | Some (Special _ r) => r
  end.

(** [bufio.Scanner]: the lines of a text, up to the first that does not fit its buffer. *)
Definition maxScanToken : nat := Z.to_nat 65536.

Fixpoint lines_of (l : list str) : list str :=
  match l with
  | [] => []
  | [""] => []
  | line :: l =>
      if (maxScanToken <=? String.length line)%nat then []
      else TrimSuffix line (String (chr 13) "") :: lines_of l
  end.

Definition scan_lines (s : str) : list str := lines_of (Split s (chr 10)).

(** [strings.Cut] *)
Fixpoint Cut (s sep : str) : option (str * str) :=
  if HasPrefix s sep then Some ("", drop (String.length sep) s)
  else
    match s with
    | EmptyString => None
    | String c s => (λ p, (String c p.1, p.2)) <$> Cut s sep
    end.

(** [checkOrdinaryPath], component by component; [""] is no problem. *)
Fixpoint check_path (rel : str) (d : directory) (parts : list str) : str :=
  match parts with
  | [] => ""
  | [part] =>
      match (if String.eqb part "." then Some (Dir d None) else child part d) with
      | None => rel +:+ " is missing"
      | Some (File _) => ""
      | Some _ => rel +:+ " is not a regular file"
      end
  | part :: rest =>
      match child part d with
      | None => rel +:+ " is missing"
      | Some (Dir children _) => check_path rel children rest
      | Some _ => rel +:+ " is reached through " +:+ part +:+ ", which is not a directory"
      end
  end.

Definition checkOrdinaryPath (d : directory) (rel : str) : str := check_path rel d (Split rel slash).

Definition outside (rel : str) : bool :=
  negb (String.eqb (Clean rel) rel) || HasPrefix rel "/" || String.eqb rel ".." || HasPrefix rel "../".

(** One line of SHA256SUMS: its problems, and the path it lists. *)
Definition verify_line (d : directory) (n : Z) (line : str) : list str * list str :=
  match Cut line "  " with
  | None => (["SHA256SUMS line " +:+ Itoa n +:+ " is malformed"], [])
  | Some (sum, rel) =>
      if negb (String.length sum =? 64)%nat then (["SHA256SUMS line " +:+ Itoa n +:+ " is malformed"], [])
      else if outside rel then
        (["SHA256SUMS names " +:+ quote rel +:+ ", which is outside the directory or not a clean path"], [])
      else
        let p := checkOrdinaryPath d rel in
        if negb (String.eqb p "") then ([p], [rel])
        else
          match hashFile d rel with
          | inr err => ([rel +:+ ": " +:+ err], [rel])
          | inl got =>
              (if String.eqb got sum then [] else [rel +:+ " has changed since the run sealed it"], [rel])
          end
  end.

Definition verify_lines (d : directory) (lines : list str) : list (list str * list str) :=
  imap (λ i line, verify_line d (Z.of_nat i + 1) line) lines.

(** Every problem, or why the seal could not be read. *)
Definition verifyDir (d : directory) : list str + str :=
  match readSums d with
  | ReadNotExist =>
      inl ["not sealed: no SHA256SUMS. A run interrupted before it finished filing leaves none"]
  | ReadError err => inr err
  | ReadBytes b =>
      let outs := verify_lines d (scan_lines b) in
      let listed := mjoin outs.*2 in
      let '(present, err) := listRegular d in
      inl (mjoin outs.*1 ++ match err with Some e => [e] | None => [] end ++
           omap (λ rel, if bool_decide (rel ∈ listed) then None
                        else Some (rel +:+ " was not written by the run: it is not in SHA256SUMS")) present)
  end.

(** The exit code of [burnin verify DIR]: 0, [exitFail] or [exitError]. *)
Definition runVerify (d : directory) : Z :=
  match verifyDir d with
  | inr _ => exitError
  | inl [] => 0
  | inl (_ :: _) => exitFail
  end.

(** ** Well-formed directories *)

(** A name a file system holds. *)
Definition valid_name (n : str) : bool :=
  no_char slash n && negb (String.eqb n "") && negb (String.eqb n ".") && negb (String.eqb n "..").

Fixpoint wf_entry (e : entry) : Prop :=
  match e with
  | Dir children _ =>
      NoDup children.*1 ∧
      (fix go (l : directory) : Prop :=
         match l with
         | [] => True
         | (n, e) :: l => valid_name n = true ∧ wf_entry e ∧ go l
         end) children
  | _ => True
  end.

Definition wf (d : directory) : Prop := wf_entry (Dir d None).

(** Induction on directories. *)
Section entry_ind.
Context (P : entry → Prop).
Hypothesis Hfile : ∀ b, P (File b).
Hypothesis Hdir : ∀ children err, Forall (λ ne, P ne.2) children → P (Dir children err).
Hypothesis Hlink : ∀ r, P (Link r).
Hypothesis Hspecial : ∀ m r, P (Special m r).

Fixpoint entry_ind_nested (e : entry) : P e :=
  match e with
  | File b => Hfile b
  | Dir children err =>
      Hdir children err
        ((fix go (l : directory) : Forall (λ ne, P ne.2) l :=
            match l with
            | [] => @List.Forall_nil _ _
            | (n, e) :: l => @List.Forall_cons _ _ (n, e) l (entry_ind_nested e) (go l)
            end) children)
  | Link r => Hlink r
  | Special m r => Hspecial m r
  end.
End entry_ind.

Lemma wf_cons n e d :
  wf ((n, e) :: d) ↔ valid_name n = true ∧ wf_entry e ∧ n ∉ d.*1 ∧ wf d.
Proof. unfold wf. simpl. rewrite NoDup_cons. naive_solver. Qed.

Lemma wf_dir children err : wf_entry (Dir children err) ↔ wf children.
Proof. done. Qed.

Lemma child_In n e d : child n d = Some e → (n, e) ∈ d.
Proof.
  induction d as [|[m x] d IH]; [done|]. simpl. destruct (String.eqb_spec m n) as [->|]; intros H.
  - simplify_eq. left.
  - right. auto.
Qed.

Lemma In_child n e d : wf d → (n, e) ∈ d → child n d = Some e.
Proof.
  induction d as [|[m x] d IH]; [by intros _ ?%not_elem_of_nil|].
  intros (Hm & _ & Hno & Hwf)%wf_cons. simpl. intros [[= -> ->]|H]%elem_of_cons.
  - by rewrite String.eqb_refl.
  - destruct (String.eqb_spec m n) as [->|]; [|auto].
    exfalso. apply Hno, list_elem_of_fmap. by exists (n, e).
Qed.

Lemma wf_child n e d : wf d → child n d = Some e → valid_name n = true ∧ wf_entry e.
Proof.
  intros Hwf H%child_In. induction d as [|[m x] d IH]; [by apply not_elem_of_nil in H|].
  apply wf_cons in Hwf as (Hm & He & _ & Hwf). apply elem_of_cons in H as [[= -> ->]|H]; auto.
Qed.

Lemma find_valid path e d :
  wf d → find d path = Some e → path ≠ [] ∧ Forall (λ n, valid_name n = true) path.
Proof.
  revert d. induction path as [|n path IH]; intros d Hwf H; [done|]. split; [done|].
  destruct path as [|m path].
  - apply wf_child in H as [Hn _]; [|done]. by repeat constructor.
  - change (find d (n :: m :: path)) with
      (match child n d with Some (Dir children _) => find children (m :: path) | _ => None end) in H.
    destruct (child n d) as [[| children ? | |]|] eqn:Hc; try done.
    apply wf_child in Hc as [Hn He]; [|done]. apply (IH children) in H as [_ H]; [|exact He].
    by constructor.
Qed.

(** ** What the walk finds *)
Definition leads (e : entry) (path : list str) (x : entry) : Prop :=
  match path with
  | [] => e = x
  | _ => ∃ children err, e = Dir children err ∧ find children path = Some x
  end.

Lemma find_cons d n rest x :
  find d (n :: rest) = Some x ↔ ∃ e, child n d = Some e ∧ leads e rest x.
Proof.
  destruct rest as [|m rest]; simpl; [naive_solver|]. split.
  - destruct (child n d) as [[| children err | |]|]; try done. intros H.
    exists (Dir children err). split; [done|]. by exists children, err.
  - intros (e & -> & children & err & -> & H). done.
Qed.

Lemma walk_dir_cons path n e l :
  walk path (Dir ((n, e) :: l) None) =
  match walk (path ++ [n]) e with
  | (out, Some err) => (out, Some err)
  | (out, None) => let '(more, err) := walk path (Dir l None) in (out ++ more, err)
  end.
Proof. reflexivity. Qed.

(** A walk that ends without an error found every regular file that is not exempt. *)
Definition walk_finds (e : entry) : Prop :=
  wf_entry e → ∀ path out, walk path e = (out, None) →
  ∀ rel, rel ∈ out ↔
    exempt rel = false ∧ ∃ p b, rel = Join (path ++ p) "/" ∧ leads e p (File b).

Lemma walk_finds_list (l : directory) :
  Forall (λ ne, walk_finds ne.2) l → wf l → ∀ path out, walk path (Dir l None) = (out, None) →
  ∀ rel, rel ∈ out ↔
    ∃ n e, (n, e) ∈ l ∧ exempt rel = false ∧
      ∃ p b, rel = Join ((path ++ [n]) ++ p) "/" ∧ leads e p (File b).
Proof.
  induction 1 as [|[n e] l He Hl IH]; intros Hwf path out Hout rel.
  { injection Hout as <-. split; [by intros ?%not_elem_of_nil|].
    intros (? & ? & []%not_elem_of_nil & _). }
  apply wf_cons in Hwf as (_ & Hwe & _ & Hwf). rewrite walk_dir_cons in Hout.
  destruct (walk (path ++ [n]) e) as [o [err|]] eqn:Ho; [done|].
  destruct (walk path (Dir l None)) as [more err] eqn:Hm. simplify_eq.
  rewrite elem_of_app, (He Hwe _ _ Ho), (IH Hwf _ _ Hm). clear. split.
  - intros [[? H]|(m & x & Hin & H)]; [exists n, e|exists m, x]; rewrite elem_of_cons; auto.
  - intros (m & x & [[= -> ->]|Hin]%elem_of_cons & H); [left|right]; [done|eauto].
Qed.

Lemma walk_finds_all e : walk_finds e.
Proof.
  induction e as [b|children err IH|r|m r] using entry_ind_nested; intros Hwf path out Hout rel.
  - simpl in Hout. destruct (exempt (Join path "/")) eqn:Hx; simplify_eq.
    + split; [by intros ?%not_elem_of_nil|]. intros (Hr & [|? ?] & b' & -> & Hl).
      * rewrite app_nil_r in Hr. congruence.
      * by destruct Hl as (? & ? & ? & _).
    + rewrite list_elem_of_singleton. split.
      * intros ->. split; [done|]. exists [], b. by rewrite app_nil_r.
      * intros (_ & [|? ?] & b' & -> & Hl); [by rewrite app_nil_r|].
        by destruct Hl as (? & ? & ? & _).
  - destruct err as [err|]; [done|]. rewrite (walk_finds_list children IH Hwf path out Hout rel).
    split.
    + intros (n & e & Hin & Hx & p & b & -> & Hl). split; [done|].
      exists (n :: p), b. rewrite <-(assoc_L (++)). split; [done|].
      exists children, None. split; [done|]. apply find_cons. exists e.
      split; [by apply In_child|done].
    + intros (Hx & [|n p] & b & -> & Hl); [done|].
      destruct Hl as (ch & err & [= <- <-] & Hl). apply find_cons in Hl as (e & Hc & Hl).
      exists n, e. split; [by apply child_In|]. split; [done|]. exists p, b.
      by rewrite <-(assoc_L (++)).
  - done.
  - done.
Qed.

Lemma valid_no_slash n : valid_name n = true → no_char slash n = true.
Proof. unfold valid_name. by rewrite !andb_true_iff; intros [[[? _] _] _]. Qed.

Lemma Split_path p :
  p ≠ [] → Forall (λ n, valid_name n = true) p → Split (Join p "/") slash = p.
Proof.
  intros Hne Hp. apply Split_Join; [done|]. eapply Forall_impl; [exact Hp|].
  intros n. apply valid_no_slash.
Qed.

(** [listRegular] without an error is exactly the files the seal covers. *)
Lemma listRegular_spec d files :
  wf d → listRegular d = (files, None) →
  ∀ rel, rel ∈ files ↔
    exempt rel = false ∧ ∃ b, find d (Split rel slash) = Some (File b).
Proof.
  unfold listRegular, walk_root. intros Hwf H rel.
  destruct (walk [] (Dir d None)) as [out err] eqn:Hw. simplify_eq.
  rewrite sort_strings_elem, (walk_finds_all _ Hwf _ _ Hw rel). split.
  - intros (Hx & p & b & -> & Hl). split; [done|]. exists b. simpl.
    destruct p as [|n p]; [done|]. destruct Hl as (ch & err & [= <- <-] & Hl).
    destruct (find_valid _ _ _ Hwf Hl) as [Hne Hv]. by rewrite Split_path.
  - intros (Hx & b & Hf). split; [done|]. exists (Split rel slash), b.
    split; [by rewrite app_nil_l, Join_Split|].
    destruct (Split rel slash) as [|n p] eqn:E; [by apply Split_nonempty in E|].
    exists d, None. done.
Qed.

(** ** The text of a seal *)
Definition text (lines : list str) : str := fold_right (λ l rest, l +:+ newline +:+ rest) "" lines.

(** A path SHA256SUMS can carry: no line break in it, no carriage return at its end, and
    its line in reach of the scanner's buffer. *)
Definition storable (rel : str) : bool :=
  no_char (chr 10) rel && negb (bool_decide (last_char rel = Some (chr 13))) &&
  (66 + String.length rel <? maxScanToken)%nat.


Lemma hash_of_length b : String.length (hash_of b) = 64%nat.
Proof. unfold hash_of. by rewrite hex_encode_length, Sum256_length. Qed.

Lemma hash_of_alnum b : all_chars alnum_char (hash_of b) = true.
Proof.
  apply hex_encode_alnum. intros x. unfold Sum256. intros H.
  apply list_elem_of_join in H as (l & Hx & Hl). apply list_elem_of_fmap in Hl as (y & -> & _).
  by apply be_bytes_range in Hx.
Qed.

Lemma alnum_no_char c s :
  alnum_char c = false → all_chars alnum_char s = true → no_char c s = true.
Proof.
  intros Hc. apply all_chars_impl. intros d Hd. apply negb_true_iff.
  destruct (Ascii.eqb_spec d c) as [->|]; congruence.
Qed.

Lemma Cut_cons c s sep :
  Cut (String c s) sep =
  if HasPrefix (String c s) sep then Some ("", drop (String.length sep) (String c s))
  else (λ p, (String c p.1, p.2)) <$> Cut s sep.
Proof. reflexivity. Qed.

Lemma Cut_line sum rel :
  no_char " "%char sum = true → Cut (sum +:+ "  " +:+ rel) "  " = Some (sum, rel).
Proof.
  induction sum as [|c sum IH]; [by destruct rel|].
  change (no_char " "%char (String c sum)) with (negb (Ascii.eqb c " ") && no_char " "%char sum).
  rewrite andb_true_iff, negb_true_iff. intros [Hc H].
  change (String c sum +:+ "  " +:+ rel) with (String c (sum +:+ "  " +:+ rel)).
  rewrite Cut_cons, (IH H). destruct (HasPrefix _ _) eqn:Hp; [|done]. exfalso.
  apply HasPrefix_spec in Hp as [q [= -> _]]. by rewrite Ascii.eqb_refl in Hc.
Qed.

Lemma HasSuffix_last s c : HasSuffix s (String c "") = true → last_char s = Some c.
Proof. intros [q ->]%HasSuffix_spec. by rewrite last_char_app. Qed.

Definition plain_line (l : str) : Prop :=
  l ≠ "" ∧ no_char (chr 10) l = true ∧ last_char l ≠ Some (chr 13) ∧ (String.length l < maxScanToken)%nat.

Lemma Split_text lines :
  Forall plain_line lines → Split (text lines) (chr 10) = lines ++ [""].
Proof.
  induction 1 as [|l lines (_ & Hl & _) _ IH]; [done|]. simpl. unfold newline.
  change (String (chr 10) "" +:+ text lines) with (String (chr 10) (text lines)).
  by rewrite Split_app, IH.
Qed.

Lemma scan_text lines : Forall plain_line lines → scan_lines (text lines) = lines.
Proof.
  intros H. unfold scan_lines. rewrite Split_text by done.
  induction H as [|l lines (Hne & _ & Hcr & Hlen) _ IH]; [done|]. cbn [app lines_of].
  destruct l as [|c l]; [done|]. rewrite leb_correct_conv by done. f_equal; [|exact IH].
  unfold TrimSuffix. destruct (HasSuffix _ _) eqn:Hs; [|done]. by apply HasSuffix_last in Hs.
Qed.

Lemma sealed_line_plain b rel :
  rel ≠ "" → storable rel = true → plain_line (hash_of b +:+ "  " +:+ rel).
Proof.
  unfold storable. rewrite !andb_true_iff, negb_true_iff, bool_decide_eq_false, Nat.ltb_lt.
  intros Hne [[Hlf Hcr] Hlen]. pose proof (hash_of_alnum b) as Ha. pose proof (hash_of_length b) as Hh.
  split_and!.
  - intros E. apply (f_equal String.length) in E. rewrite str_app_length, Hh in E. done.
  - unfold no_char. rewrite !all_chars_app. unfold no_char in Hlf. rewrite Hlf.
    pose proof (alnum_no_char (chr 10) _ eq_refl Ha) as H. unfold no_char in H. by rewrite H.
  - rewrite !last_char_app. apply last_char_nonempty in Hne as [c Hc]. by rewrite Hc in *.
  - rewrite !str_app_length, Hh. simpl String.length. exact Hlen.
Qed.

(** ** What a verification establishes *)
Definition sum_of (d : directory) (rel : str) : str :=
  match hashFile d rel with inl sum => sum | inr _ => "" end.

Definition sealed_line (d : directory) (rel : str) : str := sum_of d rel +:+ "  " +:+ rel.

(** The files a seal covers, with the digest of each; none where a file cannot be read or
    something else than a file or a directory is in the way. *)
Definition digests (d : directory) : option (gmap str str) :=
  match listRegular d with
  | (files, None) =>
      list_to_map <$>
        mapM (λ rel, match hashFile d rel with inl sum => Some (rel, sum) | inr _ => None end) files
  | _ => None
  end.

Lemma hashFile_inl d rel sum :
  hashFile d rel = inl sum → ∃ b, find d (Split rel slash) = Some (File (inl b)) ∧ sum = hash_of b.
Proof. unfold hashFile. intros H. repeat case_match; simplify_eq. eauto. Qed.

Lemma hashFile_some d rel sum : hashFile d rel = inl sum → sum_of d rel = sum.
Proof. unfold sum_of. by intros ->. Qed.

Lemma sum_lines_text d files b :
  sum_lines d files = inl b →
  b = text (sealed_line d <$> files) ∧ ∀ rel, rel ∈ files → hashFile d rel = inl (sum_of d rel).
Proof.
  revert b. induction files as [|rel files IH]; intros b; simpl.
  { intros [= <-]. split; [done|]. by intros ? []%not_elem_of_nil. }
  destruct (hashFile d rel) as [sum|] eqn:Hh; [|done].
  destruct (sum_lines d files) as [rest|] eqn:Hs; [|done]. intros [= <-].
  destruct (IH rest eq_refl) as [-> Hall]. split.
  - unfold sealed_line at 2. unfold sum_of. by rewrite Hh, !str_app_assoc.
  - intros r [->|Hr]%elem_of_cons; [|auto]. by rewrite Hh, (hashFile_some _ _ _ Hh).
Qed.

Lemma clean_valid p out :
  Forall (λ n, valid_name n = true) p → fold_left (clean_step false) p out = reverse p ++ out.
Proof.
  intros H. revert out. induction H as [|n p Hn Hp IH]; intros out; [done|].
  simpl. rewrite IH, reverse_cons, <-(assoc_L (++)). f_equal. unfold clean_step.
  unfold valid_name in Hn. rewrite !andb_true_iff, !negb_true_iff in Hn.
  destruct Hn as [[[_ Hn1] Hn2] Hn3]. by rewrite Hn1, Hn2, Hn3.
Qed.

Lemma first_char_valid n p :
  valid_name n = true → HasPrefix (Join (n :: p) "/") "/" = false.
Proof.
  intros Hn. destruct n as [|c n]; [done|]. pose proof (valid_no_slash _ Hn) as Hs.
  unfold no_char in Hs. apply andb_true_iff in Hs as [Hs _].
  destruct (HasPrefix _ _) eqn:E; [|done]. apply HasPrefix_spec in E as [q E].
  destruct p; injection E as -> _; done.
Qed.

Lemma path_inside p :
  p ≠ [] → Forall (λ n, valid_name n = true) p → outside (Join p "/") = false.
Proof.
  intros Hne Hp. pose proof (Split_path p Hne Hp) as Hsp.
  destruct p as [|n p]; [done|]. pose proof (Forall_inv Hp) as Hn.
  unfold outside. rewrite (first_char_valid n p Hn), !orb_false_iff. split_and!.
  - apply negb_false_iff, String.eqb_eq. unfold Clean. rewrite (first_char_valid n p Hn).
    change (Split (Join (n :: p) "/") "/"%char) with (Split (Join (n :: p) "/") slash).
    rewrite Hsp, clean_valid, app_nil_r, reverse_involutive by done.
    change ("" +:+ Join (n :: p) "/") with (Join (n :: p) "/").
    destruct (String.eqb_spec (Join (n :: p) "/") "") as [E|]; [|done].
    destruct n as [|c n]; [by vm_compute in Hn|by destruct p].
  - done.
  - apply not_true_iff_false. intros E%String.eqb_eq. rewrite E in Hsp. by injection Hsp as <-.
  - apply not_true_iff_false. intros [q E]%HasPrefix_spec.
    rewrite E in Hsp. cbn in Hsp. fold slash in Hsp.
    destruct (Split q slash); injection Hsp as <-; done.
Qed.

Lemma check_path_file rel d p :
  p ≠ [] → Forall (λ n, valid_name n = true) p →
  check_path rel d p = "" ↔ ∃ b, find d p = Some (File b).
Proof.
  intros Hne Hp. revert d. induction Hp as [|n p Hn Hp IH]; intros d; [done|].
  assert (String.eqb n "." = false) as Hdot.
  { unfold valid_name in Hn. rewrite !andb_true_iff, !negb_true_iff in Hn. by destruct Hn as [[_ ?] _]. }
  assert (∀ s : str, rel +:+ String " " s ≠ "") as Hmsg by (by destruct rel).
  destruct p as [|m p].
  - simpl. rewrite Hdot. destruct (child n d) as [[b| | |]|]; split; try naive_solver;
      intros H; exfalso; by eapply Hmsg.
  - change (check_path rel d (n :: m :: p)) with
      (match child n d with
       | None => rel +:+ " is missing"
       | Some (Dir children _) => check_path rel children (m :: p)
       | Some _ => rel +:+ " is reached through " +:+ n +:+ ", which is not a directory"
       end).
    change (find d (n :: m :: p)) with
      (match child n d with Some (Dir children _) => find children (m :: p) | _ => None end).
    destruct (child n d) as [[b|children e| |]|]; [|by apply IH|..]; split; try naive_solver;
      intros H; exfalso; by eapply Hmsg.
Qed.

(** A line the seal wrote is in order exactly when its file still hashes to the digest. *)
Lemma verify_sealed_line d n b p :
  p ≠ [] → Forall (λ n, valid_name n = true) p → let rel := Join p "/" in
  let out := verify_line d n (hash_of b +:+ "  " +:+ rel) in
  out.2 = [rel] ∧ (out.1 = [] ↔ hashFile d rel = inl (hash_of b)).
Proof.
  intros Hne Hp rel. unfold verify_line.
  rewrite Cut_line by (apply alnum_no_char, hash_of_alnum; reflexivity).
  rewrite hash_of_length, (path_inside p Hne Hp : outside rel = false). simpl (negb _). cbv iota.
  unfold checkOrdinaryPath. pose proof (Split_path p Hne Hp) as Hsp. fold rel in Hsp. rewrite Hsp.
  pose proof (check_path_file rel d p Hne Hp) as Hc.
  destruct (String.eqb_spec (check_path rel d p) "") as [E|E]; simpl.
  - destruct (hashFile d rel) as [got|err]; simpl; [|done]. split; [done|].
    destruct (String.eqb_spec got (hash_of b)); split; congruence.
  - split; [done|]. split; [done|]. intros (b' & Hf & _)%hashFile_inl. exfalso. apply E, Hc.
    rewrite Hsp in Hf. eauto.
Qed.

Definition sealed_path (d : directory) (rel : str) : Prop :=
  ∃ p b, rel = Join p "/" ∧ p ≠ [] ∧ Forall (λ n, valid_name n = true) p ∧ sum_of d rel = hash_of b.

Lemma verify_sealed_lines d d' files (f : nat → Z) :
  Forall (sealed_path d) files →
  let outs := imap (λ i line, verify_line d' (f i) line) (sealed_line d <$> files) in
  mjoin outs.*2 = files ∧
  (mjoin outs.*1 = [] ↔ ∀ rel, rel ∈ files → hashFile d' rel = inl (sum_of d rel)).
Proof.
  intros H. revert f. induction H as [|rel files (p & b & -> & Hne & Hp & Hb) _ IH]; intros f.
  { split; [done|]. split; [|done]. by intros _ ? []%not_elem_of_nil. }
  rewrite fmap_cons. cbn [imap fmap list_fmap mjoin list_join]. destruct (IH (f ∘ S)) as [IH1 IH2]. clear IH.
  unfold sealed_line at 1 3. rewrite Hb.
  destruct (verify_sealed_line d' (f 0%nat) b p Hne Hp) as [-> H2].
  set (o := (verify_line d' _ _).1) in *.
  split; [by f_equal|].
  rewrite app_nil, H2, IH2, <-Hb. split.
  - intros [Hh Hall] rel [->|Hr]%elem_of_cons; [exact Hh|exact (Hall rel Hr)].
  - intros Hall. split; [apply Hall; left|]. intros rel Hr. apply Hall. by right.
Qed.

(** ** Sealing *)
Lemma wf_alt d :
  wf d ↔ NoDup d.*1 ∧ ∀ n e, (n, e) ∈ d → valid_name n = true ∧ wf_entry e.
Proof.
  induction d as [|[n e] d IH].
  - split; intros _; [split; [constructor|by intros ? ? []%not_elem_of_nil]|].
    split; [constructor|exact I].
  - rewrite wf_cons, fmap_cons, NoDup_cons, IH. setoid_rewrite elem_of_cons. naive_solver.
Qed.

Lemma add_child_perm name e d : add_child name e d ≡ₚ (name, e) :: d.
Proof.
  induction d as [|[n x] d IH]; [done|]. simpl. destruct (str_ltb name n); [done|].
  rewrite IH. apply Permutation_swap.
Qed.

Lemma set_child_elem name e d n x :
  (n, x) ∈ set_child name e d ↔ (n = name ∧ x = e) ∨ (n ≠ name ∧ (n, x) ∈ d).
Proof.
  unfold set_child. rewrite add_child_perm, elem_of_cons, list_elem_of_In, List.filter_In, <-list_elem_of_In.
  simpl. rewrite negb_true_iff, String.eqb_neq. naive_solver.
Qed.

Lemma set_child_wf name e d :
  valid_name name = true → wf_entry e → wf d → wf (set_child name e d).
Proof.
  intros Hn He [Hnd Hall]%wf_alt. apply wf_alt. split.
  - unfold set_child. rewrite add_child_perm, fmap_cons, NoDup_cons. split.
    + rewrite list_elem_of_fmap. intros ([n x] & Hnx & Hin).
      rewrite list_elem_of_In, List.filter_In, negb_true_iff, String.eqb_neq in Hin.
      simpl in *. by destruct Hin.
    + eapply sublist_NoDup; [exact Hnd|]. apply fmap_sublist, list_filter_sublist.
  - intros n x [[-> ->]|[_ Hin]]%set_child_elem; auto.
Qed.

Lemma child_filter name n d :
  n ≠ name → child n (List.filter (λ ne, negb (String.eqb ne.1 name)) d) = child n d.
Proof.
  intros Hne. induction d as [|[m x] d IH]; [done|]. simpl.
  destruct (String.eqb_spec m name) as [->|]; simpl; rewrite IH; [|done].
  by destruct (String.eqb_spec name n) as [->|].
Qed.

Lemma child_add_child name e d n :
  (∀ x, (name, x) ∉ d) → child n (add_child name e d) = if String.eqb n name then Some e else child n d.
Proof.
  induction d as [|[m x] d IH]; intros Hno; simpl.
  - by rewrite (String.eqb_sym name).
  - assert (m ≠ name) as Hm by (intros ->; apply (Hno x); left).
    destruct (str_ltb name m); simpl.
    + by rewrite (String.eqb_sym name).
    + rewrite IH by (intros y Hy; apply (Hno y); by right).
      destruct (String.eqb_spec m n) as [->|]; [|done]. by destruct (String.eqb_spec n name).
Qed.

Lemma child_set_child name e d n :
  child n (set_child name e d) = if String.eqb n name then Some e else child n d.
Proof.
  unfold set_child. rewrite child_add_child.
  - destruct (String.eqb_spec n name); [done|]. by apply child_filter.
  - intros x. rewrite list_elem_of_In, List.filter_In, negb_true_iff, String.eqb_neq. by intros [_ ?].
Qed.

Lemma walk_ok_list l path :
  (walk path (Dir l None)).2 = None ↔ ∀ n e, (n, e) ∈ l → (walk (path ++ [n]) e).2 = None.
Proof.
  induction l as [|[n e] l IH].
  { split; [|done]. by intros _ ? ? []%not_elem_of_nil. }
  rewrite walk_dir_cons. setoid_rewrite elem_of_cons.
  destruct (walk (path ++ [n]) e) as [out [err|]] eqn:Hw.
  - split; [done|]. intros H. specialize (H n e (or_introl eq_refl)). by rewrite Hw in H.
  - destruct (walk path (Dir l None)) as [more err]. simpl in *. rewrite IH. split.
    + intros H m x [[= -> ->]|Hin]; [by rewrite Hw|auto].
    + intros H m x Hin. auto.
Qed.

Lemma listRegular_ok d : (listRegular d).2 = (walk [] (Dir d None)).2.
Proof. unfold listRegular, walk_root. by destruct (walk [] _). Qed.

Lemma sums_lookup d files rel :
  (list_to_map ((λ r, (r, sum_of d r)) <$> files) : gmap str str) !! rel =
  if bool_decide (rel ∈ files) then Some (sum_of d rel) else None.
Proof.
  induction files as [|x files IH]; [done|]. rewrite fmap_cons, list_to_map_cons.
  destruct (decide (rel = x)) as [->|Hne].
  { by rewrite lookup_insert_eq, bool_decide_eq_true_2 by left. }
  rewrite lookup_insert_ne, IH by done. do 2 case_bool_decide; set_solver.
Qed.

(** What [digests] holds. *)
Lemma digests_spec d m :
  digests d = Some m ↔
  ∃ files, listRegular d = (files, None) ∧
    (∀ rel, rel ∈ files → hashFile d rel = inl (sum_of d rel)) ∧
    ∀ rel, m !! rel = if bool_decide (rel ∈ files) then Some (sum_of d rel) else None.
Proof.
  unfold digests. destruct (listRegular d) as [files [err|]]; [naive_solver|].
  trans ((∀ rel, rel ∈ files → hashFile d rel = inl (sum_of d rel)) ∧
    ∀ rel, m !! rel = if bool_decide (rel ∈ files) then Some (sum_of d rel) else None); [|naive_solver].
  revert m. induction files as [|rel files IH]; intros m.
  { simpl. split.
    - intros [= <-]. split; [by intros ? []%not_elem_of_nil|]. intros rel. by rewrite lookup_empty.
    - intros [_ H]. f_equal. symmetry. apply map_empty. intros rel. by rewrite H. }
  simpl. destruct (hashFile d rel) as [sum|err] eqn:Hh; simpl.
  2:{ split; [done|]. intros [H _]. specialize (H rel (list_elem_of_here _ _)). congruence. }
  pose proof (hashFile_some _ _ _ Hh) as Hsum.
  destruct (mapM _ files) as [l|]; simpl in *.
  - destruct (proj1 (IH _) eq_refl) as [H1 H2]. split.
    + intros [= <-]. split.
      * intros r [->|Hr]%elem_of_cons; [congruence|auto].
      * intros r. destruct (decide (r = rel)) as [->|Hne].
        { rewrite lookup_insert_eq, bool_decide_eq_true_2 by left. by f_equal. }
        rewrite lookup_insert_ne, H2 by done. do 2 case_bool_decide; set_solver.
    + intros [_ Hm]. f_equal. apply map_eq. intros r. rewrite Hm.
      destruct (decide (r = rel)) as [->|Hne].
      { rewrite lookup_insert_eq, bool_decide_eq_true_2 by left. by f_equal. }
      rewrite lookup_insert_ne, H2 by done. do 2 case_bool_decide; set_solver.
  - split; [done|]. intros [H _]. exfalso.
    enough (@None (gmap str str) = Some (list_to_map ((λ r, (r, sum_of d r)) <$> files))) by done.
    apply IH. split; [intros r Hr; apply H; by right|]. intros r. apply sums_lookup.
Qed.

Lemma digests_total d files :
  listRegular d = (files, None) → (∀ rel, rel ∈ files → hashFile d rel = inl (sum_of d rel)) →
  ∃ m, digests d = Some m ∧
    ∀ rel, m !! rel = if bool_decide (rel ∈ files) then Some (sum_of d rel) else None.
Proof.
  intros Hl Hall. exists (list_to_map ((λ r, (r, sum_of d r)) <$> files)).
  split; [|intros rel; apply sums_lookup]. apply digests_spec. exists files.
  split; [done|]. split; [done|]. intros rel. apply sums_lookup.
Qed.

Lemma same_digests d d'' files :
  wf d → wf d'' → listRegular d = (files, None) →
  (∀ rel, rel ∈ files → hashFile d rel = inl (sum_of d rel)) →
  (∀ rel, rel ∈ files → hashFile d'' rel = inl (sum_of d rel)) ∧
    (∃ present, listRegular d'' = (present, None) ∧ ∀ rel, rel ∈ present → rel ∈ files) ↔
  digests d'' = digests d.
Proof.
  intros Hwf Hwf'' Hl Hall. destruct (digests_total d files Hl Hall) as (m & -> & Hlk).
  rewrite digests_spec. split.
  - intros (Hh & present & Hp & Hin). exists present.
    assert (∀ rel, rel ∈ files ↔ rel ∈ present) as Hiff.
    { intros rel. split; [|auto]. intros Hr. apply (listRegular_spec _ _ Hwf'' Hp).
      split; [by apply (listRegular_spec _ _ Hwf Hl) in Hr as [? _]|].
      apply Hh, hashFile_inl in Hr as (b & -> & _). eauto. }
    assert (∀ rel, rel ∈ files → sum_of d'' rel = sum_of d rel) as Hsum.
    { intros rel Hr. by apply hashFile_some, Hh. }
    split; [done|]. split.
    + intros rel Hr%Hiff. by rewrite Hsum, Hh.
    + intros rel. rewrite Hlk. specialize (Hiff rel). specialize (Hsum rel).
      do 2 case_bool_decide; naive_solver congruence.
  - intros (present & Hp & Hh & Hlk').
    assert (∀ rel, (rel ∈ present ↔ rel ∈ files) ∧ (rel ∈ files → sum_of d'' rel = sum_of d rel)) as Heq.
    { intros rel. specialize (Hlk rel). rewrite Hlk' in Hlk. do 2 case_bool_decide; naive_solver. }
    split.
    + intros rel Hr. destruct (Heq rel) as [Hiff Hsum]. rewrite <-Hsum by done. by apply Hh, Hiff.
    + exists present. split; [done|]. intros rel. apply Heq.
Qed.

(** [verifyDir] over the seal of [d], for any directory. *)
Lemma verify_seal d d' files :
  Forall (sealed_path d) files → Forall (λ rel, storable rel = true) files →
  readSums d' = ReadBytes (text (sealed_line d <$> files)) →
  verifyDir d' = inl [] ↔
  (∀ rel, rel ∈ files → hashFile d' rel = inl (sum_of d rel)) ∧
  ∃ present, listRegular d' = (present, None) ∧ ∀ rel, rel ∈ present → rel ∈ files.
Proof.
  intros Hp Hs Hr. unfold verifyDir. rewrite Hr, scan_text.
  2:{ apply Forall_fmap. eapply Forall_impl; [exact (List.Forall_and Hp Hs)|].
      intros rel [(p & b & -> & Hne & Hv & Hb) Hst]. simpl. unfold sealed_line. rewrite Hb.
      apply sealed_line_plain; [|exact Hst]. intros E.
      pose proof (Split_path p Hne Hv) as E'. rewrite E in E'. simpl in E'. subst p.
      by apply Forall_inv in Hv. }
  destruct (verify_sealed_lines d d' files (λ i, Z.of_nat i + 1)%Z Hp) as [H1 H2].
  unfold verify_lines. rewrite H1. destruct (listRegular d') as [present err].
  trans (mjoin (imap (λ i line, verify_line d' (Z.of_nat i + 1) line) (sealed_line d <$> files)).*1 = [] ∧
    err = None ∧ ∀ rel, rel ∈ present → rel ∈ files).
  - split.
    + intros [= [Ha [He Ho]%app_nil]%app_nil]. split; [exact Ha|]. split; [by destruct err|].
      intros rel Hin. apply (proj1 (omap_nil _ _) Ho) in Hin. by case_bool_decide.
    + intros (Ha & -> & Hin). rewrite Ha. f_equal. simpl. apply omap_nil.
      intros rel Hrel. by rewrite bool_decide_eq_true_2 by auto.
  - rewrite H2. split; [intros (? & -> & ?)|intros (? & ? & [= -> ->] & ?)]; eauto.
Qed.

Lemma sealDir_ok d d' :
  sealDir None d = (d', None) →
  ∃ files b, listRegular d = (files, None) ∧ sum_lines d files = inl b ∧
    (∀ children err, child sumsFile d ≠ Some (Dir children err)) ∧
    d' = set_child sumsFile (File (inl b)) d.
Proof.
  unfold sealDir. destruct (listRegular d) as [files [err|]]; [done|].
  destruct (sum_lines d files) as [b|err] eqn:Hs; [|done].
  destruct (child sumsFile d) as [[]|] eqn:Hc; intros [= <-]; exists files, b; naive_solver.
Qed.

(** The files of the sealed directory are those of the directory before. *)
Lemma find_sealed d b rel :
  wf d → exempt rel = false → (∀ children err, child sumsFile d ≠ Some (Dir children err)) →
  find (set_child sumsFile (File (inl b)) d) (Split rel slash) = find d (Split rel slash).
Proof.
  intros Hwf Hx Hdir. set (d' := set_child _ _ _).
  assert (∀ n, child n d' = if String.eqb n sumsFile then Some (File (inl b)) else child n d) as Hc.
  { intros n. by apply child_set_child. }
  pose proof (Join_Split rel slash) as Hj.
  destruct (Split rel slash) as [|n [|m p]] eqn:E; [done| |].
  - simpl in Hj. subst n. unfold find. rewrite Hc.
    unfold exempt in Hx. apply orb_false_iff in Hx as [-> _]. done.
  - change (match child n d' with Some (Dir children _) => find children (m :: p) | _ => None end =
      match child n d with Some (Dir children _) => find children (m :: p) | _ => None end).
    rewrite Hc. destruct (String.eqb_spec n sumsFile) as [->|]; [|done].
    destruct (child sumsFile d) as [[]|] eqn:Hd; try done. exfalso. by eapply Hdir.
Qed.

(** Sealing changes none of the files it covers. *)
Lemma sealed_listing d d' :
  wf d → sealDir None d = (d', None) →
  (listRegular d').2 = None ∧ (∀ rel, rel ∈ (listRegular d').1 ↔ rel ∈ (listRegular d).1) ∧
  ∀ rel, exempt rel = false → find d' (Split rel slash) = find d (Split rel slash).
Proof.
  intros Hwf (files & b & Hl & Hs & Hdir & ->)%sealDir_ok.
  set (d' := set_child sumsFile (File (inl b)) d).
  assert (wf d') as Hwf' by by apply set_child_wf.
  assert (∀ rel, exempt rel = false → find d' (Split rel slash) = find d (Split rel slash)) as Hf
    by (intros rel Hx; by apply find_sealed).
  assert ((listRegular d').2 = None) as Hl'.
  { rewrite listRegular_ok. apply walk_ok_list. intros n e [[-> ->]|[_ Hin]]%set_child_elem; [done|].
    assert ((listRegular d).2 = None) as Hd by by rewrite Hl.
    rewrite listRegular_ok, walk_ok_list in Hd. auto. }
  split; [done|]. split; [|done].
  destruct (listRegular d') as [present err] eqn:E. simpl in Hl'. subst err. rewrite Hl. cbn [fst].
  intros rel. rewrite (listRegular_spec _ _ Hwf' E), (listRegular_spec _ _ Hwf Hl).
  split; intros [Hx Hb]; (split; [done|]); [by rewrite <-Hf|by rewrite Hf].
Qed.

Lemma digests_sealed d d' : wf d → sealDir None d = (d', None) → digests d' = digests d.
Proof.
  intros Hwf Hseal. destruct (sealed_listing d d' Hwf Hseal) as (Hl' & Hin & Hf).
  apply sealDir_ok in Hseal as (files & b & Hl & Hs & Hdir & Hd').
  apply sum_lines_text in Hs as [_ Hall].
  assert (wf d') as Hwf' by (rewrite Hd'; by apply set_child_wf).
  rewrite Hl in Hin. cbn [fst] in Hin.
  apply (same_digests d d' files Hwf Hwf' Hl Hall). split.
  - intros rel Hr. rewrite <-Hall by done. unfold hashFile.
    apply (listRegular_spec _ _ Hwf Hl) in Hr as [Hx _]. by rewrite Hf.
  - destruct (listRegular d') as [present err] eqn:E. simpl in Hl'. subst err.
    exists present. split; [done|]. intros rel Hr. by apply Hin.
Qed.

Lemma wf_empty : wf [].
Proof. apply wf_alt. split; [constructor|by intros ? ? ?%not_elem_of_nil]. Qed.

Lemma listed_names d files rel :
  wf d → listRegular d = (files, None) → rel ∈ files → Forall (λ n, valid_name n = true) (Split rel slash).
Proof.
  intros Hwf Hl Hr. apply (listRegular_spec _ _ Hwf Hl) in Hr as (_ & b & Hf). by apply (find_valid _ _ _ Hwf Hf).
Qed.

Lemma seal_judges d d' :
  wf d → (∀ rel, rel ∈ (listRegular d).1 → storable rel = true) → sealDir None d = (d', None) →
  ∀ d'', wf d'' → child sumsFile d'' = child sumsFile d' →
    (verifyDir d'' = inl [] ↔ digests d'' = digests d).
Proof.
  intros Hwf Hst Hseal. pose proof Hseal as (files & b & Hl & Hs & Hdir & Hd')%sealDir_ok.
  apply sum_lines_text in Hs as [-> Hall]. rewrite Hl in Hst. simpl in Hst.
  assert (child sumsFile d' = Some (File (inl (text (sealed_line d <$> files))))) as Hc.
  { rewrite Hd'. by rewrite child_set_child, String.eqb_refl. }
  assert (Forall (sealed_path d) files) as Hp.
  { apply Forall_forall. intros rel Hr. specialize (Hall rel Hr).
    apply hashFile_inl in Hall as (b & Hf & Hb).
    destruct (find_valid _ _ _ Hwf Hf) as [Hne Hv]. exists (Split rel slash), b.
    by rewrite Join_Split. }
  assert (Forall (λ rel, storable rel = true) files) as Hst' by by apply Forall_forall.
  intros d'' Hwf'' Hc''. rewrite Hc in Hc''.
  rewrite (verify_seal d d'' files Hp Hst') by (unfold readSums; by rewrite Hc'').
  by apply same_digests.
Qed.

Lemma sealed_verifies d d' :
  wf d → (∀ rel, rel ∈ (listRegular d).1 → storable rel = true) → sealDir None d = (d', None) →
  verifyDir d' = inl [].
Proof.
  intros Hwf Hst Hseal. apply (seal_judges d d' Hwf Hst Hseal); [|done|by apply digests_sealed].
  apply sealDir_ok in Hseal as (files & b & _ & _ & _ & ->). by apply set_child_wf.
Qed.

(** C38: What a seal is worth, when every file it covers has a name a line of SHA256SUMS can hold
    (no line break, no carriage return at its end, short enough for the scanner); it covers
    every file but SHA256SUMS itself and those whose path starts with .SHA256SUMS-.  A
    directory that was sealed verifies; and any directory that carries that seal verifies
    exactly when the files it covers are the sealed ones: the same paths, each with the
    sealed digest, all readable, and nothing in it that is neither a file nor a directory. *)
Theorem sealed_evidence (d d' : directory) :
  wf d → (∀ rel, rel ∈ (listRegular d).1 → storable rel = true) →
  sealDir None d = (d', None) →
  verifyDir d' = inl [] ∧
  ∀ d'', wf d'' → child sumsFile d'' = child sumsFile d' →
    (verifyDir d'' = inl [] ↔ digests d'' = digests d').
Proof.
  intros Hwf Hst Hseal. split; [by apply (sealed_verifies d)|].
  rewrite (digests_sealed d d' Hwf Hseal). by apply seal_judges.
Qed.

(** ** Concrete directories *)

(** What a bare-metal run files. *)
Definition example_dir : directory :=
  [("envelopes", Dir [("001-RunPhaseChanged.json", File (inl "{}"))] None);
   ("raw", Dir [("smoke.log", File (inl "tflops=12"))] None);
   ("run.json", File (inl "node"))].
Definition sealed_example : directory := (sealDir None example_dir).1.

Lemma sealed_evidence_witness : verifyDir sealed_example = inl [].
Proof.
  assert (wf example_dir) as Hwf.
  { assert (NoDup example_dir.*1) by (apply (bool_decide_unpack _); vm_compute; exact I).
    repeat first [apply I | split | apply NoDup_singleton]; assumption. }
  assert (sealDir None example_dir = (sealed_example, None)) as Hseal by (vm_compute; reflexivity).
  assert (∀ rel, rel ∈ (listRegular example_dir).1 → storable rel = true) as Hst.
  { apply Forall_forall. repeat constructor. }
  exact (proj1 (sealed_evidence example_dir sealed_example Hwf Hst Hseal)).
Defined.

(** A directory named like a sealing temp file is not looked into: a file added there after
    the run goes unnoticed. *)
Lemma temp_names_pass :
  verifyDir (set_child ".SHA256SUMS-x" (Dir [("payload", File (inl "added later"))] None) sealed_example)
  = inl [].
Proof. vm_compute. reflexivity. Qed.

(** A name with a line break in it can be sealed, and what was sealed then never verifies. *)
Lemma line_break_never_verifies :
  let '(d, err) := sealDir None [("a" +:+ newline +:+ "b", File (inl "x"))] in
  err = None ∧ ∃ problems, verifyDir d = inl problems ∧ length problems = 3%nat.
Proof. vm_compute. eauto. Qed.

(** A line the scanner has no room for ends the scan, and nothing says so: what is listed
    behind it is not verified. *)
Lemma scan_error_passes :
  verifyDir [(sumsFile, File (inl (String.concat "" (replicate maxScanToken "x"))))] = inl [].
Proof. vm_compute. reflexivity. Qed.
