(* ===== verification/GoRegexp.v ===== *)
(** * The Go standard library's regexp

    Perl syntax over byte strings, matched the way package regexp answers: the leftmost
    match, and of those the one a backtracking matcher finds first.  Every class of the
    program's patterns is ASCII and every pattern consumes something, so bytes stand for
    runes and [FindAll] never meets an empty match.  Case folding is ASCII. *)

From S2P Require Import Prelude GoStrings.
From Stdlib Require Import Ascii.
Open Scope stdpp_scope.

(** ** Patterns *)
Inductive re :=
  | Chr (p : ascii → bool)
  | Eps
  | Seq (a b : re)
  | Alt (a b : re)
  | Rep (a : re) (lo : nat) (hi : option nat)  (* greedy; [None] is unbounded *)
  | Group (a : re)                             (* the one submatch that is asked for *)
  | WordB                                      (* \b *)
  | BeginText | EndText | BeginLine | EndLine.

(** A place in a text: how far in, the byte before it, what is left, and the submatch. *)
Record place := At {
  at_pos : nat;
  at_prev : option ascii;
  at_rest : str;
  at_group : option (nat * nat);
}.

Definition step (c : ascii) (rest : str) (s : place) : place :=
  At (S (at_pos s)) (Some c) rest (at_group s).

Definition grouped (from : nat) (s : place) : place :=
  At (at_pos s) (at_prev s) (at_rest s) (Some (from, at_pos s)).

Definition first (s : str) : option ascii :=
  match s with String c _ => Some c | EmptyString => None end.

Definition is_word (c : option ascii) : bool :=
  match c with
  | Some c => is_lower c || is_upper c || is_digit c || Ascii.eqb c "_"
  | None => false
  end.

Definition is_newline (c : ascii) : bool := Ascii.eqb c (chr 10).

(** The empty-width assertions. *)
Definition holds (r : re) (s : place) : bool :=
  match r with
  | WordB => xorb (is_word (at_prev s)) (is_word (first (at_rest s)))
  | BeginText => match at_prev s with None => true | Some _ => false end
  | EndText => String.eqb (at_rest s) ""
  | BeginLine => match at_prev s with None => true | Some c => is_newline c end
  | EndLine => match first (at_rest s) with None => true | Some c => is_newline c end
  | _ => true
  end.

(** ** Matching *)

(** At most [n] more times, as many as there can be; an iteration that consumes nothing
    ends the loop. *)
Fixpoint at_most (m : (place → option place) → place → option place)
    (n : nat) (k : place → option place) (s : place) : option place :=
  match n with
  | O => k s
  | S n =>
      match m (λ s', if (at_pos s <? at_pos s')%nat then at_most m n k s' else None) s with
      | Some x => Some x
      | None => k s
      end
  end.

Fixpoint exactly (m : (place → option place) → place → option place)
    (n : nat) (k : place → option place) (s : place) : option place :=
  match n with
  | O => k s
  | S n => m (exactly m n k) s
  end.

(** [k] is what has to match behind the pattern. *)
Fixpoint matches (r : re) (k : place → option place) (s : place) : option place :=
  match r with
  | Chr p =>
      match at_rest s with
      | String c rest => if p c then k (step c rest s) else None
      | EmptyString => None
      end
  | Eps => k s
  | Seq a b => matches a (matches b k) s
  | Alt a b => match matches a k s with Some x => Some x | None => matches b k s end
  | Rep a lo hi =>
      exactly (matches a) lo
        (λ s, at_most (matches a)
                (match hi with Some hi => hi - lo | None => String.length (at_rest s) end)%nat k s) s
  | Group a => matches a (λ s', k (grouped (at_pos s) s')) s
  | _ => if holds r s then k s else None
  end.

(** A match: where it starts and ends, and its submatch. *)
Record found := MkFound { fd_start : nat; fd_end : nat; fd_group : option (nat * nat) }.

Definition match_here (r : re) (pos : nat) (prev : option ascii) (rest : str) : option place :=
  matches r Some (At pos prev rest None).

(** [FindAllStringSubmatchIndex(str, -1)] *)
Fixpoint find_all_go (r : re) (fuel pos : nat) (prev : option ascii) (rest : str) : list found :=
  match fuel with
  | O => []
  | S fuel =>
      match match_here r pos prev rest with
      | Some s => MkFound pos (at_pos s) (at_group s) :: find_all_go r fuel (at_pos s) (at_prev s) (at_rest s)
      | None =>
          match rest with
          | String c rest => find_all_go r fuel (S pos) (Some c) rest
          | EmptyString => []
          end
      end
  end.

Definition FindAll (r : re) (s : str) : list found := find_all_go r (S (String.length s)) 0 None s.

(** [MatchString] *)
Fixpoint match_from (r : re) (pos : nat) (prev : option ascii) (rest : str) : bool :=
  match match_here r pos prev rest, rest with
  | Some _, _ => true
  | None, String c rest => match_from r (S pos) (Some c) rest
  | None, EmptyString => false
  end.

Definition MatchString (r : re) (s : str) : bool := match_from r 0 None s.

(** ** Writing patterns *)
Definition one (c : ascii) : re := Chr (Ascii.eqb c).
Definition fold_case (c : ascii) : re := Chr (λ d, Ascii.eqb (lower_char d) (lower_char c)).

Definition lit_with (f : ascii → re) : str → re :=
  fix go s := match s with
              | EmptyString => Eps
              | String c EmptyString => f c
              | String c s => Seq (f c) (go s)
              end.
Definition lit : str → re := lit_with one.
Definition lit_fold : str → re := lit_with fold_case.

Fixpoint alts (l : list re) : re :=
  match l with [] => Chr (λ _, false) | [r] => r | r :: l => Alt r (alts l) end.
Fixpoint seqs (l : list re) : re :=
  match l with [] => Eps | [r] => r | r :: l => Seq r (seqs l) end.

Definition star (r : re) : re := Rep r 0 None.
Definition plus (r : re) : re := Rep r 1 None.
Definition opt (r : re) : re := Rep r 0 (Some 1%nat).
Definition times (n : nat) (r : re) : re := Rep r n (Some n).

(** One of the bytes of [s], or of a class. *)
Definition any_of (s : str) (c : ascii) : bool := any_char (Ascii.eqb c) s.
Definition alpha (c : ascii) : bool := is_lower c || is_upper c.
Definition alnum (c : ascii) : bool := alpha c || is_digit c.
Definition hex_char (c : ascii) : bool := is_digit c || in_range "a" "f" c || in_range "A" "F" c.
(** [\s]: tab, newline, form feed, carriage return, space. *)
Definition re_space (c : ascii) : bool :=
  existsb (λ n, (byte_of c =? n)%Z) [9; 10; 12; 13; 32]%Z.

(** ** What a match is *)

(** The least number of bytes a pattern consumes. *)
Fixpoint width (r : re) : nat :=
  match r with
  | Chr _ => 1
  | Seq a b => width a + width b
  | Alt a b => Nat.min (width a) (width b)
  | Rep a lo _ => lo * width a
  | Group a => width a
  | _ => 0
  end%nat.

(** Every submatch of a pattern is at least [g] bytes long. *)
Fixpoint submatches (g : nat) (r : re) : bool :=
  match r with
  | Seq a b | Alt a b => submatches g a && submatches g b
  | Rep a _ _ => submatches g a
  | Group a => (g <=? width a)%nat && submatches g a
  | _ => true
  end.

(** A submatch of [g] bytes or more between two positions. *)
Definition submatch_in (g lo hi : nat) (x : option (nat * nat)) : Prop :=
  ∃ a b, x = Some (a, b) ∧ (lo <= a)%nat ∧ (a + g <= b)%nat ∧ (b <= hi)%nat.

(** [s'] is [s] with [n] more bytes read. *)
Definition reads (g n : nat) (s s' : place) : Prop :=
  at_pos s' = (at_pos s + n)%nat ∧ (n <= String.length (at_rest s))%nat ∧
  at_rest s' = drop n (at_rest s) ∧
  (at_group s' = at_group s ∨ submatch_in g (at_pos s) (at_pos s') (at_group s')).

Lemma drop_drop n m s : drop n (drop m s) = drop (m + n) s.
Proof.
  revert s. induction m as [|m IH]; intros s; [done|]. destruct s; simpl; [by destruct n|]. apply IH.
Qed.

Lemma reads_refl g s : reads g 0 s s.
Proof. unfold reads. split_and!; try lia; [done|by left]. Qed.

Lemma reads_trans g n m s t u : reads g n s t → reads g m t u → reads g (n + m) s u.
Proof.
  intros (P1 & L1 & R1 & G1) (P2 & L2 & R2 & G2). rewrite R1, drop_length in L2.
  unfold reads, submatch_in in *. rewrite P2, P1, R2, R1, drop_drop. split_and!; try lia; [done|].
  destruct G2 as [->|(a & b & -> & ? & ? & ?)]; [|right; exists a, b; split_and!; [done|lia..]].
  destruct G1 as [->|(a & b & -> & ? & ? & ?)]; [by left|right; exists a, b; split_and!; [done|lia..]].
Qed.

Definition sound (g w : nat) (m : (place → option place) → place → option place) : Prop :=
  ∀ k s x, m k s = Some x → ∃ n s', (w <= n)%nat ∧ reads g n s s' ∧ k s' = Some x.

Lemma sound_skip g w s x (k : place → option place) :
  w = 0%nat → k s = Some x → ∃ n s', (w <= n)%nat ∧ reads g n s s' ∧ k s' = Some x.
Proof. intros -> H. exists 0%nat, s. split; [lia|]. by split; [apply reads_refl|]. Qed.

Lemma exactly_sound g w m n : sound g w m → sound g (n * w) (λ k, exactly m n k).
Proof.
  intros Hm. induction n as [|n IH]; intros k s x; simpl; [by apply sound_skip|].
  intros (i & t & Hi & Ht & H)%Hm. apply IH in H as (j & u & Hj & Hu & H).
  exists (i + j)%nat, u. split; [lia|]. split; [by eapply reads_trans|done].
Qed.

Lemma at_most_sound g w m n : sound g w m → sound g 0 (λ k, at_most m n k).
Proof.
  intros Hm. induction n as [|n IH]; intros k s x; simpl; [by apply sound_skip|].
  destruct (m _ s) as [y|] eqn:E; intros H; [|by apply sound_skip].
  simplify_eq. apply Hm in E as (i & t & _ & Ht & E). destruct (_ <? _)%nat; [|done].
  apply IH in E as (j & u & _ & Hu & E). exists (i + j)%nat, u.
  split; [lia|]. split; [by eapply reads_trans|done].
Qed.

Lemma matches_sound g r : submatches g r = true → sound g (width r) (matches r).
Proof.
  induction r as [p| |a IHa b IHb|a IHa b IHb|a IHa lo hi|a IHa| | | | | ]; intros Hg k s x H;
    cbn [matches width submatches] in *; rewrite ?andb_true_iff in Hg.
  1: { destruct (at_rest s) as [|c rest] eqn:E; [done|]. destruct (p c); [|done].
       exists 1%nat, (step c rest s). split; [done|]. split; [|done].
       unfold reads, step. simpl. rewrite E. simpl.
       split_and!; [lia|lia|by destruct rest|by left]. }
  2: { apply IHa in H as (i & t & Hi & Ht & H); [|apply Hg].
       apply IHb in H as (j & u & Hj & Hu & H); [|apply Hg].
       exists (i + j)%nat, u. split; [lia|]. split; [by eapply reads_trans|done]. }
  2: { destruct (matches a k s) as [y|] eqn:E.
       - simplify_eq. apply IHa in E as (i & t & Hi & ?); [|apply Hg]. exists i, t. split; [lia|done].
       - apply IHb in H as (i & t & Hi & ?); [|apply Hg]. exists i, t. split; [lia|done]. }
  2: { apply (exactly_sound _ _ _ _ (IHa Hg)) in H as (i & t & Hi & Ht & H).
       apply (at_most_sound _ _ _ _ (IHa Hg)) in H as (j & u & _ & Hu & H).
       exists (i + j)%nat, u. split; [lia|]. split; [by eapply reads_trans|done]. }
  2: { destruct Hg as [Hw%Nat.leb_le Hg].
       apply (IHa Hg) in H as (i & t & Hi & (P & L & R & G) & H). exists i, (grouped (at_pos s) t).
       split; [done|]. split; [|done]. unfold reads, grouped. simpl. split_and!; try done.
       right. exists (at_pos s), (at_pos t). split_and!; [done|lia..]. }
  all: first [destruct (holds _ s); [|done]|idtac]; by apply sound_skip.
Qed.

Lemma match_here_reads g r pos prev rest t :
  submatches g r = true → match_here r pos prev rest = Some t →
  ∃ n, (width r <= n)%nat ∧ reads g n (At pos prev rest None) t.
Proof. intros Hg (n & s' & Hn & Hs & [= ->])%(matches_sound g r Hg). eauto. Qed.

Lemma submatches_0 r : submatches 0 r = true.
Proof. induction r; simpl; rewrite ?IHr1, ?IHr2; done. Qed.

(** A match lies in the text, is no shorter than the pattern, and holds its submatch. *)
Definition span_in (len w g : nat) (f : found) : Prop :=
  (fd_start f + w <= fd_end f)%nat ∧ (fd_end f <= len)%nat ∧
  (fd_group f = None ∨ submatch_in g (fd_start f) (fd_end f) (fd_group f)).

Lemma find_all_go_spans g r fuel pos prev rest f :
  submatches g r = true →
  f ∈ find_all_go r fuel pos prev rest → span_in (pos + String.length rest) (width r) g f.
Proof.
  intros Hg. revert pos prev rest. induction fuel as [|fuel IH]; intros pos prev rest; simpl.
  { by intros []%not_elem_of_nil. }
  destruct (match_here r pos prev rest) as [t|] eqn:E.
  - apply (match_here_reads g) in E as (n & Hn & P & L & R & G); [|done]. simpl in *.
    intros [->|H]%elem_of_cons.
    + unfold span_in. simpl. split; [lia|]. split; [lia|done].
    + apply IH in H. rewrite R, drop_length in H.
      replace (pos + String.length rest)%nat with (at_pos t + (String.length rest - n))%nat by lia.
      exact H.
  - destruct rest as [|c rest]; [by intros []%not_elem_of_nil|]. intros H%IH. simpl in *.
    by rewrite Nat.add_succ_r.
Qed.

Lemma FindAll_spans g r s f :
  submatches g r = true → f ∈ FindAll r s → span_in (String.length s) (width r) g f.
Proof. apply (find_all_go_spans g r _ 0 None s). Qed.

(** The fuel of [FindAll] is enough: more of it finds nothing more. *)
Lemma find_all_go_fuel r fuel pos prev rest :
  (0 < width r)%nat → (String.length rest < fuel)%nat →
  find_all_go r (S fuel) pos prev rest = find_all_go r fuel pos prev rest.
Proof.
  intros Hw. revert pos prev rest. induction fuel as [|fuel IH]; intros pos prev rest Hf; [lia|].
  change (find_all_go r (S (S fuel)) pos prev rest) with
    (match match_here r pos prev rest with
     | Some s => MkFound pos (at_pos s) (at_group s) ::
                 find_all_go r (S fuel) (at_pos s) (at_prev s) (at_rest s)
     | None => match rest with
               | String c rest => find_all_go r (S fuel) (S pos) (Some c) rest
               | EmptyString => []
               end
     end).
  cbn [find_all_go]. destruct (match_here r pos prev rest) as [t|] eqn:E.
  - f_equal. apply (match_here_reads 0) in E as (n & Hn & P & L & R & G); [|apply submatches_0].
    simpl in *. apply IH. rewrite R, drop_length. lia.
  - destruct rest as [|c rest]; [done|]. apply IH. simpl in Hf. lia.
Qed.

(** *** Against Go *)

(** [\b(?:\d{1,3}\.){3}\d{1,3}\b] *)
Definition dotted_quad : re :=
  seqs [WordB; times 3 (Seq (Rep (Chr is_digit) 1 (Some 3%nat)) (one ".")); Rep (Chr is_digit) 1 (Some 3%nat); WordB].

Example finds_dotted_quads :
  (λ f, (fd_start f, fd_end f)) <$> FindAll dotted_quad "a 10.0.0.1 b 1.2.3 c 8.8.8.8, 1.2.3.4567" =
  [(2, 10); (21, 28)]%nat.
Proof. vm_compute. reflexivity. Qed.
