(* ===== verification/GoNet.v ===== *)
(** * The Go standard library's IP addresses

    [net.ParseIP], [IP.String], [IP.To4] and the tests of package net the program uses,
    over the 16 bytes of an [IP]; an IPv4 address is one behind the prefix ::ffff:0:0. *)

From S2P Require Import Prelude GoStrings GoFloat.
From Stdlib Require Import Ascii.
Open Scope stdpp_scope.

Abbreviation ip := (list Z).

(** ** Parsing (net/netip) *)

(** [parseIPv4Fields]: the fields closed so far, the one being read with its digits. *)
Fixpoint ipv4_fields (s : str) (fields : list Z) (val : Z) (digits : nat) : option (list Z) :=
  match s with
  | EmptyString => if (digits =? 0)%nat then None else Some (fields ++ [val])
  | String c s =>
      if is_digit c then
        if (digits =? 1)%nat && (val =? 0)%Z then None
        else
          let val := (val * 10 + (byte_of c - 48))%Z in
          if (255 <? val)%Z then None else ipv4_fields s fields val (S digits)
      else if Ascii.eqb c "." then
        if (digits =? 0)%nat || (length fields =? 3)%nat then None
        else ipv4_fields s (fields ++ [val]) 0 0
      else None
  end.

Definition parseIPv4 (s : str) : option (list Z) :=
  fields ← ipv4_fields s [] 0 0;
  if (length fields =? 4)%nat then Some fields else None.

Definition v4_prefix : list Z := replicate 10 0%Z ++ [255; 255]%Z.

(** The hexadecimal digits a group starts with, and what follows. *)
Fixpoint hex_group (s : str) : str * str :=
  match s with
  | String c s' =>
      match hex_val c with
      | Some _ => let '(g, rest) := hex_group s' in (String c g, rest)
      | None => ("", s)
      end
  | EmptyString => ("", "")
  end.

Fixpoint hex_num (acc : Z) (g : str) : Z :=
  match g with
  | String c g => hex_num (acc * 16 + default 0%Z (hex_val c)) g
  | EmptyString => acc
  end.

(** The groups of an IPv6 address: the bytes read, where the ellipsis is, what is left. *)
Fixpoint ipv6_groups (fuel : nat) (s : str) (bytes : list Z) (ellipsis : option nat)
    : option (list Z * option nat * str) :=
  match fuel with
  | O => Some (bytes, ellipsis, s)
  | S fuel =>
      let '(g, rest) := hex_group s in
      let n := String.length g in
      if (n =? 0)%nat || (4 <? n)%nat then None
      else
        match rest with
        | EmptyString => let v := hex_num 0 g in Some (bytes ++ [v / 256; v mod 256]%Z, ellipsis, "")
        | String c after =>
            if Ascii.eqb c "." then
              if (match ellipsis with None => negb (length bytes =? 12)%nat | Some _ => false end) ||
                 (16 <? length bytes + 4)%nat then None
              else (λ v4, (bytes ++ v4, ellipsis, "")) <$> parseIPv4 s
            else if negb (Ascii.eqb c ":") || String.eqb after "" then None
            else
              let v := hex_num 0 g in
              let bytes := bytes ++ [v / 256; v mod 256]%Z in
              if HasPrefix after ":" then
                match ellipsis with
                | Some _ => None
                | None =>
                    let after := drop 1 after in
                    if String.eqb after "" then Some (bytes, Some (length bytes), "")
                    else ipv6_groups fuel after bytes (Some (length bytes))
                end
              else ipv6_groups fuel after bytes ellipsis
        end
  end.

Definition parseIPv6 (s : str) : option ip :=
  if String.eqb s "::" then Some (replicate 16 0%Z)
  else
    let '(ellipsis, s) := if HasPrefix s "::" then (Some 0%nat, drop 2 s) else (None, s) in
    '(bytes, ellipsis, rest) ← ipv6_groups 8 s [] ellipsis;
    if negb (String.eqb rest "") then None
    else if (length bytes <? 16)%nat then
      e ← ellipsis;
      Some (firstn e bytes ++ replicate (16 - length bytes) 0%Z ++ skipn e bytes)
    else match ellipsis with Some _ => None | None => Some bytes end.

(** [net.ParseIP]: which of the two forms, by the first byte that tells; no zones. *)
Fixpoint ip_form (s : str) : option ascii :=
  match s with
  | EmptyString => None
  | String c s =>
      if Ascii.eqb c "." || Ascii.eqb c ":" || Ascii.eqb c "%" then Some c else ip_form s
  end.

Definition ParseIP (s : str) : option ip :=
  match ip_form s with
  | Some "."%char => (λ v4, v4_prefix ++ v4) <$> parseIPv4 s
  | Some ":"%char => if any_char (Ascii.eqb "%") s then None else parseIPv6 s
  | _ => None
  end.

(** ** Tests *)
Definition To4 (x : ip) : option (list Z) :=
  if bool_decide (firstn 12 x = v4_prefix) then Some (skipn 12 x) else None.

Definition is_zero (x : ip) : bool := forallb (Z.eqb 0) x.

Definition IsLoopback (x : ip) : bool :=
  match To4 x with
  | Some v4 => bool_decide (nth 0 v4 0%Z = 127%Z)
  | None => bool_decide (x = replicate 15 0 ++ [1])%Z
  end.

Definition IsUnspecified (x : ip) : bool :=
  match To4 x with Some v4 => is_zero v4 | None => is_zero x end.

(** [IPNet.Contains]: an address of the network's family whose first [bits] are the network's. *)
Definition prefix_of (bits : Z) (net x : list Z) : bool :=
  let value := foldl (λ acc b, acc * 256 + b)%Z 0%Z in
  let low := (8 * Z.of_nat (length x) - bits)%Z in
  (length net =? length x)%nat && (Z.shiftr (value net) low =? Z.shiftr (value x) low)%Z.

Definition Contains_net (net : list Z * Z) (x : ip) : bool :=
  prefix_of net.2 net.1 (default x (To4 x)).

(** ** Printing *)
Fixpoint hex_digits (fuel : nat) (v : Z) : str :=
  match fuel with
  | O => ""
  | S fuel => (if (v <? 16)%Z then "" else hex_digits fuel (v / 16)) +:+ String (hex_digit (v mod 16)) ""
  end.

(** [%x] of a number that is not negative. *)
Definition show_hex (v : Z) : str := hex_digits (S (Z.to_nat (Z.log2 v))) v.

Fixpoint groups (x : ip) : list Z :=
  match x with a :: b :: x => (a * 256 + b)%Z :: groups x | _ => [] end.

(** The length of the run of zero groups at the head of a list. *)
Fixpoint zero_run (l : list Z) : nat :=
  match l with 0%Z :: l => S (zero_run l) | _ => O end.

(** The leftmost of the longest runs of two zero groups or more. *)
Fixpoint longest_zeros (i : nat) (l : list Z) (best : option (nat * nat)) : option (nat * nat) :=
  match l with
  | [] => best
  | _ :: rest =>
      let n := zero_run l in
      let better := match best with Some (_, m) => (m <? n)%nat | None => (2 <=? n)%nat end in
      longest_zeros (S i) rest (if better then Some (i, n) else best)
  end.

Definition show_groups (l : list Z) : str := Join (show_hex <$> l) ":".

Definition IP_String (x : ip) : str :=
  match To4 x with
  | Some v4 => Join (Itoa <$> v4) "."
  | None =>
      let l := groups x in
      match longest_zeros 0 l None with
      | Some (i, n) => show_groups (firstn i l) +:+ "::" +:+ show_groups (skipn (i + n) l)
      | None => show_groups l
      end
  end.

(** ** Against Go *)
Example parses_and_prints :
  (λ s, IP_String <$> ParseIP s) <$>
    ["10.0.0.1"; "010.0.0.1"; "1.2.3"; "256.1.1.1"; "1.2.3.4.5"; "::1"; "::"; "fe80:0000:0000:0000:5ebb:f6ff:fe12:3456";
     "2001:db8::1:0:0:1"; "::ffff:1.2.3.4"; "1:2:3:4:5:6:7:8"; "1:2:3:4:5:6:7::"; "1:2:3:4:5:6:7:8::"; "1::2::3";
     "1:2:3:4:5:6:7"; ":1"; "1:"; "fe80::1%eth0"; "12345::"; "0:0:1::"; "2001:db8::10000"] =
  [Some "10.0.0.1"; None; None; None; None; Some "::1"; Some "::"; Some "fe80::5ebb:f6ff:fe12:3456";
   Some "2001:db8::1:0:0:1"; Some "1.2.3.4"; Some "1:2:3:4:5:6:7:8"; Some "1:2:3:4:5:6:7:0"; None; None;
   None; None; None; None; None; Some "0:0:1::"; None].
Proof. vm_compute. reflexivity. Qed.
