(* ===== verification/Detect.v ===== *)
(** * pkg/sanitize: what identifies a machine in a text

    The rules of rules.go as patterns of GoRegexp, and the detector of sanitize.go that
    resolves their overlapping findings into spans ([detect]).  A range over an inventory
    takes the order of [RangeOrder]; [math.Log2] is a parameter. *)

From Stdlib Require Import Ascii.
From S2P Require Import Prelude GoStrings GoFloat GoSha256 GoRegexp GoNet.
Open Scope stdpp_scope.

(** ** rules.go *)
Inductive Category :=
  | CatSerial | CatUsername | CatWifiSSID | CatEnvDump | CatSecret | CatMachineID | CatUUID
  | CatMAC | CatRDMAGUID | CatSSHFingerprint | CatSSHHostKey | CatIPv6Local | CatIPv4Private
  | CatIPv4Public | CatIPv6Public | CatHostname
  | CatKeep.

Global Instance Category_eq_dec : EqDecision Category.
Proof. solve_decision. Defined.

Definition Category_string (c : Category) : str :=
  match c with
  | CatSerial => "serial" | CatUsername => "username" | CatWifiSSID => "wifi_ssid"
  | CatEnvDump => "env_dump" | CatSecret => "secret" | CatMachineID => "machine_id"
  | CatUUID => "uuid" | CatMAC => "mac" | CatRDMAGUID => "rdma_guid"
  | CatSSHFingerprint => "ssh_fingerprint" | CatSSHHostKey => "ssh_host_key"
  | CatIPv6Local => "ipv6_link_local_or_ula" | CatIPv4Private => "ipv4_private"
  | CatIPv4Public => "ipv4_public" | CatIPv6Public => "ipv6_public" | CatHostname => "hostname"
  | CatKeep => ""
  end.

(** The namespace of a category's pseudonyms; a category that has none reads as [""]. *)
Definition prefixes (c : Category) : str :=
  match c with
  | CatSerial => "serial" | CatUsername => "user" | CatWifiSSID => "ssid" | CatMachineID => "mid"
  | CatUUID => "uuid" | CatMAC => "mac" | CatRDMAGUID => "guid" | CatSSHFingerprint => "ssh"
  | CatSSHHostKey => "ssh" | CatHostname => "host"
  | _ => ""
  end.

Definition maskEnv : str := "<REDACTED-ENV>".
Definition maskSecret : str := "<REDACTED-SECRET>".

(** *** Rules on keys *)
Definition whole (r : re) : re := seqs [BeginText; r; EndText].
Definition keySerial : re := lit_fold "serial".
Definition keyUsername : re := whole (alts (lit_fold <$> ["user"; "username"; "operator"; "promoter"])).
Definition keySSID : re :=
  seqs [Alt BeginText (Chr (λ c, negb (Ascii.eqb (lower_char c) "b"))); lit_fold "ssid"; EndText].
Definition keyEnv : re := alts [whole (lit_fold "env"); lit_fold "environ"; lit_fold "environment_dump"].
Definition keySecret : re :=
  alts (lit_fold <$> ["authorization"; "token"; "api_key"; "secret"; "password"]).
Definition keyHostname : re :=
  Alt (Seq (alts (lit_fold <$> ["hostname"; "fqdn"; "nodename"])) EndText)
      (whole (alts (lit_fold <$> ["host"; "control_host"]))).

Definition envSafe : list str := ["PATH"; "LANG"; "TERM"; "PWD"; "SHELL"].

(** *** Rules on content *)
Definition base64_char (c : ascii) : bool := alnum c || any_of "+/" c.
Definition hex (n : nat) : re := times n (Chr hex_char).

Definition reHomePath : re :=
  seqs [lit "/"; alts [lit "home"; lit "Users"]; lit "/";
        Group (plus (Chr (λ c, negb (any_of (String dq "/'") c || re_space c))))].
Definition reAuthHeader : re :=
  seqs [BeginLine; lit_fold "Authorization:"; star (Chr (any_of (String (chr 9) " ")));
        Group (Seq (Chr (λ c, negb (re_space c))) (star (Chr (λ c, negb (is_newline c))))); EndLine].
Definition reMachineID : re := seqs [WordB; hex 32; WordB].
Definition reUUID : re :=
  seqs [WordB; opt (Seq (plus (Chr alpha)) (one "-")); hex 8; one "-"; hex 4; one "-"; hex 4; one "-";
        hex 4; one "-"; hex 12; WordB].
Definition reMAC : re := seqs [WordB; hex 2; times 5 (Seq (Chr (any_of ":-")) (hex 2)); WordB].
Definition reRDMAGUID : re := seqs [WordB; hex 4; one ":"; hex 4; one ":"; hex 4; one ":"; hex 4; WordB].
Definition reSSHFP : re := seqs [WordB; lit "SHA256:"; times 43 (Chr base64_char)].
Definition reSSHHostKey : re :=
  seqs [WordB; alts [lit "ssh-ed25519"; lit "ssh-rsa"; Seq (lit "ecdsa-sha2-") (plus (Chr (λ c, negb (re_space c))))];
        one " "; Rep (Chr base64_char) 40 None; Rep (one "=") 0 (Some 2%nat)].
Definition digits13 : re := Rep (Chr is_digit) 1 (Some 3%nat).
Definition reIPv4 : re := seqs [WordB; times 3 (Seq digits13 (one ".")); digits13; WordB].
Definition hex04 : re := Rep (Chr hex_char) 0 (Some 4%nat).
Definition reIPv6Candidate : re := Seq hex04 (Rep (Seq (one ":") hex04) 2 (Some 7%nat)).
Definition label_char (c : ascii) : bool := alnum c || Ascii.eqb c "-".
Definition tld : re := Rep (Chr alpha) 2 None.
Definition reHostname : re :=
  seqs [WordB;
        plus (seqs [Chr alnum; opt (Seq (Rep (Chr label_char) 0 (Some 61%nat)) (Chr alnum)); one "."]);
        tld; WordB].
Definition reRegistryRef : re :=
  seqs [WordB;
        Group (seqs [plus (Seq (plus (Chr label_char)) (one ".")); tld;
                     opt (Seq (one ":") (plus (Chr is_digit)));
                     plus (Seq (one "/") (plus (Chr (λ c, is_lower c || is_digit c || any_of "._-" c))))]);
        opt (Seq (one ":") (plus (Chr (λ c, alnum c || any_of "_.-" c))));
        opt (Seq (lit "@sha256:") (times 64 (Chr (λ c, is_digit c || in_range "a" "f" c))))].
Definition reEntropyRun : re := Rep (Chr (λ c, alnum c || any_of "+/=_-" c)) 24 None.

(** 3.5 *)
Definition entropyMinBitsPerChar : float64 := fdiv (float_of_Z 7) (float_of_Z 2).

Definition DefaultAllowDomains : list str :=
  ["nvcr.io"; "docker.io"; "ghcr.io"; "quay.io"; "gcr.io"; "public.ecr.aws";
   "pypi.org"; "pythonhosted.org"; "ubuntu.com"; "github.com";
   "k8s.io"; "kubernetes.io"; "nvidia.com"; "amd.com"; "glimmer.ai"].

Definition isLocalhost (h : str) : bool :=
  let h := ToLower h in String.eqb h "localhost" || String.eqb h "localhost.localdomain".

Definition domainAllowed (host : str) (allow : list str) : bool :=
  let host := ToLower (TrimSuffix host ".") in
  existsb (λ d, let d := ToLower d in String.eqb host d || HasSuffix host ("." +:+ d)) allow.

(** ** The sanitizer *)

(** What does not change once it is set up; its counts and pools are in [Sanitize]. *)
Record Sanitizer := MkSanitizer {
  sz_salt : str;
  sz_hosts : gmap str bool;
  sz_users : gmap str bool;
  sz_allow : list str;
}.

Definition AddHost (s : Sanitizer) (h : str) : Sanitizer :=
  let h := ToLower (TrimSpace h) in
  if (String.length h <? 2)%nat || isLocalhost h || domainAllowed h (sz_allow s) ||
     bool_decide (is_Some (ParseIP h))
  then s
  else MkSanitizer (sz_salt s) (<[h := true]> (sz_hosts s)) (sz_users s) (sz_allow s).

Definition add_user (users : gmap str bool) (u : str) : gmap str bool :=
  let u := TrimSpace u in
  if (2 <=? String.length u)%nat then <[ToLower u := true]> users else users.

(** [New], with the salt it was given or has drawn. *)
Definition New (hosts users : list str) (allow : option (list str)) (salt : str) : Sanitizer :=
  let s := foldl AddHost (MkSanitizer salt ∅ ∅ (default DefaultAllowDomains allow)) hosts in
  MkSanitizer (sz_salt s) (sz_hosts s) (foldl add_user ∅ users) (sz_allow s).

Definition pseudonym (s : Sanitizer) (cat : Category) (value : str) : str :=
  prefixes cat +:+ "-" +:+
  take 12 (hex_encode (HMAC256 (sz_salt s) (Category_string cat +:+ ":" +:+ value))).

(** ** Spans *)
Record span := MkSpan { sp_start : nat; sp_end : nat; sp_cat : Category; sp_inventory : bool }.

Definition slice (s : str) (a b : nat) : str := take (b - a) (drop a s).

Definition isTokenByte (c : ascii) : bool := Ascii.eqb c "_" || Ascii.eqb c "-" || alnum c.

(** The maximal runs of token bytes, with where they start. *)
Fixpoint tokens (i start : nat) (cur s : str) : list (nat * str) :=
  let flush := if String.eqb cur "" then [] else [(start, cur)] in
  match s with
  | EmptyString => flush
  | String c s =>
      if isTokenByte c
      then tokens (S i) (if String.eqb cur "" then i else start) (cur +:+ String c "") s
      else flush ++ tokens (S i) i "" s
  end.

(** Where [name] occurs in [tok] as a run bounded by dashes. *)
Definition byte_at (s : str) (i : nat) : option ascii := first (drop i s).
Definition is_dash (c : option ascii) : bool := bool_decide (c = Some "-"%char).

Definition bounded (name tok : str) (a : nat) : bool :=
  let b := (a + String.length name)%nat in
  HasPrefix (drop a tok) name &&
  ((a =? 0)%nat || is_dash (byte_at tok (a - 1))) &&
  ((b =? String.length tok)%nat || is_dash (byte_at tok b)).

Definition occurrences (name tok : str) : list nat :=
  List.filter (bounded name tok) (seq 0 (S (String.length tok - String.length name))).

Definition docV4 : list (list Z * Z) :=
  [([192; 0; 2; 0], 24); ([198; 51; 100; 0], 24); ([203; 0; 113; 0], 24)]%Z.
Definition docV6 : list Z * Z := ([32; 1; 13; 184] ++ replicate 12 0, 32)%Z.
Definition privV4 : list (list Z * Z) :=
  [([10; 0; 0; 0], 8); ([172; 16; 0; 0], 12); ([192; 168; 0; 0], 16); ([100; 64; 0; 0], 10);
   ([169; 254; 0; 0], 16)]%Z.
Definition localV6 : list (list Z * Z) :=
  [([254; 128] ++ replicate 14 0, 10); ([252] ++ replicate 15 0, 7)]%Z.

Definition inAny (x : ip) (nets : list (list Z * Z)) : bool := existsb (λ n, Contains_net n x) nets.

(** [strings.Contains(lit, ":")] *)
Definition has_colon (lit : str) : bool := any_char (Ascii.eqb ":") lit.

(** [None] is the source's [""]: exempt. *)
Definition classifyIP (lit : str) : option Category :=
  match ParseIP lit with
  | None => None
  | Some x =>
      if IsLoopback x || IsUnspecified x then None
      else
        match To4 x, has_colon lit with
        | Some v4, false =>
            if bool_decide (v4 = [255; 255; 255; 255]%Z) || inAny x docV4 then None
            else if inAny x privV4 then Some CatIPv4Private else Some CatIPv4Public
        | _, _ =>
            if Contains_net docV6 x then None
            else if inAny x localV6 then Some CatIPv6Local else Some CatIPv6Public
        end
  end.

(** Stable insertion: leftmost first, then longest first. *)
Definition span_less (a b : span) : bool :=
  if (sp_start a =? sp_start b)%nat
  then (sp_end b - sp_start b <? sp_end a - sp_start a)%nat
  else (sp_start a <? sp_start b)%nat.

Fixpoint insert_span (x : span) (l : list span) : list span :=
  match l with
  | [] => [x]
  | y :: l => if span_less y x then y :: insert_span x l else x :: y :: l
  end.

(** [sort.SliceStable] *)
Definition sort_spans (l : list span) : list span := foldr insert_span [] l.

Fixpoint choose (last : nat) (l : list span) : list span :=
  match l with
  | [] => []
  | c :: l => if (last <=? sp_start c)%nat then c :: choose (sp_end c) l else choose last l
  end.

Definition overlaps (a b : span) : bool :=
  (sp_start a <? sp_end b)%nat && (sp_start b <? sp_end a)%nat.
Definition contains (a b : span) : bool :=
  (sp_start a <=? sp_start b)%nat && (sp_end b <=? sp_end a)%nat.

Definition plain (cat : Category) (f : found) : span := MkSpan (fd_start f) (fd_end f) cat false.

(** [add] of a whole match, and of its submatch. *)
Definition add0 (r : re) (cat : Category) (s : str) : list span := plain cat <$> FindAll r s.
Definition add1 (r : re) (cat : Category) (s : str) : list span :=
  omap (λ f, (λ g : nat * nat, MkSpan g.1 g.2 cat false) <$> fd_group f) (FindAll r s).

Definition ipv4_spans (s : str) : list span :=
  omap (λ f, (λ c, plain c f) <$> classifyIP (slice s (fd_start f) (fd_end f))) (FindAll reIPv4 s).

Definition count_byte (c : ascii) (s : str) : nat :=
  length (List.filter (Ascii.eqb c) (String.list_ascii_of_string s)).

Definition ipv6_spans (s : str) : list span :=
  omap (λ f,
    let lit := slice s (fd_start f) (fd_end f) in
    if (count_byte ":" lit <? 2)%nat || bool_decide (ParseIP lit = None) then None
    else (λ c, plain c f) <$> classifyIP lit) (FindAll reIPv6Candidate s).

(** What precedes the first [:] or [/]. *)
Fixpoint host_part (s : str) : str :=
  match s with
  | EmptyString => ""
  | String c s => if any_of ":/" c then "" else String c (host_part s)
  end.

Section detect.
Context `{RangeOrder} (s : Sanitizer).

Definition inventory_of (tok : nat * str) (names : gmap str bool) (cat : Category) : list span :=
  mjoin ((λ name, (λ a, MkSpan (tok.1 + a) (tok.1 + a + String.length name) cat true) <$>
                  occurrences name tok.2) <$> keys_of names).

Definition inventorySpans (text : str) : list span :=
  mjoin ((λ tok, inventory_of tok (sz_hosts s) CatHostname ++ inventory_of tok (sz_users s) CatUsername)
           <$> tokens 0 0 "" (ToLower text)).

Definition registry_spans (text : str) : list span :=
  omap (λ f,
    (λ g : nat * nat,
      let host := host_part (slice text g.1 g.2) in
      if isLocalhost host || domainAllowed host (sz_allow s)
      then plain CatKeep f else MkSpan g.1 g.2 CatHostname false) <$> fd_group f)
    (FindAll reRegistryRef text).

Definition hostname_spans (text : str) : list span :=
  omap (λ f,
    let h := slice text (fd_start f) (fd_end f) in
    if isLocalhost h || domainAllowed h (sz_allow s) then None else Some (plain CatHostname f))
    (FindAll reHostname text).

Definition content_spans (text : str) : list span :=
  add1 reHomePath CatUsername text ++ add1 reAuthHeader CatSecret text ++
  add0 reMachineID CatMachineID text ++ add0 reUUID CatUUID text ++ add0 reMAC CatMAC text ++
  add0 reRDMAGUID CatRDMAGUID text ++ add0 reSSHFP CatSSHFingerprint text ++
  add0 reSSHHostKey CatSSHHostKey text ++ ipv4_spans text ++ ipv6_spans text ++
  registry_spans text ++ hostname_spans text.

(** An inventory token is never split. *)
Definition splits (inv : list span) (o : span) : bool :=
  existsb (λ v, overlaps o v && negb (contains o v)) inv.

Definition kept_spans (text : str) : list span :=
  let inv := inventorySpans text in
  inv ++ List.filter (λ o, negb (splits inv o)) (content_spans text).

Definition chosen_spans (text : str) : list span := choose 0 (sort_spans (kept_spans text)).
End detect.

(** *** Entropy *)
Class Log2Lib := { Log2 : float64 → float64 }.

Definition shannon `{Log2Lib} (s : str) : float64 :=
  let n := float_of_Z (Z.of_nat (String.length s)) in
  foldl (λ h b,
    let f := count_byte (chr (Z.of_nat b)) s in
    if (f =? 0)%nat then h
    else let p := fdiv (float_of_Z (Z.of_nat f)) n in fsub h (fmul p (Log2 p)))
    fzero (seq 0 256).

Section detector.
Context `{RangeOrder} `{Log2Lib} (s : Sanitizer).

Definition free (chosen : list span) (f : found) : bool :=
  forallb (λ c, negb ((fd_start f <? sp_end c)%nat && (sp_start c <? fd_end f)%nat)) chosen.

(** The last rule: only what nothing else claimed. *)
Definition entropy_step (text : str) (chosen : list span) (f : found) : list span :=
  if flt (shannon (slice text (fd_start f) (fd_end f))) entropyMinBitsPerChar then chosen
  else if free chosen f then chosen ++ [plain CatSecret f] else chosen.

Definition detect (text : str) : list span :=
  sort_spans (foldl (entropy_step text) (chosen_spans s text) (FindAll reEntropyRun text)).
End detector.

(** ** The spans of a text *)

(** Spans of a text of [len] bytes, each where the one before has ended. *)
Fixpoint tiles (last len : nat) (l : list span) : Prop :=
  match l with
  | [] => (last <= len)%nat
  | sp :: l => (last <= sp_start sp)%nat ∧ (sp_start sp < sp_end sp)%nat ∧ tiles (sp_end sp) len l
  end.

Definition inside (len : nat) (sp : span) : Prop := (sp_start sp < sp_end sp <= len)%nat.
Definition apart (a b : span) : Prop := (sp_end a <= sp_start b)%nat ∨ (sp_end b <= sp_start a)%nat.

Lemma apart_sym a b : apart a b → apart b a.
Proof. unfold apart. tauto. Qed.

(** No two spans of a list overlap. *)
Definition scattered : list span → Prop := ForallOrdPairs apart.

Lemma scattered_cons a l : scattered (a :: l) ↔ Forall (apart a) l ∧ scattered l.
Proof. split; [intros H; by inversion H|intros [? ?]; by constructor]. Qed.

Lemma scattered_perm l k : l ≡ₚ k → scattered l → scattered k.
Proof.
  induction 1 as [|x l k Hp IH|x y l|l k m _ IH1 _ IH2]; [done| | |auto].
  - rewrite !scattered_cons. intros [Hx Hl]. split; [by rewrite <-Hp|auto].
  - rewrite !scattered_cons, !Forall_cons. intros [[Hyx Hy] [Hx Hl]]. split_and!; by try apply apart_sym.
Qed.

Lemma scattered_snoc l a : scattered l → Forall (apart a) l → scattered (l ++ [a]).
Proof.
  intros Hl Ha. eapply (scattered_perm (a :: l)); [|by apply scattered_cons].
  by rewrite Permutation_app_comm.
Qed.

Lemma choose_from last l :
  Forall (λ sp, (sp_start sp <= sp_end sp)%nat) l → Forall (λ sp, (last <= sp_start sp)%nat) (choose last l).
Proof.
  intros H. revert last. induction H as [|c l Hc Hl IH]; intros last; simpl; [constructor|].
  destruct (Nat.leb_spec last (sp_start c)); [|apply IH]. constructor; [done|].
  eapply Forall_impl; [apply IH|]. simpl. lia.
Qed.

Lemma choose_scattered last l :
  Forall (λ sp, (sp_start sp <= sp_end sp)%nat) l → scattered (choose last l).
Proof.
  intros H. revert last. induction H as [|c l Hc Hl IH]; intros last; simpl; [constructor|].
  destruct (last <=? sp_start c)%nat; [|done]. apply scattered_cons. split; [|done].
  eapply Forall_impl; [by apply choose_from|]. intros sp. by left.
Qed.

Lemma choose_sub last l sp : sp ∈ choose last l → sp ∈ l.
Proof.
  revert last. induction l as [|c l IH]; intros last; simpl; [done|].
  destruct (last <=? sp_start c)%nat; rewrite ?elem_of_cons; naive_solver.
Qed.

Lemma insert_span_perm x l : insert_span x l ≡ₚ x :: l.
Proof.
  induction l as [|y l IH]; [done|]. simpl. destruct (span_less y x); [|done].
  rewrite IH. apply Permutation_swap.
Qed.

Lemma sort_spans_perm l : sort_spans l ≡ₚ l.
Proof. induction l as [|x l IH]; [done|]. simpl. by rewrite insert_span_perm, IH. Qed.

Lemma insert_span_sorted x l :
  StronglySorted (λ a b, (sp_start a <= sp_start b)%nat) l →
  StronglySorted (λ a b, (sp_start a <= sp_start b)%nat) (insert_span x l).
Proof.
  induction 1 as [|y l Hl IH Hy]; [by repeat constructor|]. simpl.
  assert (if span_less y x then (sp_start y <= sp_start x)%nat else (sp_start x <= sp_start y)%nat) as E.
  { unfold span_less. destruct (Nat.eqb_spec (sp_start y) (sp_start x)); [destruct (_ <? _)%nat; lia|].
    destruct (Nat.ltb_spec (sp_start y) (sp_start x)); lia. }
  destruct (span_less y x); constructor; [done| |by constructor|].
  - rewrite insert_span_perm. by constructor.
  - constructor; [done|]. eapply Forall_impl; [exact Hy|]. simpl. lia.
Qed.

Lemma sort_spans_sorted l : StronglySorted (λ a b, (sp_start a <= sp_start b)%nat) (sort_spans l).
Proof. induction l as [|x l IH]; [constructor|]. by apply insert_span_sorted. Qed.

Lemma sorted_tiles len l last :
  StronglySorted (λ a b, (sp_start a <= sp_start b)%nat) l → scattered l → Forall (inside len) l →
  Forall (λ sp, (last <= sp_start sp)%nat) l → (last <= len)%nat → tiles last len l.
Proof.
  intros H. revert last. induction H as [|a l Hl IH Ha]; intros last Hs Hi Hb Hlen; simpl; [done|].
  apply scattered_cons in Hs as [Hap Hs]. apply Forall_cons in Hi as [Hia Hi].
  apply Forall_cons in Hb as [Hab Hb]. unfold inside in Hia. split_and!; [lia|lia|].
  apply IH; try done; [|lia]. apply Forall_forall. intros b Hin.
  rewrite Forall_forall in Hap, Ha, Hi. specialize (Hap b Hin). specialize (Ha b Hin). specialize (Hi b Hin).
  unfold apart, inside in *. lia.
Qed.

(** *** Every span lies in the text *)
Lemma FindAll_inside r s f :
  f ∈ FindAll r s → (fd_start f + width r <= fd_end f)%nat ∧ (fd_end f <= String.length s)%nat.
Proof. intros (Hf & He & _)%(FindAll_spans 0); [done|apply submatches_0]. Qed.

Lemma plain_inside r cat s f :
  (0 < width r)%nat → f ∈ FindAll r s → inside (String.length s) (plain cat f).
Proof. intros Hw [Hf He]%FindAll_inside. unfold inside. simpl. lia. Qed.

Lemma group_inside r cat b s f g :
  submatches 1 r = true → f ∈ FindAll r s → fd_group f = Some g →
  inside (String.length s) (MkSpan g.1 g.2 cat b).
Proof.
  intros Hr (Hf & He & Hg)%(FindAll_spans 1) E; [|done]. rewrite E in Hg.
  destruct Hg as [Hg|(x & y & [= ->] & ? & ? & ?)]; [done|]. unfold inside. simpl. lia.
Qed.

Lemma omap_inside (f : found → option span) r s :
  (∀ x sp, x ∈ FindAll r s → f x = Some sp → inside (String.length s) sp) →
  Forall (inside (String.length s)) (omap f (FindAll r s)).
Proof. intros Hf. apply Forall_forall. intros sp (x & Hx & Hsp)%list_elem_of_omap. eauto. Qed.

Lemma add0_inside r cat s : (0 < width r)%nat → Forall (inside (String.length s)) (add0 r cat s).
Proof.
  intros Hw. apply Forall_forall. intros sp (f & -> & Hf)%list_elem_of_fmap. by eapply plain_inside.
Qed.

Lemma add1_inside r cat s : submatches 1 r = true → Forall (inside (String.length s)) (add1 r cat s).
Proof.
  intros Hr. apply omap_inside. intros f sp Hf (g & Hg & ->)%fmap_Some. by eapply group_inside.
Qed.

Lemma content_inside sz s : Forall (inside (String.length s)) (content_spans sz s).
Proof.
  unfold content_spans. rewrite !Forall_app. split_and!.
  1-2: by apply add1_inside.
  1-6: apply add0_inside; vm_compute; lia.
  all: apply omap_inside; intros f sp Hf Hsp; cbv zeta in Hsp.
  - apply fmap_Some in Hsp as (c & _ & ->). eapply (plain_inside reIPv4); [vm_compute; lia|done].
  - destruct (_ || _); [done|]. apply fmap_Some in Hsp as (c & _ & ->).
    eapply (plain_inside reIPv6Candidate); [vm_compute; lia|done].
  - apply fmap_Some in Hsp as (g & Hg & ->). destruct (_ || _).
    + eapply (plain_inside reRegistryRef); [vm_compute; lia|done].
    + by eapply (group_inside reRegistryRef).
  - destruct (_ || _); [done|]. simplify_eq. eapply (plain_inside reHostname); [vm_compute; lia|done].
Qed.

(** Names of an inventory are not empty: [New] sees to it. *)
Definition named (names : gmap str bool) : Prop := names !! "" = None.
Definition sane (sz : Sanitizer) : Prop := named (sz_hosts sz) ∧ named (sz_users sz).

Lemma ToLower_length s : String.length (ToLower s) = String.length s.
Proof. unfold ToLower. induction s; simpl; congruence. Qed.

Lemma AddHost_sane sz h : sane sz → sane (AddHost sz h).
Proof.
  unfold AddHost. intros [Hh Hu]. destruct (_ || _) eqn:E; [done|]. split; [|done]. unfold named. simpl.
  rewrite lookup_insert_ne; [done|]. intros E'. by rewrite E' in E.
Qed.

Lemma New_sane hosts users allow salt : sane (New hosts users allow salt).
Proof.
  unfold New. split; simpl.
  - assert (∀ sz, sane sz → sane (foldl AddHost sz hosts)) as H.
    { induction hosts as [|h hosts IH]; intros sz Hsz; [done|]. simpl. by apply IH, AddHost_sane. }
    by apply H.
  - assert (∀ m, named m → named (foldl add_user m users)) as H; [|by apply H].
    induction users as [|u users IH]; intros m Hm; [done|]. simpl. apply IH. unfold add_user.
    destruct (Nat.leb_spec 2 (String.length (TrimSpace u))); [|done]. unfold named.
    rewrite lookup_insert_ne; [done|]. intros E.
    apply (f_equal String.length) in E. rewrite ToLower_length in E. simpl in E. lia.
Qed.

(** A token is a slice of the text. *)
Lemma tokens_inside i start cur s tok :
  (start + String.length cur = i)%nat ∨ cur = "" →
  tok ∈ tokens i start cur s → (tok.1 + String.length tok.2 <= i + String.length s)%nat.
Proof.
  revert i start cur. induction s as [|c s IH]; intros i start cur Hcur; simpl.
  - destruct (String.eqb_spec cur "") as [->|Hne]; [by intros []%not_elem_of_nil|].
    intros ->%list_elem_of_singleton. simpl. naive_solver lia.
  - rewrite Nat.add_succ_r. destruct (isTokenByte c).
    + apply IH. left. rewrite str_app_length. simpl.
      destruct (String.eqb_spec cur "") as [->|]; simpl; naive_solver lia.
    + rewrite elem_of_app. intros [H|H%IH]; [|lia|by right].
      destruct (String.eqb_spec cur "") as [->|Hne]; [by apply not_elem_of_nil in H|].
      apply list_elem_of_singleton in H as ->. simpl. naive_solver lia.
Qed.

Section inventory.
Context `{RangeOrder}.

Lemma inventory_of_inside tok names cat len :
  named names → (tok.1 + String.length tok.2 <= len)%nat →
  Forall (inside len) (inventory_of tok names cat).
Proof.
  intros Hn Ht. apply Forall_forall. unfold inventory_of. intros sp (l & Hsp & Hl)%list_elem_of_join.
  apply list_elem_of_fmap in Hl as (name & -> & Hname%keys_of_elem).
  apply list_elem_of_fmap in Hsp as (a & -> & Ha). unfold occurrences in Ha.
  rewrite list_elem_of_In, List.filter_In in Ha. destruct Ha as [_ Hb].
  unfold bounded in Hb. rewrite !andb_true_iff in Hb. destruct Hb as [[[q Hq]%HasPrefix_spec _] _].
  apply (f_equal String.length) in Hq. rewrite drop_length, str_app_length in Hq.
  destruct name as [|c name]; [unfold named in Hn; rewrite Hn in Hname; by destruct Hname|].
  unfold inside. simpl in *. lia.
Qed.

Lemma inventory_inside sz text : sane sz → Forall (inside (String.length text)) (inventorySpans sz text).
Proof.
  intros [Hh Hu]. apply Forall_forall. unfold inventorySpans. intros sp (l & Hsp & Hl)%list_elem_of_join.
  apply list_elem_of_fmap in Hl as (tok & -> & Htok).
  apply tokens_inside in Htok; [|by right]. rewrite ToLower_length in Htok.
  apply elem_of_app in Hsp as [Hsp|Hsp].
  all: by eapply Forall_forall in Hsp; [|apply inventory_of_inside].
Qed.

Lemma chosen_inside sz text : sane sz → Forall (inside (String.length text)) (chosen_spans sz text).
Proof.
  intros Hsz. apply Forall_forall. intros sp Hsp%choose_sub. rewrite sort_spans_perm in Hsp.
  unfold kept_spans in Hsp. apply elem_of_app in Hsp as [Hsp|Hsp].
  - by eapply Forall_forall in Hsp; [|apply inventory_inside].
  - rewrite list_elem_of_In, List.filter_In, <-list_elem_of_In in Hsp.
    destruct Hsp as [Hsp _]. by eapply Forall_forall in Hsp; [|apply content_inside].
Qed.

Lemma chosen_scattered sz text : sane sz → scattered (chosen_spans sz text).
Proof.
  intros Hsz. apply choose_scattered. rewrite sort_spans_perm. unfold kept_spans.
  apply Forall_app. split.
  - eapply Forall_impl; [by apply inventory_inside|]. unfold inside. lia.
  - apply Forall_forall. intros sp. rewrite list_elem_of_In, List.filter_In, <-list_elem_of_In.
    intros [Hsp _]. eapply Forall_forall in Hsp; [|apply content_inside]. unfold inside in Hsp. lia.
Qed.

(** What [detect] finds are disjoint spans of the text, in order. *)
Lemma detect_tiles `{Log2Lib} sz text : sane sz → tiles 0 (String.length text) (detect sz text).
Proof.
  intros Hsz. unfold detect.
  assert (∀ fs chosen, Forall (λ f, f ∈ FindAll reEntropyRun text) fs →
    scattered chosen → Forall (inside (String.length text)) chosen →
    scattered (foldl (entropy_step text) chosen fs) ∧
    Forall (inside (String.length text)) (foldl (entropy_step text) chosen fs)) as Hfold.
  { induction fs as [|f fs IH]; intros chosen Hfs Hs Hi; [done|]. simpl.
    apply Forall_cons in Hfs as [Hf Hfs]. unfold entropy_step at 2 4.
    destruct (flt _ _); [by apply IH|]. destruct (free chosen f) eqn:Hfree; [|by apply IH].
    apply IH; [done| |].
    - apply scattered_snoc; [done|]. apply Forall_forall. intros c Hc.
      unfold free in Hfree. rewrite forallb_elem in Hfree. specialize (Hfree c Hc).
      rewrite negb_true_iff, andb_false_iff, !Nat.ltb_ge in Hfree. unfold apart. simpl. lia.
    - apply Forall_app. split; [done|]. apply Forall_singleton.
      eapply (plain_inside reEntropyRun); [vm_compute; lia|done]. }
  destruct (Hfold (FindAll reEntropyRun text) (chosen_spans sz text)) as [Hs Hi].
  { by apply Forall_forall. } { by apply chosen_scattered. } { by apply chosen_inside. }
  apply sorted_tiles.
  - apply sort_spans_sorted.
  - eapply scattered_perm; [symmetry; apply sort_spans_perm|done].
  - by rewrite sort_spans_perm.
  - apply Forall_forall. lia.
  - lia.
Qed.
End inventory.
