(* ===== verification/Sanitize.v ===== *)
(** * pkg/sanitize and cmd/burnin/sanitize.go: a copy of a result that can leave the site

    What replaces each span of Detect ([replace], [pooledIP]), over a text, a path and a
    decoded JSON document ([Text], [Path], [walk]); the residual scans; and the copy of a
    sealed directory ([sanitizeDir]).  The pools and counts of a sanitizer are the state of
    the handlers.  Decoding and encoding JSON are an interface; an object is its members in
    the order the source's range takes. *)

From Stdlib Require Import Ascii.
From S2P Require Import Prelude GoStrings GoFloat GoSha256 GoRegexp GoNet Effects Detect Seal.
Open Scope stdpp_scope.

(** ** Replacing *)
Record pools := MkPools {
  po_counts : gmap str Z;          (* by category *)
  po_ipMap : gmap str str;
  po_nextV4 : Z;
  po_nextV6 : Z;
}.

Definition no_pools : pools := MkPools ∅ ∅ 0 0.

(** [s.counts[cat]++] *)
Definition counted (cat : Category) : eff pools () := λ p,
  let n := default 0%Z (po_counts p !! Category_string cat) in
  (inl tt, MkPools (<[Category_string cat := (n + 1)%Z]> (po_counts p)) (po_ipMap p) (po_nextV4 p) (po_nextV6 p)).

Definition canonical (cat : Category) (v : str) : str :=
  match cat with
  | CatHostname | CatUUID | CatMachineID | CatRDMAGUID | CatUsername => ToLower v
  | CatMAC => map_str (λ c, if Ascii.eqb c "-" then ":"%char else c) (ToLower v)
  | _ => v
  end.

Definition poolSize : Z := 3 * 254.

(** The [i]th stand-in of each family. *)
Definition standIn4 (i : Z) : str :=
  let base := nth (Z.to_nat (i / 254)) docV4.*1 [] in
  Join (Itoa <$> (firstn 3 base ++ [(i mod 254 + 1) mod 256]%Z)) ".".
Definition standIn6 (n : Z) : str := "2001:db8::" +:+ show_hex n.

Definition pooledIP (lit : str) : eff pools str := λ p,
  let x := default [] (ParseIP lit) in
  let key := IP_String x in
  match po_ipMap p !! key with
  | Some got => (inl got, p)
  | None =>
      match To4 x, has_colon lit with
      | Some _, false =>
          let i := po_nextV4 p in
          if (poolSize <=? i)%Z then
            (inr (Errorf ("more than " +:+ Itoa poolSize +:+
                          " distinct IPv4 addresses; the documentation pool is exhausted")), p)
          else (inl (standIn4 i),
                MkPools (po_counts p) (<[key := standIn4 i]> (po_ipMap p)) (i + 1) (po_nextV6 p))
      | _, _ =>
          let n := (po_nextV6 p + 1)%Z in
          (inl (standIn6 n),
           MkPools (po_counts p) (<[key := standIn6 n]> (po_ipMap p)) (po_nextV4 p) n)
      end
  end.

Section text.
Context `{RangeOrder} `{Log2Lib} (s : Sanitizer).

Definition replace (cat : Category) (v : str) : eff pools str :=
  counted cat ;;
  match cat with
  | CatSecret => mret maskSecret
  | CatEnvDump => mret maskEnv
  | CatIPv4Private | CatIPv4Public | CatIPv6Local | CatIPv6Public => pooledIP v
  | _ => mret (pseudonym s cat (canonical cat v))
  end.

(** The builder's loop over the spans, from [last]. *)
Fixpoint rebuild (text : str) (last : nat) (spans : list span) : eff pools str :=
  match spans with
  | [] => mret (drop last text)
  | sp :: spans =>
      let v := slice text (sp_start sp) (sp_end sp) in
      r ← (if bool_decide (sp_cat sp = CatKeep) then mret v else replace (sp_cat sp) v);
      rest ← rebuild text (sp_end sp) spans;
      mret (slice text last (sp_start sp) +:+ r +:+ rest)
  end.

Definition Text (text : str) : eff pools str :=
  match detect s text with
  | [] => mret text
  | spans => rebuild text 0 spans
  end.

(** [Path]: only names of the inventory, in the order they are found, an earlier one passed
    over. *)
Fixpoint rebuild_path (p : str) (last : nat) (spans : list span) : eff pools str :=
  match spans with
  | [] => mret (drop last p)
  | sp :: spans =>
      if (sp_start sp <? last)%nat then rebuild_path p last spans
      else
        r ← replace (sp_cat sp) (slice p (sp_start sp) (sp_end sp));
        rest ← rebuild_path p (sp_end sp) spans;
        mret (slice p last (sp_start sp) +:+ r +:+ rest)
  end.

Definition path_part (p : str) : eff pools str :=
  match inventorySpans s p with
  | [] => mret p
  | spans => rebuild_path p 0 spans
  end.

Fixpoint parts (l : list str) : eff pools (list str) :=
  match l with
  | [] => mret []
  | p :: l => p ← path_part p; l ← parts l; mret (p :: l)
  end.

Definition Path (rel : str) : eff pools str :=
  l ← parts (Split rel slash); mret (Join l "/").

(** ** Scanning what was written *)
Definition pseudonymShape : re :=
  whole (seqs [alts (lit <$> ["serial"; "user"; "ssid"; "mid"; "uuid"; "mac"; "guid"; "ssh"; "host"]);
               one "-"; times 12 (Chr (λ c, is_digit c || in_range "a" "f" c))]).

Definition Residual (text : str) : list str :=
  omap (λ sp,
    let v := slice text (sp_start sp) (sp_end sp) in
    if bool_decide (sp_cat sp = CatKeep) || MatchString pseudonymShape v then None
    else Some (Category_string (sp_cat sp) +:+ " " +:+ quote v)) (detect s text).
End text.

(** ** JSON *)

(** A document decoded with UseNumber: a number is its text. *)
Inductive json :=
  | JNull
  | JBool (b : bool)
  | JNum (digits : str)
  | JStr (s : str)
  | JArr (l : list json)
  | JObj (members : list (str * json)).

Definition exemptLeafKeys : list str :=
  ["version"; "reason"; "phase"; "sentAt"; "startedAt"; "finishedAt"; "kind"; "scope"; "metric";
   "cause"; "comparison"; "applicability"; "mediaType"; "digest"; "commit"; "trigger"; "role"].
Definition exemptObjects : list str := ["producer"; "summary"].
Definition exemptStringArrays : list str := ["unmeasurable"].

Definition among (k : str) (l : list str) : bool := existsb (String.eqb k) l.

Definition isFiniteNumber (v : str) : bool :=
  let '(f, err) := ParseFloat (TrimSpace v) in
  bool_decide (err = None) && negb (IsNaN f) && negb (IsInf f).

Section walk.
Context `{RangeOrder} `{Log2Lib} (s : Sanitizer).

(** [maskEnv], the method: what is masked is not looked at. *)
Fixpoint mask_members (l : list (str * json)) : eff pools (list (str * json)) :=
  match l with
  | [] => mret []
  | (k, v) :: l =>
      nv ← (if among k envSafe then mret v
            else r ← replace s CatEnvDump ""; mret (JStr r));
      rest ← mask_members l;
      mret ((k, nv) :: rest)
  end.

Definition maskEnvValue (val : json) : eff pools json :=
  match val with
  | JStr t => r ← replace s CatEnvDump t; mret (JStr r)
  | JObj l => l ← mask_members l; mret (JObj l)
  | _ => mret val
  end.

(** [walkMember]; [descend] is [s.walk(val, k)]. *)
Definition walkMember (k : str) (val : json) (isMetric : bool) (descend : eff pools json)
    : eff pools json :=
  let str_val := match val with JStr v => Some v | _ => None end in
  let whole_value (cat : Category) : eff pools json :=
    match str_val with
    | Some v => if String.eqb v "" then descend else r ← replace s cat v; mret (JStr r)
    | None => descend
    end in
  let by_key : eff pools json :=
    if isMetric then descend
    else if MatchString keyEnv k then maskEnvValue val
    else if MatchString keySecret k then whole_value CatSecret
    else if MatchString keySerial k then whole_value CatSerial
    else if MatchString keyUsername k then whole_value CatUsername
    else if MatchString keySSID k then whole_value CatWifiSSID
    else if MatchString keyHostname k then
      match str_val with
      | Some v => if isLocalhost v || domainAllowed v (sz_allow s) then descend else whole_value CatHostname
      | None => descend
      end
    else descend in
  match str_val with
  | Some v =>
      if isMetric && isFiniteNumber v then mret val
      else if isMetric && MatchString keySerial k && negb (String.eqb v "")
      then r ← replace s CatSerial v; mret (JStr r)
      else if negb isMetric && among k exemptLeafKeys then mret val
      else by_key
  | None => by_key
  end.

Fixpoint walk (v : json) (key : str) : eff pools json :=
  match v with
  | JObj l =>
      if among key exemptObjects then mret v
      else
        out ← (fix members (out l : list (str * json)) : eff pools (list (str * json)) :=
                 match l with
                 | [] => mret out
                 | (k, val) :: l =>
                     nk ← (if String.eqb key "metrics" then mret k else Text s k);
                     if among nk out.*1
                     then throw (Errorf ("two keys sanitise to " +:+ quote nk +:+ "; refusing to merge them"))
                     else
                       nv ← walkMember k val (String.eqb key "metrics") (walk val k);
                       members (out ++ [(nk, nv)]) l
                 end) [] l;
        mret (JObj out)
  | JArr l =>
      out ← (fix elems (l : list json) : eff pools (list json) :=
               match l with
               | [] => mret []
               | e :: l =>
                   ne ← match e with
                        | JStr _ => if among key exemptStringArrays then mret e else walk e key
                        | _ => walk e key
                        end;
                   rest ← elems l;
                   mret (ne :: rest)
               end) l;
      mret (JArr out)
  | JStr t => t ← Text s t; mret (JStr t)
  | _ => mret v
  end.

(** The [visit] of [ResidualJSON]. *)
Fixpoint visit (v : json) (key : str) : list str :=
  match v with
  | JObj l =>
      if among key exemptObjects then []
      else
        (fix members (l : list (str * json)) : list str :=
           match l with
           | [] => []
           | (k, val) :: l =>
               (if String.eqb key "metrics" then [] else Residual s k) ++
               (match val with
                | JStr t =>
                    if (String.eqb key "metrics" && isFiniteNumber t) ||
                       (negb (String.eqb key "metrics") && among k exemptLeafKeys) ||
                       String.eqb t maskEnv || String.eqb t maskSecret
                    then [] else visit val k
                | _ => visit val k
                end) ++ members l
           end) l
  | JArr l =>
      (fix elems (l : list json) : list str :=
         match l with
         | [] => []
         | e :: l =>
             (match e with
              | JStr _ => if among key exemptStringArrays then [] else visit e key
              | _ => visit e key
              end) ++ elems l
         end) l
  | JStr t => Residual s t
  | _ => []
  end.
End walk.

(** ** cmd/burnin/sanitize.go *)

(** encoding/json on documents: a stream's first value with its numbers as written, a whole
    text as an object, and the two encoders the source uses. *)
Class JsonCodec := {
  Decode : str → json + str;
  Unmarshal : str → option (list (str * json));
  Encode : json → str;
  MarshalIndent : json → str;
}.

Definition sanitizedMarker : str := "SANITIZED.json".

(** os.Stat follows a link; one that leads nowhere does not count. *)
Definition isSanitized (d : directory) : bool :=
  match child sanitizedMarker d with
  | None | Some (Link ReadNotExist) => false
  | Some _ => true
  end.

Definition member (k : str) (l : list (str * json)) : option json := snd <$> list_first (λ m, String.eqb m.1 k) l.

(** The non-empty strings of a value, and of the members of an object. *)
Definition string_of (v : option json) : list str :=
  match v with Some (JStr t) => if String.eqb t "" then [] else [t] | _ => [] end.
Definition object_of (v : option json) : list (str * json) :=
  match v with Some (JObj l) => l | _ => [] end.
Definition array_of (v : option json) : list json := match v with Some (JArr l) => l | _ => [] end.

Definition result_names (r : json) : list str :=
  let rm := object_of (Some r) in
  mjoin ((λ n, string_of (Some n)) <$> array_of (member "nodes" rm)) ++ string_of (member "node" rm).

(** The names one record holds. *)
Definition record_names (m : list (str * json)) : list str :=
  string_of (member "node" m) ++ string_of (member "peerNode" m) ++
  (let run := object_of (member "run" m) in
   if bool_decide (string_of (member "namespace" run) = ["local"]) then string_of (member "name" run) else []) ++
  string_of (member "name" (object_of (member "cluster" m))) ++
  (object_of (member "fingerprint" m)).*1 ++
  mjoin (result_names <$> array_of (member "results" m)).

(** os.WriteFile under os.MkdirAll; [None] where a file is in the way of a directory or a
    directory of a file. *)
Fixpoint put (d : directory) (path : list str) (b : str) : option directory :=
  match path with
  | [] => None
  | [n] => match child n d with Some (Dir _ _) => None | _ => Some (set_child n (File (inl b)) d) end
  | n :: rest =>
      match child n d with
      | None => (λ sub, set_child n (Dir sub None) d) <$> put [] rest b
      | Some (Dir children err) => (λ sub, set_child n (Dir sub err) d) <$> put children rest b
      | Some _ => None
      end
  end.

Definition read (d : directory) (rel : str) : str + str :=
  match find d (Split rel slash) with
  | Some (File r) => r
  | _ => inr "no such file or directory"
  end.

Section sanitize.
Context `{RangeOrder} `{Log2Lib} `{JsonCodec}.

Definition JSON (s : Sanitizer) (data : str) : eff pools str :=
  match Decode data with
  | inr err => throw (Errorf err)
  | inl v => out ← walk s v ""; mret (Encode out)
  end.

Definition ResidualJSON (s : Sanitizer) (data : str) : list str + str :=
  match Decode data with inr err => inr err | inl v => inl (visit s v "") end.

(** [inventory]: sorted, each name once. *)
Definition inventory (d : directory) (files : list str) : list str :=
  sort_strings (remove_dups (mjoin ((λ rel,
    if HasSuffix rel ".json" then
      match read d rel with
      | inl b => default [] (record_names <$> Unmarshal b)
      | inr _ => []
      end
    else []) <$> files))).

Section copy.
Context (s : Sanitizer).

(** The copy of one file, and what the residual scan finds in it. *)
Definition clean_file (rel data : str) : eff pools (str * list str) :=
  if HasSuffix rel ".json" then
    clean ← rethrow (rel +:+ ": ") (JSON s data);
    match ResidualJSON s clean with
    | inl findings => mret (clean, findings)
    | inr err => throw (Errorf (rel +:+ ": " +:+ err))
    end
  else if ValidString data then
    text ← rethrow (rel +:+ ": ") (Text s data);
    mret (text, Residual s text)
  else throw (Errorf (rel +:+ " is not text, and a binary file cannot be scanned; nothing was written")).

(** The loop over the files, with where each new name came from. *)
Fixpoint clean_files (d : directory) (seen : list (str * str)) (files : list str)
    : eff pools (list (str * str)) :=
  match files with
  | [] => mret []
  | rel :: files =>
      match read d rel with
      | inr err => throw (Errorf err)
      | inl data =>
          nrel ← Path s rel;
          match list_first (λ x, String.eqb x.1 nrel) seen with
          | Some (_, prev) =>
              throw (Errorf (prev +:+ " and " +:+ rel +:+ " would both be written as " +:+ nrel))
          | None =>
              '(clean, findings) ← clean_file rel data;
              match findings with
              | [] =>
                  rest ← clean_files d ((nrel, rel) :: seen) files;
                  mret ((nrel, clean) :: rest)
              | _ :: _ =>
                  throw (Errorf ("the residual scan still finds identifying values in " +:+ nrel +:+
                    " after sanitising (" +:+ Join findings ", " +:+ "); " +:+ "nothing was written"))
              end
          end
      end
  end.
End copy.

Fixpoint stage (d : directory) (outs : list (str * str)) : option directory :=
  match outs with
  | [] => Some d
  | (rel, b) :: outs => d ← put d (Split rel slash) b; stage d outs
  end.

(** The marker's document. *)
Definition marker (producer : json) (p : pools) : json :=
  JObj [("producer", producer);
        ("replaced", JObj ((λ kn : str * Z, (kn.1, JNum (Itoa kn.2))) <$> map_to_list (po_counts p)));
        ("sanitized", JBool true);
        ("terminal", JStr "machine identity in this directory is pseudonymous; it cannot be compared against another result");
        ("unlinkable", JStr "pseudonyms were made under a salt that was never written down, so no other output shares them")].

Definition sanitizer_for (d : directory) (files hosts users : list str) (salt : str) : Sanitizer :=
  foldl AddHost (New [] users None salt) (inventory d files ++ hosts).

(** [sanitizeDir] of [d] into a place that is free or not: the directory that is there
    afterwards with the number of files copied, or why there is none.  [io] is the first
    error of writing or renaming the staging directory, which is removed again. *)
Definition sanitizeDir (name out : str) (producer : json) (io : option str) (outExists : bool)
    (d : directory) (hosts users : list str) (salt : str) : (directory * Z) + str :=
  if isSanitized d then inr (name +:+ " is already sanitised; a sanitised result is terminal")
  else
    match verifyDir d with
    | inr err => inr err
    | inl (p :: ps) =>
        inr (name +:+ " is not sealed and unchanged, so there is no knowing what is being shared: " +:+
             Join (p :: ps) "; ")
    | inl [] =>
        if outExists then inr (out +:+ " already exists; refusing to write into it")
        else
          match listRegular d with
          | (_, Some err) => inr err
          | (files, None) =>
              match clean_files (sanitizer_for d files hosts users salt) d [] files no_pools with
              | (inr e, _) => inr (er_text e)
              | (inl outs, p) =>
                  match stage [] outs, io with
                  | None, _ => inr "not a directory"
                  | _, Some err => inr err
                  | Some staged, None =>
                      match put staged [sanitizedMarker] (MarshalIndent (marker producer p) +:+ newline) with
                      | None => inr "is a directory"
                      | Some staged =>
                          match sealDir None staged with
                          | (_, Some err) => inr err
                          | (sealed, None) => inl (sealed, Z.of_nat (length outs))
                          end
                      end
                  end
              end
          end
    end.
End sanitize.

(** ** The pools *)
Lemma hex_num_app a b acc : hex_num acc (a +:+ b) = hex_num (hex_num acc a) b.
Proof. revert acc. induction a as [|c a IH]; intros acc; [done|]. simpl. apply IH. Qed.

Lemma hex_digit_val d : (0 <= d < 16)%Z → hex_val (hex_digit d) = Some d.
Proof.
  intros Hd. assert (forallb (λ d, bool_decide (hex_val (hex_digit d) = Some d)) (Z.of_nat <$> seq 0 16) = true)
    as H by (vm_compute; reflexivity).
  rewrite forallb_elem in H. specialize (H d). rewrite bool_decide_eq_true in H. apply H.
  apply list_elem_of_fmap. exists (Z.to_nat d). split; [lia|]. apply elem_of_seq. lia.
Qed.

Lemma hex_digits_num fuel v : (0 <= v < 16 ^ Z.of_nat fuel)%Z → hex_num 0 (hex_digits fuel v) = v.
Proof.
  revert v. induction fuel as [|fuel IH]; intros v Hv; [simpl in *; lia|].
  cbn [hex_digits]. rewrite hex_num_app.
  pose proof (Z.mod_pos_bound v 16) as Hm. pose proof (Z.div_mod v 16) as Hd.
  destruct (Z.ltb_spec v 16) as [Hs|Hs]; simpl; rewrite hex_digit_val by lia; simpl.
  - rewrite Z.mod_small; lia.
  - rewrite IH; [lia|]. rewrite Nat2Z.inj_succ, Z.pow_succ_r in Hv by lia.
    split; [apply Z.div_pos; lia|]. apply Z.div_lt_upper_bound; lia.
Qed.

Lemma show_hex_inj v w : (0 <= v)%Z → (0 <= w)%Z → show_hex v = show_hex w → v = w.
Proof.
  assert (∀ v, 0 <= v → hex_num 0 (show_hex v) = v)%Z as H.
  { intros u Hu. apply hex_digits_num. split; [done|]. destruct (decide (u = 0%Z)) as [->|Hne]; [done|].
    rewrite Nat2Z.inj_succ, Z2Nat.id by apply Z.log2_nonneg.
    eapply Z.lt_le_trans; [apply Z.log2_spec; lia|]. apply Z.pow_le_mono_l. lia. }
  intros Hv Hw E. by rewrite <-(H v Hv), <-(H w Hw), E.
Qed.

(** The stand-ins of the IPv4 pool, computed. *)
Definition v4_pool : list Z := Z.of_nat <$> seq 0 762.

Lemma v4_pool_elem i : (0 <= i < poolSize)%Z → i ∈ v4_pool.
Proof.
  unfold poolSize. intros Hi. apply list_elem_of_fmap. exists (Z.to_nat i).
  split; [lia|]. apply elem_of_seq. lia.
Qed.

Definition documentation (a : str) : bool :=
  match ParseIP a with
  | Some x => inAny x docV4 || Contains_net docV6 x
  | None => false
  end.

(** Which stand-in of the IPv4 pool an address is. *)
Definition v4_index (a : str) : Z :=
  match skipn 12 (default [] (ParseIP a)) with
  | [x; _; _; y] => (254 * (if x =? 192 then 0 else if x =? 198 then 1 else 2) + y - 1)%Z
  | _ => -1
  end.

Lemma standIn4_pool :
  forallb (λ i, let a := standIn4 i in
    documentation a && negb (HasPrefix a "2001") && bool_decide (classifyIP a = None) && (v4_index a =? i)%Z)
    v4_pool = true.
Proof. vm_compute. reflexivity. Qed.

Lemma standIn4_spec i :
  (0 <= i < poolSize)%Z →
  documentation (standIn4 i) = true ∧ HasPrefix (standIn4 i) "2001" = false ∧
  classifyIP (standIn4 i) = None ∧ v4_index (standIn4 i) = i.
Proof.
  intros Hi%v4_pool_elem. pose proof standIn4_pool as H. rewrite forallb_elem in H.
  specialize (H i Hi). simpl in H.
  rewrite !andb_true_iff, negb_true_iff, bool_decide_eq_true, Z.eqb_eq in H. by destruct H as [[[? ?] ?] ?].
Qed.

Lemma standIn4_inj i j :
  (0 <= i < poolSize)%Z → (0 <= j < poolSize)%Z → standIn4 i = standIn4 j → i = j.
Proof.
  intros Hi Hj E. destruct (standIn4_spec i Hi) as (_ & _ & _ & <-).
  destruct (standIn4_spec j Hj) as (_ & _ & _ & <-). by rewrite E.
Qed.

(** What the pools hold: every stand-in was drawn, and none twice. *)
Definition drawn (p : pools) (a : str) : Prop :=
  (∃ i, (0 <= i < po_nextV4 p)%Z ∧ a = standIn4 i) ∨ (∃ n, (1 <= n <= po_nextV6 p)%Z ∧ a = standIn6 n).

Definition pool_ok (p : pools) : Prop :=
  (0 <= po_nextV4 p <= poolSize)%Z ∧ (0 <= po_nextV6 p)%Z ∧
  (∀ k a, po_ipMap p !! k = Some a → drawn p a) ∧
  (∀ k k' a, po_ipMap p !! k = Some a → po_ipMap p !! k' = Some a → k = k').

(** A handler hands out more, and takes nothing back. *)
Definition grown (p0 p : pools) : Prop := pool_ok p ∧ po_ipMap p0 ⊆ po_ipMap p.

Lemma grown_counts p0 p counts :
  grown p0 p → grown p0 (MkPools counts (po_ipMap p) (po_nextV4 p) (po_nextV6 p)).
Proof. done. Qed.

(** Drawing a stand-in that was not drawn before. *)
Lemma grown_draw p0 p k a v4 v6 :
  grown p0 p → po_ipMap p !! k = None → ¬ drawn p a →
  (po_nextV4 p <= v4 <= poolSize)%Z → (po_nextV6 p <= v6)%Z →
  drawn (MkPools (po_counts p) (<[k := a]> (po_ipMap p)) v4 v6) a →
  grown p0 (MkPools (po_counts p) (<[k := a]> (po_ipMap p)) v4 v6).
Proof.
  intros [(H4 & H6 & Hd & Hi) Hsub] Hk Hfresh Hv4 Hv6 Ha. split; [|etrans; [exact Hsub|by apply insert_subseteq]].
  unfold pool_ok. simpl. split_and!; try lia.
  - intros k' a' [[<- <-]|[_ Hl]]%lookup_insert_Some; [done|].
    destruct (Hd _ _ Hl) as [(i & ? & ->)|(n & ? & ->)]; [left; exists i|right; exists n]; simpl;
      (split; [lia|done]).
  - intros k1 k2 a' [[<- <-]|[Hn1 Hl1]]%lookup_insert_Some [[<- E]|[Hn2 Hl2]]%lookup_insert_Some;
      [done|by apply Hd in Hl2| |by eapply Hi].
    subst. by apply Hd in Hl1.
Qed.

Lemma pooledIP_keeps p0 lit : keeps (grown p0) (pooledIP lit).
Proof.
  intros p Hp. unfold pooledIP. destruct (po_ipMap p !! _) as [got|] eqn:Hk; [done|].
  pose proof Hp as [(H4 & H6 & _) _].
  assert (grown p0 (MkPools (po_counts p) (<[IP_String (default [] (ParseIP lit)) := standIn6 (po_nextV6 p + 1)]>
    (po_ipMap p)) (po_nextV4 p) (po_nextV6 p + 1))) as G6.
  { apply grown_draw; try done; [|lia..|right; eexists; split; [|done]; simpl; lia].
    intros [(i & Hi & E)|(n & Hn & E)].
    - destruct (standIn4_spec i) as (_ & F & _); [lia|]. by rewrite <-E in F.
    - injection E as E%show_hex_inj; lia. }
  destruct (To4 _) as [v4|]; [destruct (has_colon lit)|]; try done.
  destruct (Z.leb_spec poolSize (po_nextV4 p)); [done|].
  apply grown_draw; try done; [|lia..|left; eexists; split; [|done]; simpl; lia].
  intros [(i & Hi & E)|(n & Hn & E)].
  - apply standIn4_inj in E; lia.
  - destruct (standIn4_spec (po_nextV4 p)) as (_ & F & _); [lia|]. by rewrite E in F.
Qed.

(** Induction on documents. *)
Section json_ind.
Context (P : json → Prop).
Hypothesis Hnull : P JNull.
Hypothesis Hbool : ∀ b, P (JBool b).
Hypothesis Hnum : ∀ n, P (JNum n).
Hypothesis Hstr : ∀ t, P (JStr t).
Hypothesis Harr : ∀ l, Forall P l → P (JArr l).
Hypothesis Hobj : ∀ l, Forall (λ kv, P kv.2) l → P (JObj l).

Fixpoint json_ind_nested (v : json) : P v :=
  match v with
  | JNull => Hnull
  | JBool b => Hbool b
  | JNum n => Hnum n
  | JStr t => Hstr t
  | JArr l =>
      Harr l ((fix go (l : list json) : Forall P l :=
                 match l with
                 | [] => @List.Forall_nil _ _
                 | v :: l => @List.Forall_cons _ _ v l (json_ind_nested v) (go l)
                 end) l)
  | JObj l =>
      Hobj l ((fix go (l : list (str * json)) : Forall (λ kv, P kv.2) l :=
                 match l with
                 | [] => @List.Forall_nil _ _
                 | (k, v) :: l => @List.Forall_cons _ _ (k, v) l (json_ind_nested v) (go l)
                 end) l)
  end.
End json_ind.

(** [walk] over the members of an object and the elements of an array, by name. *)
Section walk_equations.
Context `{RangeOrder} `{Log2Lib} (s : Sanitizer).

Definition walk_members (key : str) : list (str * json) → list (str * json) → eff pools (list (str * json)) :=
  fix members out l :=
  match l with
  | [] => mret out
  | (k, val) :: l =>
      nk ← (if String.eqb key "metrics" then mret k else Text s k);
      if among nk out.*1
      then throw (Errorf ("two keys sanitise to " +:+ quote nk +:+ "; refusing to merge them"))
      else
        nv ← walkMember s k val (String.eqb key "metrics") (walk s val k);
        members (out ++ [(nk, nv)]) l
  end.

Definition walk_elems (key : str) : list json → eff pools (list json) :=
  fix elems l :=
  match l with
  | [] => mret []
  | e :: l =>
      ne ← match e with
           | JStr _ => if among key exemptStringArrays then mret e else walk s e key
           | _ => walk s e key
           end;
      rest ← elems l;
      mret (ne :: rest)
  end.

Lemma walk_obj l key :
  walk s (JObj l) key =
  if among key exemptObjects then mret (JObj l)
  else out ← walk_members key [] l; mret (JObj out).
Proof. reflexivity. Qed.

Lemma walk_arr l key : walk s (JArr l) key = (out ← walk_elems key l; mret (JArr out)).
Proof. reflexivity. Qed.
End walk_equations.

(** *** Every handler only draws *)
Section draws.
Context `{RangeOrder} `{Log2Lib} (s : Sanitizer) (p0 : pools).
Notation draws m := (keeps (grown p0) m).

Lemma counted_draws cat : draws (counted cat).
Proof. intros p Hp. exact Hp. Qed.

Lemma replace_draws cat v : draws (replace s cat v).
Proof.
  unfold replace. apply keeps_bind; [apply counted_draws|]. intros _.
  destruct cat; first [apply keeps_ret|apply pooledIP_keeps].
Qed.

Lemma rebuild_draws text last spans : draws (rebuild s text last spans).
Proof.
  revert last. induction spans as [|sp spans IH]; intros last; simpl; [apply keeps_ret|].
  apply keeps_bind; [case_bool_decide; [apply keeps_ret|apply replace_draws]|]. intros r.
  apply keeps_bind; [apply IH|]. intros rest. apply keeps_ret.
Qed.

Lemma Text_draws text : draws (Text s text).
Proof. unfold Text. destruct (detect s text); [apply keeps_ret|apply rebuild_draws]. Qed.

Lemma rebuild_path_draws p last spans : draws (rebuild_path s p last spans).
Proof.
  revert last. induction spans as [|sp spans IH]; intros last; simpl; [apply keeps_ret|].
  destruct (_ <? _)%nat; [apply IH|]. apply keeps_bind; [apply replace_draws|]. intros r.
  apply keeps_bind; [apply IH|]. intros rest. apply keeps_ret.
Qed.

Lemma Path_draws rel : draws (Path s rel).
Proof.
  unfold Path. apply keeps_bind; [|intros l; apply keeps_ret].
  induction (Split rel slash) as [|p l IH]; simpl; [apply keeps_ret|].
  apply keeps_bind. { unfold path_part. destruct (inventorySpans s p); [apply keeps_ret|apply rebuild_path_draws]. }
  intros q. apply keeps_bind; [apply IH|]. intros rest. apply keeps_ret.
Qed.

Lemma whole_draws cat v : draws (r ← replace s cat v; mret (JStr r)).
Proof. apply keeps_bind; [apply replace_draws|]. intros r. apply keeps_ret. Qed.

Lemma maskEnvValue_draws val : draws (maskEnvValue s val).
Proof.
  destruct val as [| | |t|l|l]; cbn [maskEnvValue]; try apply keeps_ret; [apply whole_draws|].
  apply keeps_bind; [|intros l'; apply keeps_ret].
  induction l as [|[k v] l IH]; cbn [mask_members]; [apply keeps_ret|].
  apply keeps_bind; [destruct (among k envSafe); [apply keeps_ret|apply whole_draws]|]. intros nv.
  apply keeps_bind; [apply IH|]. intros rest. apply keeps_ret.
Qed.

Lemma walkMember_draws k val isMetric descend :
  draws descend → draws (walkMember s k val isMetric descend).
Proof.
  intros Hd. unfold walkMember.
  repeat first
    [apply whole_draws | apply maskEnvValue_draws | apply keeps_ret | exact Hd | case_match].
Qed.

Lemma walk_draws v key : draws (walk s v key).
Proof.
  revert key. induction v as [|b|n|t|l IH|l IH] using json_ind_nested; intros key; try apply keeps_ret.
  - simpl. apply keeps_bind; [apply Text_draws|]. intros r. apply keeps_ret.
  - rewrite walk_arr. apply keeps_bind; [|intros out; apply keeps_ret].
    induction IH as [|e l He _ IH]; cbn [walk_elems]; [apply keeps_ret|]. apply keeps_bind.
    { destruct e; first [apply He|destruct (among _ _); [apply keeps_ret|apply He]]. }
    intros ne. apply keeps_bind; [apply IH|]. intros rest. apply keeps_ret.
  - rewrite walk_obj. destruct (among key exemptObjects); [apply keeps_ret|].
    apply keeps_bind; [|intros out; apply keeps_ret]. generalize (@nil (str * json)) as out.
    induction IH as [|[k v] l Hv _ IH]; intros out; cbn [walk_members]; [apply keeps_ret|].
    apply keeps_bind; [destruct (String.eqb key "metrics"); [apply keeps_ret|apply Text_draws]|].
    intros nk. destruct (among nk _); [apply keeps_throw|].
    apply keeps_bind; [apply walkMember_draws, Hv|]. intros nv. apply IH.
Qed.
End draws.

(** Everything a sanitizer is asked to do, in any order. *)
Inductive uses `{RangeOrder} `{Log2Lib} (s : Sanitizer) (p : pools) : pools → Prop :=
| uses_none : uses s p p
| uses_text q t : uses s p q → uses s p (Text s t q).2
| uses_path q rel : uses s p q → uses s p (Path s rel q).2
| uses_json q v key : uses s p q → uses s p (walk s v key q).2.

Lemma keeps_state {St A} (I : St → Prop) (m : eff St A) q : keeps I m → I q → I (m q).2.
Proof. intros Hm Hq. specialize (Hm q Hq). by destruct (m q) as [[]]. Qed.

Lemma uses_grown `{RangeOrder} `{Log2Lib} s p q : uses s p q → pool_ok p → grown p q.
Proof.
  intros Hu Hp. induction Hu as [|q t _ IH|q rel _ IH|q v key _ IH]; [by split| | |];
    eapply keeps_state; eauto using Text_draws, Path_draws, walk_draws.
Qed.

Lemma no_pools_ok : pool_ok no_pools.
Proof.
  unfold pool_ok, poolSize. simpl. split_and!; try lia.
  - intros k a E. by rewrite lookup_empty in E.
  - intros k k' a E. by rewrite lookup_empty in E.
Qed.

(** Stand-ins of addresses.  Whatever a sanitizer is asked to do, an address that was
    given a stand-in keeps it, two addresses never get the same one, and the IPv4 pool
    hands out at most its 762 documentation addresses, which no rule replaces again. *)
Theorem stand_ins `{RangeOrder} `{Log2Lib} (s : Sanitizer) (p q : pools) :
  uses s no_pools p → uses s p q →
  po_ipMap p ⊆ po_ipMap q ∧
  (∀ k k' a, po_ipMap q !! k = Some a → po_ipMap q !! k' = Some a → k = k') ∧
  (po_nextV4 q <= poolSize)%Z ∧
  ∀ k a, po_ipMap q !! k = Some a →
    (documentation a = true ∧ classifyIP a = None) ∨ ∃ n, (1 <= n <= po_nextV6 q)%Z ∧ a = standIn6 n.
Proof.
  intros Hp Hq. destruct (uses_grown s _ _ Hp no_pools_ok) as [Hok _].
  destruct (uses_grown s _ _ Hq Hok) as [(H4 & H6 & Hd & Hi) Hsub].
  split; [done|]. split; [done|]. split; [lia|]. intros k a Ha.
  destruct (Hd k a Ha) as [(i & Hr & ->)|Hn]; [left|by right].
  destruct (standIn4_spec i) as (? & _ & ? & _); [lia|done].
Qed.

(** ** What a sanitised text is *)

(** The text with its spans replaced, and everything between them as it was. *)
Fixpoint weave (text : str) (last : nat) (spans : list span) (rs : list str) : str :=
  match spans, rs with
  | sp :: spans, r :: rs => slice text last (sp_start sp) +:+ r +:+ weave text (sp_end sp) spans rs
  | _, _ => drop last text
  end.

Definition value_of (text : str) (sp : span) : str := slice text (sp_start sp) (sp_end sp).

(** What stands for the value [v] of a category, the pools being [p]. *)
Definition stands_for (s : Sanitizer) (p : pools) (cat : Category) (v r : str) : Prop :=
  match cat with
  | CatKeep => r = v
  | CatSecret => r = maskSecret
  | CatEnvDump => r = maskEnv
  | CatIPv4Private | CatIPv4Public | CatIPv6Local | CatIPv6Public =>
      po_ipMap p !! IP_String (default [] (ParseIP v)) = Some r
  | _ => r = pseudonym s cat (canonical cat v)
  end.

Lemma slice_drop text a b : (a <= b)%nat → slice text a b +:+ drop b text = drop a text.
Proof.
  intros Hab. unfold slice. rewrite <-(take_drop (b - a) (drop a text)) at 2.
  by rewrite drop_drop, (Nat.add_comm a), Nat.sub_add.
Qed.

Lemma weave_values text last spans :
  tiles last (String.length text) spans →
  weave text last spans (value_of text <$> spans) = drop last text.
Proof.
  revert last. induction spans as [|sp spans IH]; intros last H; [done|]. destruct H as (H1 & H2 & H3).
  simpl. rewrite IH by done. unfold value_of. rewrite slice_drop by lia. by apply slice_drop.
Qed.

Lemma bind_inl {St A B} (m : eff St A) (f : A → eff St B) p b q :
  (m ≫= f) p = (inl b, q) → ∃ a p', m p = (inl a, p') ∧ f a p' = (inl b, q).
Proof. unfold mbind, M_bind. destruct (m p) as [[a|e] p']; [eauto|done]. Qed.

Section replaced.
Context `{RangeOrder} `{Log2Lib} (s : Sanitizer).

Lemma stands_for_mono p q cat v r :
  po_ipMap p ⊆ po_ipMap q → stands_for s p cat v r → stands_for s q cat v r.
Proof. intros Hsub. destruct cat; simpl; try done; intros Hr; by eapply lookup_weaken. Qed.

Lemma pooledIP_stores lit p r p' :
  pooledIP lit p = (inl r, p') → po_ipMap p' !! IP_String (default [] (ParseIP lit)) = Some r.
Proof.
  unfold pooledIP. destruct (po_ipMap p !! _) as [got|] eqn:Hk; [by intros [= <- <-]|].
  intros E. repeat case_match; simplify_eq; apply lookup_insert_eq.
Qed.

Lemma replace_stands cat v p r p' :
  replace s cat v p = (inl r, p') → cat ≠ CatKeep → stands_for s p' cat v r.
Proof.
  unfold replace, counted, mbind, M_bind, mret, M_ret. intros E Hk.
  destruct cat; simpl in *; simplify_eq; try done; by eapply pooledIP_stores.
Qed.

Lemma rebuild_weave text last spans p out p' :
  pool_ok p → rebuild s text last spans p = (inl out, p') →
  ∃ rs, out = weave text last spans rs ∧
    Forall2 (λ sp r, stands_for s p' (sp_cat sp) (value_of text sp) r) spans rs.
Proof.
  revert last p out. induction spans as [|sp spans IH]; intros last p out Hp E.
  { simpl in E. injection E as <- <-. exists []. split; [done|constructor]. }
  cbn [rebuild] in E. fold (value_of text sp) in E.
  apply bind_inl in E as (r & q & Er & (rest & q' & Es & E)%bind_inl). injection E as <- <-.
  assert (stands_for s q (sp_cat sp) (value_of text sp) r ∧ pool_ok q) as [Hr Hq].
  { case_bool_decide as Hc.
    - injection Er as <- <-. by rewrite Hc.
    - split; [by eapply replace_stands|].
      pose proof (keeps_state _ _ p (replace_draws s p (sp_cat sp) (value_of text sp))) as Hg.
      rewrite Er in Hg. by apply Hg. }
  destruct (IH _ _ _ Hq Es) as (rs & -> & Hrs).
  pose proof (keeps_state _ _ q (rebuild_draws s q text (sp_end sp) spans)) as Hg.
  rewrite Es in Hg. destruct Hg as [_ Hsub]; [done|].
  exists (r :: rs). split; [done|]. constructor; [|done]. by eapply stands_for_mono.
Qed.
End replaced.

(** What sanitising a text does to it.  The detector's spans are disjoint and in order;
    between them the text is left byte for byte, and each is replaced by what stands for
    its value: a mask, a pseudonym of the category and the value, or the address the pool
    has for it; a span that is kept stays as it was. *)
Theorem Text_replaces `{RangeOrder} `{Log2Lib} hosts users allow salt (text out : str) (p p' : pools) :
  let s := New hosts users allow salt in
  uses s no_pools p → Text s text p = (inl out, p') →
  let spans := detect s text in
  tiles 0 (String.length text) spans ∧
  text = weave text 0 spans (value_of text <$> spans) ∧
  ∃ rs, out = weave text 0 spans rs ∧
    Forall2 (λ sp r, stands_for s p' (sp_cat sp) (value_of text sp) r) spans rs.
Proof.
  intros s Hp E spans. assert (tiles 0 (String.length text) spans) as Ht by apply detect_tiles, New_sane.
  split; [done|]. split; [by rewrite weave_values|].
  destruct (uses_grown s _ _ Hp no_pools_ok) as [Hok _].
  unfold Text in E. fold spans in E. destruct spans as [|sp l] eqn:Hs.
  - injection E as <- <-. exists []. split; [done|constructor].
  - by eapply rebuild_weave in E.
Qed.

(** ** What a sanitised document keeps *)

(** A member whose value is read as an environment dump. *)
Definition env_member (isMetric : bool) (k : str) : bool := negb isMetric && MatchString keyEnv k.

(** A string that is kept where it stands. *)
Definition kept_string (isMetric : bool) (k t : str) : bool :=
  (isMetric && isFiniteNumber t) || (negb isMetric && among k exemptLeafKeys).

Definition is_str (v : json) : bool := match v with JStr _ => true | _ => false end.

(** What is left of an environment: the names of its variables, the values of the safe ones, and
    anything that is neither an object nor a string. *)
Definition env_kept (v v' : json) : Prop :=
  match v with
  | JObj l => ∃ l', v' = JObj l' ∧
      Forall2 (λ m m', m'.1 = m.1 ∧ m'.2 = if among m.1 envSafe then m.2 else JStr maskEnv) l l'
  | JStr _ => v' = v ∨ v' = JStr maskEnv
  | _ => v' = v
  end.

(** [v'] is [v] under [key], with nothing but strings and keys rewritten: numbers and
    booleans as they were, the same elements and members in the same order, metric names
    and metric values that are numbers, vocabulary, times and digests verbatim.  Under a key
    that mentions an environment it is [env_kept] that holds. *)
Inductive kept (key : str) : json → json → Prop :=
  | kept_null : kept key JNull JNull
  | kept_bool b : kept key (JBool b) (JBool b)
  | kept_num n : kept key (JNum n) (JNum n)
  | kept_str t t' : kept key (JStr t) (JStr t')
  | kept_arr l l' :
      Forall2 (λ e e', (among key exemptStringArrays && is_str e = true → e' = e) ∧ kept key e e') l l' →
      kept key (JArr l) (JArr l')
  | kept_exempt l : among key exemptObjects = true → kept key (JObj l) (JObj l)
  | kept_obj l l' :
      among key exemptObjects = false →
      Forall2 (λ m m', (String.eqb key "metrics" = true → m'.1 = m.1) ∧
        (match m.2 with
         | JStr t => kept_string (String.eqb key "metrics") m.1 t = true → m'.2 = m.2
         | _ => True
         end) ∧
        (env_member (String.eqb key "metrics") m.1 = true → env_kept m.2 m'.2) ∧
        (env_member (String.eqb key "metrics") m.1 = false → kept m.1 m.2 m'.2)) l l' →
      kept key (JObj l) (JObj l').

Section keeps.
Context `{RangeOrder} `{Log2Lib} (s : Sanitizer).

Lemma mask_members_kept l p out q :
  mask_members s l p = (inl out, q) →
  Forall2 (λ m m', m'.1 = m.1 ∧ m'.2 = if among m.1 envSafe then m.2 else JStr maskEnv) l out.
Proof.
  revert p out. induction l as [|[k v] l IH]; intros p out E; [injection E as <- <-; constructor|].
  cbn [mask_members] in E. apply bind_inl in E as (nv & q1 & Ev & (rest & q2 & Er & [= <- <-])%bind_inl).
  constructor; [|by eapply IH]. cbn [fst snd]. split; [done|].
  destruct (among k envSafe); [by injection Ev as <- <-|].
  by apply bind_inl in Ev as (r & q3 & [= <- <-] & [= <- <-]).
Qed.

Lemma maskEnvValue_kept val p nv q : maskEnvValue s val p = (inl nv, q) → env_kept val nv.
Proof.
  destruct val; simpl; try (by intros [= <- <-]).
  - intros (r & q1 & [= <- <-] & [= <- <-])%bind_inl. by right.
  - intros (l & q1 & El & [= <- <-])%bind_inl. exists l. split; [done|]. by eapply mask_members_kept.
Qed.

(** A string member that is not left to [walk] is kept or replaced by a string. *)
Lemma walkMember_kept k val isMetric descend p nv q :
  walkMember s k val isMetric descend p = (inl nv, q) →
  (∀ p nv q, descend p = (inl nv, q) → kept k val nv) →
  match val with JStr t => kept_string isMetric k t = true → nv = val | _ => True end ∧
  (if env_member isMetric k then env_kept val nv else kept k val nv).
Proof.
  intros E Hd. unfold walkMember in E. unfold kept_string, env_member.
  destruct (isMetric) eqn:Em; cbn [negb andb] in *.
  - destruct val as [|b|n|t|l|l]; try (split; [done|by eapply Hd]).
    destruct (isFiniteNumber t) eqn:E1; [injection E as <- <-; split; [done|constructor]|].
    destruct (MatchString keySerial k && negb (String.eqb t "")); [|split; [done|by eapply Hd]].
    split; [done|]. apply bind_inl in E as (r & q' & _ & [= <- <-]). constructor.
  - assert (∀ cat t, val = JStr t → (r ← replace s cat t; mret (JStr r)) p = (inl nv, q) → kept k val nv) as Hr.
    { intros cat t -> (r & q' & _ & [= <- <-])%bind_inl. constructor. }
    destruct (match val with JStr t => among k exemptLeafKeys | _ => false end) eqn:E3.
    { destruct val as [|b|n|t|l|l]; try done. rewrite E3 in E. injection E as <- <-. split; [done|].
      destruct (MatchString keyEnv k); [by left|constructor]. }
    split; [by destruct val; try done; rewrite E3|]. destruct (MatchString keyEnv k) eqn:Ek.
    { destruct val as [|b|n|t|l|l]; try (by eapply maskEnvValue_kept). rewrite E3 in E. by eapply maskEnvValue_kept. }
    destruct val as [|b|n|t|l|l]; try rewrite E3 in E;
      repeat first [solve [by eapply Hr] | solve [by eapply Hd] | case_match].
Qed.

Lemma walk_members_kept key l out p out' q :
  Forall (λ kv, ∀ key v' p p', walk s kv.2 key p = (inl v', p') → kept key kv.2 v') l →
  walk_members s key out l p = (inl out', q) →
  ∃ l', out' = out ++ l' ∧
    Forall2 (λ m m', (String.eqb key "metrics" = true → m'.1 = m.1) ∧
      (match m.2 with
       | JStr t => kept_string (String.eqb key "metrics") m.1 t = true → m'.2 = m.2
       | _ => True
       end) ∧
      (env_member (String.eqb key "metrics") m.1 = true → env_kept m.2 m'.2) ∧
        (env_member (String.eqb key "metrics") m.1 = false → kept m.1 m.2 m'.2)) l l'.
Proof.
  intros Hl. revert out p. induction Hl as [|[k v] l Hv _ IH]; intros out p E.
  { injection E as <- <-. exists []. split; [by rewrite app_nil_r|constructor]. }
  cbn [walk_members] in E. apply bind_inl in E as (nk & q1 & Ek & E).
  destruct (among nk out.*1); [done|]. apply bind_inl in E as (nv & q2 & Ev & E).
  apply IH in E as (l' & -> & Hl'). exists ((nk, nv) :: l'). split; [by rewrite <-(assoc_L (++))|].
  constructor; [|done]. apply walkMember_kept in Ev as [H1 H2]; [|intros; by eapply Hv].
  cbn [fst snd]. split; [intros Hm; rewrite Hm in Ek; by injection Ek|]. split; [done|].
  by destruct (env_member (String.eqb key "metrics") k).
Qed.

End keeps.

(** ** What leaves the site *)
Lemma find_set_child n e d path x :
  find (set_child n e d) path = Some x →
  (∃ rest, path = n :: rest ∧ leads e rest x) ∨ (find d path = Some x ∧ ∀ rest, path ≠ n :: rest).
Proof.
  destruct path as [|m rest]; [done|]. rewrite !find_cons. intros (y & Hy & Hl).
  rewrite child_set_child in Hy. destruct (String.eqb_spec m n) as [->|Hne]; simplify_eq; [eauto|].
  right. split; [eauto|]. intros r [= ? _]. done.
Qed.

(** A file of a directory something was put into is what was put there, or was there. *)
Lemma find_put path d b d' path' x :
  put d path b = Some d' → find d' path' = Some (File x) →
  (path' = path ∧ x = inl b) ∨ find d path' = Some (File x).
Proof.
  revert d d' path'. induction path as [|n path IH]; intros d d' path' Hp Hf; [done|].
  destruct path as [|m path].
  - assert (d' = set_child n (File (inl b)) d) as -> by (simpl in Hp; repeat case_match; by simplify_eq).
    apply find_set_child in Hf as [(rest & -> & Hl)|[? _]]; [|by right].
    destruct rest as [|? ?]; [left; by injection Hl as <-|by destruct Hl as (? & ? & ? & _)].
  - change (match child n d with
            | None => (λ sub, set_child n (Dir sub None) d) <$> put [] (m :: path) b
            | Some (Dir children err) => (λ sub, set_child n (Dir sub err) d) <$> put children (m :: path) b
            | Some _ => None
            end = Some d') in Hp.
    assert (∃ children err sub, put children (m :: path) b = Some sub ∧ d' = set_child n (Dir sub err) d ∧
      ∀ q y, find children q = Some y → find d (n :: q) = Some y) as (ch & err & sub & Hs & -> & Hd).
    { destruct (child n d) as [[|children err| |]|] eqn:Hc; try done;
        apply fmap_Some in Hp as (sub & Hs & ->); [exists children, err, sub|exists [], None, sub];
        (split_and!; [done|done|]); intros q y Hq; [|by destruct q as [|? [|]]].
      apply find_cons. exists (Dir children err). split; [done|].
      destruct q; [done|]. by exists children, err. }
    apply find_set_child in Hf as [(rest & -> & Hl)|[? _]]; [|by right].
    destruct rest as [|r rest]; [done|]. destruct Hl as (ch' & err' & [= <- <-] & Hl).
    destruct (IH _ _ _ Hs Hl) as [[Hr ->]|Hl']; [left; by rewrite Hr|right; by apply Hd].
Qed.

Lemma find_stage outs d d' path x :
  stage d outs = Some d' → find d' path = Some (File x) →
  (∃ rel b, (rel, b) ∈ outs ∧ path = Split rel slash ∧ x = inl b) ∨ find d path = Some (File x).
Proof.
  revert d. induction outs as [|[rel b] outs IH]; intros d Hs Hf; simpl in Hs.
  { simplify_eq. by right. }
  apply bind_Some in Hs as (d1 & Hp & Hs). destruct (IH _ Hs Hf) as [(r & b' & Hin & ? & ?)|Hf'].
  - left. exists r, b'. split_and!; [by right|done|done].
  - destruct (find_put _ _ _ _ _ _ Hp Hf') as [[-> ->]|?]; [left|by right].
    exists rel, b. split_and!; [left|done|done].
Qed.

(** *** The names of a copy *)
Lemma slice_chars p a b t : all_chars p t = true → all_chars p (slice t a b) = true.
Proof. intros Ht. by apply all_chars_take, all_chars_drop. Qed.

(** Not a name of dots alone. *)
Definition dots (t : str) : bool := all_chars (λ c, Ascii.eqb c ".") t.

Lemma valid_name_dots t : no_char slash t = true → dots t = false → valid_name t = true.
Proof.
  intros Hs Hd. unfold valid_name. rewrite Hs.
  destruct (String.eqb_spec t "") as [->|_]; [done|].
  destruct (String.eqb_spec t ".") as [->|_]; [done|]. by destruct (String.eqb_spec t "..") as [->|_].
Qed.

Section names.
Context `{RangeOrder} `{Log2Lib} (s : Sanitizer).

Lemma inventorySpans_cat t sp :
  sp ∈ inventorySpans s t → sp_cat sp = CatHostname ∨ sp_cat sp = CatUsername.
Proof.
  unfold inventorySpans. intros (l & Hsp & (tok & -> & _)%list_elem_of_fmap)%list_elem_of_join.
  unfold inventory_of in Hsp.
  apply elem_of_app in Hsp as [Hsp|Hsp]; [left|right];
    apply list_elem_of_join in Hsp as (l & Hl & (name & -> & _)%list_elem_of_fmap);
    by apply list_elem_of_fmap in Hl as (x & -> & _).
Qed.

Lemma replace_name cat v p r q :
  cat = CatHostname ∨ cat = CatUsername → replace s cat v p = (inl r, q) →
  no_char slash r = true ∧ dots r = false.
Proof.
  assert (∀ k m, no_char slash (take 12 (hex_encode (HMAC256 k m))) = true) as Hh.
  { intros k m. unfold no_char. apply all_chars_take. unfold HMAC256.
    apply (alnum_no_char slash); [done|]. apply hash_of_alnum. }
  intros [->| ->] [= <- _]; unfold pseudonym; cbn [prefixes canonical Category_string];
    (split; [|done]); unfold no_char in *; rewrite !all_chars_app, Hh; done.
Qed.

Lemma rebuild_path_name p last spans q r q' :
  no_char slash p = true → (∀ sp, sp ∈ spans → sp_cat sp = CatHostname ∨ sp_cat sp = CatUsername) →
  rebuild_path s p last spans q = (inl r, q') →
  no_char slash r = true ∧ (last = O → spans ≠ [] → dots r = false).
Proof.
  intros Hp. revert last q r. induction spans as [|sp spans IH]; intros last q r Hc E.
  { injection E as <- <-. split; [by apply all_chars_drop|done]. }
  cbn [rebuild_path] in E. destruct (Nat.ltb_spec (sp_start sp) last).
  { apply IH in E as [Hr _]; [|intros; apply Hc; by right]. split; [done|lia]. }
  apply bind_inl in E as (r1 & q1 & Er & (rest & q2 & Es & [= <- <-])%bind_inl).
  apply replace_name in Er as [Hn Hd]; [|apply Hc; left].
  apply IH in Es as [Hrest _]; [|intros; apply Hc; by right].
  pose proof (slice_chars _ last (sp_start sp) p Hp) as Hs. unfold no_char, dots in *.
  rewrite !all_chars_app, Hs, Hn, Hrest, Hd. split; [done|]. intros _ _. by rewrite andb_false_r.
Qed.

Lemma path_part_name p q r q' : valid_name p = true → path_part s p q = (inl r, q') → valid_name r = true.
Proof.
  intros Hv E. unfold path_part in E. destruct (inventorySpans s p) as [|sp spans] eqn:Hi; [by injection E as <- <-|].
  apply rebuild_path_name in E as [Hs Hd].
  - apply valid_name_dots; [done|by apply Hd].
  - unfold valid_name in Hv. rewrite !andb_true_iff in Hv. apply Hv.
  - intros x Hx. apply (inventorySpans_cat p). by rewrite Hi.
Qed.

Lemma Path_names rel q r q' :
  Forall (λ n, valid_name n = true) (Split rel slash) → Path s rel q = (inl r, q') →
  Forall (λ n, valid_name n = true) (Split r slash).
Proof.
  intros Hv E. apply bind_inl in E as (l & q1 & Hl & [= <- <-]).
  assert (l ≠ [] ∧ Forall (λ n, valid_name n = true) l) as [Hne Hall].
  { pose proof (Split_nonempty rel slash) as Hs. revert q l Hl. induction Hv as [|n ns Hn Hv IH]; intros q l Hl; [done|].
    cbn [parts] in Hl. apply bind_inl in Hl as (n' & q2 & Hn' & (l' & q3 & Hl' & [= <- <-])%bind_inl).
    apply path_part_name in Hn'; [|done]. split; [done|]. constructor; [done|].
    destruct ns as [|m ns]; [by injection Hl' as <- <-|]. by eapply IH. }
  change "/" with (String slash ""). rewrite (Split_Join l slash); [done|done|]. eapply Forall_impl; [exact Hall|].
  intros n Hn. unfold valid_name in Hn. rewrite !andb_true_iff in Hn. apply Hn.
Qed.
End names.

Lemma put_wf path d b d' :
  Forall (λ n, valid_name n = true) path → wf d → put d path b = Some d' → wf d'.
Proof.
  intros Hv. revert d d'. induction Hv as [|n path Hn Hv IH]; intros d d' Hwf E; [done|].
  destruct path as [|m path].
  - assert (d' = set_child n (File (inl b)) d) as -> by (simpl in E; repeat case_match; by simplify_eq).
    by apply set_child_wf.
  - change (match child n d with
            | None => (λ sub, set_child n (Dir sub None) d) <$> put [] (m :: path) b
            | Some (Dir children err) => (λ sub, set_child n (Dir sub err) d) <$> put children (m :: path) b
            | Some _ => None
            end = Some d') in E.
    destruct (child n d) as [[|children err| |]|] eqn:Hc; try done;
      apply fmap_Some in E as (sub & Hs & ->); apply set_child_wf; try done.
    + apply wf_dir. eapply IH; [|exact Hs]. apply wf_child in Hc as [_ He]; [exact He|done].
    + apply wf_dir. eapply IH; [|exact Hs]. exact wf_empty.
Qed.

Lemma stage_wf outs d d' :
  (∀ rel b, (rel, b) ∈ outs → Forall (λ n, valid_name n = true) (Split rel slash)) →
  wf d → stage d outs = Some d' → wf d'.
Proof.
  revert d. induction outs as [|[rel b] outs IH]; intros d Hv Hwf E; simpl in E; [by injection E as <-|].
  apply bind_Some in E as (d1 & Hp & E). eapply IH; [|by eapply put_wf; [eapply Hv; left| |]|exact E].
  intros r x Hx. eapply Hv. by right.
Qed.

Section copied.
Context `{RangeOrder} `{Log2Lib} `{JsonCodec}.

(** Nothing identifying is found in a text any more. *)
Definition scanned (s : Sanitizer) (rel text : str) : Prop :=
  if HasSuffix rel ".json" then ResidualJSON s text = inl [] else Residual s text = [].

Lemma rethrow_inl {St A} prefix (m : eff St A) p a q :
  rethrow prefix m p = (inl a, q) → m p = (inl a, q).
Proof.
  unfold rethrow, try, mbind, M_bind. destruct (m p) as [[x|e] q'] eqn:E; simpl; [|done].
  intros [= <- <-]. done.
Qed.

Lemma clean_file_scanned s rel data p clean q :
  clean_file s rel data p = (inl (clean, []), q) → scanned s rel clean.
Proof.
  unfold clean_file, scanned. destruct (HasSuffix rel ".json").
  - intros (c & q' & _ & E)%bind_inl. destruct (ResidualJSON s c) as [f|err] eqn:Er; [|done].
    by injection E as -> -> _.
  - destruct (ValidString _); [|done]. intros (t & q' & _ & E)%bind_inl.
    by injection E as -> -> _.
Qed.

Lemma clean_files_scanned s d seen files p outs q :
  clean_files s d seen files p = (inl outs, q) →
  length outs = length files ∧
  ∀ nrel b, (nrel, b) ∈ outs → ∃ rel, rel ∈ files ∧ scanned s rel b.
Proof.
  revert seen p outs. induction files as [|rel files IH]; intros seen p outs E; simpl in E.
  { injection E as <- <-. split; [done|]. by intros ? ? []%not_elem_of_nil. }
  destruct (read d rel) as [data|]; [|done]. apply bind_inl in E as (nrel & q1 & _ & E).
  destruct (list_first _ seen) as [[? ?]|]; [done|].
  apply bind_inl in E as ([clean findings] & q2 & Hc & E). destruct findings; [|done].
  apply bind_inl in E as (rest & q3 & Er & [= <- <-]). apply IH in Er as [Hlen Hall].
  split; [simpl; by f_equal|]. intros n b [[= -> ->]|Hin]%elem_of_cons.
  - exists rel. split; [left|]. by eapply clean_file_scanned.
  - destruct (Hall _ _ Hin) as (r & ? & ?). exists r. split; [by right|done].
Qed.

(** The new names are ones a file system holds. *)
Lemma clean_files_names s d seen files p outs q :
  (∀ rel, rel ∈ files → Forall (λ n, valid_name n = true) (Split rel slash)) →
  clean_files s d seen files p = (inl outs, q) →
  ∀ rel b, (rel, b) ∈ outs → Forall (λ n, valid_name n = true) (Split rel slash).
Proof.
  revert seen p outs. induction files as [|rel files IH]; intros seen p outs Hv E; simpl in E.
  { injection E as <- <-. by intros ? ? []%not_elem_of_nil. }
  destruct (read d rel) as [data|]; [|done]. apply bind_inl in E as (nrel & q1 & Hp & E).
  destruct (list_first _ seen) as [[? ?]|]; [done|].
  apply bind_inl in E as ([clean findings] & q2 & _ & E). destruct findings; [|done].
  apply bind_inl in E as (rest & q3 & Er & [= <- <-]).
  intros n b [[= -> ->]|Hin]%elem_of_cons.
  - by eapply Path_names; [apply Hv; left|].
  - eapply IH; [|exact Er|exact Hin]. intros r Hr. apply Hv. by right.
Qed.

(** C39: A sanitised copy.  It is only made of a directory that is sealed, unchanged and not
    itself a copy, where nothing was before; it holds the marker that makes it terminal, and
    every file of it but the marker and the seal was scanned again and came out clean.  Its
    own seal covers all of it: the copy of a directory of well-formed names verifies, as
    long as the names it comes to are ones a line of SHA256SUMS can hold. *)
Theorem sanitized_copy name out producer io outExists d hosts users salt copy n :
  sanitizeDir name out producer io outExists d hosts users salt = inl (copy, n) →
  isSanitized d = false ∧ verifyDir d = inl [] ∧ outExists = false ∧ io = None ∧
  n = Z.of_nat (length (listRegular d).1) ∧
  isSanitized copy = true ∧
  (wf d → (∀ rel, rel ∈ (listRegular copy).1 → storable rel = true) → verifyDir copy = inl []) ∧
  ∀ path x, find copy path = Some (File x) →
    path = [sumsFile] ∨ path = [sanitizedMarker] ∨
    ∃ rel text, rel ∈ (listRegular d).1 ∧ x = inl text ∧
      scanned (sanitizer_for d (listRegular d).1 hosts users salt) rel text.
Proof.
  unfold sanitizeDir. destruct (isSanitized d) eqn:Hs; [done|].
  destruct (verifyDir d) as [[|? ?]|]; [|done..]. destruct outExists; [done|].
  destruct (listRegular d) as [files [err|]] eqn:Hl; [done|]. cbn [fst].
  destruct (clean_files _ d [] files no_pools) as [[outs|e] p] eqn:Hc; [|done].
  destruct (stage [] outs) as [staged|] eqn:Hst; [|done]. destruct io; [done|].
  destruct (put staged [sanitizedMarker] (MarshalIndent (marker producer p) +:+ newline)) as [marked|] eqn:Hm; [|done].
  destruct (sealDir None marked) as [sealed [err|]] eqn:Hseal; [done|]. intros [= <- <-].
  pose proof Hc as [Hlen Hall]%clean_files_scanned.
  pose proof Hseal as (fs & b & _ & _ & _ & Hsealed)%sealDir_ok.
  split_and!; try done; [by rewrite Hlen| | |].
  - rewrite Hsealed. unfold isSanitized. rewrite child_set_child. simpl. simpl in Hm.
    destruct (child sanitizedMarker staged) as [[]|]; simplify_eq; by rewrite child_set_child.
  - intros Hwf Hst'. assert (wf marked) as Hwfm.
    { eapply (put_wf [sanitizedMarker]); [by repeat constructor| |exact Hm].
      eapply stage_wf; [|exact wf_empty|exact Hst].
      eapply clean_files_names; [|exact Hc]. intros rel Hr.
      by apply (listed_names d files). }
    apply (sealed_verifies marked); [done| |done].
    intros rel Hr. apply Hst'. by apply (sealed_listing marked).
  - rewrite Hsealed. intros path x [(rest & -> & Hlr)|[Hf _]]%find_set_child.
    { destruct rest; [by left|]. by destruct Hlr as (? & ? & ? & _). }
    right. destruct (find_put _ _ _ _ _ _ Hm Hf) as [[-> _]|Hf']; [by left|right].
    destruct (find_stage _ _ _ _ _ Hst Hf') as [(rel & t & Hin & _ & ->)|Hn].
    + destruct (Hall _ _ Hin) as (r & ? & ?). exists r, t. done.
    + by destruct path as [|? [|]].
Qed.
End copied.

(** ** Concrete inputs *)

(** A logarithm that finds no text secret by its entropy. *)
Definition no_entropy : Log2Lib := {| Log2 _ := fzero |}.

(** The documents of the example: the empty object. *)
Definition empty_documents : JsonCodec := {|
  Decode t := if String.eqb t "{}" then inl (JObj []) else inr "unexpected end of JSON input";
  Unmarshal t := if String.eqb t "{}" then Some [] else None;
  Encode _ := "{}";
  MarshalIndent _ := "{}";
|}.

Section examples.
#[local] Existing Instance key_order.
#[local] Existing Instance no_entropy.
#[local] Existing Instance empty_documents.

Definition site (hosts users : list str) : Sanitizer := New hosts users None "salt".
Definition run {A} (m : eff pools A) : A + error := (m no_pools).1.

(** The texts of the source's own tests. *)
Example addresses_pooled :
  run (Text (site [] []) "a 10.0.0.1 b 10.0.0.2 c 10.0.0.1 d 8.8.8.8 e 127.0.0.1 f 192.0.2.44 g ::1 h fd00::1") =
  inl "a 192.0.2.1 b 192.0.2.2 c 192.0.2.1 d 192.0.2.3 e 127.0.0.1 f 192.0.2.44 g ::1 h 2001:db8::1".
Proof. vm_compute. reflexivity. Qed.

Example tokens_only :
  (λ t, match run (Text (site ["spark-1"] []) t) with inl o => String.eqb o t | inr _ => false end) <$>
    ["spark-1"; "on spark-1."; "burnin-spark-1-7"; "spark-10"; "spark-1x"; "spark-1_a"] =
  [false; false; false; true; true; true].
Proof. vm_compute. reflexivity. Qed.

Example registry_kept :
  run (Text (site [] []) "pulled ghcr.io/baldwinspc/glimmer-burnin-host-health:v0.7.2") =
  inl "pulled ghcr.io/baldwinspc/glimmer-burnin-host-health:v0.7.2".
Proof. vm_compute. reflexivity. Qed.

Definition example_text : str := "peer 10.0.0.1 (spark-1)".

Lemma stand_ins_witness :
  let q := (Text (site ["spark-1"] []) example_text no_pools).2 in
  po_ipMap q !! "10.0.0.1" = Some "192.0.2.1" ∧ (po_nextV4 q <= poolSize)%Z.
Proof.
  set (q := (Text (site ["spark-1"] []) example_text no_pools).2). cbv zeta.
  assert (uses (site ["spark-1"] []) no_pools q) as Hq by (apply uses_text, uses_none).
  destruct (stand_ins (site ["spark-1"] []) no_pools q (uses_none _ _) Hq) as (_ & _ & H & _).
  split; [vm_compute; reflexivity|exact H].
Defined.

Lemma Text_replaces_witness :
  let s := site ["spark-1"] [] in
  tiles 0 (String.length example_text) (detect s example_text) ∧
  run (Text s example_text) = inl "peer 192.0.2.1 (host-09c0ce7df826)".
Proof.
  assert (run (Text (site ["spark-1"] []) example_text) = inl "peer 192.0.2.1 (host-09c0ce7df826)") as E
    by (vm_compute; reflexivity).
  split; [|exact E].
  assert (Text (site ["spark-1"] []) example_text no_pools =
    (inl "peer 192.0.2.1 (host-09c0ce7df826)", (Text (site ["spark-1"] []) example_text no_pools).2)) as E'
    by (rewrite <-E; apply surjective_pairing).
  exact (proj1 (Text_replaces ["spark-1"] [] None "salt" example_text _ no_pools _ (uses_none _ _) E')).
Defined.

Definition example_document : json :=
  JObj [("node", JStr "spark-1"); ("count", JNum "3"); ("metrics", JObj [("busGbps", JStr "97.51")]);
        ("environment", JObj [("inletC", JNum "21.5")])].

Definition example_walked : json :=
  JObj [("node", JStr "host-09c0ce7df826"); ("count", JNum "3"); ("metrics", JObj [("busGbps", JStr "97.51")]);
        ("environment", JObj [("inletC", JStr maskEnv)])].


(** A sealed directory of one record and one log, and its copy. *)
Definition example_plain : directory :=
  [("raw", Dir [("spark-1.log", File (inl example_text))] None); ("run.json", File (inl "{}"))].
Definition example_source : directory := (sealDir None example_plain).1.
Definition copy_of (r : (directory * Z) + str) : directory :=
  match r with inl (copy, _) => copy | inr _ => [] end.
Definition example_copy : directory :=
  copy_of (sanitizeDir "in" "out" JNull None false example_source ["spark-1"] [] "salt").

Lemma sanitized_copy_witness :
  verifyDir example_source = inl [] ∧ isSanitized example_copy = true ∧ verifyDir example_copy = inl [].
Proof.
  assert (sanitizeDir "in" "out" JNull None false example_source ["spark-1"] [] "salt" = inl (example_copy, 2%Z))
    as E by (vm_compute; reflexivity).
  assert (wf example_source) as Hwf.
  { assert (sealDir None example_plain = (example_source, None)) as Hs by (vm_compute; reflexivity).
    apply sealDir_ok in Hs as (fs & b & _ & _ & _ & ->). apply set_child_wf; [reflexivity|exact I|].
    assert (NoDup example_plain.*1) by (apply (bool_decide_unpack _); vm_compute; exact I).
    repeat first [apply I | split | apply NoDup_singleton]; assumption. }
  assert (∀ rel, rel ∈ (listRegular example_copy).1 → storable rel = true) as Hst.
  { apply forallb_elem. vm_compute. reflexivity. }
  pose proof (sanitized_copy "in" "out" JNull None false example_source ["spark-1"] [] "salt" example_copy 2 E)
    as (_ & H & _ & _ & _ & Hm & Hv & _).
  split; [exact H|]. split; [exact Hm|exact (Hv Hwf Hst)].
Defined.

(** *** Where the code falls short of its comments *)

(** [Path] passes over a name that stands before one it has replaced: users are looked for
    behind hosts, so a user's name left of a host's stays. *)
Lemma path_keeps_user :
  ∃ r, run (Path (site ["spark-1"] ["alice"]) "raw/alice-spark-1/run.json") = inl ("raw/alice-" +:+ r).
Proof. eexists. vm_compute. reflexivity. Qed.

(** Of two hosts, the one that stays depends on the order the range takes. *)
Lemma path_order_decides :
  (∃ r, run (Path (H := key_order) (site ["alpha"; "beta"] []) "beta-alpha") = inl ("beta-" +:+ r)) ∧
  (∃ r, run (Path (H := reverse_order) (site ["alpha"; "beta"] []) "beta-alpha") = inl ("host-" +:+ r)).
Proof. split; eexists; vm_compute; reflexivity. Qed.

(** An address that is itself a documentation address stays, and another one may get it for
    its stand-in. *)
Lemma stand_in_taken :
  run (Text (site [] []) "10.0.0.1 is not 192.0.2.1") = inl "192.0.2.1 is not 192.0.2.1".
Proof. vm_compute. reflexivity. Qed.

(** Past 65,535 addresses the IPv6 stand-ins are not addresses. *)
Lemma v6_pool_overflows : ParseIP (standIn6 65535) ≠ None ∧ ParseIP (standIn6 65536) = None.
Proof. split; vm_compute; done. Qed.

(** A list under a key of secrets or of an environment is neither masked nor found. *)
Lemma secret_lists_kept :
  let v := JObj [("env", JArr [JStr "PASSWORD=hunter2"]); ("password", JArr [JStr "hunter2"])] in
  run (walk (site [] []) v "") = inl v ∧ visit (site [] []) v "" = [].
Proof. split; vm_compute; reflexivity. Qed.

(** A drive digest that happens to read as a number is kept, and the scan exempts it. *)
Lemma numeric_digest_kept :
  let v := JObj [("metrics", JObj [("nvmeSerialDigests", JStr "1234567890123456")])] in
  run (walk (site [] []) v "") = inl v ∧ visit (site [] []) v "" = [].
Proof. split; vm_compute; reflexivity. Qed.

(** A number under a key that mentions an environment is masked. *)
Lemma environment_numbers_masked :
  run (walk (site [] []) (JObj [("environment", JObj [("inletC", JNum "21.5")])]) "") =
  inl (JObj [("environment", JObj [("inletC", JStr maskEnv)])]).
Proof. vm_compute. reflexivity. Qed.
End examples.
