(* ===== verification/RunnerLib.v ===== *)
(** * runners/*/zz_runnerlib.go: what every Go runner prints

    The helpers stamped into each runner: values kept on one line, metrics and markers as
    lines of stdout, and the environment a test is configured by.  An environment is a map
    from names to values; standard error is not modelled. *)

From Stdlib Require Import Ascii.
From S2P Require Import Prelude GoStrings GoFloat Contract Registry Runner.
Open Scope stdpp_scope.

(** ** Printing *)
Definition one_line (c : ascii) : ascii :=
  if Ascii.eqb c newline || Ascii.eqb c cr || Ascii.eqb c tab then " "%char else c.

Definition sanitize (s : str) : str :=
  let s := map_str one_line (replace_invalid s) in
  let s := Join (Fields s) " " in
  truncateAtRune s 300 "…".

(** A line of stdout, without its newline. *)
Definition metric (key value : str) : str := key +:+ "=" +:+ sanitize value.

(** The lines a runner printed, as the stdout they are. *)
Definition stdout_of (lines : list str) : str :=
  Join (lines ++ [""]) (String newline "").

Definition exitPass : Z := 0.
Definition exitFail : Z := 1.
Definition exitSkip : Z := 2.
Definition exitError : Z := 3.

(** ** The environment *)
Definition env := gmap str str.

(** [os.Getenv] *)
Definition Getenv (e : env) (name : str) : str := default "" (e !! name).

Definition envInt (e : env) (name : str) (def : Z) : Z :=
  let v := TrimSpace (Getenv e name) in
  if String.eqb v "" then def
  else match Atoi v with
       | Some n => if (n <=? 0)%Z then def else n
       | None => def
       end.

Definition envOr (e : env) (key fallback : str) : str :=
  let v := TrimSpace (Getenv e key) in
  if String.eqb v "" then fallback else v.

(** ** How a runner ends *)

(** It exits, or the Go runtime ends it in a panic: exit code 2, behind whatever it had
    printed, with the trace on standard error. *)
Inductive outcome :=
  | Exits (code : Z) (lines : list str)
  | Panics (lines : list str).

Definition exitPanic : Z := 2.

Definition exit_code (o : outcome) : Z := match o with Exits code _ => code | Panics _ => exitPanic end.
Definition printed_by (o : outcome) : list str := match o with Exits _ lines => lines | Panics lines => lines end.

(** ** What pkg/runner makes of it *)

Lemma Join_snoc (pre : list str) (x sep : str) :
  Join (pre ++ [x]) sep = match pre with [] => x | _ => Join pre sep +:+ sep +:+ x end.
Proof.
  induction pre as [|y pre IH]; [done|]. simpl. rewrite IH.
  destruct pre as [|z pre]; [done|]. simpl. by rewrite !str_app_assoc.
Qed.

Lemma Split_newline (pre : list str) (x : str) :
  ∃ p, Split (Join (pre ++ [x]) (String newline "")) newline = p ++ Split x newline.
Proof.
  rewrite Join_snoc. destruct pre as [|y pre]; [by exists []|].
  exists (Split (Join (y :: pre) (String newline "")) newline).
  apply (Split_sep_app (Join (y :: pre) (String newline "")) x newline).
Qed.

Lemma stdout_snoc (pre : list str) (x : str) :
  ∃ p, Split (stdout_of (pre ++ [x])) newline = p ++ Split x newline ++ [""].
Proof.
  destruct (Split_newline pre x) as [p E]. exists p. rewrite app_assoc, <-E.
  unfold stdout_of. rewrite Join_snoc. destruct (pre ++ [x]) as [|y l] eqn:El; [by destruct pre|].
  apply (Split_sep_app (Join (y :: l) (String newline "")) "" newline).
Qed.

(** A marker on the last line, whatever is printed before and behind it. *)
Lemma declares_marker (pre : list str) (m reason : str) :
  no_char newline m = true → (∀ h, line_skips (m +:+ h) = true) →
  DeclaresSkip (stdout_of (pre ++ [m +:+ reason])) = true.
Proof.
  intros Hm Hs. unfold DeclaresSkip. destruct (stdout_snoc pre (m +:+ reason)) as [p ->].
  destruct (Split_prefix m reason newline Hm) as (h & t & _ & ->).
  rewrite !existsb_app. simpl. rewrite Hs. by rewrite orb_true_r.
Qed.

(** A skip is declared by a marker. *)
Definition declared (code : Z) (lines : list str) : Prop :=
  code = exitSkip → DeclaresSkip (stdout_of lines) = true.

Lemma declared_parse kind code lines :
  declared code lines → r_Verdict (Parse kind (stdout_of lines) code) = VerdictFor code.
Proof.
  intros H. destruct (Parse_verdict kind (stdout_of lines) code) as (-> & _ & _).
  destruct (Z.eqb_spec code 2) as [->|]; [|done]. by rewrite (H eq_refl).
Qed.

Lemma declared_other code lines : code ≠ exitSkip → declared code lines.
Proof. by intros Hne ->. Qed.

Lemma declared_marker code pre m reason :
  no_char newline m = true → (∀ h, line_skips (m +:+ h) = true) →
  declared code (pre ++ [m +:+ reason]).
Proof. intros Hm Hs _. by apply declares_marker. Qed.
#[export] Hint Resolve declared_other declared_marker : burnin.

(** A value is one line. *)
Lemma all_chars_map p f s : (∀ c, p (f c) = true) → all_chars p (map_str f s) = true.
Proof. intros H. induction s as [|c s IH]; simpl; [done|]. by rewrite H, IH. Qed.

Lemma fields_go_chars p n cur s :
  all_chars p cur = true → all_chars p s = true → Forall (λ w, all_chars p w = true) (fields_go n cur s).
Proof.
  revert cur s. induction n as [|n IH]; intros cur s Hc Hs.
  { simpl. destruct (String.eqb cur ""); by repeat constructor. }
  destruct s as [|c s]; [simpl; destruct (String.eqb cur ""); by repeat constructor|].
  cbn [fields_go]. destruct (space_prefix (String c s)) as [m|].
  - apply Forall_app. split; [destruct (String.eqb cur ""); by repeat constructor|].
    apply IH; [done|by apply all_chars_drop].
  - simpl in Hs. apply andb_true_iff in Hs as [H1 H2]. apply IH; [|done].
    rewrite all_chars_app, Hc. simpl. by rewrite H1.
Qed.

Lemma Join_chars p l sep :
  all_chars p sep = true → Forall (λ w, all_chars p w = true) l → all_chars p (Join l sep) = true.
Proof.
  intros Hs. induction 1 as [|w l Hw _ IH]; [done|]. simpl. destruct l; [done|].
  by rewrite !all_chars_app, Hw, Hs.
Qed.

Lemma sanitize_line s : no_char newline (sanitize s) = true.
Proof.
  unfold no_char, sanitize, truncateAtRune.
  assert (all_chars (λ c, negb (Ascii.eqb c newline))
    (Join (Fields (map_str one_line (replace_invalid s))) " ") = true) as H.
  { apply Join_chars; [done|]. apply fields_go_chars; [done|]. apply all_chars_map. intros c.
    unfold one_line. destruct (Ascii.eqb c newline) eqn:E; [done|]. simpl.
    destruct (Ascii.eqb c cr || Ascii.eqb c tab); simpl; [done|]. by rewrite E. }
  case_match; [done|]. by rewrite all_chars_app, all_chars_take by done.
Qed.

(** The name of a metric is no marker. *)
Definition metric_name (key : str) : bool :=
  all_chars Runner.is_word key && no_char newline key && negb (HasSuffix key "_SKIP").

Definition metric_line (line : str) : Prop := ∃ key value, metric_name key = true ∧ line = metric key value.

Lemma word_run_app key rest :
  all_chars Runner.is_word key = true → word_run (key +:+ "=" +:+ rest) = key.
Proof.
  induction key as [|c key IH]; [done|]. simpl. intros [H1 H2]%andb_true_iff.
  rewrite H1. f_equal. by apply IH.
Qed.

Lemma metric_line_one line : metric_line line → no_char newline line = true ∧ line_skips line = false.
Proof.
  intros (key & value & Hk & ->). unfold metric_name in Hk.
  apply andb_true_iff in Hk as [[Hw Hn]%andb_true_iff Hs]. unfold metric. split.
  - pose proof (sanitize_line value) as Hv. unfold no_char in *. by rewrite !all_chars_app, Hn, Hv.
  - unfold line_skips. rewrite word_run_app by done. apply negb_true_iff in Hs. by rewrite Hs.
Qed.

Lemma metrics_declare_nothing lines : Forall metric_line lines → DeclaresSkip (stdout_of lines) = false.
Proof.
  intros H. unfold DeclaresSkip, stdout_of. rewrite Split_Join.
  - apply existsb_false_elem. intros l [Hl| ->%list_elem_of_singleton]%elem_of_app; [|done].
    rewrite Forall_forall in H. by apply metric_line_one, H.
  - by destruct lines.
  - apply Forall_app. split; [|by repeat constructor].
    eapply Forall_impl; [exact H|]. intros l Hl. by apply metric_line_one.
Qed.

(** A skip is declared, and a panic declares none. *)
Definition marked (o : outcome) : Prop :=
  match o with
  | Exits code lines => declared code lines
  | Panics lines => DeclaresSkip (stdout_of lines) = false
  end.
