(* ===== verification/XpuDiag.v ===== *)
(** * runners/xpu-diag: the verdict of xpu-smi's diagnostic (decide.go, main.go)

    The document's components decide, never the tool's exit code.  encoding/json into the
    response is a parameter; what running the tool came to is an argument. *)

From Stdlib Require Import Ascii.
From S2P Require Import Prelude GoStrings GoFloat Contract Registry Runner RunnerLib.
Open Scope stdpp_scope.
Open Scope Z_scope.

Definition xpumDiagResultUnknown : Z := 0.
Definition xpumDiagResultPass : Z := 1.
Definition xpumDiagResultFail : Z := 2.

Record diagComponent := MkDiagComponent {
  co_ComponentType : Z;
  co_Finished : bool;
  co_Result : Z;
  co_Message : str;
}.

Record diagResponse := MkDiagResponse {
  re_Errno : option Z;
  re_Error : str;
  re_Level : Z;
  re_ComponentList : list diagComponent;
}.

Inductive verdict := verdictError | verdictPass | verdictFail.

Record decision := MkDecision {
  de_Verdict : verdict;
  de_Reason : str;
  de_Total : Z;
  de_Passed : Z;
  de_Failed : Z;
  de_Incomplete : Z;
}.

Definition refused (reason : str) : decision := MkDecision verdictError reason 0 0 0 0.

(** The body of the loop over the components. *)
Definition tally (d : decision) (c : diagComponent) : decision :=
  let upd p f i := MkDecision (de_Verdict d) (de_Reason d) (de_Total d)
                     (de_Passed d + p) (de_Failed d + f) (de_Incomplete d + i) in
  if negb (co_Finished c) then upd 0 0 1
  else if co_Result c =? xpumDiagResultFail then upd 0 1 0
  else if co_Result c =? xpumDiagResultPass then upd 1 0 0
  else upd 0 0 1.

Section xpu.
Context (Unmarshal : str → diagResponse + str).

Definition decide (raw : str) : decision :=
  match Unmarshal raw with
  | inr err => refused ("could not parse xpu-smi diag JSON output: " +:+ err)
  | inl resp =>
      if match re_Errno resp with Some n => negb (n =? 0) | None => false end then
        refused (if String.eqb (re_Error resp) ""
                 then "xpu-smi diag reported a machinery error with no message" else re_Error resp)
      else
      match re_ComponentList resp with
      | [] => refused "xpu-smi diag reported no components; the hardware was not measured"
      | l =>
          let d := foldl tally (MkDecision verdictError "" (Z.of_nat (length l)) 0 0 0) l in
          let '(v, reason) :=
            if 0 <? de_Failed d then (verdictFail, "at least one diagnostic component reported FAIL")
            else if 0 <? de_Incomplete d then
              (verdictError, "at least one diagnostic component never reached a PASS/FAIL result")
            else (verdictPass, "every diagnostic component reported PASS") in
          MkDecision v reason (de_Total d) (de_Passed d) (de_Failed d) (de_Incomplete d)
      end
  end.

(** What the run of xpu-smi came to. *)
Record ran := MkRan {
  ra_timed_out : bool;
  ra_stdout : str;
  ra_error : option str;
  ra_elapsed : str;
}.

Definition markerPass : str := "XPU_DIAG_PASS".
Definition markerFail : str := "XPU_DIAG_FAIL".
Definition markerError : str := "XPU_DIAG_ERROR".

Definition finish (code : Z) (marker reason : str) : Z * str :=
  (code, if String.eqb reason "" then marker else marker +:+ ": " +:+ sanitize reason).

(** The exit code and the lines printed; [deadline] is the duration as text. *)
Definition run (e : env) (deadline : str) (r : ran) : Z * list str :=
  let printed := [metric "diag_level" (envOr e "BURNIN_XPU_DIAG_LEVEL" "1");
                  metric "device_id" (envOr e "BURNIN_XPU_DEVICE_ID" "0");
                  metric "attempt" (Itoa (envInt e "BURNIN_ATTEMPT" 1));
                  metric "elapsed_s" (ra_elapsed r)] in
  let ends lines f := (f.1, printed ++ lines ++ [f.2]) in
  if ra_timed_out r then
    ends [] (finish exitError markerError ("timed out waiting for xpu-smi diag after " +:+ deadline))
  else if String.eqb (ra_stdout r) "" then
    ends [] (finish exitError markerError
      match ra_error r with Some err => "xpu-smi diag: " +:+ err | None => "xpu-smi diag produced no output" end)
  else
    let d := decide (ra_stdout r) in
    let counts := [metric "tests_run" (Itoa (de_Total d)); metric "tests_passed" (Itoa (de_Passed d));
                   metric "tests_failed" (Itoa (de_Failed d));
                   metric "tests_incomplete" (Itoa (de_Incomplete d))] in
    ends counts
      match de_Verdict d with
      | verdictPass => finish exitPass markerPass (de_Reason d)
      | verdictFail => finish exitFail markerFail (de_Reason d)
      | verdictError => finish exitError markerError (de_Reason d)
      end.
End xpu.

(** ** Properties *)
Definition failed (c : diagComponent) : bool := co_Finished c && (co_Result c =? xpumDiagResultFail).
Definition passed (c : diagComponent) : bool := co_Finished c && (co_Result c =? xpumDiagResultPass).

Lemma tally_counts l d :
  de_Failed (foldl tally d l) = de_Failed d + count_if failed l ∧
  de_Passed (foldl tally d l) = de_Passed d + count_if passed l ∧
  de_Incomplete (foldl tally d l) = de_Incomplete d + count_if (λ c, negb (failed c || passed c)) l.
Proof.
  revert d. induction l as [|c l IH]; intros d; [unfold count_if; simpl; lia|].
  cbn [foldl]. destruct (IH (tally d c)) as (-> & -> & ->). rewrite !count_if_cons.
  unfold tally, failed, passed, xpumDiagResultFail, xpumDiagResultPass.
  destruct (co_Finished c), (Z.eqb_spec (co_Result c) 2), (Z.eqb_spec (co_Result c) 1); simpl; lia.
Qed.

(** The response a decision is about: one the tool did not put an error number on. *)
Definition answered (Unmarshal : str → diagResponse + str) (raw : str) (l : list diagComponent) : Prop :=
  ∃ resp, Unmarshal raw = inl resp ∧ default 0 (re_Errno resp) = 0 ∧ re_ComponentList resp = l ∧ l ≠ [].

Lemma decide_answered Unmarshal raw :
  de_Verdict (decide Unmarshal raw) = verdictError ∨
  ∃ l, answered Unmarshal raw l.
Proof.
  unfold decide, answered. destruct (Unmarshal raw) as [resp|]; [|by left].
  destruct (match re_Errno resp with Some n => negb (n =? 0) | None => false end) eqn:En; [by left|].
  destruct (re_ComponentList resp) as [|c l] eqn:El; [by left|]. right.
  exists (c :: l), resp. split_and!; try done.
  destruct (re_Errno resp); [|done]. by apply negb_false_iff, Z.eqb_eq in En.
Qed.

Lemma answered_decide Unmarshal raw l :
  answered Unmarshal raw l →
  de_Verdict (decide Unmarshal raw) =
  (if 0 <? count_if failed l then verdictFail
   else if 0 <? count_if (λ c, negb (failed c || passed c)) l then verdictError else verdictPass).
Proof.
  intros (resp & E & En & El & Hne). unfold decide. rewrite E.
  assert (match re_Errno resp with Some n => negb (n =? 0) | None => false end = false) as ->.
  { destruct (re_Errno resp); [|done]. simpl in En. by subst. }
  rewrite El. destruct l as [|c l]; [done|].
  destruct (tally_counts (c :: l) (MkDecision verdictError "" (Z.of_nat (length (c :: l))) 0 0 0)) as (F & _ & I).
  cbn [de_Failed de_Incomplete] in F, I. cbv zeta. rewrite F, I, !Z.add_0_l.
  destruct (0 <? count_if failed (c :: l)); [done|].
  by destruct (0 <? count_if (λ c, negb (failed c || passed c)) (c :: l)).
Qed.

(** A pass is every component finished and passing, a fail is one that finished failing; a
    component that has not answered is neither. *)
Theorem decide_verdict (Unmarshal : str → diagResponse + str) (raw : str) :
  (de_Verdict (decide Unmarshal raw) = verdictPass ↔
   ∃ l, answered Unmarshal raw l ∧ ∀ c, c ∈ l → co_Finished c = true ∧ co_Result c = 1) ∧
  (de_Verdict (decide Unmarshal raw) = verdictFail ↔
   ∃ l, answered Unmarshal raw l ∧ ∃ c, c ∈ l ∧ co_Finished c = true ∧ co_Result c = 2).
Proof.
  assert (∀ c, failed c = true ↔ co_Finished c = true ∧ co_Result c = 2) as Hf.
  { intros c. unfold failed, xpumDiagResultFail. by rewrite andb_true_iff, Z.eqb_eq. }
  assert (∀ c, passed c = true ↔ co_Finished c = true ∧ co_Result c = 1) as Hp.
  { intros c. unfold passed, xpumDiagResultPass. by rewrite andb_true_iff, Z.eqb_eq. }
  assert (∀ l l', answered Unmarshal raw l → answered Unmarshal raw l' → l = l') as Huniq.
  { intros l l' (? & ? & ? & ? & ?) (? & ? & ? & ? & ?). congruence. }
  setoid_rewrite <-Hf. setoid_rewrite <-Hp.
  destruct (decide_answered Unmarshal raw) as [E|[l Hl]].
  { rewrite E. split; split; try done; intros (l & Hl & H); exfalso;
      rewrite (answered_decide _ _ _ Hl) in E; revert E;
      (destruct (Z.ltb_spec 0 (count_if failed l)) as [Hc|Hc]; [done|]).
    - destruct (Z.ltb_spec 0 (count_if (λ c, negb (failed c || passed c)) l)) as [Hi|Hi]; [|done].
      apply count_if_pos in Hi as (c & Hin & Hb). rewrite (H c Hin), orb_true_r in Hb. done.
    - intros _. apply Z.le_ngt in Hc. apply Hc, count_if_pos. destruct H as (c & ? & ?). eauto. }
  rewrite (answered_decide _ _ _ Hl).
  destruct (Z.ltb_spec 0 (count_if failed l)) as [Hc|Hc].
  { apply count_if_pos in Hc as (c & Hin & Hb). split; split; try done.
    - intros (l' & Hl' & H). rewrite <-(Huniq _ _ Hl Hl') in H. specialize (H c Hin).
      apply Hf in Hb. apply Hp in H. destruct Hb, H. congruence.
    - intros _. eauto. }
  assert (∀ c, c ∈ l → failed c = false) as Hnf.
  { intros c Hin. apply not_true_is_false. intros Hb. apply Z.le_ngt in Hc. apply Hc, count_if_pos. eauto. }
  split.
  - destruct (Z.ltb_spec 0 (count_if (λ c, negb (failed c || passed c)) l)) as [Hi|Hi]; split; try done.
    + intros (l' & Hl' & H). rewrite <-(Huniq _ _ Hl Hl') in H.
      apply count_if_pos in Hi as (c & Hin & Hb). by rewrite (H c Hin), orb_true_r in Hb.
    + intros _. exists l. split; [done|]. intros c Hin. destruct (passed c) eqn:Ep; [done|].
      exfalso. apply Z.le_ngt in Hi. apply Hi, count_if_pos. exists c. by rewrite (Hnf c Hin), Ep.
  - split; [by case_match|]. intros (l' & Hl' & c & Hin & Hb).
    rewrite <-(Huniq _ _ Hl Hl') in Hin. by rewrite (Hnf c Hin) in Hb.
Qed.

(** A skip never comes of it, and the code is the decision's. *)
Lemma xpu_run_declared (Unmarshal : str → diagResponse + str) (e : env) (deadline : str) (r : ran) :
  declared (run Unmarshal e deadline r).1 (run Unmarshal e deadline r).2.
Proof.
  apply declared_other. unfold run.
  destruct (ra_timed_out r); [done|]. destruct (String.eqb (ra_stdout r) ""); [done|]. simpl.
  by destruct (de_Verdict (decide Unmarshal (ra_stdout r))).
Qed.
