(* ===== verification/NetGuard.v ===== *)
(** * runners/tcp-baseline: the management-path guard (mgmtguard.go, handshake.go, main.go)

    Neither end of a pair may load the interface its node is managed through.  The client
    judges the route to its peer; the server judges the interface the client's connection
    arrived on, and tells the client.  Files of /proc, the interfaces and the kernel's route
    lookup are what each end [sees]; a connection is a line, or that none came, with the
    local address it arrived on. *)

From Stdlib Require Import Ascii.
From S2P Require Import Prelude GoStrings GoFloat GoNet Contract Registry Runner RunnerLib.
Open Scope stdpp_scope.
Open Scope Z_scope.

(** ** mgmtguard.go *)
Inductive routeDecision := routeOK | routeIsManagement | routeUnknown.

Global Instance routeDecision_eq_dec : EqDecision routeDecision.
Proof. solve_decision. Defined.

Record guardResult := MkGuardResult {
  gr_decision : routeDecision;
  gr_iface : str;
  gr_mgmtIface : str;
  gr_reason : str;
}.

Inductive netnsKind := netnsUnknown | netnsHost | netnsNotHost.

Global Instance netnsKind_eq_dec : EqDecision netnsKind.
Proof. solve_decision. Defined.

Definition initialNetnsLink : str := "net:[4026531840]".

Definition netnsFromLinks (selfLink pid1Link : str) : netnsKind :=
  if String.eqb selfLink "" then netnsUnknown
  else if negb (String.eqb pid1Link "") && negb (String.eqb pid1Link selfLink) then netnsNotHost
  else if String.eqb selfLink initialNetnsLink then netnsHost
  else netnsUnknown.

Definition classifyRoute (peerIface mgmtIface : str) (explicit : bool) (ns : netnsKind) : guardResult :=
  if String.eqb mgmtIface "" then
    MkGuardResult routeUnknown "" ""
      ("could not determine this node's default route, so there is no way to tell the " +:+
       "management interface from a fabric one. Refusing to generate load rather than guess: " +:+
       "saturating the management path costs the cluster, not just this test")
  else if String.eqb peerIface "" then
    MkGuardResult routeUnknown "" mgmtIface
      ("could not determine which interface reaches the peer, so it cannot be compared " +:+
       "against the management interface (" +:+ mgmtIface +:+ ")")
  else if String.eqb peerIface mgmtIface && explicit then
    MkGuardResult routeUnknown peerIface mgmtIface
      ("the interface named for this test (" +:+ peerIface +:+ ") is this node's management interface — the one carrying " +:+
       "its default route. Point the test at a fabric address instead; there is no override, because " +:+
       "the cost of being wrong is the cluster and not the test")
  else if String.eqb peerIface mgmtIface && negb (bool_decide (ns = netnsHost)) then
    MkGuardResult routeUnknown peerIface mgmtIface
      ("the only visible route to the peer is " +:+ peerIface +:+ ", which also carries the default route — but this " +:+
       "process is not in the host's network namespace, so that describes the POD's routing and " +:+
       "says nothing about the node's. A one-NIC node and a pod namespace look identical from " +:+
       "inside. Set hostNetwork: true so the test can see the node's real interfaces; refusing " +:+
       "rather than reporting this node as not-applicable, which would leave the fabric unmeasured")
  else if String.eqb peerIface mgmtIface then
    MkGuardResult routeIsManagement peerIface mgmtIface
      ("the only route to the peer is " +:+ peerIface +:+ ", which carries this node's default route and is therefore its " +:+
       "management path. A node with one interface cannot be load-tested without loading the path the " +:+
       "cluster is managed through")
  else MkGuardResult routeOK peerIface mgmtIface "".

(** [strconv.ParseInt(s, 16, 64)] *)
Definition ParseHex (s : str) : option Z :=
  let '(neg, ds) := strip_sign s in
  if String.eqb ds "" then None
  else
    match foldl (λ acc c, match acc, hex_val c with Some n, Some d => Some (16 * n + d) | _, _ => None end)
            (Some 0) (String.list_ascii_of_string ds) with
    | Some n => let n := if neg then - n else n in
                if (- 2 ^ 63 <=? n) && (n <? 2 ^ 63) then Some n else None
    | None => None
    end.

Definition rtfUp : Z := 1.
Definition rtfGateway : Z := 2.

Definition field (l : list str) (i : nat) : str := default "" (l !! i).

(** The default route a line of /proc/net/route is: its interface and its metric. *)
Definition default_route (line : str) : option (str * Z) :=
  let fields := Fields line in
  if (length fields <=? 6)%nat then None
  else if negb (String.eqb (field fields 1) "00000000") then None
  else
    match ParseHex (field fields 3) with
    | None => None
    | Some flags =>
        if (Z.land flags rtfUp =? 0) || (Z.land flags rtfGateway =? 0) then None
        else (λ metric, (field fields 0, metric)) <$> ParseInt 64 (field fields 6)
    end.

Definition better (best : str * Z) (route : str * Z) : str * Z :=
  if (best.2 <? 0) || (route.2 <? best.2) then route else best.

Definition defaultRouteIface (procNetRoute : str) : str :=
  (foldl better ("", -1) (omap default_route (Split procNetRoute newline))).1.

Record hostIface := MkHostIface { hi_Name : str; hi_Addrs : list ip }.

Definition ifaceOwning (x : ip) (ifaces : list hostIface) : str :=
  match list_first (λ i, existsb (λ a, bool_decide (a = x)) (hi_Addrs i)) ifaces with
  | Some i => hi_Name i
  | None => ""
  end.

(** ** What one end sees *)
Record sight := MkSight {
  si_route : str + str;                       (* /proc/net/route, or the error reading it *)
  si_selfNS : str;
  si_pid1NS : str;
  si_ifaces : list hostIface;
  si_local : str → option ip;                 (* the local address the kernel routes to a peer from *)
  si_listen : option str;                     (* why the guard port cannot be listened on any longer *)
}.

Definition ifaceForAddr (s : sight) (peer : str) : str :=
  match si_local s peer with Some x => ifaceOwning x (si_ifaces s) | None => "" end.

Definition unreadable_route (err : str) : str :=
  "could not read /proc/net/route (" +:+ err +:+ "), so the management-path guard cannot run. " +:+
  "This image is Linux-only and needs the host network namespace; a burn-in must never " +:+
  "saturate the interface the cluster is managed through, so it refuses rather than guesses".

Definition netns_of (s : sight) : netnsKind := netnsFromLinks (si_selfNS s) (si_pid1NS s).

(** ** The client's own path (main.go) *)
Definition guardPath (e : env) (s : sight) (peerHost : str) : guardResult :=
  match si_route s with
  | inr err => MkGuardResult routeUnknown "" "" (unreadable_route err)
  | inl route =>
      let mgmt := defaultRouteIface route in
      let explicit := TrimSpace (Getenv e "TCP_BASELINE_INTERFACE") in
      let testIface := if String.eqb explicit "" && negb (String.eqb peerHost "")
                       then ifaceForAddr s peerHost else explicit in
      classifyRoute testIface mgmt (negb (String.eqb explicit "")) (netns_of s)
  end.

(** ** The server's (handshake.go) *)
Definition guardHello : str := "HELLO".

(** A connection: the line its end sent, if one ended, and the address it arrived on. *)
Record conn := MkConn { cn_line : option str; cn_local : option ip }.

Definition readHello (c : conn) : option (option ip) :=
  match cn_line c with
  | Some line => if String.eqb (TrimSpace line) guardHello then Some (cn_local c) else None
  | None => None
  end.

Definition classifyHandshake (local : option ip) (explicit : str) (ifaces : list hostIface)
    (mgmt : str) (ns : netnsKind) : guardResult :=
  let peerIface :=
    if negb (String.eqb explicit "") then explicit
    else match local with Some x => ifaceOwning x ifaces | None => "" end in
  classifyRoute peerIface mgmt (negb (String.eqb explicit "")) ns.

(** The connections in the order they are accepted, before the deadline or the error that
    stops the listener. *)
Fixpoint runGuardListener (guardPort : Z) (conns : list conn) (explicit mgmt : str) (ns : netnsKind)
    (ifaces : list hostIface) (stopped : option str) : guardResult + str :=
  match conns with
  | [] =>
      match stopped with
      | Some err => inr err
      | None => inr ("no client completed the guard handshake on :" +:+ Itoa guardPort +:+
                  " within 2m0s — the guard cannot classify a path with no peer, and refuses rather than binding blind")
      end
  | c :: conns =>
      match readHello c with
      | None => runGuardListener guardPort conns explicit mgmt ns ifaces stopped
      | Some local => inl (classifyHandshake local explicit ifaces mgmt ns)
      end
  end.

Definition serveGuard (guardPort : Z) (e : env) (s : sight) (conns : list conn) : guardResult + str :=
  match si_route s with
  | inr err => inr (unreadable_route err)
  | inl route =>
      runGuardListener guardPort conns (TrimSpace (Getenv e "TCP_BASELINE_INTERFACE"))
        (defaultRouteIface route) (netns_of s) (si_ifaces s) (si_listen s)
  end.

Definition respondGuard (r : guardResult) : str :=
  match gr_decision r with
  | routeIsManagement => "SKIP:" +:+ gr_reason r +:+ String newline ""
  | routeUnknown => "ERROR:" +:+ gr_reason r +:+ String newline ""
  | routeOK => "OK" +:+ String newline ""
  end.

Record guardVerdict := MkGuardVerdict { gv_ok : bool; gv_skip : bool; gv_reason : str }.

Definition parseGuardLine (line : str) : guardVerdict + str :=
  let line := TrimSpace line in
  if String.eqb line "OK" then inl (MkGuardVerdict true false "")
  else if HasPrefix line "SKIP:" then inl (MkGuardVerdict false true (TrimPrefix line "SKIP:"))
  else if HasPrefix line "ERROR:" then inl (MkGuardVerdict false false (TrimPrefix line "ERROR:"))
  else inr ("unrecognised guard verdict " +:+ quote line).

(** [ReadString('\n')]: up to the first newline, which is part of it. *)
Definition first_line (sent : str) : option str :=
  match IndexByte sent newline with Some i => Some (take (S i) sent) | None => None end.

(** ** Both ends (main.go) *)

(** What a runner ends with: its exit code, the lines it printed, and whether iperf3 was
    started. *)
Record ended := MkEnded { en_code : Z; en_lines : list str; en_loaded : bool }.

Definition fin_line (code : Z) (msg : str) : list str :=
  if code =? exitSkip then ["TCP_BASELINE_SKIP: " +:+ sanitize msg]
  else if code =? exitError then ["TCP_BASELINE_ERROR: " +:+ sanitize msg]
  else if code =? exitFail then ["TCP_BASELINE_FAIL: " +:+ sanitize msg]
  else [].

Definition fin (printed : list str) (loaded : bool) (code : Z) (msg : str) : ended :=
  MkEnded code (printed ++ fin_line code msg) loaded.

(** The metrics a guard records, whatever it decides. *)
Definition guard_metrics (selfNS : str) (r : guardResult) : list str :=
  (if String.eqb selfNS "" then [] else [metric "tcpNetNamespace" selfNS]) ++
  (if String.eqb (gr_iface r) "" then [] else [metric "tcpTestInterface" (gr_iface r)]) ++
  (if String.eqb (gr_mgmtIface r) "" then [] else [metric "tcpMgmtInterface" (gr_mgmtIface r)]).

(** The exit code of a decision that refuses. *)
Definition refusal (d : routeDecision) : option Z :=
  match d with
  | routeIsManagement => Some exitSkip
  | routeUnknown => Some exitError
  | routeOK => None
  end.

(** The part of iperf3's JSON the runner reads. *)
Record iperfDoc := MkIperfDoc {
  ip_Error : str;
  ip_Bits : float64;
  ip_Retrans : option Z;
  ip_Seconds : float64;
  ip_Rtts : list (option float64);
}.

Record iperfResult := MkIperfResult {
  ir_ThroughputGbps : float64;
  ir_Retransmits : Z;
  ir_MeanRttUs : option float64;
  ir_Seconds : float64;
  ir_Error : str;
}.

Section ends.
(** encoding/json into the document, and 1e9. *)
Context (Unmarshal : str → iperfDoc + str).

Definition parseIperf (raw : str) : iperfResult + str :=
  match Unmarshal (TrimSpace raw) with
  | inr err => inr ("not iperf3 JSON: " +:+ err)
  | inl doc =>
      if negb (String.eqb (ip_Error doc) "")
      then inl (MkIperfResult fzero 0 None fzero (ip_Error doc))
      else inl (MkIperfResult (fdiv (ip_Bits doc) (float_of_Z 1000000000)) (default 0 (ip_Retrans doc))
                  (head (omap id (ip_Rtts doc))) (ip_Seconds doc) "")
  end.

(** What the client meets: the server's line or why there is none, whether the listener
    appeared, and what iperf3 printed and how it ended. *)
Record meeting := MkMeeting {
  me_verdict : str + str;
  me_listener : option str;
  me_output : str;
  me_error : option str;
}.

Definition runClient (printed : list str) (peerHost peerNode : str) (port guardPort : Z) (m : meeting) : ended :=
  let at_ p := peerHost +:+ ":" +:+ Itoa p in
  match (match me_verdict m with inl line => parseGuardLine line | inr err => inr err end) with
  | inr err =>
      fin printed false exitError
        ("could not complete the management-path handshake with " +:+ at_ guardPort +:+ " (node " +:+ peerNode +:+ "): " +:+ err)
  | inl v =>
      if negb (gv_ok v) then
        fin printed false (if gv_skip v then exitSkip else exitError)
          ("server (node " +:+ peerNode +:+ ") declared its path unsafe: " +:+ gv_reason v)
      else
      match me_listener m with
      | Some err =>
          fin printed false exitError
            ("no listener on " +:+ at_ port +:+ " after 120s (node " +:+ peerNode +:+ "): " +:+ err +:+
             " — the server end never came up, which is a statement about this run and not about the link")
      | None =>
          match me_error m with
          | Some err =>
              fin printed true exitError
                ("iperf3 did not complete against " +:+ peerHost +:+ " (node " +:+ peerNode +:+ "): " +:+ err +:+
                 " — a connection error here is a statement about this run, not about the link")
          | None =>
              match parseIperf (me_output m) with
              | inr err => fin printed true exitError ("could not read iperf3's output: " +:+ err)
              | inl res =>
                  if negb (String.eqb (ir_Error res) "") then
                    fin printed true exitError ("iperf3 reported: " +:+ ir_Error res)
                  else
                    let printed := printed ++
                      [metric "tcpThroughputGbps" (FormatFloat (ir_ThroughputGbps res));
                       metric "tcpRetransmits" (Itoa (ir_Retransmits res))] ++
                      match ir_MeanRttUs res with Some rtt => [metric "tcpRttUs" (FormatFloat rtt)] | None => [] end ++
                      [metric "elapsedS" (FormatFloat (ir_Seconds res))] in
                    if fle (ir_ThroughputGbps res) fzero then
                      fin printed true exitFail
                        ("iperf3 completed but measured no throughput to " +:+ peerHost +:+ " (node " +:+ peerNode +:+ ")")
                    else MkEnded exitPass printed true
              end
          end
      end
  end.

(** The server: the handshake, then iperf3 until it is killed; [died] is how it ended when
    it was not. *)
Definition runServer (e : env) (s : sight) (guardPort : Z) (conns : list conn) (died : option str) : ended :=
  match serveGuard guardPort e s conns with
  | inr err => fin (match si_route s with
                    | inl _ => if String.eqb (si_selfNS s) "" then [] else [metric "tcpNetNamespace" (si_selfNS s)]
                    | inr _ => []
                    end) false exitError err
  | inl r =>
      let printed := guard_metrics (si_selfNS s) r in
      match refusal (gr_decision r) with
      | Some code => fin printed false code (gr_reason r)
      | None =>
          match died with
          | Some err => fin printed true exitError ("the iperf3 server exited badly: " +:+ err)
          | None => MkEnded exitPass printed true
          end
      end
  end.

Definition run (e : env) (s : sight) (noIperf : option str) (conns : list conn) (died : option str) (m : meeting) : ended :=
  let role := TrimSpace (Getenv e "BURNIN_ROLE") in
  let peerHost := TrimSpace (Getenv e "BURNIN_PEER_HOST") in
  let peerNode := TrimSpace (Getenv e "BURNIN_PEER_NODE") in
  let port := envInt e "TCP_BASELINE_PORT" 5201 in
  if negb (String.eqb (Getenv e "BURNIN_RANK") "") && String.eqb role "" then
    fin [] false exitSkip ("BURNIN_RANK is set, so this is a Group execution; this runner speaks only " +:+
      "the Pair rendezvous (BURNIN_ROLE/BURNIN_PEER_HOST)")
  else if String.eqb role "" then
    fin [] false exitSkip ("BURNIN_ROLE is not set, so this pod is not half of a Pair — a link test with " +:+
      "one end measures nothing")
  else if negb (String.eqb role "server") && negb (String.eqb role "client") then
    fin [] false exitError ("BURNIN_ROLE=" +:+ quote role +:+ " is neither " +:+ quote "server" +:+ " nor " +:+ quote "client")
  else if String.eqb role "client" && String.eqb peerHost "" then
    fin [] false exitError "BURNIN_ROLE=client but BURNIN_PEER_HOST is empty — there is no peer to dial"
  else
  match noIperf with
  | Some err => fin [] false exitError ("iperf3 is not on PATH in this image: " +:+ err)
  | None =>
      let guardPort := envInt e "TCP_BASELINE_GUARD_PORT" 5202 in
      if String.eqb role "server" then runServer e s guardPort conns died
      else
        let r := guardPath e s peerHost in
        let printed := match si_route s with inl _ => guard_metrics (si_selfNS s) r | inr _ => [] end in
        match refusal (gr_decision r) with
        | Some code => fin printed false code (gr_reason r)
        | None => runClient printed peerHost peerNode port guardPort m
        end
  end.
End ends.

(** ** Properties *)

(** *** The route table *)
Definition routes (procNetRoute : str) : list (str * Z) := omap default_route (Split procNetRoute newline).

Lemma better_fold l best :
  0 ≤ best.2 → Forall (λ r, 0 <= r.2) l →
  let r := foldl better best l in
  (r = best ∨ r ∈ l) ∧ r.2 <= best.2 ∧ 0 <= r.2 ∧ Forall (λ x, r.2 <= x.2) l.
Proof.
  revert best. induction l as [|x l IH]; intros best Hb Hl; [split_and!; simpl; auto; lia|].
  apply Forall_cons in Hl as [Hx Hl]. cbn [foldl].
  assert (better best x = if x.2 <? best.2 then x else best) as ->.
  { unfold better. destruct (Z.ltb_spec best.2 0); [lia|]. done. }
  destruct (Z.ltb_spec x.2 best.2) as [Hlt|Hge].
  - destruct (IH x Hx Hl) as (Hin & Hle & H0 & Hall). split_and!; [|lia|lia|].
    + right. destruct Hin as [->|Hin]; [by left|by right].
    + apply Forall_cons; split; [lia|done].
  - destruct (IH best Hb Hl) as (Hin & Hle & H0 & Hall). split_and!; [|lia|lia|].
    + destruct Hin as [->|Hin]; [by left|by right; right].
    + apply Forall_cons; split; [lia|done].
Qed.

(** The interface is the one of a default route of the lowest metric. *)
Lemma defaultRouteIface_lowest (table : str) :
  Forall (λ r, 0 <= r.2) (routes table) →
  match routes table with
  | [] => defaultRouteIface table = ""
  | _ => ∃ metric, (defaultRouteIface table, metric) ∈ routes table ∧
                   ∀ r, r ∈ routes table → metric <= r.2
  end.
Proof.
  unfold defaultRouteIface. fold (routes table). intros H.
  destruct (routes table) as [|x l] eqn:E; [done|]. cbn [foldl].
  change (better ("", -1) x) with x. apply Forall_cons in H as [Hx Hl].
  destruct (better_fold l x Hx Hl) as (Hin & Hle & _ & Hall).
  destruct (foldl better x l) as [n metric]. exists metric. cbn [fst]. split.
  - destruct Hin as [<-|Hin]; [by left|by right].
  - intros r [->|Hr]%elem_of_cons; [done|]. by apply (proj1 (Forall_forall _ _) Hall).
Qed.

(** *** The decision *)
Lemma classifyRoute_ok peer mgmt explicit ns :
  gr_decision (classifyRoute peer mgmt explicit ns) = routeOK ↔ mgmt ≠ "" ∧ peer ≠ "" ∧ peer ≠ mgmt.
Proof.
  unfold classifyRoute.
  destruct (String.eqb_spec mgmt "") as [->|Hm]; [naive_solver|].
  destruct (String.eqb_spec peer "") as [->|Hp]; [naive_solver|].
  destruct (String.eqb_spec peer mgmt) as [->|Hne]; simpl; [|naive_solver].
  destruct explicit; simpl; [naive_solver|]. case_match; simpl; naive_solver.
Qed.

(** A node is excused only for an interface nobody named, seen from the host's namespace. *)
Lemma classifyRoute_skip peer mgmt explicit ns :
  gr_decision (classifyRoute peer mgmt explicit ns) = routeIsManagement ↔
  mgmt ≠ "" ∧ peer = mgmt ∧ explicit = false ∧ ns = netnsHost.
Proof.
  unfold classifyRoute.
  destruct (String.eqb_spec mgmt "") as [->|Hm]; [naive_solver|].
  destruct (String.eqb_spec peer "") as [->|Hp]; [naive_solver|].
  destruct (String.eqb_spec peer mgmt) as [->|Hne]; simpl; [|naive_solver].
  destruct explicit; simpl; [naive_solver|].
  case_bool_decide; simpl; naive_solver.
Qed.

(** The host's namespace is claimed only when init's is no other. *)
Lemma netnsFromLinks_host self pid1 :
  netnsFromLinks self pid1 = netnsHost ↔ self = initialNetnsLink ∧ (pid1 = "" ∨ pid1 = self).
Proof.
  unfold netnsFromLinks.
  destruct (String.eqb_spec self "") as [->|Hs]; [split; [done|by intros [? _]]|].
  destruct (String.eqb_spec pid1 "") as [->|Hp]; simpl.
  - destruct (String.eqb_spec self initialNetnsLink); naive_solver.
  - destruct (String.eqb_spec pid1 self) as [->|Hne]; simpl; [|naive_solver].
    destruct (String.eqb_spec self initialNetnsLink); naive_solver.
Qed.

(** *** The handshake *)
Lemma first_line_prefix m r line :
  no_char newline m = true → first_line (m +:+ r) = Some line → ∃ r', line = m +:+ r'.
Proof.
  revert line. induction m as [|c m IH]; intros line Hm H; [by exists line|].
  unfold no_char in Hm. simpl in Hm. apply andb_true_iff in Hm as [Hc Hm].
  unfold first_line in *. simpl in H. apply negb_true_iff in Hc. rewrite Hc in H.
  destruct (IndexByte (m +:+ r) newline) as [i|]; [|done]. simplify_eq/=.
  destruct (IH _ Hm eq_refl) as [r' ->]. by exists r'.
Qed.

(** What the server decided is what the client reads, whatever the reason holds. *)
Lemma handshake_roundtrip r line :
  first_line (respondGuard r) = Some line →
  ∃ v, parseGuardLine line = inl v ∧
       gv_ok v = bool_decide (gr_decision r = routeOK) ∧
       gv_skip v = bool_decide (gr_decision r = routeIsManagement).
Proof.
  unfold respondGuard. destruct (gr_decision r); intros H.
  - vm_compute in H. simplify_eq. exists (MkGuardVerdict true false ""). by vm_compute.
  - destruct (first_line_prefix "SKIP:" _ line eq_refl H) as [r' ->].
    destruct (TrimSpace_prefix "S" "KIP:" r' ":" eq_refl eq_refl eq_refl) as [s E].
    unfold parseGuardLine. rewrite E.
    assert (String.eqb ("SKIP:" +:+ s) "OK" = false) as -> by reflexivity.
    assert (HasPrefix ("SKIP:" +:+ s) "SKIP:" = true) as -> by (apply HasPrefix_spec; eauto).
    eexists. split_and!; reflexivity.
  - destruct (first_line_prefix "ERROR:" _ line eq_refl H) as [r' ->].
    destruct (TrimSpace_prefix "E" "RROR:" r' ":" eq_refl eq_refl eq_refl) as [s E].
    unfold parseGuardLine. rewrite E.
    assert (String.eqb ("ERROR:" +:+ s) "OK" = false) as -> by reflexivity.
    assert (HasPrefix ("ERROR:" +:+ s) "SKIP:" = false) as -> by reflexivity.
    assert (HasPrefix ("ERROR:" +:+ s) "ERROR:" = true) as -> by (apply HasPrefix_spec; eauto).
    eexists. split_and!; reflexivity.
Qed.

(** The address of the connection that said hello. *)
Definition peer_address (conns : list conn) : option ip :=
  match omap readHello conns with local :: _ => local | [] => None end.

Lemma listener_decides gp conns explicit mgmt ns ifaces stopped r :
  runGuardListener gp conns explicit mgmt ns ifaces stopped = inl r →
  r = classifyHandshake (peer_address conns) explicit ifaces mgmt ns.
Proof.
  unfold peer_address. induction conns as [|c conns IH]; simpl; [by destruct stopped|].
  destruct (readHello c); [by intros [= <-]|done].
Qed.

(** The interface the guard takes for the test's: the one that is named, or the one that owns
    the address the end talks to its peer from. *)
Definition owner (s : sight) (local : option ip) : str :=
  match local with Some x => ifaceOwning x (si_ifaces s) | None => "" end.

Definition test_iface (e : env) (s : sight) (local : option ip) : str :=
  let name := TrimSpace (Getenv e "TCP_BASELINE_INTERFACE") in
  if String.eqb name "" then owner s local else name.

(** The interface of a default route no other has a lower metric than. *)
Definition manages (table iface : str) : Prop :=
  ∃ metric, (iface, metric) ∈ routes table ∧ ∀ r, r ∈ routes table → metric <= r.2.

(** An interface the node is not managed through, as far as its routing table tells. *)
Definition fabric (s : sight) (iface : str) : Prop :=
  ∃ table mgmt, si_route s = inl table ∧ iface ≠ "" ∧ iface ≠ mgmt ∧ (∃ metric, (mgmt, metric) ∈ routes table) ∧
    (Forall (λ r, 0 <= r.2) (routes table) → manages table mgmt).

Lemma better_in l best : foldl better best l = best ∨ foldl better best l ∈ l.
Proof.
  revert best. induction l as [|x l IH]; intros best; [by left|]. cbn [foldl].
  destruct (IH (better best x)) as [->|Hin]; [|by right; right].
  unfold better. destruct (_ || _); [right; left|by left].
Qed.

Lemma classified_ok (table iface : str) explicit ns s :
  si_route s = inl table → gr_decision (classifyRoute iface (defaultRouteIface table) explicit ns) = routeOK →
  fabric s iface.
Proof.
  intros Hr (Hm & Hi & Hne)%classifyRoute_ok. exists table, (defaultRouteIface table). split_and!; try done.
  - unfold defaultRouteIface in *. fold (routes table) in *.
    destruct (better_in (routes table) ("", -1)) as [E|Hin]; [by rewrite E in Hm|].
    destruct (foldl better ("", -1) (routes table)) as [n metric]. by exists metric.
  - intros Hpos. pose proof (defaultRouteIface_lowest table Hpos) as Hl. unfold manages.
    destruct (routes table) as [|x l]; [by rewrite Hl in Hm|exact Hl].
Qed.

Lemma guardPath_ok e s peer :
  peer ≠ "" → gr_decision (guardPath e s peer) = routeOK → fabric s (test_iface e s (si_local s peer)).
Proof.
  unfold guardPath. intros Hp. destruct (si_route s) as [table|] eqn:Hr; [|done].
  intros Hok%(classified_ok _ _ _ _ s Hr). revert Hok. unfold test_iface, ifaceForAddr, owner.
  destruct (String.eqb_spec peer "") as [|_]; [done|]. by rewrite andb_true_r.
Qed.

Lemma serveGuard_ok gp e s conns r :
  serveGuard gp e s conns = inl r → gr_decision r = routeOK → fabric s (test_iface e s (peer_address conns)).
Proof.
  unfold serveGuard. destruct (si_route s) as [table|] eqn:Hr; [|done].
  intros ->%listener_decides. unfold classifyHandshake.
  intros Hok%(classified_ok _ _ _ _ s Hr). revert Hok. unfold test_iface, owner. by destruct (String.eqb _ "").
Qed.

Lemma fin_unloaded printed code msg : en_loaded (fin printed false code msg) = false.
Proof. done. Qed.

(** iperf3 is started at the client only on a verdict that says so. *)
Lemma runClient_loaded Unmarshal printed host node port gp m :
  en_loaded (runClient Unmarshal printed host node port gp m) = true →
  ∃ line v, me_verdict m = inl line ∧ parseGuardLine line = inl v ∧ gv_ok v = true.
Proof.
  unfold runClient. destruct (me_verdict m) as [line|]; [|done].
  destruct (parseGuardLine line) as [v|] eqn:E; [|done].
  destruct (gv_ok v) eqn:Eo; [|done]. eauto.
Qed.

Lemma refusal_none d : refusal d = None → d = routeOK.
Proof. by destruct d. Qed.

Lemma run_loaded Unmarshal e s missing conns died m :
  en_loaded (run Unmarshal e s missing conns died m) = true →
  if String.eqb (TrimSpace (Getenv e "BURNIN_ROLE")) "server"
  then ∃ gp r, serveGuard gp e s conns = inl r ∧ gr_decision r = routeOK
  else let peer := TrimSpace (Getenv e "BURNIN_PEER_HOST") in
       peer ≠ "" ∧ gr_decision (guardPath e s peer) = routeOK ∧
       ∃ line v, me_verdict m = inl line ∧ parseGuardLine line = inl v ∧ gv_ok v = true.
Proof.
  unfold run. set (role := TrimSpace (Getenv e "BURNIN_ROLE")).
  set (peer := TrimSpace (Getenv e "BURNIN_PEER_HOST")).
  destruct (negb _ && _); [done|]. destruct (String.eqb_spec role "") as [|_]; [done|].
  destruct (negb (String.eqb role "server") && negb (String.eqb role "client")) eqn:Er; [done|].
  destruct (String.eqb role "client" && String.eqb peer "") eqn:Ep; [done|].
  destruct missing; [done|]. destruct (String.eqb role "server") eqn:Es.
  - unfold runServer. destruct (serveGuard _ e s conns) as [r|] eqn:E; [|done].
    destruct (refusal (gr_decision r)) eqn:Ed; [done|]. apply refusal_none in Ed. eauto.
  - destruct (refusal (gr_decision (guardPath e s peer))) eqn:Ed; [done|]. apply refusal_none in Ed.
    intros H. split_and!; [|done|by eapply runClient_loaded].
    simpl in Er. apply negb_false_iff in Er. rewrite Er in Ep. simpl in Ep. by apply String.eqb_neq.
Qed.

(** C36: No end of a pair starts its load before both ends' guards have passed.  When the client
    starts iperf3 on the line the server sent, then at each end the interface the guard takes
    for the test's (the one TCP_BASELINE_INTERFACE names, else the owner of the local address
    of the route to the peer, or of the connection that said hello) is known, and it is not
    the interface of the default route the guard compares it with, which is one of the lowest
    metric when no metric is printed as negative.  A server starts iperf3 only then as well.
    A named interface is compared, not used: the load follows the routes. *)
Theorem guarded_load (Unmarshal : str → iperfDoc + str) (ec es : env) (sc ss : sight)
    (missing died : option str) (conns conns' : list conn) (gp : Z) (r : guardResult) (line : str) (m : meeting) :
  TrimSpace (Getenv ec "BURNIN_ROLE") = "client" →
  serveGuard gp es ss conns = inl r → first_line (respondGuard r) = Some line → me_verdict m = inl line →
  (en_loaded (run Unmarshal ec sc missing conns' died m) = true →
   fabric sc (test_iface ec sc (si_local sc (TrimSpace (Getenv ec "BURNIN_PEER_HOST")))) ∧
   fabric ss (test_iface es ss (peer_address conns))) ∧
  (TrimSpace (Getenv es "BURNIN_ROLE") = "server" →
   en_loaded (run Unmarshal es ss missing conns died m) = true →
   fabric ss (test_iface es ss (peer_address conns))).
Proof.
  intros Hrole Hs Hl Hm. split.
  - intros Hload%run_loaded. rewrite Hrole in Hload.
    destruct Hload as (Hp & Hd & l & v & Hm' & Hv & Hok). split; [by apply guardPath_ok|].
    rewrite Hm in Hm'. simplify_eq. destruct (handshake_roundtrip r l Hl) as (v' & Hv' & Ho & _).
    rewrite Hv in Hv'. simplify_eq. rewrite Hok in Ho. symmetry in Ho. apply bool_decide_eq_true in Ho.
    by apply (serveGuard_ok gp es ss conns r).
  - intros Hserver Hload%run_loaded. rewrite Hserver in Hload.
    destruct Hload as (gp' & r' & Hs' & Ho). by apply (serveGuard_ok gp' es ss conns r').
Qed.

(** *** What pkg/runner makes of it *)
Lemma tcp_fin_declared printed loaded code msg :
  declared (en_code (fin printed loaded code msg)) (en_lines (fin printed loaded code msg)).
Proof.
  unfold fin, fin_line. cbn [en_code en_lines]. destruct (Z.eqb_spec code exitSkip) as [->|Hne].
  - by apply (declared_marker exitSkip printed "TCP_BASELINE_SKIP: ").
  - by apply declared_other.
Qed.

Ltac ends := repeat first [apply tcp_fin_declared | apply declared_other; done | case_match].

Lemma tcp_run_declared Unmarshal e s missing conns died m :
  declared (en_code (run Unmarshal e s missing conns died m)) (en_lines (run Unmarshal e s missing conns died m)).
Proof. unfold run, runServer, runClient. ends. Qed.

(** *** Where the guard falls short *)

(** Any other name for the interface is an override, wherever the route to the peer leaves:
    iperf3 is never bound to the interface that was named. *)
Lemma named_interface_overrides e s peer table name :
  TrimSpace (Getenv e "TCP_BASELINE_INTERFACE") = name → name ≠ "" →
  si_route s = inl table → defaultRouteIface table ≠ "" → name ≠ defaultRouteIface table →
  gr_decision (guardPath e s peer) = routeOK.
Proof.
  intros He Hn Hr Hd Hne. unfold guardPath. rewrite Hr, He.
  destruct (String.eqb_spec name "") as [|_]; [done|]. simpl. by apply classifyRoute_ok.
Qed.

(** A metric the kernel prints as negative is its largest; the guard takes its route. *)
Definition huge_metric_table : str :=
  Join ["Iface Destination Gateway Flags RefCnt Use Metric Mask MTU Window IRTT";
        "eth0 00000000 0101A8C0 0003 0 0 100 00000000 0 0 0";
        "ib0 00000000 0102A8C0 0003 0 0 -1 00000000 0 0 0"] (String newline "").

Lemma huge_metric_wins : defaultRouteIface huge_metric_table = "ib0".
Proof. by vm_compute. Qed.

(** Retransmits nobody counted are reported as none. *)
Definition uncounted : iperfDoc := MkIperfDoc "" (float_of_Z 8000000000) None fone [].

Lemma retransmits_never_counted :
  ∃ res, parseIperf (λ _, inl uncounted) "{}" = inl res ∧ ir_Retransmits res = 0.
Proof. eexists. split; [by vm_compute|done]. Qed.

(** *** Witness *)
Definition lan_table : str :=
  Join ["Iface Destination Gateway Flags RefCnt Use Metric Mask MTU Window IRTT";
        "eth0 00000000 0101A8C0 0003 0 0 100 00000000 0 0 0";
        "ib0 0000640A 00000000 0001 0 0 0 00FFFFFF 0 0 0"] (String newline "").

Definition fabric_ip : ip := v4_prefix ++ [10; 100; 0; 1].
Definition lan_ip : ip := v4_prefix ++ [192; 168; 1; 7].

Definition node_sight : sight :=
  MkSight (inl lan_table) initialNetnsLink "" [MkHostIface "eth0" [lan_ip]; MkHostIface "ib0" [fabric_ip]]
    (λ _, Some fabric_ip) None.

Definition client_env : env := <["BURNIN_ROLE" := "client"]> (<["BURNIN_PEER_HOST" := "peer"]> ∅).
Definition server_env : env := <["BURNIN_ROLE" := "server"]> ∅.

(** A health probe, then the client. *)
Definition accepted : list conn :=
  [MkConn None (Some lan_ip); MkConn (Some ("HELLO" +:+ String newline "")) (Some fabric_ip)].

Definition met : meeting := MkMeeting (inl ("OK" +:+ String newline "")) None "{}" None.

Lemma guarded_load_witness :
  let loaded := en_loaded (run (λ _, inl uncounted) client_env node_sight None [] None met) in
  loaded = true ∧
  fabric node_sight (test_iface client_env node_sight (Some fabric_ip)) ∧
  fabric node_sight (test_iface server_env node_sight (peer_address accepted)) ∧
  test_iface server_env node_sight (peer_address accepted) = "ib0".
Proof.
  assert (en_loaded (run (λ _, inl uncounted) client_env node_sight None [] None met) = true) as E by (by vm_compute).
  assert (serveGuard 5202 server_env node_sight accepted = inl (MkGuardResult routeOK "ib0" "eth0" "")) as Hs by (by vm_compute).
  split; [exact E|].
  destruct (guarded_load (λ _, inl uncounted) client_env server_env node_sight node_sight
    None None accepted [] 5202 (MkGuardResult routeOK "ib0" "eth0" "") ("OK" +:+ String newline "") met
    ltac:(by vm_compute) Hs ltac:(by vm_compute) eq_refl) as [H _].
  destruct (H E) as [H1 H2]. split; [exact H1|]. split; [exact H2|by vm_compute].
Defined.
