(* ===== verification/DiskIo.v ===== *)
(** * runners/disk-io: measuring a disk without harming it (safety.go, io.go, stats.go,
    randread.go, main.go)

    The file system is what its calls answer: the operations of a pass are the list of those
    carried out before its deadline, a worker of the random pass likewise.  The runner is
    the Linux one; sizes are int64 and uint64.  A make the runtime refuses panics; running
    out of memory is not modelled. *)

From Stdlib Require Import Ascii.
From S2P Require Import Prelude GoStrings GoFloat Contract Registry Runner LocalTranslate RunnerLib.
Open Scope stdpp_scope.
Open Scope Z_scope.

(** An error: its message, and what os.IsExist answers. *)
Record ioerr := MkIoErr { er_text : str; er_exist : bool }.

(** ** stats.go *)
Definition latencies := list Z.

Definition sum_i64 (l : list Z) : Z := foldl (λ a d, i64 (a + d)) 0 l.

Definition mean (l : latencies) : Z :=
  match l with [] => 0 | _ => sum_i64 l `quot` Z.of_nat (length l) end.

(** [int(math.Ceil(x))] *)
Definition ceil_Z (x : float64) : Z := - floor_Z (fneg x).

Definition rank_of (p : Z) (n : Z) : Z :=
  let rank := ceil_Z (fmul (fdiv (float_of_Z p) (float_of_Z 100)) (float_of_Z n)) in
  let rank := if rank <? 1 then 1 else rank in
  if n <? rank then n else rank.

Definition percentile (p : Z) (l : latencies) : Z :=
  match l with
  | [] => 0
  | _ => default 0 (merge_sort Z.le l !! Z.to_nat (rank_of p (Z.of_nat (length l)) - 1))
  end.

Definition microsecond : Z := 1000.
Definition second : Z := 1000000000.

Definition micros (d : Z) : float64 := fdiv (float_of_Z d) (float_of_Z microsecond).

(** [Duration.Seconds] *)
Definition Seconds (d : Z) : float64 :=
  fadd (float_of_Z (d `quot` second)) (fdiv (float_of_Z (d `rem` second)) (float_of_Z second)).

Definition throughputMBs (bytes elapsed : Z) : float64 :=
  if elapsed <=? 0 then fzero
  else fdiv (fdiv (float_of_Z bytes) (float_of_Z 1000000)) (Seconds elapsed).

(** ** safety.go *)
Definition fileName : str := ".burnin-disk-io.tmp".
Definition reserveBytes : Z := 2 * 2 ^ 30.

Definition humanBytes (n : Z) : str :=
  if 2 ^ 30 <=? n then FormatFixed 1 (fdiv (float_of_Z n) (float_of_Z (2 ^ 30))) +:+ " GiB"
  else if 2 ^ 20 <=? n then FormatFixed 1 (fdiv (float_of_Z n) (float_of_Z (2 ^ 20))) +:+ " MiB"
  else Itoa n +:+ " B".

Definition spaceCheck (freeBytes writeBytes : Z) : option str :=
  if writeBytes =? 0 then Some "a zero-length write measures nothing"
  else if freeBytes <? u64 (writeBytes + reserveBytes) then
    Some ("writing " +:+ humanBytes writeBytes +:+ " would leave less than the " +:+ humanBytes reserveBytes +:+
          " reserve free (" +:+ humanBytes freeBytes +:+ " available): a burn-in must not be " +:+
          "the reason a node starts evicting for disk pressure. Point --path at a scratch volume, or " +:+
          "lower DISK_IO_SIZE_MB")
  else None.

Definition IsAbs (path : str) : bool := HasPrefix path "/".

(** [filepath.Dir] *)
Definition Dir (path : str) : str :=
  Clean (match LastIndexByte path "/" with Some i => take (S i) path | None => "" end).

Definition targetFile (dir : str) : str + str :=
  if String.eqb (TrimSpace dir) "" then inr "no directory"
  else if negb (IsAbs dir) then
    inr ("DISK_IO_PATH must be absolute, got " +:+ quote dir +:+ " — a relative path is resolved against " +:+
         "the container's working directory, which is not a place on the node")
  else
    let target := JoinPath dir fileName in
    if negb (String.eqb (Dir target) (Clean dir)) then inr ("refusing to write outside " +:+ dir)
    else inl target.

(** Both deadlines as offsets from now. *)
Definition passDeadlines (window : Z) : Z * Z :=
  if window <=? 0 then (0, 0) else (window - window `quot` 4, window).

(** ** io.go *)
Definition alignment : Z := 4096.

(** [make] of a slice of [len] elements of [size] bytes: a negative length panics, and so does
    one past the address space of a 64-bit machine. *)
Definition maxAlloc : Z := 2 ^ 48.
Definition make_panics (size len : Z) : bool := (len <? 0) || (maxAlloc <? size * len).

(** The buffer is one longer by the alignment; taking the address of its first byte needs one. *)
Definition alignedBuffer_panics (size : Z) : bool :=
  let len := i64 (size + alignment) in make_panics 1 len || (len =? 0).

Record result := MkResult { rs_bytes : Z; rs_elapsed : Z; rs_lat : latencies; rs_errors : Z }.
Definition no_result : result := MkResult 0 0 [] 0.

Definition with_op (r : result) (n lat errors : Z) : result :=
  MkResult (u64 (rs_bytes r + n)) (rs_elapsed r) (rs_lat r ++ [lat]) (rs_errors r + errors).

(** A Write or a Read: the bytes it moved, its error, and how long it took. *)
Record op := MkOp { op_n : Z; op_err : option ioerr; op_lat : Z }.

Definition wrapped (what : str) (offset : Z) (e : ioerr) : ioerr :=
  MkIoErr (what +:+ " at offset " +:+ Itoa offset +:+ ": " +:+ er_text e) false.

Fixpoint write_loop (totalBytes : Z) (res : result) (ops : list op) : result * option ioerr :=
  if rs_bytes res <? totalBytes then
    match ops with
    | [] => (res, None)
    | o :: ops =>
        match op_err o with
        | Some e => (with_op res 0 (op_lat o) 1, Some (wrapped "writing" (rs_bytes res) e))
        | None => write_loop totalBytes (with_op res (op_n o) (op_lat o) 0) ops
        end
    end
  else (res, None).

(** The file a pass works on: why it cannot be opened, or its operations; then, for a
    write, the flush. *)
Record pass := MkPass {
  ps_open : option ioerr;
  ps_ops : list op;
  ps_sync : option ioerr;
  ps_sync_lat : Z;
  ps_elapsed : Z;
}.

(** [None] is a panic. *)
Definition writePass (totalBytes block : Z) (p : pass) : option (result * option ioerr) :=
  match ps_open p with
  | Some e => Some (no_result, Some e)
  | None =>
      if alignedBuffer_panics block then None else
      Some match write_loop totalBytes no_result (ps_ops p) with
      | (res, Some e) => (res, Some e)
      | (res, None) =>
          match ps_sync p with
          | Some e => (MkResult (rs_bytes res) (rs_elapsed res) (rs_lat res) (rs_errors res + 1),
                       Some (MkIoErr ("flushing: " +:+ er_text e) false))
          | None => (MkResult (rs_bytes res) (ps_elapsed p) (rs_lat res ++ [ps_sync_lat p]) (rs_errors res), None)
          end
      end
  end.

(** A Read: [Some None] is the end of the file. *)
Record read_op := MkReadOp { ro_n : Z; ro_err : option (option ioerr); ro_lat : Z }.

Fixpoint read_loop (res : result) (ops : list read_op) : result * option ioerr :=
  match ops with
  | [] => (res, None)
  | o :: ops =>
      let res' := if 0 <? ro_n o then with_op res (ro_n o) (ro_lat o) 0 else res in
      match ro_err o with
      | Some None => (res', None)
      | Some (Some e) =>
          (MkResult (rs_bytes res') (rs_elapsed res') (rs_lat res') (rs_errors res' + 1),
           Some (wrapped "reading" (rs_bytes res') e))
      | None => if ro_n o =? 0 then (res', None) else read_loop res' ops
      end
  end.

Definition readPass (block : Z) (openErr : option ioerr) (ops : list read_op) (elapsed : Z)
    : option (result * option ioerr) :=
  match openErr with
  | Some e => Some (no_result, Some e)
  | None =>
      if alignedBuffer_panics block then None else
      Some match read_loop no_result ops with
      | (res, None) => (MkResult (rs_bytes res) elapsed (rs_lat res) (rs_errors res), None)
      | failed => failed
      end
  end.

(** ** randread.go *)
Definition randBlock : Z := 4096.
Definition randHistMaxUs : Z := 20000.
Definition defaultRandDepth : Z := 32.

Record randResult := MkRandResult {
  rr_ops : Z;
  rr_elapsed : Z;
  rr_hist : gmap Z Z;
  rr_overflow : Z;
  rr_errors : Z;
  rr_reached : bool;
}.
Definition no_rand : randResult := MkRandResult 0 0 ∅ 0 0 false.

(** A ReadAt: at which offset, whether it started after the ramp, its bytes, its error, the
    microseconds it took and when it ended. *)
Record random_read := MkRandomRead {
  ra_off : Z;
  ra_counted : bool;
  ra_n : Z;
  ra_err : option ioerr;
  ra_us : Z;
  ra_end : Z;
}.

Record workerOut := MkWorkerOut {
  wo_ops : Z;
  wo_overflow : Z;
  wo_hist : gmap Z Z;
  wo_last : Z;
  wo_reached : bool;
  wo_err : option ioerr;
}.
Definition no_worker : workerOut := MkWorkerOut 0 0 ∅ 0 false None.

Definition bump (us : Z) (h : gmap Z Z) : gmap Z Z := <[us := default 0 (h !! us) + 1]> h.

Fixpoint worker_loop (o : workerOut) (reads : list random_read) : workerOut :=
  match reads with
  | [] => o
  | r :: reads =>
      let failed e := MkWorkerOut (wo_ops o) (wo_overflow o) (wo_hist o) (wo_last o) (wo_reached o)
                        (Some (MkIoErr ("random read at offset " +:+ Itoa (ra_off r) +:+ ": " +:+ e) false)) in
      match ra_err r with
      | Some e => failed (er_text e)
      | None =>
          if negb (ra_n r =? randBlock) then failed ("short read of " +:+ Itoa (ra_n r) +:+ " bytes")
          else if negb (ra_counted r) then
            worker_loop (MkWorkerOut (wo_ops o) (wo_overflow o) (wo_hist o) (wo_last o) true (wo_err o)) reads
          else if randHistMaxUs <? ra_us r then
            worker_loop (MkWorkerOut (wo_ops o + 1) (wo_overflow o + 1) (wo_hist o) (ra_end r) true (wo_err o)) reads
          else
            worker_loop (MkWorkerOut (wo_ops o + 1) (wo_overflow o) (bump (ra_us r) (wo_hist o)) (ra_end r) true (wo_err o)) reads
      end
  end.

(** A worker opens the file for itself. *)
Definition worker (w : option ioerr * list random_read) : workerOut :=
  match w.1 with
  | Some e => MkWorkerOut 0 0 ∅ 0 false (Some e)
  | None => worker_loop no_worker w.2
  end.

Definition merge_worker (acc : randResult * option ioerr) (o : workerOut) : randResult * option ioerr :=
  let '(res, first) := acc in
  (MkRandResult (rr_ops res + wo_ops o) (rr_elapsed res)
     (union_with (λ a b, Some (a + b)) (rr_hist res) (wo_hist o))
     (rr_overflow res + wo_overflow o)
     (rr_errors res + match wo_err o with Some _ => 1 | None => 0 end)
     (rr_reached res || wo_reached o),
   match first with Some e => Some e | None => wo_err o end).

(** A workerOut is two counters, a slice, a time, a flag and an error. *)
Definition workerOut_size : Z := 88.

(** [remaining] is how much of the window is left, [ramp_end] when counting starts; [None] is
    a panic. *)
Definition randReadPass (fileBytes depth remaining ramp_end : Z) (workers : list (option ioerr * list random_read))
    : option (randResult * option ioerr) :=
  if fileBytes `div` randBlock =? 0 then
    Some (no_rand, Some (MkIoErr ("the file holds no whole " +:+ Itoa randBlock +:+ "-byte block to read") false))
  else if remaining <=? 0 then Some (no_rand, None)
  else if make_panics workerOut_size depth then None
  else Some (
    let outs := worker <$> workers in
    let '(res, err) := foldl merge_worker (no_rand, None) outs in
    let last := foldl (λ l o, if l <? wo_last o then wo_last o else l) 0 outs in
    (MkRandResult (rr_ops res) (if ramp_end <? last then last - ramp_end else 0)
       (rr_hist res) (rr_overflow res) (rr_errors res) (rr_reached res), err)).

Definition iops (r : randResult) : float64 :=
  if rr_elapsed r <=? 0 then fzero else fdiv (float_of_Z (rr_ops r)) (Seconds (rr_elapsed r)).

Definition hist_total (r : randResult) : Z := rr_overflow r + map_fold (λ _ c n, n + c) 0 (rr_hist r).

(** The reads up to a latency. *)
Definition cumulative (h : gmap Z Z) (us : Z) : Z :=
  map_fold (λ k c n, if k <=? us then n + c else n) 0 h.

Fixpoint first_reaching (h : gmap Z Z) (want : Z) (buckets : list Z) : option Z :=
  match buckets with
  | [] => None
  | us :: buckets => if want <=? cumulative h us then Some us else first_reaching h want buckets
  end.

Definition p99Us (r : randResult) : option Z :=
  let total := hist_total r in
  if total =? 0 then None
  else
    let want := floor_Z (fadd (fmul (float_of_Z total) (ParseFloat "0.99").1) (ParseFloat "0.5").1) in
    let want := if want =? 0 then 1 else want in
    first_reaching (rr_hist r) want (merge_sort Z.le (map_to_list (rr_hist r)).*1).

(** ** main.go *)

(** How the runner ends, and whether it removed its file. *)
Record ended := MkEnded { en_end : outcome; en_removed : bool }.
Definition en_code (r : ended) : Z := exit_code (en_end r).

Definition fin_line (code : Z) (msg : str) : list str :=
  if code =? exitSkip then ["DISK_IO_SKIP: " +:+ sanitize msg]
  else if code =? exitError then ["DISK_IO_ERROR: " +:+ sanitize msg]
  else if code =? exitFail then ["DISK_IO_FAIL: " +:+ sanitize msg]
  else [].

Definition fin (printed : list str) (removed : bool) (code : Z) (msg : str) : ended :=
  MkEnded (Exits code (printed ++ fin_line code msg)) removed.

Definition trim (v : float64) : str := FormatFixed 3 v.

Definition report (write read : result) : list str :=
  (if (0 <? rs_bytes write) && (0 <? rs_elapsed write)
   then [metric "writeBandwidthMBs" (trim (throughputMBs (rs_bytes write) (rs_elapsed write)))] else []) ++
  (if (0 <? rs_bytes read) && (0 <? rs_elapsed read)
   then [metric "readBandwidthMBs" (trim (throughputMBs (rs_bytes read) (rs_elapsed read)))] else []) ++
  (let all := rs_lat write ++ rs_lat read in
   match all with
   | [] => []
   | _ => [metric "ioLatencyUs" (trim (micros (mean all))); metric "p99LatencyUs" (trim (micros (percentile 99 all)))]
   end) ++
  [metric "ioErrors" (Itoa (rs_errors write + rs_errors read))].

Definition reportRandom (r : randResult) (depth : Z) : list str :=
  [metric "randReadQueueDepth" (Itoa depth)] ++
  (if (rr_ops r =? 0) || (rr_elapsed r <=? 0) then []
   else [metric "randReadIops" (FormatFixed 0 (iops r))] ++
        match p99Us r with Some us => [metric "randReadP99LatencyUs" (trim (float_of_Z us))] | None => [] end).

Definition isExistErr (e : option ioerr) : bool :=
  match e with Some e => er_exist e || Contains (er_text e) "file exists" | None => false end.

(** The disk as the runner meets it: free space, and what each pass came to. *)
Record disk := MkDisk {
  dk_free : Z + ioerr;
  dk_write : pass;
  dk_read_open : option ioerr;
  dk_reads : list read_op;
  dk_read_elapsed : Z;
  dk_remaining : Z;
  dk_ramp_end : Z;
  dk_workers : list (option ioerr * list random_read);
}.

(** The random pass, and the end of the run. *)
Definition finish_run (printed : list str) (write read : result) (depth : Z) (d : disk) : ended :=
  let random := (0 <? rs_bytes write) && (0 <? rs_bytes read) in
  match (if random then randReadPass (rs_bytes write) depth (dk_remaining d) (dk_ramp_end d) (dk_workers d)
         else Some (no_rand, None)) with
  | None => MkEnded (Panics printed) true
  | Some (rnd, rndErr) =>
  let printed := printed ++ (if random then reportRandom rnd depth else []) in
  match rndErr with
  | Some e =>
      if negb (rr_reached rnd) then
        fin printed true exitError ("the random-read pass never reached the device (" +:+ er_text e +:+ "), so it says nothing about it")
      else fin printed true exitFail ("random read failed after " +:+ Itoa (rr_ops rnd) +:+ " reads: " +:+ er_text e)
  | None =>
      if rs_bytes write =? 0 then
        fin printed true exitError
          ("the write pass moved no data, so nothing was measured and the device is unjudged. " +:+
           "Check the size and duration this test was given")
      else if rs_bytes read =? 0 then
        fin printed true exitError
          ("the write moved " +:+ humanBytes (rs_bytes write) +:+ " but the read moved nothing, so no read was measured " +:+
           "and readBandwidthMBs is absent. The device is unjudged rather than failing")
      else MkEnded (Exits exitPass printed) true
  end end.

(** The passes, once the write is allowed.  The removal is armed behind the write, and a panic
    runs what is armed. *)
Definition measure (e : env) (target : str) (totalBytes block : Z) (printed : list str) (d : disk) : ended :=
  match writePass totalBytes block (dk_write d) with
  | None => MkEnded (Panics printed) false
  | Some (write, werr) =>
  match werr with
  | Some err =>
      if isExistErr werr then
        fin printed false exitError
          (target +:+ " already exists. Refusing to open it: this runner only ever writes a " +:+
           "file it created, so a leftover from a crashed run is a refusal rather than an overwrite. " +:+
           "Remove it once you are satisfied it is not something else")
      else
        let printed := printed ++ report write no_result in
        if rs_bytes write =? 0 then
          fin printed true exitError ("could not write to " +:+ target +:+ ": " +:+ er_text err +:+
            " — the measurement never started, so this says nothing about the device")
        else fin printed true exitFail ("write failed after " +:+ humanBytes (rs_bytes write) +:+ ": " +:+ er_text err)
  | None =>
      match readPass block (dk_read_open d) (dk_reads d) (dk_read_elapsed d) with
      | None => MkEnded (Panics printed) true
      | Some (read, rerr) =>
      let printed := printed ++ report write read in
      match rerr with
      | Some err =>
          if rs_bytes read =? 0 then
            fin printed true exitError ("could not read back from " +:+ target +:+ ": " +:+ er_text err +:+
              " — the read never reached the device, so this says nothing about it")
          else fin printed true exitFail ("read failed after " +:+ humanBytes (rs_bytes read) +:+ ": " +:+ er_text err)
      | None => finish_run printed write read (envInt e "DISK_IO_RANDREAD_DEPTH" defaultRandDepth) d
      end end
  end end.

Definition run (e : env) (d : disk) : ended :=
  let dir := TrimSpace (Getenv e "DISK_IO_PATH") in
  if String.eqb dir "" then
    fin [] false exitSkip ("DISK_IO_PATH is not set, so there is no declared place to measure. " +:+
      "Point it at a directory this pod mounts through spec.runner.hostPaths — there is deliberately " +:+
      "no default, because a default would measure the container's own filesystem and call it the node's disk")
  else
  match targetFile dir with
  | inr err => fin [] false exitError err
  | inl target =>
      let sizeMB := envInt e "DISK_IO_SIZE_MB" 1024 in
      let blockKB := envInt e "DISK_IO_BLOCK_KB" 1024 in
      let block := i64 (blockKB * 1024) in
      if negb (block `rem` alignment =? 0) then
        fin [] false exitError ("DISK_IO_BLOCK_KB=" +:+ Itoa blockKB +:+ " gives a " +:+ Itoa block +:+
          "-byte block, which is not a multiple of the " +:+ Itoa alignment +:+ "-byte alignment O_DIRECT requires")
      else
        let totalBytes := u64 (sizeMB * 1024 * 1024) in
        match dk_free d with
        | inr err => fin [] false exitError ("could not read free space on " +:+ dir +:+ ": " +:+ er_text err +:+
                       " — the write is refused rather than attempted blind")
        | inl free =>
            match spaceCheck free totalBytes with
            | Some err => fin [] false exitError err
            | None => measure e target totalBytes block [metric "diskIoPath" dir] d
            end
        end
  end.

(** ** Properties *)

(** What the environment asks for. *)
Definition total_bytes (e : env) : Z := u64 (envInt e "DISK_IO_SIZE_MB" 1024 * 1024 * 1024).
Definition block_bytes (e : env) : Z := i64 (envInt e "DISK_IO_BLOCK_KB" 1024 * 1024).
Definition directory (e : env) : str := TrimSpace (Getenv e "DISK_IO_PATH").

(** A run the guards let through: the file it may write, and the room there is. *)
Definition admitted (e : env) (d : disk) (target : str) (free : Z) : Prop :=
  directory e ≠ "" ∧ targetFile (directory e) = inl target ∧ block_bytes e `rem` alignment = 0 ∧
  dk_free d = inl free ∧ spaceCheck free (total_bytes e) = None.

Definition printed_first (e : env) : list str := [metric "diskIoPath" (directory e)].

Lemma run_cases e d :
  (∃ code msg, run e d = fin [] false code msg ∧ (code = exitSkip ↔ directory e = "") ∧
               (code = exitSkip ∨ code = exitError) ∧ ∀ target free, ¬ admitted e d target free) ∨
  ∃ target free, admitted e d target free ∧
    run e d = measure e target (total_bytes e) (block_bytes e) (printed_first e) d.
Proof.
  unfold run, admitted, printed_first. fold (directory e). fold (total_bytes e). fold (block_bytes e).
  destruct (String.eqb_spec (directory e) "") as [E|Hne].
  { left. eexists _, _. split; [done|]. split; [done|]. split; [by left|]. by intros ? ? (? & _). }
  assert (∀ msg (P : str → Z → Prop), (∀ target free, ¬ P target free) →
    ∃ code msg', fin [] false exitError msg = fin [] false code msg' ∧
      (code = exitSkip ↔ directory e = "") ∧ (code = exitSkip ∨ code = exitError) ∧
      ∀ target free, ¬ P target free) as Hrefused.
  { intros msg P HP. exists exitError, msg. split; [done|]. split; [done|]. split; [by right|exact HP]. }
  destruct (targetFile (directory e)) as [target|err]; [|left; apply Hrefused; by intros ? ? (_ & ? & _)].
  destruct (Z.eqb_spec (block_bytes e `rem` alignment) 0) as [Hr|Hr]; cbn [negb];
    [|left; apply Hrefused; by intros ? ? (_ & _ & ? & _)].
  destruct (dk_free d) as [free|err]; [|left; apply Hrefused; by intros ? ? (_ & _ & _ & ? & _)].
  destruct (spaceCheck free (total_bytes e)) as [err|] eqn:Es.
  { left. apply Hrefused. intros ? ? (_ & _ & _ & [= <-] & ?). congruence. }
  right. exists target, free. done.
Qed.

(** *** The file *)
Lemma targetFile_inside dir target : targetFile dir = inl target → Dir target = Clean dir ∧ IsAbs dir = true.
Proof.
  unfold targetFile. destruct (String.eqb _ ""); [done|].
  destruct (IsAbs dir); [simpl|done].
  destruct (String.eqb_spec (Dir (JoinPath dir fileName)) (Clean dir)); [|done]. by intros [= <-].
Qed.

Lemma measure_removed e target total block printed d :
  en_removed (measure e target total block printed d) = true ↔
  ∃ w, writePass total block (dk_write d) = Some w ∧ isExistErr w.2 = false.
Proof.
  unfold measure. destruct (writePass total block (dk_write d)) as [[w [err|]]|]; cbn [snd].
  - transitivity (isExistErr (Some err) = false).
    + destruct (isExistErr (Some err)); [done|]. by destruct (rs_bytes w =? 0).
    + split; [by intros H; exists (w, Some err)|by intros (? & [= <-] & ?)].
  - split; [intros _; by exists (w, None)|intros _].
    destruct (readPass _ _ _ _) as [[r [err|]]|]; [by destruct (rs_bytes r =? 0)| |done].
    unfold finish_run.
    destruct (if (0 <? rs_bytes w) && (0 <? rs_bytes r) then randReadPass _ _ _ _ _ else Some (no_rand, None))
      as [[rnd [err|]]|]; [by destruct (negb (rr_reached rnd))| |done].
    destruct (rs_bytes w =? 0); [done|]. by destruct (rs_bytes r =? 0).
  - split; [done|]. by intros (? & ? & _).
Qed.

(** *** The room *)
Lemma spaceCheck_room free write :
  0 <= write → write + reserveBytes < 2 ^ 64 → spaceCheck free write = None → write + reserveBytes <= free.
Proof.
  unfold spaceCheck. intros H0 Hb. destruct (write =? 0); [done|].
  rewrite u64_small by (unfold reserveBytes in *; lia).
  by destruct (Z.ltb_spec free (write + reserveBytes)).
Qed.

(** A buffer there is room for. *)
Lemma alignedBuffer_fits e :
  alignedBuffer_panics (block_bytes e) = false → block_bytes e `rem` alignment = 0 →
  0 <= block_bytes e <= maxAlloc - alignment.
Proof.
  unfold alignedBuffer_panics, make_panics. intros [[H1 H2]%orb_false_iff H3]%orb_false_iff Hrem.
  apply Z.ltb_ge in H1, H2. apply Z.eqb_neq in H3.
  assert (- 2 ^ 63 <= block_bytes e < 2 ^ 63) as Hi.
  { unfold block_bytes, i64. pose proof (Z.mod_pos_bound (envInt e "DISK_IO_BLOCK_KB" 1024 * 1024 + 2 ^ 63) (2 ^ 64)). lia. }
  unfold alignment, maxAlloc in *. set (b := block_bytes e) in *.
  assert (b + 4096 < 2 ^ 63) as Hb.
  { destruct (Z.lt_ge_cases (b + 4096) (2 ^ 63)) as [|Hge]; [done|]. exfalso.
    assert (i64 (b + 4096) = b + 4096 - 2 ^ 64); [|lia]. unfold i64.
    rewrite <-(Z.mod_unique_pos (b + 4096 + 2 ^ 63) (2 ^ 64) 1 (b + 4096 - 2 ^ 63)); lia. }
  rewrite i64_small in * by lia.
  pose proof (Z.quot_rem' b 4096) as Hq. rewrite Hrem in Hq. lia.
Qed.

Definition whole_ops (block : Z) (ops : list op) : Prop := Forall (λ o, 0 <= op_n o <= block) ops.

(** The last block may go over the total. *)
Lemma write_loop_bound total block ops res :
  0 <= total → 0 <= block → total + block < 2 ^ 64 → whole_ops block ops →
  0 <= rs_bytes res <= total + block → rs_bytes (write_loop total res ops).1 <= total + block.
Proof.
  intros Ht Hb Hlt Hops. revert res. induction Hops as [|o ops Ho Hops IH]; intros res Hr; cbn [write_loop].
  - destruct (rs_bytes res <? total); simpl; lia.
  - destruct (Z.ltb_spec (rs_bytes res) total); [|simpl; lia]. destruct (op_err o).
    + cbn. rewrite Z.add_0_r, u64_small by lia. lia.
    + apply IH. cbn. rewrite u64_small; lia.
Qed.

Lemma writePass_bound total block p w :
  0 <= total → 0 <= block → total + block < 2 ^ 64 → whole_ops block (ps_ops p) →
  writePass total block p = Some w → rs_bytes w.1 <= total + block.
Proof.
  intros Ht Hb Hlt Hops. unfold writePass. destruct (ps_open p); [intros [= <-]; simpl; lia|].
  destruct (alignedBuffer_panics block); [done|]. intros [= <-].
  pose proof (write_loop_bound total block (ps_ops p) no_result Ht Hb Hlt Hops ltac:(simpl; lia)) as H.
  destruct (write_loop total no_result (ps_ops p)) as [w [err|]]; [done|]. by destruct (ps_sync p).
Qed.


(** *** The judgement *)

(** a verdict about the device is one the device was reached for.  Exit 1 needs bytes that
    moved, exit 0 needs a write and a read that both moved bytes without an error and the
    room for them; only a test that declares no path is excused. *)
Theorem disk_judged (e : env) (d : disk) :
  let w := writePass (total_bytes e) (block_bytes e) (dk_write d) in
  let r := readPass (block_bytes e) (dk_read_open d) (dk_reads d) (dk_read_elapsed d) in
  let moved (p : option (result * option ioerr)) := match p with Some p => rs_bytes p.1 ≠ 0 | None => False end in
  let clean (p : option (result * option ioerr)) := match p with Some p => p.2 = None | None => False end in
  match en_end (run e d) with
  | Panics _ => True
  | Exits code _ =>
      (code = exitFail → moved w ∨ moved r) ∧
      (code = exitPass → (∃ target free, admitted e d target free) ∧ clean w ∧ clean r ∧ moved w ∧ moved r) ∧
      (code = exitSkip ↔ directory e = "")
  end.
Proof.
  intros w r moved clean. destruct (run_cases e d) as [(code & msg & -> & Hs & Hc & _)|(target & free & Ha & ->)].
  { cbn [fin en_end]. destruct Hc as [->| ->]; (split_and!; [done|done|exact Hs]). }
  assert (directory e ≠ "") as Hdir by apply Ha. unfold measure. fold w. fold r.
  destruct w as [[w [err|]]|]; cbn [moved clean fst snd]; [| |done].
  { destruct (isExistErr (Some err)); [cbn; split_and!; done|].
    destruct (Z.eqb_spec (rs_bytes w) 0); cbn; split_and!; try done. by left. }
  destruct r as [[r [err|]]|]; cbn [moved clean fst snd]; [| |done].
  { destruct (Z.eqb_spec (rs_bytes r) 0); cbn; split_and!; try done. by right. }
  unfold finish_run. set (random := (0 <? rs_bytes w) && (0 <? rs_bytes r)).
  destruct (if random then randReadPass _ _ _ _ _ else Some (no_rand, None)) as [[rnd [err|]]|] eqn:Er; [| |done].
  - destruct (negb (rr_reached rnd)); cbn; (split_and!; [|done|done]); [done|]. intros _.
    destruct random eqn:Erand; [|by injection Er]. unfold random in Erand.
    apply andb_true_iff in Erand as [?%Z.ltb_lt _]. left. lia.
  - destruct (Z.eqb_spec (rs_bytes w) 0); [cbn; split_and!; done|].
    destruct (Z.eqb_spec (rs_bytes r) 0); [cbn; split_and!; done|].
    cbn. split_and!; try done. intros _. split_and!; eauto.
Qed.

(** *** What pkg/runner makes of it *)
Lemma fin_marked printed removed code msg : marked (en_end (fin printed removed code msg)).
Proof.
  unfold fin, fin_line. cbn [en_end marked]. destruct (Z.eqb_spec code exitSkip) as [->|Hne].
  - by apply (declared_marker exitSkip printed "DISK_IO_SKIP: ").
  - by apply declared_other.
Qed.

Lemma report_metrics write read : Forall metric_line (report write read).
Proof.
  assert (∀ k v, metric_name k = true → metric_line (metric k v)) as Hm by (intros; eexists _, _; done).
  unfold report. rewrite !Forall_app. split_and!.
  - case_match; [|constructor]. constructor; [by apply Hm|constructor].
  - case_match; [|constructor]. constructor; [by apply Hm|constructor].
  - destruct (rs_lat write ++ rs_lat read); [constructor|]. repeat (constructor; [by apply Hm|]). constructor.
  - constructor; [by apply Hm|constructor].
Qed.

Lemma measure_marked e target total block d :
  marked (en_end (measure e target total block (printed_first e) d)).
Proof.
  assert (Forall metric_line (printed_first e)) as Hp by (constructor; [by exists "diskIoPath", (directory e)|constructor]).
  unfold measure. destruct (writePass total block (dk_write d)) as [[w [err|]]|].
  - destruct (isExistErr _); [apply fin_marked|]. case_match; apply fin_marked.
  - destruct (readPass _ _ _ _) as [[r [err|]]|]; [case_match; apply fin_marked| |by apply metrics_declare_nothing].
    assert (Forall metric_line (printed_first e ++ report w r)) as Hpr
      by (apply Forall_app; split; [done|apply report_metrics]).
    unfold finish_run. destruct (if (0 <? rs_bytes w) && (0 <? rs_bytes r) then _ else _) as [[rnd [err|]]|];
      [case_match; apply fin_marked| |by apply metrics_declare_nothing].
    repeat (case_match; [apply fin_marked|]). by apply declared_other.
  - by apply metrics_declare_nothing.
Qed.

Lemma disk_run_marked e d : marked (en_end (run e d)).
Proof.
  destruct (run_cases e d) as [(code & msg & -> & _)|(target & free & _ & ->)];
    [apply fin_marked|apply measure_marked].
Qed.

(** *** The window *)

(** The read keeps a quarter of it. *)
Lemma passDeadlines_split window :
  0 < window → let '(w, all) := passDeadlines window in
  all = window ∧ 0 < w ∧ window <= 4 * (all - w) + 3.
Proof.
  intros H. unfold passDeadlines. destruct (Z.leb_spec window 0); [lia|].
  split; [done|]. pose proof (Z.quot_div_nonneg window 4). pose proof (Z.div_mod window 4).
  pose proof (Z.mod_pos_bound window 4). lia.
Qed.

(** *** Where the guards fall short *)
Definition path_env (size : str) : env :=
  <["DISK_IO_PATH" := "/scratch"]> (<["DISK_IO_SIZE_MB" := size]> (<["DISK_IO_BLOCK_KB" := "4"]> ∅)).

(** The sum of the size and the reserve wraps: sixteen exbibytes fit into three gibibytes. *)
Lemma huge_size_fits :
  total_bytes (path_env "17592186044415") = 2 ^ 64 - 2 ^ 20 ∧
  spaceCheck (3 * 2 ^ 30) (total_bytes (path_env "17592186044415")) = None.
Proof. by vm_compute. Qed.

Definition quiet_pass (ops : list op) : pass := MkPass None ops None 1000 1000000.
Definition block_op : op := MkOp 4096 None 1000.

(** A directory whose name says so makes every error one of a file that was there: the file
    the run created stays behind, and the report says it belongs to someone else. *)
Definition full_disk : disk :=
  MkDisk (inl (4 * 2 ^ 30))
    (quiet_pass [block_op;
       MkOp 0 (Some (MkIoErr "write /scratch/file exists/.burnin-disk-io.tmp: no space left on device" false)) 1000])
    None [] 0 0 0 [].

Definition exists_env : env :=
  <["DISK_IO_PATH" := "/scratch/file exists"]> (<["DISK_IO_BLOCK_KB" := "4"]> ∅).

Lemma own_file_left_behind :
  en_removed (run exists_env full_disk) = false ∧ en_code (run exists_env full_disk) = exitError.
Proof. by vm_compute. Qed.

Definition whole_disk (workers : list (option ioerr * list random_read)) : disk :=
  MkDisk (inl (4 * 2 ^ 30)) (quiet_pass (replicate 256 block_op)) None
    [MkReadOp 4096 None 1000; MkReadOp 0 (Some None) 0] 1000000 1000000000 100000000 workers.

Definition random_op : random_read := MkRandomRead 0 true 4096 None 100 200000000.

(** A worker that may not open one more file fails the disk the other workers read. *)
Lemma open_files_fail_the_disk :
  en_code (run (path_env "1") (whole_disk [(None, [random_op]);
    (Some (MkIoErr "open /scratch/.burnin-disk-io.tmp: too many open files" false), [])])) = exitFail.
Proof. by vm_compute. Qed.

(** A block size that wraps around to a negative one passes the check of the alignment: the
    buffer panics behind the create, and the file stays. *)
Definition wrapped_block : env :=
  <["DISK_IO_PATH" := "/scratch"]> (<["DISK_IO_BLOCK_KB" := "9007199254740992"]> (<["DISK_IO_SIZE_MB" := "1"]> ∅)).

Lemma wrapped_block_panics :
  let r := run wrapped_block (whole_disk []) in
  en_end r = Panics [metric "diskIoPath" "/scratch"] ∧ en_removed r = false ∧
  ps_open (dk_write (whole_disk [])) = None.
Proof. by vm_compute. Qed.

(** A depth no slice can have panics behind the sequential passes. *)
Lemma huge_depth_panics :
  let r := run (<["DISK_IO_RANDREAD_DEPTH" := "9007199254740992"]> (path_env "1")) (whole_disk []) in
  (∃ lines, en_end r = Panics lines) ∧ en_removed r = true.
Proof. split; [eexists; by vm_compute|by vm_compute]. Qed.

