(* ===== verification/DcgmPlan.v ===== *)
(** * runners/dcgm-diag: what dcgmi is asked to run (level.go, params.go, main.go)

    A level or a list of tests, the parameters that enable gated plugins, the timeouts, and
    the environment they are read from.  Durations are nanoseconds in an int64. *)

From Stdlib Require Import Ascii.
From S2P Require Import Prelude GoStrings GoFloat GoRegexp RunnerLib.
Open Scope stdpp_scope.
Open Scope Z_scope.

Definition second : Z := 1000000000.
Definition minute : Z := 60 * second.

(** ** level.go *)
Definition levelBudgets : list Z := [0; 1 * minute; 2 * minute; 15 * minute; 60 * minute].

Definition namedLevels : gmap str Z :=
  list_to_map [("short", 1); ("quick", 1); ("medium", 2); ("long", 3); ("xlong", 4)].

Definition budget_at (level : Z) : Z := default 0 (levelBudgets !! Z.to_nat level).

Definition levelBudget (level : Z) : Z :=
  if (level <? 1) || (5 <=? level) then budget_at 1 else budget_at level.

Definition deriveLevel (duration : Z) : Z :=
  if budget_at 4 <=? duration then 4
  else if budget_at 3 <=? duration then 3
  else if budget_at 2 <=? duration then 2
  else 1.

Definition resolveLevel (explicit : str) (duration : Z) : (Z * str) + str :=
  let explicit := ToLower (TrimSpace explicit) in
  if negb (String.eqb explicit "") then
    match namedLevels !! explicit with
    | Some lvl => inl (lvl, "explicit")
    | None =>
        let refused := inr ("BURNIN_DCGM_LEVEL=" +:+ quote explicit +:+
          " is not a DCGM run level: use 1-4, or short/medium/long/xlong") in
        match Atoi explicit with
        | Some lvl => if (lvl <? 1) || (4 <? lvl) then refused else inl (lvl, "explicit")
        | None => refused
        end
    end
  else inl (deriveLevel duration, "derived").

(** ** params.go *)
Record runSpec := MkRunSpec { sp_arg : str; sp_level : Z; sp_tests : str; sp_source : str }.

Definition is_letter (c : ascii) : bool := is_lower c || is_upper c.
Definition name_char (c : ascii) : bool := is_letter c || is_digit c || Ascii.eqb c "_".

(** [[A-Za-z][A-Za-z0-9_]*] *)
Definition segment : re := Seq (Chr is_letter) (Rep (Chr name_char) 0 None).

Definition paramClause : re :=
  Seq BeginText (Seq segment (Seq (Rep (Seq (one ".") segment) 1 None)
    (Seq (one "=") (Seq (Rep (Chr (λ c, negb (Ascii.eqb c ";"))) 1 None) EndText)))).

Definition testName : re :=
  Seq BeginText (Seq (Chr is_letter)
    (Seq (Rep (Chr (λ c, name_char c || Ascii.eqb c " " || Ascii.eqb c "-")) 0 None) EndText)).

(** The loop of resolveRun over the entries of BURNIN_DCGM_TESTS. *)
Fixpoint test_names (tests : str) (names : list str) (entries : list str) : list str + str :=
  match entries with
  | [] => inl names
  | raw :: entries =>
      let name := TrimSpace raw in
      if String.eqb name "" then
        inr ("BURNIN_DCGM_TESTS=" +:+ quote tests +:+ " has an empty entry: use a comma-separated " +:+
             "list of DCGM test names, e.g. memory,pcie")
      else if match Atoi name with Some _ => true | None => false end then
        inr ("BURNIN_DCGM_TESTS=" +:+ quote tests +:+ " names " +:+ quote name +:+
             ", which is a DCGM run level rather than a test: use BURNIN_DCGM_LEVEL for a level")
      else if negb (MatchString testName name) then
        inr ("BURNIN_DCGM_TESTS=" +:+ quote tests +:+ " contains " +:+ quote name +:+
             ", which is not a DCGM test name")
      else test_names tests (names ++ [name]) entries
  end.

Definition resolveRun (level tests : str) (duration : Z) : runSpec + str :=
  let tests := TrimSpace tests in
  if String.eqb tests "" then
    match resolveLevel level duration with
    | inl (lvl, source) => inl (MkRunSpec (Itoa lvl) lvl "" source)
    | inr err => inr err
    end
  else if negb (String.eqb (TrimSpace level) "") then
    inr ("BURNIN_DCGM_LEVEL=" +:+ quote level +:+ " and BURNIN_DCGM_TESTS=" +:+ quote tests +:+
         " are both set, and they ask for different scopes: set one or the other")
  else
    match test_names tests [] (Split tests ",") with
    | inl names => let joined := Join names "," in inl (MkRunSpec joined 0 joined "named")
    | inr err => inr err
    end.

(** What resolveParams has collected: the clauses, and the clause that set each key. *)
Record params := MkParams { pa_clauses : list str; pa_seen : gmap str str }.

Definition clause_key (clause : str) : str :=
  match IndexByte clause "=" with Some i => take i clause | None => clause end.

Definition add (p : params) (clause from : str) : params + str :=
  if negb (MatchString paramClause clause) then
    inr (from +:+ " produced " +:+ quote clause +:+ ", which is not a DCGM parameter: write " +:+
         "<test>.<variable>=<value>, separated by " +:+ quote ";")
  else
    let key := clause_key clause in
    match pa_seen p !! key with
    | Some prev =>
        inr (quote key +:+ " is set twice (" +:+ quote prev +:+ " and " +:+ quote clause +:+
             ") and DCGM documents no precedence between them, so the run would be ambiguous: set it once")
    | None => inl (MkParams (pa_clauses p ++ [clause]) (<[key := clause]> (pa_seen p)))
    end.

Fixpoint add_allowed (p : params) (entries : list str) : params + str :=
  match entries with
  | [] => inl p
  | entry :: entries =>
      let name := TrimSpace entry in
      if String.eqb name "" then add_allowed p entries
      else if negb (MatchString testName name) then
        inr ("BURNIN_DCGM_ALLOW names " +:+ quote name +:+ ", which is not a DCGM test name")
      else match add p (name +:+ ".is_allowed=true") "BURNIN_DCGM_ALLOW" with
           | inl p => add_allowed p entries
           | inr err => inr err
           end
  end.

Fixpoint add_raw (p : params) (clauses : list str) : params + str :=
  match clauses with
  | [] => inl p
  | clause :: clauses =>
      let clause := TrimSpace clause in
      if String.eqb clause "" then add_raw p clauses
      else match add p clause "BURNIN_DCGM_PARAMS" with
           | inl p => add_raw p clauses
           | inr err => inr err
           end
  end.

Definition resolveParams (allow raw : str) : str + str :=
  match add_allowed (MkParams [] ∅) (Split allow ",") with
  | inl p =>
      match add_raw p (Split raw ";") with
      | inl p => inl (Join (pa_clauses p) ";")
      | inr err => inr err
      end
  | inr err => inr err
  end.

Definition diagTimeoutHeadroom : Z := 15 * second.
Definition minDerivedDiagTimeout : Z := 30 * second.

Definition resolveDiagTimeout (explicit budget : Z) : Z :=
  if 0 <? explicit then explicit
  else let derived := i64 (budget - diagTimeoutHeadroom) in
       if derived <? minDerivedDiagTimeout then 0 else derived.

(** ** loadConfig *)
Record config := MkConfig {
  cf_dcgmiBin : str;
  cf_hostEngineBin : str;
  cf_hostEngineArgs : list str;
  cf_address : str;
  cf_startEngine : bool;
  cf_duration : Z;
  cf_level : str;
  cf_tests : str;
  cf_params : str;
  cf_diagTimeout : Z;
  cf_sampleInterval : Z;
  cf_engineTimeout : Z;
  cf_prunedManifest : str;
}.

Definition minDurationForGatedPlugins : Z := 10 * minute.
Definition prunedManifestPath : str := "/usr/share/glimmer-burnin/dcgm-pruned.txt".

(** A number of seconds an environment variable holds: [def] when it is not set, a refusal
    when it is no integer of at least [least]. *)
Definition seconds_of (e : env) (name : str) (least def : Z) (what : str) : Z + str :=
  let v := Getenv e name in
  if String.eqb v "" then inl def
  else match Atoi v with
       | Some n => if n <? least then inr (name +:+ "=" +:+ quote v +:+ what) else inl (i64 (n * second))
       | None => inr (name +:+ "=" +:+ quote v +:+ what)
       end.

(** time.Duration's String, of the whole minutes it is used for here. *)
Definition show_minutes (d : Z) : str := Itoa (d `div` minute) +:+ "m0s".

Definition loadConfig (e : env) : config + str :=
  match resolveParams (Getenv e "BURNIN_DCGM_ALLOW") (Getenv e "BURNIN_DCGM_PARAMS") with
  | inr err => inr err
  | inl params =>
  match seconds_of e "BURNIN_DCGM_TIMEOUT_SECONDS" 1 0 " is not a positive integer" with
  | inr err => inr err
  | inl diagTimeout =>
  match seconds_of e "BURNIN_DURATION_SECONDS" 0 0 " is not a non-negative integer" with
  | inr err => inr err
  | inl duration =>
  if Contains params ".is_allowed=true" && (duration <? minDurationForGatedPlugins) then
    inr ("BURNIN_DCGM_ALLOW or BURNIN_DCGM_PARAMS enables at least one plugin past its default allowlist (-p " +:+
         params +:+ "), which invalidates the level-derived timeout budget (#370): set " +:+
         "BURNIN_DURATION_SECONDS explicitly to " +:+ show_minutes minDurationForGatedPlugins +:+ " or more")
  else
  match seconds_of e "BURNIN_DCGM_SAMPLE_INTERVAL_SECONDS" 1 (5 * second) " is not a positive integer" with
  | inr err => inr err
  | inl sampleInterval =>
      let c args address startEngine :=
        MkConfig (envOr e "BURNIN_DCGM_BIN" "dcgmi") (envOr e "BURNIN_NV_HOSTENGINE_BIN" "nv-hostengine")
          args address startEngine duration (Getenv e "BURNIN_DCGM_LEVEL") (Getenv e "BURNIN_DCGM_TESTS")
          params diagTimeout sampleInterval (30 * second)
          (envOr e "BURNIN_DCGM_PRUNED_MANIFEST" prunedManifestPath) in
      let addr := Getenv e "BURNIN_DCGM_HOSTENGINE_ADDRESS" in
      if negb (String.eqb addr "") then inl (c [] addr false)
      else
        let port := envOr e "BURNIN_DCGM_PORT" "5555" in
        let raw := Getenv e "BURNIN_NV_HOSTENGINE_ARGS" in
        let args := if negb (String.eqb raw "") then Fields raw
                    else ["-n"; "-b"; "127.0.0.1"; "-p"; port; "--home-dir"; "/tmp"] in
        inl (c args ("127.0.0.1:" +:+ port) true)
  end end end end.

(** ** The command line *)
Definition dcgmiArgs (subsystem address : str) (rest : list str) : list str :=
  [subsystem; "--host"; address] ++ rest.

Definition diagArgs (cfg : config) (spec : runSpec) (diagTimeout : Z) : list str :=
  dcgmiArgs "diag" (cf_address cfg) ["-r"; sp_arg spec; "-j"] ++
  (if negb (String.eqb (cf_params cfg) "") then ["-p"; cf_params cfg] else []) ++
  (if 0 <? diagTimeout then ["-t"; Itoa (diagTimeout `quot` second)] else []).

(** ** Properties *)

(** The deepest level whose budget fits, and level 1 when none does. *)
Lemma deriveLevel_deepest d :
  let l := deriveLevel d in
  1 <= l <= 4 ∧ (1 < l → budget_at l <= d) ∧ ∀ l', l < l' <= 4 → d < budget_at l'.
Proof.
  cbv zeta. unfold deriveLevel.
  destruct (Z.leb_spec (budget_at 4) d); [split_and!; try lia; intros l' ?; lia|].
  destruct (Z.leb_spec (budget_at 3) d).
  { split_and!; try lia. intros l' ?. by assert (l' = 4) as -> by lia. }
  destruct (Z.leb_spec (budget_at 2) d).
  { split_and!; try lia. intros l' ?. assert (l' = 3 ∨ l' = 4) as [->| ->] by lia; done. }
  split_and!; try lia. intros l' ?. assert (l' = 2 ∨ l' = 3 ∨ l' = 4) as [->|[->| ->]] by lia; done.
Qed.

(** An explicit level is never replaced by another. *)
Lemma resolveLevel_explicit explicit duration lvl source :
  TrimSpace explicit ≠ "" → resolveLevel explicit duration = inl (lvl, source) →
  source = "explicit" ∧ ∀ duration', resolveLevel explicit duration' = inl (lvl, source).
Proof.
  intros Hne. unfold resolveLevel.
  destruct (String.eqb_spec (ToLower (TrimSpace explicit)) "") as [E|_].
  { by destruct (TrimSpace explicit). }
  simpl. destruct (namedLevels !! _); [by intros [= <- <-]|].
  destruct (Atoi _) as [n|]; [|done]. destruct (_ || _); [done|]. by intros [= <- <-].
Qed.

(** dcgmi ends itself inside the budget, or is not told to. *)
Lemma resolveDiagTimeout_inside budget :
  - 2 ^ 62 <= budget < 2 ^ 62 →
  let t := resolveDiagTimeout 0 budget in
  t = 0 ∨ minDerivedDiagTimeout <= t ∧ t + diagTimeoutHeadroom = budget.
Proof.
  unfold resolveDiagTimeout. cbv zeta. simpl (0 <? 0). cbv iota. intros H.
  rewrite i64_small by (unfold diagTimeoutHeadroom, second; lia).
  destruct (Z.ltb_spec (budget - diagTimeoutHeadroom) minDerivedDiagTimeout); [by left|right].
  split; [done|]. simpl. lia.
Qed.

(** What resolveParams has collected is well formed and sets no key twice. *)
Definition params_ok (p : params) : Prop :=
  Forall (λ c, MatchString paramClause c = true) (pa_clauses p) ∧
  NoDup (clause_key <$> pa_clauses p) ∧
  ∀ k, is_Some (pa_seen p !! k) ↔ k ∈ clause_key <$> pa_clauses p.

Lemma add_ok p clause from p' : params_ok p → add p clause from = inl p' → params_ok p'.
Proof.
  unfold add. intros (Hm & Hn & Hs). destruct (MatchString paramClause clause) eqn:E; simpl; [|done].
  destruct (pa_seen p !! clause_key clause) eqn:Ek; [done|]. intros [= <-]. split_and!; cbn.
  - apply Forall_app. split; [done|]. by apply Forall_singleton.
  - rewrite fmap_app. apply NoDup_app. split_and!; [done| |apply NoDup_singleton].
    intros k Hk ->%list_elem_of_singleton. apply Hs in Hk as [? Hk]. congruence.
  - intros k. rewrite fmap_app, elem_of_app, <-Hs. cbn. rewrite list_elem_of_singleton.
    destruct (decide (k = clause_key clause)) as [->|Hne].
    + rewrite lookup_insert, decide_True by done. split; [by right|eauto].
    + rewrite lookup_insert, decide_False by done. naive_solver.
Qed.

Lemma add_allowed_ok entries p p' : params_ok p → add_allowed p entries = inl p' → params_ok p'.
Proof.
  revert p. induction entries as [|e entries IH]; intros p Hp; simpl; [by intros [= <-]|].
  destruct (String.eqb _ ""); [by apply IH|]. destruct (MatchString _ _); [simpl|done].
  destruct (add p _ _) as [q|] eqn:E; [|done]. by apply IH, (add_ok _ _ _ _ Hp E).
Qed.

Lemma add_raw_ok clauses p p' : params_ok p → add_raw p clauses = inl p' → params_ok p'.
Proof.
  revert p. induction clauses as [|c clauses IH]; intros p Hp; simpl; [by intros [= <-]|].
  destruct (String.eqb _ ""); [by apply IH|].
  destruct (add p _ _) as [q|] eqn:E; [|done]. by apply IH, (add_ok _ _ _ _ Hp E).
Qed.

Lemma resolveParams_ok allow raw s :
  resolveParams allow raw = inl s →
  ∃ clauses, s = Join clauses ";" ∧ Forall (λ c, MatchString paramClause c = true) clauses ∧
             NoDup (clause_key <$> clauses).
Proof.
  unfold resolveParams. destruct (add_allowed _ _) as [p|] eqn:E; [|done].
  destruct (add_raw p _) as [q|] eqn:E2; [|done]. intros [= <-].
  assert (params_ok (MkParams [] ∅)) as H0.
  { split_and!; [constructor|constructor|]. intros k. cbn. rewrite lookup_empty.
    split; [by intros []|by intros ?%elem_of_nil]. }
  destruct (add_raw_ok _ _ _ (add_allowed_ok _ _ _ H0 E) E2) as (? & ? & _). eauto.
Qed.

(** A gated plugin is enabled only with ten minutes for it. *)
Lemma gated_plugins_have_time e cfg :
  loadConfig e = inl cfg → Contains (cf_params cfg) ".is_allowed=true" = true →
  minDurationForGatedPlugins <= cf_duration cfg.
Proof.
  unfold loadConfig. intros H Hc. repeat case_match; simplify_eq/=; try done;
    rewrite Hc in *; simpl in *; by apply Z.ltb_ge.
Qed.
