(* ===== verification/DcgmDiag.v ===== *)
(** * runners/dcgm-diag: reading dcgmi's document (findings.go, diagjson.go)

    The JSON document of a diagnostic is walked for every result it records; a failed
    subtest's findings say whether the failure is about the part.  A decoded document is an
    [any]; a map is its members, each key once.  Where the source sorts the keys it ranges
    over, the model walks the document with every map's members in the order of their keys
    ([canon]); where it does not, the range takes the order of a [RangeOrder]. *)

From Stdlib Require Import Ascii.
From S2P Require Import Prelude GoStrings GoFloat RunnerLib.
Open Scope stdpp_scope.
Open Scope Z_scope.

(** ** Documents *)
Inductive any :=
  | ANil
  | ABool (b : bool)
  | ANum (x : float64)
  | AStr (s : str)
  | AArr (l : list any)
  | AObj (m : list (str * any)).

Definition members := list (str * any).

(** [m[key]]: nil when the key is absent. *)
Definition get (m : members) (key : str) : any :=
  match list_first (λ kv, String.eqb kv.1 key) m with Some kv => kv.2 | None => ANil end.

Definition key_le (a b : str * any) : Prop := String.le a.1 b.1.
#[export] Instance key_le_dec : RelDecision key_le.
Proof. intros a b. unfold key_le. apply _. Defined.

(** Every map's members by their keys. *)
Fixpoint canon (v : any) : any :=
  match v with
  | AArr l => AArr (canon <$> l)
  | AObj m => AObj (merge_sort key_le ((λ kv, (kv.1, canon kv.2)) <$> m))
  | _ => v
  end.

Definition stringField (m : members) (key : str) : str :=
  match get m key with AStr v => TrimSpace v | _ => "" end.

(** [int(x)] of a float64: towards zero, and what amd64 gives when it does not fit. *)
Definition int_of_float (x : float64) : Z :=
  match x with
  | SpecFloat.S754_zero _ => 0
  | SpecFloat.S754_finite s m e =>
      let n := floor_Z (SpecFloat.S754_finite false m e) in
      let z := if s then - n else n in
      if (- 2 ^ 63 <=? z) && (z <? 2 ^ 63) then z else - 2 ^ 63
  | _ => - 2 ^ 63
  end.

Definition intField (m : members) (key : str) : option Z :=
  match get m key with
  | ANum x => Some (int_of_float x)
  | AStr s => Atoi (TrimSpace s)
  | _ => None
  end.

(** ** findings.go *)
Record finding := MkFinding {
  fi_Text : str;
  fi_Severity : Z;
  fi_Category : Z;
  fi_ErrorID : Z;
  fi_HasMeta : bool;
}.

Inductive findingClass := findingHardware | findingConfiguration | findingUnreadable.

Global Instance findingClass_eq_dec : EqDecision findingClass.
Proof. solve_decision. Defined.

Definition dcgmSeverityConfig : Z := 5.
Definition dcgmCategoryHardwareFirst : Z := 9.
Definition dcgmCategoryHardwareLast : Z := 15.

Definition configurationSignatures : list str :=
  ["persistence mode"; "is on the denylist"; "is on the blacklist"; "run as root";
   "insufficient permission"; "permissions and os blocks"; "no permission to create"].

Definition unreadableSignatures : list str :=
  ["error getting the"; "could not read"; "unable to query"].

Definition configurationErrorIDs : list (Z * str) := [(29, "DCGM_FR_PERSISTENCE_MODE")].

Definition classifyFinding (text : str) : findingClass :=
  let l := ToLower text in
  if existsb (Contains l) configurationSignatures then findingConfiguration
  else if existsb (Contains l) unreadableSignatures then findingUnreadable
  else findingHardware.

Definition classify (f : finding) : findingClass :=
  if negb (fi_HasMeta f) then classifyFinding (fi_Text f)
  else if (dcgmCategoryHardwareFirst <=? fi_Category f) && (fi_Category f <=? dcgmCategoryHardwareLast)
  then findingHardware
  else if negb (fi_Severity f =? dcgmSeverityConfig) then findingHardware
  else if existsb (λ e, fi_ErrorID f =? e.1) configurationErrorIDs then findingConfiguration
  else classifyFinding (fi_Text f).

(** What excusedFindings returns: the texts of each class, what blocks, and the answer. *)
Record excusal := MkExcusal {
  ex_config : list str;
  ex_unreadable : list str;
  ex_blocking : str;
  ex_excused : bool;
}.

Fixpoint excused_go (config unreadable : list str) (l : list finding) : excusal :=
  match l with
  | [] => MkExcusal config unreadable "" true
  | f :: l =>
      match classify f with
      | findingConfiguration => excused_go (config ++ [fi_Text f]) unreadable l
      | findingUnreadable => excused_go config (unreadable ++ [fi_Text f]) l
      | findingHardware => MkExcusal [] [] (fi_Text f) false
      end
  end.

Definition excusedFindings (l : list finding) : excusal :=
  match l with
  | [] => MkExcusal [] [] "DCGM reported no reason for the failure" false
  | _ => excused_go [] [] l
  end.

Definition orNone (s : str) : str :=
  if String.eqb (TrimSpace s) "" then "DCGM gave no reason" else s.

(** ** diagjson.go: statuses *)
Inductive status := statusSkip | statusPass | statusNotRun | statusWarn | statusFail.

Global Instance status_eq_dec : EqDecision status.
Proof. solve_decision. Defined.

Definition severity (s : status) : Z :=
  match s with
  | statusSkip => 0 | statusPass => 1 | statusNotRun => 2 | statusWarn => 3 | statusFail => 4
  end.

Definition among (s : str) (l : list str) : bool := existsb (String.eqb s) l.

Definition parseStatus (raw : str) : status :=
  let s := ToLower (Join (Fields raw) " ") in
  if among s ["pass"; "passed"; "ok"] then statusPass
  else if among s ["fail"; "failed"; "error"] then statusFail
  else if among s ["warn"; "warning"] then statusWarn
  else if among s ["skip"; "skipped"; "not applicable"; "n/a"] then statusSkip
  else statusNotRun.

(** ** Findings and reasons of a result *)
Fixpoint collectAllStrings (node : any) : list str :=
  match node with
  | AStr s => [s]
  | AArr l => mjoin (collectAllStrings <$> l)
  | AObj m => mjoin ((λ kv, collectAllStrings kv.2) <$> m)
  | _ => []
  end.

Definition firstString (m : members) (keys : list str) : str :=
  match list_first (λ k, match get m k with AStr s => negb (String.eqb (TrimSpace s) "") | _ => false end) keys with
  | Some k => match get m k with AStr s => s | _ => "" end
  | None => ""
  end.

(** The finding an object of a warnings or errors value is. *)
Definition object_finding (v : members) : option finding :=
  let text := TrimSpace (firstString v
    ["warning"; "error"; "message"; "error_message"; "detail"; "text"; "info"]) in
  let sev := intField v "error_severity" in
  let cat := intField v "error_category" in
  let id := default 0 (intField v "error_id") in
  let hasMeta := match sev, cat with Some _, Some _ => true | _, _ => false end in
  let sev := default 0 sev in
  let cat := default 0 cat in
  if negb (String.eqb text "") then Some (MkFinding text sev cat id hasMeta)
  else if negb hasMeta then None
  else Some (MkFinding ("DCGM reported error_id " +:+ Itoa id +:+ " (severity " +:+ Itoa sev +:+
               ", category " +:+ Itoa cat +:+ ") with no message this runner could read")
               sev cat id hasMeta).

Fixpoint appendFindingEntry (out : list finding) (entry : any) : list finding :=
  match entry with
  | AArr l => (fix go out l := match l with
                               | [] => out
                               | inner :: l => go (appendFindingEntry out inner) l
                               end) out l
  | AStr s => let t := TrimSpace s in
              if String.eqb t "" then out else out ++ [MkFinding t 0 0 0 false]
  | AObj m => match object_finding m with Some f => out ++ [f] | None => out end
  | _ => out
  end.

Definition bare_finding (t : str) : option finding :=
  let t := TrimSpace t in
  if String.eqb t "" then None else Some (MkFinding t 0 0 0 false).

Definition findingsFrom (node : members) : list finding :=
  let out := foldl (λ out key, appendFindingEntry out (get node key)) [] ["warnings"; "errors"] in
  foldl (λ out key, out ++ omap bare_finding (collectAllStrings (get node key))) out
    ["info"; "warning"; "error"; "message"; "error_message"].

(** [collectStrings]: at most the strings that are there when eight have been collected. *)
Section reasons.
Context `{RangeOrder}.

(** The members of a map in the order a range takes. *)
Definition ranged (m : members) : members := range_of (list_to_map m).

Fixpoint collectStrings (out : list str) (node : any) : list str :=
  if (8 <=? length out)%nat then out
  else
    match node with
    | AStr s => out ++ [s]
    | AArr l => (fix go out l := match l with
                                 | [] => out
                                 | v :: l => go (collectStrings out v) l
                                 end) out l
    | AObj m => out ++ omap (λ kv, match kv.2 with AStr s => Some s | _ => None end) (ranged m)
    | _ => out
    end.

Definition reasonKeys : list str :=
  ["info"; "warning"; "warnings"; "error"; "errors"; "message"; "error_message"].

Fixpoint append_go (name : str) (dst : list str) (found : list str) : list str :=
  match found with
  | [] => dst
  | f :: found =>
      let f := TrimSpace f in
      if String.eqb f "" then append_go name dst found
      else
        let dst := dst ++ [name +:+ ": " +:+ f] in
        if (8 <=? length dst)%nat then dst else append_go name dst found
  end.

Definition appendReasons (dst : list str) (name : str) (node : members) : list str :=
  append_go name dst (foldl (λ out key, collectStrings out (get node key)) [] reasonKeys).

(** ** The walk *)
Record diagResults := MkDiagResults {
  dr_Version : str;
  dr_DriverVersion : str;
  dr_tests : gmap str status;
  dr_order : list str;
  dr_skipReasons : list str;
  dr_failReasons : list str;
  dr_warnReasons : list str;
  dr_findings : gmap str (list finding);
  dr_versionDepth : Z;
  dr_driverDepth : Z;
  dr_SawResultStructure : bool;
}.

Definition reduceKey (s : str) : str := filter_str is_lower (ToLower s).

Definition driverVersionNames : list str := ["driverversiondetected"; "driverversion"].

(** The members are in the order of their keys. *)
Definition driverVersionField (m : members) : str :=
  let named want := omap (λ kv : str * any,
    if negb (String.eqb (reduceKey kv.1) want) then None
    else match kv.2 with
         | AStr v => let v := TrimSpace v in if String.eqb v "" then None else Some v
         | _ => None
         end) m in
  default "" (head (mjoin (named <$> driverVersionNames))).

Definition shallower (v : str) (depth known : Z) : bool :=
  negb (String.eqb v "") && ((known <? 0) || (depth <? known)).

Definition see_version (m : members) (depth : Z) (r : diagResults) : diagResults :=
  let v := stringField m "version" in
  if shallower v depth (dr_versionDepth r)
  then MkDiagResults v (dr_DriverVersion r) (dr_tests r) (dr_order r) (dr_skipReasons r) (dr_failReasons r)
         (dr_warnReasons r) (dr_findings r) depth (dr_driverDepth r) (dr_SawResultStructure r)
  else r.

Definition see_driver (m : members) (depth : Z) (r : diagResults) : diagResults :=
  let v := driverVersionField m in
  if shallower v depth (dr_driverDepth r)
  then MkDiagResults (dr_Version r) v (dr_tests r) (dr_order r) (dr_skipReasons r) (dr_failReasons r)
         (dr_warnReasons r) (dr_findings r) (dr_versionDepth r) depth (dr_SawResultStructure r)
  else r.

Definition has_results (m : members) : bool :=
  existsb (λ container, match get m container with AArr (_ :: _) => true | _ => false end)
    ["tests"; "results"; "test_categories"].

Definition see_structure (m : members) (r : diagResults) : diagResults :=
  MkDiagResults (dr_Version r) (dr_DriverVersion r) (dr_tests r) (dr_order r) (dr_skipReasons r)
    (dr_failReasons r) (dr_warnReasons r) (dr_findings r) (dr_versionDepth r) (dr_driverDepth r)
    (dr_SawResultStructure r || has_results m).

Definition record (name : str) (st : status) (node : members) (r : diagResults) : diagResults :=
  let name := if String.eqb name "" then "unnamed" else name in
  let seen := dr_tests r !! name in
  let order := match seen with None => dr_order r ++ [name] | Some _ => dr_order r end in
  let tests := match seen with
               | None => <[name := st]> (dr_tests r)
               | Some prev => if severity prev <? severity st then <[name := st]> (dr_tests r) else dr_tests r
               end in
  let upd skip fail warn findings :=
    MkDiagResults (dr_Version r) (dr_DriverVersion r) tests order skip fail warn findings
      (dr_versionDepth r) (dr_driverDepth r) (dr_SawResultStructure r) in
  match st with
  | statusSkip => upd (appendReasons (dr_skipReasons r) name node) (dr_failReasons r) (dr_warnReasons r) (dr_findings r)
  | statusFail =>
      upd (dr_skipReasons r) (appendReasons (dr_failReasons r) name node) (dr_warnReasons r)
        (<[name := default [] (dr_findings r !! name) ++ findingsFrom node]> (dr_findings r))
  | statusWarn =>
      upd (dr_skipReasons r) (appendReasons (dr_failReasons r) name node)
        (appendReasons (dr_warnReasons r) name node) (dr_findings r)
  | _ => upd (dr_skipReasons r) (dr_failReasons r) (dr_warnReasons r) (dr_findings r)
  end.

Definition inherited (m : members) (name : str) : str :=
  let own := stringField m "name" in if String.eqb own "" then name else own.

Definition see_status (name : str) (m : members) (r : diagResults) : diagResults :=
  match get m "status" with
  | AStr raw => record name (parseStatus raw) m r
  | _ => r
  end.

Fixpoint walk (r : diagResults) (node : any) (inheritedName : str) (depth : Z) : diagResults :=
  match node with
  | AObj m =>
      let inheritedName := inherited m inheritedName in
      let r := see_status inheritedName m (see_structure m (see_driver m depth (see_version m depth r))) in
      (fix go r m := match m with
                     | [] => r
                     | (_, v) :: m => go (walk r v inheritedName (depth + 1)) m
                     end) r m
  | AArr l =>
      (fix go r l := match l with
                     | [] => r
                     | v :: l => go (walk r v inheritedName depth) l
                     end) r l
  | _ => r
  end.

Definition no_results : diagResults := MkDiagResults "" "" ∅ [] [] [] [] ∅ (-1) (-1) false.

(** The document, or why there is none. *)
Definition extractJSON (s : str) : str + str :=
  match IndexByte s "{", LastIndexByte s "}" with
  | Some start, Some end_ =>
      if (end_ <=? start)%nat then inr "no JSON document in dcgmi output"
      else inl (take (S end_ - start) (drop start s))
  | _, _ => inr "no JSON document in dcgmi output"
  end.

(** encoding/json into an [any]: the document or the error. *)
Context (Unmarshal : str → any + str).

Definition parseDiagJSON (stdout : str) : diagResults + str :=
  match extractJSON stdout with
  | inr err => inr err
  | inl body =>
      match Unmarshal body with
      | inr err => inr ("dcgmi output is not valid JSON: " +:+ err)
      | inl root => inl (walk no_results (canon root) "" 0)
      end
  end.
End reasons.

(** ** Properties *)

(** *** Documents *)
Section any_ind.
Context (P : any → Prop).
Hypothesis Hnil : P ANil.
Hypothesis Hbool : ∀ b, P (ABool b).
Hypothesis Hnum : ∀ x, P (ANum x).
Hypothesis Hstr : ∀ s, P (AStr s).
Hypothesis Harr : ∀ l, Forall P l → P (AArr l).
Hypothesis Hobj : ∀ m, Forall (λ kv, P kv.2) m → P (AObj m).

Fixpoint any_nested (v : any) : P v :=
  match v with
  | ANil => Hnil
  | ABool b => Hbool b
  | ANum x => Hnum x
  | AStr s => Hstr s
  | AArr l =>
      Harr l ((fix go (l : list any) : Forall P l :=
                 match l with
                 | [] => @List.Forall_nil _ _
                 | v :: l => @List.Forall_cons _ _ v l (any_nested v) (go l)
                 end) l)
  | AObj m =>
      Hobj m ((fix go (m : list (str * any)) : Forall (λ kv, P kv.2) m :=
                 match m with
                 | [] => @List.Forall_nil _ _
                 | (k, v) :: m => @List.Forall_cons _ _ (k, v) m (any_nested v) (go m)
                 end) m)
  end.
End any_ind.

(** *** What a document records *)

(** A result: the subtest it is one of, its status, and the object it was read from. *)
Record recorded := MkRecorded { rc_name : str; rc_status : status; rc_node : members }.

Definition own_record (name : str) (m : members) : list recorded :=
  match get m "status" with
  | AStr raw => [MkRecorded (if String.eqb name "" then "unnamed" else name) (parseStatus raw) m]
  | _ => []
  end.

(** The results of a document, in the order the walk comes to them. *)
Fixpoint records (node : any) (name : str) : list recorded :=
  match node with
  | AObj m => let name := inherited m name in
              own_record name m ++ mjoin ((λ kv, records kv.2 name) <$> m)
  | AArr l => mjoin ((λ v, records v name) <$> l)
  | _ => []
  end.

(** What the counts are taken from. *)
Record core := MkCore {
  cr_tests : gmap str status;
  cr_order : list str;
  cr_findings : gmap str (list finding);
}.

Definition core_of (r : diagResults) : core := MkCore (dr_tests r) (dr_order r) (dr_findings r).

Definition worse (a b : status) : status := if severity a <? severity b then b else a.

Definition record_core (c : core) (x : recorded) : core :=
  let name := rc_name x in
  MkCore
    (<[name := default (rc_status x) ((λ a, worse a (rc_status x)) <$> cr_tests c !! name)]> (cr_tests c))
    (match cr_tests c !! name with None => cr_order c ++ [name] | Some _ => cr_order c end)
    (match rc_status x with
     | statusFail => <[name := default [] (cr_findings c !! name) ++ findingsFrom (rc_node x)]> (cr_findings c)
     | _ => cr_findings c
     end).

Section walked.
Context `{RangeOrder}.

Lemma record_core_of name st m r :
  core_of (record name st m r) =
  record_core (core_of r) (MkRecorded (if String.eqb name "" then "unnamed" else name) st m).
Proof.
  unfold record, record_core, core_of. cbn [rc_name rc_status rc_node cr_tests cr_order cr_findings].
  set (n := if String.eqb name "" then "unnamed" else name).
  assert ((match dr_tests r !! n with
           | Some prev => if severity prev <? severity st then <[n := st]> (dr_tests r) else dr_tests r
           | None => <[n := st]> (dr_tests r)
           end) = <[n := default st ((λ a, worse a st) <$> dr_tests r !! n)]> (dr_tests r)) as Ht.
  { destruct (dr_tests r !! n) as [prev|] eqn:E; simpl; [|done]. unfold worse.
    destruct (severity prev <? severity st); [done|]. by rewrite insert_id. }
  rewrite <-Ht. by destruct st.
Qed.

Lemma see_core name m depth r :
  core_of (see_status name m (see_structure m (see_driver m depth (see_version m depth r)))) =
  foldl record_core (core_of r) (own_record name m).
Proof.
  assert (core_of (see_structure m (see_driver m depth (see_version m depth r))) = core_of r) as <-.
  { unfold see_structure, see_driver, see_version. by repeat case_match. }
  unfold see_status, own_record. destruct (get m "status"); try done. apply record_core_of.
Qed.

Lemma walk_core node r name depth :
  core_of (walk r node name depth) = foldl record_core (core_of r) (records node name).
Proof.
  revert r name depth. induction node as [| | | |l IH|m IH] using any_nested; intros r name depth; try done.
  - cbn [walk records]. revert r. induction IH as [|v l Hv _ IH]; intros r; [done|].
    cbn [fmap list_fmap mjoin list_join]. rewrite foldl_app, <-(Hv r name depth). apply IH.
  - cbn [walk records]. rewrite foldl_app, <-(see_core (inherited m name) m depth).
    cbv zeta. set (n := inherited m name).
    set (r0 := see_status n m _). clearbody r0 n. revert r0.
    induction IH as [|[k v] m' Hv _ IH]; intros r0; [done|].
    cbn [fmap list_fmap mjoin list_join snd]. cbn [snd] in Hv. rewrite foldl_app, <-(Hv r0 n (depth + 1)). apply IH.
Qed.
End walked.

(** *** The record of a subtest *)
Definition no_core : core := MkCore ∅ [] ∅.

Definition worst_at (n : str) (rs : list recorded) (s : status) : Prop :=
  (∃ x, x ∈ rs ∧ rc_name x = n ∧ rc_status x = s) ∧
  ∀ x, x ∈ rs → rc_name x = n → severity (rc_status x) <= severity s.

(** The findings of a subtest's failures. *)
Definition failure_of (n : str) (x : recorded) : list finding :=
  if String.eqb (rc_name x) n && bool_decide (rc_status x = statusFail) then findingsFrom (rc_node x) else [].

Definition failures (n : str) (rs : list recorded) : list finding := mjoin (failure_of n <$> rs).

Record core_ok (rs : list recorded) (c : core) : Prop := {
  ok_tests : ∀ n, match cr_tests c !! n with
                  | Some s => worst_at n rs s
                  | None => ∀ x, x ∈ rs → rc_name x ≠ n
                  end;
  ok_nodup : NoDup (cr_order c);
  ok_order : ∀ n, n ∈ cr_order c ↔ is_Some (cr_tests c !! n);
  ok_findings : ∀ n, default [] (cr_findings c !! n) = failures n rs;
}.

Lemma worst_step n rs x :
  rc_name x = n →
  (∀ s, worst_at n rs s → worst_at n (rs ++ [x]) (worse s (rc_status x))) ∧
  ((∀ y, y ∈ rs → rc_name y ≠ n) → worst_at n (rs ++ [x]) (rc_status x)).
Proof.
  intros Hx. split.
  - intros s [(y & Hy & Hn & Hs) Hall]. unfold worse.
    destruct (Z.ltb_spec (severity s) (severity (rc_status x))) as [Hlt|Hge]; split.
    + exists x. split; [apply elem_of_app; right; by left|done].
    + intros z [Hz|Hz%list_elem_of_singleton]%elem_of_app Hnz; [|by subst].
      specialize (Hall z Hz Hnz). lia.
    + exists y. split; [apply elem_of_app; by left|done].
    + intros z [Hz|Hz%list_elem_of_singleton]%elem_of_app Hnz; [by apply Hall|by subst].
  - intros Hno. split.
    + exists x. split; [apply elem_of_app; right; by left|done].
    + intros z [Hz|Hz%list_elem_of_singleton]%elem_of_app Hnz; [by apply Hno in Hz|by subst].
Qed.

Lemma worst_other n rs x s : rc_name x ≠ n → worst_at n rs s → worst_at n (rs ++ [x]) s.
Proof.
  intros Hne [(y & Hy & Hn & Hs) Hall]. split.
  - exists y. split; [apply elem_of_app; by left|done].
  - intros z [Hz|Hz%list_elem_of_singleton]%elem_of_app Hnz; [by apply Hall|by subst].
Qed.

Lemma failures_cons n x rs : failures n (x :: rs) = failure_of n x ++ failures n rs.
Proof. done. Qed.

Lemma failures_snoc n rs x : failures n (rs ++ [x]) = failures n rs ++ failure_of n x.
Proof.
  induction rs as [|y rs IH]; [by cbn; rewrite app_nil_r|].
  cbn [app]. by rewrite !failures_cons, IH, app_assoc.
Qed.

Lemma record_core_ok rs c x : core_ok rs c → core_ok (rs ++ [x]) (record_core c x).
Proof.
  intros [Ht Hn Ho Hf]. set (n := rc_name x).
  assert (∀ m, cr_tests (record_core c x) !! m =
    if decide (n = m) then Some (default (rc_status x) ((λ a, worse a (rc_status x)) <$> cr_tests c !! n))
    else cr_tests c !! m) as Et.
  { intros m. cbn. fold n. by rewrite lookup_insert. }
  split.
  - intros m. rewrite Et. destruct (decide (n = m)) as [<-|Hne].
    + destruct (worst_step n rs x eq_refl) as [H1 H2]. specialize (Ht n).
      destruct (cr_tests c !! n); simpl; auto.
    + specialize (Ht m). destruct (cr_tests c !! m); [by apply worst_other|].
      intros z [Hz|Hz%list_elem_of_singleton]%elem_of_app; [by apply Ht|by subst].
  - cbn. fold n. destruct (cr_tests c !! n) eqn:E; [done|]. apply NoDup_app. split_and!; [done| |apply NoDup_singleton].
    intros m Hm ->%list_elem_of_singleton. apply Ho in Hm as [? Hm]. congruence.
  - intros m. rewrite Et. cbn. fold n. destruct (decide (n = m)) as [<-|Hne].
    + split; [eauto|]. intros _. destruct (cr_tests c !! n) eqn:E.
      * apply Ho. eauto. * apply elem_of_app. right. by left.
    + rewrite <-Ho. destruct (cr_tests c !! n); [done|].
      rewrite elem_of_app, list_elem_of_singleton. naive_solver.
  - intros m. rewrite failures_snoc, <-Hf. unfold failure_of. cbn. fold n.
    destruct (rc_status x) eqn:Es; simpl; rewrite ?andb_false_r, ?app_nil_r; try done.
    rewrite andb_true_r, lookup_insert. destruct (String.eqb_spec n m) as [<-|Hne].
    + by rewrite decide_True.
    + rewrite decide_False by done. by rewrite app_nil_r.
Qed.

Lemma core_spec rs : core_ok rs (foldl record_core no_core rs).
Proof.
  induction rs as [|x rs IH] using rev_ind.
  - split; try done.
    + intros n. cbn. rewrite lookup_empty. by intros x ?%elem_of_nil.
    + apply NoDup_nil_2.
    + intros n. cbn. rewrite lookup_empty. split; [by intros ?%elem_of_nil|by intros []].
  - rewrite foldl_snoc. by apply record_core_ok.
Qed.

(** *** Excuses *)
Lemma excused_go_spec config unreadable l :
  ex_excused (excused_go config unreadable l) = forallb (λ f, negb (bool_decide (classify f = findingHardware))) l.
Proof.
  revert config unreadable. induction l as [|f l IH]; intros config unreadable; [done|].
  cbn [excused_go forallb]. destruct (classify f) eqn:E; [done|by rewrite IH..].
Qed.

Lemma excusedFindings_spec l :
  ex_excused (excusedFindings l) = true ↔ l ≠ [] ∧ ∀ f, f ∈ l → classify f ≠ findingHardware.
Proof.
  destruct l as [|f l]; [split; [done|by intros []]|].
  unfold excusedFindings. rewrite excused_go_spec, forallb_elem.
  setoid_rewrite negb_true_iff. setoid_rewrite bool_decide_eq_false. naive_solver.
Qed.

(** DCGM's own classification only ever takes an excuse away: a finding it put on hardware, or
    gave another severity than a setting's, is excused by no wording. *)
Lemma classify_meta f :
  fi_HasMeta f = true → classify f ≠ findingHardware →
  fi_Severity f = 5 ∧ ¬ 9 <= fi_Category f <= 15 ∧
  (fi_ErrorID f = 29 ∨ classifyFinding (fi_Text f) ≠ findingHardware).
Proof.
  unfold classify, dcgmCategoryHardwareFirst, dcgmCategoryHardwareLast, dcgmSeverityConfig.
  intros ->. simpl.
  destruct (Z.leb_spec 9 (fi_Category f)), (Z.leb_spec (fi_Category f) 15); simpl; try done;
    (destruct (Z.eqb_spec (fi_Severity f) 5) as [->|]; simpl; [|done]); intros Hc;
    (split_and!; [done|lia|]); destruct (Z.eqb_spec (fi_ErrorID f) 29); auto.
Qed.

(** *** The order of a map's members *)
Inductive same_doc : any → any → Prop :=
  | same_refl v : same_doc v v
  | same_trans a b c : same_doc a b → same_doc b c → same_doc a c
  | same_perm m m' : NoDup m.*1 → m ≡ₚ m' → same_doc (AObj m) (AObj m')
  | same_arr l1 v v' l2 : same_doc v v' → same_doc (AArr (l1 ++ v :: l2)) (AArr (l1 ++ v' :: l2))
  | same_obj m1 k v v' m2 : same_doc v v' → same_doc (AObj (m1 ++ (k, v) :: m2)) (AObj (m1 ++ (k, v') :: m2)).

#[export] Instance key_le_total : Total key_le.
Proof. intros a b. apply (total String.le). Qed.

#[export] Instance key_le_trans : Transitive key_le.
Proof. intros a b c. unfold key_le. by intros; etrans. Qed.

Lemma key_unique (m : members) x y : NoDup m.*1 → x ∈ m → y ∈ m → x.1 = y.1 → x = y.
Proof.
  intros Hn [i Hi]%list_elem_of_lookup [j Hj]%list_elem_of_lookup E.
  assert (i = j) as ->; [|congruence].
  eapply (NoDup_lookup m.*1); [done|..]; rewrite list_lookup_fmap; [by rewrite Hi|by rewrite Hj, E].
Qed.

Lemma sort_unique (m m' : members) :
  NoDup m.*1 → m ≡ₚ m' → merge_sort key_le m = merge_sort key_le m'.
Proof.
  intros Hn Hp. apply (Sorted_unique_strong key_le).
  - intros x y Hx Hy H1 H2. rewrite merge_sort_Permutation in Hx, Hy. rewrite <-Hp in Hy.
    apply (key_unique m); try done. by apply (anti_symm String.le).
  - apply (Sorted_merge_sort key_le).
  - apply (Sorted_merge_sort key_le).
  - by rewrite !merge_sort_Permutation.
Qed.

Lemma canon_same a b : same_doc a b → canon a = canon b.
Proof.
  induction 1 as [v|a b c _ IH1 _ IH2|m m' Hn Hp|l1 v v' l2 _ IH|m1 k v v' m2 _ IH].
  - done.
  - congruence.
  - cbn [canon]. f_equal. apply sort_unique; [|by rewrite Hp].
    rewrite <-list_fmap_compose. by rewrite (list_fmap_ext _ fst) by done.
  - cbn [canon]. by rewrite !fmap_app, !fmap_cons, IH.
  - cbn [canon]. rewrite !fmap_app, !fmap_cons. cbn [fst snd]. by rewrite IH.
Qed.

(** *** The structure of results *)
Fixpoint structured (node : any) : bool :=
  match node with
  | AObj m => has_results m || existsb (λ kv, structured kv.2) m
  | AArr l => existsb structured l
  | _ => false
  end.

Lemma see_saw `{RangeOrder} name m depth r :
  dr_SawResultStructure (see_status name m (see_structure m (see_driver m depth (see_version m depth r)))) =
  dr_SawResultStructure r || has_results m.
Proof.
  unfold see_status, see_structure, see_driver, see_version, record. repeat case_match; done.
Qed.

Lemma walk_saw `{RangeOrder} node r name depth :
  dr_SawResultStructure (walk r node name depth) = dr_SawResultStructure r || structured node.
Proof.
  revert r name depth. induction node as [| | | |l IH|m IH] using any_nested; intros r name depth;
    try (by cbn; rewrite orb_false_r).
  - cbn [walk structured]. revert r. induction IH as [|v l Hv _ IH]; intros r; [by rewrite orb_false_r|].
    cbn [existsb]. by rewrite orb_assoc, <-(Hv r name depth), <-IH.
  - cbn [walk structured]. rewrite orb_assoc, <-(see_saw (inherited m name) m depth).
    cbv zeta. set (n := inherited m name). set (r0 := see_status n m _). clearbody r0 n. revert r0.
    induction IH as [|[k v] m' Hv _ IH]; intros r0; [by rewrite orb_false_r|].
    cbn [existsb snd] in *. by rewrite orb_assoc, <-(Hv r0 n (depth + 1)), <-IH.
Qed.
