(* ===== verification/DcgmVerdict.v ===== *)
(** * runners/dcgm-diag: the verdict (diagjson.go Counts, report.go, main.go)

    The recorded subtests are counted and the counts decide the exit code; what is printed
    is the metrics in the order they were first set, then one marker line. *)

From Stdlib Require Import Ascii.
From S2P Require Import Prelude GoStrings GoFloat Contract Registry Runner GoRegexp RunnerLib DcgmPlan DcgmDiag.
Open Scope stdpp_scope.
Open Scope Z_scope.

(** ** Counts *)
Record diagCounts := MkDiagCounts {
  dc_Total : Z;
  dc_Executed : Z;
  dc_Passed : Z;
  dc_Failed : Z;
  dc_Warned : Z;
  dc_NotRun : Z;
  dc_Skipped : Z;
  dc_FailedNames : list str;
  dc_SkippedNames : list str;
  dc_ExcusedNames : list str;
  dc_ConfigFindings : list str;
  dc_BlockingFinding : str;
  dc_UnreadableFindings : list str;
}.

Definition no_counts : diagCounts := MkDiagCounts 0 0 0 0 0 0 0 [] [] [] [] "" [].

Definition status_in (r : diagResults) (name : str) : status := default statusSkip (dr_tests r !! name).
Definition findings_in (r : diagResults) (name : str) : list finding := default [] (dr_findings r !! name).

Definition count_one (r : diagResults) (c : diagCounts) (name : str) : diagCounts :=
  let upd passed failed warned notRun skipped failedN skippedN excusedN config blocking unread :=
    MkDiagCounts (dc_Total c + 1) (dc_Executed c) (dc_Passed c + passed) (dc_Failed c + failed)
      (dc_Warned c + warned) (dc_NotRun c + notRun) (dc_Skipped c + skipped)
      (dc_FailedNames c ++ failedN) (dc_SkippedNames c ++ skippedN) (dc_ExcusedNames c ++ excusedN)
      (dc_ConfigFindings c ++ config) blocking (dc_UnreadableFindings c ++ unread) in
  let same := dc_BlockingFinding c in
  match status_in r name with
  | statusPass => upd 1 0 0 0 0 [] [] [] [] same []
  | statusFail =>
      let ex := excusedFindings (findings_in r name) in
      let blocking := if negb (ex_excused ex) && negb (String.eqb (ex_blocking ex) "") && String.eqb same ""
                      then ex_blocking ex else same in
      if ex_excused ex
      then upd 0 0 0 1 0 [] [] [name] (ex_config ex) blocking (ex_unreadable ex)
      else upd 0 1 0 0 0 [name] [] [] [] blocking []
  | statusWarn => upd 0 0 1 0 0 [] [] [] [] same []
  | statusSkip => upd 0 0 0 0 1 [] [name] [] [] same []
  | statusNotRun => upd 0 0 0 1 0 [] [] [] [] same []
  end.

Definition Counts (r : diagResults) : diagCounts :=
  let c := foldl (count_one r) no_counts (dr_order r) in
  MkDiagCounts (dc_Total c)
    (dc_Passed c + dc_Failed c + dc_Warned c + Z.of_nat (length (dc_ExcusedNames c)))
    (dc_Passed c) (dc_Failed c) (dc_Warned c) (dc_NotRun c) (dc_Skipped c)
    (dc_FailedNames c) (dc_SkippedNames c) (dc_ExcusedNames c) (dc_ConfigFindings c)
    (dc_BlockingFinding c) (dc_UnreadableFindings c).

(** ** Refusals in prose *)
Definition unsupportedSignatures : list str :=
  ["unsupported gpu"; "is not supported by dcgm"; "not supported by dcgm"; "no supported gpus";
   "no supported devices"; "unable to run diagnostic on unsupported"; "gpu is not supported";
   "does not support the diagnostic"; "unsupported chip"].

Definition excerpt (text : str) (index : nat) : str :=
  let start := match LastIndexByte (take index text) newline with Some i => S i | None => O end in
  let end_ := match IndexByte (drop index text) newline with
              | Some i => (i + index)%nat
              | None => String.length text
              end in
  TrimSpace (take (end_ - start) (drop start text)).

Definition unsupportedSignature (text : str) : str :=
  let lower := ToLower text in
  match list_first (Contains lower) unsupportedSignatures with
  | Some sig => excerpt text (default O (IndexStr lower sig))
  | None => ""
  end.

Definition firstLine (s : str) : str :=
  default "" (list_first (λ line, negb (String.eqb line "")) (TrimSpace <$> Split s newline)).

(** ** The report *)
Record report := MkReport { rp_order : list str; rp_vals : gmap str str }.

Definition newReport : report := MkReport [] ∅.

Definition set (key value : str) (r : report) : report :=
  MkReport (match rp_vals r !! key with None => rp_order r ++ [key] | Some _ => rp_order r end)
    (<[key := sanitize value]> (rp_vals r)).

Definition setInt (key : str) (v : Z) (r : report) : report := set key (Itoa v) r.

Definition write_lines (r : report) : list str :=
  (λ k, k +:+ "=" +:+ default "" (rp_vals r !! k)) <$> rp_order r.

(** What a runner ends with: its exit code and the lines it printed. *)
Definition ended := (Z * list str)%type.

Definition finish (rep : report) (code : Z) (marker reason : str) : ended :=
  (code, write_lines rep ++
         [if String.eqb reason "" then marker else marker +:+ ": " +:+ sanitize reason]).

Definition markerPass : str := "DCGM_DIAG_PASS".
Definition markerFail : str := "DCGM_DIAG_FAIL".
Definition markerSkip : str := "DCGM_DIAG_SKIP".
Definition markerError : str := "DCGM_DIAG_ERROR".

Definition set_if (b : bool) (key value : str) (r : report) : report := if b then set key value r else r.

Definition reportDiag (res : diagResults) (rep : report) : report :=
  let rep := set_if (negb (String.eqb (dr_Version res) "")) "dcgm_version" (dr_Version res) rep in
  let rep := set_if (negb (String.eqb (dr_DriverVersion res) "")) "driver_version" (dr_DriverVersion res) rep in
  let c := Counts res in
  let rep := setInt "tests_run" (dc_Executed c) rep in
  let rep := setInt "tests_failed" (dc_Failed c) rep in
  let rep := setInt "tests_warned" (dc_Warned c) rep in
  let rep := setInt "tests_not_run" (dc_NotRun c) rep in
  setInt "tests_skipped" (dc_Skipped c) rep.

(** ** The verdict *)
Definition nonempty {A} (l : list A) : bool := match l with [] => false | _ => true end.

(** The evidence that is set whatever the verdict. *)
Definition set_evidence (res : diagResults) (c : diagCounts) (rep : report) : report :=
  let rep := set_if (nonempty (dc_ConfigFindings c)) "diag_config_findings" (Join (dc_ConfigFindings c) " | ") rep in
  let rep := set_if (nonempty (dr_warnReasons res)) "diag_warn_findings" (Join (dr_warnReasons res) " | ") rep in
  let rep := set_if (nonempty (dc_SkippedNames c)) "diag_skipped_subtests" (Join (dc_SkippedNames c) ",") rep in
  let rep := set_if (nonempty (dr_skipReasons res)) "diag_skip_reason" (Join (dr_skipReasons res) " | ") rep in
  if nonempty (dc_UnreadableFindings c)
  then set "diag_excused_subtests" (Join (dc_ExcusedNames c) ",") (set "diag_unreadable_fields" "n/a" rep)
  else set_if (nonempty (dc_ExcusedNames c)) "diag_excused_subtests" (Join (dc_ExcusedNames c) ",") rep.

Definition failed_reason (res : diagResults) (c : diagCounts) : str :=
  Itoa (dc_Failed c) +:+ " of " +:+ Itoa (dc_Executed c) +:+ " DCGM subtests failed: " +:+
  Join (dc_FailedNames c) ", " +:+
  (if negb (String.eqb (dc_BlockingFinding c) "")
   then " — the finding that indicts the hardware: " +:+ dc_BlockingFinding c else "") +:+
  (if nonempty (dr_failReasons res) then " — all findings: " +:+ Join (dr_failReasons res) "; " else "").

Definition excused_reason (c : diagCounts) : str :=
  Itoa (dc_NotRun c) +:+ " of " +:+ Itoa (dc_Total c) +:+
  " DCGM subtests are UNJUDGED — every finding against them was a node setting or an unreadable field, not a hardware fault" +:+
  (if 0 <? dc_Skipped c
   then ". Also, " +:+ Itoa (dc_Skipped c) +:+ " SKIPPED outright (" +:+ Join (dc_SkippedNames c) "," +:+
        ") — if DCGM's allowlist gated them off, set BURNIN_DCGM_ALLOW=<plugin>,..."
   else "") +:+
  " — " +:+ Join (dc_ConfigFindings c ++ dc_UnreadableFindings c) "; " +:+
  ". Fix the configuration and re-run; this is deliberately not a Fail, which would condemn the hardware " +:+
  "for something a command fixes (issue #304)".

Definition skipped_reason (res : diagResults) (c : diagCounts) : str :=
  Itoa (dc_Skipped c) +:+ " of " +:+ Itoa (dc_Total c) +:+ " DCGM subtests were SKIPPED (" +:+ Itoa (dc_Executed c) +:+
  " executed), so this node is only partly checked and a pass would certify hardware DCGM never tested. " +:+
  "If DCGM's per-SKU allowlist gated them off, set BURNIN_DCGM_ALLOW=<plugin>,... to pass -p " +:+
  "<plugin>.is_allowed=true. Otherwise target the profile with a node selector rather than accepting an " +:+
  "unverified pass. Reasons: " +:+ orNone (Join (dr_skipReasons res) "; ").

Section verdicts.
(** time.Duration's String. *)
Context (show_duration : Z → str).

Definition unfinished (budget : Z) : str :=
  "the diagnostic did not finish within " +:+ show_duration budget +:+ ", so the hardware is unjudged".

Definition verdict (rep : report) (res : diagResults) (code : Z) (timed_out : bool)
    (stdout stderr : str) (budget : Z) : ended :=
  if timed_out then finish rep exitError markerError (unfinished budget)
  else
  let c := Counts res in
  if dc_Total c =? 0 then
    if dr_SawResultStructure res then
      finish rep exitError markerError
        ("the diagnostic reported subtests this runner could not read, so the hardware is " +:+
         "unjudged; a document we cannot parse is not a part DCGM refused to test")
    else
      let sig := unsupportedSignature (stdout +:+ String newline "" +:+ stderr) in
      if negb (String.eqb sig "") then
        finish (set "reason" sig rep) exitSkip markerSkip ("DCGM will not run against this part: " +:+ sig)
      else finish rep exitError markerError
             "the diagnostic returned a result document containing no subtests"
  else if dc_Executed c =? 0 then
    let reason := Join (dr_skipReasons res) "; " in
    let reason := if String.eqb reason ""
                  then "DCGM skipped all " +:+ Itoa (dc_Total c) +:+ " subtests without saying why" else reason in
    finish (set "reason" reason rep) exitSkip markerSkip
      ("DCGM skipped every subtest on this part: " +:+ reason)
  else
  let rep := set_evidence res c rep in
  if 0 <? dc_Failed c then finish rep exitFail markerFail (failed_reason res c)
  else if 0 <? dc_NotRun c then
    if nonempty (dc_ExcusedNames c) then finish rep exitError markerError (excused_reason c)
    else finish rep exitError markerError
           (Itoa (dc_NotRun c) +:+ " of " +:+ Itoa (dc_Total c) +:+ " DCGM subtests did not run, so this node " +:+
            "is only partly checked; treating a partial suite as a pass would overstate what was verified")
  else if 0 <? dc_Skipped c then finish rep exitError markerError (skipped_reason res c)
  else if negb (code =? 0) then
    finish rep exitError markerError
      ("every DCGM subtest passed but dcgmi exited " +:+ Itoa code +:+
       "; the evidence contradicts itself, so the hardware is unjudged")
  else finish rep exitPass markerPass "".

(** ** run *)

(** What the run of the tools comes to: which tools are there, the host engine, the GPUs it
    discovers (-1 when it does not say), the fields sampled, and what dcgmi returned. *)
Record tools := MkTools {
  tl_missing : option str;
  tl_pruned : Z;
  tl_engine : option str;
  tl_gpus : Z + str;
  tl_sampled : report → report;
  tl_stdout : str;
  tl_stderr : str;
  tl_code : Z;
  tl_error : option str;
  tl_timed_out : bool;
  tl_elapsed : str;
}.

Context `{RangeOrder} (Unmarshal : str → any + str).

Definition set_spec (cfg : config) (spec : runSpec) (rep : report) : report :=
  let rep := if 0 <? sp_level spec then setInt "diag_level" (sp_level spec) rep else rep in
  let rep := set "diag_level_source" (sp_source spec) rep in
  let rep := set_if (negb (String.eqb (sp_tests spec) "")) "diag_tests" (sp_tests spec) rep in
  set_if (negb (String.eqb (cf_params cfg) "")) "diag_params" (cf_params cfg) rep.

Definition budget_of (cfg : config) (spec : runSpec) : Z :=
  if cf_duration cfg <=? 0 then 4 * levelBudget (sp_level spec) else cf_duration cfg.

(** What the end of the diagnostic is reported as. *)
Definition conclude (t : tools) (budget : Z) (cfg : config) (rep : report) : ended :=
  let set_exit rep := set "elapsed_s" (tl_elapsed t) (setInt "dcgmi_exit_code" (tl_code t) rep) in
  match parseDiagJSON Unmarshal (tl_stdout t) with
  | inl res =>
      verdict (set_exit (tl_sampled t (reportDiag res rep))) res (tl_code t) (tl_timed_out t)
        (tl_stdout t) (tl_stderr t) budget
  | inr _ =>
      let rep := set_exit (tl_sampled t rep) in
      if tl_timed_out t then
        finish rep exitError markerError
          (unfinished budget +:+ "; give the test more time or set BURNIN_DCGM_LEVEL lower")
      else
      match tl_error t with
      | Some err => finish rep exitError markerError ("could not execute " +:+ cf_dcgmiBin cfg +:+ ": " +:+ err)
      | None =>
          let sig := unsupportedSignature (tl_stdout t +:+ String newline "" +:+ tl_stderr t) in
          if negb (String.eqb sig "") then
            finish (set "reason" sig rep) exitSkip markerSkip ("DCGM will not run against this part: " +:+ sig)
          else finish rep exitError markerError
                 ("dcgmi exited " +:+ Itoa (tl_code t) +:+ " and produced no readable JSON result: " +:+
                  firstLine (tl_stderr t +:+ String newline "" +:+ tl_stdout t))
      end
  end.

(** The ticker of the sampler panics for an interval that is not positive, and a panic of a
    goroutine ends the process before the report is printed. *)
Definition run (e : env) (t : tools) : outcome :=
  let finish rep code marker reason := let r := finish rep code marker reason in Exits r.1 r.2 in
  match loadConfig e with
  | inr err => finish newReport exitError markerError err
  | inl cfg =>
  match resolveRun (cf_level cfg) (cf_tests cfg) (cf_duration cfg) with
  | inr err => finish newReport exitError markerError err
  | inl spec =>
      let rep := set_spec cfg spec newReport in
      let budget := budget_of cfg spec in
      let diagTimeout := resolveDiagTimeout (cf_diagTimeout cfg) budget in
      let rep := if 0 <? diagTimeout then setInt "diag_timeout_s" (diagTimeout `quot` second) rep else rep in
      match tl_missing t with
      | Some err => finish (set "reason" err rep) exitError markerError err
      | None =>
          let rep := if 0 <? tl_pruned t then setInt "pruned_objects" (tl_pruned t) rep else rep in
          match (if cf_startEngine cfg then tl_engine t else None) with
          | Some err => finish rep exitError markerError ("could not start " +:+ cf_hostEngineBin cfg +:+ ": " +:+ err)
          | None =>
              match tl_gpus t with
              | inr err => finish rep exitError markerError err
              | inl gpus =>
                  let rep := if 0 <=? gpus then setInt "devices_visible" gpus rep else rep in
                  if gpus =? 0 then
                    finish rep exitSkip markerSkip "DCGM discovered no supported GPUs on this node"
                  else if cf_sampleInterval cfg <=? 0 then Panics []
                  else let r := conclude t budget cfg rep in Exits r.1 r.2
              end
          end
      end
  end end.
End verdicts.

(** ** Properties *)

(** *** The counts *)
Definition is_status (s : status) (r : diagResults) (n : str) : bool := bool_decide (status_in r n = s).
Definition excused (r : diagResults) (n : str) : bool :=
  is_status statusFail r n && ex_excused (excusedFindings (findings_in r n)).
Definition indicted (r : diagResults) (n : str) : bool :=
  is_status statusFail r n && negb (ex_excused (excusedFindings (findings_in r n))).
Definition unrun (r : diagResults) (n : str) : bool := is_status statusNotRun r n || excused r n.
Definition ran (r : diagResults) (n : str) : bool :=
  is_status statusPass r n || is_status statusWarn r n || is_status statusFail r n.

Lemma counts_go r l c :
  let c' := foldl (count_one r) c l in
  dc_Total c' = dc_Total c + Z.of_nat (length l) ∧
  dc_Passed c' = dc_Passed c + count_if (is_status statusPass r) l ∧
  dc_Failed c' = dc_Failed c + count_if (indicted r) l ∧
  dc_Warned c' = dc_Warned c + count_if (is_status statusWarn r) l ∧
  dc_NotRun c' = dc_NotRun c + count_if (unrun r) l ∧
  dc_Skipped c' = dc_Skipped c + count_if (is_status statusSkip r) l ∧
  Z.of_nat (length (dc_ExcusedNames c')) = Z.of_nat (length (dc_ExcusedNames c)) + count_if (excused r) l.
Proof.
  revert c. induction l as [|n l IH]; intros c; [unfold count_if; simpl; lia|].
  cbn [foldl length]. cbv zeta in *. rewrite !count_if_cons.
  destruct (IH (count_one r c n)) as (-> & -> & -> & -> & -> & -> & ->). clear IH.
  unfold count_one, indicted, unrun, excused, is_status.
  destruct (status_in r n); try destruct (ex_excused _); cbn; rewrite ?length_app; simpl; lia.
Qed.

Lemma count_if_or3 {A} (p q q' : A → bool) l :
  (∀ x, p x = true → q x = false ∧ q' x = false) → (∀ x, q x = true → q' x = false) →
  count_if (λ x, p x || q x || q' x) l = count_if p l + count_if q l + count_if q' l.
Proof.
  intros H1 H2. induction l as [|x l IH]; [done|]. rewrite !count_if_cons, IH.
  specialize (H1 x). specialize (H2 x). destruct (p x), (q x), (q' x); simpl; try lia; naive_solver.
Qed.

Lemma Counts_spec r :
  let c := Counts r in
  dc_Total c = Z.of_nat (length (dr_order r)) ∧
  dc_Executed c = count_if (ran r) (dr_order r) ∧
  dc_Failed c = count_if (indicted r) (dr_order r) ∧
  dc_NotRun c = count_if (unrun r) (dr_order r) ∧
  dc_Skipped c = count_if (is_status statusSkip r) (dr_order r).
Proof.
  destruct (counts_go r (dr_order r) no_counts) as (Ht & Hp & Hf & Hw & Hn & Hs & He).
  unfold Counts. cbn [dc_Total dc_Executed dc_Failed dc_NotRun dc_Skipped].
  rewrite Ht, Hp, Hf, Hw, Hn, Hs, He. cbn [no_counts dc_Total dc_Passed dc_Failed dc_Warned dc_NotRun dc_Skipped dc_ExcusedNames length].
  split_and!; try lia. unfold ran. rewrite count_if_or3.
  - assert (count_if (is_status statusFail r) (dr_order r) =
            count_if (indicted r) (dr_order r) + count_if (excused r) (dr_order r)) as ->; [|lia].
    clear. induction (dr_order r) as [|n l IH]; [done|]. rewrite !count_if_cons, IH.
    unfold indicted, excused. destruct (is_status statusFail r n), (ex_excused _); simpl; lia.
  - intros n. unfold is_status. rewrite bool_decide_eq_true, !bool_decide_eq_false. intros ->. done.
  - intros n. unfold is_status. rewrite bool_decide_eq_true, !bool_decide_eq_false. intros ->. done.
Qed.

(** *** The exit code *)
Definition judge (timed_out refused : bool) (code : Z) (r : diagResults) : Z :=
  let some p := existsb p (dr_order r) in
  if timed_out then exitError
  else if negb (nonempty (dr_order r)) then
    if negb (dr_SawResultStructure r) && refused then exitSkip else exitError
  else if negb (some (ran r)) then exitSkip
  else if some (indicted r) then exitFail
  else if some (unrun r) || some (is_status statusSkip r) || negb (code =? 0) then exitError
  else exitPass.

Lemma count_existsb {A} (p : A → bool) l : (0 <? count_if p l) = existsb p l.
Proof.
  apply eq_true_iff_eq. by rewrite Z.ltb_lt, count_if_pos, existsb_elem.
Qed.

Lemma count_none {A} (p : A → bool) l : (count_if p l =? 0) = negb (existsb p l).
Proof.
  rewrite <-count_existsb. pose proof (count_if_nonneg p l).
  destruct (Z.eqb_spec (count_if p l) 0), (Z.ltb_spec 0 (count_if p l)); simpl; lia.
Qed.

Definition refuses (stdout stderr : str) : bool :=
  negb (String.eqb (unsupportedSignature (stdout +:+ String newline "" +:+ stderr)) "").

Lemma verdict_judge show rep res code timed_out stdout stderr budget :
  (verdict show rep res code timed_out stdout stderr budget).1 = judge timed_out (refuses stdout stderr) code res.
Proof.
  unfold verdict, judge. destruct timed_out; [done|].
  destruct (Counts_spec res) as (Ht & He & Hf & Hn & Hs). cbv zeta in *.
  rewrite Ht, He, Hf, Hn, Hs, count_none, !count_existsb.
  assert ((Z.of_nat (length (dr_order res)) =? 0) = negb (nonempty (dr_order res))) as ->.
  { by destruct (dr_order res). }
  destruct (nonempty (dr_order res)); simpl negb; cbv iota.
  2: { destruct (dr_SawResultStructure res); [done|]. unfold refuses. simpl.
       by destruct (String.eqb _ ""). }
  destruct (existsb (ran res) _); [simpl negb; cbv iota|done].
  destruct (existsb (indicted res) _); [done|].
  destruct (existsb (unrun res) _); [by destruct (nonempty _)|].
  destruct (existsb (is_status statusSkip res) _); [done|]. by destruct (code =? 0).
Qed.

(** *** One subtest *)
Section results.
Context (root : any) (res : diagResults).

(** The results of the document a diagnostic printed. *)
Definition results : list recorded := records (canon root) "".

Definition read_from : Prop :=
  core_of res = foldl record_core no_core results ∧
  dr_SawResultStructure res = structured (canon root).

Context (Hread : read_from).

Lemma results_ok : core_ok results (core_of res).
Proof. destruct Hread as [-> _]. apply core_spec. Qed.

Lemma in_order n : n ∈ dr_order res ↔ ∃ x, x ∈ results ∧ rc_name x = n.
Proof.
  destruct results_ok as [Ht _ Ho _]. rewrite (Ho n). specialize (Ht n). cbn in *.
  destruct (dr_tests res !! n) as [s|]; split.
  - intros _. destruct Ht as [(x & ? & ? & _) _]. eauto.
  - eauto.
  - by intros [].
  - intros (x & Hx & Hn). by apply Ht in Hx.
Qed.

Lemma status_worst n : n ∈ dr_order res → worst_at n results (status_in res n).
Proof.
  destruct results_ok as [Ht _ Ho _]. rewrite (Ho n). specialize (Ht n). cbn in *. unfold status_in.
  by destruct (dr_tests res !! n); [|intros []].
Qed.

Lemma findings_failures n : findings_in res n = failures n results.
Proof. destruct results_ok as [_ _ _ Hf]. apply (Hf n). Qed.

Lemma order_empty : nonempty (dr_order res) = false ↔ results = [].
Proof.
  split.
  - intros He. destruct results as [|x l] eqn:E; [done|].
    assert (rc_name x ∈ dr_order res) as Hin by (apply in_order; exists x; rewrite E; split; [left|done]).
    destruct (dr_order res); [by apply elem_of_nil in Hin|done].
  - intros He. destruct (dr_order res) as [|n l] eqn:E; [done|].
    assert (n ∈ dr_order res) as Hin by (rewrite E; left).
    apply in_order in Hin as (x & Hx & _). rewrite He in Hx. by apply elem_of_nil in Hx.
Qed.
End results.

(** [s] is among the statuses a document gives subtest [n]. *)
Definition says (root : any) (n : str) (s : status) : Prop :=
  ∃ x, x ∈ results root ∧ rc_name x = n ∧ rc_status x = s.

Lemma worst_says root n s :
  worst_at n (results root) s → says root n s ∧ ∀ t, says root n t → severity t <= severity s.
Proof. intros [H Hall]. split; [exact H|]. intros t (x & Hx & Hn & <-). by apply Hall. Qed.

Ltac by_severity :=
  repeat match goal with
         | Hall : (∀ t, says ?root ?n t → _), H : says ?root ?n ?t |- _ =>
             let L := fresh in pose proof (Hall t H) as L; simpl in L; clear H
         end; lia.

Section subtest.
Context (root : any) (res : diagResults) (Hread : read_from root res).

Lemma status_fail n : n ∈ dr_order res → status_in res n = statusFail ↔ says root n statusFail.
Proof.
  intros [Hs Hall]%(status_worst root res Hread)%worst_says. split; [by intros <-|].
  intros H. specialize (Hall _ H). by destruct (status_in res n).
Qed.

Lemma status_ran n :
  n ∈ dr_order res →
  status_in res n = statusPass ∨ status_in res n = statusWarn ↔
  ¬ says root n statusFail ∧ (says root n statusWarn ∨ says root n statusPass ∧ ¬ says root n statusNotRun).
Proof.
  intros [Hs Hall]%(status_worst root res Hread)%worst_says.
  destruct (status_in res n) eqn:E; simpl in Hall; split.
  all: try (intros [[=]|[=]]).
  all: try (intros (Hf & [Hw|[Hp Hn]])); auto; try done; try (exfalso; by_severity).
  - split; [intros Hf; by_severity|]. right. split; [done|]. intros Hn. by_severity.
  - split; [intros Hf; by_severity|]. by left.
Qed.

Lemma status_unran n :
  n ∈ dr_order res →
  status_in res n = statusSkip ∨ status_in res n = statusNotRun ↔
  ¬ says root n statusFail ∧ ¬ says root n statusWarn ∧ (says root n statusPass → says root n statusNotRun).
Proof.
  intros [Hs Hall]%(status_worst root res Hread)%worst_says.
  destruct (status_in res n) eqn:E; simpl in Hall; split.
  all: try (intros [[=]|[=]]).
  all: try (intros (Hf & Hw & Hp)); auto; try done.
  - split_and!; intros H; exfalso; by_severity.
  - specialize (Hp Hs). exfalso. by_severity.
  - split_and!; try (intros H; exfalso; by_severity). by intros _.
Qed.

Lemma all_order (P : str → Prop) :
  (∀ n, n ∈ dr_order res → P n) ↔ ∀ x, x ∈ results root → P (rc_name x).
Proof.
  split.
  - intros H x Hx. apply H, (in_order root res Hread). eauto.
  - intros H n (x & Hx & <-)%(in_order root res Hread). by apply H.
Qed.

Lemma indicted_says n :
  n ∈ dr_order res →
  indicted res n = true ↔
  says root n statusFail ∧ (failures n (results root) = [] ∨
    ∃ f, f ∈ failures n (results root) ∧ classify f = findingHardware).
Proof.
  intros Hn. unfold indicted, is_status.
  rewrite andb_true_iff, bool_decide_eq_true, (status_fail n Hn), negb_true_iff,
    (findings_failures root res Hread n), <-not_true_iff_false, excusedFindings_spec.
  set (l := failures n (results root)). split; intros [Hf H]; (split; [done|]).
  - destruct (decide (l = [])) as [|Hne]; [by left|]. right.
    destruct (decide (Exists (λ f, classify f = findingHardware) l)) as [He|He].
    + apply Exists_exists in He as (f & ? & ?). eauto.
    + exfalso. apply H. split; [done|]. intros f Hin Hc. apply He, Exists_exists. eauto.
  - intros [Hne Hall]. destruct H as [?|(f & Hin & Hc)]; [done|]. by apply (Hall f).
Qed.
End subtest.

Lemma parse_read `{RangeOrder} Unmarshal stdout body root res :
  extractJSON stdout = inl body → Unmarshal body = inl root →
  parseDiagJSON Unmarshal stdout = inl res → read_from root res.
Proof.
  unfold parseDiagJSON, read_from, results. intros -> ->. intros [= <-]. split.
  - apply walk_core.
  - by rewrite walk_saw.
Qed.

(** *** What each exit code is evidence of *)
Lemma existsb_not {A} (p : A → bool) l : existsb p l = false ↔ ∀ x, x ∈ l → p x = false.
Proof. apply existsb_false_elem. Qed.

Section codes.
Context (root : any) (res : diagResults) (Hread : read_from root res).
Context (timed_out refused : bool) (code : Z).

Lemma judge_pass :
  judge timed_out refused code res = exitPass ↔
  timed_out = false ∧ code = 0 ∧ results root ≠ [] ∧
  ∀ x, x ∈ results root → let n := rc_name x in
    ¬ says root n statusFail ∧ (says root n statusWarn ∨ says root n statusPass ∧ ¬ says root n statusNotRun).
Proof.
  cbv zeta. rewrite <-(all_order root res Hread (λ n, ¬ says root n statusFail ∧
    (says root n statusWarn ∨ says root n statusPass ∧ ¬ says root n statusNotRun))).
  setoid_rewrite <-(order_empty root res Hread).
  unfold judge. destruct timed_out; [by split; [|intros []]|].
  destruct (nonempty (dr_order res)) eqn:En; simpl.
  2: { destruct (_ && _); (split; [done|]); by intros (_ & _ & Hne & _); by destruct Hne. }
  split.
  - destruct (existsb (ran res) _); simpl; [|done].
    destruct (existsb (indicted res) _) eqn:Ei; [done|].
    destruct (existsb (unrun res) _) eqn:Eu; [done|].
    destruct (existsb (is_status statusSkip res) _) eqn:Es; [done|]. simpl.
    destruct (Z.eqb_spec code 0) as [->|]; [|done]. intros _. split_and!; try done.
    intros n Hn. apply (status_ran root res Hread n Hn).
    rewrite existsb_not in Ei, Eu, Es. specialize (Ei n Hn). specialize (Eu n Hn). specialize (Es n Hn).
    unfold indicted, unrun, excused, is_status in *. destruct (status_in res n); simpl in *; auto; try done.
    by destruct (ex_excused _).
  - intros (_ & -> & _ & Hall).
    assert (∀ n, n ∈ dr_order res → ran res n = true ∧ indicted res n = false ∧ unrun res n = false ∧
              is_status statusSkip res n = false) as Hn.
    { intros n Hn. specialize (Hall n Hn). apply (status_ran root res Hread n Hn) in Hall.
      unfold ran, indicted, unrun, excused, is_status. by destruct Hall as [->| ->]. }
    assert (existsb (ran res) (dr_order res) = true) as ->.
    { destruct (dr_order res) as [|n l]; [done|]. simpl. by rewrite (proj1 (Hn n ltac:(left))). }
    rewrite (proj2 (existsb_not (indicted res) _)) by (intros; by apply Hn).
    rewrite (proj2 (existsb_not (unrun res) _)) by (intros; by apply Hn).
    by rewrite (proj2 (existsb_not (is_status statusSkip res) _)) by (intros; by apply Hn).
Qed.

Lemma judge_fail :
  judge timed_out refused code res = exitFail ↔
  timed_out = false ∧ ∃ n, says root n statusFail ∧
    (failures n (results root) = [] ∨ ∃ f, f ∈ failures n (results root) ∧ classify f = findingHardware).
Proof.
  assert ((∃ n, n ∈ dr_order res ∧ indicted res n = true) ↔
          ∃ n, says root n statusFail ∧ (failures n (results root) = [] ∨
            ∃ f, f ∈ failures n (results root) ∧ classify f = findingHardware)) as <-.
  { split.
    - intros (n & Hn & H). exists n. by apply (indicted_says root res Hread n Hn).
    - intros (n & Hs & H). assert (n ∈ dr_order res) as Hn.
      { apply (in_order root res Hread). destruct Hs as (x & ? & ? & _). eauto. }
      exists n. split; [done|]. by apply (indicted_says root res Hread n Hn). }
  unfold judge. destruct timed_out; [by split; [|intros []]|].
  destruct (nonempty (dr_order res)) eqn:En; simpl.
  2: { destruct (_ && _); (split; [done|]); intros (_ & n & Hn & _);
         (destruct (dr_order res); [by apply elem_of_nil in Hn|done]). }
  rewrite <-existsb_elem. destruct (existsb (indicted res) _) eqn:Ei.
  - apply existsb_elem in Ei as (n & Hn & Ei).
    assert (existsb (ran res) (dr_order res) = true) as ->; [|done].
    apply existsb_elem. exists n. split; [done|]. unfold ran.
    apply andb_true_iff in Ei as [-> _]. by rewrite !orb_true_r.
  - destruct (existsb (ran res) _); simpl; [|by split; [|intros []]].
    destruct (_ || _); by split; [|intros []].
Qed.

Lemma judge_skip :
  judge timed_out refused code res = exitSkip ↔
  timed_out = false ∧
  (results root = [] ∧ structured (canon root) = false ∧ refused = true ∨
   results root ≠ [] ∧ ∀ x, x ∈ results root → let n := rc_name x in
     ¬ says root n statusFail ∧ ¬ says root n statusWarn ∧ (says root n statusPass → says root n statusNotRun)).
Proof.
  cbv zeta. rewrite <-(all_order root res Hread (λ n, ¬ says root n statusFail ∧ ¬ says root n statusWarn ∧
    (says root n statusPass → says root n statusNotRun))).
  setoid_rewrite <-(order_empty root res Hread). rewrite <-(proj2 Hread).
  unfold judge. destruct timed_out; [by split; [|intros []]|].
  destruct (nonempty (dr_order res)) eqn:En; simpl.
  2: { split.
       - intros Hc. split; [done|]. left. by destruct (dr_SawResultStructure res), refused.
       - intros (_ & [(_ & -> & ->)|[Hne _]]); [done|by destruct Hne]. }
  destruct (existsb (ran res) _) eqn:Er; simpl.
  - split; [destruct (existsb (indicted res) _); [done|]; by destruct (_ || _)|].
    intros (_ & [[? _]|[_ Hall]]); [done|]. apply existsb_elem in Er as (n & Hn & Er).
    specialize (Hall n Hn). apply (status_unran root res Hread n Hn) in Hall.
    unfold ran, is_status in Er. by destruct Hall as [E|E]; rewrite E in Er.
  - split; [|done]. intros _. split; [done|]. right. split; [done|]. intros n Hn.
    apply (status_unran root res Hread n Hn). rewrite existsb_not in Er. specialize (Er n Hn).
    unfold ran, is_status in Er. destruct (status_in res n); auto; done.
Qed.
End codes.


(** *** Determinism *)
Lemma judge_core timed_out refused code r1 r2 :
  core_of r1 = core_of r2 → dr_SawResultStructure r1 = dr_SawResultStructure r2 →
  judge timed_out refused code r1 = judge timed_out refused code r2.
Proof.
  intros [= Et Eo Ef] Es.
  unfold judge, ran, indicted, unrun, excused, is_status, status_in, findings_in.
  by rewrite Et, Eo, Ef, Es.
Qed.

(** Two decoders that give a document's maps in different orders. *)
Definition same_decoder (U1 U2 : str → any + str) : Prop :=
  ∀ s, match U1 s, U2 s with
       | inl a, inl b => same_doc a b
       | inr _, inr _ => True
       | _, _ => False
       end.

Lemma conclude_code (o1 o2 : RangeOrder) show U1 U2 t budget cfg rep :
  same_decoder U1 U2 →
  (@conclude show o1 U1 t budget cfg rep).1 = (@conclude show o2 U2 t budget cfg rep).1.
Proof.
  intros HU. unfold conclude, parseDiagJSON. destruct (extractJSON (tl_stdout t)) as [body|]; [|done].
  specialize (HU body). destruct (U1 body) as [a|], (U2 body) as [b|]; try done.
  rewrite !verdict_judge. apply judge_core.
  - by rewrite !walk_core, (canon_same a b HU).
  - by rewrite !walk_saw, (canon_same a b HU).
Qed.

(** C35: the exit code of the runner does not depend on the order in which a range over a map
    takes its members, nor on the order the decoder gave them. *)
Theorem run_order_free (o1 o2 : RangeOrder) (show : Z → str) (U1 U2 : str → any + str) (e : env) (t : tools) :
  same_decoder U1 U2 → exit_code (@run show o1 U1 e t) = exit_code (@run show o2 U2 e t).
Proof.
  intros HU. unfold run. destruct (loadConfig e) as [cfg|]; [|done].
  destruct (resolveRun _ _ _) as [spec|]; [|done].
  destruct (tl_missing t); [done|]. destruct (if cf_startEngine cfg then tl_engine t else None); [done|].
  destruct (tl_gpus t) as [gpus|]; [|done]. destruct (gpus =? 0); [done|].
  destruct (cf_sampleInterval cfg <=? 0); [done|]. by apply conclude_code.
Qed.

(** *** What pkg/runner makes of it *)
Lemma finish_declared rep code marker reason :
  (code = exitSkip → marker = markerSkip ∧ reason ≠ "") →
  declared (finish rep code marker reason).1 (finish rep code marker reason).2.
Proof.
  intros H Hc. destruct (H Hc) as [-> Hr]. unfold finish. cbn [snd].
  destruct (String.eqb_spec reason "") as [|_]; [done|].
  by apply (declares_marker (write_lines rep) "DCGM_DIAG_SKIP: ").
Qed.

Ltac finishes :=
  repeat first [apply finish_declared; first [by intros ?%(f_equal Z.to_nat) | by split] | case_match].

Lemma conclude_declared `{RangeOrder} show U t budget cfg rep :
  declared (conclude show U t budget cfg rep).1 (conclude show U t budget cfg rep).2.
Proof. unfold conclude, verdict. finishes. Qed.

Lemma dcgm_run_marked `{RangeOrder} show U e t : marked (run show U e t).
Proof.
  assert (∀ rep marker reason, marked (let r := finish rep exitError marker reason in Exits r.1 r.2)) as Hf
    by (intros; by apply finish_declared).
  unfold run. destruct (loadConfig e) as [cfg|]; [|apply Hf].
  destruct (resolveRun _ _ _) as [spec|]; [|apply Hf].
  destruct (tl_missing t); [apply Hf|]. destruct (if cf_startEngine cfg then tl_engine t else None); [apply Hf|].
  destruct (tl_gpus t) as [gpus|]; [|apply Hf]. destruct (gpus =? 0); [by apply finish_declared|].
  destruct (cf_sampleInterval cfg <=? 0); [done|]. apply conclude_declared.
Qed.

(** *** Where the verdict falls short *)
Definition doc (subtests : list (str * members)) : any :=
  AObj [("tests", AArr ((λ nm : str * members, AObj [("name", AStr nm.1); ("results", AArr [AObj nm.2])]) <$> subtests))].

(** One subtest with a result on each of two GPUs. *)
Definition two_gpus (a b : str) : any :=
  AObj [("tests", AArr [AObj [("name", AStr "memory");
    ("results", AArr [AObj [("status", AStr a)]; AObj [("status", AStr b)]])]])].

Definition exit_of (root : any) : Z :=
  (verdict Itoa newReport (@walk key_order no_results (canon root) "" 0) 0 false "" "" 0).1.

(** A suite in which nothing ran is reported as one that does not apply to the part. *)
Lemma nothing_ran_is_skipped :
  exit_of (doc [("memory", [("status", AStr "Not Run")]); ("pcie", [("status", AStr "aborted")])]) = exitSkip.
Proof. by vm_compute. Qed.

(** A warning on one GPU certifies another the subtest never ran on. *)
Lemma warning_hides_not_run : exit_of (two_gpus "Warn" "Not Run") = exitPass.
Proof. by vm_compute. Qed.

(** A pass on one GPU certifies another it was skipped on. *)
Lemma pass_hides_skip : exit_of (two_gpus "Pass" "Skip") = exitPass.
Proof. by vm_compute. Qed.

(** A subtest whose status the runner cannot read is left out of a pass. *)
Lemma unread_subtest_passes :
  exit_of (doc [("software", [("status", AStr "Pass")]); ("memory", [("state", AStr "Fail")])]) = exitPass.
Proof. by vm_compute. Qed.

(** A finding one object further down is dropped, and with it what indicts the hardware. *)
Definition isolate : any :=
  AObj [("warning", AStr "row remap failure"); ("error_severity", ANum (float_of_Z 2));
        ("error_category", ANum (float_of_Z 10))].

Lemma nested_finding_dropped :
  exit_of (doc [("memory", [("status", AStr "Fail"); ("info", AStr "Persistence mode is disabled");
    ("warnings", AObj [("gpu0", AArr [isolate])])])]) = exitError ∧
  exit_of (doc [("memory", [("status", AStr "Fail"); ("info", AStr "Persistence mode is disabled");
    ("warnings", AArr [isolate])])]) = exitFail.
Proof. by vm_compute. Qed.

(** What is said about a failure does depend on the order of a range. *)
Definition two_reasons : any :=
  doc [("memory", [("status", AStr "Fail"); ("warnings", AObj [("a", AStr "first"); ("b", AStr "second")])])].

Lemma reasons_depend_on_order :
  dr_failReasons (@walk key_order no_results (canon two_reasons) "" 0) ≠
  dr_failReasons (@walk reverse_order no_results (canon two_reasons) "" 0).
Proof. by vm_compute. Qed.

(** An interval that is positive in seconds and negative in nanoseconds ends the runner. *)
Definition slow_sampling : env := <["BURNIN_DCGM_SAMPLE_INTERVAL_SECONDS" := "9223372037"]> ∅.

Definition found_gpu : tools := MkTools None 0 None (inl 1) id "" "" 0 None false "1.0".

Lemma slow_sampling_panics show U : @run show key_order U slow_sampling found_gpu = Panics [].
Proof. by vm_compute. Qed.

(** *** Witnesses *)
Definition passing : any :=
  doc [("software", [("status", AStr "Pass")]); ("memory", [("status", AStr "Pass")])].

Definition passing_text : str := "{tests}".


Definition found : tools :=
  MkTools None 0 None (inl 1) id passing_text "" 0 None false "1.0".

Definition reversed : any := AObj [("x", ANil); ("tests", AArr [])].
Definition ordered : any := AObj [("tests", AArr []); ("x", ANil)].

Lemma run_order_free_witness :
  same_doc reversed ordered ∧
  exit_code (@run Itoa key_order (λ _, inl reversed) ∅ found) =
  exit_code (@run Itoa reverse_order (λ _, inl ordered) ∅ found).
Proof.
  assert (same_doc reversed ordered) as Hd.
  { apply same_perm; [|apply perm_swap]. by apply (bool_decide_unpack _). }
  split; [exact Hd|]. apply (run_order_free key_order reverse_order). intros s. exact Hd.
Defined.
