(* ===== verification/DcgmFields.v ===== *)
(** * runners/dcgm-diag: the fields sampled beside the diagnostic (fields.go)

    Rows of dcgmi dmon become series, one for each field and GPU; each metric is one number
    of its series, when it was measured.  The GPUs of a range come in the order of a
    [RangeOrder]. *)

From Stdlib Require Import Ascii.
From S2P Require Import Prelude GoStrings GoFloat Contract Registry Runner RunnerLib DcgmPlan DcgmDiag DcgmVerdict.
Open Scope stdpp_scope.
Open Scope Z_scope.

Inductive aggregation := aggMax | aggDelta | aggLast.

Record dcgmField := MkDcgmField { df_sym : str; df_id : Z; df_key : str; df_agg : aggregation }.

Definition sampledFields : list dcgmField :=
  [MkDcgmField "DCGM_FI_DEV_GPU_TEMP" 150 "gpu_temp_c" aggMax;
   MkDcgmField "DCGM_FI_DEV_XID_ERRORS" 230 "last_xid_code" aggLast;
   MkDcgmField "DCGM_FI_DEV_PCIE_REPLAY_COUNTER" 202 "pcie_replay_count" aggDelta;
   MkDcgmField "DCGM_FI_DEV_ECC_SBE_AGG_TOTAL" 312 "ecc_sbe_total" aggDelta;
   MkDcgmField "DCGM_FI_DEV_ECC_DBE_AGG_TOTAL" 313 "ecc_dbe_total" aggDelta;
   MkDcgmField "DCGM_FI_DEV_UNCORRECTABLE_REMAPPED_ROWS" 393 "rows_remapped" aggDelta;
   MkDcgmField "DCGM_FI_DEV_CORRECTABLE_REMAPPED_ROWS" 394 "rows_remapped" aggDelta].

Definition printFieldIDs : list str := (λ f, df_sym f +:+ "=" +:+ Itoa (df_id f)) <$> sampledFields.
Definition fieldIDs : str := Join ((λ f, Itoa (df_id f)) <$> sampledFields) ",".

(** ** Series *)
Record series := MkSeries { se_first : float64; se_last : float64; se_max : float64; se_n : Z }.
Definition no_series : series := MkSeries fzero fzero fzero 0.

Definition observe (v : float64) (s : series) : series :=
  MkSeries (if se_n s =? 0 then v else se_first s) v
    (if (se_n s =? 0) || flt (se_max s) v then v else se_max s) (se_n s + 1).

Record sampler := MkSampler {
  sm_state : gmap (Z * str) series;
  sm_gpus : gmap str ();
  sm_samples : Z;
  sm_mismatched : Z;
}.
Definition newSampler : sampler := MkSampler ∅ ∅ 0 0.

Definition isDmonDataLine (line : str) : bool :=
  match Fields line with f :: _ :: _ => EqualFold f "GPU" | _ => false end.

(** A row: its GPU and a value for each field that has one. *)
Definition parseDmonSample (line : str) (want : nat) : option (str * list (option float64)) :=
  let line := TrimSpace line in
  if String.eqb line "" || HasPrefix line "#" then None
  else
    match Fields line with
    | gpu :: entity :: raws =>
        if negb (length raws =? want)%nat || negb (EqualFold gpu "GPU") then None
        else match Atoi entity with
             | None => None
             | Some _ =>
                 Some (entity, (λ raw, match ParseFloat raw with (v, None) => Some v | _ => None end) <$> raws)
             end
    | _ => None
    end.

Definition observe_value (gpu : str) (st : gmap (Z * str) series) (iv : Z * option float64) : gmap (Z * str) series :=
  match iv.2 with
  | None => st
  | Some v => <[(iv.1, gpu) := observe v (default no_series (st !! (iv.1, gpu)))]> st
  end.

Definition numbered {A} (l : list A) : list (Z * A) := imap (λ i x, (Z.of_nat i, x)) l.

(** The body of observeAll's loop, with the rows counted. *)
Definition observe_line (acc : sampler * Z) (line : str) : sampler * Z :=
  let '(s, rows) := acc in
  match parseDmonSample line (length sampledFields) with
  | None =>
      (MkSampler (sm_state s) (sm_gpus s) (sm_samples s)
         (sm_mismatched s + if isDmonDataLine line then 1 else 0), rows)
  | Some (gpu, values) =>
      (MkSampler (foldl (observe_value gpu) (sm_state s) (numbered values)) (<[gpu := ()]> (sm_gpus s))
         (sm_samples s) (sm_mismatched s), rows + 1)
  end.

Definition observeAll (s : sampler) (text : str) : sampler :=
  let '(s, rows) := foldl observe_line (s, 0) (Split text newline) in
  if 0 <? rows then MkSampler (sm_state s) (sm_gpus s) (sm_samples s + 1) (sm_mismatched s) else s.

(** ** The report *)
Definition formatNumber (v : float64) : str :=
  if negb (IsInf v) && negb (IsNaN v) && is_whole v && flt (fabs v) (float_of_Z (10 ^ 15))
  then Itoa (int_of_float v) else FormatFloat v.

Definition setNumber (key : str) (v : float64) (r : report) : report := set key (formatNumber v) r.

Section reported.
Context `{RangeOrder}.

(** The series of the fields [idx], field by field, over the GPUs of a range. *)
Definition series_of (s : sampler) (idx : list Z) : list series :=
  i ← idx; omap (λ gpu, sm_state s !! (i, gpu)) (keys_of (sm_gpus s)).

Definition larger (value : series → float64) (best : option float64) (ser : series) : option float64 :=
  if negb (0 <? se_n ser) then best
  else match best with
       | Some b => if flt b (value ser) then Some (value ser) else best
       | None => Some (value ser)
       end.

Definition best_of (value : series → float64) (l : list series) : option float64 := foldl (larger value) None l.

(** What the deltas come to: their sum, whether there is one, whether a counter went back. *)
Record movement := MkMovement { mv_total : float64; mv_found : bool; mv_back : bool }.

Definition move (m : movement) (ser : series) : movement :=
  if se_n ser <? 2 then m
  else
    let d := fsub (se_last ser) (se_first ser) in
    if flt d fzero then MkMovement (mv_total m) true true
    else MkMovement (fadd (mv_total m) d) true (mv_back m).

Definition movement_of (l : list series) : movement := foldl move (MkMovement fzero false false) l.

Definition indices (key : str) : list Z :=
  omap (λ iv : Z * dcgmField, if String.eqb (df_key iv.2) key then Some iv.1 else None) (numbered sampledFields).

Definition report_key (s : sampler) (acc : report * bool) (kv : str * aggregation) : report * bool :=
  let '(rep, reset) := acc in
  let '(key, agg) := kv in
  let l := series_of s (indices key) in
  match agg with
  | aggMax => (match best_of se_max l with Some b => setNumber key b rep | None => rep end, reset)
  | aggDelta =>
      if sm_samples s <? 2 then (rep, reset)
      else
        let m := movement_of l in
        if negb (mv_found m) then (rep, reset)
        else if mv_back m then (set key "n/a" rep, true)
        else (setNumber key (mv_total m) rep, reset)
  | aggLast => (match best_of se_last l with Some b => setNumber key b rep | None => rep end, reset)
  end.

(** The keys in the order of their first field, each with that field's aggregation. *)
Definition keys_in_order : list (str * aggregation) :=
  foldl (λ acc f, if existsb (λ ka : str * aggregation, String.eqb ka.1 (df_key f)) acc then acc
                  else acc ++ [(df_key f, df_agg f)]) [] sampledFields.

Definition report_fields (s : sampler) (rep : report) : report :=
  let rep := if (0 <? Z.of_nat (size (sm_gpus s))) then setInt "devices_visible" (Z.of_nat (size (sm_gpus s))) rep else rep in
  let '(rep, reset) := foldl (report_key s) (rep, false) keys_in_order in
  let rep := setInt "sample_count" (sm_samples s) rep in
  if reset then set "counter_baseline_reset" "true" rep else rep.

(** ** Properties *)

(** A counter that went backwards between its first and its last reading. *)
Definition went_back (ser : series) : Prop :=
  2 <= se_n ser ∧ flt (fsub (se_last ser) (se_first ser)) fzero = true.

Lemma move_back m ser : mv_back (move m ser) = true ↔ mv_back m = true ∨ went_back ser.
Proof.
  unfold move, went_back. destruct (Z.ltb_spec (se_n ser) 2) as [Hn|Hn].
  - split; [by left|]. intros [?|[? _]]; [done|lia].
  - destruct (flt _ fzero); cbn [mv_back].
    + split; [by right|done].
    + split; [by left|]. intros [?|[_ ?]]; done.
Qed.

Lemma movement_back l m :
  mv_back (foldl move m l) = true ↔ mv_back m = true ∨ Exists went_back l.
Proof.
  revert m. induction l as [|s l IH]; intros m; cbn [foldl].
  - rewrite Exists_nil. split; [by left|by intros [?|[]]].
  - rewrite IH, move_back, Exists_cons. tauto.
Qed.

(** Two readings make a delta. *)
Lemma movement_found l m :
  mv_found (foldl move m l) = true ↔ mv_found m = true ∨ Exists (λ ser, 2 <= se_n ser) l.
Proof.
  revert m. induction l as [|s l IH]; intros m; cbn [foldl].
  - rewrite Exists_nil. split; [by left|by intros [?|[]]].
  - rewrite IH, Exists_cons. assert (mv_found (move m s) = true ↔ mv_found m = true ∨ 2 <= se_n s) as ->; [|tauto].
    unfold move. destruct (Z.ltb_spec (se_n s) 2) as [Hn|Hn].
    + split; [by left|]. intros [?|?]; [done|lia].
    + destruct (flt _ fzero); cbn [mv_found]; (split; [by right|done]).
Qed.

(** What a delta is reported as: nothing without two readings, unmeasurable after a reset,
    and a number otherwise. *)
Lemma delta_reported s rep reset key :
  2 <= sm_samples s →
  let l := series_of s (indices key) in
  let acc := report_key s (rep, reset) (key, aggDelta) in
  (¬ Exists (λ ser, 2 <= se_n ser) l → acc = (rep, reset)) ∧
  (Exists went_back l → rp_vals acc.1 !! key = Some (sanitize "n/a") ∧ acc.2 = true) ∧
  (Exists (λ ser, 2 <= se_n ser) l → ¬ Exists went_back l →
   acc = (setNumber key (mv_total (movement_of l)) rep, reset)).
Proof.
  intros Hs l acc. unfold acc, report_key. destruct (Z.ltb_spec (sm_samples s) 2); [lia|]. fold l. cbv zeta.
  pose proof (movement_found l (MkMovement fzero false false)) as Hf.
  pose proof (movement_back l (MkMovement fzero false false)) as Hb. fold (movement_of l) in Hf, Hb.
  cbn [mv_found mv_back] in Hf, Hb.
  assert (Exists went_back l → Exists (λ ser, 2 <= se_n ser) l) as Hsub.
  { intros He. eapply Exists_impl; [exact He|]. by intros x [? _]. }
  split_and!.
  - intros Hn. destruct (mv_found (movement_of l)); [|done]. exfalso. apply Hn.
    destruct (proj1 Hf eq_refl); done.
  - intros He. rewrite (proj2 Hf (or_intror (Hsub He))), (proj2 Hb (or_intror He)).
    cbn [negb]. split; [|done]. apply lookup_insert_eq.
  - intros He Hnb. rewrite (proj2 Hf (or_intror He)). cbn [negb].
    destruct (mv_back (movement_of l)); [|done]. exfalso. apply Hnb.
    destruct (proj1 Hb eq_refl); done.
Qed.
End reported.

(** A GPU that was read once is left out of the sum, though a sum without one of its terms is
    an unknown one. *)
Definition row (gpu ecc : str) : str := "GPU " +:+ gpu +:+ " 45 0 0 0 " +:+ ecc +:+ " 0 0".

Definition once_read : sampler :=
  observeAll (observeAll newSampler (Join [row "0" "0"; row "1" "0"] (String newline ""))) (row "0" "0").

Lemma missing_term_sums :
  rp_vals (@report_fields key_order once_read newReport) !! "ecc_dbe_total" = Some "0" ∧
  se_n <$> sm_state once_read !! (4, "1") = Some 1.
Proof. by vm_compute. Qed.
