(* ===== verification/RunnerContract.v ===== *)
(** * What the runners print is what pkg/runner reads

    Every way the Go runners modelled here can end, over everything they can meet, carries
    the marker their exit code needs. *)

From Stdlib Require Import Ascii.
From S2P Require Import Prelude GoStrings GoFloat Contract Registry Runner RunnerLib.
From S2P Require Import XpuDiag NetGuard DiskIo DcgmPlan DcgmDiag DcgmVerdict.
Open Scope stdpp_scope.

(** A runner: what it can meet, and how each of it ends. *)
Class GoRunner (W : Type) := {
  ends_with : W → outcome;
  ends_marked : ∀ w, marked (ends_with w);
}.

#[export] Program Instance xpu_runner (U : str → XpuDiag.diagResponse + str) : GoRunner (env * str * XpuDiag.ran) :=
  {| ends_with w := let r := XpuDiag.run U w.1.1 w.1.2 w.2 in Exits r.1 r.2 |}.
Next Obligation. intros U w. apply XpuDiag.xpu_run_declared. Qed.

Definition tcp_world : Type :=
  env * NetGuard.sight * option str * list NetGuard.conn * option str * NetGuard.meeting.

#[export] Program Instance tcp_runner (U : str → NetGuard.iperfDoc + str) : GoRunner tcp_world :=
  {| ends_with w :=
       let '(e, s, missing, conns, died, m) := w in
       let r := NetGuard.run U e s missing conns died m in Exits (NetGuard.en_code r) (NetGuard.en_lines r) |}.
Next Obligation. intros U [[[[[e s] missing] conns] died] m]. apply NetGuard.tcp_run_declared. Qed.

#[export] Program Instance disk_runner : GoRunner (env * DiskIo.disk) :=
  {| ends_with w := DiskIo.en_end (DiskIo.run w.1 w.2) |}.
Next Obligation. intros w. apply DiskIo.disk_run_marked. Qed.

#[export] Program Instance dcgm_runner `{RangeOrder} (show : Z → str) (U : str → DcgmDiag.any + str) :
    GoRunner (env * DcgmVerdict.tools) :=
  {| ends_with w := DcgmVerdict.run show U w.1 w.2 |}.
Next Obligation. intros o show U w. apply DcgmVerdict.dcgm_run_marked. Qed.

(** What pkg/runner should read: of a runner that exits, the verdict of its code; of one that
    panics, an error and never a skip. *)
Definition read_right (kind : TestKind) (o : outcome) : Prop :=
  let r := Parse kind (stdout_of (printed_by o)) (exit_code o) in
  match o with
  | Exits code _ => r_Verdict r = VerdictFor code ∧ r_UndeclaredSkip r = false
  | Panics _ => r_Verdict r = VerdictError ∧ r_UndeclaredSkip r = true
  end.

Lemma runner_read `{GoRunner W} (kind : TestKind) (w : W) : read_right kind (ends_with w).
Proof.
  pose proof (ends_marked w) as Hm. unfold read_right.
  destruct (Parse_verdict kind (stdout_of (printed_by (ends_with w))) (exit_code (ends_with w))) as (-> & _ & ->).
  destruct (ends_with w) as [code lines|lines]; cbn [marked printed_by exit_code] in *.
  - destruct (Z.eqb_spec code 2) as [->|]; [|done]. by rewrite (Hm eq_refl).
  - by rewrite Hm.
Qed.

(** C33: pkg/runner reads the runners right: whatever their environment, tools and hardware come
    to, dcgm-diag, tcp-baseline, disk-io and xpu-diag either exit with a code whose verdict
    Parse returns, none of their skips demoted for want of a marker; or panic (disk-io over a
    buffer or a queue depth no slice can have, dcgm-diag over a sampling interval that wraps
    around), and that exit 2 is read as an error and not as a skip. *)
Theorem runners_are_read `{RangeOrder} (kind : TestKind) (show : Z → str)
    (Ud : str → DcgmDiag.any + str) (Ux : str → XpuDiag.diagResponse + str) (Ut : str → NetGuard.iperfDoc + str)
    (dcgm : env * DcgmVerdict.tools) (tcp : tcp_world) (disk : env * DiskIo.disk) (xpu : env * str * XpuDiag.ran) :
  read_right kind (@ends_with _ (dcgm_runner show Ud) dcgm) ∧
  read_right kind (@ends_with _ (tcp_runner Ut) tcp) ∧
  read_right kind (@ends_with _ disk_runner disk) ∧
  read_right kind (@ends_with _ (xpu_runner Ux) xpu).
Proof. split_and!; apply runner_read. Qed.
